(* ===== verification/_CoqProject ===== *)
-Q . S2P
Prelude.v
Codec.v
ReplayWindow.v
Atomic.v
Nonce.v
Crypto.v
Aead.v
Proto.v
State.v
KeySchedule.v
Attestation.v
Federation.v
Tee.v
Session.v
Ticket.v
KeyExchange.v
Pqc.v
Handshake.v
Http.v
Oblivious.v
Ahl.v
Trailers.v
Sfv.v
Provenance.v
Headers.v
Fabric.v
Registry.v
RateLimit.v
ServerGuards.v
Middleware.v
Stream.v
Client.v
Extractors.v
Exchange.v
Hpke.v
Handlers.v
Ingress.v
HandshakeWire.v
ClientCall.v
Transports.v
StreamCall.v
Mesh.v
Builder.v
Services.v
A2a.v
Mcp.v
Verifiers.v
Hardware.v
Cli.v
Zk.v
Llm.v
Oracle.v
Eat.v
Ws.v
ChatRoom.v
Wasm.v
Multiparty.v
Cffi.v
Runtimes.v
Gateways.v
AgentServer.v
FabricSync.v
FabricPolicy.v
Aiql.v
