(* ===== verification/Prelude.v ===== *)
(** * OpenHTTPA: verification development

    OpenHTTPA extends HTTP by attested sessions: a client and a server that runs
    in a trusted execution environment agree on keys in a handshake that is bound
    to attestation quotes, and then exchange encrypted and authenticated requests
    and responses.  This library models the Rust implementation, from nonces and
    record encryption over sessions, handshake and attestation up to the server, the
    client, the services built on them, the bindings for browsers and other languages
    and the demonstrations, and proves what makes them correct.  Paths are
    relative to [crates/openhttpa-<crate>/src], or to [src] for [bindings], [modules] and
    [demo].

    ** The program and its parts

    A handshake ([core/handshake.rs], called by [server/handlers.rs] and answered
    in [client/client.rs]) negotiates parameters, runs the hybrid key exchange
    ([crypto/key_exchange.rs]), verifies quotes ([attestation]), hashes the
    transcript and derives keys ([crypto/hkdf.rs]).  Both sides then hold a
    session ([core/session/mod.rs]); the server keeps its sessions in a registry
    ([server/atb_registry.rs]).  A request carries the session's identifier, a
    ticket with a nonce and a MAC ([headers/trailers.rs]) over the canonical
    attested headers ([headers/attest_headers.rs]) and an encrypted body; the
    server finds the session, checks the nonce against the session's replay
    protection ([core/replay_guard.rs]), checks the MAC and decrypts
    ([server/extractors.rs]).  Responses, streams and WebSocket frames use the same
    keys ([server/ws.rs]).  Sealed session tickets ([core/session/ticket.rs])
    resume a session without a handshake, behind a shared replay guard
    ([server/middleware.rs], [server/replay_guard_redis.rs]).

    The values of a handshake travel as structured header fields
    ([headers/attest_headers.rs]), after a preflight that fetches the server's
    challenge.  Bodies are streams of frames that an adapter sends over HTTP
    ([transport]).  Quotes come from a hardware provider that is selected at start-up
    ([tee]) and are judged by vendor verifiers, alone or in a federation under a signed manifest
    ([attestation]).  On top of the client stand the agents: a mesh of nodes that
    admit each other by policy ([mesh]), agent messages ([a2a]), a replicated store
    ([fabric]), an event gateway ([ingress]) and a policy language ([aiql]).  Tools
    ([mcp]), model clients ([llm]) and an oracle for smart contracts ([oracle],
    [contract]) answer over trusted requests; their statements can carry receipts of a
    zero-knowledge virtual machine ([zk]).  A browser runs the client's side compiled to
    WebAssembly ([bindings/wasm]) against the demonstration server
    ([demo/multiparty-webapp]); C and Go programs call both sides through one library
    ([bindings/c], [bindings/go]), as do .NET programs and the plugin of the Caddy server;
    Python, Node.js and Java call the crates ([bindings]).  nginx, Envoy and the browser extension have plugins of their own ([modules]).  A GraphQL server for
    agents ([agent-server]) uses the tools, policies and receipts.

    ** Files, from the bottom up

    - [Prelude]: results and the [?] operator, panics, 64-bit integers with their
      wrap-around, bytes, big-endian encodings, length-prefixed fields; the
      tactics [inv_ok], [case_test], [wire_len], [by_compute] and the databases
      [wire_len] and [u64].
    - [ReplayWindow] ([core/replay_guard.rs]): the bit-packed sliding window, as a
      list of words with the source's index arithmetic, and the abstract guard
      that remembers every accepted nonce.
    - [Atomic]: compare-and-exchange loops as a step relation over any number of
      threads, with linearisability; used for the counters of [Nonce], [Aead] and
      [Registry].
    - [Nonce] ([crypto/nonce.rs]): the counters and their file.
    - [Crypto], [Aead] ([crypto/aead.rs]): the cipher, hashes, MACs and HKDF as
      classes of operations with laws, and record keys over nonce sequences; the
      trait [NonceSequence] is a class with laws that both sequences satisfy.
    - [Codec]: parsers of byte strings as a monad, with round trips of sequences,
      options and variants.
    - [Proto] ([proto/types.rs]), [State] ([core/state.rs]), [KeySchedule]
      ([crypto/hkdf.rs]), [KeyExchange] and [Pqc] ([crypto/key_exchange.rs],
      [pqc.rs], [signature.rs]).
    - [Attestation] ([attestation/policy.rs], [verifier.rs], [composite.rs], and the
      federation manifest of [proto/types.rs]).
    - [Session] ([core/session/mod.rs]): [SessionInner] is the record behind the
      mutex, each method a function from it to a result and the new record.
    - [Ticket] ([core/session/ticket.rs], [server/ticket_engine_fs.rs]).
    - [Handshake] ([core/handshake.rs] and the end of
      [client.rs/attest_handshake]).
    - [Federation] ([attestation/federation.rs]), [Verifiers] (the vendor verifiers of
      [attestation] and the collateral fetcher), [Tee] ([tee/evidence.rs],
      [provider.rs], [mock.rs], [maa_runtime_data.rs]), [Eat] ([attestation/eat.rs],
      [ita_verifier.rs]).
    - [Hardware] (the other files of [tee]): every provider, from what its platform
      returns (the class [Platform]) to the quote, the GPU agent's protocol, the fallback
      hooks, and the collateral cache as steps of its calls.
    - [Http], [Ahl], [Trailers]: header maps, the canonical header list, the ticket
      and binder trailers.
    - [Sfv], [Headers] ([headers/attest_headers.rs]): the interface of the
      structured-field library with its grammar, and the codecs of the handshake,
      preflight and trusted-request headers; [Provenance]: agents and chains.
    - [Registry], [RateLimit], [ServerGuards], [Middleware], [Extractors], [Handlers],
      [Ws]: the server.  [ServerGuards] states the promises of the trait
      [DistributedReplayGuard] as a class; [Middleware] is proved against it, and
      the Bloom-filter guard (between rotations) and the Redis guard satisfy it.
    - [Stream]: the frames of streamed bodies and their reader, with the size limit
      as an argument (the server has one, the client none).
    - [Client]: sealing and opening at the client.
    - [Exchange]: client and server together.
    - [HandshakeWire]: the client's handshake as a program over a transport, the
      server's two endpoints, and [loopback], the transport that joins them;
      [ClientCall]: a whole request over a transport; [StreamCall]: a whole streaming call,
      both bodies included.
    - [Hpke] ([crypto/hpke.rs]): encrypted hellos.
    - [Oblivious] ([transport/oblivious.rs], [client/builder.rs]); [Transports]
      ([transport/connection.rs], [reqwest_adapter.rs], [h2_adapter.rs],
      [h3_adapter.rs]): the trait [AttestTransport] is a class, and the connection that
      HTTP/3 calls share a step relation.
    - [Fabric], [FabricSync], [FabricPolicy] ([fabric]): the trait [DataStore] is a
      class, [DataStoreSpec] states what a store promises, and the key-value, vector
      and RocksDB stores satisfy it; replication and tools are proved against it.
    - [Mesh] ([mesh]), [A2a] ([a2a]), [Ingress] ([ingress]), [Aiql] ([aiql]).
    - [Builder] ([server/builder.rs]): the builder and the router it makes;
      [Services]: [grpc], [spiffe], [telemetry], [identity-chain].
    - [Zk] ([zk] and its guest program), [Oracle] ([oracle], [contract]), [Llm] ([llm]),
      [Mcp] ([mcp]).
    - [Wasm] ([bindings/wasm]), [Cffi] ([bindings/c], [bindings/go]): the page and the C
      heap as states that the exported functions change; [Runtimes] ([bindings/python],
      [nodejs], [java], [dotnet], [go/encode.go]): the other languages over the same client
      and heap.
    - [Gateways] ([modules]): handlers as trees of calls on a response writer, a class with
      two instances; nginx as steps of its event loop and its thread pool.
    - [AgentServer] ([agent-server]): resolvers, the message bus and its subscribers.
    - [Multiparty], [ChatRoom] ([demo/multiparty-webapp/backend]): the handlers and
      routes, and the chat as steps of its connections over a broadcast channel, a class
      with laws; [Cli] ([demo/cli]): the echo server
      and its client.

    ** How the code is represented

    A method with [&mut self] or interior mutability takes the state and returns
    it; a [Result] is [result], a call that can panic returns [outcome].  Where
    the code runs under one lock the model is sequential; where it is lock-free or
    takes several locks, the atomic steps are a relation and the theorems range
    over all interleavings.  Clocks, random bytes, file and network failures are
    arguments, so every theorem holds for all their values.  Third-party code
    (ciphers, hashes, X25519 and ML-KEM, base64, hex, JSON and postcard codecs,
    UUIDs, the Bloom filter, Redis, tokio's channel) is a class of operations; the laws that a
    theorem needs are a second class next to it, and the modules [Toy...] hold
    instances of both, with which the witnesses evaluate the definitions.  Quote
    verifiers, policies and quoting services are functions.  Error values keep
    the source's constructors; texts that render a library's error are shortened
    to their fixed part, and HTTP error responses are their status codes.

    ** What the theorems show

    - Replay protection: the window refines the guard that forgets nothing;
      sessions accept no nonce twice in any history; [validate_recv] accepts
      increasing nonces under every interleaving; the shared guards accept a pair
      of key and nonce once per retention period, and so a ticket resumes a session
      once; WebSocket counters increase.
    - Nonce uniqueness: bound keys, concurrent sequences and tickets never seal
      twice under one nonce.
    - Handshake: agreement of both sides on identifier and keys, unambiguous
      transcript and combiner input, negotiation, soundness of required client
      attestation and of strict server attestation; the handler registers a
      session only for a completed handshake.  Over the wire: whenever the client ends
      with a session the server registered its other end, and an honest handshake
      completes; the header codecs round-trip, and the encoders panic exactly on
      quotes that cannot be written.
    - Attestation: what an accepted SEV-SNP or TDX quote proves, what a federation
      admits after any history of its configuration, that no release build
      attests with the mock provider, when the verifiers accept what the SEV-SNP and TDX
      providers return, and what the GPU agent's answer must be.
    - Transports: a request over [reqwest] is answered whatever pieces the network makes of
      it, with the handler's value if the sealed answer is within the client's limit,
      collecting a body is one test of its length, and HTTP/3 calls share one
      connection under every interleaving.
    - Agents: a mesh node keeps only attested and admitted sessions; replicas of the
      store converge on ordered updates and change only by attested deltas; the
      gateway forwards no event twice; the policy parser terminates, returns
      well-formed conditions and reads back what is printed, and the engine's verdict
      is characterised; an oblivious exchange delivers both bodies.
    - Services: what an answer of the oracle, of a model and of a tool means for the
      client that reads it, what a run of the guest program commits to, and that the
      built router serves the handshake of [HandshakeWire].
    - Bindings and demonstration: a browser attests, submits and exchanges frames with
      the server; a member of the chat reads what was said in order, up to what the
      channel dropped; calls of the C interface that meet the documented conditions with a
      valid context are memory-safe, the Go functions and .NET programs
      leak nothing, Python, Node.js, Go and .NET get the reply of one reference client up to
      what C can represent, and Java that of the default model; the Caddy plugin hands the
      hexadecimal text of a request to the handler behind it and seals its answer; a
      stream of the agent server yields the messages since its subscription without a gap
      while it runs, and no signature votes twice.
    - Exchange: what a client sends is what the server reads and the other way
      round, for requests, responses, whole streaming calls and WebSocket messages; an
      accepted request is authentic in all that its MAC covers.
    - Storage: tickets, durable sessions, pre-shared keys, file-backed windows.
    - Resources: the registry's capacity under concurrency and the rate limiter's
      bound, the latter by refinement to a log of all accepted requests.

    Theorems that record a flaw are kept next to the component they are about,
    among them [Session.strict_rollback_locks_out],
    [Session.durable_strict_replays], [Middleware.resumption_replays],
    [Ticket.file_engine_reuses_nonces], [Registry.registry_overwrite_leaks],
    [Exchange.streaming_locks_session], [Exchange.lost_response_desyncs],
    [Ws.ws_connections_reuse_nonces], [HandshakeWire.no_preflight_no_session],
    [Verifiers.client_quotes_refused], [Verifiers.tpm_ignores_signature],
    [Federation.quorum_of_one], [Fabric.concurrent_diverge],
    [FabricPolicy.cache_confusion], [Aiql.trailing_ignored], [A2a.target_ignored],
    [Zk.zk_receipts_refused], [Oracle.ssrf_mapped_addresses],
    [Oracle.contract_refuses_node], [Llm.vai_mode_confusion],
    [Builder.default_key_challenges], [Wasm.browser_reuses_nonces],
    [Multiparty.demo_release_panics], [Cffi.release_bindings_abort],
    [StreamCall.random_nonce_refused], [StreamCall.stream_request_unbound],
    [Gateways.caddy_silent_panics], [Gateways.nginx_filter_diverges],
    [Gateways.nginx_malformed_hangs], [AgentServer.keys_unavailable],
    [AgentServer.one_proof_many_votes], [Hardware.sgx_selected_never_quotes],
    [Hardware.tpm_quotes_refused], [Transports.h3_names_panic],
    [Runtimes.java_ignores_model], [Runtimes.dotnet_disposed_undefined],
    [Oracle.redirect_unguarded], [ChatRoom.lagged_deaf], [Cffi.null_context_undefined] and
    [Cli.cli_demo_refused].

    ** Bounds and fuel

    Integers are [Z] with their 64-bit range as a hypothesis or with [wrap64]
    where the code wraps.  Three definitions have fuel.  [PskStore.evict] starts with
    the number of entries: each round removes one, and [evict_spec] shows that it
    ends below the capacity.  [Aiql.parse_fuel] starts with one more than the length
    of the input: each nested call has consumed a parenthesis, and
    [Aiql.parse_terminates] shows that the result satisfies the equation of the
    source.  [Gateways.openhttpa_body_filter] calls itself for ever, and
    [Gateways.nginx_filter_diverges] shows that no amount is enough.
    [StreamFrameReader.poll] takes the number of polls
    that its consumer makes.  Loops of threads need no fuel: [CasLoop.retry_progress]
    shows that an exchange fails only if the shared value changed since it was
    loaded.

    ** What is not modelled

    What lies behind the interfaces of devices, sockets and HTTP libraries (their results
    are arguments or classes), background timers (gossip, heartbeat, distillation), process
    start-up and the tables by which plugins register, the GraphQL engine, hijacked
    connections, the parsing of command lines, and the programs that only run scripts of
    calls and print them (the web page of the agents, the swarms, the memory demonstration
    of the command line).  The constants of [config] are written out where they are used.
    Third-party libraries (sfv, serde_json, winnow, regorus, rocksdb, lru, sev, dcap-qvl,
    jsonwebtoken, reqwest, h3, risc0, coset, the device SDKs and the language runtimes)
    are classes. *)

From Stdlib Require Export Ascii String.
From stdpp Require Export base tactics option list list_numbers strings gmap sorting.
#[export] Set Warnings "-clear-no-such-hyp".
From stdpp Require Import options.

#[local] Open Scope Z_scope.

(** ** Results: Rust's [Result<A, E>] and the [?] operator *)

Inductive result (E A : Type) : Type :=
| Ok (a : A)
| Err (e : E).
Arguments Ok {E A} a.
Arguments Err {E A} e.

#[export] Instance result_ret {E} : MRet (result E) := λ A a, Ok a.
#[export] Instance result_bind {E} : MBind (result E) := λ A B f r,
  match r with Ok a => f a | Err e => Err e end.
#[export] Instance result_fmap {E} : FMap (result E) := λ A B f r,
  match r with Ok a => Ok (f a) | Err e => Err e end.
#[export] Instance result_eq_dec {E A} `{EqDecision E, EqDecision A} : EqDecision (result E A).
Proof. solve_decision. Defined.

Definition map_err {E F A} (f : E → F) (r : result E A) : result F A :=
  match r with Ok a => Ok a | Err e => Err (f e) end.
Definition ok_or {E A} (o : option A) (e : E) : result E A :=
  match o with Some a => Ok a | None => Err e end.
Definition result_ok {E A} (r : result E A) : option A :=
  match r with Ok a => Some a | Err _ => None end.
Definition is_ok {E A} (r : result E A) : bool :=
  match r with Ok _ => true | Err _ => false end.

Lemma bind_Ok {E A B} (f : A → result E B) (r : result E A) b :
  r ≫= f = Ok b ↔ ∃ a, r = Ok a ∧ f a = Ok b.
Proof. destruct r; simpl; naive_solver. Qed.
Lemma bind_Err {E A B} (f : A → result E B) (r : result E A) e :
  r ≫= f = Err e ↔ r = Err e ∨ ∃ a, r = Ok a ∧ f a = Err e.
Proof. destruct r; simpl; naive_solver. Qed.
Lemma map_err_Ok {E F A} (f : E → F) (r : result E A) a :
  map_err f r = Ok a ↔ r = Ok a.
Proof. destruct r; naive_solver. Qed.
Lemma ok_or_Ok {E A} (o : option A) (e : E) a : ok_or o e = Ok a ↔ o = Some a.
Proof. destruct o; naive_solver. Qed.

#[export] Instance Ok_inj {E A} : Inj (=) (=) (@Ok E A).
Proof. by intros a b [=]. Qed.

(** Invert a chain of [?]s that ended in [Ok]. *)
Ltac inv_ok :=
  repeat match goal with
  | H : _ ≫= _ = Ok _ |- _ => apply bind_Ok in H as (? & ? & ?)
  | H : map_err _ _ = Ok _ |- _ => apply map_err_Ok in H
  | H : ok_or _ _ = Ok _ |- _ => apply ok_or_Ok in H
  | H : Ok _ = Ok _ |- _ => injection H as H; subst
  | H : Err _ = Ok _ |- _ => discriminate H
  | H : Ok _ = Err _ |- _ => discriminate H
  end.

(** A call that may panic. *)
Inductive outcome (A : Type) : Type :=
| Returns (a : A)
| Panics.
Arguments Returns {A} a.
Arguments Panics {A}.
#[export] Instance outcome_ret : MRet outcome := @Returns.
#[export] Instance outcome_bind : MBind outcome := λ A B f o,
  match o with Returns a => f a | Panics => Panics end.
#[export] Instance outcome_fmap : FMap outcome := λ A B f o,
  match o with Returns a => Returns (f a) | Panics => Panics end.
(** [Option::expect] *)
Definition expect {A} (o : option A) : outcome A :=
  match o with Some a => Returns a | None => Panics end.

Lemma mapM_outcome {A B} (f : A → outcome B) (g : A → B) (p : A → bool) (l : list A) :
  (∀ a, f a = if p a then Returns (g a) else Panics) →
  mapM f l = if forallb p l then Returns (g <$> l) else Panics.
Proof.
  intros Hf. induction l as [|a l IH]; [done|]. cbn [mapM forallb]. rewrite Hf. destruct (p a); [|done].
  cbn [mbind outcome_bind]. rewrite IH. by destruct (forallb p l).
Qed.

Lemma forallb_false {A} (p : A → bool) (l : list A) : forallb p l = false ↔ ∃ a, a ∈ l ∧ p a = false.
Proof.
  induction l as [|a l IH]; simpl; [by split; [|intros (a & ?%elem_of_nil & _)]|].
  rewrite andb_false_iff, IH. split.
  - intros [Ha|(b & Hb & Hp)]; [exists a|exists b]; split; done || by constructor.
  - intros (b & [->|Hb]%elem_of_cons & Hp); eauto.
Qed.

(** Split a boolean or [decide] test in the goal or in a hypothesis. *)
Ltac case_test :=
  match goal with
  | |- context [if decide ?P then _ else _] => destruct (decide P)
  | H : context [if decide ?P then _ else _] |- _ => destruct (decide P)
  | |- context [if ?b then _ else _] => destruct b eqn:?
  | H : context [if ?b then _ else _] |- _ => destruct b eqn:?
  end.

(** Invert the early returns of a chain of checks that succeeded. *)
Ltac inv_checks :=
  repeat match goal with
  | H : _ = Ok _ |- _ => progress inv_ok
  | H : (if decide ?P then _ else Err _) = Ok _ |- _ => destruct (decide P); [|discriminate H]
  | H : (if decide ?P then Err _ else _) = Ok _ |- _ => destruct (decide P); [discriminate H|]
  | H : (if ?b then _ else Err _) = Ok _ |- _ => destruct b eqn:?; [|discriminate H]
  | H : (if ?b then Err _ else _) = Ok _ |- _ => destruct b eqn:?; [discriminate H|]
  | x : () |- _ => destruct x
  end.

(** Decide a closed decidable proposition by evaluation. *)
Ltac by_compute := apply (bool_decide_unpack _); vm_compute; exact I.

(** ** Machine integers *)

Definition u64_max : Z := 2 ^ 64 - 1.
Definition u32_max : Z := 2 ^ 32 - 1.
Definition is_u64 (z : Z) : Prop := 0 ≤ z ≤ u64_max.
Definition wrap64 (z : Z) : Z := z `mod` 2 ^ 64.
Definition checked_add64 (a b : Z) : option Z :=
  if decide (a + b ≤ u64_max) then Some (a + b) else None.
Definition saturating_sub64 (a b : Z) : Z := if decide (b ≤ a) then a - b else 0.
Definition not64 (a : Z) : Z := Z.lxor a (Z.ones 64).
Definition bit64 (i : Z) : Z := Z.shiftl 1 i.

Lemma wrap64_small z : is_u64 z → wrap64 z = z.
Proof. unfold is_u64, u64_max, wrap64. intros. apply Z.mod_small. lia. Qed.
Lemma wrap64_range z : is_u64 (wrap64 z).
Proof. unfold is_u64, u64_max, wrap64. pose proof (Z.mod_pos_bound z (2 ^ 64)). lia. Qed.

Lemma testbit_bit64 i j : 0 ≤ i → 0 ≤ j → Z.testbit (bit64 i) j = bool_decide (i = j).
Proof.
  intros. unfold bit64. rewrite Z.shiftl_1_l, Z.pow2_bits_eqb by lia.
  case_bool_decide; [by apply Z.eqb_eq|by apply Z.eqb_neq].
Qed.
Lemma testbit_not64 a j : 0 ≤ j < 64 → Z.testbit (not64 a) j = negb (Z.testbit a j).
Proof.
  intros. unfold not64. rewrite Z.lxor_spec, Z.ones_spec_low by lia. by destruct (Z.testbit a j).
Qed.
Lemma land_bit64_nonzero a i : 0 ≤ i → Z.land a (bit64 i) ≠ 0 ↔ Z.testbit a i = true.
Proof.
  intros Hi. split.
  - intros Hne. destruct (Z.testbit a i) eqn:E; [done|]. destruct Hne.
    apply Z.bits_inj'. intros j Hj. rewrite Z.land_spec, testbit_bit64, Z.bits_0 by lia.
    case_bool_decide; subst; [by rewrite E|by rewrite andb_false_r].
  - intros Ht Heq. assert (Z.testbit (Z.land a (bit64 i)) i = true) as Hb.
    { rewrite Z.land_spec, testbit_bit64, Ht by lia. by case_bool_decide. }
    by rewrite Heq, Z.bits_0 in Hb.
Qed.

Lemma is_u64_ones a : is_u64 a ↔ Z.land a (Z.ones 64) = a.
Proof.
  rewrite Z.land_ones by lia. unfold is_u64, u64_max. split.
  - intros. apply Z.mod_small. lia.
  - intros <-. pose proof (Z.mod_pos_bound a (2 ^ 64)). lia.
Qed.
Lemma is_u64_land a b : is_u64 a → is_u64 (Z.land a b).
Proof.
  rewrite !is_u64_ones. intros Ha. by rewrite <-Z.land_assoc, (Z.land_comm b), Z.land_assoc, Ha.
Qed.
Lemma is_u64_lor a b : is_u64 a → is_u64 b → is_u64 (Z.lor a b).
Proof. rewrite !is_u64_ones. intros Ha Hb. by rewrite Z.land_lor_distr_l, Ha, Hb. Qed.
Lemma is_u64_bit64 i : 0 ≤ i < 64 → is_u64 (bit64 i).
Proof.
  intros. unfold bit64, is_u64, u64_max. rewrite Z.shiftl_1_l.
  pose proof (Z.pow_pos_nonneg 2 i). pose proof (Z.pow_lt_mono_r 2 i 64). lia.
Qed.

(** ** Bytes

    A [u8] is an [ascii] (eight booleans), a byte slice or [Vec<u8>] a list of
    them, and a Rust [&str] a Stdlib [string]: its [as_bytes] is
    [list_ascii_of_string] and its [len] the number of bytes. *)

Abbreviation byte := ascii (only parsing).
Abbreviation bytes := (list ascii).
Definition as_bytes (s : string) : bytes := list_ascii_of_string s.
Definition str_len (s : string) : nat := length (as_bytes s).

Definition u8_val (b : byte) : Z := Z.of_N (N_of_ascii b).
Definition u8_of (z : Z) : byte := ascii_of_N (Z.to_N (z `mod` 256)).
Definition u8_xor (a b : byte) : byte :=
  match a, b with
  | Ascii a0 a1 a2 a3 a4 a5 a6 a7, Ascii b0 b1 b2 b3 b4 b5 b6 b7 =>
      Ascii (xorb a0 b0) (xorb a1 b1) (xorb a2 b2) (xorb a3 b3)
            (xorb a4 b4) (xorb a5 b5) (xorb a6 b6) (xorb a7 b7)
  end.

(** [n.to_be_bytes()] for an [8*k]-bit unsigned integer, and [from_be_bytes]. *)
Fixpoint to_be (k : nat) (z : Z) : bytes :=
  match k with
  | O => []
  | S k => u8_of (z / 256 ^ Z.of_nat k) :: to_be k z
  end.
Definition from_be (bs : bytes) : Z := foldl (λ acc b, acc * 256 + u8_val b) 0 bs.
Definition u64_be (z : Z) : bytes := to_be 8 z.
Definition u32_be (z : Z) : bytes := to_be 4 z.
Definition u16_be (z : Z) : bytes := to_be 2 z.
(** [from_le_bytes], and the slice [&b[lo..hi]], which panics out of range. *)
Definition from_le (bs : bytes) : Z := from_be (rev bs).
Definition slice (b : bytes) (lo hi : nat) : outcome bytes :=
  if decide (lo ≤ hi ≤ length b)%nat then Returns (take (hi - lo) (drop lo b)) else Panics.

(** [str::contains] *)
Fixpoint contains {A} `{EqDecision A} (hay needle : list A) : bool :=
  bool_decide (needle `prefix_of` hay) || match hay with [] => false | _ :: hay => contains hay needle end.
Lemma contains_elem {A} `{EqDecision A} (hay needle : list A) x : contains hay needle = true → x ∈ needle → x ∈ hay.
Proof.
  induction hay as [|c hay IH]; cbn [contains]; rewrite orb_true_iff, bool_decide_eq_true.
  - intros [[k Hk]|[=]] Hx. rewrite Hk. apply elem_of_app. by left.
  - intros [[k ->]|Hs] Hx; [apply elem_of_app; by left|]. apply list_elem_of_further. by apply IH.
Qed.

(** [str::parse] at an unsigned integer type: an optional plus sign, then
    digits, no overflow. *)
Definition digit (b : byte) : option Z :=
  let z := u8_val b - 48 in if decide (0 ≤ z ≤ 9) then Some z else None.
Fixpoint parse_digits (max acc : Z) (s : bytes) : option Z :=
  match s with
  | [] => Some acc
  | b :: s => d ← digit b; let acc := acc * 10 + d in if decide (acc ≤ max) then parse_digits max acc s else None
  end.
Definition parse_uint (max : Z) (s : bytes) : option Z :=
  let s := match s with b :: s' => if decide (b = u8_of 43) then s' else s | [] => s end in
  match s with [] => None | _ => parse_digits max 0 s end.

Lemma digit_range b d : digit b = Some d → 0 ≤ d ≤ 9.
Proof. unfold digit. case_decide; [|done]. intros [= <-]. lia. Qed.
Lemma parse_digits_range max acc s n : 0 ≤ acc ≤ max → parse_digits max acc s = Some n → 0 ≤ n ≤ max.
Proof.
  revert acc. induction s as [|b s IH]; intros acc Hacc; cbn [parse_digits]; [by intros [= <-]|].
  intros (d & Hd%digit_range & H)%bind_Some. case_decide; [|done]. apply (IH (acc * 10 + d)); [lia|done].
Qed.
Lemma parse_uint_range max s n : 0 ≤ max → parse_uint max s = Some n → 0 ≤ n ≤ max.
Proof. intros Hmax. unfold parse_uint. destruct (match s with [] => s | _ :: _ => _ end); [done|]. by apply parse_digits_range. Qed.

Lemma slice_Returns b lo hi s :
  slice b lo hi = Returns s ↔ (lo ≤ hi ≤ length b)%nat ∧ s = take (hi - lo) (drop lo b).
Proof. unfold slice. case_decide; naive_solver. Qed.
Lemma bind_Returns {A B} (f : A → outcome B) (o : outcome A) b :
  o ≫= f = Returns b ↔ ∃ a, o = Returns a ∧ f a = Returns b.
Proof. destruct o; simpl; naive_solver. Qed.
Lemma expect_Returns {A} (o : option A) a : expect o = Returns a ↔ o = Some a.
Proof. destruct o; simpl; naive_solver. Qed.

Lemma as_bytes_inj s1 s2 : as_bytes s1 = as_bytes s2 → s1 = s2.
Proof.
  unfold as_bytes. intros Heq.
  rewrite <-(string_of_list_ascii_of_string s1), <-(string_of_list_ascii_of_string s2). by rewrite Heq.
Qed.
Lemma as_bytes_app s1 s2 : as_bytes (s1 +:+ s2) = as_bytes s1 ++ as_bytes s2.
Proof. induction s1 as [|a s1 IH]; [done|]. unfold as_bytes in *. simpl. by rewrite IH. Qed.

Lemma u8_val_range b : 0 ≤ u8_val b < 256.
Proof. unfold u8_val. pose proof (N_ascii_bounded b). lia. Qed.
Lemma u8_val_of z : u8_val (u8_of z) = z `mod` 256.
Proof.
  unfold u8_val, u8_of. pose proof (Z.mod_pos_bound z 256 ltac:(lia)).
  rewrite N_ascii_embedding by lia. lia.
Qed.
Lemma u8_of_val b : u8_of (u8_val b) = b.
Proof.
  unfold u8_of. pose proof (u8_val_range b). rewrite Z.mod_small by done.
  unfold u8_val. rewrite N2Z.id. apply ascii_N_embedding.
Qed.
Lemma xorb_cancel_r a b : xorb (xorb a b) b = a.
Proof. by destruct a, b. Qed.
Lemma u8_xor_cancel a b : u8_xor (u8_xor a b) b = a.
Proof. destruct a, b. simpl. by rewrite !xorb_cancel_r. Qed.
Lemma u8_xor_comm a b : u8_xor a b = u8_xor b a.
Proof. destruct a, b. simpl. f_equal; apply xorb_comm. Qed.
Lemma u8_xor_inj_r a b b' : u8_xor a b = u8_xor a b' → b = b'.
Proof.
  intros Heq. rewrite <-(u8_xor_cancel b a), <-(u8_xor_cancel b' a).
  by rewrite !(u8_xor_comm _ a), Heq.
Qed.

Lemma length_to_be k z : length (to_be k z) = k.
Proof. induction k; simpl; congruence. Qed.

Lemma length_u64_be z : length (u64_be z) = 8%nat.
Proof. apply length_to_be. Qed.
Lemma length_u32_be z : length (u32_be z) = 4%nat.
Proof. apply length_to_be. Qed.
Lemma length_u16_be z : length (u16_be z) = 2%nat.
Proof. apply length_to_be. Qed.

(** Lengths of byte strings put together from fields, and the ranges of the word
    operations. *)
Create Rewrite HintDb wire_len.
#[export] Hint Rewrite length_to_be length_u64_be length_u32_be length_u16_be : wire_len.
#[export] Hint Rewrite @length_app @length_take @length_drop @length_zip_with @length_replicate : wire_len.
Ltac wire_len := autorewrite with wire_len; cbn [length]; try lia.

Create HintDb u64.
#[export] Hint Resolve wrap64_range is_u64_land is_u64_lor is_u64_bit64 : u64.

Lemma from_be_app bs1 bs2 :
  from_be (bs1 ++ bs2) = from_be bs1 * 256 ^ Z.of_nat (length bs2) + from_be bs2.
Proof.
  unfold from_be. rewrite foldl_app. generalize (foldl (λ acc b, acc * 256 + u8_val b) 0 bs1).
  induction bs2 as [|b bs2 IH]; intros acc; cbn [foldl length].
  { rewrite Z.pow_0_r. lia. }
  rewrite IH, (IH (0 * 256 + _)), Nat2Z.inj_succ, Z.pow_succ_r by lia. ring.
Qed.
Lemma from_be_cons b bs : from_be (b :: bs) = u8_val b * 256 ^ Z.of_nat (length bs) + from_be bs.
Proof. apply (from_be_app [b] bs). Qed.
Lemma from_be_range bs : 0 ≤ from_be bs < 256 ^ Z.of_nat (length bs).
Proof.
  induction bs as [|b bs IH]; [done|]. rewrite from_be_cons. cbn [length].
  rewrite Nat2Z.inj_succ, Z.pow_succ_r by lia. pose proof (u8_val_range b). nia.
Qed.

Lemma from_be_to_be_mod k z : from_be (to_be k z) = z `mod` 256 ^ Z.of_nat k.
Proof.
  induction k as [|k IH]; cbn [to_be].
  { rewrite Z.pow_0_r, Z.mod_1_r. done. }
  rewrite from_be_cons, IH, length_to_be, u8_val_of, Nat2Z.inj_succ, Z.pow_succ_r by lia.
  rewrite (Z.mul_comm 256), Z.rem_mul_r by lia. ring.
Qed.
Lemma from_be_to_be k z : 0 ≤ z < 256 ^ Z.of_nat k → from_be (to_be k z) = z.
Proof. intros. rewrite from_be_to_be_mod. by apply Z.mod_small. Qed.
Lemma to_be_inj k z1 z2 :
  0 ≤ z1 < 256 ^ Z.of_nat k → 0 ≤ z2 < 256 ^ Z.of_nat k → to_be k z1 = to_be k z2 → z1 = z2.
Proof. intros ?? Heq. rewrite <-(from_be_to_be k z1), <-(from_be_to_be k z2) by done. by rewrite Heq. Qed.
Lemma u64_be_inj z1 z2 : is_u64 z1 → is_u64 z2 → u64_be z1 = u64_be z2 → z1 = z2.
Proof. unfold is_u64, u64_max. intros. eapply (to_be_inj 8); eauto; simpl; lia. Qed.
Lemma from_be_u64_be z : is_u64 z → from_be (u64_be z) = z.
Proof. unfold is_u64, u64_max. intros. apply from_be_to_be. simpl. lia. Qed.

Lemma drop_to_be j n z : drop j (to_be n z) = to_be (n - j) z.
Proof. revert n. induction j as [|j IH]; intros [|n]; simpl; auto. Qed.
Lemma take_to_be j n z : (j ≤ n)%nat → take j (to_be n z) = to_be j (z / 256 ^ Z.of_nat (n - j)).
Proof.
  revert j. induction n as [|n IH]; intros [|j] Hle; try done; [lia|]. simpl.
  rewrite IH by lia. do 2 f_equal. rewrite Z.div_div by lia. rewrite <-Z.pow_add_r by lia.
  do 2 f_equal. lia.
Qed.
Lemma to_be_from_be bs : to_be (length bs) (from_be bs) = bs.
Proof.
  induction bs as [|b bs IH]; [done|]. cbn [length to_be].
  pose proof (from_be_range bs). pose proof (u8_val_range b). f_equal.
  - rewrite from_be_cons, Z.div_add_l, Z.div_small, Z.add_0_r by lia. apply u8_of_val.
  - transitivity (to_be (length bs) (from_be bs)); [|done]. rewrite from_be_cons.
    generalize (from_be bs). clear IH. intros z.
    assert (∀ k m, (k ≤ m)%nat → to_be k (u8_val b * 256 ^ Z.of_nat m + z) = to_be k z) as Hk.
    { induction k as [|k IH]; intros m Hkm; [done|]. cbn [to_be]. rewrite IH by lia. f_equal.
      replace (Z.of_nat m) with (Z.of_nat (m - k - 1) + 1 + Z.of_nat k) by lia.
      rewrite !Z.pow_add_r, Z.mul_assoc, Z.div_add_l by lia. unfold u8_of.
      rewrite Z.mul_assoc, Z.add_comm, Z.mod_add by lia. done. }
    by apply Hk.
Qed.

(** ** Splitting at a separator *)

(** Two lists that agree and have the same separator after separator-free
    prefixes split at the same point. *)
Lemma app_sep_inj {A} (x : A) (l1 l2 k1 k2 : list A) :
  x ∉ l1 → x ∉ l2 → l1 ++ x :: k1 = l2 ++ x :: k2 → l1 = l2 ∧ k1 = k2.
Proof.
  revert l2. induction l1 as [|a l1 IH]; intros [|b l2] H1 H2 Heq; simplify_eq/=.
  - done.
  - set_solver.
  - set_solver.
  - destruct (IH l2) as [-> ->]; set_solver.
Qed.

(** ** Length-prefixed fields *)

(** A field preceded by its length as a [w]-byte big-endian integer. *)
Definition len_prefixed (w : nat) (b : bytes) : bytes := to_be w (Z.of_nat (length b)) ++ b.

Lemma len_prefixed_inj w a b r s :
  Z.of_nat (length a) < 256 ^ Z.of_nat w → Z.of_nat (length b) < 256 ^ Z.of_nat w →
  len_prefixed w a ++ r = len_prefixed w b ++ s → a = b ∧ r = s.
Proof.
  intros Ha Hb. unfold len_prefixed. rewrite <-!app_assoc. intros Heq.
  apply app_inj_1 in Heq as [Hl Heq]; [|by rewrite !length_to_be].
  apply to_be_inj in Hl; [|lia|lia]. apply app_inj_1 in Heq as [-> ->]; [done|lia].
Qed.

(** Two byte strings of the same length in front of equal remainders. *)
Lemma app_fixed_inj (a b r s : bytes) : length a = length b → a ++ r = b ++ s → a = b ∧ r = s.
Proof. intros Hl Heq. by apply app_inj_1 in Heq. Qed.
