(* ===== verification/Codec.v ===== *)
(** * A codec for every countable type

    Serialisation libraries are classes of operations with their laws.  The codec of
    this file satisfies such laws for every countable type; the witnesses use it.
    A value is written as the bits of its number, [put_delimited] with an end mark, so
    that a reader finds where the next value starts. *)

From S2P Require Import Prelude.
From stdpp Require Import options.

#[local] Open Scope Z_scope.

Module ToyCodec.

Fixpoint pos_bytes (p : positive) : bytes :=
  match p with xH => [] | xO p => u8_of 0 :: pos_bytes p | xI p => u8_of 1 :: pos_bytes p end.
Fixpoint bytes_pos (b : bytes) : positive :=
  match b with [] => xH | x :: b => if decide (x = u8_of 0) then xO (bytes_pos b) else xI (bytes_pos b) end.
Definition end_mark : byte := u8_of 2.
Fixpoint read_pos (b : bytes) : option (positive * bytes) :=
  match b with
  | [] => None
  | x :: b =>
      if decide (x = end_mark) then Some (xH, b)
      else '(p, rest) ← read_pos b; Some (if decide (x = u8_of 0) then xO p else xI p, rest)
  end.

Lemma bytes_pos_pos_bytes p : bytes_pos (pos_bytes p) = p.
Proof. induction p as [p IH|p IH|]; cbn; [by rewrite IH..|done]. Qed.
Lemma read_pos_bytes p rest : read_pos (pos_bytes p ++ end_mark :: rest) = Some (p, rest).
Proof. induction p as [p IH|p IH|]; cbn; [by rewrite IH..|done]. Qed.

Section codec.
Context {A} `{Countable A}.

Definition put (a : A) : bytes := pos_bytes (encode a).
Definition get (b : bytes) : option A := decode (bytes_pos b).
Definition put_delimited (a : A) : bytes := put a ++ [end_mark].
Definition take_delimited (b : bytes) : option (A * bytes) :=
  '(p, rest) ← read_pos b; a ← decode p; Some (a, rest).

Lemma get_put a : get (put a) = Some a.
Proof. unfold get, put. by rewrite bytes_pos_pos_bytes, decode_encode. Qed.
Lemma take_put a rest : take_delimited (put_delimited a ++ rest) = Some (a, rest).
Proof.
  unfold take_delimited, put_delimited, put. rewrite <-app_assoc. cbn [app]. rewrite read_pos_bytes. cbn. by rewrite decode_encode.
Qed.
Lemma take_nil : take_delimited [] = None.
Proof. done. Qed.
End codec.

End ToyCodec.
