(* ===== verification/ReplayWindow.v ===== *)
(** * Sliding-window replay guard

    [crates/openhttpa-core/src/replay_guard.rs]: the bit-packed window
    [ReplayGuardInner<W>] with its [check], [accept] and [check_and_accept].
    The window is a list of [W] 64-bit words; the index expressions, shifts and
    masks are those of the source.  The abstract guard remembers the whole set
    of accepted nonces; the refinement theorem says that the packed window
    answers every query of a run exactly as the abstract guard does. *)

From S2P Require Import Prelude.
From stdpp Require Import options.

#[local] Open Scope Z_scope.

Inductive ReplayError : Type :=
| Replay (nonce : Z)
| TooOld (nonce : Z)
| StorageError (msg : string).

#[export] Instance ReplayError_eq_dec : EqDecision ReplayError.
Proof. solve_decision. Defined.

Module ReplayGuard.

Record t : Type := mk {
  highest : Z;
  window : list Z;
}.

#[export] Instance t_eq_dec : EqDecision t.
Proof. solve_decision. Defined.

Section guard.
Context (W : Z).

Definition zeros : list Z := replicate (Z.to_nat W) 0.

Definition new : t := {| highest := 0; window := zeros |}.

(** [(nonce as usize) % W] and [(nonce / W as u64) % 64]. *)
Definition slot (nonce : Z) : nat := Z.to_nat (nonce `mod` W).
Definition bit (nonce : Z) : Z := (nonce / W) `mod` 64.

(** [self.window[slot]]; the slot is below [W], the length of the array. *)
Definition word (w : list Z) (i : nat) : Z := default 0 (w !! i).

Definition check (g : t) (nonce : Z) : result ReplayError () :=
  if decide (nonce = 0) then Err (TooOld nonce)
  else if decide (nonce > highest g) then Ok ()
  else
    let diff := highest g - nonce in
    if decide (W * 64 ≤ diff) then Err (TooOld nonce)
    else
      let mask := bit64 (bit nonce) in
      if decide (Z.land (word (window g) (slot nonce)) mask ≠ 0)
      then Err (Replay nonce)
      else Ok ().

Definition clear_bit (w : list Z) (nonce : Z) : list Z :=
  <[slot nonce := Z.land (word w (slot nonce)) (not64 (bit64 (bit nonce)))]> w.
Definition set_bit (w : list Z) (nonce : Z) : list Z :=
  <[slot nonce := Z.lor (word w (slot nonce)) (bit64 (bit nonce))]> w.

(** The first half of [accept]: slide the window up to [nonce]. *)
Definition advance_to (g : t) (nonce : Z) : t :=
  if decide (nonce > highest g) then
    let advance := nonce - highest g in
    {| highest := nonce;
       window :=
         if decide (W * 64 ≤ advance) then zeros
         else foldl (λ w step, clear_bit w (highest g + step)) (window g) (seqZ 1 advance) |}
  else g.

Definition accept (g : t) (nonce : Z) : t :=
  let g := advance_to g nonce in
  {| highest := highest g; window := set_bit (window g) nonce |}.

Definition check_and_accept (g : t) (nonce : Z) : result ReplayError () * t :=
  match check g nonce with
  | Err e => (Err e, g)
  | Ok _ => (Ok (), accept g nonce)
  end.

Definition export_state (g : t) : Z * list Z := (highest g, window g).
Definition import_state (h : Z) (w : list Z) : t := {| highest := h; window := w |}.

(** Submitting a sequence of nonces to one guard. *)
Fixpoint run (g : t) (ns : list Z) : list (result ReplayError ()) * t :=
  match ns with
  | [] => ([], g)
  | n :: ns =>
      let '(r, g) := check_and_accept g n in
      let '(rs, g) := run g ns in
      (r :: rs, g)
  end.

(** The nonces of [ns] that were answered [Ok]. *)
Definition accepted (ns : list Z) (rs : list (result ReplayError ())) : list Z :=
  (filter (λ p, is_ok p.2 = true) (zip ns rs)).*1.

(** ** The abstract guard: the set of all nonces accepted so far *)

Definition max_seen (seen : list Z) : Z := foldr Z.max 0 seen.

Definition spec_check (seen : list Z) (nonce : Z) : result ReplayError () :=
  if decide (nonce = 0) then Err (TooOld nonce)
  else if decide (W * 64 ≤ max_seen seen - nonce) then Err (TooOld nonce)
  else if decide (nonce ∈ seen) then Err (Replay nonce)
  else Ok ().

Fixpoint spec_run (seen : list Z) (ns : list Z) : list (result ReplayError ()) * list Z :=
  match ns with
  | [] => ([], seen)
  | n :: ns =>
      let r := spec_check seen n in
      let '(rs, seen) := spec_run (if is_ok r then n :: seen else seen) ns in
      (r :: rs, seen)
  end.

(** ** Invariant and simulation relation *)

Definition marked (w : list Z) (nonce : Z) : bool := Z.testbit (word w (slot nonce)) (bit nonce).

Definition wf (g : t) : Prop :=
  length (window g) = Z.to_nat W ∧ 0 ≤ highest g ∧ Forall is_u64 (window g).

Definition repr (g : t) (seen : list Z) : Prop :=
  wf g ∧ highest g = max_seen seen ∧
  ∀ n, highest g - W * 64 < n ≤ highest g → marked (window g) n = true ↔ n ∈ seen.

Hypothesis W_pos : 0 < W.

Lemma slot_lt n : (slot n < Z.to_nat W)%nat.
Proof using W_pos. unfold slot. pose proof (Z.mod_pos_bound n W). lia. Qed.
Lemma bit_range n : 0 ≤ bit n < 64.
Proof. unfold bit. apply Z.mod_pos_bound. lia. Qed.

(** Two nonces share a bit of the window iff they are congruent modulo its size. *)
Definition same_pos (n m : Z) : Prop := slot n = slot m ∧ bit n = bit m.

Lemma same_pos_divide n m : same_pos n m → ∃ k, n - m = W * 64 * k.
Proof using W_pos.
  unfold same_pos, slot, bit. intros [Hs Hb].
  pose proof (Z.mod_pos_bound n W W_pos). pose proof (Z.mod_pos_bound m W W_pos).
  assert (n `mod` W = m `mod` W) as Hm by lia.
  exists (n / W / 64 - m / W / 64).
  pose proof (Z.div_mod n W ltac:(lia)) as Hn. pose proof (Z.div_mod m W ltac:(lia)) as Hm'.
  pose proof (Z.div_mod (n / W) 64 ltac:(lia)) as Hqn.
  pose proof (Z.div_mod (m / W) 64 ltac:(lia)) as Hqm.
  rewrite Hn, Hm' at 1. rewrite Hm, Hqn, Hqm at 1. rewrite Hb. ring.
Qed.
Lemma same_pos_window n m : same_pos n m → - (W * 64) < n - m < W * 64 → n = m.
Proof using W_pos.
  intros [k Hk]%same_pos_divide ?. assert (k = 0) by nia. subst. lia.
Qed.

#[local] Instance same_pos_dec n m : Decision (same_pos n m).
Proof. unfold same_pos. apply _. Defined.

Lemma word_insert w i j x :
  (i < length w)%nat → word (<[i:=x]> w) j = if decide (i = j) then x else word w j.
Proof.
  intros Hi. unfold word. case_decide; subst.
  - by rewrite list_lookup_insert_eq.
  - by rewrite list_lookup_insert_ne.
Qed.

Lemma marked_clear_bit w n m :
  length w = Z.to_nat W →
  marked (clear_bit w n) m = if decide (same_pos n m) then false else marked w m.
Proof using W_pos.
  intros Hw. unfold marked, clear_bit. rewrite word_insert by (rewrite Hw; apply slot_lt).
  pose proof (bit_range n). pose proof (bit_range m).
  destruct (decide (same_pos n m)) as [[Hs Hb]|Hne]; case_decide as Hs'; try done.
  - rewrite Z.land_spec, testbit_not64, testbit_bit64, bool_decide_true by lia. apply andb_false_r.
  - assert (bit n ≠ bit m) by (unfold same_pos in *; naive_solver).
    rewrite Z.land_spec, testbit_not64, testbit_bit64, bool_decide_false, andb_true_r by lia.
    by rewrite Hs'.
Qed.
Lemma marked_set_bit w n m :
  length w = Z.to_nat W →
  marked (set_bit w n) m = if decide (same_pos n m) then true else marked w m.
Proof using W_pos.
  intros Hw. unfold marked, set_bit. rewrite word_insert by (rewrite Hw; apply slot_lt).
  pose proof (bit_range n). pose proof (bit_range m).
  destruct (decide (same_pos n m)) as [[Hs Hb]|Hne]; case_decide as Hs'; try done.
  - rewrite Z.lor_spec, testbit_bit64, bool_decide_true by lia. apply orb_true_r.
  - assert (bit n ≠ bit m) by (unfold same_pos in *; naive_solver).
    rewrite Z.lor_spec, testbit_bit64, bool_decide_false, orb_false_r by lia. by rewrite Hs'.
Qed.

Lemma length_clear_bits w h l :
  length (foldl (λ w step, clear_bit w (h + step)) w l) = length w.
Proof.
  revert w. induction l as [|x l IH]; intros w; simpl; [done|].
  rewrite IH. apply length_insert.
Qed.
Lemma marked_clear_bits w h l m :
  length w = Z.to_nat W →
  marked (foldl (λ w step, clear_bit w (h + step)) w l) m =
    if decide (Exists (λ step, same_pos (h + step) m) l) then false else marked w m.
Proof using W_pos.
  revert w. induction l as [|x l IH]; intros w Hw; cbn [foldl].
  { rewrite decide_False; [done|by intros ?%Exists_nil]. }
  rewrite IH by (unfold clear_bit; by rewrite length_insert).
  rewrite marked_clear_bit by done.
  repeat case_decide; try done; rewrite Exists_cons in *; naive_solver.
Qed.
Lemma marked_zeros m : marked zeros m = false.
Proof.
  unfold marked, zeros, word. destruct (replicate _ 0 !! slot m) as [x|] eqn:Hx; simpl.
  - apply lookup_replicate in Hx as [-> _]. apply Z.bits_0.
  - apply Z.bits_0.
Qed.

(** Every operation keeps the window an array of [W] 64-bit words. *)
Lemma is_u64_word w i : Forall is_u64 w → is_u64 (word w i).
Proof.
  unfold word. intros Hw. destruct (w !! i) as [x|] eqn:Hx; simpl; [|done].
  by eapply Forall_lookup_1.
Qed.
Lemma wf_new : wf new.
Proof.
  split_and!; [apply length_replicate|done|]. by apply Forall_replicate.
Qed.
Lemma clear_bits_u64 w h l :
  Forall is_u64 w → Forall is_u64 (foldl (λ w step, clear_bit w (h + step)) w l).
Proof.
  revert w. induction l as [|x l IH]; intros w Hw; simpl; [done|]. apply IH.
  apply Forall_insert; [done|]. auto using is_u64_word with u64.
Qed.
Lemma wf_advance_to g n : wf g → wf (advance_to g n).
Proof using W_pos.
  intros (Hl & Hh & Hu). unfold advance_to. case_decide; [|done]. split_and!; simpl; [|lia|].
  - case_decide; [apply length_replicate|by rewrite length_clear_bits].
  - case_decide; [by apply Forall_replicate|by apply clear_bits_u64].
Qed.
Lemma wf_accept g n : wf g → wf (accept g n).
Proof using W_pos.
  intros Hwf. destruct (wf_advance_to g n Hwf) as (Hl & Hh & Hu).
  unfold accept. split_and!; simpl; [|done|].
  - unfold set_bit. by rewrite length_insert.
  - apply Forall_insert; [done|]. auto using is_u64_word, bit_range with u64.
Qed.

(** ** The simulation *)

Lemma max_seen_le seen n : n ∈ seen → n ≤ max_seen seen.
Proof. unfold max_seen. induction 1; simpl; lia. Qed.
Lemma max_seen_nonneg seen : 0 ≤ max_seen seen.
Proof. induction seen; simpl; lia. Qed.

Lemma repr_new : repr new [].
Proof.
  split_and!; [apply wf_new|done|]. intros n _. simpl. rewrite marked_zeros.
  split; [done|by intros ?%not_elem_of_nil].
Qed.

Lemma repr_check g seen n : 0 ≤ n → repr g seen → check g n = spec_check seen n.
Proof using W_pos.
  intros Hn (Hwf & Hh & Hm). unfold check, spec_check. rewrite <-Hh.
  case_decide; [done|]. case_decide as Hgt.
  - rewrite decide_False by lia. rewrite decide_False; [done|].
    intros Hin%max_seen_le. lia.
  - case_decide; [done|]. pose proof (bit_range n).
    pose proof (land_bit64_nonzero (word (window g) (slot n)) (bit n) ltac:(lia)) as Hbit.
    specialize (Hm n ltac:(lia)). unfold marked in Hm.
    repeat case_decide; try done; naive_solver.
Qed.

Lemma marked_advance_to g n m :
  wf g → n - W * 64 < m ≤ n → highest g < n →
  marked (window (advance_to g n)) m =
    if decide (m ≤ highest g) then
      if decide (highest g - W * 64 < m) then marked (window g) m else false
    else false.
Proof using W_pos.
  intros (Hl & Hh & _) Hm Hn. unfold advance_to. rewrite decide_True by lia. simpl.
  destruct (decide (W * 64 ≤ n - highest g)).
  { rewrite marked_zeros. by repeat case_decide; try lia. }
  rewrite marked_clear_bits by done. destruct (decide (m ≤ highest g)) as [Hle|Hgt].
  - rewrite (decide_True (P := highest g - W * 64 < m)) by lia. rewrite decide_False; [done|].
    intros (step & [i [-> ?]%lookup_seqZ]%list_elem_of_lookup & Hsp)%Exists_exists.
    apply same_pos_window in Hsp; lia.
  - rewrite decide_True; [done|]. apply Exists_exists. exists (m - highest g). split.
    + apply list_elem_of_lookup. exists (Z.to_nat (m - highest g - 1)).
      apply lookup_seqZ. lia.
    + replace (highest g + (m - highest g)) with m by lia. done.
Qed.

Lemma repr_accept g seen n :
  0 ≤ n → highest g - W * 64 < n → repr g seen → repr (accept g n) (n :: seen).
Proof using W_pos.
  intros Hn0 Hold (Hwf & Hh & Hm). split_and!; [by apply wf_accept| |].
  { unfold accept, advance_to. simpl. case_decide; simpl; unfold max_seen in *; simpl; lia. }
  destruct (wf_advance_to g n Hwf) as (Hl & _ & _). intros m. unfold accept. simpl.
  rewrite marked_set_bit, elem_of_cons by done. intros Hrange.
  assert (highest (advance_to g n) = Z.max n (highest g)) as Hmax.
  { unfold advance_to. case_decide; simpl; lia. }
  rewrite Hmax in Hrange.
  destruct (decide (same_pos n m)) as [Hsp|Hsp].
  { apply same_pos_window in Hsp; [|lia]. naive_solver. }
  assert (n ≠ m) by (intros ->; by destruct Hsp). destruct (decide (highest g < n)) as [Hlt|Hge].
  - rewrite marked_advance_to by (done || lia). repeat case_decide; [rewrite Hm by lia; naive_solver| |].
    + pose proof (max_seen_le seen m). lia.
    + pose proof (max_seen_le seen m). naive_solver lia.
  - unfold advance_to. rewrite decide_False by lia. rewrite Hm by lia. naive_solver.
Qed.

Lemma spec_check_Ok_inv seen n u :
  spec_check seen n = Ok u → n ≠ 0 ∧ max_seen seen - n < W * 64 ∧ n ∉ seen.
Proof. unfold spec_check. repeat case_decide; try done. intros _. split_and!; [done|lia|done]. Qed.

Lemma repr_run g seen ns :
  Forall is_u64 ns → repr g seen →
  (run g ns).1 = (spec_run seen ns).1 ∧ repr (run g ns).2 (spec_run seen ns).2.
Proof using W_pos.
  intros Hns. revert g seen. induction Hns as [|n ns [Hn _] Hns IH]; intros g seen Hr; simpl; [done|].
  unfold check_and_accept. rewrite (repr_check g seen n) by done.
  destruct (spec_check seen n) as [[]|e] eqn:Hc; simpl.
  - apply spec_check_Ok_inv in Hc as (_ & Hlt & _).
    assert (repr (accept g n) (n :: seen)) as Hr'.
    { apply repr_accept; [done| |done]. destruct Hr as (_ & -> & _). lia. }
    specialize (IH _ _ Hr'). destruct (run _ ns), (spec_run _ ns). simpl in *. naive_solver.
  - specialize (IH _ _ Hr). destruct (run _ ns), (spec_run _ ns). simpl in *. naive_solver.
Qed.

Lemma accepted_cons n ns r rs :
  accepted (n :: ns) (r :: rs) = if is_ok r then n :: accepted ns rs else accepted ns rs.
Proof. by destruct r. Qed.
Lemma spec_run_seen seen ns :
  (spec_run seen ns).2 = reverse (accepted ns (spec_run seen ns).1) ++ seen.
Proof.
  revert seen. induction ns as [|n ns IH]; intros seen; simpl; [done|].
  destruct (spec_check seen n) as [[]|e]; simpl.
  - specialize (IH (n :: seen)). destruct (spec_run (n :: seen) ns) as [rs s']. simpl in *.
    subst s'. rewrite accepted_cons. cbn [is_ok]. by rewrite reverse_cons, <-app_assoc.
  - specialize (IH seen). destruct (spec_run seen ns) as [rs s']. simpl in *.
    by rewrite accepted_cons.
Qed.
Lemma spec_run_NoDup seen ns : NoDup seen → NoDup (spec_run seen ns).2.
Proof.
  revert seen. induction ns as [|n ns IH]; intros seen Hnd; simpl; [done|].
  destruct (spec_check seen n) as [[]|e] eqn:Hc; simpl.
  - apply spec_check_Ok_inv in Hc as (_ & _ & Hni). specialize (IH (n :: seen)).
    destruct (spec_run _ ns). simpl in *. apply IH. by constructor.
  - specialize (IH seen). destruct (spec_run _ ns). simpl in *. auto.
Qed.

Lemma max_seen_bound seen h : 0 ≤ h → Forall (λ n, n ≤ h) seen → max_seen seen ≤ h.
Proof. intros ?. unfold max_seen. induction 1; simpl; lia. Qed.

Lemma spec_run_fresh seen ns lo :
  0 ≤ lo → NoDup ns → Forall (λ n, lo < n ≤ lo + W * 64) (seen ++ ns) → (∀ n, n ∈ ns → n ∉ seen) →
  Forall (λ r, r = Ok ()) (spec_run seen ns).1.
Proof using W_pos.
  intros Hlo Hnd. revert seen. induction Hnd as [|n ns Hni Hnd IH]; intros seen Hall Hdis; simpl; [done|].
  apply Forall_app in Hall as [Hs [Hn Hns]%Forall_cons].
  assert (max_seen seen ≤ lo + W * 64).
  { apply max_seen_bound; [lia|]. eapply Forall_impl; [done|]. simpl. lia. }
  assert (spec_check seen n = Ok ()) as Hc.
  { unfold spec_check. rewrite !decide_False; [done|apply Hdis; left|lia|lia]. }
  rewrite Hc. simpl. specialize (IH (n :: seen)). destruct (spec_run _ ns). simpl in *.
  constructor; [done|]. apply IH; [by apply Forall_cons; split; [|apply Forall_app]|].
  intros m Hm. apply not_elem_of_cons. split; [by intros ->|]. apply Hdis. by right.
Qed.

End guard.

(** [C1] The packed sliding window refines the abstract guard that remembers
    every nonce it ever accepted: for every window size [W > 0] and every
    sequence of 64-bit nonces, [check_and_accept] answers each of them exactly
    as the abstract guard does ([Ok] iff the nonce is non-zero, less than
    [W * 64] below the highest accepted one and not accepted before; [TooOld]
    and [Replay] otherwise).  No bit of the window is ever stale or aliased. *)
Theorem run_refines_spec (W : Z) (ns : list Z) :
  0 < W → Forall is_u64 ns → (run W (new W) ns).1 = (spec_run W [] ns).1.
Proof. intros. eapply repr_run; [done..|]. by apply repr_new. Qed.

Lemma run_refines_spec_witness :
  (run 1 (new 1) [5; 5; 70; 6; 7; 134; 70]).1 = (spec_run 1 [] [5; 5; 70; 6; 7; 134; 70]).1.
Proof. apply (run_refines_spec 1); [lia|]. repeat constructor; unfold u64_max; lia. Defined.

(** No nonce is accepted twice by a guard, whatever sequence of nonces is
    submitted to it: the accepted nonces of a run are pairwise distinct. *)
Theorem accepted_NoDup (W : Z) (ns : list Z) :
  0 < W → Forall is_u64 ns → NoDup (accepted ns (run W (new W) ns).1).
Proof.
  intros HW Hns. destruct (repr_run W HW (new W) [] ns Hns (repr_new W)) as [-> _].
  pose proof (spec_run_NoDup W [] ns (NoDup_nil_2)) as Hnd.
  by rewrite spec_run_seen, app_nil_r, reverse_Permutation in Hnd.
Qed.

Lemma accepted_NoDup_witness :
  NoDup (accepted [5; 1000; 5; 9] (run 64 (new 64) [5; 1000; 5; 9]).1).
Proof. apply (accepted_NoDup 64); [lia|]. repeat constructor; unfold u64_max; lia. Defined.

(** Out-of-order tolerance: pairwise distinct nonces that all lie in one
    window of [W * 64] consecutive values are all accepted, in whatever order
    they arrive (the guard never reports a false replay). *)
Theorem distinct_in_window_accepted (W lo : Z) (ns : list Z) :
  0 < W → 0 ≤ lo → NoDup ns → Forall is_u64 ns → Forall (λ n, lo < n ≤ lo + W * 64) ns →
  Forall (λ r, r = Ok ()) (run W (new W) ns).1.
Proof.
  intros HW Hlo Hnd Hns Hall. destruct (repr_run W HW (new W) [] ns Hns (repr_new W)) as [-> _].
  eapply spec_run_fresh; eauto. set_solver.
Qed.

Lemma distinct_in_window_accepted_witness :
  Forall (λ r, r = Ok ()) (run 1 (new 1) [70; 20; 83; 64]).1.
Proof.
  apply (distinct_in_window_accepted 1 19); [lia|lia| | |].
  - by_compute.
  - repeat constructor; unfold u64_max; lia.
  - repeat constructor; lia.
Defined.

End ReplayGuard.
