(* ===== verification/Atomic.v ===== *)
(** * Compare-and-exchange loops

    Several components update one shared [AtomicU64]/[AtomicUsize] with the same
    loop: load the value, decide on a new one or give up, [compare_exchange],
    and retry when another thread won the race.  It appears in
    [NonceManager::validate_recv] (crates/openhttpa-crypto/src/nonce.rs),
    [AtomicNonceSequence::next_nonce] (crates/openhttpa-crypto/src/aead.rs), the
    strict-monotonic branch of [AttestSession::with_keys_for_trr]
    (crates/openhttpa-core/src/session/mod.rs) and, through the standard
    library's [try_update], [AtbRegistry::insert]
    (crates/openhttpa-server/src/atb_registry.rs).

    The loop is modelled once, for any number of threads and every
    interleaving of their atomic accesses; the components instantiate the
    update function. *)

From S2P Require Import Prelude.
From stdpp Require Import options relations.

#[local] Open Scope Z_scope.

Module CasLoop.

Section loop.
Context {Op : Type} (upd : Op → Z → option Z).

(** Where a thread is: about to load, or holding the value it loaded. *)
Inductive pc : Type :=
| Start (op : Op)
| Loaded (op : Op) (seen : Z).

(** An operation that finished returns [Ok] of the value it replaced, or [Err]
    of the value for which [upd] gave up. *)
Abbreviation event := (Op * result Z Z)%type.

Record conf : Type := mk {
  shared : Z;
  threads : gmap nat pc;
  history : list event;
}.

Inductive step : conf → conf → Prop :=
| step_spawn s ts h i op :
    ts !! i = None →
    step (mk s ts h) (mk s (<[i := Start op]> ts) h)
| step_load s ts h i op new :
    ts !! i = Some (Start op) → upd op s = Some new →
    step (mk s ts h) (mk s (<[i := Loaded op s]> ts) h)
| step_give_up s ts h i op :
    ts !! i = Some (Start op) → upd op s = None →
    step (mk s ts h) (mk s (delete i ts) (h ++ [(op, Err s)]))
| step_cas s ts h i op seen new :
    ts !! i = Some (Loaded op seen) → s = seen → upd op seen = Some new →
    step (mk s ts h) (mk new (delete i ts) (h ++ [(op, Ok seen)]))
| step_retry s ts h i op seen :
    ts !! i = Some (Loaded op seen) → s ≠ seen →
    step (mk s ts h) (mk s (<[i := Start op]> ts) h).

Definition init (s : Z) : conf := mk s ∅ [].
Definition reachable (s : Z) (c : conf) : Prop := rtc step (init s) c.

(** ** The sequential specification: one atomic read-modify-write *)

Definition atomic (s : Z) (op : Op) : result Z Z * Z :=
  match upd op s with
  | Some new => (Ok s, new)
  | None => (Err s, s)
  end.

Fixpoint replay (s : Z) (h : list event) : option Z :=
  match h with
  | [] => Some s
  | (op, r) :: h =>
      let '(r', s') := atomic s op in
      match r, r' with
      | Ok v, Ok v' | Err v, Err v' => if decide (v = v') then replay s' h else None
      | _, _ => None
      end
  end.

Lemma replay_app s h1 h2 : replay s (h1 ++ h2) = replay s h1 ≫= λ s', replay s' h2.
Proof.
  revert s. induction h1 as [|[op r] h1 IH]; intros s; simpl; [done|].
  destruct (atomic s op) as [r' s']. destruct r, r'; repeat case_decide; auto.
Qed.

(** Threads that hold a loaded value only ever hold one [upd] accepts. *)
Definition threads_ok (ts : gmap nat pc) : Prop :=
  ∀ i op seen, ts !! i = Some (Loaded op seen) → is_Some (upd op seen).

Lemma step_linearizes c c' s :
  step c c' → replay s (history c) = Some (shared c) ∧ threads_ok (threads c) →
  replay s (history c') = Some (shared c') ∧ threads_ok (threads c').
Proof.
  intros Hstep [Hr Ht]. split.
  - destruct Hstep as [| |s' ts h i op Hi Hu|s' ts h i op seen new Hi -> Hu|]; simpl in *; try done;
      rewrite replay_app, Hr; simpl; unfold atomic; rewrite Hu; by rewrite decide_True.
  - destruct Hstep; simpl in *; intros j op' v Hj;
      first [apply lookup_insert_Some in Hj as [[? ?]|[? ?]]|apply lookup_delete_Some in Hj as [? ?]];
      simplify_eq; eauto.
Qed.

(** Every interleaving is equivalent to running the finished operations one
    after the other, each as a single atomic step, in the order of their
    linearization points. *)
Lemma linearizable s c : reachable s c → replay s (history c) = Some (shared c).
Proof.
  intros Hr. eapply (rtc_ind_l (λ c0, replay s (history c0) = Some (shared c0) ∧
    threads_ok (threads c0) → replay s (history c) = Some (shared c)) c); [| |exact Hr|].
  - by intros [].
  - intros x y Hxy _ IH Hx. apply IH. by eapply step_linearizes.
  - split; [done|]. by intros i op v.
Qed.

(** A failed [compare_exchange] means that some other operation completed in
    the meantime: the shared value differs from the one loaded. *)
Lemma retry_progress c c' i op :
  step c c' → threads c' !! i = Some (Start op) → ∀ seen, threads c !! i = Some (Loaded op seen) →
  shared c ≠ seen.
Proof.
  intros Hstep Hc' seen Hc. destruct Hstep; simpl in *;
    repeat match goal with
    | H : <[_ := _]> _ !! _ = Some _ |- _ => apply lookup_insert_Some in H as [[? ?]|[? ?]]
    | H : delete _ _ !! _ = Some _ |- _ => apply lookup_delete_Some in H as [? ?]
    end; simplify_eq; done.
Qed.

End loop.

Arguments conf : clear implicits.
Arguments pc : clear implicits.

End CasLoop.
