(* ===== verification/Nonce.v ===== *)
(** * Counter nonces

    [crates/openhttpa-crypto/src/nonce.rs]: the TLS 1.3 nonce construction, the
    persistent storage of the two counters and the per-session [NonceManager].
    [validate_recv] is lock-free: its compare-and-exchange loop is an instance
    of [Atomic.CasLoop], so the theorems about it hold for every interleaving. *)

From S2P Require Import Prelude Atomic.
From stdpp Require Import options relations.

#[local] Open Scope Z_scope.

(** ** Nonce construction *)

(** [NonceManager::build_aead_nonce]: XOR the big-endian counter into the last
    eight bytes of the 12-byte IV. *)
Definition build_aead_nonce (counter : Z) (write_iv : bytes) : bytes :=
  take 4 write_iv ++ zip_with u8_xor (drop 4 write_iv) (u64_be counter).

Lemma length_build_aead_nonce c iv : length iv = 12%nat → length (build_aead_nonce c iv) = 12%nat.
Proof.
  intros Hiv. unfold build_aead_nonce, u64_be.
  wire_len.
Qed.

Lemma zip_with_xor_inj l k1 k2 :
  length k1 = length l → length k2 = length l →
  zip_with u8_xor l k1 = zip_with u8_xor l k2 → k1 = k2.
Proof.
  revert k1 k2. induction l as [|x l IH]; intros [|a k1] [|b k2] H1 H2 Heq; simplify_eq/=; [done|].
  f_equal; [by eapply u8_xor_inj_r|auto].
Qed.

(** Different counters give different nonces under one IV. *)
Lemma build_aead_nonce_inj iv c1 c2 :
  length iv = 12%nat → is_u64 c1 → is_u64 c2 →
  build_aead_nonce c1 iv = build_aead_nonce c2 iv → c1 = c2.
Proof.
  intros Hiv H1 H2 Heq. apply (app_inj_1 (take 4 iv)) in Heq as [_ Heq]; [|done].
  apply zip_with_xor_inj in Heq; [by apply u64_be_inj| |];
    wire_len.
Qed.

Module NonceManager.

Inductive NonceError : Type :=
| Replay (received last : Z)
| Overflow
| Storage (msg : string).

(** ** Storage

    The file holds a JSON object with two optional fields; [Corrupt] is a file
    that exists but does not parse.  A write goes to a temporary file that is
    renamed over the old one, so a failed [save] leaves the file as it was. *)
Inductive file : Type :=
| Absent
| Corrupt
| Json (next_send last_seen : option Z).

Definition save (io_ok : bool) (f : file) (next_send last_seen : Z) : result NonceError () * file :=
  if io_ok then (Ok (), Json (Some next_send) (Some last_seen))
  else (Err (Storage "I/O error"), f).

Definition load (f : file) : result NonceError (Z * Z) :=
  match f with
  | Absent => Ok (1, 0)
  | Corrupt => Err (Storage "invalid JSON")
  | Json next last => Ok (default 1 next, default 0 last)
  end.

Record t : Type := mk {
  next_send : Z;
  last_seen : Z;
  storage : option file;
}.

Definition new : t := {| next_send := 1; last_seen := 0; storage := None |}.

Definition with_storage (f : file) : result NonceError t :=
  '(next, last) ← load f;
  Ok {| next_send := next; last_seen := last; storage := Some f |}.

(** Persist the given pair when a storage is configured. *)
Definition persist (io_ok : bool) (m : t) (next last : Z) : result NonceError () * t :=
  match storage m with
  | None => (Ok (), m)
  | Some f =>
      let '(r, f) := save io_ok f next last in
      (r, {| next_send := next_send m; last_seen := last_seen m; storage := Some f |})
  end.

(** [fetch_add] wraps around before the overflow test. *)
Definition next_send_nonce (io_ok : bool) (m : t) : result NonceError Z * t :=
  let prev := next_send m in
  let m := {| next_send := wrap64 (prev + 1); last_seen := last_seen m; storage := storage m |} in
  if decide (prev = u64_max) then (Err Overflow, m)
  else
    let '(r, m) := persist io_ok m (prev + 1) (last_seen m) in
    (r ≫= λ _, Ok prev, m).

(** The decision of the compare-and-exchange loop of [validate_recv]. *)
Definition recv_upd (nonce last : Z) : option Z :=
  if decide (nonce ≤ last) then None else Some nonce.

(** [validate_recv] when no other thread interferes. *)
Definition validate_recv (io_ok : bool) (m : t) (nonce : Z) : result NonceError () * t :=
  let last := last_seen m in
  match recv_upd nonce last with
  | None => (Err (Replay nonce last), m)
  | Some nonce =>
      let m := {| next_send := next_send m; last_seen := nonce; storage := storage m |} in
      persist io_ok m (next_send m) nonce
  end.

(** ** Sequences of calls *)

Inductive call : Type :=
| Send
| Recv (nonce : Z).

Definition exec (io_ok : bool) (m : t) (c : call) : t :=
  match c with
  | Send => (next_send_nonce io_ok m).2
  | Recv n => (validate_recv io_ok m n).2
  end.

Definition wf (m : t) : Prop := is_u64 (next_send m) ∧ is_u64 (last_seen m).

(** The stored pair is the pair in memory. *)
Definition synced (m : t) : Prop := storage m = Some (Json (Some (next_send m)) (Some (last_seen m))).

Fixpoint sends (m : t) (k : nat) : list (result NonceError Z) * t :=
  match k with
  | O => ([], m)
  | S k =>
      let '(r, m) := next_send_nonce true m in
      let '(rs, m) := sends m k in
      (r :: rs, m)
  end.

Lemma next_send_nonce_ok m :
  wf m → next_send m < u64_max →
  next_send_nonce true m =
    (Ok (next_send m),
     {| next_send := next_send m + 1; last_seen := last_seen m;
        storage := (λ _, Json (Some (next_send m + 1)) (Some (last_seen m))) <$> storage m |}).
Proof.
  intros [[Hlo _] _] Hlt. unfold next_send_nonce, persist. rewrite decide_False by lia. simpl.
  rewrite wrap64_small by (unfold is_u64; lia). by destruct (storage m).
Qed.

Lemma sends_seq m k :
  wf m → next_send m + Z.of_nat k ≤ u64_max →
  (sends m k).1 = Ok <$> seqZ (next_send m) (Z.of_nat k).
Proof.
  revert m. induction k as [|k IH]; intros m Hwf Hle; [done|].
  cbn [sends]. rewrite next_send_nonce_ok by (done || lia).
  specialize (IH {| next_send := next_send m + 1; last_seen := last_seen m;
    storage := (λ _, Json (Some (next_send m + 1)) (Some (last_seen m))) <$> storage m |}).
  destruct (sends _ k) as [rs m'] eqn:Hs. simpl in *.
  rewrite seqZ_cons, fmap_cons, IH by (try (destruct Hwf; split; unfold is_u64 in *; simpl); lia).
  do 2 f_equal. f_equal; lia.
Qed.

(** [reload f] is what a restarted process finds in the storage. *)
Definition same_counters (m m' : t) : Prop :=
  next_send m' = next_send m ∧ last_seen m' = last_seen m.

Lemma exec_step m c :
  wf m → is_Some (storage m) → next_send m < u64_max →
  let m' := exec true m c in
  is_Some (storage m') ∧ next_send m' ≤ next_send m + 1 ∧ 0 ≤ next_send m' ∧
  (synced m' ∨ m' = m).
Proof.
  intros Hwf [f Hf] Hlt. destruct c as [|n]; simpl.
  - rewrite next_send_nonce_ok by done. simpl. rewrite Hf. unfold synced. simpl.
    destruct Hwf as [[? _] _]. split_and!; [by eexists|lia|lia|by left].
  - unfold validate_recv. destruct (recv_upd n (last_seen m)) as [n'|]; simpl.
    + unfold persist. simpl. rewrite Hf. unfold synced. simpl.
      destruct Hwf as [[? _] _]. split_and!; [by eexists|lia|lia|by left].
    + destruct Hwf as [[? _] _]. split_and!; [by eexists|lia|lia|by right].
Qed.

Lemma exec_wf io m c : wf m → is_u64 (match c with Send => 0 | Recv n => n end) → wf (exec io m c).
Proof.
  intros [Hn Hl] Hc. destruct c as [|n]; simpl.
  - unfold next_send_nonce, persist. case_decide; simpl; [split; [apply wrap64_range|done]|].
    destruct (storage m); simpl; [destruct io|]; simpl; (split; [apply wrap64_range|done]).
  - unfold validate_recv, recv_upd, persist. case_decide; simpl; [done|].
    destruct (storage m); simpl; [destruct io|]; by split.
Qed.

(** Every call sequence leaves the storage describing the counters in memory. *)
Lemma exec_reload m cs :
  wf m → Forall (λ c, is_u64 (match c with Send => 0 | Recv n => n end)) cs →
  next_send m + Z.of_nat (length cs) ≤ u64_max →
  (∃ f, storage m = Some f ∧ load f = Ok (next_send m, last_seen m)) →
  let m' := foldl (exec true) m cs in
  ∃ f, storage m' = Some f ∧ load f = Ok (next_send m', last_seen m').
Proof.
  intros Hwf Hcs. revert m Hwf. induction Hcs as [|c cs Hc Hcs IH]; intros m Hwf Hle Hload; [done|].
  cbn [foldl length] in *. destruct Hload as (f & Hf & Hload).
  destruct (exec_step m c Hwf) as ([f' Hf'] & Hn & Hn0 & Hs); [by eexists|lia|].
  apply IH; [by apply exec_wf|lia|]. exists f'. split; [done|]. destruct Hs as [Hs|Heq].
  - unfold synced in Hs. rewrite Hs in Hf'. by simplify_eq.
  - rewrite Heq in *. by simplify_eq.
Qed.

(** ** Concurrent receivers *)

Abbreviation event := (Z * result Z Z)%type.

Definition accepted_recv (h : list event) : list Z :=
  omap (λ '(n, r), if is_ok r then Some n else None) h.

Lemma replay_sorted s h s' :
  CasLoop.replay recv_upd s h = Some s' →
  s ≤ s' ∧ StronglySorted Z.lt (accepted_recv h) ∧ Forall (λ n, s < n ≤ s') (accepted_recv h).
Proof.
  revert s. induction h as [|[n r] h IH]; intros s; simpl.
  { intros [= ->]. split_and!; [lia|constructor|constructor]. }
  unfold CasLoop.atomic, recv_upd. case_decide as Hle.
  - destruct r; [done|]. case_decide; [|done]. subst. intros (? & ? & ?)%IH. by split_and!.
  - destruct r; [|done]. case_decide; [|done]. subst. intros (Hs & Hsrt & Hall)%IH. simpl.
    split_and!; [lia| |].
    + constructor; [done|]. eapply Forall_impl; [exact Hall|]. simpl. lia.
    + constructor; [lia|]. eapply Forall_impl; [exact Hall|]. simpl. lia.
Qed.

(** ** The storage write that follows the exchange

    A thread that won the exchange then writes its own nonce to the storage,
    with nothing that orders the writes of two threads. *)
Inductive save_pc : Type :=
| Validating (nonce : Z)
| Committed (nonce : Z).

Record save_conf : Type := mk_save {
  mem_last : Z;
  file_last : Z;
  pool : gmap nat save_pc;
}.

Inductive save_step : save_conf → save_conf → Prop :=
| save_spawn m f ts i n :
    ts !! i = None → save_step (mk_save m f ts) (mk_save m f (<[i := Validating n]> ts))
| save_exchange m f ts i n new :
    ts !! i = Some (Validating n) → recv_upd n m = Some new →
    save_step (mk_save m f ts) (mk_save new f (<[i := Committed new]> ts))
| save_reject m f ts i n :
    ts !! i = Some (Validating n) → recv_upd n m = None →
    save_step (mk_save m f ts) (mk_save m f (delete i ts))
| save_write m f ts i n :
    ts !! i = Some (Committed n) → save_step (mk_save m f ts) (mk_save m n (delete i ts)).

End NonceManager.

(** [validate_recv] under concurrency: in every execution of any number of
    threads, under every interleaving of their loads and compare-and-exchange
    operations, the accepted nonces are strictly increasing in the order of
    acceptance and above the initial value, and the shared counter is an upper
    bound on them.  In particular no nonce is accepted twice. *)
Theorem recv_concurrent_increasing (s : Z) (c : CasLoop.conf Z) :
  CasLoop.reachable NonceManager.recv_upd s c →
  s ≤ CasLoop.shared c ∧
  StronglySorted Z.lt (NonceManager.accepted_recv (CasLoop.history c)) ∧
  Forall (λ n, s < n ≤ CasLoop.shared c) (NonceManager.accepted_recv (CasLoop.history c)).
Proof. intros Hr%CasLoop.linearizable. by apply NonceManager.replay_sorted in Hr. Qed.

Lemma recv_concurrent_increasing_witness :
  let c := CasLoop.mk 7 ∅ [(7, Ok 0); (5, Err 7)] in
  StronglySorted Z.lt (NonceManager.accepted_recv (CasLoop.history c)).
Proof.
  apply (recv_concurrent_increasing 0 (CasLoop.mk 7 ∅ [(7, Ok 0); (5, Err 7)])).
  unfold CasLoop.reachable, CasLoop.init.
  eapply rtc_l; [apply (CasLoop.step_spawn _ _ _ _ 0%nat 5); reflexivity|].
  eapply rtc_l; [apply (CasLoop.step_spawn _ _ _ _ 1%nat 7); reflexivity|].
  eapply rtc_l; [eapply (CasLoop.step_load _ _ _ _ 0%nat 5); reflexivity|].
  eapply rtc_l; [eapply (CasLoop.step_load _ _ _ _ 1%nat 7); reflexivity|].
  eapply rtc_l; [eapply (CasLoop.step_cas _ _ _ _ 1%nat 7); reflexivity|].
  eapply rtc_l; [eapply (CasLoop.step_retry _ _ _ _ 0%nat 5 0); [reflexivity|done]|].
  eapply rtc_l; [eapply (CasLoop.step_give_up _ _ _ _ 0%nat 5); reflexivity|].
  match goal with |- rtc _ (CasLoop.mk _ ?ts _) _ => replace ts with (∅ : gmap nat (CasLoop.pc Z)) by reflexivity end.
  apply rtc_refl.
Defined.

(** Durability: starting from whatever a storage file holds, every sequence
    of sends and receives (with working I/O, before the send counter is
    exhausted) leaves the file such that a restarted manager has exactly the
    counters of the running one; in particular it rejects every nonce that was
    accepted before the restart. *)
Theorem restart_restores_counters (f : NonceManager.file) (m0 : NonceManager.t)
    (cs : list NonceManager.call) :
  NonceManager.with_storage f = Ok m0 → NonceManager.wf m0 →
  Forall (λ c, is_u64 (match c with NonceManager.Send => 0 | NonceManager.Recv n => n end)) cs →
  NonceManager.next_send m0 + Z.of_nat (length cs) ≤ u64_max →
  let m := foldl (NonceManager.exec true) m0 cs in
  ∃ f' m', NonceManager.storage m = Some f' ∧ NonceManager.with_storage f' = Ok m' ∧
    NonceManager.same_counters m m' ∧
    ∀ io n, n ≤ NonceManager.last_seen m →
      (NonceManager.validate_recv io m' n).1 = Err (NonceManager.Replay n (NonceManager.last_seen m)).
Proof.
  intros H0 Hwf Hcs Hle m. unfold NonceManager.with_storage in H0.
  destruct (NonceManager.load f) as [[next last]|] eqn:Hload; inv_ok.
  edestruct (NonceManager.exec_reload _ cs Hwf Hcs Hle) as (f' & Hf' & Hl').
  { eexists. split; [done|]. by rewrite Hload. }
  exists f'. unfold NonceManager.with_storage. rewrite Hl'. simpl. eexists. split_and!; try done.
  intros io n Hn. unfold NonceManager.validate_recv, NonceManager.recv_upd. simpl.
  by rewrite decide_True.
Qed.

Lemma restart_restores_counters_witness :
  ∃ f' m', NonceManager.storage (foldl (NonceManager.exec true)
      (NonceManager.mk 1 0 (Some NonceManager.Absent)) [NonceManager.Send; NonceManager.Recv 5]) = Some f' ∧
    NonceManager.with_storage f' = Ok m'.
Proof.
  destruct (restart_restores_counters NonceManager.Absent
    (NonceManager.mk 1 0 (Some NonceManager.Absent)) [NonceManager.Send; NonceManager.Recv 5])
    as (f' & m' & ? & ? & _); [reflexivity| | |vm_compute; discriminate|by exists f', m'].
  - repeat constructor; vm_compute; discriminate.
  - repeat constructor; vm_compute; discriminate.
Defined.

(** The send counter hands out [1, 2, 3, ...] without a gap or a repetition
    for the first [2^64 - 2] calls. *)
Theorem sends_are_sequential (k : nat) :
  Z.of_nat k < u64_max →
  (NonceManager.sends NonceManager.new k).1 = Ok <$> seqZ 1 (Z.of_nat k).
Proof.
  intros Hk. apply NonceManager.sends_seq; [|simpl; lia]. repeat split; vm_compute; discriminate.
Qed.

Lemma sends_are_sequential_witness :
  (NonceManager.sends NonceManager.new 3).1 = Ok <$> seqZ 1 3.
Proof. apply (sends_are_sequential 3). vm_compute. reflexivity. Defined.

(** The overflow report is not sticky: the call that reports [Overflow] has
    already wrapped the counter to zero, so the following calls succeed again
    and hand out nonces that were used before. *)
Theorem send_overflow_wraps (io : bool) (l : Z) :
  let m := NonceManager.mk u64_max l None in
  let '(r1, m) := NonceManager.next_send_nonce io m in
  let '(r2, m) := NonceManager.next_send_nonce io m in
  let '(r3, m) := NonceManager.next_send_nonce io m in
  r1 = Err NonceManager.Overflow ∧ r2 = Ok 0 ∧ r3 = Ok 1.
Proof. done. Qed.

(** The persisted counter can go backwards: there is an interleaving of two
    [validate_recv] calls after which no thread is running, both nonces have
    been accepted, and the storage holds the smaller one; a restart then
    accepts the larger one a second time. *)
Theorem persisted_counter_can_regress :
  ∃ c, rtc NonceManager.save_step (NonceManager.mk_save 0 0 ∅) c ∧
    NonceManager.pool c = ∅ ∧ NonceManager.mem_last c = 6 ∧ NonceManager.file_last c = 5 ∧
    (NonceManager.validate_recv true
       (NonceManager.mk 1 (NonceManager.file_last c) None) 6).1 = Ok ().
Proof.
  exists (NonceManager.mk_save 6 5 ∅). split_and!; try done.
  eapply rtc_l; [apply (NonceManager.save_spawn _ _ _ 0%nat 5); reflexivity|].
  eapply rtc_l; [apply (NonceManager.save_spawn _ _ _ 1%nat 6); reflexivity|].
  eapply rtc_l; [eapply (NonceManager.save_exchange _ _ _ 0%nat 5); reflexivity|].
  eapply rtc_l; [eapply (NonceManager.save_exchange _ _ _ 1%nat 6); reflexivity|].
  eapply rtc_l; [eapply (NonceManager.save_write _ _ _ 1%nat 6); reflexivity|].
  eapply rtc_l; [eapply (NonceManager.save_write _ _ _ 0%nat 5); reflexivity|].
  match goal with |- rtc _ (NonceManager.mk_save _ _ ?ts) _ =>
    replace ts with (∅ : gmap nat NonceManager.save_pc) by reflexivity end.
  apply rtc_refl.
Qed.
