(* ===== verification/Crypto.v ===== *)
(** * Cryptographic primitives

    The program calls aws-lc-rs, hmac/sha2 and hkdf for its primitives.  That
    code is not part of the repository, so each primitive is a class of
    operations that the models take as an argument, and what the program relies
    on is a second class of laws.  The laws are functional (correctness,
    determinism, lengths): no law says that a function with a short output is
    injective, which would be unsatisfiable.

    The [toy] instances at the end satisfy every law; the witnesses evaluate
    the models on them. *)

From S2P Require Import Prelude.
From stdpp Require Import options.

#[local] Open Scope Z_scope.

(** [AeadAlgorithm] (crates/openhttpa-crypto/src/aead.rs). *)
Inductive AeadAlgorithm : Type := Aes256Gcm | ChaCha20Poly1305.
#[export] Instance AeadAlgorithm_eq_dec : EqDecision AeadAlgorithm.
Proof. solve_decision. Defined.

Definition NONCE_LEN : nat := 12.
Definition TAG_LEN : nat := 16.
Definition key_len (_ : AeadAlgorithm) : nat := 32.

(** ** AEAD *)

Class AeadPrim : Type := {
  (** [UnboundKey::new] succeeds *)
  unbound_key_ok : AeadAlgorithm → bytes → bool;
  (** [seal_in_place_append_tag]: ciphertext followed by the tag *)
  prim_seal : AeadAlgorithm → (*key*) bytes → (*nonce*) bytes → (*aad*) bytes → bytes → option bytes;
  (** [LessSafeKey::open_in_place] *)
  prim_open : AeadAlgorithm → (*key*) bytes → (*nonce*) bytes → (*aad*) bytes → bytes → option bytes;
}.

Class AeadLaws (P : AeadPrim) : Prop := {
  unbound_key_ok_iff alg k : unbound_key_ok alg k = bool_decide (length k = key_len alg);
  (** sealing fails only on plaintexts beyond the algorithm's limit *)
  prim_seal_some alg k n aad pt :
    length k = key_len alg → Z.of_nat (length pt) ≤ 2 ^ 36 - 32 →
    is_Some (prim_seal alg k n aad pt);
  prim_seal_length alg k n aad pt ct :
    prim_seal alg k n aad pt = Some ct → length ct = (length pt + TAG_LEN)%nat;
  (** decryption inverts encryption, and accepts nothing else: both supported
      algorithms are deterministic, so a ciphertext that verifies is the one
      that sealing the recovered plaintext gives *)
  prim_open_iff alg k n aad pt ct :
    prim_open alg k n aad ct = Some pt ↔ prim_seal alg k n aad pt = Some ct;
}.

(** ** Hashes, HMAC and HKDF *)

Class HashPrim : Type := {
  sha256 : bytes → bytes;
  sha384 : bytes → bytes;
  sha512 : bytes → bytes;
}.

Class HashLaws (P : HashPrim) : Prop := {
  sha256_length m : length (sha256 m) = 32%nat;
  sha384_length m : length (sha384 m) = 48%nat;
  sha512_length m : length (sha512 m) = 64%nat;
}.

Class HmacPrim : Type := {
  hmac_sha256 : (*key*) bytes → bytes → bytes;
  hmac_sha384 : (*key*) bytes → bytes → bytes;
}.

Class HmacLaws (P : HmacPrim) : Prop := {
  hmac_sha256_length k m : length (hmac_sha256 k m) = 32%nat;
  hmac_sha384_length k m : length (hmac_sha384 k m) = 48%nat;
}.

(** HKDF-SHA-384: extract a pseudo-random key, expand it to [len] bytes. *)
Class HkdfPrim : Type := {
  hkdf_extract : (*salt*) bytes → (*ikm*) bytes → bytes;
  hkdf_expand : (*prk*) bytes → (*info*) bytes → (*len*) nat → option bytes;
}.

(** RFC 5869: [expand] fails exactly beyond 255 blocks or with a short key. *)
Class HkdfLaws (P : HkdfPrim) : Prop := {
  hkdf_extract_length salt ikm : length (hkdf_extract salt ikm) = 48%nat;
  hkdf_expand_some prk info len :
    (48 ≤ length prk)%nat → (len ≤ 255 * 48)%nat →
    ∃ okm, hkdf_expand prk info len = Some okm ∧ length okm = len;
}.

(** ** Toy instances *)

Module Toy.

Definition zero : byte := u8_of 0.
Definition pad (n : nat) (b : bytes) : bytes := take n (b ++ replicate n zero).
Definition tag (k n aad : bytes) : bytes := pad TAG_LEN (take 2 k ++ drop 6 n ++ take 8 aad).

Lemma length_pad n b : length (pad n b) = n.
Proof. unfold pad. rewrite length_take, length_app, length_replicate. lia. Qed.

#[export] Instance aead : AeadPrim := {|
  unbound_key_ok alg k := bool_decide (length k = key_len alg);
  prim_seal _ k n aad pt := Some (pt ++ tag k n aad);
  prim_open _ k n aad ct :=
    let l := (length ct - TAG_LEN)%nat in
    if decide (ct = take l ct ++ tag k n aad) then Some (take l ct) else None;
|}.

#[export] Instance aead_laws : AeadLaws aead.
Proof.
  split; simpl; [done|by eexists| |].
  - intros _ k n aad pt ct [= <-]. rewrite length_app. unfold tag. by rewrite length_pad.
  - intros _ k n aad pt ct. split.
    + case_decide as Hd; [|done]. intros [= <-]. by rewrite <-Hd.
    + intros [= <-].
      assert (length (pt ++ tag k n aad) - TAG_LEN = length pt)%nat as ->.
      { rewrite length_app. unfold tag. rewrite length_pad. lia. }
      by rewrite !take_app_length, decide_True.
Qed.

Definition fold_sum (b : bytes) : Z := foldl (λ acc x, (acc * 31 + u8_val x) `mod` 2 ^ 32) 7 b.

#[export] Instance hash : HashPrim := {|
  sha256 m := pad 32 (u64_be (fold_sum m));
  sha384 m := pad 48 (u64_be (fold_sum m));
  sha512 m := pad 64 (u64_be (fold_sum m));
|}.
#[export] Instance hash_laws : HashLaws hash.
Proof. split; intros; apply length_pad. Qed.

#[export] Instance hmac : HmacPrim := {|
  hmac_sha256 k m := pad 32 (u64_be (fold_sum (k ++ m)));
  hmac_sha384 k m := pad 48 (u64_be (fold_sum (k ++ m)));
|}.
#[export] Instance hmac_laws : HmacLaws hmac.
Proof. split; intros; apply length_pad. Qed.

#[export] Instance hkdf : HkdfPrim := {|
  hkdf_extract salt ikm := pad 48 (u64_be (fold_sum (salt ++ ikm)));
  hkdf_expand prk info len :=
    if decide ((48 ≤ length prk)%nat ∧ (len ≤ 255 * 48)%nat)
    then Some (pad len (u64_be (fold_sum (prk ++ info)))) else None;
|}.
#[export] Instance hkdf_laws : HkdfLaws hkdf.
Proof.
  split; [intros; apply length_pad|].
  intros prk info len ??. eexists. simpl. rewrite decide_True by done. split; [done|apply length_pad].
Qed.

End Toy.
