(* ===== verification/Aead.v ===== *)
(** * AEAD keys and nonce sequences

    [crates/openhttpa-crypto/src/aead.rs]: the raw [AeadKey], the
    [NonceSequence] trait with its in-memory and its file-backed implementation,
    and [BoundAeadKey], which draws the nonce of every sealed message from its
    sequence.

    The trait is the class [NonceSequence]; the contract that an implementation
    owes to [BoundAeadKey] is the class [NonceSequenceLaws], discharged by both
    implementations.  The theorem about [BoundAeadKey] (no nonce is used twice)
    is proved against the contract only. *)

From S2P Require Import Prelude Atomic Nonce Crypto.
From stdpp Require Import options relations.

#[local] Open Scope Z_scope.

Inductive AeadError : Type :=
| KeyConstruction
| SealFailed
| OpenFailed
| InvalidNonceLength
| IoError (msg : string).
#[export] Instance AeadError_eq_dec : EqDecision AeadError.
Proof. solve_decision. Defined.

(** [AeadNonce::from_slice] *)
Definition aead_nonce_from_slice (b : bytes) : result AeadError bytes :=
  if decide (length b = NONCE_LEN) then Ok b else Err InvalidNonceLength.

Module AeadKey.

Record t : Type := mk { raw : bytes; algorithm : AeadAlgorithm }.

Section ops.
Context `{P : AeadPrim}.

Definition new (alg : AeadAlgorithm) (key_bytes : bytes) : result AeadError t :=
  if unbound_key_ok alg key_bytes then Ok (mk key_bytes alg) else Err KeyConstruction.

Definition seal_in_place (k : t) (nonce aad data : bytes) : result AeadError bytes :=
  if unbound_key_ok (algorithm k) (raw k)
  then ok_or (prim_seal (algorithm k) (raw k) nonce aad data) SealFailed
  else Err KeyConstruction.

Definition open_in_place (k : t) (nonce aad ct : bytes) : result AeadError bytes :=
  if unbound_key_ok (algorithm k) (raw k)
  then ok_or (prim_open (algorithm k) (raw k) nonce aad ct) OpenFailed
  else Err KeyConstruction.

(** A key that [new] returned. *)
Definition wf (k : t) : Prop := length (raw k) = key_len (algorithm k).

Context {L : AeadLaws P}.

Lemma key_ok_decide k : unbound_key_ok (algorithm k) (raw k) = bool_decide (wf k).
Proof using L. apply unbound_key_ok_iff. Qed.

Lemma new_wf alg b k : new alg b = Ok k ↔ k = mk b alg ∧ wf k.
Proof using L.
  unfold new. rewrite unbound_key_ok_iff. case_bool_decide; split; intros; destruct_and?; simplify_eq; done.
Qed.

Lemma open_seal_iff k nonce aad pt ct :
  open_in_place k nonce aad ct = Ok pt ↔ seal_in_place k nonce aad pt = Ok ct.
Proof using L.
  unfold open_in_place, seal_in_place. destruct (unbound_key_ok _ _); [|done].
  rewrite !ok_or_Ok. apply prim_open_iff.
Qed.

Lemma seal_total k nonce aad pt :
  wf k → Z.of_nat (length pt) ≤ 2 ^ 36 - 32 → ∃ ct, seal_in_place k nonce aad pt = Ok ct.
Proof using L.
  intros Hwf Hlen. unfold seal_in_place. rewrite key_ok_decide, bool_decide_true by done.
  destruct (prim_seal_some (algorithm k) (raw k) nonce aad pt Hwf Hlen) as [ct ->]. by exists ct.
Qed.

Lemma seal_length k nonce aad pt ct :
  seal_in_place k nonce aad pt = Ok ct → length ct = (length pt + TAG_LEN)%nat.
Proof using L.
  unfold seal_in_place. case_test; [|done]. intros H%ok_or_Ok. by eapply prim_seal_length.
Qed.

(** A ciphertext opens to at most one plaintext and comes from at most one. *)
Lemma seal_inj k nonce aad pt1 pt2 ct :
  seal_in_place k nonce aad pt1 = Ok ct → seal_in_place k nonce aad pt2 = Ok ct → pt1 = pt2.
Proof using L. rewrite <-!open_seal_iff. congruence. Qed.

End ops.
End AeadKey.

(** ** Nonce sequences *)

Inductive BoundAeadError : Type :=
| NonceOverflow
| Aead (e : AeadError).

(** The trait.  [Env] carries what the outside world decides during a call (the
    outcome of file operations). *)
Class NonceSequence (S Env : Type) : Type :=
  next_nonce : Env → (*iv*) bytes → S → result BoundAeadError bytes * S.

(** What [BoundAeadKey] relies on: every nonce is built from a 64-bit counter,
    the position of the sequence passes the counter it hands out, and no call,
    failed or not, moves the position back. *)
Class NonceSequenceLaws (S Env : Type) `{NonceSequence S Env} : Type := {
  position : S → Z;
  seq_inv : S → Prop;
  next_nonce_ok e iv s n s' :
    seq_inv s → next_nonce e iv s = (Ok n, s') →
    ∃ c, is_u64 c ∧ position s ≤ c < position s' ∧ n = build_aead_nonce c iv;
  next_nonce_mono e iv s r s' :
    seq_inv s → next_nonce e iv s = (r, s') → seq_inv s' ∧ position s ≤ position s';
}.

(** *** [AtomicNonceSequence] *)

Module AtomicNonceSequence.

(** The update of the compare-and-exchange loop of [next_nonce]. *)
Definition upd (_ : ()) (count : Z) : option Z :=
  if decide (count = u64_max) then None else Some (count + 1).

#[global] Instance seq : NonceSequence Z () := λ _ iv counter,
  match upd () counter with
  | None => (Err NonceOverflow, counter)
  | Some counter' => (Ok (build_aead_nonce counter iv), counter')
  end.

#[global] Program Instance laws : NonceSequenceLaws Z () := {|
  position c := c;
  seq_inv c := is_u64 c;
|}.
Next Obligation.
  intros e iv s n s' Hs. unfold next_nonce, seq, upd. case_decide; [done|]. intros [= <- <-].
  exists s. split_and!; [done|lia|lia|done].
Qed.
Next Obligation.
  intros e iv s r s' [Hlo Hhi]. unfold next_nonce, seq, upd. case_decide; intros [= <- <-]; unfold is_u64; lia.
Qed.

(** *** Concurrent calls *)

(** The counters that the calls of a history returned. *)
Definition counters (h : list (() * result Z Z)) : list Z := omap (λ '(_, r), result_ok r) h.

Lemma replay_counters s h s' :
  CasLoop.replay upd s h = Some s' →
  counters h = seqZ s (s' - s) ∧ s ≤ s'.
Proof.
  revert s. induction h as [|[[] r] h IH]; intros s; simpl.
  { intros [= ->]. by rewrite Z.sub_diag. }
  unfold CasLoop.atomic, upd. case_decide as Hm.
  - destruct r; [done|]. case_decide; [|done]. subst. intros [Heq ?]%IH. done.
  - destruct r; [|done]. case_decide; [|done]. subst. intros [Heq ?]%IH. split; [|lia].
    rewrite (seqZ_cons s) by lia. simpl. rewrite Heq. f_equal. f_equal; lia.
Qed.

End AtomicNonceSequence.

(** *** [FileNonceSequence] *)

Module FileNonceSequence.

(** How one call to [next_nonce] fares.  A failed [write_all] may have written
    any number of the eight bytes, and a failed [sync_all] all of them. *)
Inductive io : Type :=
| MutexPoisoned
| OpenFailed'
| LockFailed
| ReadFailed
| WriteFailed (written : nat)
| Completed.

(** Overwrite the file from its start. *)
Definition overwrite (file b : bytes) : bytes := b ++ drop (length b) file.

Definition read_counter (file : bytes) : Z :=
  if decide (length file < 8)%nat then 1 else from_be (take 8 file).

(** [write_counter], with the number of bytes that reached the file. *)
Definition write_counter (written : nat) (file : bytes) (counter : Z) : bytes :=
  overwrite file (take written (u64_be counter)).

Definition io_error (msg : string) : BoundAeadError := Aead (IoError msg).

#[global] Instance seq : NonceSequence bytes io := λ e iv file,
  match e with
  | MutexPoisoned => (Err (io_error "Mutex poisoned"), file)
  | OpenFailed' => (Err (io_error "open failed"), file)
  | LockFailed => (Err (io_error "lock failed"), file)
  | ReadFailed => (Err (io_error "read failed"), file)
  | _ =>
      let count := read_counter file in
      if decide (count = u64_max) then (Err NonceOverflow, file)
      else match e with
           | WriteFailed written => (Err (io_error "write failed"), write_counter written file (count + 1))
           | _ => (Ok (build_aead_nonce count iv), write_counter 8 file (count + 1))
           end
  end.

(** Writing any prefix of the successor over a counter never lowers it. *)
Lemma torn_successor n j c :
  (j ≤ n)%nat → 0 ≤ c → c + 1 < 256 ^ Z.of_nat n →
  c ≤ from_be (take j (to_be n (c + 1)) ++ drop j (to_be n c)).
Proof.
  intros Hj Hc Hn. rewrite take_to_be, drop_to_be, from_be_app, !from_be_to_be_mod, length_to_be by done.
  set (M := 256 ^ Z.of_nat (n - j)). assert (0 < M) by (unfold M; lia).
  assert (256 ^ Z.of_nat n = M * 256 ^ Z.of_nat j) as Hpow.
  { unfold M. rewrite <-Z.pow_add_r by lia. f_equal. lia. }
  rewrite (Z.mod_small ((c + 1) / M)).
  - rewrite (Z.div_mod c M) at 1 by lia. pose proof (Z.div_le_mono c (c + 1) M). nia.
  - split; [apply Z.div_pos; lia|]. apply Z.div_lt_upper_bound; lia.
Qed.

Lemma read_counter_range file : is_u64 (read_counter file).
Proof.
  unfold read_counter. case_decide; [by_compute|].
  pose proof (from_be_range (take 8 file)) as Hr. rewrite length_take in Hr.
  replace (8 `min` length file)%nat with 8%nat in Hr by lia. unfold is_u64, u64_max. simpl in Hr. lia.
Qed.

Lemma take_8_overwrite file b : length b = 8%nat → take 8 (overwrite file b) = b.
Proof. intros Hb. unfold overwrite. rewrite take_app_le by lia. apply take_ge. lia. Qed.

Lemma read_write_full file c :
  is_u64 c → read_counter (write_counter 8 file c) = c.
Proof.
  intros Hc. assert (length (u64_be c) = 8%nat) as Hl by apply length_to_be.
  unfold write_counter. rewrite take_ge by lia. unfold read_counter.
  rewrite decide_False by (unfold overwrite; rewrite length_app; lia).
  rewrite take_8_overwrite by done. by apply from_be_u64_be.
Qed.

Lemma read_counter_torn file j c :
  (8 ≤ length file)%nat → (j < 8)%nat →
  read_counter (write_counter j file c) = from_be (take j (to_be 8 c) ++ drop j (take 8 file)).
Proof.
  intros Hf Hj. assert (length (take j (u64_be c)) = j) as Hl.
  { wire_len. }
  unfold read_counter, write_counter, overwrite. rewrite Hl.
  rewrite decide_False by (rewrite length_app, length_drop; lia).
  rewrite take_app, Hl, (take_ge (take j _)), take_drop_commute by lia.
  by replace (j + (8 - j))%nat with 8%nat by lia.
Qed.

Lemma read_write_torn file j :
  read_counter file < u64_max →
  read_counter file ≤ read_counter (write_counter j file (read_counter file + 1)).
Proof.
  intros Hlt. destruct (read_counter_range file) as [Hlo _].
  destruct (decide (8 ≤ j)%nat) as [Hj|Hj].
  { unfold write_counter. rewrite take_ge by wire_len.
    rewrite <-(take_ge (u64_be (read_counter file + 1)) 8) by wire_len.
    change (read_counter file ≤ read_counter (write_counter 8 file (read_counter file + 1))).
    rewrite read_write_full by (unfold is_u64; lia). lia. }
  destruct (decide (length file < 8)%nat) as [Hs|Hs].
  { unfold read_counter at 1. rewrite decide_True by done. unfold read_counter at 1.
    rewrite decide_True; [lia|]. unfold write_counter, overwrite.
    wire_len. }
  rewrite (read_counter_torn file j) by lia.
  assert (read_counter file = from_be (take 8 file)) as Hrc by (unfold read_counter; by rewrite decide_False).
  pose proof (to_be_from_be (take 8 file)) as Hbe. rewrite length_take, Nat.min_l in Hbe by lia.
  rewrite <-Hbe, <-Hrc. apply (torn_successor 8); [lia|lia|]. unfold u64_max in Hlt. simpl. lia.
Qed.

#[global] Program Instance laws : NonceSequenceLaws bytes io := {|
  position := read_counter;
  seq_inv _ := True;
|}.
Next Obligation.
  intros e iv file n file' _. unfold next_nonce, seq. destruct (read_counter_range file).
  destruct e; try done; case_decide; try done. intros [= <- <-].
  eexists. split_and!; [| |rewrite read_write_full|done]; unfold is_u64; lia.
Qed.
Next Obligation.
  intros e iv file r file' _. unfold next_nonce, seq. destruct (read_counter_range file).
  destruct e; try (intros [= <- <-]; split; [done|lia]);
    (case_decide; intros [= <- <-]; (split; [done|]); [lia|]).
  - apply read_write_torn. lia.
  - rewrite read_write_full; unfold is_u64; lia.
Qed.

End FileNonceSequence.

(** ** Bound keys *)

Module BoundAeadKey.

Record t (S : Type) : Type := mk { key : AeadKey.t; write_iv : bytes; sequence : S }.
Arguments mk {S} _ _ _.
Arguments key {S} _.
Arguments write_iv {S} _.
Arguments sequence {S} _.

(** [BatchPayload]: the buffer is taken out of the payload when it is opened. *)
Record BatchPayload : Type := mk_payload {
  nonce : bytes;
  aad : bytes;
  ciphertext_with_tag : bytes;
  plaintext : option bytes;
  error : option AeadError;
}.

Section ops.
Context `{P : AeadPrim} {S Env : Type} `{NonceSequence S Env}.

Definition with_sequence (alg : AeadAlgorithm) (key_bytes iv : bytes) (s : S) : result AeadError (t S) :=
  k ← AeadKey.new alg key_bytes;
  Ok (mk k iv s).

(** [seal]: the nonce is drawn, and the sequence advanced, before sealing. *)
Definition seal (e : Env) (k : t S) (aad data : bytes) : result BoundAeadError (bytes * bytes) * t S :=
  let '(rn, s) := next_nonce e (write_iv k) (sequence k) in
  (n ← rn;
   ct ← map_err Aead (AeadKey.seal_in_place (key k) n aad data);
   Ok (n, ct),
   mk (key k) (write_iv k) s).

Definition open (k : t S) (nonce aad ct : bytes) : result AeadError bytes :=
  AeadKey.open_in_place (key k) nonce aad ct.

Definition open_payload (k : t S) (p : BatchPayload) : BatchPayload :=
  match open k (nonce p) (aad p) (ciphertext_with_tag p) with
  | Ok pt => mk_payload (nonce p) (aad p) [] (Some pt) None
  | Err e => mk_payload (nonce p) (aad p) [] None (Some e)
  end.
Definition open_batch (k : t S) (ps : list BatchPayload) : list BatchPayload := open_payload k <$> ps.

(** A run of the sealing side: the messages, each with its environment. *)
Fixpoint seal_run (k : t S) (ms : list (Env * bytes * bytes)) :
    list (result BoundAeadError (bytes * bytes)) * t S :=
  match ms with
  | [] => ([], k)
  | (e, aad, data) :: ms =>
      let '(r, k) := seal e k aad data in
      let '(rs, k) := seal_run k ms in
      (r :: rs, k)
  end.

Definition nonces (rs : list (result BoundAeadError (bytes * bytes))) : list bytes :=
  omap (λ r, fst <$> result_ok r) rs.

Section laws.
Context {L : AeadLaws P} `{!NonceSequenceLaws S Env}.

Lemma seal_Ok e k aad data n ct k' :
  seal e k aad data = (Ok (n, ct), k') ↔
  ∃ s', next_nonce e (write_iv k) (sequence k) = (Ok n, s') ∧
    AeadKey.seal_in_place (key k) n aad data = Ok ct ∧ k' = mk (key k) (write_iv k) s'.
Proof.
  unfold seal. destruct (next_nonce _ _ _) as [rn s']. split.
  - intros Heq. injection Heq as Hr <-. inv_ok. simplify_eq. eauto.
  - intros (s'' & [= -> <-] & Hs & ->). simpl. by rewrite Hs.
Qed.

(** Every nonce of a run is built from a counter at or above the position
    where the run started, and the counters are distinct. *)
Lemma seal_run_counters k ms rs k' :
  seq_inv (sequence k) → seal_run k ms = (rs, k') →
  ∃ cs, nonces rs = (λ c, build_aead_nonce c (write_iv k)) <$> cs ∧
    StronglySorted Z.lt cs ∧ Forall (λ c, is_u64 c ∧ position (sequence k) ≤ c) cs.
Proof.
  revert k rs. induction ms as [|[[e aad'] data] ms IH]; intros k rs Hinv; cbn [seal_run].
  { intros [= <- <-]. exists []. by repeat constructor. }
  destruct (seal e k aad' data) as [r k1] eqn:Hseal.
  destruct (seal_run k1 ms) as [rs1 k2] eqn:Hrun. intros [= <- <-].
  unfold seal in Hseal. destruct (next_nonce e (write_iv k) (sequence k)) as [rn s1] eqn:Hn.
  injection Hseal as Hr Hk1. subst k1. destruct (next_nonce_mono _ _ _ _ _ Hinv Hn) as [Hinv1 Hmono].
  edestruct IH as (cs & Hcs & Hsorted & Hall); [|exact Hrun|]; [done|]. simpl in *.
  assert (Forall (λ c, is_u64 c ∧ position (sequence k) ≤ c) cs) as Hall'.
  { eapply Forall_impl; [exact Hall|]. intros c [??]. split; [done|lia]. }
  destruct r as [[n ct]|]; simpl; [|by exists cs].
  inv_ok. simplify_eq. destruct (next_nonce_ok _ _ _ _ _ Hinv Hn) as (c & Hc & Hlt & ->).
  exists (c :: cs). rewrite fmap_cons. split_and!; [by f_equal| |].
  - constructor; [done|]. eapply Forall_impl; [exact Hall|]. simpl. intros ? [??]. lia.
  - constructor; [|done]. split; [done|lia].
Qed.

End laws.
End ops.

(** [new]: an in-memory sequence that starts at one. *)
Definition new `{AeadPrim} (alg : AeadAlgorithm) (key_bytes iv : bytes) : result AeadError (t Z) :=
  with_sequence alg key_bytes iv 1.

End BoundAeadKey.

Lemma StronglySorted_lt_NoDup (cs : list Z) : StronglySorted Z.lt cs → NoDup cs.
Proof.
  induction 1 as [|c cs Hs IH Hall]; constructor; [|done].
  intros Hin. rewrite Forall_forall in Hall. specialize (Hall c Hin). lia.
Qed.

(** A bound key never uses a nonce twice: whatever sequence implementation
    satisfies the contract, in every run of seals (some of them failing, in the
    sequence or in the cipher) the nonces of the sealed messages are pairwise
    distinct. *)
Theorem bound_key_nonces_NoDup `{P : AeadPrim} {S Env : Type} `{NonceSequenceLaws S Env}
    (k k' : BoundAeadKey.t S) (ms : list (Env * bytes * bytes)) rs :
  length (BoundAeadKey.write_iv k) = NONCE_LEN → seq_inv (BoundAeadKey.sequence k) →
  BoundAeadKey.seal_run k ms = (rs, k') →
  NoDup (BoundAeadKey.nonces rs).
Proof.
  intros Hiv Hinv Hrun.
  destruct (BoundAeadKey.seal_run_counters k ms rs k' Hinv Hrun) as (cs & -> & Hs & Hall).
  apply NoDup_fmap_2_strong; [|by apply StronglySorted_lt_NoDup].
  rewrite Forall_forall in Hall. intros c1 c2 [Hc1 _]%Hall [Hc2 _]%Hall.
  by apply build_aead_nonce_inj.
Qed.

(** Four seals on a nonce file: one whose write is cut after the first byte, one
    whose lock fails, and two that complete. *)
Lemma bound_key_nonces_NoDup_witness :
  NoDup (BoundAeadKey.nonces (BoundAeadKey.seal_run (P := Toy.aead)
    (BoundAeadKey.mk (AeadKey.mk (replicate 32 (u8_of 1)) Aes256Gcm) (replicate 12 (u8_of 9)) (u64_be 255))
    [(FileNonceSequence.WriteFailed 7, [], as_bytes "a"); (FileNonceSequence.Completed, [], as_bytes "b");
     (FileNonceSequence.LockFailed, [], as_bytes "c"); (FileNonceSequence.Completed, [], as_bytes "d")]).1).
Proof.
  eapply (bound_key_nonces_NoDup (P := Toy.aead) (S := bytes) (Env := FileNonceSequence.io)
    (BoundAeadKey.mk (AeadKey.mk (replicate 32 (u8_of 1)) Aes256Gcm) (replicate 12 (u8_of 9)) (u64_be 255)));
    [reflexivity|exact I|apply surjective_pairing].
Defined.

(** Sealing and opening are inverse: on a well-formed key within the
    cipher's size limit a seal either fails in the nonce sequence or yields a
    ciphertext, 16 bytes longer, that opens to the data under the returned
    nonce and the same associated data; and nothing opens to the data under
    that nonce except this ciphertext. *)
Theorem bound_seal_open {P : AeadPrim} {L : AeadLaws P} {S Env : Type} `{NonceSequence S Env}
    (e : Env) (k : BoundAeadKey.t S) (aad data : bytes) n s' :
  AeadKey.wf (BoundAeadKey.key k) → Z.of_nat (length data) ≤ 2 ^ 36 - 32 →
  next_nonce e (BoundAeadKey.write_iv k) (BoundAeadKey.sequence k) = (Ok n, s') →
  ∃ ct k', BoundAeadKey.seal e k aad data = (Ok (n, ct), k') ∧
    length ct = (length data + TAG_LEN)%nat ∧
    ∀ ct', BoundAeadKey.open k' n aad ct' = Ok data ↔ ct' = ct.
Proof.
  intros Hwf Hlen Hn. destruct (AeadKey.seal_total _ n aad data Hwf Hlen) as [ct Hct].
  exists ct, (BoundAeadKey.mk (BoundAeadKey.key k) (BoundAeadKey.write_iv k) s'). split_and!.
  - apply BoundAeadKey.seal_Ok. by exists s'.
  - by eapply AeadKey.seal_length.
  - intros ct'. unfold BoundAeadKey.open. simpl. rewrite AeadKey.open_seal_iff, Hct.
    split; [by intros [=]|by intros ->].
Qed.

Lemma bound_seal_open_witness :
  ∃ ct k', BoundAeadKey.seal (P := Toy.aead) ()
      (BoundAeadKey.mk (AeadKey.mk (replicate 32 (u8_of 1)) Aes256Gcm) (replicate 12 (u8_of 9)) 1)
      [] (as_bytes "hello") = (Ok (build_aead_nonce 1 (replicate 12 (u8_of 9)), ct), k').
Proof.
  edestruct (bound_seal_open (P := Toy.aead) (L := Toy.aead_laws) ()
    (BoundAeadKey.mk (AeadKey.mk (replicate 32 (u8_of 1)) Aes256Gcm) (replicate 12 (u8_of 9)) 1)
    [] (as_bytes "hello")) as (ct & k' & Hs & _);
    [reflexivity|vm_compute; discriminate|reflexivity|by exists ct, k'].
Defined.

(** [AtomicNonceSequence] under concurrency: in every execution, for any
    number of threads and every interleaving, the counters behind the returned
    nonces are consecutive, one per successful call, so no two calls share
    one. *)
Theorem atomic_sequence_concurrent (start : Z) (c : CasLoop.conf ()) :
  CasLoop.reachable AtomicNonceSequence.upd start c →
  AtomicNonceSequence.counters (CasLoop.history c) = seqZ start (CasLoop.shared c - start).
Proof. intros Hr%CasLoop.linearizable. by apply AtomicNonceSequence.replay_counters in Hr as [? _]. Qed.

Lemma atomic_sequence_concurrent_witness :
  AtomicNonceSequence.counters [((), Ok 1)] = seqZ 1 (2 - 1).
Proof.
  apply (atomic_sequence_concurrent 1 (CasLoop.mk 2 (<[0%nat := CasLoop.Start ()]> ∅) [((), Ok 1)])).
  unfold CasLoop.reachable, CasLoop.init.
  eapply rtc_l; [apply (CasLoop.step_spawn _ _ _ _ 0%nat ()); reflexivity|].
  eapply rtc_l; [apply (CasLoop.step_spawn _ _ _ _ 1%nat ()); reflexivity|].
  eapply rtc_l; [eapply (CasLoop.step_load _ _ _ _ 0%nat ()); reflexivity|].
  eapply rtc_l; [eapply (CasLoop.step_load _ _ _ _ 1%nat ()); reflexivity|].
  eapply rtc_l; [eapply (CasLoop.step_cas _ _ _ _ 1%nat ()); reflexivity|].
  eapply rtc_l; [eapply (CasLoop.step_retry _ _ _ _ 0%nat () 1); [reflexivity|done]|].
  match goal with |- rtc _ (CasLoop.mk _ ?ts _) _ =>
    replace ts with (<[0%nat := CasLoop.Start ()]> ∅ : gmap nat (CasLoop.pc ())) by reflexivity end.
  apply rtc_refl.
Defined.
