(* ===== verification/Proto.v ===== *)
(** * Protocol types

    [crates/openhttpa-proto/src/types.rs] and the wire names of
    [crates/openhttpa-config/src/lib.rs]: versions, cipher suites, quote types
    and formats with their [Display] and [FromStr] implementations, and the
    plain data types of the protocol.

    [Display] is the class [Display], [FromStr] the class [FromStr]; the
    environment variable that [CipherSuite::from_str] reads is an argument of
    its instance. *)

From S2P Require Import Prelude.
From stdpp Require Import options.

#[local] Open Scope Z_scope.

Class Display (A : Type) : Type := to_string : A → string.
Class FromStr (A : Type) : Type := from_str : string → option A.

(** ** Versions *)

Inductive ProtocolVersion : Type := V1 | V2.
#[export] Instance ProtocolVersion_eq_dec : EqDecision ProtocolVersion.
Proof. solve_decision. Defined.

Definition PROTOCOL_VERSION_V1 : string := "httpa/1".
Definition PROTOCOL_VERSION_V2 : string := "openhttpa".

Definition version_numeric_id (v : ProtocolVersion) : Z := match v with V1 => 1 | V2 => 2 end.

#[export] Instance version_display : Display ProtocolVersion := λ v,
  match v with V1 => PROTOCOL_VERSION_V1 | V2 => PROTOCOL_VERSION_V2 end.
#[export] Instance version_from_str : FromStr ProtocolVersion := λ s,
  if decide (s = PROTOCOL_VERSION_V1) then Some V1
  else if decide (s = PROTOCOL_VERSION_V2) then Some V2
  else None.

(** ** Cipher suites *)

Inductive CipherSuite : Type :=
| X25519MlKem768Aes256GcmSha384
| P384MlKem1024Aes256GcmSha384
| X25519Aes256GcmSha384
| P256Aes256GcmSha256
| X25519ChaCha20Poly1305Sha256.
#[export] Instance CipherSuite_eq_dec : EqDecision CipherSuite.
Proof. solve_decision. Defined.

Definition preferred_list : list CipherSuite :=
  [X25519MlKem768Aes256GcmSha384; P384MlKem1024Aes256GcmSha384].

Definition is_post_quantum (c : CipherSuite) : bool :=
  match c with
  | X25519MlKem768Aes256GcmSha384 | P384MlKem1024Aes256GcmSha384 => true
  | _ => false
  end.
Definition is_legacy (c : CipherSuite) : bool :=
  match c with P256Aes256GcmSha256 => true | _ => false end.

Definition suite_numeric_id (c : CipherSuite) : Z :=
  match c with
  | X25519MlKem768Aes256GcmSha384 => 0x0001
  | P384MlKem1024Aes256GcmSha384 => 0x0002
  | X25519Aes256GcmSha384 => 0x0101
  | P256Aes256GcmSha256 => 0x0102
  | X25519ChaCha20Poly1305Sha256 => 0x0103
  end.

#[export] Instance suite_display : Display CipherSuite := λ c,
  match c with
  | X25519MlKem768Aes256GcmSha384 => "X25519_ML_KEM768_AES256GCM_SHA384"
  | P384MlKem1024Aes256GcmSha384 => "P384_ML_KEM1024_AES256GCM_SHA384"
  | X25519Aes256GcmSha384 => "X25519_AES256GCM_SHA384"
  | P256Aes256GcmSha256 => "P256_AES256GCM_SHA256"
  | X25519ChaCha20Poly1305Sha256 => "X25519_CHACHA20POLY1305_SHA256"
  end.

(** [allow] is the value of [OPENHTTPA_ALLOW_DEPRECATED_CIPHERS], if set. *)
Definition suite_from_str (allow : option string) : FromStr CipherSuite := λ s,
  if decide (s = "X25519_ML_KEM768_AES256GCM_SHA384") then Some X25519MlKem768Aes256GcmSha384
  else if decide (s = "P384_ML_KEM1024_AES256GCM_SHA384") then Some P384MlKem1024Aes256GcmSha384
  else if decide (s = "X25519_AES256GCM_SHA384") then Some X25519Aes256GcmSha384
  else if decide (s = "P256_AES256GCM_SHA256") then
    if decide (default EmptyString allow = "1") then Some P256Aes256GcmSha256 else None
  else if decide (s = "X25519_CHACHA20POLY1305_SHA256") then Some X25519ChaCha20Poly1305Sha256
  else None.

(** ** Quotes *)

Inductive QuoteType : Type :=
| Sgx | Tdx | SevSnp | TrustZone | Tpm | NvidiaGpu | AwsNitro | ZkCompressed | Mock
| UnknownType (s : string).
#[export] Instance QuoteType_eq_dec : EqDecision QuoteType.
Proof. solve_decision. Defined.

#[export] Instance quote_type_display : Display QuoteType := λ q,
  match q with
  | Sgx => "sgx" | Tdx => "tdx" | SevSnp => "sev_snp" | TrustZone => "trustzone" | Tpm => "tpm"
  | NvidiaGpu => "nvidia_gpu" | AwsNitro => "aws_nitro" | ZkCompressed => "zk_compressed"
  | Mock => "mock" | UnknownType s => s
  end.

Definition quote_type_of (s : string) : QuoteType :=
  if decide (s = "sgx") then Sgx
  else if decide (s = "tdx") then Tdx
  else if decide (s = "sev_snp") then SevSnp
  else if decide (s = "trustzone") then TrustZone
  else if decide (s = "tpm") then Tpm
  else if decide (s = "nvidia_gpu") then NvidiaGpu
  else if decide (s = "aws_nitro") then AwsNitro
  else if decide (s = "zk_compressed") then ZkCompressed
  else if decide (s = "mock") then Mock
  else UnknownType s.
#[export] Instance quote_type_from_str : FromStr QuoteType := λ s, Some (quote_type_of s).

Inductive QuoteFormat : Type :=
| Raw | Eat | SevSnpBundleV1 | TdxBundleV1 | UnknownFormat (s : string).
#[export] Instance QuoteFormat_eq_dec : EqDecision QuoteFormat.
Proof. solve_decision. Defined.

#[export] Instance quote_format_display : Display QuoteFormat := λ q,
  match q with
  | Raw => "raw" | Eat => "eat" | SevSnpBundleV1 => "sev_snp_bundle_v1"
  | TdxBundleV1 => "tdx_bundle_v1" | UnknownFormat s => s
  end.

Definition quote_format_of (s : string) : QuoteFormat :=
  if decide (s = "raw") then Raw
  else if decide (s = "eat") then Eat
  else if decide (s = "sev_snp_bundle_v1") then SevSnpBundleV1
  else if decide (s = "tdx_bundle_v1") then TdxBundleV1
  else UnknownFormat s.
#[export] Instance quote_format_from_str : FromStr QuoteFormat := λ s, Some (quote_format_of s).

(** An unknown type that carries the name of a known one is not canonical: it
    prints like the known one. *)
Definition quote_type_canonical (q : QuoteType) : Prop := quote_type_of (to_string q) = q.
Definition quote_format_canonical (q : QuoteFormat) : Prop := quote_format_of (to_string q) = q.

Record AttestQuote : Type := mk_quote {
  quote_type : QuoteType;
  format : QuoteFormat;
  quote_raw : bytes;
  qudd : bytes;
  collateral_uris : list string;
}.
#[export] Instance AttestQuote_eq_dec : EqDecision AttestQuote.
Proof. solve_decision. Defined.

(** [ReportData::from_sha384] *)
Definition report_data_from_sha384 (digest : bytes) : bytes := digest ++ replicate 16 (u8_of 0).

(** ** Attest bases, tickets, binders *)

Inductive AtbCreation : Type := New | Reuse | Shared.
#[export] Instance AtbCreation_eq_dec : EqDecision AtbCreation.
Proof. solve_decision. Defined.

Record AtbPolicy : Type := mk_policy {
  direct_attestation : bool;
  allow_untrusted_requests : bool;
}.
Definition default_policy : AtbPolicy :=
  {| direct_attestation := true; allow_untrusted_requests := false |}.

Inductive AtbTermination : Type := Cleanup | Destroy | Keep.

(** The 16 bytes of a UUID; the [uuid] crate prints and parses them. *)
Definition AtbId : Type := bytes.
#[export] Instance AtbId_eq_dec : EqDecision AtbId := _.
#[export] Instance AtbId_countable : Countable AtbId := _.

Class UuidPrim : Type := {
  uuid_to_string : AtbId → string;
  uuid_parse : string → option AtbId;
}.
Class UuidLaws (P : UuidPrim) : Prop := {
  uuid_parse_to_string id : length id = 16%nat → uuid_parse (uuid_to_string id) = Some id;
  uuid_parse_length s id : uuid_parse s = Some id → length id = 16%nat;
  (** hexadecimal digits and hyphens *)
  uuid_graphic id b : b ∈ as_bytes (uuid_to_string id) → 33 ≤ u8_val b < 127;
}.

Record SessionTicket : Type := mk_session_ticket {
  ticket : bytes;
  lifetime : Z;
  ticket_cipher_suite : CipherSuite;
  rtt0_eligible : bool;
}.

Record TrustedCargo : Type := mk_cargo {
  key_index : Z;
  encrypted_metadata : bytes;
  cargo_tag : bytes;
  padding_length : Z;
}.

Record AttestSecret : Type := mk_secret {
  secret_index : Z;
  secret_ciphertext : bytes;
  secret_tag : bytes;
}.

Record AttestTicket : Type := mk_attest_ticket {
  ticket_nonce : Z;
  ticket_mac : bytes;
  rtt0_salt : option bytes;
}.
#[export] Instance AttestTicket_eq_dec : EqDecision AttestTicket.
Proof. solve_decision. Defined.

Record AttestBinder : Type := mk_attest_binder {
  request_nonce : Z;
  binder_mac : bytes;
}.
#[export] Instance AttestBinder_eq_dec : EqDecision AttestBinder.
Proof. solve_decision. Defined.

Record AttestBaseRecord : Type := mk_base_record {
  record_id : AtbId;
  service_uri : string;
  created_at : Z;
  max_age : Z;
  record_policy : AtbPolicy;
  terminated : bool;
}.

(** A clock that runs behind [created_at] counts as expired. *)
Definition record_is_expired (now : Z) (r : AttestBaseRecord) : bool :=
  terminated r ||
  (if decide (created_at r ≤ now) then bool_decide (max_age r < now - created_at r) else true).

(** [AAD_PREFIX] *)
Definition AAD_PREFIX : bytes := as_bytes "openhttpa:".

(** ** Lemmas *)

Lemma suite_numeric_id_inj c1 c2 : suite_numeric_id c1 = suite_numeric_id c2 → c1 = c2.
Proof. by destruct c1, c2. Qed.
Lemma version_numeric_id_inj v1 v2 : version_numeric_id v1 = version_numeric_id v2 → v1 = v2.
Proof. by destruct v1, v2. Qed.
Lemma suite_numeric_id_range c : 0 ≤ suite_numeric_id c < 65536.
Proof. destruct c; simpl; lia. Qed.
Lemma version_numeric_id_range v : 0 ≤ version_numeric_id v < 256.
Proof. destruct v; simpl; lia. Qed.

Lemma version_round_trip (v : ProtocolVersion) : from_str (to_string v) = Some v.
Proof. by destruct v. Qed.

Lemma suite_round_trip allow c :
  suite_from_str allow (to_string c) =
    if is_legacy c then (if decide (default EmptyString allow = "1") then Some c else None) else Some c.
Proof. by destruct c. Qed.

Lemma suite_from_str_sound allow s c : suite_from_str allow s = Some c → to_string c = s.
Proof. unfold suite_from_str. repeat case_decide; intros [=]; by subst. Qed.

Lemma quote_type_print_parse s : to_string (quote_type_of s) = s.
Proof. unfold quote_type_of. repeat case_decide; by subst. Qed.
Lemma quote_type_of_canonical s : quote_type_canonical (quote_type_of s).
Proof. unfold quote_type_canonical. by rewrite quote_type_print_parse. Qed.
Lemma quote_format_print_parse s : to_string (quote_format_of s) = s.
Proof. unfold quote_format_of. repeat case_decide; by subst. Qed.
Lemma quote_format_of_canonical s : quote_format_canonical (quote_format_of s).
Proof. unfold quote_format_canonical. by rewrite quote_format_print_parse. Qed.

(** The wire names round trip.  Versions always do; a suite does unless it
    is the deprecated one and the environment does not allow it, in which case
    it is refused; quote types and formats parse from every string, print back
    to the string they were parsed from, and parsing what a parse produced
    changes nothing. *)
Theorem wire_names_round_trip (allow : option string) (v : ProtocolVersion) (c : CipherSuite) (s : string) :
  from_str (to_string v) = Some v ∧
  (suite_from_str allow (to_string c) = Some c ↔ is_legacy c = false ∨ allow = Some "1"%string) ∧
  (∀ c', suite_from_str allow s = Some c' → to_string c' = s) ∧
  to_string (quote_type_of s) = s ∧ quote_type_canonical (quote_type_of s) ∧
  to_string (quote_format_of s) = s ∧ quote_format_canonical (quote_format_of s).
Proof.
  split; [apply version_round_trip|]. split.
  - rewrite suite_round_trip. destruct (is_legacy c); [|naive_solver].
    destruct (decide (default EmptyString allow = "1"%string)); destruct allow; naive_solver.
  - split_and!; eauto using suite_from_str_sound, quote_type_print_parse, quote_type_of_canonical,
      quote_format_print_parse, quote_format_of_canonical.
Qed.
