(* ===== verification/State.v ===== *)
(** * Protocol phases and pre-shared keys

    [crates/openhttpa-core/src/state.rs]: the phase machine of a session and the
    store of single-use pre-shared keys.  The store's [HashMap] iterates in an
    unspecified order; the order is the section variable [iter], of which only
    "some permutation of the entries" is assumed. *)

From S2P Require Import Prelude.
From stdpp Require Import options.

#[local] Open Scope Z_scope.

(** ** Phases *)

Inductive ProtocolPhase : Type :=
| Init
| Preflight
| AtHsInProgress
| Attested
| AtSpInProgress
| SecretProvisioned
| Rtt0
| Terminated.
#[export] Instance ProtocolPhase_eq_dec : EqDecision ProtocolPhase.
Proof. solve_decision. Defined.

Definition allows_trusted_request (p : ProtocolPhase) : bool :=
  match p with Attested | SecretProvisioned | Rtt0 => true | _ => false end.

Inductive TransitionError : Type :=
| InvalidTransition (from to : ProtocolPhase)
| NotPermitted (phase : ProtocolPhase).
#[export] Instance TransitionError_eq_dec : EqDecision TransitionError.
Proof. solve_decision. Defined.

Definition transition_valid (current next : ProtocolPhase) : bool :=
  match current, next with
  | Init, (Preflight | AtHsInProgress | Rtt0) => true
  | Preflight, AtHsInProgress => true
  | (AtHsInProgress | Rtt0), Attested => true
  | Attested, (AtSpInProgress | Terminated) => true
  | AtSpInProgress, SecretProvisioned => true
  | (SecretProvisioned | Rtt0), Terminated => true
  | _, _ => false
  end.

Definition transition (current next : ProtocolPhase) : result TransitionError ProtocolPhase :=
  if transition_valid current next then Ok next else Err (InvalidTransition current next).

(** A sequence of [transition]s from a phase, stopping at the first error. *)
Fixpoint transitions (current : ProtocolPhase) (ps : list ProtocolPhase) : result TransitionError ProtocolPhase :=
  match ps with
  | [] => Ok current
  | p :: ps => q ← transition current p; transitions q ps
  end.

(** Every step moves up in this rank, so the machine has no cycle. *)
Definition phase_rank (p : ProtocolPhase) : Z :=
  match p with
  | Init => 0 | Preflight => 1 | AtHsInProgress => 2 | Rtt0 => 3 | Attested => 4
  | AtSpInProgress => 5 | SecretProvisioned => 6 | Terminated => 7
  end.

Lemma transition_Ok p q r : transition p q = Ok r ↔ r = q ∧ transition_valid p q = true.
Proof. unfold transition. destruct (transition_valid p q); naive_solver. Qed.

Lemma transition_rank p q : transition_valid p q = true → phase_rank p < phase_rank q.
Proof. by destruct p, q. Qed.

Lemma transitions_sorted p ps q :
  transitions p ps = Ok q →
  StronglySorted Z.lt (phase_rank <$> ps) ∧ Forall (λ r, phase_rank p < phase_rank r) ps ∧ last (p :: ps) = Some q.
Proof.
  revert p. induction ps as [|r ps IH]; intros p; cbn [transitions]; intros H.
  { inv_ok. repeat constructor. }
  inv_ok. apply transition_Ok in H as [-> Hv]. apply IH in H0 as (Hs & Hall & Hl).
  apply transition_rank in Hv. rewrite fmap_cons. split_and!; [|constructor|].
  - constructor; [done|]. by apply Forall_fmap.
  - done.
  - eapply Forall_impl; [exact Hall|]. simpl. lia.
  - done.
Qed.

(** ** Pre-shared keys *)

Module PskStore.

Record PskEntry : Type := mk_entry { psk : bytes; expires_at : Z }.

Record t : Type := mk {
  tickets : gmap bytes PskEntry;
  max_capacity : nat;
  psk_ttl : Z;
}.

Definition MAX_CAPACITY : nat := Z.to_nat 10000.
Definition DEFAULT_TTL : Z := 86400.

Definition new : t := {| tickets := ∅; max_capacity := MAX_CAPACITY; psk_ttl := DEFAULT_TTL |}.
Definition with_ttl (s : t) (ttl : Z) : t :=
  {| tickets := tickets s; max_capacity := max_capacity s; psk_ttl := ttl |}.
Definition with_capacity (s : t) (cap : nat) : t :=
  {| tickets := tickets s; max_capacity := cap; psk_ttl := psk_ttl s |}.

(** [retain(|_, v| v.expires_at > now)] *)
Definition retain_live (now : Z) (m : gmap bytes PskEntry) : gmap bytes PskEntry :=
  filter (λ kv, now < expires_at kv.2) m.

(** [min_by_key]: the first entry of least expiry. *)
Definition min_step (acc : option (bytes * PskEntry)) (kv : bytes * PskEntry) : option (bytes * PskEntry) :=
  match acc with
  | None => Some kv
  | Some best => if decide (expires_at kv.2 < expires_at best.2) then Some kv else acc
  end.

Lemma min_step_spec l acc :
  match foldl min_step acc l with
  | None => acc = None ∧ l = []
  | Some b => (Some b = acc ∨ b ∈ l) ∧ (∀ kv, kv ∈ l ∨ Some kv = acc → expires_at b.2 ≤ expires_at kv.2)
  end.
Proof.
  revert acc. induction l as [|kv l IH]; intros acc; cbn [foldl].
  { destruct acc; [|done]. split; [by left|]. intros kv [?%elem_of_nil|[= ->]]; [done|lia]. }
  specialize (IH (min_step acc kv)). destruct (foldl min_step (min_step acc kv) l) as [b|].
  - unfold min_step in IH. destruct acc as [a|]; [case_decide|].
    all: destruct IH as [Hb Hmin]; split; [set_solver|].
    all: intros kv' Hkv'.
    all: first [pose proof (Hmin kv (or_intror eq_refl))|pose proof (Hmin a (or_intror eq_refl))].
    all: destruct Hkv' as [[->|?]%elem_of_cons|?]; simplify_eq; auto; lia.
  - destruct IH as [Hn _]. unfold min_step in Hn. destruct acc; [case_decide|]; done.
Qed.

Section ops.
(** The iteration order of the [HashMap]. *)
Context (iter : gmap bytes PskEntry → list (bytes * PskEntry)).

Definition oldest (m : gmap bytes PskEntry) : option (bytes * PskEntry) := foldl min_step None (iter m).

(** The [while] loop; it removes an entry per iteration, so the number of
    entries is enough fuel. *)
Fixpoint evict (fuel cap : nat) (m : gmap bytes PskEntry) : gmap bytes PskEntry :=
  match fuel with
  | O => m
  | S fuel =>
      if decide (cap ≤ size m)%nat then
        match oldest m with
        | Some (k, _) => evict fuel cap (delete k m)
        | None => m
        end
      else m
  end.

Definition store_psk (now : Z) (s : t) (ticket_id psk : bytes) : bool * t :=
  let m := retain_live now (tickets s) in
  let m := evict (size m) (max_capacity s) m in
  if decide (max_capacity s ≤ size m)%nat
  then (false, {| tickets := m; max_capacity := max_capacity s; psk_ttl := psk_ttl s |})
  else (true, {| tickets := <[ticket_id := mk_entry psk (now + psk_ttl s)]> m;
                 max_capacity := max_capacity s; psk_ttl := psk_ttl s |}).

Definition take_psk (now : Z) (s : t) (ticket_id : bytes) : option bytes * t :=
  (match tickets s !! ticket_id with
   | Some e => if decide (now < expires_at e) then Some (psk e) else None
   | None => None
   end,
   {| tickets := delete ticket_id (tickets s); max_capacity := max_capacity s; psk_ttl := psk_ttl s |}).

Definition purge_expired (now : Z) (s : t) : t :=
  {| tickets := retain_live now (tickets s); max_capacity := max_capacity s; psk_ttl := psk_ttl s |}.

Definition len (s : t) : nat := size (tickets s).
Definition is_empty (s : t) : bool := bool_decide (len s = 0%nat).

Definition wf (s : t) : Prop := (len s ≤ max_capacity s)%nat.

(** What eviction promises: it keeps a sub-map of at most [cap - 1] entries, no
    fewer than it must, and every entry it dropped expires no later than every
    entry it kept. *)
Definition evicts (cap : nat) (m m' : gmap bytes PskEntry) : Prop :=
  m' ⊆ m ∧ size m' = (size m `min` (cap - 1))%nat ∧
  ∀ k e k' e', m !! k = Some e → m' !! k = None → m' !! k' = Some e' → expires_at e ≤ expires_at e'.

Context (iter_perm : ∀ m, iter m ≡ₚ map_to_list m).

Lemma oldest_spec m :
  match oldest m with
  | None => m = ∅
  | Some (k, e) => m !! k = Some e ∧ ∀ k' e', m !! k' = Some e' → expires_at e ≤ expires_at e'
  end.
Proof using iter_perm.
  unfold oldest. pose proof (min_step_spec (iter m) None) as H.
  destruct (foldl min_step None (iter m)) as [[k e]|].
  - destruct H as [[?|Hin] Hmin]; [done|]. split.
    + apply elem_of_map_to_list. by rewrite <-iter_perm.
    + intros k' e' Hk'%elem_of_map_to_list. rewrite <-iter_perm in Hk'. by apply (Hmin (k', e')); left.
  - destruct H as [_ Hn]. apply map_to_list_empty_iff, Permutation_nil_r. by rewrite <-iter_perm, Hn.
Qed.

Lemma evict_spec fuel cap m : (size m ≤ fuel)%nat → evicts cap m (evict fuel cap m).
Proof using iter_perm.
  revert m. induction fuel as [|fuel IH]; intros m Hf; cbn [evict].
  { assert (m = ∅) as -> by (apply map_size_empty_iff; lia).
    split_and!; [done|by rewrite map_size_empty|by intros ???? ?%lookup_empty_Some]. }
  destruct (decide (cap ≤ size m)%nat) as [Hcap|Hcap].
  - pose proof (oldest_spec m) as Ho. destruct (oldest m) as [[k e]|].
    + destruct Ho as [Hk Hmin]. assert (size (delete k m) = pred (size m)) as Hsz.
      { apply map_size_delete_Some. by eexists. }
      assert (size m ≠ 0%nat) by (intros ->%map_size_empty_iff; by rewrite lookup_empty in Hk).
      destruct (IH (delete k m)) as (Hsub & Hsize & Hexp); [lia|]. split_and!.
      * etrans; [exact Hsub|]. apply delete_subseteq.
      * rewrite Hsize, Hsz. lia.
      * intros k0 e0 k' e' H0 Hn H'. destruct (decide (k0 = k)) as [->|Hne].
        { simplify_eq. eapply Hmin. eapply lookup_weaken; [exact H'|]. etrans; [exact Hsub|apply delete_subseteq]. }
        eapply Hexp; [|exact Hn|exact H']. by rewrite lookup_delete_ne.
    + subst. split_and!; [done|by rewrite map_size_empty|by intros ???? ?%lookup_empty_Some].
  - split_and!; [done|lia|]. intros ???? H1 H2. by rewrite H1 in H2.
Qed.

Lemma store_psk_wf now s id p : wf (store_psk now s id p).2.
Proof using iter_perm.
  unfold wf, len, store_psk.
  destruct (evict_spec (size (retain_live now (tickets s))) (max_capacity s)
    (retain_live now (tickets s))) as (_ & Hsize & _); [done|].
  case_decide; simpl; [lia|]. rewrite map_size_insert. destruct (_ !! id); simpl; lia.
Qed.

End ops.
End PskStore.

(** [store_psk] succeeds exactly when the capacity is not zero; it then holds
    the new key, at most [max_capacity] entries, and of the unexpired old
    entries all but those it had to evict, which expire no later than the ones
    it kept; expired entries are gone. *)
Theorem store_psk_spec iter (iter_perm : ∀ m, iter m ≡ₚ map_to_list m) (now : Z) (s : PskStore.t) (id psk : bytes) :
  let live := PskStore.retain_live now (PskStore.tickets s) in
  ∃ kept, PskStore.evicts (PskStore.max_capacity s) live kept ∧
  let '(stored, s') := PskStore.store_psk iter now s id psk in
  stored = bool_decide (PskStore.max_capacity s ≠ 0%nat) ∧
  PskStore.wf s' ∧
  PskStore.tickets s' =
    if stored then <[id := PskStore.mk_entry psk (now + PskStore.psk_ttl s)]> kept else kept.
Proof.
  intros live. exists (PskStore.evict iter (size live) (PskStore.max_capacity s) live).
  pose proof (PskStore.evict_spec iter iter_perm (size live) (PskStore.max_capacity s) live (le_n _)) as He.
  split; [done|]. pose proof (PskStore.store_psk_wf iter iter_perm now s id psk) as Hwf.
  unfold PskStore.store_psk in *. destruct He as (_ & Hsize & _). fold live in Hwf |- *.
  case_decide; simpl in *; split_and!; try done; symmetry.
  - apply bool_decide_eq_false. lia.
  - apply bool_decide_eq_true. lia.
Qed.

Lemma store_psk_spec_witness :
  ∃ kept, PskStore.evicts 1 {[ as_bytes "a" := PskStore.mk_entry (as_bytes "x") 50 ]} kept.
Proof.
  destruct (store_psk_spec map_to_list (λ _, reflexivity _) 10
    (PskStore.mk {[ as_bytes "a" := PskStore.mk_entry (as_bytes "x") 50 ]} 1 100) (as_bytes "b") (as_bytes "y"))
    as (kept & Hk & _).
  exists kept. exact Hk.
Defined.

(** Pre-shared keys are single use: a key is returned exactly while it has
    not expired, and whatever [take_psk] answered, the next [take_psk] for the
    same ticket answers nothing. *)
Theorem take_psk_single_use iter (iter_perm : ∀ m, iter m ≡ₚ map_to_list m)
    (now1 now2 now3 : Z) (s : PskStore.t) (id psk : bytes) :
  let s1 := (PskStore.store_psk iter now1 s id psk).2 in
  let '(r, s2) := PskStore.take_psk now2 s1 id in
  (PskStore.max_capacity s ≠ 0%nat →
     r = if decide (now2 < now1 + PskStore.psk_ttl s) then Some psk else None) ∧
  (PskStore.take_psk now3 s2 id).1 = None ∧ PskStore.wf s2.
Proof.
  intros s1. unfold PskStore.take_psk. split_and!.
  - intros Hc. subst s1. unfold PskStore.store_psk. set (live := PskStore.retain_live _ _).
    destruct (PskStore.evict_spec iter iter_perm (size live) (PskStore.max_capacity s) live (le_n _))
      as (_ & Hsize & _).
    rewrite decide_False by lia. cbn. by rewrite lookup_insert_eq.
  - cbn. by rewrite lookup_delete_eq.
  - unfold PskStore.wf, PskStore.len. cbn. pose proof (PskStore.store_psk_wf iter iter_perm now1 s id psk) as Hwf.
    unfold PskStore.wf, PskStore.len in Hwf. fold s1 in Hwf.
    etrans; [|exact Hwf]. apply map_subseteq_size, delete_subseteq.
Qed.

Lemma take_psk_single_use_witness :
  let s1 := (PskStore.store_psk map_to_list 5 PskStore.new (as_bytes "id") (as_bytes "key")).2 in
  (PskStore.take_psk 7 s1 (as_bytes "id")).1 = Some (as_bytes "key").
Proof.
  apply (take_psk_single_use map_to_list (λ _, reflexivity _) 5 7 8 PskStore.new (as_bytes "id") (as_bytes "key")).
  vm_compute. discriminate.
Defined.

(** The phase machine, on every path from the initial phase that the code
    accepts: no phase is visited twice, nothing follows [Terminated], and a
    phase that permits trusted requests is reached only through a handshake in
    progress or a 0-RTT resumption. *)
Theorem phase_paths_sound (ps : list ProtocolPhase) (p : ProtocolPhase) :
  transitions Init ps = Ok p →
  NoDup (Init :: ps) ∧
  (Terminated ∈ ps → last ps = Some Terminated) ∧
  (allows_trusted_request p = true → AtHsInProgress ∈ ps ∨ Rtt0 ∈ ps).
Proof.
  intros Hps. split_and!.
  - apply transitions_sorted in Hps as (Hs & Hall & _). constructor.
    + intros Hin. rewrite Forall_forall in Hall. by apply Hall in Hin.
    + apply (NoDup_fmap_1 phase_rank). clear -Hs. induction Hs as [|c cs Hs IH Hc]; constructor; [|done].
      intros Hin. rewrite Forall_forall in Hc. specialize (Hc c Hin). lia.
  - intros (l1 & l2 & ->)%list_elem_of_split. apply transitions_sorted in Hps as (Hs & _ & _).
    destruct l2 as [|q l2]; [by rewrite last_snoc|]. exfalso.
    rewrite fmap_app in Hs. apply StronglySorted_app in Hs as (_ & _ & Hs).
    apply StronglySorted_inv in Hs as [_ Hs]. apply Forall_cons in Hs as [Hq _]. by destruct q.
  - intros Hp. destruct ps as [|q [|r ps]]; simpl in *.
    + by simplify_eq.
    + inv_ok. apply transition_Ok in H as [-> Hv]. destruct q; simplify_eq; set_solver.
    + inv_ok. apply transition_Ok in H as [-> Hv], H0 as [-> Hv']. destruct q; simplify_eq; try set_solver.
      destruct r; simplify_eq; set_solver.
Qed.

Lemma phase_paths_sound_witness :
  AtHsInProgress ∈ [Preflight; AtHsInProgress; Attested] ∨ Rtt0 ∈ [Preflight; AtHsInProgress; Attested].
Proof. apply (phase_paths_sound [Preflight; AtHsInProgress; Attested] Attested); reflexivity. Defined.
