(* ===== verification/KeySchedule.v ===== *)
(** * The key schedule

    [crates/openhttpa-crypto/src/hkdf.rs]: HKDF-SHA-384 extraction and expansion
    with error mapping, and the two schedules that fill [SessionKeys]: the full
    handshake ([derive]) and the 0-RTT resumption ([derive_0rtt]).  HKDF itself
    is the class [HkdfPrim] of [Crypto]. *)

From S2P Require Import Prelude Crypto Proto Aead.
From stdpp Require Import options.

#[local] Open Scope Z_scope.

Inductive HkdfError : Type := ExtractFailed | ExpandFailed.
#[export] Instance HkdfError_eq_dec : EqDecision HkdfError.
Proof. solve_decision. Defined.

#[export] Instance hkdf_error_display : Display HkdfError := λ e,
  match e with
  | ExtractFailed => "HKDF extract failed"
  | ExpandFailed => "HKDF expand failed (requested too many bytes)"
  end.

Record SessionKeys : Type := mk_keys {
  master_secret : bytes;
  resumption_master_secret : bytes;
  client_write_key : bytes;
  server_write_key : bytes;
  client_write_iv : bytes;
  server_write_iv : bytes;
  client_mac_key : bytes;
  server_mac_key : bytes;
  transcript_hash : bytes;
}.
#[export] Instance SessionKeys_eq_dec : EqDecision SessionKeys.
Proof. solve_decision. Defined.

(** The lengths that every schedule produces. *)
Definition keys_wf (k : SessionKeys) : Prop :=
  length (master_secret k) = 48%nat ∧ length (resumption_master_secret k) = 48%nat ∧
  length (client_write_key k) = 32%nat ∧ length (server_write_key k) = 32%nat ∧
  length (client_write_iv k) = 12%nat ∧ length (server_write_iv k) = 12%nat ∧
  length (client_mac_key k) = 32%nat ∧ length (server_mac_key k) = 32%nat ∧
  length (transcript_hash k) = 48%nat.
#[export] Instance keys_wf_dec k : Decision (keys_wf k).
Proof. unfold keys_wf. apply _. Defined.

Definition NUL : byte := u8_of 0.

(** [make_info]: prefix, slot label, a NUL, the context. *)
Definition make_info (prefix : string) (label : string) (context : bytes) : bytes :=
  as_bytes prefix ++ as_bytes label ++ NUL :: context.

Definition PREFIX : string := "openhttpa_v2".
Definition PREFIX_0RTT : string := "openhttpa_v2_0rtt".

Definition labels : list string :=
  ["master secret"; "res master"; "client write key"; "server write key";
   "client write iv"; "server write iv"; "client mac key"; "server mac key"]%string.

Section derive.
Context `{HP : HkdfPrim} `{HaP : HashPrim}.

(** [HkdfExpander::extract_sha384]: an empty salt stands for the default one,
    which RFC 5869 defines as a block of zeros of the hash length. *)
Definition extract_sha384 (salt ikm : bytes) : result HkdfError bytes :=
  Ok (hkdf_extract (if decide (salt = []) then replicate 48 NUL else salt) ikm).

(** [HkdfExpander::expand]: [from_prk] refuses a key shorter than a digest. *)
Definition expand (prk info : bytes) (out_len : nat) : result HkdfError bytes :=
  if decide (length prk < 48)%nat then Err ExtractFailed
  else ok_or (hkdf_expand prk info out_len) ExpandFailed.

(** The eight slots, in the order of the source. *)
Definition expand_slots (prk : bytes) (info : string → bytes) (th : bytes) : result HkdfError SessionKeys :=
  master_secret ← expand prk (info "master secret"%string) 48;
  resumption_master_secret ← expand prk (info "res master"%string) 48;
  client_write_key ← expand prk (info "client write key"%string) 32;
  server_write_key ← expand prk (info "server write key"%string) 32;
  client_write_iv ← expand prk (info "client write iv"%string) 12;
  server_write_iv ← expand prk (info "server write iv"%string) 12;
  client_mac_key ← expand prk (info "client mac key"%string) 32;
  server_mac_key ← expand prk (info "server mac key"%string) 32;
  Ok {| master_secret := master_secret; resumption_master_secret := resumption_master_secret;
        client_write_key := client_write_key; server_write_key := server_write_key;
        client_write_iv := client_write_iv; server_write_iv := server_write_iv;
        client_mac_key := client_mac_key; server_mac_key := server_mac_key;
        transcript_hash := th |}.

(** [SessionKeys::derive].  [copy_from_slice] panics when the transcript hash
    does not have 48 bytes; an expansion error is returned before that. *)
Definition derive (combined_secret th : bytes) : outcome (result HkdfError SessionKeys) :=
  match (prk ← extract_sha384 (replicate 48 NUL) combined_secret;
         expand_slots prk (λ label, make_info PREFIX label th) th) with
  | Err e => Returns (Err e)
  | Ok keys => if decide (length th = 48%nat) then Returns (Ok keys) else Panics
  end.

Definition derive_0rtt (resumed_master_secret rtt0_salt : bytes) : result HkdfError SessionKeys :=
  prk ← extract_sha384 rtt0_salt resumed_master_secret;
  expand_slots prk (λ label, make_info PREFIX_0RTT label rtt0_salt) (sha384 rtt0_salt).

Context {HL : HkdfLaws HP} {HaL : HashLaws HaP}.

Lemma expand_total prk info len :
  (48 ≤ length prk)%nat → (len ≤ 255 * 48)%nat → ∃ okm, expand prk info len = Ok okm ∧ length okm = len.
Proof using HL.
  intros Hp Hl. destruct (hkdf_expand_some prk info len Hp Hl) as (okm & Heq & Hlen).
  exists okm. unfold expand. rewrite decide_False by lia. by rewrite Heq.
Qed.

Lemma expand_slots_total prk info th :
  (48 ≤ length prk)%nat → length th = 48%nat →
  ∃ keys, expand_slots prk info th = Ok keys ∧ keys_wf keys ∧ transcript_hash keys = th.
Proof using HL.
  intros Hp Ht. unfold expand_slots.
  repeat match goal with
  | |- context [expand prk ?i ?n] =>
      let okm := fresh "okm" in let He := fresh in let Hl := fresh in
      destruct (expand_total prk i n Hp ltac:(lia)) as (okm & He & Hl); rewrite He; clear He; cbn [mbind result_bind]
  end.
  eexists. split; [done|]. by unfold keys_wf.
Qed.

End derive.

(** ** Domain separation *)

Lemma labels_no_nul label : label ∈ labels → NUL ∉ as_bytes label.
Proof. intros Hl. repeat (apply elem_of_cons in Hl as [->|Hl]); [by_compute..|by apply elem_of_nil in Hl]. Qed.

Lemma make_info_inj prefix l1 l2 c1 c2 :
  l1 ∈ labels → l2 ∈ labels → make_info prefix l1 c1 = make_info prefix l2 c2 → l1 = l2 ∧ c1 = c2.
Proof.
  intros H1 H2 Heq. apply (inj (app _)) in Heq.
  apply app_sep_inj in Heq as [Hl Hc]; [|by apply labels_no_nul..]. split; [by apply as_bytes_inj|done].
Qed.

Lemma make_info_prefix l1 l2 c1 c2 :
  l1 ∈ labels → l2 ∈ labels → make_info PREFIX l1 c1 ≠ make_info PREFIX_0RTT l2 c2.
Proof.
  intros H1 H2 Heq. unfold make_info in Heq.
  change (as_bytes PREFIX_0RTT) with (as_bytes PREFIX ++ as_bytes "_0rtt") in Heq.
  rewrite <-app_assoc in Heq. apply (inj (app _)) in Heq.
  repeat (apply elem_of_cons in H1 as [->|H1]); [discriminate Heq..|by apply elem_of_nil in H1].
Qed.

(** The schedules never fail on what the protocol feeds them: [derive] on a
    48-byte transcript hash and [derive_0rtt] on any salt return keys of the
    lengths that the ciphers need (48, 48, 32, 32, 12, 12, 32 and 32 bytes in
    eight slots), so building the record keys from them cannot fail either. *)
Theorem derive_total `{HL : !HkdfLaws HP} `{HaL : !HashLaws HaP} `{AL : !AeadLaws AP}
    (secret th salt : bytes) (alg : AeadAlgorithm) :
  length th = 48%nat →
  (∃ keys, derive secret th = Returns (Ok keys) ∧ keys_wf keys ∧ transcript_hash keys = th ∧
     is_ok (AeadKey.new alg (client_write_key keys)) ∧ is_ok (AeadKey.new alg (server_write_key keys))) ∧
  (∃ keys, derive_0rtt secret salt = Ok keys ∧ keys_wf keys ∧
     is_ok (AeadKey.new alg (client_write_key keys)) ∧ is_ok (AeadKey.new alg (server_write_key keys))).
Proof.
  intros Ht.
  assert (∀ k, length k = 32%nat → is_ok (AeadKey.new alg k)) as Hnew.
  { intros k Hk. unfold AeadKey.new. rewrite unbound_key_ok_iff, bool_decide_true by done. done. }
  split.
  - destruct (expand_slots_total (hkdf_extract (replicate 48 NUL) secret)
      (λ label, make_info PREFIX label th) th) as (keys & Hk & Hwf & Hth);
      [by rewrite hkdf_extract_length|done|].
    exists keys. unfold derive, extract_sha384. cbn [mbind result_bind].
    rewrite decide_False by done. rewrite Hk, decide_True by done.
    split_and!; try done; apply Hnew; apply Hwf.
  - destruct (expand_slots_total (hkdf_extract (if decide (salt = []) then replicate 48 NUL else salt) secret)
      (λ label, make_info PREFIX_0RTT label salt) (sha384 salt)) as (keys & Hk & Hwf & Hth);
      [by rewrite hkdf_extract_length|by rewrite sha384_length|].
    exists keys. unfold derive_0rtt, extract_sha384. cbn [mbind result_bind].
    split_and!; try done; apply Hnew; apply Hwf.
Qed.

Lemma derive_total_witness :
  ∃ keys, derive (HP := Toy.hkdf) (as_bytes "secret") (replicate 48 NUL) = Returns (Ok keys) ∧ keys_wf keys.
Proof.
  destruct (derive_total (HP := Toy.hkdf) (HL := Toy.hkdf_laws) (HaP := Toy.hash) (HaL := Toy.hash_laws)
    (AP := Toy.aead) (AL := Toy.aead_laws) (as_bytes "secret") (replicate 48 NUL) [] Aes256Gcm eq_refl)
    as [(keys & Hk & Hw & _) _].
  by exists keys.
Defined.

(** Domain separation: over both schedules, the info string of a slot
    determines the schedule, the slot and the context (transcript hash or
    salt), so no two slots of any two sessions are expanded with the same info
    unless they are the same slot of the same schedule and context. *)
Theorem info_strings_separate (rtt0 rtt0' : bool) (l l' : string) (c c' : bytes) :
  l ∈ labels → l' ∈ labels →
  make_info (if rtt0 then PREFIX_0RTT else PREFIX) l c =
    make_info (if rtt0' then PREFIX_0RTT else PREFIX) l' c' ↔
  rtt0 = rtt0' ∧ l = l' ∧ c = c'.
Proof.
  intros Hl Hl'. split; [|by intros (-> & -> & ->)].
  destruct rtt0, rtt0'; intros Heq.
  - by apply make_info_inj in Heq.
  - by destruct (make_info_prefix _ _ _ _ Hl' Hl (eq_sym Heq)).
  - by destruct (make_info_prefix _ _ _ _ Hl Hl' Heq).
  - by apply make_info_inj in Heq.
Qed.

Lemma info_strings_separate_witness :
  make_info PREFIX "master secret" [] = make_info PREFIX "res master" [] ↔
  false = false ∧ "master secret"%string = "res master"%string ∧ ([] : bytes) = [].
Proof. apply (info_strings_separate false false "master secret" "res master" [] []); by_compute. Defined.
