(* ===== verification/Attestation.v ===== *)
(** * Attestation results, policies and composite verifiers

    The attestation types at the end of [crates/openhttpa-proto/src/types.rs]
    ([TeeClass], [EatClaims], [VerificationResult], the federation manifest), and
    from [crates/openhttpa-attestation/src] the rule-based policy ([policy.rs]),
    the in-memory revocation list and the default bundle verification
    ([verifier.rs]) and the dispatching verifier ([composite.rs]).

    The traits [QuoteVerifier], [PolicyEngine] and [RevocationProvider] are
    function types; the futures they return are their results. *)

From S2P Require Import Prelude Proto.
From stdpp Require Import options pretty.

#[local] Open Scope Z_scope.

(** ** Types *)

Inductive AttestError : Type :=
| MalformedQuote (msg : string)
| SignatureInvalid
| TcbOutOfDate (details : string)
| ServiceError (msg : string)
| NetworkError (msg : string)
| PolicyViolation (msg : string)
| Revoked (msg : string)
| Malformed (msg : string).
#[export] Instance AttestError_eq_dec : EqDecision AttestError.
Proof. solve_decision. Defined.

#[export] Instance attest_error_display : Display AttestError := λ e,
  match e with
  | MalformedQuote m => "malformed quote: " +:+ m
  | SignatureInvalid => "quote signature invalid"
  | TcbOutOfDate d => "TCB out of date: " +:+ d
  | ServiceError m => "verifier service error: " +:+ m
  | NetworkError m => "verifier network error: " +:+ m
  | PolicyViolation m => "policy violation: " +:+ m
  | Revoked m => "attestation revoked: " +:+ m
  | Malformed m => "malformed: " +:+ m
  end.

Inductive TeeClass : Type :=
| IntelSgx | IntelTdx | AmdSevSnp | ArmTrustZone | NvidiaGpuClass | AwsNitroClass | TpmClass
| MockClass | UnknownClass.
#[export] Instance TeeClass_eq_dec : EqDecision TeeClass.
Proof. solve_decision. Defined.

#[export] Instance tee_class_display : Display TeeClass := λ c,
  match c with
  | IntelSgx => "intel_sgx" | IntelTdx => "intel_tdx" | AmdSevSnp => "amd_sev_snp" | ArmTrustZone => "arm_trustzone"
  | NvidiaGpuClass => "nvidia_gpu" | AwsNitroClass => "aws_nitro" | TpmClass => "tpm" | MockClass => "mock"
  | UnknownClass => "unknown"
  end.

(** [From<&QuoteType> for TeeClass] *)
Definition tee_class_of (qt : QuoteType) : TeeClass :=
  match qt with
  | Sgx => IntelSgx
  | Tdx => IntelTdx
  | SevSnp => AmdSevSnp
  | TrustZone => ArmTrustZone
  | NvidiaGpu => NvidiaGpuClass
  | AwsNitro => AwsNitroClass
  | Tpm => TpmClass
  | Mock => MockClass
  | ZkCompressed | UnknownType _ => UnknownClass
  end.

Record EatClaims : Type := mk_claims {
  ueid : option bytes;
  hwmodel : option string;
  hwversion : option string;
  oemid : option string;
  dbgstat : option Z;
  boot_progress : option string;
  security_version : option Z;
  iat : option Z;
  exp : option Z;
  tee_class : option TeeClass;
}.
Definition default_claims : EatClaims := mk_claims None None None None None None None None None None.

#[local] Set Warnings "-register-all".
Inductive VerificationResult : Type := mk_result {
  eat_token : option bytes;
  claims : EatClaims;
  tcb_status : string;
  measurement : option string;
  signer_id : option string;
  secondary : list VerificationResult;
}.

#[export] Instance EatClaims_eq_dec : EqDecision EatClaims.
Proof. solve_decision. Defined.
Definition VerificationResult_dec : ∀ x y : VerificationResult, {x = y} + {x ≠ y}.
Proof.
  fix IH 1. intros [t1 c1 s1 m1 i1 l1] [t2 c2 s2 m2 i2 l2].
  destruct (decide (t1 = t2)), (decide (c1 = c2)), (decide (s1 = s2)), (decide (m1 = m2)), (decide (i1 = i2)),
    (List.list_eq_dec IH l1 l2); first [left; congruence|right; congruence].
Defined.
#[export] Instance VerificationResult_eq_dec : EqDecision VerificationResult := VerificationResult_dec.

Inductive ClientSecurityPosture : Type :=
| MutualTee (c : TeeClass)
| SimulatedTee
| OneDirectional.
#[export] Instance ClientSecurityPosture_eq_dec : EqDecision ClientSecurityPosture.
Proof. solve_decision. Defined.

(** [VerificationResult::reject_debug_builds] *)
Definition is_debug (r : VerificationResult) : bool := bool_decide (default 0 (dbgstat (claims r)) ≠ 0).
Definition reject_debug_builds (r : VerificationResult) (allow_debug : bool) : result AttestError () :=
  if is_debug r && negb allow_debug
  then Err (PolicyViolation "debug-mode enclave quotes are not accepted in production")
  else Ok ().

(** ** Version strings *)

(** [str::split] on a character. *)
Fixpoint split_on (c : ascii) (s : bytes) : list bytes :=
  match s with
  | [] => [[]]
  | x :: s =>
      if decide (x = c) then [] :: split_on c s
      else match split_on c s with
           | [] => [[x]]
           | w :: ws => (x :: w) :: ws
           end
  end.

Definition parse_u32 : bytes → option Z := parse_uint u32_max.

Definition version_parts (v : string) : list Z := omap parse_u32 (split_on (u8_of 46) (as_bytes v)).

(** The loop over the zipped components, then the length comparison. *)
Fixpoint parts_at_least (v m : list Z) : bool :=
  match v, m with
  | a :: v, b :: m => if decide (b < a) then true else if decide (a < b) then false else parts_at_least v m
  | _, [] => true
  | [], _ :: _ => false
  end.
Definition is_version_at_least (v min_v : string) : bool := parts_at_least (version_parts v) (version_parts min_v).

(** ** The rule-based policy *)

Module SimplePolicy.

Record t : Type := mk {
  allowed_hwmodels : list string;
  min_hwversion : option string;
  allow_debug : bool;
  min_security_version : option Z;
}.

Definition check_hwmodel (p : t) (r : VerificationResult) : result AttestError () :=
  match allowed_hwmodels p with
  | [] => Ok ()
  | ms =>
      match hwmodel (claims r) with
      | Some model =>
          if decide (model ∈ ms) then Ok ()
          else Err (PolicyViolation ("unauthorized hardware model: " +:+ model))
      | None => Err (PolicyViolation "hardware model claim missing")
      end
  end.

Definition check_hwversion (p : t) (r : VerificationResult) : result AttestError () :=
  match min_hwversion p, hwversion (claims r) with
  | Some min_v, Some v =>
      if is_version_at_least v min_v then Ok ()
      else Err (PolicyViolation ("hardware version " +:+ v +:+ " is below minimum " +:+ min_v))
  | _, _ => Ok ()
  end.

Definition check_security_version (p : t) (r : VerificationResult) : result AttestError () :=
  match min_security_version p with
  | None => Ok ()
  | Some min_sv =>
      match security_version (claims r) with
      | Some sv =>
          if decide (sv < min_sv)
          then Err (PolicyViolation ("security version " +:+ pretty sv +:+ " is below minimum " +:+ pretty min_sv))
          else Ok ()
      | None => Err (PolicyViolation "security version claim missing")
      end
  end.

(** [evaluate]; a release build refuses a policy that allows debug quotes. *)
Definition evaluate (release : bool) (p : t) (r : VerificationResult) : outcome (result AttestError ()) :=
  if release && allow_debug p then Panics
  else Returns (
    _ ← reject_debug_builds r (allow_debug p);
    _ ← check_hwmodel p r;
    _ ← check_hwversion p r;
    check_security_version p r).

(** What an accepted result satisfies. *)
Definition satisfies (p : t) (r : VerificationResult) : Prop :=
  (is_debug r = true → allow_debug p = true) ∧
  (allowed_hwmodels p ≠ [] → ∃ m, hwmodel (claims r) = Some m ∧ m ∈ allowed_hwmodels p) ∧
  (∀ min v, min_hwversion p = Some min → hwversion (claims r) = Some v → is_version_at_least v min = true) ∧
  (∀ min, min_security_version p = Some min → ∃ sv, security_version (claims r) = Some sv ∧ min ≤ sv).

Lemma check_hwmodel_Ok p r :
  check_hwmodel p r = Ok () ↔
  (allowed_hwmodels p ≠ [] → ∃ m, hwmodel (claims r) = Some m ∧ m ∈ allowed_hwmodels p).
Proof.
  unfold check_hwmodel. destruct (allowed_hwmodels p) as [|m ms]; [naive_solver|].
  destruct (hwmodel (claims r)) as [m'|]; [|naive_solver].
  destruct (decide (m' ∈ m :: ms)); naive_solver.
Qed.
Lemma check_hwversion_Ok p r :
  check_hwversion p r = Ok () ↔
  ∀ min v, min_hwversion p = Some min → hwversion (claims r) = Some v → is_version_at_least v min = true.
Proof.
  unfold check_hwversion. destruct (min_hwversion p) as [min|]; [|naive_solver].
  destruct (hwversion (claims r)) as [v|]; [|naive_solver].
  destruct (is_version_at_least v min) eqn:E; naive_solver congruence.
Qed.
Lemma check_security_version_Ok p r :
  check_security_version p r = Ok () ↔
  ∀ min, min_security_version p = Some min → ∃ sv, security_version (claims r) = Some sv ∧ min ≤ sv.
Proof.
  unfold check_security_version. destruct (min_security_version p) as [min|]; [|naive_solver].
  destruct (security_version (claims r)) as [sv|]; [|naive_solver].
  case_decide as Hlt; split.
  - done.
  - intros H. destruct (H min eq_refl) as (? & [= <-] & ?). lia.
  - intros _ ? [= <-]. exists sv. split; [done|lia].
  - done.
Qed.
Lemma reject_debug_Ok r a : reject_debug_builds r a = Ok () ↔ (is_debug r = true → a = true).
Proof. unfold reject_debug_builds. destruct (is_debug r), a; simpl; naive_solver. Qed.

Lemma evaluate_Ok release p r :
  evaluate release p r = Returns (Ok ()) ↔ (release = true → allow_debug p = false) ∧ satisfies p r.
Proof.
  unfold evaluate, satisfies.
  rewrite <-reject_debug_Ok, <-check_hwmodel_Ok,
    <-check_hwversion_Ok, <-check_security_version_Ok.
  destruct (release && allow_debug p) eqn:Hr.
  - apply andb_true_iff in Hr as [-> Hd]. split; [done|]. intros [H _]. specialize (H eq_refl). congruence.
  - split.
    + intros [= H]. split; [|inv_ok; by destruct_or?; repeat match goal with u : () |- _ => destruct u end].
      intros ->. by destruct (allow_debug p).
    + intros (_ & -> & -> & -> & ->). done.
Qed.

End SimplePolicy.

(** ** Revocation *)

Module SimpleRevocationProvider.

(** [check_revocation] against the set of revoked identities. *)
Definition candidates (r : VerificationResult) : list string :=
  omap id [boot_progress (claims r); measurement r; signer_id r].
Fixpoint first_revoked (revoked : gset string) (ids : list string) : option string :=
  match ids with
  | [] => None
  | i :: ids => if decide (i ∈ revoked) then Some i else first_revoked revoked ids
  end.
Definition check_revocation (revoked : gset string) (r : VerificationResult) : result AttestError () :=
  match first_revoked revoked (candidates r) with
  | Some i => Err (Revoked ("identity '" +:+ i +:+ "' is on the revocation list"))
  | None => Ok ()
  end.

Lemma first_revoked_None revoked ids :
  first_revoked revoked ids = None ↔ Forall (λ i, i ∉ revoked) ids.
Proof.
  induction ids as [|i ids IH]; cbn [first_revoked]; [naive_solver|].
  rewrite Forall_cons. destruct (decide (i ∈ revoked)); naive_solver.
Qed.

End SimpleRevocationProvider.

(** ** Bundles of quotes *)

Definition QuoteVerifier : Type := AttestQuote → (*report_data*) bytes → result AttestError VerificationResult.

Definition set_secondary (r : VerificationResult) (l : list VerificationResult) : VerificationResult :=
  mk_result (eat_token r) (claims r) (tcb_status r) (measurement r) (signer_id r) l.

Section bundle.
Context (verify : QuoteVerifier) (report_data : bytes).

(** The default [verify_bundle]: the loop pushes onto the first result. *)
Fixpoint push_secondary (primary : VerificationResult) (qs : list AttestQuote) : result AttestError VerificationResult :=
  match qs with
  | [] => Ok primary
  | q :: qs =>
      r ← verify q report_data;
      push_secondary (set_secondary primary (secondary primary ++ [r])) qs
  end.
Definition default_verify_bundle (qs : list AttestQuote) : result AttestError VerificationResult :=
  match qs with
  | [] => Err (MalformedQuote "empty quote bundle")
  | q :: qs => primary ← verify q report_data; push_secondary primary qs
  end.

(** Verify every quote in order, stopping at the first failure. *)
Fixpoint verify_all (qs : list AttestQuote) : result AttestError (list VerificationResult) :=
  match qs with
  | [] => Ok []
  | q :: qs => r ← verify q report_data; rs ← verify_all qs; Ok (r :: rs)
  end.

Lemma push_secondary_all primary qs :
  push_secondary primary qs =
    (rs ← verify_all qs; Ok (set_secondary primary (secondary primary ++ rs))).
Proof.
  revert primary. induction qs as [|q qs IH]; intros primary; simpl.
  { rewrite app_nil_r. by destruct primary. }
  destruct (verify q report_data); simpl; [|done]. rewrite IH. destruct (verify_all qs); simpl; [|done].
  by rewrite <-app_assoc.
Qed.

Lemma verify_all_Ok qs rs :
  verify_all qs = Ok rs ↔ Forall2 (λ q r, verify q report_data = Ok r) qs rs.
Proof.
  revert rs. induction qs as [|q qs IH]; intros rs; cbn [verify_all].
  - split; [intros [= <-]; constructor|by inversion 1].
  - split.
    + intros H. inv_ok. constructor; [done|by apply IH].
    + inversion 1; subst. rewrite H2. cbn. by apply IH in H4 as ->.
Qed.

End bundle.

Module CompositeVerifier.

Record t : Type := mk { verifiers : gmap string QuoteVerifier; strict_mode : bool }.

Definition new : t := mk ∅ true.
Definition add_verifier (c : t) (qt : QuoteType) (v : QuoteVerifier) : t :=
  mk (<[to_string qt := v]> (verifiers c)) (strict_mode c).

Definition verify (c : t) : QuoteVerifier := λ q report_data,
  let type_key := to_string (quote_type q) in
  v ← ok_or (verifiers c !! type_key)
        (PolicyViolation ("no verifier registered for quote type: " +:+ type_key));
  v q report_data.

(** Collect all results, then nest all but the first under the first. *)
Definition verify_bundle (c : t) (qs : list AttestQuote) (report_data : bytes) : result AttestError VerificationResult :=
  match qs with
  | [] => Err (Malformed "empty quote bundle")
  | _ =>
      rs ← verify_all (verify c) report_data qs;
      match rs with
      | [] => Err (Malformed "empty quote bundle")
      | primary :: rs => Ok (set_secondary primary rs)
      end
  end.

End CompositeVerifier.

(** ** The federation manifest *)

Record FederationEntry : Type := mk_entry {
  entry_class : TeeClass;
  measurement_hex : string;
  entry_label : string;
  min_svn : option Z;
  entry_allow_debug : bool;
}.

Inductive ManifestSignature : Type :=
| OperatorSignature (public_key signature : bytes)
| QuorumSignature (threshold : Z) (signatures : list (bytes * bytes)).

Record FederationManifest : Type := mk_manifest {
  manifest_version : Z;
  issued_at : Z;
  manifest_expires_at : Z;
  entries : list FederationEntry;
  manifest_signature : ManifestSignature;
}.

Definition to_lower (b : byte) : byte := if decide (65 ≤ u8_val b ≤ 90) then u8_of (u8_val b + 32) else b.
Definition eq_ignore_ascii_case (a b : string) : bool :=
  bool_decide (to_lower <$> as_bytes a = to_lower <$> as_bytes b).

Definition manifest_is_valid (now : Z) (m : FederationManifest) : bool := bool_decide (now < manifest_expires_at m).
Definition entries_for (m : FederationManifest) (c : TeeClass) : list FederationEntry :=
  filter (λ e, entry_class e = c) (entries m).

Definition entry_allows (e : FederationEntry) (hex : string) (svn : option Z) (debug : bool) : bool :=
  let measurement_ok :=
    bool_decide (measurement_hex e = EmptyString) || eq_ignore_ascii_case (measurement_hex e) hex in
  let svn_ok := match min_svn e, svn with
                | Some min, Some actual => bool_decide (min ≤ actual)
                | Some _, None => false
                | None, _ => true
                end in
  let debug_ok := negb debug || entry_allow_debug e in
  measurement_ok && svn_ok && debug_ok.
Definition manifest_allows (m : FederationManifest) (c : TeeClass) (hex : string) (svn : option Z) (debug : bool) : bool :=
  existsb (λ e, entry_allows e hex svn debug) (entries_for m c).

(** ** Properties *)

(** The lexicographic order on version components, where a proper prefix is
    smaller. *)
Inductive lex_lt : list Z → list Z → Prop :=
| lex_nil b m : lex_lt [] (b :: m)
| lex_head a v b m : a < b → lex_lt (a :: v) (b :: m)
| lex_tail a v m : lex_lt v m → lex_lt (a :: v) (a :: m).

(** The version comparison is the lexicographic order: a version is at least
    the minimum exactly when its numeric components are not lexicographically
    below those of the minimum. *)
Theorem version_at_least_lex (v min_v : string) :
  is_version_at_least v min_v = true ↔ ¬ lex_lt (version_parts v) (version_parts min_v).
Proof.
  unfold is_version_at_least. generalize (version_parts min_v). induction (version_parts v) as [|a l IH];
    intros [|b m]; cbn [parts_at_least].
  - split; [by inversion 2|done].
  - split; [done|]. intros H. destruct H. constructor.
  - split; [by inversion 2|done].
  - destruct (decide (b < a)); [split; [intros _ Hl; inversion Hl; subst; lia|done]|].
    destruct (decide (a < b)); [split; [done|intros H; destruct H; by constructor]|].
    assert (b = a) as -> by lia. rewrite IH. split; intros H Hl; apply H; [inversion Hl; subst; [lia|done]|by constructor].
Qed.

(** The policy accepts exactly what its rules say, in a build that accepts
    the policy at all: a debug quote only if debug quotes are allowed, a
    listed hardware model, a sufficient version where one is claimed, and a
    sufficient security version. *)
Theorem policy_evaluate_iff (release : bool) (p : SimplePolicy.t) (r : VerificationResult) :
  SimplePolicy.evaluate release p r = Returns (Ok ()) ↔
  (release = true → SimplePolicy.allow_debug p = false) ∧ SimplePolicy.satisfies p r.
Proof. apply SimplePolicy.evaluate_Ok. Qed.

(** A result that does not claim a hardware version passes every minimum
    version: the policy treats the missing claim as acceptable, unlike a missing
    model or security version. *)
Theorem missing_hwversion_accepted (release : bool) (min_v : string) (r : VerificationResult) :
  hwversion (claims r) = None → is_debug r = false →
  SimplePolicy.evaluate release (SimplePolicy.mk [] (Some min_v) false None) r = Returns (Ok ()).
Proof.
  intros Hv Hd. apply SimplePolicy.evaluate_Ok. split; [done|].
  split_and!; simpl; [by rewrite Hd|done|by rewrite Hv|done].
Qed.

Lemma missing_hwversion_accepted_witness :
  SimplePolicy.evaluate true (SimplePolicy.mk [] (Some "9.0"%string) false None)
    (mk_result None default_claims EmptyString None None []) = Returns (Ok ()).
Proof. apply missing_hwversion_accepted; reflexivity. Defined.

(** The composite verifier's own bundle routine computes what the trait's
    default computes over its [verify], on every non-empty bundle, up to the
    secondary results that the primary verifier may itself have reported: the
    default keeps them, the composite one replaces them.  It succeeds exactly
    when every quote has a registered verifier that accepts it. *)
Theorem composite_bundle_equiv (c : CompositeVerifier.t) (q : AttestQuote) (qs : list AttestQuote) (rd : bytes) :
  CompositeVerifier.verify_bundle c (q :: qs) rd =
    (λ r, set_secondary r (drop (match CompositeVerifier.verify c q rd with
                                 | Ok p => length (secondary p) | Err _ => O end) (secondary r)))
      <$> default_verify_bundle (CompositeVerifier.verify c) rd (q :: qs) ∧
  (is_ok (CompositeVerifier.verify_bundle c (q :: qs) rd) ↔
   Forall (λ q, ∃ v r, CompositeVerifier.verifiers c !! to_string (quote_type q) = Some v ∧ v q rd = Ok r) (q :: qs)).
Proof.
  split.
  - unfold CompositeVerifier.verify_bundle, default_verify_bundle. cbn [verify_all].
    destruct (CompositeVerifier.verify c q rd) as [p|] eqn:Hq; [|done]. cbn. rewrite push_secondary_all.
    destruct (verify_all _ _ qs); [|done]. cbn. by rewrite drop_app_length.
  - transitivity (∃ rs, verify_all (CompositeVerifier.verify c) rd (q :: qs) = Ok rs).
    + unfold CompositeVerifier.verify_bundle. destruct (verify_all _ _ _) as [[|p rs]|] eqn:Hv.
      * apply verify_all_Ok in Hv. inversion Hv.
      * naive_solver.
      * naive_solver.
    + setoid_rewrite verify_all_Ok. split.
      * intros [rs Hrs]. apply Forall_forall. intros q' Hin.
        apply list_elem_of_lookup in Hin as [i Hi]. destruct (Forall2_lookup_l _ _ _ _ _ Hrs Hi) as (r & _ & Hr).
        unfold CompositeVerifier.verify in Hr. inv_ok. eauto.
      * intros Hall. induction Hall as [|q' l (v & r & Hv & Hr) _ [rs IH]]; [by exists []|].
        exists (r :: rs). constructor; [|done]. unfold CompositeVerifier.verify. by rewrite Hv.
Qed.

(** The manifest admits a quote only through an entry of its class: one with
    the same measurement up to letter case or the wildcard, a security version
    that is present and sufficient where the entry requires one, and the debug
    permission where the quote is a debug one. *)
Theorem manifest_allows_iff (m : FederationManifest) (c : TeeClass) (hex : string) (svn : option Z) (debug : bool) :
  manifest_allows m c hex svn debug = true ↔
  ∃ e, e ∈ entries m ∧ entry_class e = c ∧
    (measurement_hex e = EmptyString ∨ to_lower <$> as_bytes (measurement_hex e) = to_lower <$> as_bytes hex) ∧
    (∀ min, min_svn e = Some min → ∃ actual, svn = Some actual ∧ min ≤ actual) ∧
    (debug = true → entry_allow_debug e = true).
Proof.
  unfold manifest_allows, entries_for. rewrite existsb_exists. split.
  - intros (e & [Hc Hin]%list_elem_of_In%list_elem_of_filter & He). exists e. split_and!; try done.
    + apply andb_true_iff in He as [[He _]%andb_true_iff _].
      apply orb_true_iff in He as [?%bool_decide_eq_true|?%bool_decide_eq_true]; auto.
    + intros min Hmin. unfold entry_allows in He. rewrite Hmin in He.
      apply andb_true_iff in He as [[_ He]%andb_true_iff _].
      destruct svn as [a|]; [|done]. apply bool_decide_eq_true in He. eauto.
    + intros ->. apply andb_true_iff in He as [_ He]. done.
  - intros (e & Hin & Hc & Hm & Hs & Hd). exists e. split; [by apply list_elem_of_In, list_elem_of_filter|].
    unfold entry_allows, eq_ignore_ascii_case. apply andb_true_iff; split; [apply andb_true_iff; split|].
    + apply orb_true_iff. destruct Hm; [left|right]; by apply bool_decide_eq_true.
    + destruct (min_svn e) as [min|]; [|done]. destruct (Hs min eq_refl) as (a & -> & Ha).
      by apply bool_decide_eq_true.
    + destruct debug; [by rewrite Hd|done].
Qed.
