(* ===== verification/Federation.v ===== *)
(** * Federation across TEE vendors

    [FederatedVerifier] of [crates/openhttpa-attestation/src/federation.rs]: quotes
    are routed to the verifier registered for their TEE class, and every result is
    judged by the loaded federation manifest, whose own signature is checked against
    a trust root when it is loaded.  The manifest behind the lock is a field of the
    state; [set_manifest] returns the new state. *)

From S2P Require Import Prelude Proto Attestation.
From stdpp Require Import options relations pretty.

#[local] Open Scope Z_scope.

Inductive ManifestTrustRoot : Type :=
| OperatorRoot (key : bytes)
| QuorumRoot (threshold : Z) (validators : list bytes)
| InsecureSkipSignatureCheck.

Module FederatedVerifier.

Record t : Type := mk {
  verifiers : gmap string QuoteVerifier;
  manifest : option FederationManifest;
  require_manifest : bool;
  trust_root : ManifestTrustRoot;
}.

Definition new : t := mk ∅ None true InsecureSkipSignatureCheck.
(** [new_permissive] panics in release builds. *)
Definition new_permissive (debug_build : bool) : outcome t :=
  if debug_build then Returns (mk ∅ None false InsecureSkipSignatureCheck) else Panics.
Definition with_trust_root (f : t) (r : ManifestTrustRoot) : t := mk (verifiers f) (manifest f) (require_manifest f) r.
Definition add_vendor_verifier (f : t) (class : TeeClass) (v : QuoteVerifier) : t :=
  mk (<[to_string class := v]> (verifiers f)) (manifest f) (require_manifest f) (trust_root f).

(** How many of the signatures name a validator; a [u32] that a list cannot
    overflow. *)
Definition valid_sigs (validators : list bytes) (signatures : list (bytes * bytes)) : Z :=
  Z.of_nat (length (base.filter (λ s, s.1 ∈ validators) signatures)).

Definition verify_manifest_signature (f : t) (m : FederationManifest) : result AttestError () :=
  match trust_root f with
  | InsecureSkipSignatureCheck => Ok ()
  | OperatorRoot expected_key =>
      match manifest_signature m with
      | OperatorSignature public_key _ =>
          if decide (public_key = expected_key) then Ok ()
          else Err (PolicyViolation "FederationManifest signed by unknown operator key")
      | QuorumSignature _ _ => Err (PolicyViolation "Expected Operator signature on FederationManifest, found different type")
      end
  | QuorumRoot threshold validators =>
      match manifest_signature m with
      | QuorumSignature manifest_threshold signatures =>
          if decide (manifest_threshold < threshold) then 
            Err (PolicyViolation ("Manifest threshold " +:+ pretty manifest_threshold +:+ " is lower than required " +:+ pretty threshold))
          else if decide (valid_sigs validators signatures < threshold) then
            Err (PolicyViolation ("Manifest lacks sufficient quorum: got " +:+ pretty (valid_sigs validators signatures) +:+
                                   " valid signatures, need " +:+ pretty threshold))
          else Ok ()
      | OperatorSignature _ _ => Err (PolicyViolation "Expected Quorum signature on FederationManifest, found different type")
      end
  end.

Definition set_manifest (f : t) (m : FederationManifest) : result AttestError () * t :=
  match verify_manifest_signature f m with
  | Err e => (Err e, f)
  | Ok _ => (Ok (), mk (verifiers f) (Some m) (require_manifest f) (trust_root f))
  end.

Definition set_tee_class (r : VerificationResult) (c : TeeClass) : VerificationResult :=
  let cl := claims r in
  mk_result (eat_token r)
    (mk_claims (ueid cl) (hwmodel cl) (hwversion cl) (oemid cl) (dbgstat cl) (boot_progress cl) (security_version cl) (iat cl) (exp cl) (Some c))
    (tcb_status r) (measurement r) (signer_id r) (secondary r).

Definition route_and_verify (f : t) : QuoteVerifier := λ q rd,
  let class := tee_class_of (quote_type q) in
  v ← ok_or (verifiers f !! to_string class)
        (PolicyViolation ("FederatedVerifier: no vendor verifier registered for TEE class '" +:+ to_string class +:+ "'"));
  r ← v q rd;
  Ok (match tee_class (claims r) with None => set_tee_class r class | Some _ => r end).

(** [{svn:?}] of an [Option<u32>] and [{is_debug}]. *)
Definition debug_opt (o : option Z) : string := match o with Some n => "Some(" +:+ pretty n +:+ ")" | None => "None" end.
Definition debug_bool (b : bool) : string := if b then "true" else "false".

(** The measurement a manifest is asked about. *)
Definition reported_measurement (r : VerificationResult) : string :=
  default EmptyString (match measurement r with Some m => Some m | None => boot_progress (claims r) end).

Definition check_manifest (now : Z) (f : t) (r : VerificationResult) : result AttestError () :=
  match manifest f with
  | None =>
      if require_manifest f then Err (PolicyViolation "FederatedVerifier: no FederationManifest loaded; refusing to accept quotes in strict mode. Load a manifest via FederatedVerifier::set_manifest().")
      else Ok ()
  | Some m =>
      if manifest_is_valid now m then
        class ← ok_or (tee_class (claims r)) (PolicyViolation "FederatedVerifier: verification result is missing tee_class claim");
        if manifest_allows m class (reported_measurement r) (security_version (claims r)) (is_debug r) then Ok ()
        else Err (PolicyViolation ("FederationManifest does not permit TEE class '" +:+ to_string class +:+ "' with measurement '" +:+
                                   reported_measurement r +:+ "' (SVN=" +:+ debug_opt (security_version (claims r)) +:+ ", debug=" +:+
                                   debug_bool (is_debug r) +:+ ")"))
      else Err (PolicyViolation "FederationManifest has expired")
  end.

Definition verify (now : Z) (f : t) : QuoteVerifier := λ q rd,
  r ← route_and_verify f q rd;
  _ ← check_manifest now f r;
  Ok r.

(** The manifest is the one loaded when the call starts; the code takes its lock again for
    every quote, so a manifest that is loaded meanwhile would hold for the later ones. *)
Definition verify_bundle (now : Z) (f : t) (qs : list AttestQuote) (rd : bytes) : result AttestError VerificationResult :=
  match qs with
  | [] => Err (MalformedQuote "FederatedVerifier: empty quote bundle")
  | _ =>
      results ← verify_all (verify now f) rd qs;
      match results with
      | [] => Err (MalformedQuote "FederatedVerifier: empty quote bundle")
      | primary :: rest => Ok (set_secondary primary rest)
      end
  end.

(** ** The life of a verifier *)

(** Configuration and manifest loads, in any order; a load that is refused leaves the
    verifier as it was. *)
Inductive step : t → t → Prop :=
| step_vendor f class v : step f (add_vendor_verifier f class v)
| step_manifest f m f' r : set_manifest f m = (r, f') → step f f'.

(** The loaded manifest passed the check of the trust root. *)
Definition inv (f : t) : Prop := ∀ m, manifest f = Some m → verify_manifest_signature f m = Ok ().

Lemma verify_manifest_signature_root f g m :
  trust_root f = trust_root g → verify_manifest_signature f m = verify_manifest_signature g m.
Proof. unfold verify_manifest_signature. by intros ->. Qed.

Lemma step_inv f f' : step f f' → inv f → inv f' ∧ trust_root f' = trust_root f ∧ require_manifest f' = require_manifest f.
Proof.
  intros [g class v|g m g' r Hset] Hinv; [done|]. unfold set_manifest in Hset.
  destruct (verify_manifest_signature g m) as [[]|] eqn:Hm; injection Hset as <- <-; [|done]. split; [|done].
  intros m' [= <-]. exact Hm.
Qed.

Lemma verify_Ok now f q rd r :
  verify now f q rd = Ok r ↔
  ∃ v r0, verifiers f !! to_string (tee_class_of (quote_type q)) = Some v ∧ v q rd = Ok r0 ∧
    r = (match tee_class (claims r0) with None => set_tee_class r0 (tee_class_of (quote_type q)) | Some _ => r0 end) ∧
    check_manifest now f r = Ok ().
Proof.
  unfold verify, route_and_verify. split.
  - intros H. inv_checks. eauto 10.
  - intros (v & r0 & Hv & Hr & -> & Hc). rewrite Hv. cbn [ok_or mbind result_bind]. rewrite Hr. cbn [mbind result_bind]. by rewrite Hc.
Qed.

Lemma check_manifest_Ok now f m r :
  manifest f = Some m →
  check_manifest now f r = Ok () ↔
  now < manifest_expires_at m ∧
  ∃ class, tee_class (claims r) = Some class ∧
    manifest_allows m class (reported_measurement r) (security_version (claims r)) (is_debug r) = true.
Proof.
  unfold check_manifest, manifest_is_valid. intros ->.
  destruct (bool_decide_reflect (now < manifest_expires_at m)) as [|]; [|split; [done|by intros [? _]]].
  destruct (tee_class (claims r)) as [class|]; cbn [ok_or mbind result_bind]; [|split; [done|by intros (_ & c & ? & _)]].
  destruct (manifest_allows m class _ _ _) eqn:Ha; [naive_solver|].
  split; [done|]. intros (_ & c & [= <-] & Hc). congruence.
Qed.

Lemma strict_manifest now f r : require_manifest f = true → check_manifest now f r = Ok () → is_Some (manifest f).
Proof. unfold check_manifest. intros ->. by destruct (manifest f). Qed.

Lemma verify_bundle_Ok now f qs rd r :
  verify_bundle now f qs rd = Ok r ↔
  ∃ p rs, r = set_secondary p rs ∧ Forall2 (λ q x, verify now f q rd = Ok x) qs (p :: rs).
Proof.
  unfold verify_bundle. setoid_rewrite <- (verify_all_Ok (verify now f) rd). split.
  - intros H. destruct qs as [|q qs]; [done|]. inv_checks. destruct x as [|p rs]; inv_checks. eauto.
  - intros (p & rs & -> & Hv). destruct qs as [|q qs].
    + apply (verify_all_Ok (verify now f) rd) in Hv. inversion Hv.
    + by rewrite Hv.
Qed.

End FederatedVerifier.

Import FederatedVerifier.

(** What a federation promises of one quote: the verifier registered for its class
    accepted it, and an entry of the manifest covers the class, measurement, security
    version and debug state that the result reports. *)
Definition federation_admits (f : t) (m : FederationManifest) (rd : bytes) (q : AttestQuote) (r : VerificationResult) : Prop :=
  (∃ v r0, verifiers f !! to_string (tee_class_of (quote_type q)) = Some v ∧ v q rd = Ok r0 ∧
     r = (match tee_class (claims r0) with None => set_tee_class r0 (tee_class_of (quote_type q)) | Some _ => r0 end)) ∧
  ∃ e, e ∈ entries m ∧ tee_class (claims r) = Some (entry_class e) ∧
    (measurement_hex e = EmptyString ∨
       to_lower <$> as_bytes (measurement_hex e) = to_lower <$> as_bytes (reported_measurement r)) ∧
    (∀ min, min_svn e = Some min → ∃ actual, security_version (claims r) = Some actual ∧ min ≤ actual) ∧
    (is_debug r = true → entry_allow_debug e = true).

(** [C17] A strict federated verifier, after any sequence of registrations and manifest
    loads, accepts a bundle only under a loaded manifest that passed the check of its
    trust root and has not expired, and only if for {e every} quote of the bundle the
    verifier registered for its class accepts it and some entry of the manifest covers
    what it reports; the first result is the primary one and carries the others in
    order. *)
Theorem federation_sound (root : ManifestTrustRoot) (f : t) (now : Z) (qs : list AttestQuote) (rd : bytes) (r : VerificationResult) :
  rtc step (with_trust_root new root) f →
  verify_bundle now f qs rd = Ok r →
  ∃ m p rs, manifest f = Some m ∧ verify_manifest_signature (with_trust_root new root) m = Ok () ∧ now < manifest_expires_at m ∧
    r = set_secondary p rs ∧ Forall2 (federation_admits f m rd) qs (p :: rs).
Proof.
  intros Hrun (p & rs & -> & Hall)%verify_bundle_Ok.
  assert (inv f ∧ trust_root f = root ∧ require_manifest f = true) as (Hinv & Hroot & Hreq).
  { revert Hrun. apply (rtc_ind_r (λ g, inv g ∧ trust_root g = root ∧ require_manifest g = true)).
    - by split_and!.
    - intros g g' _ Hs (Hi & Hr & Hq). destruct (step_inv _ _ Hs Hi) as (? & ? & ?). split_and!; [done|congruence..]. }
  assert (is_Some (manifest f)) as [m Hm].
  { inversion Hall as [|q0 x0 ? ? (v & r0 & _ & _ & _ & Hc)%verify_Ok]; subst. by eapply strict_manifest. }
  exists m, p, rs. split; [done|]. split; [|split].
  - rewrite <- (Hinv m Hm). by apply verify_manifest_signature_root.
  - inversion Hall as [|q0 x0 ? ? (v & r0 & _ & _ & _ & Hc)%verify_Ok]; subst.
    by apply (check_manifest_Ok _ _ _ _ Hm) in Hc as [? _].
  - split; [done|]. apply (Forall2_impl _ _ _ _ Hall). intros q x (v & r0 & Hv & Hr & Hx & Hc)%verify_Ok.
    split; [by eauto|]. apply (check_manifest_Ok _ _ _ _ Hm) in Hc as (_ & class & Hclass & (e & He & <- & Hok)%manifest_allows_iff).
    by exists e.
Qed.

(** A quorum that names its signers once each has [threshold] different validators
    behind it. *)
Theorem quorum_distinct (f : t) (threshold mt : Z) (validators : list bytes) (sigs : list (bytes * bytes)) (m : FederationManifest) :
  trust_root f = QuorumRoot threshold validators → manifest_signature m = QuorumSignature mt sigs →
  NoDup (fst <$> sigs) → verify_manifest_signature f m = Ok () →
  ∃ signers, NoDup signers ∧ signers ⊆ validators ∧ signers ⊆ fst <$> sigs ∧ threshold ≤ Z.of_nat (length signers).
Proof.
  unfold verify_manifest_signature. intros -> -> Hnd H. inv_checks.
  exists (fst <$> base.filter (λ s : bytes * bytes, s.1 ∈ validators) sigs). split_and!.
  - eapply sublist_NoDup; [done|]. apply fmap_sublist, sublist_filter.
  - intros k (s & -> & [? _]%list_elem_of_filter)%list_elem_of_fmap. done.
  - intros k (s & -> & [_ ?]%list_elem_of_filter)%list_elem_of_fmap. by apply list_elem_of_fmap_2.
  - rewrite length_fmap. unfold valid_sigs in *. lia.
Qed.

(** But the signers are not compared with each other and no signature is checked: one
    validator's key, repeated with any bytes, is a quorum of any size. *)
Theorem quorum_of_one (f : t) (threshold : Z) (validators : list bytes) (k sig : bytes) (m : FederationManifest) :
  0 ≤ threshold → k ∈ validators → trust_root f = QuorumRoot threshold validators →
  manifest_signature m = QuorumSignature threshold (replicate (Z.to_nat threshold) (k, sig)) →
  verify_manifest_signature f m = Ok ().
Proof.
  unfold verify_manifest_signature. intros Ht Hk -> ->.
  destruct (decide (threshold < threshold)) as [|_]; [lia|].
  assert (valid_sigs validators (replicate (Z.to_nat threshold) (k, sig)) = threshold) as ->.
  { unfold valid_sigs. rewrite <- (Z2Nat.id threshold Ht) at 2. f_equal.
    induction (Z.to_nat threshold) as [|n IH]; [done|]. cbn [replicate]. rewrite filter_cons_True by done. cbn. by rewrite IH. }
  destruct (decide (threshold < threshold)) as [|_]; [lia|done].
Qed.

(** The class that the manifest is asked about is the vendor verifier's, when it reports
    one: a verifier that reports another class than the one it is registered for is
    judged by the entries of the reported class. *)
Theorem class_of_result (f : t) (q : AttestQuote) (rd : bytes) (v : QuoteVerifier) (r : VerificationResult) (c : TeeClass) :
  verifiers f !! to_string (tee_class_of (quote_type q)) = Some v → v q rd = Ok r → tee_class (claims r) = Some c →
  route_and_verify f q rd = Ok r.
Proof. intros Hv Hr Hc. unfold route_and_verify. unfold QuoteVerifier in *. rewrite Hv. cbn [ok_or mbind result_bind]. rewrite Hr. cbn [mbind result_bind]. by rewrite Hc. Qed.

(** ** Concrete runs *)

Module ToyFederation.

Definition claims_of (c : option TeeClass) : EatClaims := mk_claims None None None None None None (Some 3) None None c.
Definition accept (c : option TeeClass) : QuoteVerifier := λ q _, Ok (mk_result None (claims_of c) "UpToDate" (Some "AB") None []).
Definition quote (k : QuoteType) : AttestQuote := mk_quote k Raw [] [] [].
Definition tdx_entry : FederationEntry := mk_entry IntelTdx "ab" "host" (Some 2) false.
Definition gpu_entry : FederationEntry := mk_entry NvidiaGpuClass EmptyString "gpu" None false.
Definition manifest : FederationManifest :=
  mk_manifest 1 0 100 [tdx_entry; gpu_entry] (OperatorSignature (as_bytes "key") []).
Definition verifier : t :=
  (set_manifest
     (add_vendor_verifier (add_vendor_verifier (with_trust_root new (OperatorRoot (as_bytes "key"))) IntelTdx (accept (Some IntelTdx)))
        NvidiaGpuClass (accept None)) manifest).2.
Definition bundle : list AttestQuote := [quote Tdx; quote NvidiaGpu].

End ToyFederation.

Lemma federation_sound_witness :
  ∃ r, verify_bundle 50 ToyFederation.verifier ToyFederation.bundle [] = Ok r ∧
  ∃ m p rs, FederatedVerifier.manifest ToyFederation.verifier = Some m ∧
    verify_manifest_signature (with_trust_root new (OperatorRoot (as_bytes "key"))) m = Ok () ∧ 50 < manifest_expires_at m ∧
    r = set_secondary p rs ∧ Forall2 (federation_admits ToyFederation.verifier m []) ToyFederation.bundle (p :: rs).
Proof.
  eexists. split; [vm_compute; reflexivity|].
  apply (federation_sound (OperatorRoot (as_bytes "key")) ToyFederation.verifier 50 ToyFederation.bundle []).
  - eapply rtc_l; [apply step_vendor|]. eapply rtc_l; [apply step_vendor|]. eapply rtc_l; [|apply rtc_refl].
    eapply step_manifest with (m := ToyFederation.manifest). apply surjective_pairing.
  - vm_compute. reflexivity.
Defined.
