(* ===== verification/Tee.v ===== *)
(** * Attestation evidence and its providers

    From [crates/openhttpa-tee/src]: the structured evidence and its conversion to
    quotes ([evidence.rs]), the selection of a provider by name or by detection and
    the composite provider ([provider.rs]), the mock provider ([mock.rs]) and the
    wrapper that binds Azure runtime data ([maa_runtime_data.rs]).  The drivers of
    the hardware are arguments: a provider is a record of its operations.  What the
    code reads from its build and from the environment is the record [Build]. *)

From S2P Require Import Prelude Crypto Proto Attestation.
From stdpp Require Import options.

#[local] Open Scope Z_scope.

(** ** Evidence *)

Inductive SevSnpCertificateType : Type := Ark | Ask | Vcek | Vlek | Crl | OtherCert (s : string).
#[export] Instance SevSnpCertificateType_eq_dec : EqDecision SevSnpCertificateType.
Proof. solve_decision. Defined.
Record SevSnpCertificate : Type := mk_cert { certificate_type : SevSnpCertificateType; der : bytes }.
Record SevSnpQuoteBundleV1 : Type := mk_snp_bundle {
  snp_report : bytes;
  certificate_table : list SevSnpCertificate;
  snp_hcl_runtime_data : option bytes;
}.
Record TdxQuoteBundleV1 : Type := mk_tdx_bundle {
  tdx_quote : bytes;
  tdx_hcl_runtime_data : option bytes;
}.

(** [serde_json] on the two bundles. *)
Class BundleJson : Type := {
  snp_to_vec : SevSnpQuoteBundleV1 → option bytes;
  snp_from_slice : bytes → result string SevSnpQuoteBundleV1;
  tdx_to_vec : TdxQuoteBundleV1 → option bytes;
  tdx_from_slice : bytes → result string TdxQuoteBundleV1;
}.
Class BundleJsonLaws (P : BundleJson) : Prop := {
  snp_from_to b v : snp_to_vec b = Some v → snp_from_slice v = Ok b;
  tdx_from_to b v : tdx_to_vec b = Some v → tdx_from_slice v = Ok b;
}.

Inductive AttestationEvidence : Type :=
| TdxEvidence (quote : bytes) (pck_cert_uri : option string) (hcl_runtime_data : option bytes)
| SevSnpEvidence (report : bytes) (table : list SevSnpCertificate) (vcek_cert_uri : option string) (hcl_runtime_data : option bytes)
| TpmEvidence (quote : bytes) (pcr_values : list (Z * bytes)) (aik_cert_uri : option string)
| NvidiaGpuEvidence (rim_report : bytes) (gpu_cert_uri : option string)
| AwsNitroEvidence (document : bytes)
| MockEvidence (raw : bytes).

Section evidence.
Context {BJ : BundleJson}.

Definition to_quote (e : AttestationEvidence) (qudd : bytes) : AttestQuote :=
  match e with
  | TdxEvidence quote uri (Some runtime_data) =>
      mk_quote Tdx TdxBundleV1 (default [] (tdx_to_vec (mk_tdx_bundle quote (Some runtime_data)))) qudd []
  | TdxEvidence quote uri None => mk_quote Tdx Raw quote qudd (option_list uri)
  | SevSnpEvidence report table uri hcl =>
      mk_quote SevSnp SevSnpBundleV1 (default [] (snp_to_vec (mk_snp_bundle report table hcl))) qudd []
  | TpmEvidence quote pcrs uri => mk_quote Tpm Raw quote qudd (option_list uri)
  | NvidiaGpuEvidence report uri => mk_quote NvidiaGpu Raw report qudd (option_list uri)
  | AwsNitroEvidence document => mk_quote AwsNitro Raw document qudd []
  | MockEvidence raw => mk_quote Mock Raw raw qudd []
  end.

Definition class_claims (c : TeeClass) (model : string) (oem : option string) : EatClaims :=
  mk_claims None (Some model) None oem None None None None None (Some c).
Definition to_eat_claims (e : AttestationEvidence) : EatClaims :=
  match e with
  | TdxEvidence _ _ _ => class_claims IntelTdx "Intel TDX" (Some "Intel")
  | SevSnpEvidence _ _ _ _ => class_claims AmdSevSnp "AMD SEV-SNP" (Some "AMD")
  | TpmEvidence _ _ _ => class_claims TpmClass "TPM 2.0" None
  | NvidiaGpuEvidence _ _ => class_claims NvidiaGpuClass "NVIDIA Hopper GPU" (Some "NVIDIA")
  | AwsNitroEvidence _ => class_claims AwsNitroClass "AWS Nitro Enclave" (Some "Amazon")
  | MockEvidence _ => class_claims MockClass "Mock TEE" None
  end%string.

Record EvidenceBundle : Type := mk_evidence_bundle { primary : AttestationEvidence; secondaries : list AttestationEvidence }.
Definition to_quotes (b : EvidenceBundle) (qudd : bytes) : list AttestQuote :=
  to_quote (primary b) qudd :: ((λ s, to_quote s qudd) <$> secondaries b).

End evidence.

(** ** Providers *)

Inductive TeeProviderError : Type :=
| NotAvailable (msg : string)
| QuoteGeneration (msg : string)
| NotInitialised
| Enclave (msg : string)
| Driver (msg : string)
| TeeConfigError (msg : string).
#[export] Instance TeeProviderError_eq_dec : EqDecision TeeProviderError.
Proof. solve_decision. Defined.

#[export] Instance tee_error_display : Display TeeProviderError := λ e,
  match e with
  | NotAvailable m => "TEE SDK not available: " +:+ m
  | QuoteGeneration m => "quote generation failed: " +:+ m
  | NotInitialised => "TEE not initialised"
  | Enclave m => "enclave error: " +:+ m
  | Driver m => "hardware driver error: " +:+ m
  | TeeConfigError m => "platform configuration error: " +:+ m
  end.

(** The trait [TeeProvider]; [provider] is an implementation that keeps the
    trait's defaults. *)
Record TeeOps : Type := mk_tee_ops {
  op_quote_type : QuoteType;
  op_generate_quote : bytes → result TeeProviderError AttestQuote;
  op_generate_quotes : bytes → result TeeProviderError (list AttestQuote);
  op_is_available : bool;
  op_seal_data : bytes → result TeeProviderError bytes;
  op_unseal_data : bytes → result TeeProviderError bytes;
  op_derive_key : bytes → result TeeProviderError bytes;
}.
Definition provider (qt : QuoteType) (generate : bytes → result TeeProviderError AttestQuote) (available : bool) : TeeOps :=
  mk_tee_ops qt generate (λ rd, q ← generate rd; Ok [q]) available
    (λ _, Err (NotAvailable "Sealing not implemented"))
    (λ _, Err (NotAvailable "Unsealing not implemented"))
    (λ _, Err (NotAvailable "Key derivation not implemented")).

Module CompositeTeeProvider.

Definition t : Type := list TeeOps.
Definition first {A} (c : t) (f : TeeOps → result TeeProviderError A) : result TeeProviderError A :=
  p ← ok_or (head c) (NotAvailable "no providers in composite"); f p.
Fixpoint generate_quotes (c : t) (rd : bytes) : result TeeProviderError (list AttestQuote) :=
  match c with
  | [] => Ok []
  | p :: c => q ← op_generate_quote p rd; qs ← generate_quotes c rd; Ok (q :: qs)
  end.
Definition ops (c : t) : TeeOps :=
  mk_tee_ops (match c with p :: _ => op_quote_type p | [] => UnknownType "composite" end)
    (λ rd, first c (λ p, op_generate_quote p rd)) (generate_quotes c) (existsb op_is_available c)
    (λ b, first c (λ p, op_seal_data p b)) (λ b, first c (λ p, op_unseal_data p b)) (λ b, first c (λ p, op_derive_key p b)).

Lemma generate_quotes_Ok c rd qs :
  generate_quotes c rd = Ok qs ↔ Forall2 (λ p q, op_generate_quote p rd = Ok q) c qs.
Proof.
  revert qs. induction c as [|p c IH]; intros qs; cbn [generate_quotes].
  - split; [intros [= <-]; constructor|by inversion 1].
  - split.
    + intros H. inv_ok. constructor; [done|]. by apply IH.
    + inversion 1 as [|? q ? qs' Hq Hqs]; subst. rewrite Hq. cbn. by apply IH in Hqs as ->.
Qed.

End CompositeTeeProvider.

Module MaaRuntimeDataTeeProvider.
Section ops.
Context {HaP : HashPrim}.

Definition hardware_report_data (runtime_data : bytes) : bytes :=
  sha256 runtime_data ++ replicate (64 - length (sha256 runtime_data)) (u8_of 0).
Definition restore_qudd (rd : bytes) (q : AttestQuote) : AttestQuote :=
  mk_quote (quote_type q) (format q) (quote_raw q) rd (collateral_uris q).
Definition ops (inner : TeeOps) : TeeOps :=
  mk_tee_ops (op_quote_type inner)
    (λ rd, q ← op_generate_quote inner (hardware_report_data rd); Ok (restore_qudd rd q))
    (λ rd, qs ← op_generate_quotes inner (hardware_report_data rd); Ok (restore_qudd rd <$> (qs : list AttestQuote)))
    (op_is_available inner) (op_seal_data inner) (op_unseal_data inner) (op_derive_key inner).

End ops.
End MaaRuntimeDataTeeProvider.

(** ** The mock provider *)

(** The build (debug assertions, enabled features) and the environment variables. *)
Record Build : Type := mk_build {
  debug_build : bool;
  feature : string → bool;
  var_tee_provider : option string;
  var_mock_tee_type : option string;
  var_mock_failure : option string;
  var_allow_mock_hardware : bool;
}.

Definition is_real_hardware_type (qt : QuoteType) : bool :=
  match qt with Tdx | SevSnp | Sgx | Tpm | NvidiaGpu | TrustZone => true | _ => false end.

Module MockTeeProvider.

Record t : Type := mk { override_type : option QuoteType }.

(** [type_str.parse().unwrap_or(Mock)]: the parse never fails. *)
Definition resolved (b : Build) : QuoteType := quote_type_of (default "mock"%string (var_mock_tee_type b)).
(** The guard against impersonating hardware, checked outside debug builds. *)
Definition guard (b : Build) (qt : QuoteType) : outcome () :=
  if negb (debug_build b) && is_real_hardware_type qt && negb (var_allow_mock_hardware b) then Panics else Returns ().

Definition default (b : Build) : outcome t := _ ← guard b (resolved b); Returns (mk None).
Definition with_override (b : Build) (qt : QuoteType) : outcome t := _ ← guard b qt; Returns (mk (Some qt)).

Definition quote_type (b : Build) (p : t) : outcome QuoteType :=
  match override_type p with
  | Some qt => Returns qt
  | None => _ ← guard b (resolved b); Returns (resolved b)
  end.

Definition simulate_failure (b : Build) : result TeeProviderError () :=
  match var_mock_failure b with
  | None => Ok ()
  | Some f =>
      if decide (f = "driver") then Err (Driver "Simulated driver failure")
      else if decide (f = "enclave") then Err (Enclave "Simulated enclave crash")
      else if decide (f = "config") then Err (TeeConfigError "Simulated platform misconfiguration")
      else if decide (f = "not_available") then Err (NotAvailable "Simulated hardware missing")
      else Ok ()
  end%string.

Section ops.
Context {HaP : HashPrim} {HP : HkdfPrim} {BJ : BundleJson}.

Definition evidence_of (qt : QuoteType) (hash : bytes) : AttestationEvidence :=
  match qt with
  | Tdx => TdxEvidence hash (Some "https://mock.attestation/intel/tdx/pck") None
  | SevSnp => SevSnpEvidence hash [] (Some "https://mock.attestation/amd/snp/vcek") None
  | Tpm => TpmEvidence hash [(0, replicate 48 (u8_of 0))] (Some "https://mock.attestation/tpm/aik")
  | NvidiaGpu => NvidiaGpuEvidence hash (Some "https://mock.attestation/nvidia/gpu/cert")
  | _ => MockEvidence hash
  end%string.

Definition generate_evidence (b : Build) (p : t) (rd : bytes) : outcome (result TeeProviderError AttestationEvidence) :=
  match simulate_failure b with
  | Err e => Returns (Err e)
  | Ok _ => qt ← quote_type b p; Returns (Ok (evidence_of qt (sha384 rd)))
  end.
Definition generate_quote (b : Build) (p : t) (rd : bytes) : outcome (result TeeProviderError AttestQuote) :=
  r ← generate_evidence b p rd; Returns (e ← r; Ok (to_quote e rd)).
Definition is_available (b : Build) : bool := is_ok (simulate_failure b).

Definition SEAL_PREFIX : bytes := as_bytes "MOCK_SEAL:".
Definition seal_data (plaintext : bytes) : result TeeProviderError bytes := Ok (SEAL_PREFIX ++ plaintext).
Definition unseal_data (ciphertext : bytes) : result TeeProviderError bytes :=
  if decide (take (length SEAL_PREFIX) ciphertext = SEAL_PREFIX) then Ok (drop (length SEAL_PREFIX) ciphertext)
  else Err (Enclave "Invalid mock sealed data").
Definition derive_key (context : bytes) : result TeeProviderError bytes :=
  ok_or (hkdf_expand (hkdf_extract (as_bytes "mock_salt") (as_bytes "MOCK_HARDWARE_SECRET_KEY_1234567890")) context 32)
    (Enclave "HKDF expansion failed for mock key derivation").

(** [verify_mock_quote] *)
Definition verify_mock_quote (q : AttestQuote) (rd : bytes) : result string () :=
  if decide (quote_raw q = sha384 rd) then Ok () else Err "mock quote hash mismatch"%string.

End ops.
End MockTeeProvider.

(** ** Selection *)

Inductive ProviderKind : Type :=
| NvidiaGpuProvider | TdxProvider | SevSnpProvider | AwsNitroProvider | SgxProvider | TpmProvider | TrustZoneProvider
| MockProvider.
#[export] Instance ProviderKind_eq_dec : EqDecision ProviderKind.
Proof. solve_decision. Defined.

Definition feature_of (k : ProviderKind) : string :=
  match k with
  | NvidiaGpuProvider => "nvidia_gpu" | TdxProvider => "tdx" | SevSnpProvider => "sev_snp" | AwsNitroProvider => "aws_nitro"
  | SgxProvider => "sgx" | TpmProvider => "tpm" | TrustZoneProvider => "trustzone" | MockProvider => "mock"
  end.

Record TeeConfig : Type := mk_tee_config { allow_mock : bool; preferred_type : option string }.
Definition default_tee_config (b : Build) : TeeConfig := mk_tee_config (debug_build b) None.

(** The order in which the hardware is tried. *)
Definition detection_order : list ProviderKind :=
  [NvidiaGpuProvider; TdxProvider; SevSnpProvider; AwsNitroProvider; SgxProvider; TpmProvider; TrustZoneProvider].

Definition kind_of_name (s : string) : option ProviderKind :=
  if decide (s = "sgx") then Some SgxProvider
  else if decide (s = "tdx") then Some TdxProvider
  else if decide (s = "sev_snp" ∨ s = "snp") then Some SevSnpProvider
  else if decide (s = "aws_nitro" ∨ s = "nitro") then Some AwsNitroProvider
  else if decide (s = "trustzone") then Some TrustZoneProvider
  else if decide (s = "tpm") then Some TpmProvider
  else if decide (s = "nvidia_gpu" ∨ s = "nvidia" ∨ s = "hopper") then Some NvidiaGpuProvider
  else if decide (s = "mock") then Some MockProvider
  else None.

Definition mock_provider (b : Build) : outcome (result TeeProviderError ProviderKind) :=
  _ ← MockTeeProvider.default b; Returns (Ok MockProvider).

Definition select_by_type (b : Build) (tee_type : string) (allow : bool) : outcome (result TeeProviderError ProviderKind) :=
  match kind_of_name tee_type with
  | None => Returns (Err (TeeConfigError ("Unknown TEE provider type: " +:+ tee_type)))
  | Some MockProvider =>
      if negb allow then Returns (Err (TeeConfigError "mock provider selection requires explicit allow_mock"))
      else if negb (debug_build b) then Returns (Err (TeeConfigError "mock provider selection is forbidden in release builds"))
      else if feature b "mock" then mock_provider b
      else Returns (Err (NotAvailable "Mock feature not enabled"))
  | Some k =>
      if feature b (feature_of k) then Returns (Ok k) else Returns (Err (NotAvailable (feature_of k +:+ " feature not enabled")))
  end.

Definition detected (b : Build) (avail : ProviderKind → bool) : list ProviderKind :=
  base.filter (λ k, feature b (feature_of k) = true ∧ avail k = true) detection_order.

Definition detect_best_provider (b : Build) (avail : ProviderKind → bool) (config : TeeConfig)
    : outcome (result TeeProviderError ProviderKind) :=
  if allow_mock config && negb (debug_build b) then
    Returns (Err (TeeConfigError "mock attestation is forbidden in release builds"))
  else
    match var_tee_provider b, preferred_type config with
    | Some env_type, _ => select_by_type b env_type (allow_mock config)
    | None, Some pref => select_by_type b pref (allow_mock config)
    | None, None =>
        match detected b avail with
        | k :: _ => Returns (Ok k)
        | [] =>
            if feature b "mock" && allow_mock config then mock_provider b
            else Returns (Err (NotAvailable "No hardware TEE detected and Mock is disabled"))
        end
    end.

Definition detect_all_providers (b : Build) (avail : ProviderKind → bool) (config : TeeConfig)
    : outcome (result TeeProviderError (list ProviderKind)) :=
  if allow_mock config && negb (debug_build b) then
    Returns (Err (TeeConfigError "mock attestation is forbidden in release builds"))
  else
    match detected b avail with
    | [] =>
        if feature b "mock" then
          if allow_mock config then r ← mock_provider b; Returns (k ← r; Ok [k])
          else Returns (Err (NotAvailable "No hardware TEE detected for federation and Mock is disabled"))
        else Returns (Err (NotAvailable "No hardware TEE detected for federation and Mock feature is not available"))
    | ks => Returns (Ok ks)
    end.

(** ** Theorems *)

Lemma select_by_type_Ok b s allow k :
  select_by_type b s allow = Returns (Ok k) →
  kind_of_name s = Some k ∧ feature b (feature_of k) = true ∧ (k = MockProvider → allow = true ∧ debug_build b = true).
Proof.
  unfold select_by_type, mock_provider. destruct (kind_of_name s) as [j|]; [|done].
  destruct j; try (destruct (feature b _) eqn:Hf; [intros [= <-]; by split_and!|done]).
  destruct allow; [|done]. cbn [negb]. destruct (debug_build b); [|done]. cbn [negb].
  destruct (feature b "mock") eqn:Hf; [|done]. destruct (MockTeeProvider.default b); [|done]. cbn. intros [= <-]. by split_and!.
Qed.

Lemma detected_hardware b avail k :
  k ∈ detected b avail → k ≠ MockProvider ∧ feature b (feature_of k) = true ∧ avail k = true.
Proof.
  unfold detected. rewrite list_elem_of_filter. intros [[Hf Ha] Hin]. split_and!; [|done..].
  intros ->. unfold detection_order in Hin. set_solver.
Qed.

(** A release build never attests with the mock provider, however it is
    configured: neither the environment, nor the configuration, nor detection can
    select it; and every provider that is selected has its feature compiled in. *)
Theorem release_never_mock (b : Build) (avail : ProviderKind → bool) (config : TeeConfig) (k : ProviderKind) :
  debug_build b = false →
  (detect_best_provider b avail config = Returns (Ok k) → k ≠ MockProvider ∧ feature b (feature_of k) = true) ∧
  (∀ ks, detect_all_providers b avail config = Returns (Ok ks) → k ∈ ks → k ≠ MockProvider ∧ feature b (feature_of k) = true ∧ avail k = true).
Proof.
  intros Hrel. split.
  - unfold detect_best_provider. rewrite Hrel. destruct (allow_mock config); [done|]. cbn [andb negb].
    assert (∀ s, select_by_type b s false = Returns (Ok k) → k ≠ MockProvider ∧ feature b (feature_of k) = true) as Hsel.
    { intros s (_ & Hf & Hm)%select_by_type_Ok. split; [|done]. intros ->. destruct (Hm eq_refl). congruence. }
    destruct (var_tee_provider b) as [s|]; [apply Hsel|]. destruct (preferred_type config) as [s|]; [apply Hsel|].
    destruct (detected b avail) as [|j js] eqn:Hd; [by rewrite andb_false_r|]. intros [= <-].
    destruct (detected_hardware b avail j) as (? & ? & _); [rewrite Hd; by left|done].
  - intros ks. unfold detect_all_providers. rewrite Hrel. destruct (allow_mock config); [done|]. cbn [andb negb].
    destruct (detected b avail) as [|j js] eqn:Hd; [by destruct (feature b "mock")|]. intros [= <-]. rewrite <-Hd. apply detected_hardware.
Qed.

Module DemoTee.
Definition release : Build := mk_build false (λ f, bool_decide (f ∈ ["tdx"; "mock"]%string)) None (Some "tdx"%string) None false.
End DemoTee.

Lemma release_never_mock_witness :
  TdxProvider ≠ MockProvider ∧ feature DemoTee.release "tdx" = true.
Proof.
  apply (release_never_mock DemoTee.release (λ _, true) (mk_tee_config false None) TdxProvider); reflexivity.
Defined.

(** Detection takes the first hardware in the order of [detection_order] that is
    compiled in and available, the GPU before any host TEE and whether or not one is
    present. *)
Theorem detection_priority (b : Build) (avail : ProviderKind → bool) (config : TeeConfig) (k : ProviderKind) :
  var_tee_provider b = None → preferred_type config = None → k ≠ MockProvider →
  detect_best_provider b avail config = Returns (Ok k) →
  ∃ l1 l2, detection_order = l1 ++ k :: l2 ∧ feature b (feature_of k) = true ∧ avail k = true ∧
    Forall (λ j, ¬ (feature b (feature_of j) = true ∧ avail j = true)) l1.
Proof.
  intros Hv Hp Hk. unfold detect_best_provider. rewrite Hv, Hp.
  destruct (allow_mock config && negb (debug_build b)); [done|].
  destruct (detected b avail) as [|j js] eqn:Hd.
  { destruct (_ && _); [|done]. unfold mock_provider. destruct (MockTeeProvider.default b); [|done]. cbn. by intros [= <-]. }
  intros [= <-]. unfold detected in Hd.
  assert (head (base.filter (λ k, feature b (feature_of k) = true ∧ avail k = true) detection_order) = Some j) as Hh by by rewrite Hd.
  clear Hd. revert Hh. generalize detection_order. induction l as [|x l IH]; [done|]. rewrite filter_cons.
  case_decide as Hx; cbn [head].
  - intros [= ->]. exists [], l. destruct Hx. by split_and!.
  - intros (l1 & l2 & -> & Hf & Ha & Hall)%IH. exists (x :: l1), l2. split_and!; [done..|by constructor].
Qed.

(** Every quote of a composite attests the same report data when its parts do; a
    part that fails fails the whole. *)
Theorem composite_quotes_bound (c : CompositeTeeProvider.t) (rd : bytes) (qs : list AttestQuote) :
  Forall (λ p, ∀ q, op_generate_quote p rd = Ok q → qudd q = rd) c →
  op_generate_quotes (CompositeTeeProvider.ops c) rd = Ok qs →
  length qs = length c ∧ Forall (λ q, qudd q = rd) qs.
Proof.
  intros Hc Hqs%CompositeTeeProvider.generate_quotes_Ok. split; [symmetry; by eapply Forall2_length|].
  induction Hqs as [|p q c' qs' Hq Hqs IH]; [constructor|]. apply Forall_cons in Hc as [Hp Hc]. constructor; auto.
Qed.

(** The mock seal is undone by the mock unseal, and nothing else is unsealed. *)
Theorem mock_unseal_iff (ct pt : bytes) :
  MockTeeProvider.unseal_data ct = Ok pt ↔ MockTeeProvider.seal_data pt = Ok ct.
Proof.
  unfold MockTeeProvider.unseal_data, MockTeeProvider.seal_data. set (n := length MockTeeProvider.SEAL_PREFIX). split.
  - case_decide as Hp; [|done]. intros H. apply (inj Ok) in H. subst pt. rewrite <-Hp at 1. by rewrite take_drop.
  - intros H. apply (inj Ok) in H. subst ct. subst n. rewrite take_app_length, drop_app_length. by rewrite decide_True.
Qed.

(** A quote of the mock provider verifies against its own report data; but not
    when it plays AMD hardware: that quote carries a bundle, not the hash. *)
Theorem mock_quote_verifies {HaP : HashPrim} {BJ : BundleJson} (b : Build) (p : MockTeeProvider.t) (rd : bytes) (q : AttestQuote) :
  MockTeeProvider.generate_quote b p rd = Returns (Ok q) →
  qudd q = rd ∧
  (quote_type q ≠ SevSnp → MockTeeProvider.verify_mock_quote q rd = Ok ()) ∧
  (quote_type q = SevSnp →
   MockTeeProvider.verify_mock_quote q rd = Ok () ↔ default [] (snp_to_vec (mk_snp_bundle (sha384 rd) [] None)) = sha384 rd).
Proof.
  unfold MockTeeProvider.generate_quote, MockTeeProvider.generate_evidence.
  destruct (MockTeeProvider.simulate_failure b) as [u|]; [|done]. destruct (MockTeeProvider.quote_type b p) as [qt|]; [|done].
  cbn [mbind outcome_bind result_bind]. intros H. injection H as <-. unfold MockTeeProvider.verify_mock_quote.
  destruct qt; cbn [MockTeeProvider.evidence_of to_quote qudd quote_type quote_raw];
    (split; [done|]; split; [intros ?; try done; by rewrite decide_True|intros ?; try done]).
  case_decide; by split.
Qed.
