(* ===== verification/Session.v ===== *)
(** * Attested sessions

    [crates/openhttpa-core/src/session/mod.rs]: the state behind an
    [AttestSession], the replay-checked access to the keys for trusted requests
    and responses, and the durable export and import.

    Every method holds the session's mutex for its whole body, so a method is
    one step on [SessionInner] and an interleaving of threads is a sequence of
    steps.  [now] is [Instant::now()] and [now_sys] is [SystemTime::now()], read
    inside the method.  The closure that a caller passes is an argument. *)

From S2P Require Import Prelude ReplayWindow Crypto Proto State KeySchedule Attestation.
From stdpp Require Import options.

#[local] Open Scope Z_scope.

Inductive SessionError : Type :=
| Transition (e : TransitionError)
| SessionExpired
| NotAttested
| ReplayRejected
| CounterOverflow.
#[export] Instance SessionError_eq_dec : EqDecision SessionError.
Proof. solve_decision. Defined.

Inductive ReplayStrategy : Type :=
| StrictMonotonic
| SlidingWindow (w : Z).
#[export] Instance ReplayStrategy_eq_dec : EqDecision ReplayStrategy.
Proof. solve_decision. Defined.
Definition default_strategy : ReplayStrategy := SlidingWindow 64.

(** The const parameter of the session's [ReplayGuard<64>]; the number carried by
    [SlidingWindow] is not used. *)
Definition SESSION_W : Z := 64.

Record SessionInner : Type := mk_session {
  id : AtbId;
  cipher_suite : CipherSuite;
  version : ProtocolVersion;
  phase : ProtocolPhase;
  keys : SessionKeys;
  expires_at : Z;
  replay_guard : ReplayGuard.t;
  strict_last_seen : Z;
  replay_strategy : ReplayStrategy;
  client_counter : Z;
  server_counter : Z;
  attestation_result : option VerificationResult;
}.

Record SessionState : Type := mk_state {
  state_id : AtbId;
  state_cipher_suite : CipherSuite;
  state_version : ProtocolVersion;
  state_phase : ProtocolPhase;
  state_expires_at : Z;
  state_attestation_result : option VerificationResult;
}.

Record DurableSessionState : Type := mk_durable {
  d_id : AtbId;
  d_cipher_suite : CipherSuite;
  d_version : ProtocolVersion;
  d_phase : ProtocolPhase;
  d_keys : SessionKeys;
  d_resumption_secret : bytes;
  d_expires_at : Z;
  d_client_counter : Z;
  d_server_counter : Z;
  d_replay_highest : Z;
  d_replay_window : list Z;
  d_attestation_result : option VerificationResult;
}.

#[export] Instance DurableSessionState_eq_dec : EqDecision DurableSessionState.
Proof. solve_decision. Defined.

Module AttestSession.

Definition new (i : AtbId) (cs : CipherSuite) (v : ProtocolVersion) (k : SessionKeys)
    (exp : Z) (strategy : ReplayStrategy) (ar : option VerificationResult) : SessionInner :=
  {| id := i; cipher_suite := cs; version := v; phase := Attested; keys := k; expires_at := exp;
     replay_guard := ReplayGuard.new SESSION_W; strict_last_seen := 0; replay_strategy := strategy;
     client_counter := 1; server_counter := 1; attestation_result := ar |}.

Definition state (s : SessionInner) : SessionState :=
  {| state_id := id s; state_cipher_suite := cipher_suite s; state_version := version s;
     state_phase := phase s; state_expires_at := expires_at s;
     state_attestation_result := attestation_result s |}.

(** [client_posture], of a session and of a snapshot. *)
Definition client_posture (ar : option VerificationResult) : ClientSecurityPosture :=
  match ar with
  | Some res =>
      match tee_class (claims res) with
      | Some MockClass => SimulatedTee
      | Some cls => MutualTee cls
      | None => MutualTee UnknownClass
      end
  | None => OneDirectional
  end.

Definition is_alive (now : Z) (s : SessionInner) : bool := bool_decide (now < expires_at s).

Definition set_phase (s : SessionInner) (p : ProtocolPhase) : SessionInner :=
  {| id := id s; cipher_suite := cipher_suite s; version := version s; phase := p; keys := keys s;
     expires_at := expires_at s; replay_guard := replay_guard s; strict_last_seen := strict_last_seen s;
     replay_strategy := replay_strategy s; client_counter := client_counter s;
     server_counter := server_counter s; attestation_result := attestation_result s |}.
Definition set_replay (s : SessionInner) (g : ReplayGuard.t) (last : Z) : SessionInner :=
  {| id := id s; cipher_suite := cipher_suite s; version := version s; phase := phase s; keys := keys s;
     expires_at := expires_at s; replay_guard := g; strict_last_seen := last;
     replay_strategy := replay_strategy s; client_counter := client_counter s;
     server_counter := server_counter s; attestation_result := attestation_result s |}.
Definition set_counters (s : SessionInner) (c sv : Z) : SessionInner :=
  {| id := id s; cipher_suite := cipher_suite s; version := version s; phase := phase s; keys := keys s;
     expires_at := expires_at s; replay_guard := replay_guard s; strict_last_seen := strict_last_seen s;
     replay_strategy := replay_strategy s; client_counter := c;
     server_counter := sv; attestation_result := attestation_result s |}.

Definition advance_phase (s : SessionInner) (next : ProtocolPhase) : result SessionError () * SessionInner :=
  match transition (phase s) next with
  | Ok p => (Ok (), set_phase s p)
  | Err e => (Err (Transition e), s)
  end.

Definition peek_keys {R} (now : Z) (s : SessionInner) (f : SessionKeys → R) : result SessionError R :=
  if decide (expires_at s ≤ now) then Err SessionExpired else Ok (f (keys s)).

(** Phase 1 of [with_keys_for_trr]: the check, which for the strict strategy
    already moves [strict_last_seen]. *)
Definition replay_check (s : SessionInner) (nonce : Z) : result SessionError SessionInner :=
  match replay_strategy s with
  | SlidingWindow _ =>
      match ReplayGuard.check SESSION_W (replay_guard s) nonce with
      | Ok _ => Ok s
      | Err _ => Err ReplayRejected
      end
  | StrictMonotonic =>
      if decide (nonce ≤ strict_last_seen s) then Err ReplayRejected
      else Ok (set_replay s (replay_guard s) nonce)
  end.

(** Phase 2 when the closure succeeded. *)
Definition replay_commit (s : SessionInner) (nonce : Z) : SessionInner :=
  match replay_strategy s with
  | SlidingWindow _ => set_replay s (ReplayGuard.accept SESSION_W (replay_guard s) nonce) (strict_last_seen s)
  | StrictMonotonic => s
  end.

(** Phase 2 when the closure failed. *)
Definition replay_rollback (s : SessionInner) (nonce : Z) : SessionInner :=
  match replay_strategy s with
  | SlidingWindow _ => s
  | StrictMonotonic => set_replay s (replay_guard s) (saturating_sub64 nonce 1)
  end.

Definition with_keys_for_trr {E T} (now : Z) (s : SessionInner) (nonce : Z)
    (f : SessionKeys → Z → result E T) : result SessionError (result E T) * SessionInner :=
  if decide (expires_at s ≤ now) then (Err SessionExpired, s)
  else if negb (allows_trusted_request (phase s)) then (Err NotAttested, s)
  else
    match replay_check s nonce with
    | Err e => (Err e, s)
    | Ok s =>
        let r := f (keys s) (client_counter s) in
        match r with
        | Ok _ =>
            let s := replay_commit s nonce in
            match checked_add64 (client_counter s) 1 with
            | Some c => (Ok r, set_counters s c (server_counter s))
            | None => (Err CounterOverflow, s)
            end
        | Err _ => (Ok r, replay_rollback s nonce)
        end
    end.

(** The counter is read under the lock, which is released before the call. *)
Definition with_keys_for_next_trr {E T} (now : Z) (s : SessionInner)
    (f : SessionKeys → Z → result E T) : result SessionError (result E T) * SessionInner :=
  with_keys_for_trr now s (client_counter s) f.

(** The closure runs before the counter is advanced. *)
Definition with_keys_for_trs {R} (now : Z) (s : SessionInner) (f : SessionKeys → Z → R)
    : result SessionError R * SessionInner :=
  if decide (expires_at s ≤ now) then (Err SessionExpired, s)
  else
    let r := f (keys s) (server_counter s) in
    match checked_add64 (server_counter s) 1 with
    | Some c => (Ok r, set_counters s (client_counter s) c)
    | None => (Err CounterOverflow, s)
    end.

Definition export_durable (now now_sys : Z) (s : SessionInner) : DurableSessionState :=
  let '(replay_highest, window) := ReplayGuard.export_state (replay_guard s) in
  {| d_id := id s; d_cipher_suite := cipher_suite s; d_version := version s; d_phase := phase s;
     d_keys := keys s; d_resumption_secret := resumption_master_secret (keys s);
     d_expires_at := (if decide (now < expires_at s) then now_sys + (expires_at s - now) else now_sys);
     d_client_counter := client_counter s; d_server_counter := server_counter s;
     d_replay_highest := replay_highest; d_replay_window := window;
     d_attestation_result := attestation_result s |}.

Definition from_durable (now now_sys : Z) (d : DurableSessionState) : SessionInner :=
  let exp := if decide (now_sys < d_expires_at d) then now + (d_expires_at d - now_sys) else now in
  let window := take 64 (d_replay_window d) ++ replicate (64 - length (d_replay_window d)) 0 in
  {| id := d_id d; cipher_suite := d_cipher_suite d; version := d_version d; phase := d_phase d;
     keys := d_keys d; expires_at := exp;
     replay_guard := ReplayGuard.import_state (d_replay_highest d) window;
     strict_last_seen := saturating_sub64 (d_client_counter d) 1;
     replay_strategy := default_strategy;
     client_counter := d_client_counter d; server_counter := d_server_counter d;
     attestation_result := d_attestation_result d |}.

(** ** Histories

    A history is a sequence of method calls from any number of threads, in the
    order in which they took the lock. *)

Section history.
Context {E T R : Type}.

Inductive op : Type :=
| Trr (now nonce : Z) (f : SessionKeys → Z → result E T)
| Trs (now : Z) (f : SessionKeys → Z → R)
| Advance (next : ProtocolPhase).

(** A request whose closure succeeded, with its nonce; a response that was
    produced, with its counter. *)
Inductive event : Type :=
| Request (nonce : Z)
| Response (counter : Z).

Definition committed (r : result SessionError (result E T)) : bool :=
  match r with Ok (Ok _) | Err CounterOverflow => true | _ => false end.

Definition step (s : SessionInner) (o : op) : option event * SessionInner :=
  match o with
  | Trr now nonce f =>
      let '(r, s') := with_keys_for_trr now s nonce f in
      (if committed r then Some (Request nonce) else None, s')
  | Trs now f =>
      let '(r, s') := with_keys_for_trs now s f in
      (if is_ok r then Some (Response (server_counter s)) else None, s')
  | Advance next => (None, (advance_phase s next).2)
  end.

Fixpoint run (s : SessionInner) (os : list op) : list event * SessionInner :=
  match os with
  | [] => ([], s)
  | o :: os =>
      let '(e, s) := step s o in
      let '(es, s) := run s os in
      (option_list e ++ es, s)
  end.

Definition op_ok (o : op) : Prop := match o with Trr _ nonce _ => is_u64 nonce | _ => True end.
Definition requests (es : list event) : list Z :=
  omap (λ e, match e with Request n => Some n | _ => None end) es.
Definition responses (es : list event) : list Z :=
  omap (λ e, match e with Response c => Some c | _ => None end) es.

(** The nonces of the committed requests, as the active strategy remembers them. *)
Definition remembers (s : SessionInner) (seen : list Z) : Prop :=
  match replay_strategy s with
  | SlidingWindow _ => ReplayGuard.repr SESSION_W (replay_guard s) seen
  | StrictMonotonic => 0 ≤ strict_last_seen s ∧ Forall (λ n, n ≤ strict_last_seen s) seen
  end.

Lemma remembers_new i cs v k exp st ar : remembers (new i cs v k exp st ar) [].
Proof.
  unfold remembers. simpl. destruct st; [split; [done|constructor]|]. by apply ReplayGuard.repr_new.
Qed.

Lemma remembers_ext s s' seen :
  replay_guard s' = replay_guard s → strict_last_seen s' = strict_last_seen s →
  replay_strategy s' = replay_strategy s → remembers s seen → remembers s' seen.
Proof. unfold remembers. by intros -> -> ->. Qed.

Lemma replay_check_Ok s nonce s1 seen :
  is_u64 nonce → remembers s seen → replay_check s nonce = Ok s1 →
  (nonce ∉ seen) ∧ remembers (replay_commit s1 nonce) (nonce :: seen) ∧ remembers (replay_rollback s1 nonce) seen.
Proof.
  intros [Hlo Hhi]. unfold replay_check, remembers. destruct (replay_strategy s) as [|w] eqn:Hst.
  - intros [H0 Hall]. destruct (decide (nonce ≤ strict_last_seen s)) as [?|Hlt]; [done|]. intros [= <-].
    split_and!.
    + intros Hin. rewrite Forall_forall in Hall. specialize (Hall _ Hin). lia.
    + unfold replay_commit. simpl. rewrite Hst. simpl. rewrite Hst. split; [lia|]. constructor; [lia|].
      eapply Forall_impl; [exact Hall|]. simpl. lia.
    + unfold replay_rollback. simpl. rewrite Hst. simpl. rewrite Hst. unfold saturating_sub64.
      rewrite decide_True by lia. split; [lia|]. eapply Forall_impl; [exact Hall|]. simpl. lia.
  - intros Hr. destruct (ReplayGuard.check _ _ _) as [[]|] eqn:Hc; [|done]. intros [= <-].
    rewrite (ReplayGuard.repr_check SESSION_W) with (seen := seen) in Hc by done.
    unfold replay_commit, replay_rollback. rewrite Hst. simpl. rewrite !Hst.
    apply ReplayGuard.spec_check_Ok_inv in Hc as (_ & Hw & Hnot). split_and!; [done| |done].
    apply ReplayGuard.repr_accept; [done|done| |done]. destruct Hr as (_ & -> & _). lia.
Qed.

Lemma trr_remembers now s nonce (f : SessionKeys → Z → result E T) seen :
  is_u64 nonce → remembers s seen →
  let '(r, s') := with_keys_for_trr now s nonce f in if committed r then ((nonce ∉ seen) ∧ remembers s' (nonce :: seen)) else remembers s' seen.
Proof.
  intros Hn Hs. unfold with_keys_for_trr. destruct (decide (expires_at s ≤ now)); [done|].
  destruct (allows_trusted_request (phase s)); [|done]. cbn [negb].
  destruct (replay_check s nonce) as [s1|e] eqn:Hc.
  - destruct (replay_check_Ok _ _ _ _ Hn Hs Hc) as (Hnot & Hcommit & Hroll).
    destruct (f (keys s1) (client_counter s1)); [|done].
    destruct (checked_add64 _ _); simpl; (split; [done|]); [|done]. by eapply remembers_ext, Hcommit.
  - unfold replay_check in Hc. assert (e = ReplayRejected) as ->; [|done].
    destruct (replay_strategy s); [destruct (decide _)|destruct (ReplayGuard.check _ _ _)]; congruence.
Qed.

Lemma with_keys_for_trr_Ok now s n (f : SessionKeys → Z → result E T) x s' :
  with_keys_for_trr now s n f = (Ok (Ok x), s') →
  allows_trusted_request (phase s) = true ∧ f (keys s) (client_counter s) = Ok x.
Proof.
  unfold with_keys_for_trr. case_decide; [done|]. destruct (allows_trusted_request _); [|done]. cbn [negb].
  unfold replay_check. destruct (replay_strategy s) eqn:Hst.
  - case_decide; [done|]. destruct (f _ _) eqn:Hf; simpl in Hf; [|by intros [=]].
    destruct (checked_add64 _ _); intros [=]; by subst.
  - destruct (ReplayGuard.check _ _ _); [|done]. destruct (f _ _) eqn:Hf; [|by intros [=]].
    destruct (checked_add64 _ _); intros [=]; by subst.
Qed.

Lemma step_remembers s o seen :
  op_ok o → remembers s seen →
  match step s o with
  | (Some (Request n), s') => (n ∉ seen) ∧ remembers s' (n :: seen)
  | (_, s') => remembers s' seen
  end.
Proof.
  intros Ho Hs. destruct o as [now nonce f|now f|next]; simpl in *.
  - pose proof (trr_remembers now s nonce f seen Ho Hs) as H.
    destruct (with_keys_for_trr now s nonce f) as [r s']. by destruct (committed r).
  - unfold with_keys_for_trs. destruct (decide _); [done|]. by destruct (checked_add64 _ _).
  - unfold advance_phase. by destruct (transition _ _).
Qed.

Lemma run_requests s os seen :
  Forall op_ok os → remembers s seen → NoDup seen → NoDup (rev_append (requests (run s os).1) seen).
Proof.
  intros Hos. revert s seen. induction Hos as [|o os Ho _ IH]; intros s seen Hs Hnd; [done|].
  cbn [run]. pose proof (step_remembers s o seen Ho Hs) as H.
  destruct (step s o) as [e s1]. destruct (run s1 os) as [es s2] eqn:Hrun.
  destruct e as [[n|c]|]; simpl.
  - destruct H as [Hn Hs1]. specialize (IH s1 (n :: seen) Hs1). rewrite Hrun in IH. simpl in IH.
    apply IH. by constructor.
  - specialize (IH s1 seen H). rewrite Hrun in IH. auto.
  - specialize (IH s1 seen H). rewrite Hrun in IH. auto.
Qed.

Lemma step_server_counter s o e s' :
  is_u64 (server_counter s) → step s o = (e, s') →
  is_u64 (server_counter s') ∧
  match e with
  | Some (Response c) => c = server_counter s ∧ server_counter s' = c + 1
  | _ => server_counter s' = server_counter s
  end.
Proof.
  intros Hs Hstep. destruct o as [now nonce f|now f|next]; simpl in Hstep.
  - destruct (with_keys_for_trr now s nonce f) as [r s1] eqn:Htrr. injection Hstep as <- <-.
    assert (server_counter s1 = server_counter s) as ->; [|by destruct (committed r)].
    unfold with_keys_for_trr, replay_check, replay_commit, replay_rollback in Htrr.
    repeat case_match; simplify_eq/=; done.
  - unfold with_keys_for_trs, checked_add64, is_u64 in *.
    repeat case_decide; simplify_eq/=; split_and!; try done; lia.
  - unfold advance_phase in Hstep. by destruct (transition _ _); simplify_eq/=.
Qed.

Lemma run_responses s os :
  is_u64 (server_counter s) →
  ∃ k, responses (run s os).1 = seqZ (server_counter s) (Z.of_nat k) ∧
    server_counter (run s os).2 = server_counter s + Z.of_nat k ∧ is_u64 (server_counter (run s os).2).
Proof.
  revert s. induction os as [|o os IH]; intros s Hs; cbn [run].
  { exists O. simpl. split_and!; [done|lia|by destruct Hs..]. }
  destruct (step s o) as [e s1] eqn:Hstep. destruct (step_server_counter _ _ _ _ Hs Hstep) as [Hs1 He].
  destruct (IH s1 Hs1) as (k & Hk & Hc & Hu). destruct (run s1 os) as [es s2]. simpl in *.
  destruct e as [[n|c]|]; simpl.
  - exists k. rewrite He in *. done.
  - destruct He as [-> He]. exists (S k). rewrite seqZ_cons by lia. rewrite Hk, He in *.
    split_and!; [|lia|done..]. f_equal. f_equal; lia.
  - exists k. rewrite He in *. done.
Qed.

End history.

End AttestSession.

(** ** Properties *)

Section properties.
Import AttestSession.

Lemma with_keys_strict {E T} now s nonce (f : SessionKeys → Z → result E T) :
  replay_strategy s = StrictMonotonic → now < expires_at s → allows_trusted_request (phase s) = true →
  client_counter s < u64_max → strict_last_seen s < nonce →
  with_keys_for_trr now s nonce f =
    match f (keys s) (client_counter s) with
    | Ok a => (Ok (Ok a), set_counters (set_replay s (replay_guard s) nonce) (client_counter s + 1) (server_counter s))
    | Err e => (Ok (Err e), set_replay s (replay_guard s) (saturating_sub64 nonce 1))
    end.
Proof.
  intros Hst Hexp Hph Hc Hn. unfold with_keys_for_trr, replay_check, replay_commit, replay_rollback.
  rewrite decide_False by lia. rewrite Hph, Hst. simpl. rewrite decide_False by lia. simpl. rewrite Hst.
  destruct (f _ _); simpl; [|done]. unfold checked_add64. rewrite decide_True by lia. done.
Qed.

(** [C2] Replay protection of a session: from the handshake on, in every history
    of trusted requests, responses and phase changes, whatever the closures
    answer and whatever nonces the network delivers, no nonce is accepted
    twice, under either strategy. *)
Theorem session_requests_NoDup {E T R : Type} i cs v k exp st ar (os : list (@op E T R)) :
  Forall op_ok os → NoDup (requests (run (new i cs v k exp st ar) os).1).
Proof.
  intros Hos. pose proof (run_requests (new i cs v k exp st ar) os []) as H.
  rewrite rev_append_rev, app_nil_r in H. rewrite <-(rev_involutive (requests _)).
  apply NoDup_ListNoDup, NoDup_rev, NoDup_ListNoDup, H; [done|apply remembers_new|constructor].
Qed.

Definition demo_keys : SessionKeys :=
  mk_keys [] [] (replicate 32 NUL) (replicate 32 NUL) (replicate 12 NUL) (replicate 12 NUL) [] [] [].
Definition demo_session (st : ReplayStrategy) : SessionInner :=
  new (replicate 16 NUL) X25519MlKem768Aes256GcmSha384 V2 demo_keys 1000 st None.

Lemma session_requests_NoDup_witness :
  NoDup (requests (run (demo_session StrictMonotonic)
    [@Trr () () () 10 5 (λ _ _, Ok ()); Trr 11 9 (λ _ _, Err ()); Trr 12 9 (λ _ _, Ok ()); Trr 13 5 (λ _ _, Ok ())]).1).
Proof.
  apply (session_requests_NoDup (replicate 16 NUL) X25519MlKem768Aes256GcmSha384 V2 demo_keys 1000 StrictMonotonic None).
  repeat constructor; vm_compute; discriminate.
Defined.

(** Response counters: in every history the responses of a session are
    sealed with the counters 1, 2, 3, ... in order, so under the session's
    write IV no AEAD nonce is used for two responses. *)
Theorem session_responses_sequential {E T R : Type} i cs v k exp st ar (os : list (@op E T R)) :
  length (server_write_iv k) = 12%nat →
  let rs := responses (run (new i cs v k exp st ar) os).1 in
  rs = seqZ 1 (Z.of_nat (length rs)) ∧ NoDup ((λ c, Nonce.build_aead_nonce c (server_write_iv k)) <$> rs).
Proof.
  intros Hiv rs. destruct (run_responses (new i cs v k exp st ar) os) as (n & Hrs & Hc & Hu); [by_compute|].
  simpl in Hc. subst rs. rewrite Hrs. simpl. split; [by rewrite length_seqZ, Nat2Z.id|].
  apply NoDup_fmap_2_strong; [|apply NoDup_seqZ]. unfold is_u64 in Hu.
  intros c1 c2 Hc1%elem_of_seqZ Hc2%elem_of_seqZ.
  apply Nonce.build_aead_nonce_inj; unfold is_u64; [done|lia..].
Qed.

Lemma session_responses_sequential_witness :
  responses (run (demo_session StrictMonotonic) [@Trs () () () 1 (λ _ _, ()); Trs 2 (λ _ _, ())]).1 = seqZ 1 2.
Proof.
  apply (session_responses_sequential (E := ()) (T := ()) (R := ()) (replicate 16 NUL) X25519MlKem768Aes256GcmSha384
    V2 demo_keys 1000 StrictMonotonic None [Trs 1 (λ _ _, ()); Trs 2 (λ _ _, ())]).
  reflexivity.
Defined.

(** The gate in front of the keys: an expired session, or one in a phase
    that does not permit trusted requests, refuses the request, never runs the
    closure (the answer does not depend on it) and does not change. *)
Theorem trr_gate {E T : Type} (now : Z) (s : SessionInner) (nonce : Z) (f : SessionKeys → Z → result E T) :
  expires_at s ≤ now ∨ allows_trusted_request (phase s) = false →
  with_keys_for_trr now s nonce f = (Err (if decide (expires_at s ≤ now) then SessionExpired else NotAttested), s).
Proof.
  intros Hg. unfold with_keys_for_trr. destruct (decide (expires_at s ≤ now)); [done|].
  destruct Hg as [?| ->]; [lia|done].
Qed.

Lemma trr_gate_witness :
  with_keys_for_trr 1000 (demo_session StrictMonotonic) 1 (λ _ _, @Ok () () ()) =
    (Err SessionExpired, demo_session StrictMonotonic).
Proof. apply (trr_gate 1000 (demo_session StrictMonotonic) 1). left. by_compute. Defined.

(** The rollback of the strict strategy does not restore the previous value:
    after a request with nonce [n] whose authentication failed, every nonce
    below [n] is refused, including those that the session would have accepted
    before; one forged request with a large nonce locks out the genuine
    client. *)
Theorem strict_rollback_locks_out {E T : Type} (now now' : Z) (s : SessionInner) (n m : Z)
    (forged genuine : SessionKeys → Z → result E T) :
  replay_strategy s = StrictMonotonic → now < expires_at s → now' < expires_at s →
  allows_trusted_request (phase s) = true → client_counter s < u64_max →
  is_ok (forged (keys s) (client_counter s)) = false → is_ok (genuine (keys s) (client_counter s)) = true →
  0 ≤ strict_last_seen s < m → m < n →
  is_ok (with_keys_for_trr now' s m genuine).1 = true ∧
  (with_keys_for_trr now' (with_keys_for_trr now s n forged).2 m genuine).1 = Err ReplayRejected.
Proof.
  intros Hst Hexp Hexp' Hph Hc Hf Hg Hm Hmn. split.
  - rewrite with_keys_strict by done || lia. by destruct (genuine _ _).
  - rewrite (with_keys_strict now s n) by done || lia. destruct (forged _ _); [done|].
    unfold with_keys_for_trr, replay_check. simpl. rewrite decide_False by lia. rewrite Hph, Hst. simpl.
    unfold saturating_sub64. rewrite decide_True; [done|]. case_decide; lia.
Qed.

Lemma strict_rollback_locks_out_witness :
  (with_keys_for_trr 11 (with_keys_for_trr 10 (demo_session StrictMonotonic) u64_max (λ _ _, @Err () () ())).2
    1 (λ _ _, @Ok () () ())).1 = Err ReplayRejected.
Proof.
  apply (strict_rollback_locks_out 10 11 (demo_session StrictMonotonic) u64_max 1
    (λ _ _, Err ()) (λ _ _, Ok ())); try reflexivity; by_compute.
Defined.

(** Durable round trip of a sliding-window session: keys, identity, phase and
    counters survive, the restored guard remembers exactly the same accepted
    nonces, and the session keeps its remaining lifetime, less the time that
    passed between export and import. *)
Theorem durable_round_trip (now now_sys now' now_sys' : Z) (s : SessionInner) (w : Z) (seen : list Z) :
  replay_strategy s = SlidingWindow w → remembers s seen → now_sys ≤ now_sys' →
  let s' := from_durable now' now_sys' (export_durable now now_sys s) in
  remembers s' seen ∧ replay_guard s' = replay_guard s ∧
  id s' = id s ∧ cipher_suite s' = cipher_suite s ∧ version s' = version s ∧ phase s' = phase s ∧
  keys s' = keys s ∧ client_counter s' = client_counter s ∧ server_counter s' = server_counter s ∧
  attestation_result s' = attestation_result s ∧
  expires_at s' - now' = Z.max 0 (Z.max 0 (expires_at s - now) - (now_sys' - now_sys)).
Proof.
  intros Hst Hrem Hsys s'. unfold remembers in Hrem. rewrite Hst in Hrem.
  assert (replay_guard s' = replay_guard s) as Hg.
  { destruct Hrem as ((Hlen & _) & _). unfold s', from_durable, export_durable. simpl.
    change (Z.to_nat SESSION_W) with 64%nat in Hlen. rewrite take_ge, Hlen, app_nil_r by lia.
    by destruct (replay_guard s). }
  split; [unfold remembers; by rewrite Hg|]. split_and!; try done.
  unfold s', from_durable, export_durable. simpl. repeat case_decide; lia.
Qed.

Lemma durable_round_trip_witness :
  let s' := from_durable 70 505 (export_durable 10 500 (demo_session default_strategy)) in
  expires_at s' - 70 = Z.max 0 (Z.max 0 (1000 - 10) - (505 - 500)).
Proof.
  apply (durable_round_trip 10 500 70 505 (demo_session default_strategy) 64 []);
    [reflexivity|apply remembers_new|by_compute].
Defined.

(** A strict session does not survive the round trip: it is restored as a
    sliding-window session with an empty window, so every nonce that it had
    accepted is accepted again. *)
Theorem durable_strict_replays {E T : Type} i cs v k exp ar (now now_e now_sys now' now_sys' now'' n : Z)
    (f : SessionKeys → Z → result E T) :
  now < exp → 0 < n → is_ok (f k 1) = true → is_ok (f k 2) = true →
  let s1 := (with_keys_for_trr now (new i cs v k exp StrictMonotonic ar) n f).2 in
  let s2 := from_durable now' now_sys' (export_durable now_e now_sys s1) in
  now'' < expires_at s2 →
  (with_keys_for_trr now'' s1 n f).1 = (if decide (exp ≤ now'') then Err SessionExpired else Err ReplayRejected) ∧
  (with_keys_for_trr now'' s2 n f).1 = Ok (f k 2).
Proof.
  intros Hexp Hn Hf1 Hf2. rewrite with_keys_strict by done || (simpl; unfold u64_max; lia).
  change (f (keys _) (client_counter _)) with (f k 1). destruct (f k 1); [|done].
  intros s1 s2 Hexp2. split.
  - unfold with_keys_for_trr, replay_check. simpl. case_decide; [done|]. simpl. by rewrite decide_True.
  - unfold with_keys_for_trr. rewrite decide_False by lia. unfold replay_check.
    assert (ReplayGuard.check SESSION_W (replay_guard s2) n = Ok ()) as Hc.
    { unfold ReplayGuard.check. rewrite decide_False by lia.
      rewrite decide_True; [done|]. change (ReplayGuard.highest (replay_guard s2)) with 0. lia. }
    change (replay_strategy s2) with (SlidingWindow 64). rewrite Hc.
    change (f (keys s2) (client_counter s2)) with (f k 2). by destruct (f k 2).
Qed.

Lemma durable_strict_replays_witness :
  let s1 := (with_keys_for_trr 10 (demo_session StrictMonotonic) 7 (λ _ _, @Ok () () ())).2 in
  (with_keys_for_trr 40 (from_durable 30 520 (export_durable 20 510 s1)) 7 (λ _ _, @Ok () () ())).1 = Ok (Ok ()).
Proof.
  apply (durable_strict_replays (replicate 16 NUL) X25519MlKem768Aes256GcmSha384 V2 demo_keys 1000 None
    10 20 510 30 520 40 7 (λ _ _, @Ok () () ())); try reflexivity; by_compute.
Defined.

End properties.
