(* ===== verification/Ticket.v ===== *)
(** * Resumption tickets

    [crates/openhttpa-core/src/session/ticket.rs]: the ticket key with its nonce
    counter and the engine that seals and unseals session state, with one
    rotation generation of fallback; and the file-backed engine of
    [crates/openhttpa-server/src/ticket_engine_fs.rs].

    The serialisers (postcard for the ticket, JSON for the key file) are classes
    of an encoder and a decoder with the round-trip law.  Key generation draws
    from the system's entropy source, so the drawn key is an argument. *)

From S2P Require Import Prelude Crypto Proto Aead KeySchedule Attestation Session.
From stdpp Require Import options.

#[local] Open Scope Z_scope.

(** [postcard::to_allocvec] and [postcard::from_bytes]. *)
Class StateCodec : Type := {
  encode_state : DurableSessionState → option bytes;
  decode_state : bytes → option DurableSessionState;
}.
Class StateCodecLaws (C : StateCodec) : Prop := {
  decode_encode_state st b : encode_state st = Some b → decode_state b = Some st;
}.

Module TicketKey.

Record t : Type := mk { key : bytes; counter : Z }.

Definition from_parts (k : bytes) (c : Z) : t := mk k c.
Definition to_parts (k : t) : bytes * Z := (key k, counter k).
Definition generate (entropy : bytes) : t := mk entropy 1.

(** [fetch_add] wraps around. *)
Definition next_nonce (k : t) : Z * t := (counter k, mk (key k) (wrap64 (counter k + 1))).

End TicketKey.

Module TicketEngine.

Record t : Type := mk { current_key : TicketKey.t; previous_key : option TicketKey.t }.

Definition new (k : TicketKey.t) : t := mk k None.
Definition from_parts (c : TicketKey.t) (p : option TicketKey.t) : t := mk c p.
Definition to_parts (e : t) : TicketKey.t * option TicketKey.t := (current_key e, previous_key e).
Definition rotate (entropy : bytes) (e : t) : t := mk (TicketKey.generate entropy) (Some (current_key e)).

(** Four zero bytes, then the counter. *)
Definition ticket_nonce (counter : Z) : bytes := replicate 4 (u8_of 0) ++ u64_be counter.

Section ops.
Context `{AP : AeadPrim} `{SC : StateCodec}.

Definition seal_session (e : t) (st : DurableSessionState) (lifetime_secs : Z) : result AeadError SessionTicket * t :=
  match encode_state st with
  | None => (Err (IoError "ticket serialisation failed"), e)
  | Some data =>
      let '(counter, k) := TicketKey.next_nonce (current_key e) in
      let e := mk k (previous_key e) in
      let nonce := ticket_nonce counter in
      (key ← AeadKey.new Aes256Gcm (TicketKey.key k);
       ct ← AeadKey.seal_in_place key nonce [] data;
       Ok {| ticket := nonce ++ ct;
             lifetime := (if decide (lifetime_secs ≤ u32_max) then lifetime_secs else u32_max);
             ticket_cipher_suite := d_cipher_suite st;
             rtt0_eligible := true |}, e)
  end.

Definition deserialise (pt : bytes) : result AeadError DurableSessionState :=
  ok_or (decode_state pt) (IoError "ticket deserialisation failed").

Definition unseal_session (now_sys : Z) (e : t) (blob : bytes) : result AeadError DurableSessionState :=
  if decide (length blob < NONCE_LEN)%nat then Err (IoError "ticket too short")
  else
    let nonce_raw := take NONCE_LEN blob in
    let ciphertext := drop NONCE_LEN blob in
    nonce ← aead_nonce_from_slice nonce_raw;
    key ← AeadKey.new Aes256Gcm (TicketKey.key (current_key e));
    st ← match AeadKey.open_in_place key nonce [] ciphertext with
         | Ok pt => deserialise pt
         | Err _ =>
             match previous_key e with
             | Some prev =>
                 key ← AeadKey.new Aes256Gcm (TicketKey.key prev);
                 pt ← AeadKey.open_in_place key nonce [] ciphertext;
                 deserialise pt
             | None => Err OpenFailed
             end
         end;
    if decide (d_expires_at st < now_sys) then Err (IoError "ticket expired") else Ok st.

(** A run of seals. *)
Fixpoint seal_run (e : t) (sts : list (DurableSessionState * Z)) : list (result AeadError SessionTicket) * t :=
  match sts with
  | [] => ([], e)
  | (st, l) :: sts =>
      let '(r, e) := seal_session e st l in
      let '(rs, e) := seal_run e sts in
      (r :: rs, e)
  end.
Definition ticket_nonces (rs : list (result AeadError SessionTicket)) : list bytes :=
  omap (λ r, (λ tk, take NONCE_LEN (ticket tk)) <$> result_ok r) rs.

Definition wf (e : t) : Prop :=
  length (TicketKey.key (current_key e)) = 32%nat ∧
  match previous_key e with Some p => length (TicketKey.key p) = 32%nat | None => True end.

Lemma length_ticket_nonce c : length (ticket_nonce c) = NONCE_LEN.
Proof. unfold ticket_nonce. by wire_len. Qed.
Lemma ticket_nonce_inj c1 c2 : is_u64 c1 → is_u64 c2 → ticket_nonce c1 = ticket_nonce c2 → c1 = c2.
Proof. intros ?? Heq. apply (inj (app _)) in Heq. by apply u64_be_inj. Qed.

Context {AL : AeadLaws AP} {SL : StateCodecLaws SC}.

Lemma new_key_ok k : length k = 32%nat → AeadKey.new Aes256Gcm k = Ok (AeadKey.mk k Aes256Gcm).
Proof using AL. intros. apply AeadKey.new_wf. done. Qed.

(** What a successful seal produced. *)
Lemma seal_session_Ok e st l tk e' :
  seal_session e st l = (Ok tk, e') →
  ∃ data ct, encode_state st = Some data ∧
    AeadKey.new Aes256Gcm (TicketKey.key (current_key e)) = Ok (AeadKey.mk (TicketKey.key (current_key e)) Aes256Gcm) ∧
    AeadKey.seal_in_place (AeadKey.mk (TicketKey.key (current_key e)) Aes256Gcm)
      (ticket_nonce (TicketKey.counter (current_key e))) [] data = Ok ct ∧
    ticket tk = ticket_nonce (TicketKey.counter (current_key e)) ++ ct ∧
    TicketKey.key (current_key e') = TicketKey.key (current_key e) ∧
    TicketKey.counter (current_key e') = wrap64 (TicketKey.counter (current_key e) + 1) ∧
    previous_key e' = previous_key e.
Proof using AL.
  unfold seal_session, TicketKey.next_nonce. destruct (encode_state st) as [data|]; [|done].
  intros Heq. injection Heq as Hr <-. inv_ok. simpl in *. apply AeadKey.new_wf in H as Hk. destruct Hk as [-> Hk].
  exists data, x0. by split_and!.
Qed.

Lemma unseal_split now_sys e n ct :
  length n = NONCE_LEN → length (TicketKey.key (current_key e)) = 32%nat →
  unseal_session now_sys e (n ++ ct) =
    (st ← match AeadKey.open_in_place (AeadKey.mk (TicketKey.key (current_key e)) Aes256Gcm) n [] ct with
          | Ok pt => deserialise pt
          | Err _ =>
              match previous_key e with
              | Some prev =>
                  key ← AeadKey.new Aes256Gcm (TicketKey.key prev);
                  pt ← AeadKey.open_in_place key n [] ct;
                  deserialise pt
              | None => Err OpenFailed
              end
          end;
     if decide (d_expires_at st < now_sys) then Err (IoError "ticket expired") else Ok st).
Proof using AL.
  intros Hn Hk. unfold unseal_session. rewrite decide_False by (rewrite length_app; lia).
  rewrite take_app_le, take_ge, drop_app_le, drop_ge, app_nil_l by lia.
  unfold aead_nonce_from_slice. rewrite decide_True by done. cbn [mbind result_bind].
  by rewrite new_key_ok.
Qed.

Lemma ticket_run_counters e sts :
  is_u64 (TicketKey.counter (current_key e)) →
  TicketKey.counter (current_key e) + Z.of_nat (length sts) ≤ u64_max →
  ∃ cs, ticket_nonces (seal_run e sts).1 = ticket_nonce <$> cs ∧ StronglySorted Z.lt cs ∧
    Forall (λ c, TicketKey.counter (current_key e) ≤ c ≤ u64_max) cs.
Proof using AL.
  revert e. induction sts as [|[st l] sts IH]; intros e [Hlo Hhi] Hle; cbn [seal_run length] in *.
  { exists []. repeat constructor. }
  destruct (seal_session e st l) as [r e1] eqn:Hs.
  assert (TicketKey.counter (current_key e) ≤ TicketKey.counter (current_key e1) ∧
          TicketKey.counter (current_key e1) ≤ TicketKey.counter (current_key e) + 1) as [Hc1 Hc2].
  { unfold seal_session, TicketKey.next_nonce in Hs. destruct (encode_state st); simplify_eq/=; [|lia].
    rewrite wrap64_small; unfold is_u64; lia. }
  destruct (IH e1) as (cs & Hcs & Hsort & Hall); [unfold is_u64; lia|lia|].
  destruct (seal_run e1 sts) as [rs e2]. simpl in *.
  assert (Forall (λ c, TicketKey.counter (current_key e) ≤ c ≤ u64_max) cs) as Hall'.
  { eapply Forall_impl; [exact Hall|]. simpl. lia. }
  destruct r as [tk|]; [|by exists cs].
  apply seal_session_Ok in Hs as (data & ct & _ & _ & _ & Htk & _ & Hc & _).
  rewrite wrap64_small in Hc by (unfold is_u64; lia).
  exists (TicketKey.counter (current_key e) :: cs). simpl. rewrite Htk, Hcs.
  rewrite take_app_le, take_ge by (rewrite length_ticket_nonce; done).
  split_and!; [done| |constructor; [lia|done]]. constructor; [done|].
  eapply Forall_impl; [exact Hall|]. simpl. lia.
Qed.

End ops.
End TicketEngine.

(** ** The file-backed engine *)

Module FileTicketEngine.

Inductive TicketEngineError : Type := Io | Corrupt.

(** The key file: absent, unparsable, or the [EngineState] it holds. *)
Inductive key_file : Type :=
| NoFile
| CorruptFile
| EngineState (current : bytes * Z) (previous : option (bytes * Z)).

Record t : Type := mk { engine : TicketEngine.t; file : key_file }.

Definition key_of (p : bytes * Z) : TicketKey.t := TicketKey.from_parts p.1 p.2.

(** [persist]: written to a temporary file and renamed, so a failure leaves the
    old file. *)
Definition persist (io_ok : bool) (f : t) : bool * t :=
  if io_ok
  then let '(c, p) := TicketEngine.to_parts (engine f) in
       (true, mk (engine f) (EngineState (TicketKey.to_parts c) (TicketKey.to_parts <$> p)))
  else (false, f).

Definition new (entropy : bytes) (io_ok : bool) (f : key_file) : result TicketEngineError t :=
  match f with
  | NoFile =>
      let '(ok, this) := persist io_ok (mk (TicketEngine.new (TicketKey.generate entropy)) f) in
      if ok then Ok this else Err Io
  | CorruptFile => if io_ok then Err Corrupt else Err Io
  | EngineState c p =>
      if io_ok then Ok (mk (TicketEngine.from_parts (key_of c) (key_of <$> p)) f) else Err Io
  end.

Definition rotate (entropy : bytes) (io_ok : bool) (f : t) : bool * t :=
  persist io_ok (mk (TicketEngine.rotate entropy (engine f)) (file f)).

(** Sealing through [engine()]: the file is not touched. *)
Definition seal `{AeadPrim} `{StateCodec} (f : t) (st : DurableSessionState) (l : Z) : result AeadError SessionTicket * t :=
  let '(r, e) := TicketEngine.seal_session (engine f) st l in (r, mk e (file f)).

End FileTicketEngine.

(** ** Properties *)

(** Tickets round trip: what an engine sealed it unseals, until the state in
    it expires; after one key rotation it still does (through the previous
    key), provided the fresh key does not by accident authenticate the old
    ciphertext. *)
Theorem ticket_round_trip {AP : AeadPrim} {AL : AeadLaws AP} {SC : StateCodec} {SL : StateCodecLaws SC}
    (e e' : TicketEngine.t) (st : DurableSessionState) (l now_sys : Z) (tk : SessionTicket) (fresh : bytes) :
  TicketEngine.seal_session e st l = (Ok tk, e') → length fresh = 32%nat →
  (∀ key, AeadKey.new Aes256Gcm fresh = Ok key →
     is_ok (AeadKey.open_in_place key (take NONCE_LEN (ticket tk)) [] (drop NONCE_LEN (ticket tk))) = false) →
  let expected := if decide (d_expires_at st < now_sys) then Err (IoError "ticket expired") else Ok st in
  TicketEngine.unseal_session now_sys e' (ticket tk) = expected ∧
  TicketEngine.unseal_session now_sys (TicketEngine.rotate fresh e') (ticket tk) = expected.
Proof.
  intros Hseal Hlen Hfresh expected.
  apply TicketEngine.seal_session_Ok in Hseal as (data & ct & Henc & Hnew & Hct & Htk & Hk & _ & _).
  pose proof (TicketEngine.length_ticket_nonce (TicketKey.counter (TicketEngine.current_key e))) as Hn.
  set (n := TicketEngine.ticket_nonce _) in *. apply AeadKey.new_wf in Hnew as Hwf. destruct Hwf as [_ Hwf].
  unfold AeadKey.wf in Hwf. simpl in Hwf. apply AeadKey.open_seal_iff in Hct as Hopen. rewrite Htk in *.
  assert (TicketEngine.deserialise data = Ok st) as Hde.
  { unfold TicketEngine.deserialise. by erewrite decode_encode_state. }
  split.
  - rewrite TicketEngine.unseal_split by (rewrite ?Hk; done). rewrite Hk, Hopen, Hde. done.
  - rewrite TicketEngine.unseal_split by done. simpl.
    rewrite take_app_le, take_ge, drop_app_le, drop_ge, app_nil_l in Hfresh by lia.
    specialize (Hfresh _ (TicketEngine.new_key_ok _ Hlen)). destruct (AeadKey.open_in_place _ n [] ct); [done|].
    rewrite Hk, Hnew. simpl. rewrite Hopen. simpl. by rewrite Hde.
Qed.

Definition demo_state : DurableSessionState :=
  AttestSession.export_durable 0 0 (AttestSession.new (replicate 16 NUL) X25519MlKem768Aes256GcmSha384 Proto.V2
    (mk_keys [] [] [] [] [] [] [] [] []) 100 default_strategy None).
#[local] Instance demo_codec : StateCodec := {|
  encode_state st := if decide (st = demo_state) then Some (as_bytes "state") else None;
  decode_state b := if decide (b = as_bytes "state") then Some demo_state else None;
|}.
#[local] Instance demo_codec_laws : StateCodecLaws demo_codec.
Proof. split. simpl. intros st b. destruct (decide (st = demo_state)) as [->|]; [by intros [= <-]|done]. Qed.

Definition demo_engine : TicketEngine.t := TicketEngine.new (TicketKey.generate (replicate 32 (u8_of 1))).

Lemma ticket_round_trip_witness :
  ∃ tk e', TicketEngine.seal_session (AP := Toy.aead) demo_engine demo_state 10 = (Ok tk, e') ∧
  TicketEngine.unseal_session (AP := Toy.aead) 50 (TicketEngine.rotate (replicate 32 (u8_of 2)) e') (ticket tk) = Ok demo_state.
Proof.
  eexists _, _. split; [vm_compute; reflexivity|].
  eapply (ticket_round_trip (AP := Toy.aead) (AL := Toy.aead_laws) (SL := demo_codec_laws) demo_engine _ demo_state 10 50);
    [vm_compute; reflexivity|reflexivity|].
  intros key [= <-]. vm_compute. reflexivity.
Defined.

(** Only tickets sealed under a current or previous key unseal: a blob that
    unseals is a 12-byte nonce followed by exactly the ciphertext that sealing
    an encoding of the returned, unexpired state under one of the two keys
    gives. *)
Theorem unseal_sound {AP : AeadPrim} {AL : AeadLaws AP} {SC : StateCodec}
    (e : TicketEngine.t) (now_sys : Z) (blob : bytes) (st : DurableSessionState) :
  TicketEngine.unseal_session now_sys e blob = Ok st →
  now_sys ≤ d_expires_at st ∧
  ∃ k n pt, (k = TicketEngine.current_key e ∨ TicketEngine.previous_key e = Some k) ∧
    length n = NONCE_LEN ∧ decode_state pt = Some st ∧
    blob = n ++ drop NONCE_LEN blob ∧
    AeadKey.seal_in_place (AeadKey.mk (TicketKey.key k) Aes256Gcm) n [] pt = Ok (drop NONCE_LEN blob).
Proof.
  unfold TicketEngine.unseal_session. case_decide as Hlen; [done|]. intros H. inv_ok.
  unfold aead_nonce_from_slice in H. destruct (decide (length (take NONCE_LEN blob) = NONCE_LEN)) as [Hn|]; [|done].
  destruct (decide (d_expires_at x1 < now_sys)) as [|Hexp]; [done|]. inv_ok. split; [lia|].
  apply AeadKey.new_wf in H0 as [-> _].
  destruct (AeadKey.open_in_place _ _ _ _) as [pt|] eqn:Hopen.
  - exists (TicketEngine.current_key e), (take NONCE_LEN blob), pt. apply AeadKey.open_seal_iff in Hopen.
    unfold TicketEngine.deserialise in H1. inv_ok. split_and!; auto. by rewrite take_drop.
  - destruct (TicketEngine.previous_key e) as [prev|] eqn:Hprev; [|done]. inv_ok.
    apply AeadKey.new_wf in H as [-> _]. apply AeadKey.open_seal_iff in H0.
    unfold TicketEngine.deserialise in H1. inv_ok.
    eexists prev, (take NONCE_LEN blob), _. split_and!; eauto. by rewrite take_drop.
Qed.

Lemma unseal_sound_witness :
  0 ≤ d_expires_at demo_state.
Proof.
  destruct (TicketEngine.seal_session (AP := Toy.aead) demo_engine demo_state 10) as [[tk|] e'] eqn:Hs;
    vm_compute in Hs; [|discriminate Hs].
  apply (unseal_sound (AP := Toy.aead) (AL := Toy.aead_laws) demo_engine 0 (ticket tk) demo_state).
  injection Hs as <- <-. vm_compute. reflexivity.
Defined.

(** Ticket nonces: in memory, an engine never seals two tickets under one
    nonce before its counter is exhausted. *)
Theorem ticket_nonces_NoDup {AP : AeadPrim} {AL : AeadLaws AP} {SC : StateCodec}
    (key : bytes) (sts : list (DurableSessionState * Z)) :
  1 + Z.of_nat (length sts) ≤ u64_max →
  NoDup (TicketEngine.ticket_nonces (TicketEngine.seal_run (TicketEngine.new (TicketKey.generate key)) sts).1).
Proof.
  intros Hle. destruct (TicketEngine.ticket_run_counters (TicketEngine.new (TicketKey.generate key)) sts)
    as (cs & -> & Hs & Hall); [by_compute|done|].
  apply NoDup_fmap_2_strong; [|by apply StronglySorted_lt_NoDup].
  rewrite Forall_forall in Hall. simpl in Hall.
  intros c1 c2 Hc1%Hall Hc2%Hall. apply TicketEngine.ticket_nonce_inj; unfold is_u64; lia.
Qed.

Lemma ticket_nonces_NoDup_witness :
  NoDup (TicketEngine.ticket_nonces
    (TicketEngine.seal_run (AP := Toy.aead) demo_engine [(demo_state, 10); (demo_state, 10)]).1).
Proof.
  apply (ticket_nonces_NoDup (AP := Toy.aead) (AL := Toy.aead_laws) (replicate 32 (u8_of 1))).
  by_compute.
Defined.

(** The file-backed engine reuses nonces after a restart: sealing does not
    persist the counter, so the first ticket sealed by the restarted server has
    the nonce of the first ticket sealed before, under the same key. *)
Theorem file_engine_reuses_nonces {AP : AeadPrim} {AL : AeadLaws AP} {SC : StateCodec}
    (entropy entropy' : bytes) (f f1 f1' f2 : FileTicketEngine.t) st1 l1 st2 l2 tk1 tk2 :
  FileTicketEngine.new entropy true FileTicketEngine.NoFile = Ok f →
  FileTicketEngine.seal f st1 l1 = (Ok tk1, f1) →
  FileTicketEngine.new entropy' true (FileTicketEngine.file f1) = Ok f1' →
  FileTicketEngine.seal f1' st2 l2 = (Ok tk2, f2) →
  take NONCE_LEN (ticket tk1) = take NONCE_LEN (ticket tk2) ∧
  TicketKey.key (TicketEngine.current_key (FileTicketEngine.engine f1)) =
    TicketKey.key (TicketEngine.current_key (FileTicketEngine.engine f2)).
Proof.
  intros [= <-] H1 H2 H3. unfold FileTicketEngine.seal in H1, H3. simpl in H1.
  destruct (TicketEngine.seal_session _ st1 l1) as [r1 e1] eqn:Hs1. simplify_eq. simpl in H2.
  injection H2 as <-. simpl in H3. destruct (TicketEngine.seal_session _ st2 l2) as [r2 e2] eqn:Hs2. simplify_eq.
  apply TicketEngine.seal_session_Ok in Hs1 as (? & ? & _ & _ & _ & Ht1 & Hk1 & _),
    Hs2 as (? & ? & _ & _ & _ & Ht2 & Hk2 & _).
  cbn [FileTicketEngine.engine]. rewrite Hk1, Hk2, Ht1, Ht2.
  by rewrite !take_app_le, !take_ge by (rewrite TicketEngine.length_ticket_nonce; done).
Qed.

Definition demo_file (counter : Z) : FileTicketEngine.t :=
  FileTicketEngine.mk (TicketEngine.new (TicketKey.mk (replicate 32 (u8_of 1)) counter))
    (FileTicketEngine.EngineState (replicate 32 (u8_of 1), 1) None).
Definition demo_ticket : SessionTicket :=
  mk_session_ticket (TicketEngine.ticket_nonce 1 ++ as_bytes "state" ++
    Toy.tag (replicate 32 (u8_of 1)) (TicketEngine.ticket_nonce 1) []) 10 X25519MlKem768Aes256GcmSha384 true.

Lemma file_engine_reuses_nonces_witness :
  take NONCE_LEN (ticket demo_ticket) = take NONCE_LEN (ticket demo_ticket) ∧
  TicketKey.key (TicketEngine.current_key (FileTicketEngine.engine (demo_file 2))) =
    TicketKey.key (TicketEngine.current_key (FileTicketEngine.engine (demo_file 2))).
Proof.
  apply (file_engine_reuses_nonces (AP := Toy.aead) (AL := Toy.aead_laws) (replicate 32 (u8_of 1)) []
    (demo_file 1) (demo_file 2) (demo_file 1) (demo_file 2) demo_state 10 demo_state 10 demo_ticket demo_ticket);
    vm_compute; reflexivity.
Defined.
