(* ===== verification/KeyExchange.v ===== *)
(** * Hybrid key exchange

    [crates/openhttpa-crypto/src/key_exchange.rs]: the X25519 + ML-KEM-768 pair,
    the combiner of the two shared secrets, and the server and client paths.
    The primitives (aws-lc-rs agreement, liboqs ML-KEM, HKDF-SHA-256) are the
    class [KexPrim]; the randomness of key generation and encapsulation is an
    argument. *)

From S2P Require Import Prelude Crypto Proto KeySchedule.
From stdpp Require Import options.

#[local] Open Scope Z_scope.

Inductive KeyExchangeError : Type :=
| KeyGeneration
| Agreement
| InvalidPeerKey
| Pqc (msg : string).
#[export] Instance KeyExchangeError_eq_dec : EqDecision KeyExchangeError.
Proof. solve_decision. Defined.

#[export] Instance key_exchange_error_display : Display KeyExchangeError := λ e,
  match e with
  | KeyGeneration => "key generation failed"
  | Agreement => "key agreement failed"
  | InvalidPeerKey => "invalid peer public key"
  | Pqc m => "PQC error: " +:+ m
  end.

Class KexPrim : Type := {
  (** the key pair that a seed expands to *)
  x25519_public : (*private*) bytes → bytes;
  x25519_agree : (*private*) bytes → (*peer public*) bytes → option bytes;
  mlkem_encap_key : (*decap key*) bytes → bytes;
  mlkem_encap : (*peer encap key*) bytes → (*randomness*) bytes → option ((*secret*) bytes * (*ciphertext*) bytes);
  mlkem_decap : (*decap key*) bytes → (*ciphertext*) bytes → option bytes;
  hkdf_sha256 : (*salt*) bytes → (*ikm*) bytes → (*info*) bytes → nat → option bytes;
}.

Class KexLaws (P : KexPrim) : Prop := {
  (** Diffie-Hellman commutes *)
  x25519_comm a b s :
    x25519_agree a (x25519_public b) = Some s → x25519_agree b (x25519_public a) = Some s;
  x25519_agree_length a p s : x25519_agree a p = Some s → length p = 32%nat ∧ length s = 32%nat;
  x25519_public_length a : length (x25519_public a) = 32%nat;
  (** decapsulation inverts encapsulation *)
  mlkem_correct d r s ct : mlkem_encap (mlkem_encap_key d) r = Some (s, ct) → mlkem_decap d ct = Some s;
  mlkem_encap_length ek r s ct :
    mlkem_encap ek r = Some (s, ct) → length ek = 1184%nat ∧ length s = 32%nat ∧ length ct = 1088%nat;
  hkdf_sha256_some salt ikm info len :
    (len ≤ 255 * 32)%nat → ∃ okm, hkdf_sha256 salt ikm info len = Some okm ∧ length okm = len;
}.

Record KeyShare : Type := mk_share { ecdhe_public : bytes; mlkem_public : bytes }.

Module HybridKemPair.

(** The two private halves; the public ones are computed from them. *)
Record t : Type := mk { ecdhe : bytes; mlkem : bytes }.

Section ops.
Context `{KP : KexPrim}.

(** [generate]: the two key generations, each of which may fail. *)
Definition generate (ecdhe mlkem : option bytes) : result KeyExchangeError t :=
  e ← ok_or ecdhe KeyGeneration;
  m ← ok_or mlkem (Pqc "KEM key generation failed");
  Ok (mk e m).

Definition public_key_share (p : t) : KeyShare :=
  mk_share (x25519_public (ecdhe p)) (mlkem_encap_key (mlkem p)).

Definition LABEL : bytes := as_bytes "openhttpa hybrid kem v1".

(** [encode_lengthed] panics on a field that does not fit its length prefix. *)
Definition lengthed_ok (b : bytes) : bool := bool_decide (Z.of_nat (length b) < 65536).
Definition encode_lengthed (b : bytes) : bytes := len_prefixed 2 b.

Definition combiner_ikm (ecdhe_ss mlkem_ss ecdhe_pk_client ecdhe_pk_server mlkem_ek_client mlkem_ct : bytes) : bytes :=
  ecdhe_ss ++ mlkem_ss ++ encode_lengthed LABEL ++ encode_lengthed ecdhe_pk_client ++
  encode_lengthed ecdhe_pk_server ++ encode_lengthed mlkem_ek_client ++ encode_lengthed mlkem_ct.

(** [HybridSharedSecret::combine] *)
Definition combine (ecdhe_ss mlkem_ss ecdhe_pk_client ecdhe_pk_server mlkem_ek_client mlkem_ct : bytes)
    : outcome (result KeyExchangeError bytes) :=
  if forallb lengthed_ok [LABEL; ecdhe_pk_client; ecdhe_pk_server; mlkem_ek_client; mlkem_ct] then
    Returns (ok_or (hkdf_sha256 (replicate 32 NUL)
      (combiner_ikm ecdhe_ss mlkem_ss ecdhe_pk_client ecdhe_pk_server mlkem_ek_client mlkem_ct)
      (as_bytes "combined") 32) Agreement)
  else Panics.

Definition server_combine (p : t) (rand : bytes) (client_share : KeyShare)
    : outcome (result KeyExchangeError (bytes * bytes)) :=
  match x25519_agree (ecdhe p) (ecdhe_public client_share) with
  | None => Returns (Err Agreement)
  | Some ecdhe_ss =>
      match mlkem_encap (mlkem_public client_share) rand with
      | None => Returns (Err (Pqc "KEM encapsulation failed"))
      | Some (mlkem_ss, ct) =>
          match combine ecdhe_ss mlkem_ss (ecdhe_public client_share) (x25519_public (ecdhe p))
                        (mlkem_public client_share) ct with
          | Panics => Panics
          | Returns r => Returns (combined ← r; Ok (combined, ct))
          end
      end
  end.

Definition client_combine (p : t) (server_share : KeyShare) (mlkem_ciphertext : bytes)
    : outcome (result KeyExchangeError bytes) :=
  match x25519_agree (ecdhe p) (ecdhe_public server_share) with
  | None => Returns (Err Agreement)
  | Some ecdhe_ss =>
      match mlkem_decap (mlkem p) mlkem_ciphertext with
      | None => Returns (Err (Pqc "KEM decapsulation failed"))
      | Some mlkem_ss =>
          combine ecdhe_ss mlkem_ss (x25519_public (ecdhe p)) (ecdhe_public server_share)
                  (mlkem_encap_key (mlkem p)) mlkem_ciphertext
      end
  end.

Context {KL : KexLaws KP}.

Lemma combine_total e m pc ps ek ct :
  forallb lengthed_ok [LABEL; pc; ps; ek; ct] = true →
  ∃ s, combine e m pc ps ek ct = Returns (Ok s) ∧ length s = 32%nat.
Proof using KL.
  intros Hl. unfold combine. rewrite Hl.
  destruct (hkdf_sha256_some (replicate 32 NUL) (combiner_ikm e m pc ps ek ct) (as_bytes "combined") 32)
    as (okm & -> & Hlen); [lia|]. by exists okm.
Qed.

Lemma combine_length e m pc ps ek ct s : combine e m pc ps ek ct = Returns (Ok s) → length s = 32%nat.
Proof using KL.
  unfold combine. destruct (forallb _ _); [|done].
  destruct (hkdf_sha256_some (replicate 32 NUL) (combiner_ikm e m pc ps ek ct) (as_bytes "combined") 32)
    as (okm & -> & Hlen); [lia|]. by intros [= <-].
Qed.

(** The client uses only the classical half of the server's share. *)
Lemma agreement client server rand secret ct mlkem_public :
  server_combine server rand (public_key_share client) = Returns (Ok (secret, ct)) →
  client_combine client (mk_share (x25519_public (ecdhe server)) mlkem_public) ct = Returns (Ok secret).
Proof using KL.
  unfold server_combine, client_combine. simpl.
  destruct (x25519_agree _ _) as [e|] eqn:He; [|done].
  destruct (mlkem_encap _ _) as [[m ct']|] eqn:Hm; [|done].
  destruct (combine e m _ _ _ ct') as [[s|]|] eqn:Hc; [|done..]. intros [= <- <-].
  apply x25519_comm in He as ->. by pose proof (mlkem_correct _ _ _ _ Hm) as ->.
Qed.

Lemma server_secret_length p rand share secret ct :
  server_combine p rand share = Returns (Ok (secret, ct)) → length secret = 32%nat.
Proof using KL.
  unfold server_combine. destruct (x25519_agree _ _); [|done]. destruct (mlkem_encap _ _) as [[m ct']|]; [|done].
  destruct (combine _ _ _ _ _ _) as [[s|]|] eqn:Hc; [|done..]. intros [= <- <-]. by eapply combine_length.
Qed.

Lemma combiner_ikm_inj e m pc ps ek ct e' m' pc' ps' ek' ct' :
  length e = 32%nat → length m = 32%nat → length e' = 32%nat → length m' = 32%nat →
  forallb lengthed_ok [pc; ps; ek; ct] = true → forallb lengthed_ok [pc'; ps'; ek'; ct'] = true →
  combiner_ikm e m pc ps ek ct = combiner_ikm e' m' pc' ps' ek' ct' →
  e = e' ∧ m = m' ∧ pc = pc' ∧ ps = ps' ∧ ek = ek' ∧ ct = ct'.
Proof.
  intros He Hm He' Hm' Hl Hl'. unfold combiner_ikm, encode_lengthed, lengthed_ok in *.
  simpl in Hl, Hl'. rewrite !andb_true_iff, !bool_decide_eq_true in Hl, Hl'. destruct_and!. intros Heq.
  apply app_fixed_inj in Heq as [-> Heq]; [|lia]. apply app_fixed_inj in Heq as [-> Heq]; [|lia].
  apply (inj (app _)) in Heq. rewrite <-(app_nil_r (len_prefixed 2 ct)), <-(app_nil_r (len_prefixed 2 ct')) in Heq.
  repeat (apply len_prefixed_inj in Heq as [-> Heq]; [|simpl; lia..]). done.
Qed.

End ops.
End HybridKemPair.

(** ** A toy instance *)

Module ToyKex.

#[export] Instance prim : KexPrim := {|
  x25519_public a := Toy.pad 32 a;
  x25519_agree a p :=
    if decide (length p = 32%nat) then Some (zip_with u8_xor (Toy.pad 32 a) p) else None;
  mlkem_encap_key d := Toy.pad 1184 d;
  mlkem_encap ek r := if decide (length ek = 1184%nat) then Some (Toy.pad 32 r, Toy.pad 1088 (Toy.pad 32 r)) else None;
  mlkem_decap d ct := Some (take 32 ct);
  hkdf_sha256 salt ikm info len :=
    if decide (len ≤ 255 * 32)%nat then Some (Toy.pad len (u64_be (Toy.fold_sum ikm))) else None;
|}.

Lemma zip_with_xor_comm l k : zip_with u8_xor l k = zip_with u8_xor k l.
Proof. revert k. induction l as [|x l IH]; intros [|y k]; simpl; [done..|]. by rewrite u8_xor_comm, IH. Qed.

#[export] Instance laws : KexLaws prim.
Proof.
  split; simpl.
  - intros a b s. rewrite !Toy.length_pad. simpl. by rewrite zip_with_xor_comm.
  - intros a p s. case_decide; [|done]. intros [= <-].
    rewrite length_zip_with, Toy.length_pad. split; [done|lia].
  - intros. apply Toy.length_pad.
  - intros d r s ct. case_decide; [|done]. intros [= <- <-]. f_equal.
    unfold Toy.pad at 1. rewrite take_take. rewrite take_app_le by (rewrite Toy.length_pad; lia).
    apply take_ge. by rewrite Toy.length_pad.
  - intros ek r s ct. case_decide; [|done]. intros [= <- <-]. by rewrite !Toy.length_pad.
  - intros. rewrite decide_True by done. eexists. split; [done|]. apply Toy.length_pad.
Qed.

End ToyKex.

(** Key agreement: when the server combines against a client's share, the
    client that holds the matching pair derives the same 32-byte secret from the
    server's share and ciphertext; neither side panics. *)
Theorem hybrid_agreement {KP : KexPrim} {KL : KexLaws KP} (client server : HybridKemPair.t) (rand secret ct : bytes) :
  HybridKemPair.server_combine server rand (HybridKemPair.public_key_share client) = Returns (Ok (secret, ct)) →
  HybridKemPair.client_combine client (HybridKemPair.public_key_share server) ct = Returns (Ok secret) ∧
  length secret = 32%nat.
Proof.
  intros Hs. split; [|by eapply HybridKemPair.server_secret_length]. by eapply HybridKemPair.agreement.
Qed.

Lemma hybrid_agreement_witness :
  ∃ s ct, HybridKemPair.client_combine (KP := ToyKex.prim) (HybridKemPair.mk (as_bytes "a") (as_bytes "b"))
    (HybridKemPair.public_key_share (KP := ToyKex.prim) (HybridKemPair.mk (as_bytes "c") (as_bytes "d"))) ct = Returns (Ok s).
Proof.
  destruct (HybridKemPair.server_combine (KP := ToyKex.prim) (HybridKemPair.mk (as_bytes "c") (as_bytes "d")) (as_bytes "r")
    (HybridKemPair.public_key_share (KP := ToyKex.prim) (HybridKemPair.mk (as_bytes "a") (as_bytes "b"))))
    as [[[s ct]|]|] eqn:Hs; [|vm_compute in Hs; discriminate Hs..].
  exists s, ct. apply (hybrid_agreement (KP := ToyKex.prim) (KL := ToyKex.laws) (HybridKemPair.mk (as_bytes "a") (as_bytes "b"))
    (HybridKemPair.mk (as_bytes "c") (as_bytes "d")) (as_bytes "r") s ct Hs).
Defined.

(** The server path never panics, whatever share the client sent: a share
    with a field too long for its length prefix has been refused by the
    agreement or the encapsulation before. *)
Theorem server_combine_no_panic {KP : KexPrim} {KL : KexLaws KP} (p : HybridKemPair.t) (rand : bytes) (share : KeyShare) :
  HybridKemPair.server_combine p rand share ≠ Panics.
Proof.
  unfold HybridKemPair.server_combine. destruct (x25519_agree _ _) as [e|] eqn:He; [|done].
  destruct (mlkem_encap _ _) as [[m ct]|] eqn:Hm; [|done].
  apply x25519_agree_length in He as [Hp _]. apply mlkem_encap_length in Hm as (Hek & _ & Hct).
  edestruct (HybridKemPair.combine_total e m (ecdhe_public share) (x25519_public (HybridKemPair.ecdhe p))
    (mlkem_public share) ct) as (s & -> & _); [|done].
  simpl. unfold HybridKemPair.lengthed_ok. rewrite Hp, Hek, Hct, x25519_public_length. done.
Qed.

Lemma server_combine_no_panic_witness :
  HybridKemPair.server_combine (KP := ToyKex.prim) (HybridKemPair.mk (as_bytes "c") (as_bytes "d")) (as_bytes "r")
    (mk_share (replicate 32 NUL) (as_bytes "short")) ≠ Panics.
Proof. apply (server_combine_no_panic (KL := ToyKex.laws)). Defined.

(** The combiner input is unambiguous: equal input key material means equal
    shared secrets, equal public keys of both sides, equal encapsulation key and
    equal ciphertext, so the combined secret is bound to all of them. *)
Theorem combiner_injective e m pc ps ek ct e' m' pc' ps' ek' ct' :
  length e = 32%nat → length m = 32%nat → length e' = 32%nat → length m' = 32%nat →
  forallb HybridKemPair.lengthed_ok [pc; ps; ek; ct] = true →
  forallb HybridKemPair.lengthed_ok [pc'; ps'; ek'; ct'] = true →
  HybridKemPair.combiner_ikm e m pc ps ek ct = HybridKemPair.combiner_ikm e' m' pc' ps' ek' ct' ↔
  e = e' ∧ m = m' ∧ pc = pc' ∧ ps = ps' ∧ ek = ek' ∧ ct = ct'.
Proof. intros. split; [by apply HybridKemPair.combiner_ikm_inj|naive_solver]. Qed.

Lemma combiner_injective_witness :
  let z := replicate 32 NUL in
  HybridKemPair.combiner_ikm z z (as_bytes "ab") (as_bytes "c") [] [] =
    HybridKemPair.combiner_ikm z z (as_bytes "a") (as_bytes "bc") [] [] ↔
  z = z ∧ z = z ∧ as_bytes "ab" = as_bytes "a" ∧ as_bytes "c" = as_bytes "bc" ∧ ([] : bytes) = [] ∧ ([] : bytes) = [].
Proof. intros z. apply combiner_injective; reflexivity. Defined.
