(* ===== verification/Pqc.v ===== *)
(** * Key pairs

    The wrappers around the key pairs of the crypto libraries: ML-KEM-768 and
    ML-DSA-65 over liboqs ([crates/openhttpa-crypto/src/pqc.rs]), ECDSA
    ([signature.rs]) and ephemeral Diffie-Hellman ([key_exchange.rs]) over aws-lc-rs.

    The libraries are classes of operations; the randomness they draw is a seed.  A
    wrapper that was dropped holds no secret key any more. *)

From S2P Require Import Prelude Codec Crypto Proto KeyExchange.
From stdpp Require Import options.

#[local] Open Scope Z_scope.

(** ** liboqs *)

Class Oqs : Type := {
  (** [Kem::new] and [Sig::new]: the algorithm may be compiled out *)
  kem_new : result string ();
  sig_new : result string ();
  kem_keypair : (*seed*) bytes → result string ((*public*) bytes * (*secret*) bytes);
  kem_public_key_from_bytes : bytes → option bytes;
  kem_ciphertext_from_bytes : bytes → option bytes;
  kem_encapsulate : (*seed*) bytes → (*public*) bytes → result string ((*ciphertext*) bytes * (*shared*) bytes);
  kem_decapsulate : (*secret*) bytes → (*ciphertext*) bytes → result string bytes;
  sig_keypair : (*seed*) bytes → result string ((*public*) bytes * (*secret*) bytes);
  sig_public_key_from_bytes : bytes → option bytes;
  sig_secret_key_from_bytes : bytes → option bytes;
  sig_signature_from_bytes : bytes → option bytes;
  sig_sign : (*message*) bytes → (*secret*) bytes → result string bytes;
  sig_verify : (*message*) bytes → (*signature*) bytes → (*public*) bytes → bool;
}.
(** The conversions from bytes check lengths and keep the bytes; decapsulation inverts
    encapsulation; a signature made with a secret key verifies under its public key. *)
Class OqsLaws (O : Oqs) : Prop := {
  kem_pk_id b pk : kem_public_key_from_bytes b = Some pk → pk = b;
  kem_keypair_pk seed pk sk : kem_keypair seed = Ok (pk, sk) → kem_public_key_from_bytes pk = Some pk;
  kem_ct_id b ct : kem_ciphertext_from_bytes b = Some ct → ct = b;
  kem_encap_ct seed pk ct ss : kem_encapsulate seed pk = Ok (ct, ss) → kem_ciphertext_from_bytes ct = Some ct;
  kem_correct seed pk sk r ct ss :
    kem_keypair seed = Ok (pk, sk) → kem_encapsulate r pk = Ok (ct, ss) → kem_decapsulate sk ct = Ok ss;
  sig_pk_id b pk : sig_public_key_from_bytes b = Some pk → pk = b;
  sig_sk_id b sk : sig_secret_key_from_bytes b = Some sk → sk = b;
  sig_id b s : sig_signature_from_bytes b = Some s → s = b;
  sig_keypair_from seed pk sk : sig_keypair seed = Ok (pk, sk) →
    sig_public_key_from_bytes pk = Some pk ∧ sig_secret_key_from_bytes sk = Some sk;
  sig_sign_from m sk s : sig_sign m sk = Ok s → sig_signature_from_bytes s = Some s;
  sig_correct seed pk sk m s : sig_keypair seed = Ok (pk, sk) → sig_sign m sk = Ok s → sig_verify m s pk = true;
}.

Inductive PqcError : Type :=
| KemKeyGen (m : string) | KemEncap (m : string) | KemDecap (m : string)
| SigKeyGen (m : string) | SignFailed (m : string) | VerifyFailed.
#[export] Instance pqc_error_display : Display PqcError := λ e,
  match e with
  | KemKeyGen m => "KEM key generation failed: " +:+ m
  | KemEncap m => "KEM encapsulation failed: " +:+ m
  | KemDecap m => "KEM decapsulation failed: " +:+ m
  | SigKeyGen m => "signature key generation failed: " +:+ m
  | SignFailed m => "signature operation failed: " +:+ m
  | VerifyFailed => "signature verification failed"
  end.

Module MlKemPair.
Section ops.
Context {O : Oqs}.

Record t : Type := mk { decap_key : option bytes; encap_key : bytes }.

Definition generate (seed : bytes) : result PqcError t :=
  _ ← map_err KemKeyGen kem_new;
  '(pk, sk) ← map_err KemKeyGen (kem_keypair seed);
  Ok (mk (Some sk) pk).
Definition public_encap_key (p : t) : bytes := encap_key p.
Definition encapsulate (seed peer_encap_key : bytes) : result PqcError (bytes * bytes) :=
  peer_key ← ok_or (kem_public_key_from_bytes peer_encap_key) (KemEncap "invalid peer encap key");
  '(ciphertext, shared_secret) ← map_err KemEncap (kem_encapsulate seed peer_key);
  Ok (shared_secret, ciphertext).
Definition decapsulate (p : t) (ciphertext : bytes) : result PqcError bytes :=
  ct ← ok_or (kem_ciphertext_from_bytes ciphertext) (KemDecap "invalid ciphertext");
  decap_key ← ok_or (decap_key p) (KemDecap "decap key already dropped");
  map_err KemDecap (kem_decapsulate decap_key ct).
(** [Drop] *)
Definition drop (p : t) : t := mk None (encap_key p).

End ops.
End MlKemPair.

Module MlDsaKeyPair.
Section ops.
Context {O : Oqs}.

Record t : Type := mk { secret_key : option bytes; public_key : bytes }.

Definition generate (seed : bytes) : result PqcError t :=
  _ ← map_err SigKeyGen sig_new;
  '(pk, sk) ← map_err SigKeyGen (sig_keypair seed);
  Ok (mk (Some sk) pk).
Definition from_bytes (public_key secret_key : bytes) : result PqcError t :=
  _ ← map_err SigKeyGen sig_new;
  _ ← ok_or (sig_public_key_from_bytes public_key) (SigKeyGen "malformed ML-DSA public key");
  secret ← ok_or (sig_secret_key_from_bytes secret_key) (SigKeyGen "malformed ML-DSA secret key");
  Ok (mk (Some secret) public_key).
Definition secret_key_bytes (p : t) : result PqcError bytes := ok_or (secret_key p) (SignFailed "secret key already dropped").
Definition sign (p : t) (message : bytes) : result PqcError bytes :=
  secret_key ← ok_or (secret_key p) (SignFailed "secret key already dropped");
  map_err SignFailed (sig_sign message secret_key).
Definition verify (public_key_bytes message signature : bytes) : result PqcError () :=
  _ ← map_err SigKeyGen sig_new;
  pk ← ok_or (sig_public_key_from_bytes public_key_bytes) VerifyFailed;
  s ← ok_or (sig_signature_from_bytes signature) VerifyFailed;
  if sig_verify message s pk then Ok () else Err VerifyFailed.
Definition drop (p : t) : t := mk None (public_key p).

End ops.
End MlDsaKeyPair.

(** ** aws-lc-rs *)

Inductive Curve : Type := X25519 | P256Curve | P384Curve.
Inductive SignatureError : Type := SigKeyGenFailed | SigSignFailed | SigVerifyFailed | SigInvalidKey.

Class AwsLc : Type := {
  (** [EphemeralPrivateKey::generate] and [compute_public_key] *)
  agree_generate : Curve → (*seed*) bytes → option bytes;
  agree_public : Curve → (*private*) bytes → option bytes;
  agree_ephemeral : Curve → (*private*) bytes → (*peer*) bytes → option bytes;
  (** [EcdsaKeyPair::generate_pkcs8], [from_pkcs8], [public_key], [sign], [verify] *)
  ecdsa_pkcs8 : Curve → (*seed*) bytes → option bytes;
  ecdsa_from_pkcs8 : Curve → bytes → option bytes;
  ecdsa_public : Curve → (*key pair*) bytes → bytes;
  ecdsa_sign : Curve → (*seed*) bytes → (*key pair*) bytes → (*message*) bytes → option bytes;
  ecdsa_verify : Curve → (*public*) bytes → (*message*) bytes → (*signature*) bytes → bool;
}.
Class AwsLcLaws (A : AwsLc) : Prop := {
  agree_comm c a b pa pb s : agree_public c a = Some pa → agree_public c b = Some pb →
    agree_ephemeral c a pb = Some s → agree_ephemeral c b pa = Some s;
  ecdsa_correct c k r m s : ecdsa_sign c r k m = Some s → ecdsa_verify c (ecdsa_public c k) m s = true;
}.

Module EcdhePair.
Section ops.
Context {A : AwsLc}.

Record t : Type := mk { private_key : bytes; public_key : bytes }.

(** [generate_x25519], [generate_p256] and [generate_p384] *)
Definition generate (c : Curve) (seed : bytes) : result KeyExchangeError t :=
  private_key ← ok_or (agree_generate c seed) KeyGeneration;
  public_key ← ok_or (agree_public c private_key) KeyGeneration;
  Ok (mk private_key public_key).
Definition agree (p : t) (c : Curve) (peer_pub_key_bytes : bytes) : result KeyExchangeError bytes :=
  ok_or (agree_ephemeral c (private_key p) peer_pub_key_bytes) Agreement.

End ops.
End EcdhePair.

Module EcdsaKeyPair.
Section ops.
Context {A : AwsLc}.

Record t : Type := mk { inner : bytes; public_key_der : bytes }.

Definition generate_inner (c : Curve) (seed : bytes) : result SignatureError t :=
  doc ← ok_or (ecdsa_pkcs8 c seed) SigKeyGenFailed;
  kp ← ok_or (ecdsa_from_pkcs8 c doc) SigInvalidKey;
  Ok (mk kp (ecdsa_public c kp)).
Definition generate_p256 : bytes → result SignatureError t := generate_inner P256Curve.
Definition generate_p384 : bytes → result SignatureError t := generate_inner P384Curve.
(** The key pair of the library knows its curve. *)
Definition sign (c : Curve) (p : t) (seed message : bytes) : result SignatureError bytes :=
  ok_or (ecdsa_sign c seed (inner p) message) SigSignFailed.
Definition verify (c : Curve) (public_key_bytes message signature : bytes) : result SignatureError () :=
  if ecdsa_verify c public_key_bytes message signature then Ok () else Err SigVerifyFailed.

End ops.
End EcdsaKeyPair.

(** ** Theorems *)

Section facts.
Context {O : Oqs} {OL : OqsLaws O}.

(** What one side encapsulates to a generated key, the owner of the key recovers; once
    the key is dropped nobody does. *)
Theorem kem_round_trip seed r p ss ct :
  MlKemPair.generate seed = Ok p → MlKemPair.encapsulate r (MlKemPair.public_encap_key p) = Ok (ss, ct) →
  MlKemPair.decapsulate p ct = Ok ss ∧ MlKemPair.decapsulate (MlKemPair.drop p) ct = Err (KemDecap "decap key already dropped").
Proof using OL.
  unfold MlKemPair.generate, MlKemPair.encapsulate, MlKemPair.decapsulate. intros Hg He.
  apply bind_Ok in Hg as ([] & _ & Hg). apply bind_Ok in Hg as ([pk sk] & Hk%map_err_Ok & [= <-]). cbn [MlKemPair.public_encap_key MlKemPair.encap_key] in He.
  apply bind_Ok in He as (pk' & Hpk%ok_or_Ok & He). apply bind_Ok in He as ([ct' ss'] & He%map_err_Ok & [= <- <-]).
  apply kem_pk_id in Hpk as ->. rewrite (kem_encap_ct _ _ _ _ He). cbn. by rewrite (kem_correct _ _ _ _ _ _ Hk He).
Qed.

(** A generated key pair survives the export and import of its bytes, and what it signs
    verifies under its public key. *)
Theorem mldsa_round_trip seed p m s :
  MlDsaKeyPair.generate seed = Ok p →
  (sk ← MlDsaKeyPair.secret_key_bytes p; MlDsaKeyPair.from_bytes (MlDsaKeyPair.public_key p) sk) = Ok p ∧
  (MlDsaKeyPair.sign p m = Ok s → MlDsaKeyPair.verify (MlDsaKeyPair.public_key p) m s = Ok ()) ∧
  MlDsaKeyPair.sign (MlDsaKeyPair.drop p) m = Err (SignFailed "secret key already dropped").
Proof using OL.
  unfold MlDsaKeyPair.generate. intros Hg. apply bind_Ok in Hg as ([] & Hn & Hg).
  apply bind_Ok in Hg as ([pk sk] & Hk%map_err_Ok & [= <-]). destruct (sig_keypair_from _ _ _ Hk) as [Hpk Hsk].
  unfold MlDsaKeyPair.from_bytes, MlDsaKeyPair.verify, MlDsaKeyPair.sign. cbn [MlDsaKeyPair.public_key MlDsaKeyPair.secret_key].
  rewrite Hn. cbn. rewrite Hpk, Hsk. cbn. split; [done|]. split; [|done]. intros Hs%map_err_Ok.
  rewrite (sig_sign_from _ _ _ Hs). cbn. by rewrite (sig_correct _ _ _ _ _ Hk Hs).
Qed.

End facts.

Section classical.
Context {A : AwsLc} {AL : AwsLcLaws A}.

Theorem ecdhe_agree c s1 s2 p1 p2 k :
  EcdhePair.generate c s1 = Ok p1 → EcdhePair.generate c s2 = Ok p2 →
  EcdhePair.agree p1 c (EcdhePair.public_key p2) = Ok k → EcdhePair.agree p2 c (EcdhePair.public_key p1) = Ok k.
Proof using AL.
  unfold EcdhePair.generate, EcdhePair.agree. intros H1 H2 H. inv_ok. cbn in *. apply ok_or_Ok.
  eapply agree_comm; eassumption.
Qed.
Theorem ecdsa_round_trip c s1 s2 p m s :
  EcdsaKeyPair.generate_inner c s1 = Ok p → EcdsaKeyPair.sign c p s2 m = Ok s →
  EcdsaKeyPair.verify c (EcdsaKeyPair.public_key_der p) m s = Ok ().
Proof using AL.
  unfold EcdsaKeyPair.generate_inner, EcdsaKeyPair.sign, EcdsaKeyPair.verify. intros H1 H2. inv_ok. cbn in *.
  by erewrite ecdsa_correct.
Qed.

End classical.

Module ToyOqs.

#[export] Instance oqs : Oqs := {|
  kem_new := Ok (); sig_new := Ok ();
  kem_keypair seed := Ok (seed, seed);
  kem_public_key_from_bytes b := Some b; kem_ciphertext_from_bytes b := Some b;
  kem_encapsulate r pk := Ok (r ++ pk, r);
  kem_decapsulate sk ct := Ok (take (length ct - length sk) ct);
  sig_keypair seed := Ok (seed, seed);
  sig_public_key_from_bytes b := Some b; sig_secret_key_from_bytes b := Some b; sig_signature_from_bytes b := Some b;
  sig_sign m sk := Ok (m ++ sk);
  sig_verify m s pk := bool_decide (s = m ++ pk);
|}.
#[export] Instance oqs_laws : OqsLaws oqs.
Proof.
  split; cbn; try (by naive_solver).
  - intros seed pk sk r ct ss [= <- <-] [= <- <-]. f_equal. rewrite length_app.
    replace (length r + length seed - length seed)%nat with (length r) by lia. apply take_app_length.
  - intros seed pk sk m s [= <- <-] [= <-]. by apply bool_decide_eq_true_2.
Qed.

End ToyOqs.
