(* ===== verification/Handshake.v ===== *)
(** * The attested handshake

    The server side is [crates/openhttpa-core/src/handshake.rs]: negotiation, key
    exchange, transcript, appraisal of the client's quotes, key derivation,
    server evidence.  The client side is [attest_handshake] of
    [crates/openhttpa-client/src/client.rs], from the parameters it draws to the
    session it creates from the server's answer.

    Randomness, clocks, the quoting service, the verifier, the policy and the
    revocation list are arguments.  The build without the [zk] feature is
    modelled. *)

From S2P Require Import Prelude Crypto Proto Attestation KeySchedule KeyExchange Session.
From stdpp Require Import options.

#[local] Open Scope Z_scope.

Definition HS_SERVER_PREFIX : bytes := as_bytes "openhttpa hs server".
Definition HS_CLIENT_PREFIX : bytes := as_bytes "openhttpa hs client".

Inductive SigAlg : Type := MlDsa65.

Inductive HandshakeError : Type :=
| NoCipherSuiteOverlap
| NoVersionOverlap
| KeyExchangeFailed (msg : string)
| KeyDerivation (msg : string)
| Serialisation (msg : string)
| AttestationRequired
| AttestationFailed (msg : string)
| HandshakeRevoked (msg : string)
| Policy (msg : string)
| Internal (msg : string).
#[export] Instance HandshakeError_eq_dec : EqDecision HandshakeError.
Proof. solve_decision. Defined.
#[export] Instance handshake_error_display : Display HandshakeError := λ e,
  match e with
  | NoCipherSuiteOverlap => "no mutually supported cipher suite"
  | NoVersionOverlap => "no mutually supported protocol version"
  | KeyExchangeFailed m => "key exchange error: " +:+ m
  | KeyDerivation m => "key derivation error: " +:+ m
  | Serialisation m => "serialisation error: " +:+ m
  | AttestationRequired => "attestation required but not provided"
  | AttestationFailed m => "attestation failed: " +:+ m
  | HandshakeRevoked m => "revocation check failed: " +:+ m
  | Policy m => "policy violation: " +:+ m
  | Internal m => "internal protocol error: " +:+ m
  end.

Record ServerKeyShare : Type := mk_server_share {
  s_ecdhe_public : bytes;
  s_mlkem_public : bytes;
  s_mlkem_ciphertext : bytes;
  s_signature_alg : option SigAlg;
}.

Record AtHsRequest : Type := mk_request {
  client_suites : list CipherSuite;
  client_versions : list ProtocolVersion;
  client_random : bytes;
  client_challenge : bytes;
  client_share : KeyShare;
  client_quotes : list AttestQuote;
  atb_ttl_secs : Z;
}.

Record AtHsResult : Type := mk_hs_result {
  atb_id : AtbId;
  session_keys : SessionKeys;
  hs_expires_at : Z;
  server_quotes : list AttestQuote;
  server_random : bytes;
  hs_transcript_hash : bytes;
  server_signatures : list bytes;
  client_attestation_result : option VerificationResult;
}.

Record AtHsExecutor : Type := mk_executor {
  supported_suites : list CipherSuite;
  supported_versions : list ProtocolVersion;
  strict_attestation : bool;
  allow_debug : bool;
  policy_engine : option (VerificationResult → result AttestError ());
  revocation_provider : option (VerificationResult → result AttestError ());
  required_client_quote_types : list QuoteType;
}.

(** [AtHsExecutor::with_all]; the other constructors call it with defaults. *)
Definition with_all (suites : list CipherSuite) (versions : list ProtocolVersion) (strict debug : bool)
    (policy revocation : option (VerificationResult → result AttestError ())) : AtHsExecutor :=
  {| supported_suites := (match suites with [] => preferred_list | _ => suites end);
     supported_versions := (match versions with [] => [V2; V1] | _ => versions end);
     strict_attestation := strict; allow_debug := debug;
     policy_engine := policy; revocation_provider := revocation;
     required_client_quote_types := [] |}.
Definition with_config suites versions strict debug : AtHsExecutor := with_all suites versions strict debug None None.
Definition with_strict_mode suites versions strict : AtHsExecutor := with_config suites versions strict false.
Definition new_executor suites versions : AtHsExecutor := with_config suites versions false false.

(** [Vec::dedup] *)
Fixpoint dedup {A} `{EqDecision A} (l : list A) : list A :=
  match l with
  | [] => []
  | x :: l => match dedup l with
              | [] => [x]
              | y :: l' => if decide (x = y) then y :: l' else x :: y :: l'
              end
  end.

(** The [Debug] rendering of a quote type, by which the requirement is sorted. *)
Class DebugFmt : Type := debug_fmt : QuoteType → string.


Section executor.
Context `{DF : DebugFmt}.

Definition with_required_client_quote_types (x : AtHsExecutor) (types : list QuoteType) : AtHsExecutor :=
  {| supported_suites := supported_suites x; supported_versions := supported_versions x;
     strict_attestation := strict_attestation x; allow_debug := allow_debug x;
     policy_engine := policy_engine x; revocation_provider := revocation_provider x;
     required_client_quote_types := dedup (merge_sort (λ a b, strings.String.le (debug_fmt a) (debug_fmt b)) types) |}.

(** The loop over the submitted quotes; [seen] is most recent first. *)
Fixpoint check_types (required seen : list QuoteType) (qs : list AttestQuote) : result HandshakeError (list QuoteType) :=
  match qs with
  | [] => Ok seen
  | q :: qs =>
      let t := quote_type q in
      if decide (t ∈ required) then
        if decide (t ∈ seen) then Err (AttestationFailed ("duplicate client quote type " +:+ debug_fmt t))
        else check_types required (t :: seen) qs
      else Err (AttestationFailed ("unexpected client quote type " +:+ debug_fmt t))
  end.

Definition check_required_client_quote_types (x : AtHsExecutor) (qs : list AttestQuote) : result HandshakeError () :=
  let required := required_client_quote_types x in
  match required with
  | [] => Ok ()
  | _ =>
      match qs with
      | [] => Err AttestationRequired
      | _ =>
          seen ← check_types required [] qs;
          match filter (λ t, t ∉ seen) required with
          | missing :: _ => Err (AttestationFailed ("missing required client quote type " +:+ debug_fmt missing))
          | [] => Ok ()
          end
      end
  end.

(** ** Transcript and binding *)

(** A field preceded by its length as a [u64]. *)
Definition field (b : bytes) : bytes := len_prefixed 8 b.

(** What the client contributed; it is also the data a client quote binds. *)
Definition client_part (random challenge : bytes) (share : KeyShare) : bytes :=
  field random ++ field challenge ++ field (ecdhe_public share) ++ field (mlkem_public share).

Definition transcript (random challenge : bytes) (share : KeyShare) (suite : CipherSuite) (version : ProtocolVersion)
    (s_random s_ecdhe ct s_mlkem : bytes) : bytes :=
  client_part random challenge share ++
  field s_random ++ field s_ecdhe ++ field ct ++ field s_mlkem ++
  u16_be (suite_numeric_id suite) ++ [u8_of (version_numeric_id version)].

Context `{HaP : HashPrim}.

Definition compute_transcript_hash (req : AtHsRequest) (suite : CipherSuite) (version : ProtocolVersion)
    (server_random : bytes) (server_pub_share : KeyShare) (ct : bytes) : bytes :=
  sha384 (transcript (client_random req) (client_challenge req) (client_share req) suite version
    server_random (ecdhe_public server_pub_share) ct (mlkem_public server_pub_share)).

Definition client_report_data (random challenge : bytes) (share : KeyShare) : bytes :=
  sha512 (HS_CLIENT_PREFIX ++ sha384 (client_part random challenge share)).
Definition server_report_data (transcript_hash : bytes) : bytes := sha512 (HS_SERVER_PREFIX ++ transcript_hash).

(** ** Appraisal of the client's quotes *)

Definition is_stale (now_secs : Z) (r : VerificationResult) : bool :=
  match iat (claims r) with
  | Some t => bool_decide (t < now_secs ∧ 86400 < now_secs - t)
  | None => false
  end.

Definition opt_check (o : option (VerificationResult → result AttestError ())) (wrap : string → HandshakeError)
    (r : VerificationResult) : result HandshakeError () :=
  match o with
  | Some f => map_err (λ e, wrap (to_string e)) (f r)
  | None => Ok ()
  end.

(** One iteration: verify, then freshness, debug status, policy, revocation. *)
Definition appraise (x : AtHsExecutor) (now_secs : Z) (verify : QuoteVerifier) (report_data : bytes) (q : AttestQuote)
    : result HandshakeError VerificationResult :=
  res ← map_err (λ e, AttestationFailed ("client evidence rejected: " +:+ to_string e)) (verify q report_data);
  _ ← (if is_stale now_secs res
       then Err (AttestationFailed "client evidence rejected: quote has expired (older than 24h)") else Ok ());
  _ ← map_err (λ e, AttestationFailed ("client evidence rejected: " +:+ to_string e))
        (reject_debug_builds res (allow_debug x));
  _ ← opt_check (policy_engine x) Policy res;
  _ ← opt_check (revocation_provider x) HandshakeRevoked res;
  Ok res.

(** [composite_result]: the first result, with the later ones pushed onto it. *)
Definition push_result (composite : option VerificationResult) (r : VerificationResult) : option VerificationResult :=
  match composite with
  | Some primary => Some (set_secondary primary (secondary primary ++ [r]))
  | None => Some r
  end.

Fixpoint appraise_all (x : AtHsExecutor) (now_secs : Z) (verify : QuoteVerifier) (report_data : bytes)
    (composite : option VerificationResult) (qs : list AttestQuote) : result HandshakeError (option VerificationResult) :=
  match qs with
  | [] => Ok composite
  | q :: qs =>
      res ← appraise x now_secs verify report_data q;
      appraise_all x now_secs verify report_data (push_result composite res) qs
  end.

Definition verify_client_quotes (x : AtHsExecutor) (now_secs : Z) (verifier : option QuoteVerifier) (req : AtHsRequest)
    : result HandshakeError (option VerificationResult) :=
  _ ← check_required_client_quote_types x (client_quotes req);
  match client_quotes req with
  | [] => Ok None
  | qs =>
      verify ← ok_or verifier AttestationRequired;
      appraise_all x now_secs verify
        (client_report_data (client_random req) (client_challenge req) (client_share req)) None qs
  end.

End executor.

(** ** The server *)

(** What the handshake draws from outside: the two key generations, the
    randomness of the encapsulation, 32 random bytes (or an entropy failure), a
    fresh identifier, the monotonic clock and the wall clock in seconds. *)
Record ServerEnv : Type := mk_env {
  env_ecdhe : option bytes;
  env_mlkem : option bytes;
  env_encap : bytes;
  env_random : option bytes;
  env_atb_id : AtbId;
  env_now : Z;
  env_now_secs : Z;
}.

(** [TeeProvider::generate_quotes] and [MlDsaKeyPair::sign]. *)
Definition TeeProvider : Type := (*report_data*) bytes → result string (list AttestQuote).
Definition Signer : Type := bytes → result string bytes.

Section server.
Context `{DF : DebugFmt} `{HaP : HashPrim} `{HP : HkdfPrim} `{KP : KexPrim}.

(** Server preference for the suite, client preference for the version. *)
Definition negotiate_suite (x : AtHsExecutor) (req : AtHsRequest) : result HandshakeError CipherSuite :=
  ok_or (head (filter (λ cs, cs ∈ client_suites req) (supported_suites x))) NoCipherSuiteOverlap.
Definition negotiate_version (x : AtHsExecutor) (req : AtHsRequest) : result HandshakeError ProtocolVersion :=
  ok_or (head (filter (λ v, v ∈ supported_versions x) (client_versions req))) NoVersionOverlap.

Definition gather_server_quotes (x : AtHsExecutor) (tee : option TeeProvider) (transcript_hash : bytes)
    : result HandshakeError (list AttestQuote) :=
  match tee with
  | Some generate_quotes =>
      match generate_quotes (server_report_data transcript_hash) with
      | Ok qs => Ok qs
      | Err e =>
          if strict_attestation x then Err (AttestationFailed ("server evidence generation failed: " +:+ e)) else Ok []
      end
  | None => if strict_attestation x then Err AttestationRequired else Ok []
  end.

Definition sign_transcript (identity : option Signer) (transcript_hash : bytes) : result HandshakeError (list bytes) :=
  match identity with
  | Some sign =>
      sig ← map_err (λ e, Internal ("ML-DSA sign failed: " +:+ e)) (sign transcript_hash);
      Ok [sig]
  | None => Ok []
  end.

(** The part of [execute_server] after the key exchange succeeded. *)
Definition finish_server (x : AtHsExecutor) (env : ServerEnv) (req : AtHsRequest) (tee : option TeeProvider)
    (verifier : option QuoteVerifier) (identity : option Signer) (suite : CipherSuite) (version : ProtocolVersion)
    (kem : HybridKemPair.t) (hybrid_ss ct : bytes)
    : outcome (result HandshakeError (CipherSuite * ProtocolVersion * ServerKeyShare * AtHsResult)) :=
  let share := HybridKemPair.public_key_share kem in
  match env_random env with
  | None => Returns (Err (Internal "entropy source failure"))
  | Some s_random =>
      let th := compute_transcript_hash req suite version s_random share ct in
      match verify_client_quotes x (env_now_secs env) verifier req with
      | Err e => Returns (Err e)
      | Ok client_result =>
          match derive hybrid_ss th with
          | Panics => Panics
          | Returns rkeys => Returns (
              keys ← map_err (λ e, KeyDerivation (to_string e)) rkeys;
              quotes ← gather_server_quotes x tee th;
              signatures ← sign_transcript identity th;
              Ok (suite, version,
                  {| s_ecdhe_public := ecdhe_public share; s_mlkem_public := mlkem_public share;
                     s_mlkem_ciphertext := ct;
                     s_signature_alg := (match identity with Some _ => Some MlDsa65 | None => None end) |},
                  {| atb_id := env_atb_id env; session_keys := keys;
                     hs_expires_at := env_now env + atb_ttl_secs req;
                     server_quotes := quotes; server_random := s_random; hs_transcript_hash := th;
                     server_signatures := signatures; client_attestation_result := client_result |}))
          end
      end
  end.

Definition execute_server (x : AtHsExecutor) (env : ServerEnv) (req : AtHsRequest) (tee : option TeeProvider)
    (verifier : option QuoteVerifier) (identity : option Signer)
    : outcome (result HandshakeError (CipherSuite * ProtocolVersion * ServerKeyShare * AtHsResult)) :=
  match (suite ← negotiate_suite x req;
         version ← negotiate_version x req;
         kem ← map_err (λ e, KeyExchangeFailed (to_string e)) (HybridKemPair.generate (env_ecdhe env) (env_mlkem env));
         Ok (suite, version, kem)) with
  | Err e => Returns (Err e)
  | Ok (suite, version, kem) =>
      match HybridKemPair.server_combine kem (env_encap env) (client_share req) with
      | Panics => Panics
      | Returns (Err e) => Returns (Err (KeyExchangeFailed (to_string e)))
      | Returns (Ok (hybrid_ss, ct)) => finish_server x env req tee verifier identity suite version kem hybrid_ss ct
      end
  end.

End server.

(** ** The client *)

Inductive ClientError : Type :=
| ClientHandshake (msg : string)
| ClientTransport (msg : string)
| ClientAttestation (msg : string)
| ClientNotAttested
| ClientSerialisation (msg : string)
| ClientKeyExchange (msg : string).

(** The fields of [AtHsResponseHeaders] that the client uses, with the key share
    already parsed from its JSON. *)
Record HandshakeResponse : Type := mk_response {
  resp_base_id : AtbId;
  resp_cipher_suite : CipherSuite;
  resp_version : ProtocolVersion;
  resp_key_share : ServerKeyShare;
  resp_random : bytes;
  resp_quotes : list AttestQuote;
  resp_signatures : list bytes;
  resp_expires_secs : Z;
}.

Record ClientConfig : Type := mk_client {
  c_strict_attestation : bool;
  c_verifier : QuoteVerifier;
  c_server_identity_pub : option bytes;
}.

(** The challenge buffer: the first 48 bytes of the challenge, zero-padded. *)
Definition challenge_bytes (challenge : option bytes) : bytes :=
  let c := take 48 (default [] challenge) in c ++ replicate (48 - length c) NUL.

(** [server_random]: left at zero when the header is shorter than 32 bytes. *)
Definition random_bytes (random : bytes) : bytes :=
  if decide (32 ≤ length random)%nat then take 32 random else replicate 32 NUL.

Section client.
Context `{HaP : HashPrim} `{HP : HkdfPrim} `{KP : KexPrim}.
(** [MlDsaKeyPair::verify], from liboqs. *)
Context (mldsa_verify : (*public key*) bytes → (*message*) bytes → (*signature*) bytes → bool).

Definition verify_pqc_server_sig (c : ClientConfig) (resp : HandshakeResponse) (th : bytes) : result ClientError () :=
  match c_server_identity_pub c with
  | None => Ok ()
  | Some pk =>
      match resp_signatures resp with
      | [] => Err (ClientAttestation "server did not provide PQC signature but identity key is pinned")
      | sig :: _ =>
          if mldsa_verify pk th sig then Ok ()
          else Err (ClientAttestation "PQC signature verification failed: signature verification failed")
      end
  end.

(** Verify a quote with its user data replaced by the local report data. *)
Definition bind_quote (q : AttestQuote) (report_data : bytes) : AttestQuote :=
  mk_quote (quote_type q) (format q) (quote_raw q) report_data (collateral_uris q).

Fixpoint verify_bound (verify : QuoteVerifier) (report_data : bytes) (composite : option VerificationResult)
    (qs : list AttestQuote) : result ClientError (option VerificationResult) :=
  match qs with
  | [] => Ok composite
  | q :: qs =>
      res ← map_err (λ e, ClientAttestation (to_string e)) (verify (bind_quote q report_data) report_data);
      verify_bound verify report_data (push_result composite res) qs
  end.

Definition verify_server_quotes (c : ClientConfig) (resp : HandshakeResponse) (th : bytes)
    : result ClientError (option VerificationResult) :=
  match resp_quotes resp with
  | [] => if c_strict_attestation c then Err (ClientAttestation "server attestation required but missing") else Ok None
  | qs => verify_bound (c_verifier c) (server_report_data th) None qs
  end.

(** [attest_handshake] from the decoded response on.  Times are unbounded; an expiry beyond
    the range of the platform's clock, which a server can ask for, would panic. *)
Definition client_finish (c : ClientConfig) (now : Z) (kem : HybridKemPair.t) (random : bytes) (challenge : option bytes)
    (resp : HandshakeResponse) : outcome (result ClientError SessionInner) :=
  let share := resp_key_share resp in
  let th := sha384 (transcript random (challenge_bytes challenge) (HybridKemPair.public_key_share kem)
    (resp_cipher_suite resp) (resp_version resp) (random_bytes (resp_random resp))
    (s_ecdhe_public share) (s_mlkem_ciphertext share) (s_mlkem_public share)) in
  match (_ ← verify_pqc_server_sig c resp th; verify_server_quotes c resp th) with
  | Err e => Returns (Err e)
  | Ok attestation =>
      match HybridKemPair.client_combine kem (mk_share (s_ecdhe_public share) []) (s_mlkem_ciphertext share) with
      | Panics => Panics
      | Returns (Err e) => Returns (Err (ClientKeyExchange (to_string e)))
      | Returns (Ok secret) =>
          match derive secret th with
          | Panics => Panics
          | Returns (Err e) => Returns (Err (ClientHandshake ("key derivation failed: " +:+ to_string e)))
          | Returns (Ok keys) => Returns (Ok (AttestSession.new (resp_base_id resp) X25519MlKem768Aes256GcmSha384 V2 keys
              (now + resp_expires_secs resp) default_strategy attestation))
          end
      end
  end.

End client.

(** ** Lemmas *)

Lemma head_filter_Some {A} (P : A → Prop) `{∀ x, Decision (P x)} (l : list A) x :
  head (filter P l) = Some x ↔ ∃ l1 l2, l = l1 ++ x :: l2 ∧ Forall (λ y, ¬ P y) l1 ∧ P x.
Proof.
  split.
  - induction l as [|y l IH]; [done|]. rewrite filter_cons. case_decide; simpl.
    + intros [= <-]. by exists [], l.
    + intros (l1 & l2 & -> & Hl & Hx)%IH. exists (y :: l1), l2. split_and!; [done|by constructor|done].
  - intros (l1 & l2 & -> & Hl & Hx). rewrite filter_app, filter_cons_True by done.
    assert (filter P l1 = []) as ->; [|done].
    induction Hl as [|y l1 Hy Hl IH]; [done|]. by rewrite filter_cons_False.
Qed.
Lemma head_filter_None {A} (P : A → Prop) `{∀ x, Decision (P x)} (l : list A) :
  head (filter P l) = None ↔ Forall (λ y, ¬ P y) l.
Proof.
  induction l as [|y l IH]; [split; [constructor|done]|].
  rewrite filter_cons, Forall_cons. case_decide; simpl; naive_solver.
Qed.

Lemma elem_of_dedup {A} `{EqDecision A} (l : list A) x : x ∈ dedup l ↔ x ∈ l.
Proof.
  induction l as [|y l IH]; [done|]. cbn [dedup]. rewrite elem_of_cons, <-IH.
  destruct (dedup l) as [|z l']; [set_solver|]. case_decide; set_solver.
Qed.

Lemma elem_of_required `{DF : DebugFmt} x types t :
  t ∈ required_client_quote_types (with_required_client_quote_types x types) ↔ t ∈ types.
Proof. simpl. rewrite elem_of_dedup. by rewrite merge_sort_Permutation. Qed.

Lemma check_types_Ok `{DF : DebugFmt} required seen qs seen' :
  check_types required seen qs = Ok seen' ↔
  seen' = reverse (quote_type <$> qs) ++ seen ∧
  Forall (λ q, quote_type q ∈ required) qs ∧ NoDup (quote_type <$> qs) ∧ Forall (λ q, quote_type q ∉ seen) qs.
Proof.
  revert seen. induction qs as [|q qs IH]; intros seen; cbn [check_types].
  { split; [intros [= <-]; split_and!; [done|constructor..]|by intros [-> _]]. }
  rewrite fmap_cons, !Forall_cons, NoDup_cons, reverse_cons, <-app_assoc. simpl.
  case_decide as Hr; [case_decide as Hs|].
  - split; [done|]. tauto.
  - rewrite IH. assert (Forall (λ q0, quote_type q0 ∉ quote_type q :: seen) qs ↔
      (quote_type q ∉ quote_type <$> qs) ∧ Forall (λ q0, quote_type q0 ∉ seen) qs) as ->; [|tauto].
    rewrite !Forall_forall. setoid_rewrite elem_of_cons. setoid_rewrite list_elem_of_fmap. split.
    + intros Hall. split; [intros (y & Heq & Hy); apply (Hall y Hy); by left|].
      intros y Hy Hin. apply (Hall y Hy). by right.
    + intros [Hn Hall] y Hy [Heq|Hin]; [apply Hn; by exists y|by apply (Hall y Hy)].
  - split; [done|]. tauto.
Qed.

Lemma check_required_Ok `{DF : DebugFmt} x qs :
  check_required_client_quote_types x qs = Ok () ↔
  required_client_quote_types x = [] ∨
  (NoDup (quote_type <$> qs) ∧ ∀ t, t ∈ quote_type <$> qs ↔ t ∈ required_client_quote_types x).
Proof.
  unfold check_required_client_quote_types. destruct (required_client_quote_types x) as [|r rs] eqn:Hreq.
  { split; [by left|done]. }
  set (required := r :: rs). destruct qs as [|q qs].
  { split; [done|]. intros [?|[_ H]]; [done|]. specialize (H r). set_solver. }
  set (l := q :: qs). clearbody l. destruct (check_types required [] l) as [seen|e] eqn:Hc; cbn [mbind result_bind].
  - apply check_types_Ok in Hc as (-> & Hin & Hnd & _). rewrite app_nil_r.
    destruct (filter _ required) as [|m ms] eqn:Hf.
    + split; [intros _; right; split; [done|]|done]. intros t. split.
      * intros (q' & -> & Hq')%list_elem_of_fmap. rewrite Forall_forall in Hin. by apply Hin.
      * intros Ht. destruct (decide (t ∈ quote_type <$> l)) as [|Hn]; [done|].
        assert (t ∈ filter (λ t, t ∉ reverse (quote_type <$> l)) required) as Habs.
        { apply list_elem_of_filter. split; [|done]. by rewrite elem_of_reverse. }
        rewrite Hf in Habs. set_solver.
    + split; [done|]. intros [?|[_ H]]; [done|].
      assert (m ∈ filter (λ t, t ∉ reverse (quote_type <$> l)) required) as Hm by (rewrite Hf; set_solver).
      apply list_elem_of_filter in Hm as [Hm Hm']. rewrite elem_of_reverse in Hm. by apply H in Hm'.
  - split; [done|]. intros [?|[Hnd H]]; [done|]. exfalso.
    assert (check_types required [] l = Ok (reverse (quote_type <$> l) ++ [])) as Hok; [|congruence].
    apply check_types_Ok. split_and!; [done| |done|].
    + apply Forall_forall. intros q' Hq'. apply H. apply list_elem_of_fmap. eauto.
    + apply Forall_forall. set_solver.
Qed.

(** What a verified client quote satisfied. *)
Definition accepts (x : AtHsExecutor) (now_secs : Z) (verify : QuoteVerifier) (rd : bytes) (q : AttestQuote) (r : VerificationResult) : Prop :=
  verify q rd = Ok r ∧ is_stale now_secs r = false ∧ (is_debug r = true → allow_debug x = true) ∧
  (∀ p, policy_engine x = Some p → p r = Ok ()) ∧ (∀ p, revocation_provider x = Some p → p r = Ok ()).

Lemma opt_check_Ok o w r : opt_check o w r = Ok () ↔ ∀ p, o = Some p → p r = Ok ().
Proof.
  unfold opt_check. destruct o as [p|]; [|naive_solver]. rewrite map_err_Ok. naive_solver.
Qed.

Lemma appraise_Ok x now verify rd q r : appraise x now verify rd q = Ok r ↔ accepts x now verify rd q r.
Proof.
  unfold appraise, accepts. split.
  - intros H. inv_ok. repeat match goal with u : () |- _ => destruct u end.
    destruct (is_stale now r) eqn:Hst; [done|].
    repeat match goal with
    | H : opt_check _ _ _ = Ok () |- _ => rewrite opt_check_Ok in H
    | H : reject_debug_builds _ _ = Ok () |- _ => rewrite SimplePolicy.reject_debug_Ok in H
    end. by split_and!.
  - intros (-> & Hst & Hd%SimplePolicy.reject_debug_Ok & Hp & Hr). cbn. rewrite Hst. cbn. rewrite Hd. cbn.
    rewrite <-(opt_check_Ok _ Policy) in Hp. rewrite <-(opt_check_Ok _ HandshakeRevoked) in Hr.
    rewrite Hp. cbn. by rewrite Hr.
Qed.

Lemma appraise_all_Ok x now verify rd composite qs c :
  appraise_all x now verify rd composite qs = Ok c →
  ∃ rs, Forall2 (accepts x now verify rd) qs rs ∧ c = foldl push_result composite rs.
Proof.
  revert composite. induction qs as [|q qs IH]; intros composite; cbn [appraise_all].
  { intros [= <-]. by exists []. }
  intros H. inv_ok. apply appraise_Ok in H. destruct (IH _ H0) as (rs & Hrs & ->). exists (x0 :: rs).
  split; [by constructor|done].
Qed.

Lemma push_results r rs :
  foldl push_result (Some r) rs = Some (set_secondary r (secondary r ++ rs)).
Proof.
  revert r. induction rs as [|r' rs IH]; intros r; simpl.
  { rewrite app_nil_r. by destruct r. }
  rewrite IH. simpl. by rewrite <-app_assoc.
Qed.

Lemma field_inj a b r s :
  Z.of_nat (length a) ≤ u64_max → Z.of_nat (length b) ≤ u64_max → field a ++ r = field b ++ s → a = b ∧ r = s.
Proof. unfold u64_max. intros ??. apply len_prefixed_inj; simpl; lia. Qed.

Section inversion.
Context `{DF : DebugFmt} `{HaP : HashPrim} `{HP : HkdfPrim} `{KP : KexPrim}.

(** What a successful server handshake went through. *)
Lemma execute_server_Ok x env req tee v identity suite version share res :
  execute_server x env req tee v identity = Returns (Ok (suite, version, share, res)) →
  ∃ kem ss,
    negotiate_suite x req = Ok suite ∧ negotiate_version x req = Ok version ∧
    HybridKemPair.server_combine kem (env_encap env) (client_share req) = Returns (Ok (ss, s_mlkem_ciphertext share)) ∧
    HybridKemPair.public_key_share kem = mk_share (s_ecdhe_public share) (s_mlkem_public share) ∧
    env_random env = Some (server_random res) ∧
    hs_transcript_hash res =
      compute_transcript_hash req suite version (server_random res) (HybridKemPair.public_key_share kem)
        (s_mlkem_ciphertext share) ∧
    verify_client_quotes x (env_now_secs env) v req = Ok (client_attestation_result res) ∧
    derive ss (hs_transcript_hash res) = Returns (Ok (session_keys res)) ∧
    gather_server_quotes x tee (hs_transcript_hash res) = Ok (server_quotes res) ∧
    sign_transcript identity (hs_transcript_hash res) = Ok (server_signatures res) ∧
    atb_id res = env_atb_id env ∧ hs_expires_at res = env_now env + atb_ttl_secs req.
Proof.
  unfold execute_server. destruct (_ ≫= _) as [[[suite0 version0] kem]|] eqn:Hneg; [|done].
  inv_ok. simplify_eq.
  destruct (HybridKemPair.server_combine _ _ _) as [[[ss ct]|]|] eqn:Hcomb; [|done..].
  unfold finish_server. destruct (env_random env) as [s_random|] eqn:Hr; [|done].
  destruct (verify_client_quotes _ _ _ _) as [cr|] eqn:Hv; [|done].
  destruct (derive _ _) as [rkeys|] eqn:Hd; [|done]. intros Hret. injection Hret as Hret. inv_ok.
  simplify_eq. exists kem, ss. simpl. by split_and!.
Qed.

End inversion.

(** ** Properties *)

(** Negotiation: a handshake that succeeds picked the first suite of the
    server's own list that the client offered (no client order can make the
    server skip a suite it prefers), and the first version of the client's list
    that the server supports; without a common suite it fails with
    [NoCipherSuiteOverlap], without a common version with [NoVersionOverlap]. *)
Theorem negotiation_sound `{DF : DebugFmt} `{HaP : HashPrim} `{HP : HkdfPrim} `{KP : KexPrim}
    x env req tee v identity :
  (∀ suite version share res,
    execute_server x env req tee v identity = Returns (Ok (suite, version, share, res)) →
    (∃ l1 l2, supported_suites x = l1 ++ suite :: l2 ∧ suite ∈ client_suites req ∧
       Forall (λ cs, cs ∉ client_suites req) l1) ∧
    (∃ l1 l2, client_versions req = l1 ++ version :: l2 ∧ version ∈ supported_versions x ∧
       Forall (λ v, v ∉ supported_versions x) l1)) ∧
  (Forall (λ cs, cs ∉ client_suites req) (supported_suites x) →
    execute_server x env req tee v identity = Returns (Err NoCipherSuiteOverlap)) ∧
  (∀ suite, negotiate_suite x req = Ok suite → Forall (λ v, v ∉ supported_versions x) (client_versions req) →
    execute_server x env req tee v identity = Returns (Err NoVersionOverlap)).
Proof.
  split_and!.
  - intros suite version share res (kem & ss & Hs & Hv & _)%execute_server_Ok.
    unfold negotiate_suite, negotiate_version in *. inv_ok. apply head_filter_Some in Hs, Hv. naive_solver.
  - intros Hno. unfold execute_server, negotiate_suite.
    by rewrite (proj2 (head_filter_None (λ cs, cs ∈ client_suites req) _) Hno).
  - intros suite Hs Hno. unfold execute_server. rewrite Hs. cbn. unfold negotiate_version.
    by rewrite (proj2 (head_filter_None (λ v, v ∈ supported_versions x) _) Hno).
Qed.

(** [C8] Client attestation: when types of client quotes are required, a
    handshake succeeds only if the submitted quotes have exactly these types,
    each once, and every quote was accepted by the configured verifier for the
    report data that binds this client's random, challenge and key shares, is
    not older than a day, is not a debug quote unless those are allowed, and
    passed the policy and the revocation check; the recorded result is the
    first quote's, with the others attached to it.  Without a verifier it never
    succeeds. *)
Theorem required_attestation_sound `{DF : DebugFmt} `{HaP : HashPrim} `{HP : HkdfPrim} `{KP : KexPrim}
    x types env req tee v identity suite version share res :
  types ≠ [] →
  execute_server (with_required_client_quote_types x types) env req tee v identity =
    Returns (Ok (suite, version, share, res)) →
  NoDup (quote_type <$> client_quotes req) ∧
  (∀ t, t ∈ quote_type <$> client_quotes req ↔ t ∈ types) ∧
  ∃ verify r rs, v = Some verify ∧
    Forall2 (accepts x (env_now_secs env) verify
      (client_report_data (client_random req) (client_challenge req) (client_share req))) (client_quotes req) (r :: rs) ∧
    client_attestation_result res = Some (set_secondary r (secondary r ++ rs)).
Proof.
  intros Hne (kem & ss & _ & _ & _ & _ & _ & _ & Hv & _)%execute_server_Ok.
  unfold verify_client_quotes in Hv. inv_ok. destruct x0. apply check_required_Ok in H as [Hreq|[Hnd Hiff]].
  { exfalso. destruct types as [|t types]; [done|]. assert (t ∈ ([] : list QuoteType)) as Habs; [|set_solver].
    rewrite <-Hreq. apply elem_of_required. set_solver. }
  assert (∀ t, t ∈ quote_type <$> client_quotes req ↔ t ∈ types) as Hiff'.
  { intros t. rewrite Hiff. apply elem_of_required. }
  split_and!; [done..|]. destruct (client_quotes req) as [|q qs].
  { exfalso. destruct types as [|t types]; [done|]. specialize (Hiff' t). set_solver. }
  inv_ok. apply appraise_all_Ok in H0 as (rs & Hrs & Hc). destruct rs as [|r rs]; [by inversion Hrs|].
  exists x0, r, rs. split_and!; [done|done|]. rewrite Hc. apply push_results.
Qed.

(** Strict attestation: a strict server completes a handshake only with a
    quoting service present, and the quotes it sends were generated by it for
    the report data that binds the transcript of this very handshake. *)
Theorem strict_server_attests `{DF : DebugFmt} `{HaP : HashPrim} `{HP : HkdfPrim} `{KP : KexPrim}
    x env req tee v identity suite version share res :
  strict_attestation x = true →
  execute_server x env req tee v identity = Returns (Ok (suite, version, share, res)) →
  ∃ generate_quotes, tee = Some generate_quotes ∧
    generate_quotes (server_report_data (hs_transcript_hash res)) = Ok (server_quotes res).
Proof.
  intros Hst (kem & ss & _ & _ & _ & _ & _ & _ & _ & _ & Hq & _)%execute_server_Ok.
  unfold gather_server_quotes in Hq. rewrite Hst in Hq. destruct tee as [gen|]; [|done].
  exists gen. split; [done|]. destruct (gen _); [|done]. by inv_ok.
Qed.

(** [C9] The transcript is unambiguous: two handshakes with the same transcript
    input agree on every field, so the transcript hash commits to both randoms,
    the challenge, all key shares, the ciphertext, the suite and the version. *)
Theorem transcript_injective r1 c1 k1 suite1 v1 sr1 se1 ct1 sm1 r2 c2 k2 suite2 v2 sr2 se2 ct2 sm2 :
  Forall (λ b, Z.of_nat (length b) ≤ u64_max)
    [r1; c1; ecdhe_public k1; mlkem_public k1; sr1; se1; ct1; sm1;
     r2; c2; ecdhe_public k2; mlkem_public k2; sr2; se2; ct2; sm2] →
  transcript r1 c1 k1 suite1 v1 sr1 se1 ct1 sm1 = transcript r2 c2 k2 suite2 v2 sr2 se2 ct2 sm2 →
  r1 = r2 ∧ c1 = c2 ∧ k1 = k2 ∧ suite1 = suite2 ∧ v1 = v2 ∧ sr1 = sr2 ∧ se1 = se2 ∧ ct1 = ct2 ∧ sm1 = sm2.
Proof.
  intros Hl Heq. rewrite !Forall_cons in Hl. destruct_and!. unfold transcript, client_part in Heq.
  rewrite <-!app_assoc in Heq.
  repeat (apply field_inj in Heq; [|done|done]; let H := fresh in destruct Heq as [H Heq]).
  apply app_fixed_inj in Heq as [Hs Hv]; [|wire_len].
  apply to_be_inj in Hs; [|pose proof (suite_numeric_id_range suite1); simpl; lia
                          |pose proof (suite_numeric_id_range suite2); simpl; lia].
  apply suite_numeric_id_inj in Hs. injection Hv as Hv. destruct k1, k2. simpl in *. simplify_eq.
  split_and!; try done. by destruct v1, v2.
Qed.

Lemma transcript_injective_witness :
  as_bytes "r" = as_bytes "r" ∧ as_bytes "c" = as_bytes "c" ∧
  mk_share (as_bytes "e") (as_bytes "m") = mk_share (as_bytes "e") (as_bytes "m") ∧
  P256Aes256GcmSha256 = P256Aes256GcmSha256 ∧ V2 = V2 ∧ ([] : bytes) = [] ∧ ([] : bytes) = [] ∧
  ([] : bytes) = [] ∧ ([] : bytes) = [].
Proof.
  apply (transcript_injective (as_bytes "r") (as_bytes "c") (mk_share (as_bytes "e") (as_bytes "m")) P256Aes256GcmSha256
    V2 [] [] [] [] (as_bytes "r") (as_bytes "c") (mk_share (as_bytes "e") (as_bytes "m")) P256Aes256GcmSha256 V2 [] [] [] []);
    [repeat constructor; vm_compute; discriminate|reflexivity].
Defined.

(** The client's side of a completed handshake, whatever identifier, quotes,
    signatures and lifetime arrive with the server's share and random. *)
Lemma client_finish_agrees `{DF : DebugFmt} `{HaP : HashPrim} `{HP : HkdfPrim} `{KL : !KexLaws KP}
    mldsa_verify x env req tee v identity suite version share res c now client challenge resp :
  execute_server x env req tee v identity = Returns (Ok (suite, version, share, res)) →
  client_share req = HybridKemPair.public_key_share client → client_challenge req = challenge_bytes challenge →
  length (server_random res) = 32%nat →
  resp_cipher_suite resp = suite → resp_version resp = version → resp_key_share resp = share →
  resp_random resp = server_random res →
  client_finish mldsa_verify c now client (client_random req) challenge resp =
    Returns (att ← (_ ← verify_pqc_server_sig mldsa_verify c resp (hs_transcript_hash res);
                    verify_server_quotes c resp (hs_transcript_hash res));
             Ok (AttestSession.new (resp_base_id resp) X25519MlKem768Aes256GcmSha384 V2 (session_keys res)
                  (now + resp_expires_secs resp) default_strategy att)).
Proof.
  intros (kem & ss & _ & _ & Hcomb & Hshare & _ & Hth & _ & Hd & _)%execute_server_Ok Hcs Hch Hlen Hrs Hrv Hrk Hrr.
  unfold client_finish. rewrite Hcs in Hcomb. rewrite Hshare in Hth. unfold compute_transcript_hash in Hth.
  rewrite Hcs, Hch in Hth. simpl in Hth. rewrite Hrs, Hrv, Hrk, Hrr. unfold random_bytes.
  rewrite decide_True, take_ge by lia. rewrite <-Hth.
  destruct (_ ≫= _) as [att|]; [|done]. cbn.
  apply (HybridKemPair.agreement client kem _ _ _ []) in Hcomb.
  unfold HybridKemPair.public_key_share in Hshare. injection Hshare as Hse _. rewrite <-Hse, Hcomb, Hd. done.
Qed.

(** [C5] Key agreement end to end: for every handshake that the server completes
    for a request built from a client's own random, challenge and key pair, the
    client that receives the server's answer computes the same transcript hash
    and, unless it rejects the server's signature or quotes (and then with that
    error), ends with a session that has the server's identifier and exactly the
    server's session keys. *)
Theorem client_server_agree `{DF : DebugFmt} `{HaP : HashPrim} `{HP : HkdfPrim} `{KL : !KexLaws KP}
    (mldsa_verify : bytes → bytes → bytes → bool) (x : AtHsExecutor) (env : ServerEnv) (req : AtHsRequest)
    tee v identity suite version share res
    (c : ClientConfig) (now expires : Z) (client : HybridKemPair.t) (challenge : option bytes) :
  execute_server x env req tee v identity = Returns (Ok (suite, version, share, res)) →
  client_share req = HybridKemPair.public_key_share client → client_challenge req = challenge_bytes challenge →
  length (server_random res) = 32%nat →
  let resp := mk_response (atb_id res) suite version share (server_random res) (server_quotes res)
                (server_signatures res) expires in
  client_finish mldsa_verify c now client (client_random req) challenge resp =
    Returns (att ← (_ ← verify_pqc_server_sig mldsa_verify c resp (hs_transcript_hash res);
                    verify_server_quotes c resp (hs_transcript_hash res));
             Ok (AttestSession.new (atb_id res) X25519MlKem768Aes256GcmSha384 V2 (session_keys res)
                  (now + expires) default_strategy att)).
Proof. intros He Hcs Hch Hlen. by apply (client_finish_agrees mldsa_verify x env req tee v identity suite version share res). Qed.

(** The negotiated suite does not select the key exchange: whatever suite
    was negotiated, P-384 with ML-KEM-1024 included, the server's classical
    share is a 32-byte X25519 key and the ciphertext is an ML-KEM-768 one. *)
Theorem suite_does_not_select_group `{DF : DebugFmt} `{HaP : HashPrim} `{HP : HkdfPrim} `{KL : !KexLaws KP}
    x env req tee v identity suite version share res :
  execute_server x env req tee v identity = Returns (Ok (suite, version, share, res)) →
  length (s_ecdhe_public share) = 32%nat ∧ length (s_mlkem_ciphertext share) = 1088%nat.
Proof.
  intros (kem & ss & _ & _ & Hcomb & Hshare & _)%execute_server_Ok. injection Hshare as <- _.
  split; [apply x25519_public_length|]. unfold HybridKemPair.server_combine in Hcomb.
  destruct (x25519_agree _ _); [|done]. destruct (mlkem_encap _ _) as [[m ct]|] eqn:Hm; [|done].
  apply mlkem_encap_length in Hm as (_ & _ & Hct). destruct (HybridKemPair.combine _ _ _ _ _ _) as [[]|]; [|done..].
  cbn in Hcomb. congruence.
Qed.

(** A concrete handshake: toy primitives, one required mock quote. *)
Module Demo.
#[local] Existing Instances Toy.hash Toy.hkdf ToyKex.prim.
#[local] Instance debug : DebugFmt := to_string.

Definition client : HybridKemPair.t := HybridKemPair.mk (as_bytes "client ecdhe") (as_bytes "client mlkem").
Definition quote : AttestQuote := mk_quote Mock Raw (as_bytes "raw") [] [].
Definition verify : QuoteVerifier := λ q rd, Ok (mk_result None default_claims "UpToDate" None None []).
Definition generate_quotes : TeeProvider := λ rd, Ok [mk_quote Mock Raw rd rd []].
Definition executor : AtHsExecutor := with_strict_mode [] [] true.
Definition env : ServerEnv :=
  mk_env (Some (as_bytes "server ecdhe")) (Some (as_bytes "server mlkem")) (as_bytes "r") (Some (replicate 32 NUL))
    (replicate 16 NUL) 5 1700000000.
Definition request : AtHsRequest :=
  mk_request [X25519MlKem768Aes256GcmSha384] [V2] (replicate 32 NUL) (challenge_bytes None)
    (HybridKemPair.public_key_share client) [quote] 3600.
Definition strict_executor : AtHsExecutor := with_required_client_quote_types executor [Mock; Mock].
Definition run : outcome (result HandshakeError (CipherSuite * ProtocolVersion * ServerKeyShare * AtHsResult)) :=
  execute_server strict_executor env request (Some generate_quotes) (Some verify) None.
Definition finished : bool := match run with Returns (Ok _) => true | _ => false end.
End Demo.

#[local] Ltac demo_run H :=
  let Hok := fresh in assert (Demo.finished = true) as Hok by (vm_compute; reflexivity); unfold Demo.finished in Hok;
  destruct Demo.run as [[[[[suite version] share] res]|]|] eqn:H; [clear Hok|discriminate Hok..].

Lemma required_attestation_sound_witness :
  NoDup (quote_type <$> client_quotes Demo.request).
Proof.
  demo_run Hrun. eapply (required_attestation_sound (HaP := Toy.hash) (HP := Toy.hkdf) (KP := ToyKex.prim)
    Demo.executor [Mock; Mock] Demo.env Demo.request _ _ _ suite version share res); [discriminate|exact Hrun].
Defined.

Lemma strict_server_attests_witness :
  ∃ gen : TeeProvider, Some Demo.generate_quotes = Some gen.
Proof.
  demo_run Hrun. edestruct (strict_server_attests (HaP := Toy.hash) (HP := Toy.hkdf) (KP := ToyKex.prim)
    Demo.strict_executor Demo.env Demo.request _ _ _ suite version share res eq_refl Hrun) as (gen & Hg & _). by exists gen.
Defined.

Lemma client_server_agree_witness :
  ∃ resp r, client_finish (HaP := Toy.hash) (HP := Toy.hkdf) (KP := ToyKex.prim) (λ _ _ _, true)
    (mk_client true Demo.verify None) 7 Demo.client (replicate 32 NUL) None resp = Returns r.
Proof.
  assert (match Demo.run with Returns (Ok (_, _, _, res)) => length (server_random res) = 32%nat | _ => False end)
    as Hlen by (vm_compute; reflexivity).
  demo_run Hrun. eexists _, _.
  exact (client_server_agree (HaP := Toy.hash) (HP := Toy.hkdf) (KP := ToyKex.prim) (KL := ToyKex.laws) (λ _ _ _, true)
    Demo.strict_executor Demo.env Demo.request _ _ _ suite version share res (mk_client true Demo.verify None) 7 3600
    Demo.client None Hrun eq_refl eq_refl Hlen).
Defined.

Lemma suite_does_not_select_group_witness :
  ∃ share res, execute_server (DF := Demo.debug) (HaP := Toy.hash) (HP := Toy.hkdf) (KP := ToyKex.prim)
      (with_strict_mode [P384MlKem1024Aes256GcmSha384] [] false) Demo.env
      (mk_request [P384MlKem1024Aes256GcmSha384] [V2] [] [] (client_share Demo.request) [] 0) None None None =
      Returns (Ok (P384MlKem1024Aes256GcmSha384, V2, share, res)) ∧
    length (s_ecdhe_public share) = 32%nat.
Proof.
  eexists _, _. split; [vm_compute; reflexivity|].
  eapply (suite_does_not_select_group (DF := Demo.debug) (HaP := Toy.hash) (HP := Toy.hkdf) (KP := ToyKex.prim)
    (KL := ToyKex.laws) (with_strict_mode [P384MlKem1024Aes256GcmSha384] [] false) Demo.env
    (mk_request [P384MlKem1024Aes256GcmSha384] [V2] [] [] (client_share Demo.request) [] 0) None None None).
  vm_compute. reflexivity.
Defined.
