(* ===== verification/Http.v ===== *)
(** * HTTP headers

    What the program uses of the [http] crate: a [HeaderMap] is a multimap with
    lower-case names, here the list of its names, each with its values in
    insertion order.  [HeaderValue::to_str] succeeds on visible ASCII, space and
    tab only. *)

From S2P Require Import Prelude.
From stdpp Require Import options.

#[local] Open Scope Z_scope.

Abbreviation HeaderMap := (list (string * list bytes)).

Definition hm_names (m : HeaderMap) : list string := m.*1.
Definition hm_wf (m : HeaderMap) : Prop := NoDup (hm_names m).

Fixpoint get_all (m : HeaderMap) (name : string) : list bytes :=
  match m with
  | [] => []
  | (n, vs) :: m => if decide (n = name) then vs else get_all m name
  end.
Definition hm_get (m : HeaderMap) (name : string) : option bytes := head (get_all m name).

(** [insert]: the new value replaces all values of the name. *)
Fixpoint hm_insert (m : HeaderMap) (name : string) (v : bytes) : HeaderMap :=
  match m with
  | [] => [(name, [v])]
  | (n, vs) :: m => if decide (n = name) then (n, [v]) :: m else (n, vs) :: hm_insert m name v
  end.

Definition visible (b : byte) : bool := bool_decide (32 ≤ u8_val b < 127 ∨ u8_val b = 9).
Definition to_str (v : bytes) : option string :=
  if forallb visible v then Some (string_of_list_ascii v) else None.

(** [HeaderValue::from_str]: no control characters but the tab; [header_value]
    is [from_str(..).unwrap_or("")]. *)
Definition value_byte (b : byte) : bool := bool_decide (32 ≤ u8_val b ∧ u8_val b ≠ 127 ∨ u8_val b = 9).
Definition value_from_str (s : string) : option bytes :=
  if forallb value_byte (as_bytes s) then Some (as_bytes s) else None.
Definition header_value (s : string) : bytes := default [] (value_from_str s).

(** [str::trim], on ASCII white space. *)
Definition is_white (b : byte) : bool := bool_decide (9 ≤ u8_val b ≤ 13 ∨ u8_val b = 32).
Fixpoint trim_start (s : bytes) : bytes :=
  match s with [] => [] | b :: s' => if is_white b then trim_start s' else s end.
Definition trim (s : string) : string := string_of_list_ascii (rev (trim_start (rev (trim_start (as_bytes s))))).

(** [trim_end_matches('/')] *)
Fixpoint trim_slashes (s : bytes) : bytes :=
  match s with [] => [] | b :: r => if decide (b = "/"%char) then trim_slashes r else s end.
Definition trim_end_slashes (s : string) : string := string_of_list_ascii (rev (trim_slashes (rev (as_bytes s)))).

(** ASCII case mapping of strings. *)
Definition lower_byte (b : byte) : byte := if decide (65 ≤ u8_val b ≤ 90) then u8_of (u8_val b + 32) else b.
Definition upper_byte (b : byte) : byte := if decide (97 ≤ u8_val b ≤ 122) then u8_of (u8_val b - 32) else b.
Definition to_lowercase (s : string) : string := string_of_list_ascii (lower_byte <$> as_bytes s).
Definition to_ascii_uppercase (s : string) : string := string_of_list_ascii (upper_byte <$> as_bytes s).
Definition starts_with (p s : string) : bool := String.prefix p s.

(** [str::contains] *)
Fixpoint bytes_contains (hay needle : bytes) : bool :=
  bool_decide (take (length needle) hay = needle) ||
  match hay with [] => false | _ :: hay => bytes_contains hay needle end.
Definition str_contains (hay needle : string) : bool := bytes_contains (as_bytes hay) (as_bytes needle).

(** A decimal length, as [usize::to_string] prints it. *)
Definition dec (n : nat) : bytes := as_bytes (pretty.pretty (N.of_nat n)).
Definition colon : byte := u8_of 58.

Lemma pretty_N_go_chars x s b :
  b ∈ as_bytes (pretty.pretty_N_go x s) → b ∈ as_bytes s ∨ ∃ n, b = pretty.pretty_N_char n.
Proof.
  revert s. induction (N.lt_wf_0 x) as [x _ IH]; intros s.
  assert (x = 0 ∨ 0 < x)%N as [->|Hx] by lia; [rewrite pretty.pretty_N_go_0; by left|].
  rewrite pretty.pretty_N_go_step by done. intros [Hin|?]%IH; [|by right|by apply N.div_lt].
  apply elem_of_cons in Hin as [->|?]; [right; by eexists|by left].
Qed.
Lemma dec_no_colon n : colon ∉ dec n.
Proof.
  unfold dec, pretty.pretty, pretty.pretty_N. case_decide; [by_compute|].
  intros [Hin|[k Hk]]%pretty_N_go_chars; [by apply elem_of_nil in Hin|].
  unfold pretty.pretty_N_char in Hk. by repeat case_match.
Qed.
Lemma dec_inj n m : dec n = dec m → n = m.
Proof. intros Heq%as_bytes_inj%(inj pretty.pretty). lia. Qed.

(** A field with its decimal length in front. *)
Definition dec_field (b : bytes) : bytes := dec (length b) ++ colon :: b.

Lemma dec_field_inj a b r s : dec_field a ++ r = dec_field b ++ s → a = b ∧ r = s.
Proof.
  unfold dec_field. rewrite <-!app_assoc. simpl.
  intros [Hl Heq]%app_sep_inj; [|by apply dec_no_colon..].
  apply dec_inj in Hl. by apply app_fixed_inj in Heq.
Qed.

Definition visible_str (s : string) : Prop := forallb visible (as_bytes s) = true.
Lemma visible_value_byte b : visible b = true → value_byte b = true.
Proof. unfold visible, value_byte. rewrite !bool_decide_eq_true. lia. Qed.
Lemma value_from_str_visible s : visible_str s → value_from_str s = Some (as_bytes s).
Proof.
  unfold visible_str, value_from_str. intros Hv. rewrite (proj2 (forallb_forall value_byte _)); [done|].
  intros b Hb. apply visible_value_byte. by apply (proj1 (forallb_forall visible _) Hv).
Qed.
Lemma header_value_visible s : visible_str s → header_value s = as_bytes s.
Proof. intros. unfold header_value. by rewrite value_from_str_visible. Qed.
Lemma to_str_visible s : visible_str s → to_str (as_bytes s) = Some s.
Proof.
  unfold visible_str, to_str. intros ->. unfold as_bytes. by rewrite string_of_list_ascii_of_string.
Qed.

Lemma trim_start_graphic s : (∀ b, b ∈ s → 33 ≤ u8_val b) → trim_start s = s.
Proof.
  destruct s as [|b s]; intros Hs; [done|]. simpl. unfold is_white. rewrite bool_decide_eq_false_2; [done|].
  pose proof (Hs b ltac:(left)). lia.
Qed.
Lemma trim_graphic s : (∀ b, b ∈ as_bytes s → 33 ≤ u8_val b) → trim s = s.
Proof.
  intros Hs. unfold trim. rewrite (trim_start_graphic (as_bytes s)), trim_start_graphic, rev_involutive.
  - unfold as_bytes. by rewrite string_of_list_ascii_of_string.
  - intros b Hb. apply Hs. by apply list_elem_of_In, in_rev, list_elem_of_In in Hb.
  - done.
Qed.

Lemma get_all_insert m n v : get_all (hm_insert m n v) n = [v].
Proof.
  induction m as [|[k vs] m IH]; simpl; [by rewrite decide_True|].
  case_decide; simpl; [by rewrite decide_True|by rewrite decide_False].
Qed.
Lemma get_all_insert_ne m n k v : n ≠ k → get_all (hm_insert m n v) k = get_all m k.
Proof.
  intros Hne. induction m as [|[j vs] m IH]; simpl; [by rewrite decide_False|].
  case_decide; simpl; [subst; by rewrite !decide_False|]. by rewrite IH.
Qed.
Lemma hm_get_insert m n v : hm_get (hm_insert m n v) n = Some v.
Proof. unfold hm_get. by rewrite get_all_insert. Qed.
Lemma hm_get_insert_ne m n k v : n ≠ k → hm_get (hm_insert m n v) k = hm_get m k.
Proof. intros. unfold hm_get. by rewrite get_all_insert_ne. Qed.

Lemma get_all_elem m n vs : hm_wf m → (n, vs) ∈ m → get_all m n = vs.
Proof.
  unfold hm_wf, hm_names. induction m as [|[k ws] m IH]; [by intros _ ?%elem_of_nil|].
  rewrite fmap_cons, NoDup_cons. intros [Hk Hnd] [[= -> ->]|Hin]%elem_of_cons; simpl.
  - by rewrite decide_True.
  - rewrite decide_False; [auto|]. intros ->. apply Hk. by apply (list_elem_of_fmap_2 fst _ (n, vs)).
Qed.
