(* ===== verification/Oblivious.v ===== *)
(** * The oblivious transport and the client builder

    [crates/openhttpa-transport/src/oblivious.rs]: a transport that encrypts the body of
    every request to the server's ML-KEM key and decrypts the body of the response,
    with the server's side of it; and [crates/openhttpa-client/src/builder.rs], which
    assembles a client and wraps its transport.

    ML-KEM and HKDF-SHA-256 are those of [KeyExchange], AES-256-GCM that of [Crypto];
    key generations, encapsulation randomness and nonces are arguments.  A transport is
    a function from requests to responses. *)

From S2P Require Import Prelude Crypto Aead Proto KeySchedule Attestation Tee KeyExchange Http.
From stdpp Require Import options.

#[local] Open Scope Z_scope.

(** ** Transports *)

Inductive SendError : Type :=
| Connection (msg : string)
| Io (msg : string)
| Cancelled
| Protocol (msg : string).
#[export] Instance SendError_eq_dec : EqDecision SendError.
Proof. solve_decision. Defined.
#[export] Instance send_error_display : Display SendError := λ e,
  match e with
  | Connection m => "connection error: " +:+ m
  | Io m => "I/O error: " +:+ m
  | Cancelled => "request cancelled"
  | Protocol m => "protocol error: " +:+ m
  end.

Module Transport.
(** Bodies are collected: a stream that fails on the way is an error of the sender. *)
Record Request : Type := mk_request { method : string; uri : string; req_headers : HeaderMap; req_body : bytes; req_trailers : option HeaderMap }.
Record Response : Type := mk_response { status : Z; resp_headers : HeaderMap; resp_body : bytes; resp_trailers : option HeaderMap }.
Definition t : Type := Request → outcome (result SendError Response).

(** [to_bytes] *)
Definition to_bytes (body : bytes) (limit : Z) : result string bytes :=
  if decide (Z.of_nat (length body) ≤ limit) then Ok body else Err "length limit exceeded"%string.
End Transport.
Import Transport.

(** ** Encryption *)

Inductive ObliviousError : Type :=
| Kem (msg : string)
| Malformed
| CryptoError (msg : string)
| TransportError (e : SendError).
#[export] Instance ObliviousError_eq_dec : EqDecision ObliviousError.
Proof. solve_decision. Defined.
#[export] Instance oblivious_error_display : Display ObliviousError := λ e,
  match e with
  | Kem m => "KEM error: " +:+ m
  | Malformed => "malformed oblivious message"
  | CryptoError m => "crypto error: " +:+ m
  | TransportError e => "transport error: " +:+ to_string e
  end.

Definition BODY_LIMIT : Z := 100 * 1024 * 1024.

Section oblivious.
Context {AP : AeadPrim} {KP : KexPrim}.

Definition derive_session_keys (shared_secret : bytes) : result ObliviousError (bytes * bytes) :=
  req_key ← ok_or (hkdf_sha256 (as_bytes "openhttpa-oblivious") shared_secret (as_bytes "req") 32) (CryptoError "HKDF expand(req) failed");
  resp_key ← ok_or (hkdf_sha256 (as_bytes "openhttpa-oblivious") shared_secret (as_bytes "resp") 32) (CryptoError "HKDF expand(resp) failed");
  Ok (req_key, resp_key).

Definition aes_encrypt (nonce key plaintext : bytes) : result ObliviousError bytes :=
  ciphertext ← ok_or (prim_seal Aes256Gcm key nonce [] plaintext) (CryptoError "AES-256-GCM encrypt failed: Error");
  Ok (nonce ++ ciphertext).

Definition aes_decrypt (key nonce_and_ct : bytes) : result ObliviousError bytes :=
  if decide (length nonce_and_ct < NONCE_LEN)%nat then Err Malformed
  else ok_or (prim_open Aes256Gcm key (take NONCE_LEN nonce_and_ct) [] (drop NONCE_LEN nonce_and_ct))
         (CryptoError "AES-256-GCM decrypt failed: Error").

(** ** The client *)

Record ObliviousClient : Type := mk_oblivious { inner : Transport.t; server_public_key : bytes; oc_key_id : byte }.

(** What a request draws: the key pair it generates and does not use, the randomness of
    the encapsulation and the nonce. *)
Record ObliviousEnv : Type := mk_oblivious_env { oe_keygen : result string (); oe_encap : bytes; oe_nonce : bytes }.

(** The text that [{e:?}] gives for a failed KEM operation. *)
Context (kem_error : string).

(** key id, length and value of the KEM ciphertext, nonce and ciphertext; a length that
    does not fit 16 bits panics. *)
Definition frame (key_id : byte) (kem_ct enc_payload : bytes) : outcome bytes :=
  if decide (Z.of_nat (length kem_ct) < 65536) then Returns (key_id :: u16_be (Z.of_nat (length kem_ct)) ++ kem_ct ++ enc_payload)
  else Panics.

(** Steps 1 to 4: the request that goes to the inner transport, and the response key. *)
Definition seal_request (env : ObliviousEnv) (c : ObliviousClient) (req : Request) : outcome (result SendError (Request * bytes)) :=
  match (_ ← map_err (λ e, Connection ("ML-KEM keygen failed: " +:+ e)) (oe_keygen env);
         '(shared_secret, kem_ct) ← ok_or (mlkem_encap (server_public_key c) (oe_encap env)) (Connection ("ML-KEM encap failed: " +:+ kem_error));
         '(req_key, resp_key) ← map_err (λ e, Connection (to_string e)) (derive_session_keys shared_secret);
         body ← map_err (λ e, Protocol ("body collect error: " +:+ e)) (to_bytes (req_body req) BODY_LIMIT);
         enc ← map_err (λ e, Connection (to_string e)) (aes_encrypt (oe_nonce env) req_key body);
         Ok (kem_ct, enc, resp_key)) with
  | Err e => Returns (Err e)
  | Ok (kem_ct, enc, resp_key) =>
      enc_body ← frame (oc_key_id c) kem_ct enc;
      Returns (Ok (mk_request (method req) (uri req) (hm_insert (req_headers req) "content-type" (as_bytes "message/oblivious-http"))
                     enc_body (req_trailers req), resp_key))
  end.

Definition send (env : ObliviousEnv) (c : ObliviousClient) : Transport.t := λ req,
  sealed ← seal_request env c req;
  match sealed with
  | Err e => Returns (Err e)
  | Ok (outer, resp_key) =>
      answer ← inner c outer;
      Returns (
        resp ← answer;
        body ← map_err (λ e, Protocol ("resp body collect error: " +:+ e)) (to_bytes (resp_body resp) BODY_LIMIT);
        plaintext ← map_err (λ e, Connection (to_string e)) (aes_decrypt resp_key body);
        Ok (mk_response (status resp) (resp_headers resp) plaintext (resp_trailers resp)))
  end.

(** ** The server *)

(** The decapsulation key stands for the pair. *)
Record ObliviousServer : Type := mk_oblivious_server { server_keypair : bytes }.
Definition public_encap_key (s : ObliviousServer) : bytes := mlkem_encap_key (server_keypair s).

Definition decapsulate (s : ObliviousServer) (enc_body : bytes) : result ObliviousError (bytes * bytes) :=
  match enc_body with
  | _ :: l1 :: l2 :: rest =>
      let kem_ct_len := Z.to_nat (from_be [l1; l2]) in
      if decide (length enc_body < 3 + kem_ct_len + NONCE_LEN)%nat then Err Malformed
      else
        shared_secret ← ok_or (mlkem_decap (server_keypair s) (take kem_ct_len rest)) (Kem kem_error);
        '(req_key, resp_key) ← derive_session_keys shared_secret;
        plaintext ← aes_decrypt req_key (drop kem_ct_len rest);
        Ok (plaintext, resp_key)
  | _ => Err Malformed
  end.

Definition encapsulate_response (nonce resp_key body : bytes) : result ObliviousError bytes := aes_encrypt nonce resp_key body.

Context {AL : AeadLaws AP} {KL : KexLaws KP}.

Lemma session_keys_total ss : ∃ rk sk, derive_session_keys ss = Ok (rk, sk) ∧ length rk = 32%nat ∧ length sk = 32%nat.
Proof using KL.
  unfold derive_session_keys. destruct (hkdf_sha256_some (as_bytes "openhttpa-oblivious") ss (as_bytes "req") 32) as (rk & Hr & Hlr); [lia|].
  destruct (hkdf_sha256_some (as_bytes "openhttpa-oblivious") ss (as_bytes "resp") 32) as (sk & Hs & Hls); [lia|].
  rewrite Hr, Hs. by exists rk, sk.
Qed.
Lemma aes_round_trip nonce key pt ct : length nonce = NONCE_LEN → aes_encrypt nonce key pt = Ok ct → aes_decrypt key ct = Ok pt.
Proof using AL.
  unfold aes_encrypt, aes_decrypt. intros Hn H. inv_ok. rewrite length_app, decide_False by lia.
  rewrite take_app_length', drop_app_length' by done. match goal with E : prim_seal _ _ _ _ _ = Some _ |- _ => apply prim_open_iff in E as -> end. done.
Qed.
Lemma aes_encrypt_total nonce key pt :
  length key = 32%nat → Z.of_nat (length pt) ≤ 2 ^ 36 - 32 →
  ∃ ct, aes_encrypt nonce key pt = Ok ct ∧ length ct = (length nonce + length pt + TAG_LEN)%nat.
Proof using AL.
  intros Hk Hp. unfold aes_encrypt. destruct (prim_seal_some Aes256Gcm key nonce [] pt Hk Hp) as [ct Hct]. rewrite Hct. eexists. split; [done|].
  apply prim_seal_length in Hct. rewrite length_app. lia.
Qed.

(** A sealed request is opened by the server it was sealed to, which derives the same
    response key. *)
Lemma seal_opens env c s req outer rk :
  server_public_key c = public_encap_key s → length (oe_nonce env) = NONCE_LEN →
  seal_request env c req = Returns (Ok (outer, rk)) →
  decapsulate s (req_body outer) = Ok (req_body req, rk) ∧ length rk = 32%nat ∧
  method outer = method req ∧ uri outer = uri req ∧ req_trailers outer = req_trailers req ∧
  req_headers outer = hm_insert (req_headers req) "content-type" (as_bytes "message/oblivious-http").
Proof using AL KL.
  intros Hpk Hn. unfold seal_request. destruct (oe_keygen env) as [[]|]; [|done]. cbn [map_err mbind result_bind].
  destruct (mlkem_encap _ _) as [[ss kem_ct]|] eqn:Hencap; [|done]. cbn [ok_or mbind result_bind].
  destruct (session_keys_total ss) as (qk & sk & Hkeys & _ & Hl). rewrite Hkeys. cbn [map_err mbind result_bind].
  unfold to_bytes. destruct (decide _); [|done]. cbn [map_err mbind result_bind].
  destruct (aes_encrypt _ qk _) as [enc|] eqn:Henc; [|done]. cbn [map_err mbind result_bind].
  destruct (mlkem_encap_length _ _ _ _ Hencap) as (_ & _ & Hct). rewrite Hpk in Hencap. apply mlkem_correct in Hencap.
  assert (∃ b1 b2, u16_be (Z.of_nat 1088) = [b1; b2] ∧ Z.to_nat (from_be [b1; b2]) = 1088%nat) as (b1 & b2 & Hu & Hb).
  { do 2 eexists. split; [reflexivity|vm_compute; reflexivity]. }
  unfold frame. rewrite decide_True by lia. rewrite Hct, Hu. cbn [app]. intros [= <- <-].
  cbn [req_body method uri req_trailers req_headers]. split_and!; try done. unfold decapsulate. rewrite Hb.
  destruct (decide _) as [Hlt|_]; [|].
  - exfalso. unfold aes_encrypt in Henc. inv_ok. cbn [length] in Hlt. rewrite !length_app in Hlt. lia.
  - rewrite take_app_length', drop_app_length' by done. rewrite Hencap. cbn [ok_or mbind result_bind]. rewrite Hkeys. cbn [mbind result_bind].
    by rewrite (aes_round_trip _ _ _ _ Hn Henc).
Qed.

Lemma ehbp_seal_total env c req :
  oe_keygen env = Ok () → is_Some (mlkem_encap (server_public_key c) (oe_encap env)) → Z.of_nat (length (req_body req)) ≤ BODY_LIMIT →
  ∃ outer rk, seal_request env c req = Returns (Ok (outer, rk)).
Proof using AL KL.
  intros Hg [[ss ct] He] Hb. unfold seal_request. rewrite Hg, He. cbn [map_err ok_or mbind result_bind].
  destruct (session_keys_total ss) as (rk & sk & Hk & Hlr & _). rewrite Hk. cbn [map_err mbind result_bind].
  unfold to_bytes. rewrite decide_True by done. cbn [map_err mbind result_bind].
  destruct (aes_encrypt_total (oe_nonce env) rk (req_body req) Hlr) as (enc & Henc & _); [unfold BODY_LIMIT in Hb; lia|].
  rewrite Henc. cbn [map_err mbind result_bind]. unfold frame.
  destruct (mlkem_encap_length _ _ _ _ He) as (_ & _ & Hct). rewrite decide_True by lia. by do 2 eexists.
Qed.

(** How the deployment reports a failure of the server. *)
Definition TransportErrorOf (e : ObliviousError) : SendError := Connection (to_string e).

(** A relay that delivers to the server, which answers with [f] of the plaintext. *)
Definition relay (s : ObliviousServer) (nonce : bytes) (f : bytes → bytes) : Transport.t := λ req,
  Returns (
    '(pt, rk) ← map_err TransportErrorOf (decapsulate s (req_body req));
    ct ← map_err TransportErrorOf (encapsulate_response nonce rk (f pt));
    Ok (mk_response 200 [] ct None)).
End oblivious.

(** [C30] An oblivious exchange delivers: the server recovers exactly the body that the
    client was given, and the client receives exactly the body with which the server
    answered, for every body within the limit of 100 MiB; the length field of the
    frame never overflows. *)
Theorem oblivious_exchange {AP : AeadPrim} {KP : KexPrim} {AL : AeadLaws AP} {KL : KexLaws KP} (kem_error : string)
    (s : ObliviousServer) (key_id : byte) (env : ObliviousEnv) (nonce : bytes) (f : bytes → bytes) (req : Request) :
  let c := mk_oblivious (relay kem_error s nonce f) (public_encap_key s) key_id in
  length (oe_nonce env) = NONCE_LEN → length nonce = NONCE_LEN → oe_keygen env = Ok () →
  is_Some (mlkem_encap (public_encap_key s) (oe_encap env)) →
  Z.of_nat (length (req_body req)) ≤ BODY_LIMIT → Z.of_nat (length (f (req_body req))) + 28 ≤ BODY_LIMIT →
  (∃ outer rk, seal_request kem_error env c req = Returns (Ok (outer, rk)) ∧ decapsulate kem_error s (req_body outer) = Ok (req_body req, rk)) ∧
  send kem_error env c req = Returns (Ok (mk_response 200 [] (f (req_body req)) None)).
Proof.
  intros c Hn Hn' Hg He Hb Hf. destruct (ehbp_seal_total kem_error env c req Hg He Hb) as (outer & rk & Hseal).
  destruct (seal_opens kem_error env c s req outer rk eq_refl Hn Hseal) as (Hdec & Hlen & _).
  split; [by exists outer, rk|]. unfold send. rewrite Hseal. cbn [mbind outcome_bind inner c relay]. unfold relay. rewrite Hdec.
  cbn [map_err mbind result_bind]. unfold encapsulate_response.
  destruct (aes_encrypt_total nonce rk (f (req_body req)) Hlen) as (ct & Hct & Hl); [unfold BODY_LIMIT in Hf; lia|].
  rewrite Hct. cbn [map_err mbind result_bind outcome_bind resp_body resp_headers status resp_trailers]. unfold to_bytes.
  rewrite decide_True by (unfold NONCE_LEN, TAG_LEN in *; lia). cbn [map_err mbind result_bind].
  rewrite (aes_round_trip _ _ _ _ Hn' Hct). done.
Qed.

(** Only bodies are encrypted: method, address, trailers and all headers but the content
    type reach the relay as they are. *)
Theorem oblivious_metadata_clear {AP : AeadPrim} {KP : KexPrim} {AL : AeadLaws AP} {KL : KexLaws KP} (kem_error : string)
    (env : ObliviousEnv) (c : ObliviousClient) (s : ObliviousServer) (req outer : Request) (rk : bytes) (name : string) :
  server_public_key c = public_encap_key s → length (oe_nonce env) = NONCE_LEN →
  seal_request kem_error env c req = Returns (Ok (outer, rk)) → name ≠ "content-type"%string →
  method outer = method req ∧ uri outer = uri req ∧ req_trailers outer = req_trailers req ∧
  get_all (req_headers outer) name = get_all (req_headers req) name.
Proof.
  intros Hpk Hn Hseal Hname. destruct (seal_opens kem_error env c s req outer rk Hpk Hn Hseal) as (_ & _ & Hm & Hu & Ht & ->).
  split_and!; [done..|]. by rewrite get_all_insert_ne.
Qed.

(** The frame's structure is checked before any key is used. *)
Theorem decapsulate_malformed {AP : AeadPrim} {KP : KexPrim} (kem_error : string) (s : ObliviousServer) (b : bytes) :
  (length b < 15)%nat → decapsulate kem_error s b = Err Malformed.
Proof.
  intros Hb. unfold decapsulate. destruct b as [|k [|l1 [|l2 rest]]]; try done.
  destruct (decide _) as [|Hge]; [done|]. unfold NONCE_LEN in Hge. lia.
Qed.

(** ** The client builder *)

Record ObliviousConfig : Type := mk_oblivious_config { gateway_uri : string; oblivious_key : bytes; oblivious_key_id : byte }.

Inductive ClientBuildError : Type := MissingServerUri | MissingVerifier | NoTeeProvider (msg : string).
#[export] Instance ClientBuildError_eq_dec : EqDecision ClientBuildError.
Proof. solve_decision. Defined.

(** Where the evidence comes from, who checks the server's, and what carries requests. *)
Inductive ProviderChoice : Type := DetectedProvider (k : ProviderKind) | GivenProvider (p : TeeOps).
Inductive VerifierChoice : Type := MockVerifierChoice | GivenVerifier (v : QuoteVerifier).
Inductive TransportChoice : Type :=
| ReqwestTransport
| GivenTransport (t : Transport.t)
| ObliviousTransport (inner : TransportChoice) (key : bytes) (key_id : byte).

Record OpenHttpaClientBuilder : Type := mk_builder {
  b_server_uri : option string;
  b_tee_providers : list TeeOps;
  b_verifier : option QuoteVerifier;
  b_transport : option Transport.t;
  b_tee_config : option TeeConfig;
  b_strict_attestation : bool;
  b_require_preflight : bool;
  b_oblivious_config : option ObliviousConfig;
  b_server_identity_pub : option bytes;
  b_max_response_size : option Z;
}.
Definition builder : OpenHttpaClientBuilder := mk_builder None [] None None None false false None None None.
Definition DEFAULT_MAX_RESPONSE_SIZE : Z := 16 * 1024 * 1024.

Definition with_server_uri (b : OpenHttpaClientBuilder) (u : string) : OpenHttpaClientBuilder :=
  mk_builder (Some u) (b_tee_providers b) (b_verifier b) (b_transport b) (b_tee_config b) (b_strict_attestation b) (b_require_preflight b)
    (b_oblivious_config b) (b_server_identity_pub b) (b_max_response_size b).
Definition with_tee_providers (b : OpenHttpaClientBuilder) (ps : list TeeOps) : OpenHttpaClientBuilder :=
  mk_builder (b_server_uri b) ps (b_verifier b) (b_transport b) (b_tee_config b) (b_strict_attestation b) (b_require_preflight b)
    (b_oblivious_config b) (b_server_identity_pub b) (b_max_response_size b).
(** [tee_provider] replaces, [add_tee_provider] appends. *)
Definition tee_provider (b : OpenHttpaClientBuilder) (p : TeeOps) : OpenHttpaClientBuilder := with_tee_providers b [p].
Definition add_tee_provider (b : OpenHttpaClientBuilder) (p : TeeOps) : OpenHttpaClientBuilder := with_tee_providers b (b_tee_providers b ++ [p]).
Definition with_verifier (b : OpenHttpaClientBuilder) (v : QuoteVerifier) : OpenHttpaClientBuilder :=
  mk_builder (b_server_uri b) (b_tee_providers b) (Some v) (b_transport b) (b_tee_config b) (b_strict_attestation b) (b_require_preflight b)
    (b_oblivious_config b) (b_server_identity_pub b) (b_max_response_size b).
Definition require_preflight (b : OpenHttpaClientBuilder) : OpenHttpaClientBuilder :=
  mk_builder (b_server_uri b) (b_tee_providers b) (b_verifier b) (b_transport b) (b_tee_config b) (b_strict_attestation b) true
    (b_oblivious_config b) (b_server_identity_pub b) (b_max_response_size b).
Definition oblivious_gateway (b : OpenHttpaClientBuilder) (gateway : string) (key : bytes) (key_id : byte) : OpenHttpaClientBuilder :=
  mk_builder (b_server_uri b) (b_tee_providers b) (b_verifier b) (b_transport b) (b_tee_config b) (b_strict_attestation b) (b_require_preflight b)
    (Some (mk_oblivious_config gateway key key_id)) (b_server_identity_pub b) (b_max_response_size b).
Definition max_response_size (b : OpenHttpaClientBuilder) (n : Z) : outcome OpenHttpaClientBuilder :=
  if decide (0 < n) then
    Returns (mk_builder (b_server_uri b) (b_tee_providers b) (b_verifier b) (b_transport b) (b_tee_config b) (b_strict_attestation b)
               (b_require_preflight b) (b_oblivious_config b) (b_server_identity_pub b) (Some n))
  else Panics.

(** The arguments of [OpenHttpaClient::new]. *)
Record BuiltClient : Type := mk_built {
  built_uri : string;
  built_provider : ProviderChoice;
  built_verifier : VerifierChoice;
  built_transport : TransportChoice;
  built_strict : bool;
  built_preflight : bool;
  built_identity_pub : option bytes;
  built_max_response : Z;
}.

Definition choose_provider (build : Build) (avail : ProviderKind → bool) (b : OpenHttpaClientBuilder) : outcome (result ClientBuildError ProviderChoice) :=
  match b_tee_providers b with
  | [] =>
      r ← detect_best_provider build avail (default (default_tee_config build) (b_tee_config b));
      Returns (map_err (λ e, NoTeeProvider (to_string e)) (k ← r; Ok (DetectedProvider k)))
  | [p] => Returns (Ok (GivenProvider p))
  | ps => Returns (Ok (GivenProvider (CompositeTeeProvider.ops ps)))
  end.

Definition choose_verifier (build : Build) (b : OpenHttpaClientBuilder) : result ClientBuildError VerifierChoice :=
  match b_verifier b with
  | Some v => Ok (GivenVerifier v)
  | None => if feature build "mock" && debug_build build then Ok MockVerifierChoice else Err MissingVerifier
  end.

Definition try_build (build : Build) (avail : ProviderKind → bool) (b : OpenHttpaClientBuilder) : outcome (result ClientBuildError BuiltClient) :=
  match b_server_uri b with
  | None => Returns (Err MissingServerUri)
  | Some uri =>
      provider ← choose_provider build avail b;
      Returns (
        provider ← provider;
        verifier ← choose_verifier build b;
        let transport := match b_transport b with Some t => GivenTransport t | None => ReqwestTransport end in
        let transport :=
          match b_oblivious_config b with
          | Some conf => ObliviousTransport transport (oblivious_key conf) (oblivious_key_id conf)
          | None => transport
          end in
        Ok (mk_built uri provider verifier transport (b_strict_attestation b) (b_require_preflight b) (b_server_identity_pub b)
              (default DEFAULT_MAX_RESPONSE_SIZE (b_max_response_size b))))
  end.

(** [build] panics on an error. *)
Definition build_client (build : Build) (avail : ProviderKind → bool) (b : OpenHttpaClientBuilder) : outcome BuiltClient :=
  r ← try_build build avail b; match r with Ok c => Returns c | Err _ => Panics end.

(** A client of a release build always checks the server's evidence with the verifier it
    was given; without one there is no client. *)
Theorem release_client_verifies (build : Build) (avail : ProviderKind → bool) (b : OpenHttpaClientBuilder) (c : BuiltClient) :
  debug_build build = false → try_build build avail b = Returns (Ok c) →
  ∃ v, b_verifier b = Some v ∧ built_verifier c = GivenVerifier v.
Proof.
  intros Hrel. unfold try_build. destruct (b_server_uri b) as [u|]; [|done]. destruct (choose_provider build avail b) as [p|]; [|done].
  cbn [mbind outcome_bind]. intros [= H]. inv_ok. cbn [built_verifier]. unfold choose_verifier in *. destruct (b_verifier b) as [v|]; inv_ok; [by exists v|].
  rewrite Hrel, andb_false_r in *. done.
Qed.

(** The gateway's address is not used: a client built for one gateway is the client built
    for any other. *)
Theorem gateway_ignored (build : Build) (avail : ProviderKind → bool) (b : OpenHttpaClientBuilder) (g1 g2 : string) (key : bytes) (key_id : byte) :
  try_build build avail (oblivious_gateway b g1 key key_id) = try_build build avail (oblivious_gateway b g2 key key_id).
Proof. done. Qed.

(** ** Concrete runs *)

#[local] Existing Instances Toy.aead Toy.aead_laws ToyKex.prim ToyKex.laws.

Lemma oblivious_exchange_witness :
  let s := mk_oblivious_server (as_bytes "secret") in
  send EmptyString (mk_oblivious_env (Ok ()) (as_bytes "r") (replicate 12 NUL))
    (mk_oblivious (relay EmptyString s (replicate 12 NUL) reverse) (public_encap_key s) NUL)
    (mk_request "POST" "https://example.org/x" [] (as_bytes "abc") None) = Returns (Ok (mk_response 200 [] (as_bytes "cba") None)).
Proof.
  intros s. refine (proj2 (oblivious_exchange EmptyString s NUL (mk_oblivious_env (Ok ()) (as_bytes "r") (replicate 12 NUL)) (replicate 12 NUL) reverse
    (mk_request "POST" "https://example.org/x" [] (as_bytes "abc") None) _ _ _ _ _ _)); try done.
Defined.
