(* ===== verification/Ahl.v ===== *)
(** * The attested header list

    [canonicalize_ahl] and [update_ahl] of
    [crates/openhttpa-headers/src/attest_headers.rs]: the byte string over which
    the MAC of a trusted request is computed.  [update_ahl] feeds chunks to a
    callback; the model returns the chunks that were fed together with the
    result, so a failing call shows what it had already hashed (the tag, length,
    separator and data that the source feeds one by one are one chunk here). *)

From S2P Require Import Prelude Http.
From stdpp Require Import options.

#[local] Open Scope Z_scope.

Inductive HeaderError : Type :=
| Missing (name : string)
| Invalid (name reason : string)
| Base64Error (name reason : string)
| TooManyHeaders (max : nat)
| ValueTooLong (name : string).
#[export] Instance HeaderError_eq_dec : EqDecision HeaderError.
Proof. solve_decision. Defined.

Definition header_error_string (e : HeaderError) : string :=
  match e with
  | Missing name => "missing required header: " +:+ name
  | Invalid name reason => "invalid header value for " +:+ name +:+ ": " +:+ reason
  | Base64Error name reason => "base64 decode error in header " +:+ name +:+ ": " +:+ reason
  | TooManyHeaders max => "too many headers in AHL (max " +:+ pretty.pretty (N.of_nat max) +:+ ")"
  | ValueTooLong name => "header " +:+ name +:+ " exceeds maximum length"
  end.

Definition ATTEST_HEADER_PREFIX : string := "attest-".
Definition STR_ATTEST_TICKET : string := "attest-ticket".
Definition STR_ATTEST_BINDER : string := "attest-binder".
Definition STR_ATTEST_BASE_ID : string := "attest-base-id".

Definition MAX_AHL_HEADERS : nat := 64.
Definition MAX_AHL_HEADER_NAME_LEN : nat := 256.
Definition MAX_AHL_HEADER_VALUE_LEN : nat := Z.to_nat 4096.

Definition AHL_PREFIX_METHOD : bytes := as_bytes "7::method".
Definition AHL_PREFIX_PATH : bytes := as_bytes "5::path".
Definition AHL_PREFIX_QUERY : bytes := as_bytes "6::query".
Definition AHL_PREFIX_AUTHORITY : bytes := as_bytes "10::authority".

(** The two [filter]s over the names. *)
Definition is_attested_name (name : string) : bool :=
  let s := to_lowercase name in
  starts_with ATTEST_HEADER_PREFIX s && bool_decide (s ≠ STR_ATTEST_TICKET) && bool_decide (s ≠ STR_ATTEST_BINDER).

Definition names_le (a b : string * list bytes) : Prop := strings.String.le (to_lowercase a.1) (to_lowercase b.1).
#[export] Instance names_le_dec a b : Decision (names_le a b).
Proof. unfold names_le. apply _. Defined.

(** [[str]::join(",")] *)
Fixpoint join (sep : bytes) (l : list bytes) : bytes :=
  match l with
  | [] => []
  | [v] => v
  | v :: l => v ++ sep ++ join sep l
  end.

(** The joined value of a header: values that are not visible ASCII are left out. *)
Definition joined_value (vs : list bytes) : bytes :=
  join (as_bytes ",") (as_bytes <$> omap to_str vs).

(** The loop over the sorted names. *)
Fixpoint ahl_headers (hs : list (string * list bytes)) : list bytes * result HeaderError () :=
  match hs with
  | [] => ([], Ok ())
  | (name, vs) :: hs =>
      let name_str := to_lowercase name in
      if decide (MAX_AHL_HEADER_NAME_LEN < str_len name_str)%nat then ([], Err (ValueTooLong name_str))
      else
        let val_str := joined_value vs in
        if decide (MAX_AHL_HEADER_VALUE_LEN < length val_str)%nat
        then ([dec_field (as_bytes name_str)], Err (ValueTooLong name_str))
        else
          let '(chunks, r) := ahl_headers hs in
          (dec_field (as_bytes name_str) :: dec_field val_str :: chunks, r)
  end.

Definition attested_headers (m : HeaderMap) : list (string * list bytes) :=
  filter (λ h, is_attested_name h.1 = true) m.

Definition update_ahl (method path : string) (query : option string) (authority : string) (map : HeaderMap)
    : list bytes * result HeaderError () :=
  let base :=
    [AHL_PREFIX_METHOD ++ dec_field (as_bytes (to_ascii_uppercase method));
     AHL_PREFIX_PATH ++ dec_field (as_bytes path);
     AHL_PREFIX_QUERY ++ dec_field (as_bytes (default EmptyString query));
     AHL_PREFIX_AUTHORITY ++ dec_field (as_bytes authority)] in
  let names := attested_headers map in
  if decide (MAX_AHL_HEADERS < length names)%nat then (base, Err (TooManyHeaders MAX_AHL_HEADERS))
  else
    let '(chunks, r) := ahl_headers (merge_sort names_le names) in
    (base ++ chunks, r).

Definition canonicalize_ahl (method path : string) (query : option string) (authority : string) (map : HeaderMap)
    : result HeaderError bytes :=
  let '(chunks, r) := update_ahl method path query authority map in
  _ ← r; Ok (concat chunks).

(** ** What the list commits to *)

(** The attested headers as the peer sees them: lower-case names in order, each
    with its joined value. *)
Definition ahl_view (m : HeaderMap) : list (string * bytes) :=
  (λ h, (to_lowercase h.1, joined_value h.2)) <$> merge_sort names_le (attested_headers m).

Definition within_limits (m : HeaderMap) : Prop :=
  (length (attested_headers m) ≤ MAX_AHL_HEADERS)%nat ∧
  Forall (λ h, (str_len (to_lowercase h.1) ≤ MAX_AHL_HEADER_NAME_LEN)%nat ∧
               (length (joined_value h.2) ≤ MAX_AHL_HEADER_VALUE_LEN)%nat) (attested_headers m).

Definition header_chunks (v : list (string * bytes)) : bytes :=
  concat ((λ '(n, w), dec_field (as_bytes n) ++ dec_field w) <$> v).

Lemma ahl_headers_Ok hs :
  Forall (λ h, (str_len (to_lowercase h.1) ≤ MAX_AHL_HEADER_NAME_LEN)%nat ∧
               (length (joined_value h.2) ≤ MAX_AHL_HEADER_VALUE_LEN)%nat) hs →
  (ahl_headers hs).2 = Ok () ∧
  concat (ahl_headers hs).1 = header_chunks ((λ h, (to_lowercase h.1, joined_value h.2)) <$> hs).
Proof.
  induction 1 as [|[n vs] hs [Hn Hv] _ [IH1 IH2]]; [done|]. cbn [ahl_headers]. simpl in Hn, Hv.
  rewrite decide_False by lia. rewrite decide_False by lia.
  destruct (ahl_headers hs) as [chunks r]. simpl in *. split; [done|].
  rewrite IH2. unfold header_chunks. cbn. by rewrite <-app_assoc.
Qed.
Lemma ahl_headers_Err hs :
  ¬ Forall (λ h, (str_len (to_lowercase h.1) ≤ MAX_AHL_HEADER_NAME_LEN)%nat ∧
               (length (joined_value h.2) ≤ MAX_AHL_HEADER_VALUE_LEN)%nat) hs →
  ∃ h, h ∈ hs ∧ (ahl_headers hs).2 = Err (ValueTooLong (to_lowercase h.1)).
Proof.
  induction hs as [|[n vs] hs IH]; intros Hn; [by destruct Hn|]. cbn [ahl_headers].
  destruct (decide (_ < str_len _)%nat) as [|H1]; [exists (n, vs); set_solver|].
  destruct (decide (_ < length _)%nat) as [|H2]; [exists (n, vs); set_solver|].
  destruct IH as (h & Hh & Heq).
  { intros Hall. apply Hn. constructor; [simpl; lia|done]. }
  destruct (ahl_headers hs) as [chunks r]. simpl in *. exists h. set_solver.
Qed.

Lemma canonicalize_Ok method path query authority m :
  within_limits m →
  canonicalize_ahl method path query authority m = Ok (
    AHL_PREFIX_METHOD ++ dec_field (as_bytes (to_ascii_uppercase method)) ++
    AHL_PREFIX_PATH ++ dec_field (as_bytes path) ++
    AHL_PREFIX_QUERY ++ dec_field (as_bytes (default EmptyString query)) ++
    AHL_PREFIX_AUTHORITY ++ dec_field (as_bytes authority) ++ header_chunks (ahl_view m)).
Proof.
  intros [Hlen Hall]. unfold canonicalize_ahl, update_ahl. rewrite decide_False by lia.
  destruct (ahl_headers_Ok (merge_sort names_le (attested_headers m))) as [Hr Hc].
  { by rewrite merge_sort_Permutation. }
  destruct (ahl_headers _) as [chunks r]. simpl in Hr, Hc. subst r. cbn [mbind result_bind]. f_equal.
  rewrite concat_app, Hc. cbn [concat]. unfold ahl_view. rewrite app_nil_r, <-!app_assoc. done.
Qed.

Lemma canonicalize_Err method path query authority m :
  ¬ within_limits m →
  canonicalize_ahl method path query authority m = Err (TooManyHeaders MAX_AHL_HEADERS) ∨
  ∃ h, h ∈ attested_headers m ∧
    canonicalize_ahl method path query authority m = Err (ValueTooLong (to_lowercase h.1)).
Proof.
  intros Hw. unfold canonicalize_ahl, update_ahl. destruct (decide (_ < _)%nat) as [|Hlen]; [by left|]. right.
  destruct (ahl_headers_Err (merge_sort names_le (attested_headers m))) as (h & Hh & Heq).
  { rewrite merge_sort_Permutation. intros Hall. apply Hw. split; [lia|done]. }
  rewrite merge_sort_Permutation in Hh. exists h. split; [done|].
  destruct (ahl_headers _) as [chunks r]. simpl in Heq. by subst r.
Qed.

#[export] Instance within_limits_dec m : Decision (within_limits m).
Proof. unfold within_limits. apply _. Defined.
Definition limits_dec (m : HeaderMap) : {within_limits m} + {¬ within_limits m} := decide (within_limits m).

Lemma header_chunks_inj v w : header_chunks v = header_chunks w → v = w.
Proof.
  revert w. induction v as [|[n x] v IH]; intros [|[k y] w]; unfold header_chunks; cbn; try done.
  - unfold dec_field. intros Heq. by destruct (dec (length (as_bytes k))).
  - unfold dec_field. intros Heq. by destruct (dec (length (as_bytes n))).
  - rewrite <-!app_assoc. intros [->%as_bytes_inj [-> Heq]%dec_field_inj]%dec_field_inj. by rewrite (IH w).
Qed.

#[export] Instance names_le_total : Total names_le.
Proof. intros a b. unfold names_le. apply (total strings.String.le). Qed.
#[export] Instance names_le_trans : Transitive names_le.
Proof. intros a b c. unfold names_le. apply transitivity. Qed.

(** Lower-case names do not change when they are lower-cased. *)
Definition names_lower (m : HeaderMap) : Prop := Forall (λ h, to_lowercase h.1 = h.1) m.

Lemma sort_unique m1 m2 :
  hm_wf m1 → names_lower m1 → m1 ≡ₚ m2 →
  merge_sort names_le (attested_headers m1) = merge_sort names_le (attested_headers m2).
Proof.
  intros Hwf Hlow Hp.
  assert (attested_headers m1 ≡ₚ attested_headers m2) as Hpa by (unfold attested_headers; by rewrite Hp).
  apply (StronglySorted_unique_strong names_le); [|by apply StronglySorted_merge_sort; apply _..|].
  - intros [n1 v1] [n2 v2]. rewrite !merge_sort_Permutation, <-Hpa.
    intros [_ H1]%list_elem_of_filter [_ H2]%list_elem_of_filter. unfold names_le. simpl. intros Hle Hge.
    unfold names_lower in Hlow. rewrite Forall_forall in Hlow. pose proof (Hlow _ H1) as L1. pose proof (Hlow _ H2) as L2. simpl in L1, L2.
    rewrite L1, L2 in *. pose proof (anti_symm strings.String.le _ _ Hle Hge) as ->.
    f_equal. rewrite <-(get_all_elem _ _ _ Hwf H1). by apply get_all_elem.
  - by rewrite !merge_sort_Permutation.
Qed.

Lemma canonicalize_single method path query authority name vs vs' :
  joined_value vs = joined_value vs' →
  canonicalize_ahl method path query authority [(name, vs)] = canonicalize_ahl method path query authority [(name, vs')].
Proof.
  intros Hj. unfold canonicalize_ahl, update_ahl.
  assert (∀ vs, attested_headers [(name, vs)] = if is_attested_name name then [(name, vs)] else []) as Ha.
  { intros ws. unfold attested_headers, filter. cbn. by destruct (is_attested_name name). }
  rewrite !Ha. destruct (is_attested_name name); [|done].
  assert (∀ h, merge_sort names_le [h] = [h]) as Hs by done. rewrite !Hs.
  rewrite !decide_False by (vm_compute; lia). cbn [ahl_headers]. by rewrite Hj.
Qed.

(** ** Properties *)

Lemma within_limits_view m :
  within_limits m ↔ (length (ahl_view m) ≤ MAX_AHL_HEADERS)%nat ∧
    Forall (λ h, (str_len h.1 ≤ MAX_AHL_HEADER_NAME_LEN)%nat ∧ (length h.2 ≤ MAX_AHL_HEADER_VALUE_LEN)%nat) (ahl_view m).
Proof.
  unfold within_limits, ahl_view. rewrite length_fmap, Forall_fmap, !merge_sort_Permutation. done.
Qed.
Lemma canonicalize_limits method path query authority m ahl : canonicalize_ahl method path query authority m = Ok ahl → within_limits m.
Proof.
  intros H. destruct (limits_dec m) as [L|L]; [done|]. destruct (canonicalize_Err method path query authority m L) as [?|(? & _ & ?)]; congruence.
Qed.

(** [C10] What the header list commits to, exactly: a second request has the canonical bytes
    of the first if and only if it has the same method up to ASCII case, the same path and
    authority, the same query where an absent one counts as empty, and the same attested
    headers in their view, which joins the values of a header.  A MAC over the bytes commits
    to all of this, and to nothing that the view leaves out. *)
Theorem ahl_injective method path query authority m method' path' query' authority' m' ahl :
  canonicalize_ahl method path query authority m = Ok ahl →
  canonicalize_ahl method' path' query' authority' m' = Ok ahl ↔
  to_ascii_uppercase method = to_ascii_uppercase method' ∧ path = path' ∧
  default EmptyString query = default EmptyString query' ∧ authority = authority' ∧ ahl_view m = ahl_view m'.
Proof.
  intros H1. pose proof (canonicalize_limits _ _ _ _ _ _ H1) as L1. rewrite canonicalize_Ok in H1 by done. split.
  - intros H2. pose proof (canonicalize_limits _ _ _ _ _ _ H2) as L2. rewrite canonicalize_Ok in H2 by done.
    pose proof (eq_trans H1 (eq_sym H2)) as Heq. apply (inj Ok) in Heq.
    repeat (apply (inj (app _)) in Heq; apply dec_field_inj in Heq as [?%as_bytes_inj Heq]).
    apply header_chunks_inj in Heq. by split_and!.
  - intros (Hm & <- & Hq & <- & Hv). rewrite <-H1. rewrite canonicalize_Ok; [by rewrite <-Hm, <-Hq, <-Hv|].
    apply within_limits_view. rewrite <-Hv. by apply within_limits_view.
Qed.

Lemma ahl_injective_witness :
  to_ascii_uppercase "get" = to_ascii_uppercase "GET" ∧ "/a"%string = "/a"%string ∧
  default EmptyString None = default EmptyString (Some EmptyString) ∧ "h"%string = "h"%string ∧
  ahl_view [] = ahl_view [].
Proof. eapply (ahl_injective "get" "/a" None "h" [] "GET" "/a" (Some EmptyString) "h" []); vm_compute; reflexivity. Defined.

(** The header list does not depend on the order in which the map holds its
    headers, and it is defined exactly within the limits on their number and
    lengths. *)
Theorem ahl_order_independent method path query authority (m1 m2 : HeaderMap) :
  hm_wf m1 → names_lower m1 → m1 ≡ₚ m2 →
  canonicalize_ahl method path query authority m1 = canonicalize_ahl method path query authority m2 ∧
  (is_ok (canonicalize_ahl method path query authority m1) = true ↔ within_limits m1).
Proof.
  intros Hwf Hlow Hp. split.
  - unfold canonicalize_ahl, update_ahl. rewrite (sort_unique m1 m2) by done.
    assert (length (attested_headers m1) = length (attested_headers m2)) as ->; [|done].
    unfold attested_headers. by rewrite Hp.
  - destruct (limits_dec m1) as [L|L].
    + by rewrite canonicalize_Ok.
    + split; [|done]. by destruct (canonicalize_Err method path query authority m1 L) as [->|(? & _ & ->)].
Qed.

Definition demo_headers : HeaderMap :=
  [("attest-b", [as_bytes "2"]); ("attest-a", [as_bytes "1"]); ("host", [as_bytes "h"])]%string.

Lemma ahl_order_independent_witness :
  canonicalize_ahl "GET" "/" None "h" demo_headers = canonicalize_ahl "GET" "/" None "h" (reverse demo_headers).
Proof.
  apply (ahl_order_independent "GET" "/" None "h" demo_headers (reverse demo_headers)).
  - by_compute.
  - repeat constructor.
  - by rewrite reverse_Permutation.
Defined.

(** What the header list does not distinguish: an absent query from an empty
    one, two values of a header from one value with a comma, and a header value
    that is not visible ASCII from no value at all. *)
Theorem ahl_collisions method path authority m (name : string) (v : bytes) :
  to_str v = None →
  canonicalize_ahl method path None authority m = canonicalize_ahl method path (Some EmptyString) authority m ∧
  canonicalize_ahl method path None authority [(name, [as_bytes "a"; as_bytes "b"])] =
    canonicalize_ahl method path None authority [(name, [as_bytes "a,b"])] ∧
  canonicalize_ahl method path None authority [(name, [v])] = canonicalize_ahl method path None authority [(name, [])].
Proof.
  intros Hv. split_and!; [done| |]; apply canonicalize_single; [done|].
  unfold joined_value. cbn [omap list_omap]. by rewrite Hv.
Qed.

Lemma ahl_collisions_witness :
  canonicalize_ahl "GET" "/" None "h" [("attest-x"%string, [[u8_of 200]])] =
    canonicalize_ahl "GET" "/" None "h" [("attest-x"%string, [])].
Proof. apply (ahl_collisions "GET" "/" "h" [] "attest-x" [u8_of 200]). reflexivity. Defined.
