(* ===== verification/Trailers.v ===== *)
(** * Ticket and binder trailers

    [crates/openhttpa-headers/src/trailers.rs]: the [Attest-Ticket] header with
    its nonce, mode byte, optional 0-RTT salt and MAC, and the [Attest-Binder].
    Base64 (the crate base64ct) is a class with its round-trip law. *)

From S2P Require Import Prelude Http Proto Ahl.
From stdpp Require Import options.

#[local] Open Scope Z_scope.

Class Base64Prim : Type := {
  b64_encode : bytes → string;
  b64_decode : string → option bytes;
}.
Class Base64Laws (P : Base64Prim) : Prop := {
  b64_decode_encode b : b64_decode (b64_encode b) = Some b;
  (** the alphabet is visible ASCII *)
  b64_visible b : forallb visible (as_bytes (b64_encode b)) = true;
}.

Inductive TrailerError : Type :=
| TrailerMissing (name : string)
| TrailerInvalid (name reason : string).
#[export] Instance TrailerError_eq_dec : EqDecision TrailerError.
Proof. solve_decision. Defined.

Record DecodedTicket : Type := mk_ticket { dt_nonce : Z; dt_mac : bytes; dt_salt : option bytes }.
#[export] Instance DecodedTicket_eq_dec : EqDecision DecodedTicket.
Proof. solve_decision. Defined.

Section trailers.
Context `{BP : Base64Prim}.

Definition ticket_payload (nonce : Z) (mac : bytes) (salt : option bytes) : bytes :=
  u64_be nonce ++ (match salt with Some s => u8_of 1 :: s | None => [u8_of 0] end) ++ mac.

Definition encode_attest_ticket (nonce : Z) (mac : bytes) (salt : option bytes) : bytes :=
  header_value (b64_encode (ticket_payload nonce mac salt)).

(** The common part of both decoders: the header's value, as text, decoded. *)
Definition decode_header (map : HeaderMap) (name : string) : result TrailerError bytes :=
  val ← ok_or (hm_get map name) (TrailerMissing name);
  s ← ok_or (to_str val) (TrailerInvalid name "failed to convert header to a str");
  ok_or (b64_decode s) (TrailerInvalid name "invalid Base64 encoding").

Definition parse_ticket (b : bytes) : result TrailerError DecodedTicket :=
  if decide (length b < 9)%nat then Err (TrailerInvalid STR_ATTEST_TICKET "payload too short")
  else
    let nonce := from_be (take 8 b) in
    let mode := default (u8_of 0) (b !! 8%nat) in
    if decide (mode = u8_of 1) then
      if decide (length b < 25)%nat then Err (TrailerInvalid STR_ATTEST_TICKET "0-RTT salt missing")
      else Ok (mk_ticket nonce (drop 25 b) (Some (take 16 (drop 9 b))))
    else Ok (mk_ticket nonce (drop 9 b) None).

Definition decode_attest_ticket (map : HeaderMap) : result TrailerError DecodedTicket :=
  b ← decode_header map STR_ATTEST_TICKET; parse_ticket b.

Definition encode_attest_binder (request_nonce : Z) (mac : bytes) : bytes :=
  header_value (b64_encode (u64_be request_nonce ++ mac)).

Definition parse_binder (b : bytes) : result TrailerError (Z * bytes) :=
  if decide (length b < 8)%nat then Err (TrailerInvalid STR_ATTEST_BINDER "payload too short")
  else Ok (from_be (take 8 b), drop 8 b).

Definition decode_attest_binder (map : HeaderMap) : result TrailerError (Z * bytes) :=
  b ← decode_header map STR_ATTEST_BINDER; parse_binder b.

Context {BL : Base64Laws BP}.

Lemma decode_header_encoded map name b :
  hm_get map name = Some (header_value (b64_encode b)) → decode_header map name = Ok b.
Proof using BL.
  intros Hg. unfold decode_header. rewrite Hg, header_value_visible by apply b64_visible. cbn [mbind result_bind ok_or].
  rewrite to_str_visible by apply b64_visible. cbn. by rewrite b64_decode_encode.
Qed.

Lemma take_8_u64 n r : take 8 (u64_be n ++ r) = u64_be n.
Proof. by rewrite take_app_le, take_ge by wire_len. Qed.
Lemma drop_u64 k n r : drop (8 + k) (u64_be n ++ r) = drop k r.
Proof.
  rewrite drop_app, length_u64_be, drop_ge by wire_len.
  simpl. by rewrite Nat.sub_0_r.
Qed.

Lemma parse_ticket_payload nonce mac salt :
  is_u64 nonce → match salt with Some s => length s = 16%nat | None => True end →
  parse_ticket (ticket_payload nonce mac salt) = Ok (mk_ticket nonce mac salt).
Proof.
  intros Hn Hs. unfold parse_ticket, ticket_payload.
  assert (length (u64_be nonce) = 8%nat) as H8 by apply length_to_be.
  destruct (decide (length _ < 9)%nat) as [Hlt|_].
  { exfalso. rewrite length_app, H8, length_app in Hlt. destruct salt; simpl in Hlt; lia. }
  rewrite take_8_u64, from_be_u64_be by done. rewrite lookup_app_r, H8 by lia.
  rewrite (drop_u64 1), (drop_u64 17). destruct salt as [s|]; simpl.
  - rewrite decide_False by (rewrite length_app; lia).
    rewrite drop_0, take_app_le, take_ge, drop_app_le, drop_ge by lia. done.
  - done.
Qed.

End trailers.

(** ** A toy instance: hexadecimal digits *)

Module ToyBase64.

Definition hex_digit (b : byte) : byte := u8_of (97 + u8_val b).
Fixpoint encode (s : bytes) : bytes :=
  match s with
  | [] => []
  | b :: s => hex_digit (u8_of (u8_val b / 16)) :: hex_digit (u8_of (u8_val b `mod` 16)) :: encode s
  end.
Definition unnibble (a b : byte) : byte := u8_of ((u8_val a - 97) * 16 + (u8_val b - 97)).

Fixpoint decode (s : bytes) : option bytes :=
  match s with
  | [] => Some []
  | [_] => None
  | a :: b :: s => r ← decode s; Some (unnibble a b :: r)
  end.

#[export] Instance prim : Base64Prim := {|
  b64_encode b := string_of_list_ascii (encode b);
  b64_decode s := decode (as_bytes s);
|}.

Lemma nibbles_val b : unnibble (hex_digit (u8_of (u8_val b / 16))) (hex_digit (u8_of (u8_val b `mod` 16))) = b.
Proof.
  unfold unnibble, hex_digit. pose proof (u8_val_range b).
  pose proof (Z.div_mod (u8_val b) 16). pose proof (Z.mod_pos_bound (u8_val b) 16).
  assert (0 ≤ u8_val b / 16 < 16) by (split; [apply Z.div_pos|apply Z.div_lt_upper_bound]; lia).
  rewrite !u8_val_of, !(Z.mod_small _ 256) by (rewrite ?(Z.mod_small _ 256); lia).
  replace _ with (u8_val b) by lia. apply u8_of_val.
Qed.

#[export] Instance laws : Base64Laws prim.
Proof.
  split; simpl.
  - intros b. unfold as_bytes. rewrite list_ascii_of_string_of_list_ascii.
    induction b as [|x b IH]; [done|]. cbn [encode decode]. rewrite IH. cbn. by rewrite nibbles_val.
  - intros b. unfold as_bytes. rewrite list_ascii_of_string_of_list_ascii.
    induction b as [|x b IH]; [done|]. cbn [encode forallb]. rewrite IH, andb_true_r.
    assert (∀ z, 0 ≤ z < 16 → visible (hex_digit (u8_of z)) = true) as Hv.
    { intros z Hz. unfold visible, hex_digit. rewrite !u8_val_of, !(Z.mod_small _ 256) by (rewrite ?(Z.mod_small _ 256); lia).
      apply bool_decide_eq_true. lia. }
    pose proof (u8_val_range x). pose proof (Z.mod_pos_bound (u8_val x) 16).
    rewrite !Hv; [done|lia|]. split; [apply Z.div_pos|apply Z.div_lt_upper_bound]; lia.
Qed.

End ToyBase64.

(** ** Properties *)

(** The ticket and the binder round trip through a header map: what was
    encoded and inserted under the header's name decodes to the same nonce, MAC
    and, for a ticket, the same 0-RTT salt. *)
Theorem trailers_round_trip {BP : Base64Prim} {BL : Base64Laws BP} (map : HeaderMap) (nonce : Z) (mac : bytes) (salt : option bytes) :
  is_u64 nonce → match salt with Some s => length s = 16%nat | None => True end →
  decode_attest_ticket (hm_insert map STR_ATTEST_TICKET (encode_attest_ticket nonce mac salt)) =
    Ok (mk_ticket nonce mac salt) ∧
  decode_attest_binder (hm_insert map STR_ATTEST_BINDER (encode_attest_binder nonce mac)) = Ok (nonce, mac).
Proof.
  intros Hn Hs. split.
  - unfold decode_attest_ticket. erewrite decode_header_encoded by apply hm_get_insert.
    by apply parse_ticket_payload.
  - unfold decode_attest_binder. erewrite decode_header_encoded by apply hm_get_insert. cbn [mbind result_bind].
    unfold parse_binder. rewrite decide_False by wire_len.
    rewrite take_8_u64, from_be_u64_be by done. by rewrite (drop_u64 0).
Qed.

Lemma trailers_round_trip_witness :
  decode_attest_ticket (BP := ToyBase64.prim) (hm_insert [] STR_ATTEST_TICKET
    (encode_attest_ticket (BP := ToyBase64.prim) 42 (as_bytes "mac") (Some (replicate 16 (u8_of 7))))) =
    Ok (mk_ticket 42 (as_bytes "mac") (Some (replicate 16 (u8_of 7)))).
Proof.
  apply (trailers_round_trip (BP := ToyBase64.prim) (BL := ToyBase64.laws) [] 42 (as_bytes "mac") (Some (replicate 16 (u8_of 7))));
    [by_compute|reflexivity].
Defined.

(** The decoder is lenient on the mode byte: every value other than 1 is read
    as the 1-RTT mode, so 255 encodings of a ticket decode to the same one. *)
Theorem ticket_mode_lenient {BP : Base64Prim} {BL : Base64Laws BP} (map : HeaderMap) (nonce : Z) (mode : byte) (mac : bytes) :
  is_u64 nonce → mode ≠ u8_of 1 →
  decode_attest_ticket (hm_insert map STR_ATTEST_TICKET (header_value (b64_encode (u64_be nonce ++ mode :: mac)))) =
    Ok (mk_ticket nonce mac None).
Proof.
  intros Hn Hm. unfold decode_attest_ticket. erewrite decode_header_encoded by apply hm_get_insert.
  cbn [mbind result_bind]. assert (length (u64_be nonce) = 8%nat) as H8 by apply length_to_be. unfold parse_ticket.
  destruct (decide (length _ < 9)%nat) as [Hlt|_]; [exfalso; rewrite length_app, H8 in Hlt; simpl in Hlt; lia|].
  rewrite take_8_u64, from_be_u64_be, (drop_u64 1), lookup_app_r, H8 by done || lia. simpl.
  by rewrite decide_False.
Qed.

Lemma ticket_mode_lenient_witness :
  decode_attest_ticket (BP := ToyBase64.prim) (hm_insert [] STR_ATTEST_TICKET
    (header_value (b64_encode (Base64Prim := ToyBase64.prim) (u64_be 42 ++ u8_of 9 :: as_bytes "mac")))) = Ok (mk_ticket 42 (as_bytes "mac") None).
Proof. apply (ticket_mode_lenient (BP := ToyBase64.prim) (BL := ToyBase64.laws)); [by_compute|vm_compute; discriminate]. Defined.
