(* ===== verification/Sfv.v ===== *)
(** * Structured field values

    What [crates/openhttpa-headers/src/attest_headers.rs] uses of the [sfv]
    crate (RFC 8941): items, inner lists, lists and dictionaries as data, and the
    crate's serialiser and parser as a class of operations with the documented
    laws: what is serialised parses back, a serialised field is visible ASCII, a
    token without parameters is written as it is.  The grammar of tokens, strings
    and keys is RFC 8941's. *)

From S2P Require Import Prelude Http Ahl Trailers.
From stdpp Require Import options.

#[local] Open Scope Z_scope.

Inductive BareItem : Type :=
| SfvInteger (z : Z)
| SfvDecimal (thousandths : Z)
| SfvString (s : string)
| SfvToken (s : string)
| SfvBytes (b : bytes)
| SfvBoolean (b : bool)
| SfvDate (z : Z)
| SfvDisplay (s : bytes).
#[export] Instance BareItem_eq_dec : EqDecision BareItem.
Proof. solve_decision. Defined.

Record Item : Type := mk_item { bare_item : BareItem; params : list (string * BareItem) }.
#[export] Instance Item_eq_dec : EqDecision Item.
Proof. solve_decision. Defined.

Inductive ListEntry : Type :=
| EntryItem (i : Item)
| EntryInner (items : list Item) (inner_params : list (string * BareItem)).
#[export] Instance ListEntry_eq_dec : EqDecision ListEntry.
Proof. solve_decision. Defined.

Definition item_of (b : BareItem) : Item := mk_item b [].

(** [BareItem::as_token] and the like. *)
Definition as_token (b : BareItem) : option string := match b with SfvToken s => Some s | _ => None end.
Definition as_string (b : BareItem) : option string := match b with SfvString s => Some s | _ => None end.
Definition as_byte_sequence (b : BareItem) : option bytes := match b with SfvBytes s => Some s | _ => None end.
Definition as_integer (b : BareItem) : option Z := match b with SfvInteger z => Some z | _ => None end.
Definition as_boolean (b : BareItem) : option bool := match b with SfvBoolean z => Some z | _ => None end.

(** The value of a key in parameters or in a dictionary. *)
Fixpoint key_get {A} (l : list (string * A)) (k : string) : option A :=
  match l with
  | [] => None
  | (n, a) :: l => if decide (n = k) then Some a else key_get l k
  end.

(** ** Grammar *)

Definition in_range (lo hi : Z) (b : byte) : bool := bool_decide (lo ≤ u8_val b ≤ hi).
Definition is_lower : byte → bool := in_range 97 122.
Definition is_alpha (b : byte) : bool := is_lower b || in_range 65 90 b.
Definition is_digit : byte → bool := in_range 48 57.
Definition is_one_of (s : string) (b : byte) : bool := bool_decide (b ∈ as_bytes s).

Definition head_tail (p q : byte → bool) (s : string) : bool :=
  match as_bytes s with [] => false | b :: r => p b && forallb q r end.
Definition token_grammar : string → bool :=
  head_tail (λ b, is_alpha b || is_one_of "*" b)
            (λ b, is_alpha b || is_digit b || is_one_of "!#$%&'*+-.^_`|~:/" b).
Definition key_grammar : string → bool :=
  head_tail (λ b, is_lower b || is_one_of "*" b)
            (λ b, is_lower b || is_digit b || is_one_of "_-.*" b).
Definition string_grammar (s : string) : bool := forallb (in_range 32 126) (as_bytes s).

Definition MAX_SFV_INT : Z := 999999999999999.

Definition bare_ok (b : BareItem) : bool :=
  match b with
  | SfvInteger z | SfvDecimal z | SfvDate z => bool_decide (Z.abs z ≤ MAX_SFV_INT)
  | SfvString s => string_grammar s
  | SfvToken s => token_grammar s
  | SfvBytes _ | SfvBoolean _ | SfvDisplay _ => true
  end.
Definition params_ok (l : list (string * BareItem)) : bool :=
  bool_decide (NoDup l.*1) && forallb (λ kv, key_grammar kv.1 && bare_ok kv.2) l.
Definition item_ok (i : Item) : bool := bare_ok (bare_item i) && params_ok (params i).
Definition entry_ok (e : ListEntry) : bool :=
  match e with EntryItem i => item_ok i | EntryInner l p => forallb item_ok l && params_ok p end.

(** Tokens are graphic ASCII. *)
Lemma token_graphic t b : token_grammar t = true → b ∈ as_bytes t → 33 ≤ u8_val b ≤ 126.
Proof.
  assert (∀ s c, forallb (in_range 33 126) (as_bytes s) = true → is_one_of s c = true → 33 ≤ u8_val c ≤ 126) as Hone.
  { intros s c Hs Hc. apply bool_decide_eq_true, list_elem_of_In in Hc. apply (proj1 (forallb_forall _ _) Hs) in Hc.
    by apply bool_decide_eq_true in Hc. }
  unfold token_grammar, head_tail. destruct (as_bytes t) as [|c r]; [done|].
  rewrite andb_true_iff. intros [Hc Hr] [->|Hb]%elem_of_cons.
  - unfold is_alpha, is_lower, in_range in Hc. rewrite !orb_true_iff, !bool_decide_eq_true in Hc.
    destruct Hc as [[?|?]|Hc]; [lia..|by apply (Hone "*"%string)].
  - apply list_elem_of_In in Hb. apply (proj1 (forallb_forall _ r) Hr) in Hb. clear Hr.
    unfold is_alpha, is_lower, is_digit, in_range in Hb. rewrite !orb_true_iff, !bool_decide_eq_true in Hb.
    destruct Hb as [[[?|?]|?]|Hb]; [lia..|by apply (Hone "!#$%&'*+-.^_`|~:/"%string)].
Qed.
Lemma token_grammar_string t : token_grammar t = true → string_grammar t = true.
Proof.
  intros Ht. apply forallb_forall. intros b Hb%list_elem_of_In. apply bool_decide_eq_true.
  pose proof (token_graphic t b Ht Hb). lia.
Qed.
Lemma token_visible t : token_grammar t = true → visible_str t.
Proof.
  intros Ht. apply forallb_forall. intros b Hb%list_elem_of_In. apply bool_decide_eq_true.
  pose proof (token_graphic t b Ht Hb). lia.
Qed.
Lemma trim_token t : token_grammar t = true → trim t = t.
Proof. intros Ht. apply trim_graphic. intros b Hb. pose proof (token_graphic t b Ht Hb). lia. Qed.

(** ** The crate *)

(** The dictionary text the handshake's policies are written as. *)
Definition policies_text (direct allow_untrusted : bool) : string :=
  ("direct=?" +:+ (if direct then "1" else "0") +:+ ", allow-untrusted=?" +:+ (if allow_untrusted then "1" else "0"))%string.

Class SfvPrim : Type := {
  (** [Token::from_string] and [String::from_string] succeed *)
  token_valid : string → bool;
  string_valid : string → bool;
  item_serialize : Item → string;
  list_serialize : list ListEntry → option string;
  item_parse : string → result string Item;
  list_parse : string → result string (list ListEntry);
  dict_parse : string → result string (list (string * ListEntry));
}.
Class SfvLaws (P : SfvPrim) : Prop := {
  token_valid_grammar s : token_valid s = token_grammar s;
  string_valid_grammar s : string_valid s = string_grammar s;
  item_parse_serialize i : item_ok i = true → item_parse (item_serialize i) = Ok i;
  list_serialize_None l : list_serialize l = None ↔ l = [];
  list_parse_serialize l s : forallb entry_ok l = true → list_serialize l = Some s → list_parse s = Ok l;
  item_visible i : item_ok i = true → visible_str (item_serialize i);
  list_visible l s : forallb entry_ok l = true → list_serialize l = Some s → visible_str s;
  (** a list with members is not written as white space *)
  list_not_blank l s : list_serialize l = Some s → trim s ≠ EmptyString;
  item_serialize_token t : token_grammar t = true → item_serialize (item_of (SfvToken t)) = t;
  dict_parse_policies d a :
    dict_parse (policies_text d a) =
      Ok [("direct", EntryItem (item_of (SfvBoolean d))); ("allow-untrusted", EntryItem (item_of (SfvBoolean a)))]%string;
}.

(** ** An instance for the examples *)

Module ToySfv.

#[local] Instance BareItem_countable : Countable BareItem.
Proof.
  refine (inj_countable'
    (λ b, match b with
          | SfvInteger z => inl (0%nat, z) | SfvDecimal z => inl (1%nat, z) | SfvDate z => inl (2%nat, z)
          | SfvString s => inr (inl (false, s)) | SfvToken s => inr (inl (true, s))
          | SfvBytes s => inr (inr (inl (false, s))) | SfvDisplay s => inr (inr (inl (true, s)))
          | SfvBoolean b => inr (inr (inr b))
          end)
    (λ x, match x with
          | inl (0%nat, z) => SfvInteger z | inl (1%nat, z) => SfvDecimal z | inl (_, z) => SfvDate z
          | inr (inl (false, s)) => SfvString s | inr (inl (true, s)) => SfvToken s
          | inr (inr (inl (false, s))) => SfvBytes s | inr (inr (inl (true, s))) => SfvDisplay s
          | inr (inr (inr b)) => SfvBoolean b
          end) _).
  by intros [].
Defined.
#[local] Instance Item_countable : Countable Item.
Proof. refine (inj_countable' (λ i, (bare_item i, params i)) (λ x, mk_item x.1 x.2) _). by intros []. Defined.
#[local] Instance ListEntry_countable : Countable ListEntry.
Proof.
  refine (inj_countable'
    (λ e, match e with EntryItem i => inl i | EntryInner l p => inr (l, p) end)
    (λ x, match x with inl i => EntryItem i | inr (l, p) => EntryInner l p end) _).
  by intros [].
Defined.

(** The bits of a positive number as digits. *)
Fixpoint bits (p : positive) : string :=
  match p with xH => EmptyString | xO p => String "0" (bits p) | xI p => String "1" (bits p) end.
Fixpoint of_bits (s : string) : positive :=
  match s with
  | EmptyString => xH
  | String c s => if decide (c = "0"%char) then xO (of_bits s) else xI (of_bits s)
  end.
Lemma of_bits_bits p : of_bits (bits p) = p.
Proof. induction p as [p IH|p IH|]; simpl; by rewrite ?IH. Qed.
Lemma visible_str_cons c s : visible c = true → visible_str s → visible_str (String c s).
Proof. unfold visible_str. change (as_bytes (String c s)) with (c :: as_bytes s). cbn [forallb]. by intros -> ->. Qed.
Lemma bits_visible p : visible_str (bits p).
Proof. induction p as [p IH|p IH|]; cbn [bits]; [by apply visible_str_cons..|done]. Qed.

Definition write {A} `{Countable A} (a : A) : string := String ":" (bits (encode a)).
Definition read {A} `{Countable A} (s : string) : result string A :=
  match s with
  | String c r => if decide (c = ":"%char) then ok_or (decode (of_bits r)) "malformed" else Err "malformed"
  | EmptyString => Err "malformed"
  end%string.
Lemma read_write {A} `{Countable A} (a : A) : read (write a) = Ok a.
Proof. unfold read, write. rewrite decide_True by done. by rewrite of_bits_bits, decode_encode. Qed.
Lemma write_visible {A} `{Countable A} (a : A) : visible_str (write a).
Proof. apply visible_str_cons; [done|]. apply bits_visible. Qed.
Lemma write_not_token {A} `{Countable A} (a : A) : token_grammar (write a) = false.
Proof. done. Qed.
Lemma write_not_blank {A} `{Countable A} (a : A) : trim (write a) ≠ EmptyString.
Proof.
  unfold trim. intros Heq. apply (f_equal as_bytes) in Heq. unfold as_bytes in Heq.
  rewrite list_ascii_of_string_of_list_ascii in Heq. cbn [write list_ascii_of_string] in Heq.
  change (trim_start (":"%char :: ?r)) with (":"%char :: r) in Heq. cbn [rev] in Heq.
  apply (f_equal (@rev _)) in Heq. rewrite rev_involutive in Heq.
  induction (rev _) as [|b l IH]; [done|]. cbn [app trim_start] in Heq. by destruct (is_white b).
Qed.

Definition bare_token (i : Item) : option string :=
  match i with
  | mk_item (SfvToken t) [] => if token_grammar t then Some t else None
  | _ => None
  end.
Lemma bare_token_Some i t : bare_token i = Some t → i = item_of (SfvToken t) ∧ token_grammar t = true.
Proof. destruct i as [[] []]; simpl; try done. destruct (token_grammar s) eqn:E; [|done]. by intros [= ->]. Qed.

(** Byte sequences are written in hexadecimal, so that long ones stay short. *)
Definition bare_bytes (i : Item) : option bytes := match i with mk_item (SfvBytes b) [] => Some b | _ => None end.
Lemma bare_bytes_Some i b : bare_bytes i = Some b → i = item_of (SfvBytes b).
Proof. destruct i as [[] []]; simpl; try done. by intros [= ->]. Qed.
Definition write_item (i : Item) : string :=
  match bare_token i, bare_bytes i with
  | Some t, _ => t
  | None, Some b => String "@" (b64_encode (Base64Prim := ToyBase64.prim) b)
  | None, None => write i
  end.
Definition read_item (s : string) : result string Item :=
  if token_grammar s then Ok (item_of (SfvToken s))
  else match s with
       | String "@" r => ok_or ((λ b, item_of (SfvBytes b)) <$> b64_decode (Base64Prim := ToyBase64.prim) r) "malformed"%string
       | _ => read s
       end.
Lemma read_write_item i : read_item (write_item i) = Ok i.
Proof.
  unfold read_item, write_item. destruct (bare_token i) as [t|] eqn:Et; [by apply bare_token_Some in Et as [-> ->]|].
  destruct (bare_bytes i) as [b|] eqn:Eb.
  - apply bare_bytes_Some in Eb as ->. change (token_grammar (String "@" _)) with false. cbv iota.
    by rewrite (b64_decode_encode (Base64Laws := ToyBase64.laws)).
  - rewrite write_not_token. apply (read_write i).
Qed.
Lemma write_item_visible i : visible_str (write_item i).
Proof.
  unfold write_item. destruct (bare_token i) as [t|] eqn:Et; [apply token_visible; by apply bare_token_Some in Et as [_ ?]|].
  destruct (bare_bytes i) as [b|]; [|apply write_visible]. apply visible_str_cons; [done|].
  apply (b64_visible (Base64Laws := ToyBase64.laws)).
Qed.

#[global] Instance prim : SfvPrim := {
  token_valid := token_grammar;
  string_valid := string_grammar;
  item_serialize := write_item;
  list_serialize l := match l with [] => None | _ => Some (write l) end;
  item_parse := read_item;
  list_parse := read;
  dict_parse s :=
    let flags d a := [("direct"%string, EntryItem (item_of (SfvBoolean d))); ("allow-untrusted"%string, EntryItem (item_of (SfvBoolean a)))] in
    if decide (s = policies_text true true) then Ok (flags true true)
    else if decide (s = policies_text true false) then Ok (flags true false)
    else if decide (s = policies_text false true) then Ok (flags false true)
    else if decide (s = policies_text false false) then Ok (flags false false)
    else Err "malformed"%string;
}.

#[global] Instance laws : SfvLaws prim.
Proof.
  split; cbn [token_valid string_valid item_serialize list_serialize item_parse list_parse dict_parse prim]; try done.
  - intros i _. apply read_write_item.
  - intros []; by split.
  - intros [|e l] s _; [done|]. intros [= <-]. apply read_write.
  - intros i _. apply write_item_visible.
  - intros [|e l] s _; [done|]. intros [= <-]. apply write_visible.
  - intros [|e l] s; [done|]. intros [= <-]. apply write_not_blank.
  - intros t Ht. unfold write_item, item_of, bare_token. by rewrite Ht.
  - intros [] []; reflexivity.
Qed.

End ToySfv.
