(* ===== verification/Provenance.v ===== *)
(** * Provenance of a request

    [AgentMetadata] and [ProvenanceChain] of
    [crates/openhttpa-proto/src/types.rs]: the agents that handled a request, in
    order.  The identifiers that [anonymize] draws are arguments. *)

From S2P Require Import Prelude Proto.
From stdpp Require Import options.

Record AgentMetadata : Type := mk_agent {
  agent_id : AtbId;
  agent_name : string;
  capabilities : list string;
  endpoint : string;
  agent_public_key : bytes;
  last_quote : option AttestQuote;
  agent_signature : bytes;
  prev_hash : option bytes;
}.
#[export] Instance AgentMetadata_eq_dec : EqDecision AgentMetadata.
Proof. solve_decision. Defined.

Definition agent_anonymize (fresh : AtbId) (a : AgentMetadata) : AgentMetadata :=
  mk_agent fresh "anonymous_agent" (capabilities a) EmptyString (agent_public_key a) None (agent_signature a) (prev_hash a).

Module ProvenanceChain.

Record t : Type := mk { hops : list AgentMetadata }.
#[global] Instance t_eq_dec : EqDecision t.
Proof. solve_decision. Defined.

Definition default : t := mk [].
Definition append (c : t) (a : AgentMetadata) : t := mk (hops c ++ [a]).
Definition contains_agent (c : t) (name : string) : bool := existsb (λ h, bool_decide (agent_name h = name)) (hops c).
Definition origin (c : t) : option AgentMetadata := head (hops c).
Definition previous (c : t) : option AgentMetadata := last (hops c).
(** [fresh k] is the identifier drawn for hop [k]. *)
Definition anonymize (fresh : nat → AtbId) (c : t) : t := mk (imap (λ k, agent_anonymize (fresh k)) (hops c)).

Lemma contains_agent_iff c name : contains_agent c name = true ↔ ∃ a, a ∈ hops c ∧ agent_name a = name.
Proof.
  unfold contains_agent. rewrite existsb_exists. split; intros (a & Ha & Hn); exists a;
    [apply list_elem_of_In in Ha|apply list_elem_of_In in Ha]; by rewrite bool_decide_eq_true in *.
Qed.
Lemma hops_anonymize fresh c : length (hops (anonymize fresh c)) = length (hops c).
Proof. apply length_imap. Qed.

End ProvenanceChain.

(** An anonymised chain tells nothing of its agents but what the signatures need:
    two chains whose hops have the same capabilities, keys, signatures and hash
    links are anonymised to the same chain, whatever their identifiers, names,
    addresses and quotes. *)
Theorem anonymize_hides (fresh : nat → AtbId) (c d : ProvenanceChain.t) :
  (λ a, (capabilities a, agent_public_key a, agent_signature a, prev_hash a)) <$> ProvenanceChain.hops c =
  (λ a, (capabilities a, agent_public_key a, agent_signature a, prev_hash a)) <$> ProvenanceChain.hops d →
  ProvenanceChain.anonymize fresh c = ProvenanceChain.anonymize fresh d.
Proof.
  destruct c as [c], d as [d]. unfold ProvenanceChain.anonymize. simpl. intros H. f_equal.
  revert fresh d H. induction c as [|a c IH]; intros fresh [|b d] H; simplify_eq/=; [done|].
  f_equal; [unfold agent_anonymize; congruence|]. by apply (IH (λ k, fresh (S k)) d).
Qed.

(** An anonymised chain names no agent of the original, its origin is not the
    original's, and its length shows how many agents handled the request. *)
Theorem anonymize_contains (fresh : nat → AtbId) (c : ProvenanceChain.t) (name : string) :
  ProvenanceChain.contains_agent (ProvenanceChain.anonymize fresh c) name =
    bool_decide (name = "anonymous_agent"%string ∧ ProvenanceChain.hops c ≠ []).
Proof.
  apply eq_true_iff_eq. rewrite ProvenanceChain.contains_agent_iff, bool_decide_eq_true. simpl. split.
  - intros (a & (i & b & -> & Hi)%elem_of_lookup_imap_1 & <-). split; [done|]. intros Hc. by rewrite Hc in Hi.
  - intros [-> Hne]. destruct (ProvenanceChain.hops c) as [|a l]; [done|]. eexists. split; [left|done].
Qed.
