(* ===== verification/Headers.v ===== *)
(** * The headers of the handshake

    [AtHsRequestHeaders], [AtHsResponseHeaders], [TrRequestHeaders] and
    [PreflightResponseHeaders] of
    [crates/openhttpa-headers/src/attest_headers.rs], each with its encoder to
    and decoder from an HTTP header map, over the structured-field interface of
    [Sfv].  The encoders call [expect] on the text of a quote's type, format and
    collateral addresses, so they return an [outcome].  [serde_json] on tickets and
    provenance chains is a class; the environment variable that re-enables legacy
    suites is the argument [allow]. *)

From S2P Require Import Prelude Proto Http Ahl Sfv Provenance.
From stdpp Require Import options.

#[local] Open Scope Z_scope.

Definition HDR_ATTEST_CIPHER_SUITES : string := "attest-cipher-suites".
Definition HDR_ATTEST_SUPPORTED_CIPHER_SUITES : string := "attest-supported-cipher-suites".
Definition HDR_ATTEST_CIPHER_SUITE : string := "attest-cipher-suite".
Definition HDR_ATTEST_KEY_SHARES : string := "attest-key-shares".
Definition HDR_ATTEST_KEY_SHARE : string := "attest-key-share".
Definition HDR_ATTEST_RANDOM : string := "attest-random".
Definition HDR_ATTEST_POLICIES : string := "attest-policies".
Definition HDR_ATTEST_BASE_CREATION : string := "attest-base-creation".
Definition HDR_ATTEST_VERSIONS : string := "attest-versions".
Definition HDR_ATTEST_SUPPORTED_VERSIONS : string := "attest-supported-versions".
Definition HDR_ATTEST_DATE : string := "attest-date".
Definition HDR_ATTEST_SERVER_SIGNATURES : string := "attest-server-signatures".
Definition HDR_ATTEST_TRANSPORT : string := "attest-transport".
Definition HDR_ATTEST_QUOTES : string := "attest-quotes".
Definition HDR_ATTEST_BASE_ID : string := STR_ATTEST_BASE_ID.
Definition HDR_ATTEST_VERSION : string := "attest-version".
Definition HDR_ATTEST_EXPIRES : string := "attest-expires".
Definition HDR_ATTEST_TICKET : string := STR_ATTEST_TICKET.
Definition HDR_ATTEST_BASE_TERMINATION : string := "attest-base-termination".
Definition HDR_ATTEST_CHALLENGE : string := "attest-challenge".
Definition HDR_ATTEST_PROVENANCE : string := "attest-provenance".
Definition HDR_ATTEST_TICKET_RESUMPTION : string := "attest-ticket-resumption".
Definition HDR_ATTEST_ZK_PROOF : string := "attest-zk-proof".
Definition HDR_ATTEST_ENCRYPTED_HELLO : string := "attest-encrypted-hello".

(** ** Data *)

Record AtHsRequestHeaders : Type := mk_aths_headers {
  h_cipher_suites : list CipherSuite;
  h_random : bytes;
  h_versions : list ProtocolVersion;
  h_key_shares_json : bytes;
  h_date : string;
  h_base_creation : AtbCreation;
  h_direct_attestation : bool;
  h_allow_untrusted_requests : bool;
  h_client_quotes : list AttestQuote;
  h_challenge : option bytes;
  h_signatures : list bytes;
  h_ticket : option SessionTicket;
  h_provenance : option ProvenanceChain.t;
  h_encrypted_hello : option bytes;
}.

Record AtHsResponseHeaders : Type := mk_aths_response {
  rh_cipher_suite : CipherSuite;
  rh_random : bytes;
  rh_key_share_json : bytes;
  rh_base_id : AtbId;
  rh_version : ProtocolVersion;
  rh_expires_secs : Z;
  rh_quotes : list AttestQuote;
  rh_secrets : list AttestSecret;
  rh_cargo : option TrustedCargo;
  rh_ticket_resumption : option SessionTicket;
  rh_server_signatures : list bytes;
  rh_zk_proof : option bytes;
}.

Record TrRequestHeaders : Type := mk_trr_headers {
  tr_base_id : AtbId;
  tr_cargo : option bytes;
  tr_termination : option AtbTermination;
}.

Record PreflightResponseHeaders : Type := mk_preflight_headers {
  pf_cipher_suites : list CipherSuite;
  pf_versions : list ProtocolVersion;
  pf_challenge : bytes;
  pf_oblivious_supported : bool;
}.

(** [serde_json] on the values that travel as JSON. *)
Class HeaderJson : Type := {
  ticket_to_vec : SessionTicket → option bytes;
  ticket_from_slice : bytes → option SessionTicket;
  chain_to_vec : ProvenanceChain.t → option bytes;
  chain_from_slice : bytes → option ProvenanceChain.t;
}.
Class HeaderJsonLaws (P : HeaderJson) : Prop := {
  ticket_from_to t b : ticket_to_vec t = Some b → ticket_from_slice b = Some t;
  chain_from_to c b : chain_to_vec c = Some b → chain_from_slice b = Some c;
}.

(** Insert when there is a value. *)
Definition opt_insert (m : HeaderMap) (name : string) (o : option bytes) : HeaderMap :=
  match o with Some v => hm_insert m name v | None => m end.
(** [map.get(name).and_then(|v| v.to_str().ok())] *)
Definition get_str (m : HeaderMap) (name : string) : option string := hm_get m name ≫= to_str.
(** The readable values of a name, joined by commas; [None] when there is none. *)
Definition get_joined (m : HeaderMap) (name : string) : option string :=
  match omap to_str (get_all m name) with
  | [] => None
  | vs => Some (string_of_list_ascii (join (as_bytes ",") (as_bytes <$> vs)))
  end.

Lemma get_all_opt_insert m n o : get_all m n = [] → get_all (opt_insert m n o) n = option_list o.
Proof. intros Hm. destruct o; simpl; [by rewrite get_all_insert|done]. Qed.
Lemma get_all_opt_insert_ne m n k o : n ≠ k → get_all (opt_insert m n o) k = get_all m k.
Proof. intros. destruct o; simpl; [by rewrite get_all_insert_ne|done]. Qed.

(** Read a field of a map built by insertions. *)
Ltac hm_field :=
  repeat first
    [ rewrite get_all_insert | rewrite get_all_insert_ne by by_compute
    | rewrite get_all_opt_insert_ne by by_compute | rewrite get_all_opt_insert by hm_field ];
  reflexivity.

Section codec.
Context {SP : SfvPrim}.

(** ** Field codecs *)

Definition encode_bytes_sfv (b : bytes) : bytes :=
  default (as_bytes "::") (value_from_str (item_serialize (item_of (SfvBytes b)))).

Definition encode_attest_provenance (json_bytes : bytes) : bytes := encode_bytes_sfv json_bytes.

Definition decode_bytes_sfv (map : HeaderMap) (name : string) : result HeaderError bytes :=
  val ← ok_or (hm_get map name) (Missing name);
  s ← ok_or (to_str val) (Invalid name "failed to convert header to a str");
  item ← map_err (Invalid name) (item_parse s);
  ok_or (as_byte_sequence (bare_item item)) (Invalid name "expected a Byte Sequence item").

Definition UNKNOWN_TOKEN : string := "unknown".

Definition token_from_string (s : string) : option BareItem := if token_valid s then Some (SfvToken s) else None.
Definition string_from_string (s : string) : option BareItem := if string_valid s then Some (SfvString s) else None.

(** A token, else a string, else the token [unknown]. *)
Definition token_or_string (s : string) : outcome BareItem :=
  match token_from_string s with
  | Some t => Returns t
  | None => match string_from_string s with
            | Some t => Returns t
            | None => expect (token_from_string UNKNOWN_TOKEN)
            end
  end.

Definition encode_token_list {A} `{Display A} (values : list A) : outcome bytes :=
  bare ← mapM (λ v, token_or_string (to_string v)) values;
  Returns (match list_serialize ((λ b, EntryItem (item_of b)) <$> bare) with
           | None => []
           | Some s => header_value s
           end).

(** The text of a token or string member. *)
Definition entry_text (e : ListEntry) : option string :=
  match e with
  | EntryItem i => match as_token (bare_item i) with Some t => Some t | None => as_string (bare_item i) end
  | EntryInner _ _ => None
  end.

Definition decode_token_list_strings (map : HeaderMap) (name : string) : result HeaderError (list string) :=
  match get_joined map name with
  | None => Err (Missing name)
  | Some s =>
      if decide (trim s = EmptyString) then Ok []
      else
        l ← map_err (Invalid name) (list_parse s);
        Ok (omap (M := list) entry_text l)
  end.

(** [i64::try_from(n).unwrap_or(i64::MAX).min(MAX_SFV_INT)] *)
Definition encode_integer_sfv (n : Z) : bytes :=
  let i64_max := 2 ^ 63 - 1 in
  let val := Z.min (if decide (n ≤ i64_max) then n else i64_max) MAX_SFV_INT in
  default (as_bytes "0") (value_from_str (item_serialize (item_of (SfvInteger val)))).

Definition encode_token_sfv (s : string) : outcome bytes :=
  bare ← token_or_string s; Returns (header_value (item_serialize (item_of bare))).

(** ** Quotes and policies *)

Definition quote_entry (q : AttestQuote) : outcome ListEntry :=
  type_item ← item_of <$> expect (token_from_string (to_string (quote_type q)));
  bytes_params ←
    (if decide (format q = Raw) then Returns []
     else fmt ← expect (token_from_string (to_string (format q))); Returns [("format"%string, fmt)]);
  uris ← mapM (λ u, item_of <$> expect (string_from_string u)) (collateral_uris q);
  Returns (EntryInner (type_item :: mk_item (SfvBytes (quote_raw q)) bytes_params :: uris) []).

Definition encode_quotes (qs : list AttestQuote) : outcome (option bytes) :=
  match qs with
  | [] => Returns None
  | _ => l ← mapM quote_entry qs; Returns (s ← list_serialize l; value_from_str s)
  end.

Definition decode_quote (e : ListEntry) : option AttestQuote :=
  match e with
  | EntryInner (i0 :: i1 :: rest) _ =>
      let type_str := default UNKNOWN_TOKEN (as_token (bare_item i0)) in
      let raw := default [] (as_byte_sequence (bare_item i1)) in
      let format_str := default "raw"%string (key_get (params i1) "format" ≫= as_token) in
      Some (mk_quote (quote_type_of type_str) (quote_format_of format_str) raw []
              (omap (λ i, as_string (bare_item i)) rest))
  | _ => None
  end.

Definition decode_quotes_sfv (map : HeaderMap) (name : string) : result HeaderError (list AttestQuote) :=
  match get_joined map name with
  | None => Ok []
  | Some s =>
      if decide (trim s = EmptyString) then Ok []
      else
        l ← map_err (Invalid name) (list_parse s);
        Ok (omap (M := list) decode_quote l)
  end.

Definition dict_flag (dict : list (string * ListEntry)) (key : string) (dflt : bool) : bool :=
  match key_get dict key with
  | Some (EntryItem i) => default dflt (as_boolean (bare_item i))
  | _ => dflt
  end.

Definition decode_policies_sfv (map : HeaderMap) (name : string) : bool * bool :=
  match get_joined map name with
  | None => (true, false)
  | Some val =>
      match dict_parse val with
      | Ok dict => (dict_flag dict "direct" true, dict_flag dict "allow-untrusted" false)
      | Err _ => (true, false)
      end
  end.

(** ** The handshake request *)

Context {HJ : HeaderJson}.

Definition creation_str (c : AtbCreation) : string :=
  match c with Reuse => "reuse" | Shared => "shared" | New => "new" end.
Definition creation_of (s : string) : AtbCreation :=
  if decide (s = "reuse"%string) then Reuse else if decide (s = "shared"%string) then Shared else New.

Definition encode_request (h : AtHsRequestHeaders) : outcome HeaderMap :=
  versions ← encode_token_list (h_versions h);
  suites ← encode_token_list (h_cipher_suites h);
  creation ← encode_token_sfv (creation_str (h_base_creation h));
  quotes ← encode_quotes (h_client_quotes h);
  let map := hm_insert [] HDR_ATTEST_VERSIONS versions in
  let map := hm_insert map HDR_ATTEST_CIPHER_SUITES suites in
  let map := hm_insert map HDR_ATTEST_RANDOM (encode_bytes_sfv (h_random h)) in
  let map := hm_insert map HDR_ATTEST_KEY_SHARES (encode_bytes_sfv (h_key_shares_json h)) in
  let map := hm_insert map HDR_ATTEST_POLICIES
               (header_value (policies_text (h_direct_attestation h) (h_allow_untrusted_requests h))) in
  let map := hm_insert map HDR_ATTEST_DATE (header_value (h_date h)) in
  let map := hm_insert map HDR_ATTEST_BASE_CREATION creation in
  let map := opt_insert map HDR_ATTEST_QUOTES quotes in
  let map := opt_insert map HDR_ATTEST_CHALLENGE (encode_bytes_sfv <$> h_challenge h) in
  let map := opt_insert map HDR_ATTEST_TICKET (encode_bytes_sfv <$> (h_ticket h ≫= ticket_to_vec)) in
  let map := opt_insert map HDR_ATTEST_PROVENANCE (encode_bytes_sfv <$> (h_provenance h ≫= chain_to_vec)) in
  let map := opt_insert map HDR_ATTEST_ENCRYPTED_HELLO (encode_bytes_sfv <$> h_encrypted_hello h) in
  Returns map.

Definition decode_request (allow : option string) (map : HeaderMap) : result HeaderError AtHsRequestHeaders :=
  random ← decode_bytes_sfv map HDR_ATTEST_RANDOM;
  key_shares_json ← decode_bytes_sfv map HDR_ATTEST_KEY_SHARES;
  let date := default EmptyString (get_str map HDR_ATTEST_DATE) in
  let base_creation := creation_of (trim (default "new"%string (get_str map HDR_ATTEST_BASE_CREATION))) in
  suite_strs ← decode_token_list_strings map HDR_ATTEST_CIPHER_SUITES;
  let cipher_suites := omap (suite_from_str allow) suite_strs in
  if decide (cipher_suites = []) then Err (Missing HDR_ATTEST_CIPHER_SUITES)
  else
    version_strs ← decode_token_list_strings map HDR_ATTEST_VERSIONS;
    let versions := omap (from_str (A := ProtocolVersion)) version_strs in
    if decide (versions = []) then Err (Missing HDR_ATTEST_VERSIONS)
    else
      client_quotes ← decode_quotes_sfv map HDR_ATTEST_QUOTES;
      let '(direct, allow_untrusted) := decode_policies_sfv map HDR_ATTEST_POLICIES in
      let challenge := result_ok (decode_bytes_sfv map HDR_ATTEST_CHALLENGE) in
      let ticket := result_ok (decode_bytes_sfv map HDR_ATTEST_TICKET) ≫= ticket_from_slice in
      let provenance := result_ok (decode_bytes_sfv map HDR_ATTEST_PROVENANCE) ≫= chain_from_slice in
      let encrypted_hello := result_ok (decode_bytes_sfv map HDR_ATTEST_ENCRYPTED_HELLO) in
      Ok (mk_aths_headers cipher_suites random versions key_shares_json date base_creation direct allow_untrusted
            client_quotes challenge [] ticket provenance encrypted_hello).

(** ** The handshake response *)

Context {UP : UuidPrim}.

Definition encode_signatures (sigs : list bytes) : option bytes :=
  match sigs with
  | [] => None
  | _ => s ← list_serialize ((λ sig, EntryItem (item_of (SfvBytes sig))) <$> sigs); value_from_str s
  end.

Definition encode_response (r : AtHsResponseHeaders) : outcome HeaderMap :=
  version ← encode_token_sfv (to_string (rh_version r));
  suite ← encode_token_sfv (to_string (rh_cipher_suite r));
  quotes ← encode_quotes (rh_quotes r);
  let map := hm_insert [] HDR_ATTEST_VERSION version in
  let map := hm_insert map HDR_ATTEST_CIPHER_SUITE suite in
  let map := hm_insert map HDR_ATTEST_RANDOM (encode_bytes_sfv (rh_random r)) in
  let map := hm_insert map HDR_ATTEST_KEY_SHARE (encode_bytes_sfv (rh_key_share_json r)) in
  let map := hm_insert map HDR_ATTEST_BASE_ID (header_value (uuid_to_string (rh_base_id r))) in
  let map := hm_insert map HDR_ATTEST_EXPIRES (encode_integer_sfv (rh_expires_secs r)) in
  let map := opt_insert map HDR_ATTEST_QUOTES quotes in
  let map := opt_insert map HDR_ATTEST_TICKET_RESUMPTION (encode_bytes_sfv <$> (rh_ticket_resumption r ≫= ticket_to_vec)) in
  let map := opt_insert map HDR_ATTEST_SERVER_SIGNATURES (encode_signatures (rh_server_signatures r)) in
  let map := opt_insert map HDR_ATTEST_ZK_PROOF (encode_bytes_sfv <$> rh_zk_proof r) in
  Returns map.

(** The identifier of the session, also of a trusted request. *)
Definition decode_base_id (map : HeaderMap) : result HeaderError AtbId :=
  s ← ok_or (get_str map HDR_ATTEST_BASE_ID) (Missing STR_ATTEST_BASE_ID);
  ok_or (uuid_parse s) (Invalid STR_ATTEST_BASE_ID "invalid UUID").

Definition decode_expires (o : option string) : Z :=
  match o with
  | None => 3600
  | Some s =>
      match result_ok (item_parse s) ≫= (λ item, as_integer (bare_item item)) with
      | Some n => if decide (0 ≤ n) then n else 3600
      | None => default 3600 (parse_uint u64_max (as_bytes (trim s)))
      end
  end.

Definition decode_signatures (o : option string) : list bytes :=
  match o ≫= (λ val, result_ok (list_parse val)) with
  | Some l => omap (λ e, match e with EntryItem i => as_byte_sequence (bare_item i) | EntryInner _ _ => None end) l
  | None => []
  end.

Definition decode_response (allow : option string) (map : HeaderMap) : result HeaderError AtHsResponseHeaders :=
  random ← decode_bytes_sfv map HDR_ATTEST_RANDOM;
  key_share_json ← decode_bytes_sfv map HDR_ATTEST_KEY_SHARE;
  base_id ← decode_base_id map;
  let expires_secs := decode_expires (get_str map HDR_ATTEST_EXPIRES) in
  cs_str ← ok_or (get_str map HDR_ATTEST_CIPHER_SUITE) (Missing HDR_ATTEST_CIPHER_SUITE);
  cipher_suite ← ok_or (suite_from_str allow (trim cs_str)) (Invalid HDR_ATTEST_CIPHER_SUITE "unrecognised cipher suite");
  ver_str ← ok_or (get_str map HDR_ATTEST_VERSION) (Missing HDR_ATTEST_VERSION);
  version ← ok_or (from_str (trim ver_str)) (Invalid HDR_ATTEST_VERSION "unrecognised protocol version");
  quotes ← decode_quotes_sfv map HDR_ATTEST_QUOTES;
  let ticket_resumption := result_ok (decode_bytes_sfv map HDR_ATTEST_TICKET_RESUMPTION) ≫= ticket_from_slice in
  let server_signatures := decode_signatures (get_str map HDR_ATTEST_SERVER_SIGNATURES) in
  let zk_proof := result_ok (decode_bytes_sfv map HDR_ATTEST_ZK_PROOF) in
  Ok (mk_aths_response cipher_suite random key_share_json base_id version expires_secs quotes [] None
        ticket_resumption server_signatures zk_proof).

(** ** Trusted requests *)

Definition termination_str (t : AtbTermination) : string :=
  match t with Destroy => "destroy" | Keep => "keep" | Cleanup => "cleanup" end.
Definition termination_of (s : string) : option AtbTermination :=
  if decide (s = "cleanup"%string) then Some Cleanup
  else if decide (s = "destroy"%string) then Some Destroy
  else if decide (s = "keep"%string) then Some Keep
  else None.

Definition encode_trr (h : TrRequestHeaders) (map : HeaderMap) : outcome HeaderMap :=
  let map := hm_insert map HDR_ATTEST_BASE_ID (header_value (uuid_to_string (tr_base_id h))) in
  match tr_termination h with
  | None => Returns map
  | Some t => v ← encode_token_sfv (termination_str t); Returns (hm_insert map HDR_ATTEST_BASE_TERMINATION v)
  end.

Definition decode_trr (map : HeaderMap) : result HeaderError TrRequestHeaders :=
  base_id ← decode_base_id map;
  Ok (mk_trr_headers base_id None (s ← get_str map HDR_ATTEST_BASE_TERMINATION; termination_of (trim s))).

(** ** The preflight response *)

Definition encode_preflight (p : PreflightResponseHeaders) : outcome HeaderMap :=
  suites ← encode_token_list (pf_cipher_suites p);
  versions ← encode_token_list (pf_versions p);
  transport ← (if pf_oblivious_supported p then Some <$> encode_token_sfv "oblivious" else Returns None);
  let map := hm_insert [] HDR_ATTEST_SUPPORTED_CIPHER_SUITES suites in
  let map := hm_insert map HDR_ATTEST_SUPPORTED_VERSIONS versions in
  let map := hm_insert map HDR_ATTEST_CHALLENGE (encode_bytes_sfv (pf_challenge p)) in
  Returns (opt_insert map HDR_ATTEST_TRANSPORT transport).

Definition decode_preflight (allow : option string) (map : HeaderMap) : result HeaderError PreflightResponseHeaders :=
  suite_strs ← decode_token_list_strings map HDR_ATTEST_SUPPORTED_CIPHER_SUITES;
  let cipher_suites := omap (suite_from_str allow) suite_strs in
  version_strs ← decode_token_list_strings map HDR_ATTEST_SUPPORTED_VERSIONS;
  let versions := omap (from_str (A := ProtocolVersion)) version_strs in
  challenge ← decode_bytes_sfv map HDR_ATTEST_CHALLENGE;
  let oblivious :=
    match get_str map HDR_ATTEST_TRANSPORT with Some s => str_contains s "oblivious" | None => false end in
  Ok (mk_preflight_headers cipher_suites versions challenge oblivious).

(** ** Lemmas: fields *)

Context {SL : SfvLaws SP}.

Lemma encode_bytes_visible b : encode_bytes_sfv b = as_bytes (item_serialize (item_of (SfvBytes b))).
Proof using SL. unfold encode_bytes_sfv. rewrite value_from_str_visible; [done|]. by apply item_visible. Qed.

Lemma decode_bytes_encoded m n b : get_all m n = [encode_bytes_sfv b] → decode_bytes_sfv m n = Ok b.
Proof using SL.
  intros Hg. unfold decode_bytes_sfv, hm_get. rewrite Hg, encode_bytes_visible. cbn [head ok_or mbind result_bind].
  rewrite to_str_visible by by apply item_visible. cbn. by rewrite item_parse_serialize.
Qed.
Lemma decode_bytes_option m n o :
  get_all m n = option_list (encode_bytes_sfv <$> o) → result_ok (decode_bytes_sfv m n) = o.
Proof using SL.
  destruct o as [b|]; cbn [fmap option_fmap option_map option_list]; intros Hg; [by rewrite (decode_bytes_encoded m n b)|].
  unfold decode_bytes_sfv, hm_get. by rewrite Hg.
Qed.

Lemma token_or_string_total s : ∃ b, token_or_string s = Returns b.
Proof using SL.
  unfold token_or_string, token_from_string, string_from_string.
  destruct (token_valid s); [by eexists|]. destruct (string_valid s); [by eexists|].
  rewrite (token_valid_grammar UNKNOWN_TOKEN). by eexists.
Qed.
Lemma token_or_string_text s :
  string_grammar s = true → ∃ b, token_or_string s = Returns b ∧ bare_ok b = true ∧ entry_text (EntryItem (item_of b)) = Some s.
Proof using SL.
  intros Hs. unfold token_or_string, token_from_string, string_from_string.
  rewrite token_valid_grammar, string_valid_grammar, Hs. destruct (token_grammar s) eqn:Ht; by eexists.
Qed.
Lemma token_or_string_token s : token_grammar s = true → token_or_string s = Returns (SfvToken s).
Proof using SL. intros Hs. unfold token_or_string, token_from_string. by rewrite token_valid_grammar, Hs. Qed.

(** A scalar token is written as it is, and survives [trim]. *)
Lemma encode_token_sfv_token s : token_grammar s = true → encode_token_sfv s = Returns (as_bytes s).
Proof using SL.
  intros Hs. unfold encode_token_sfv. rewrite token_or_string_token by done. cbn [mbind outcome_bind].
  by rewrite item_serialize_token, header_value_visible by auto using token_visible.
Qed.
Lemma get_str_token m n s : token_grammar s = true → get_all m n = [as_bytes s] → get_str m n = Some s.
Proof using SP. intros Hs Hg. unfold get_str, hm_get. rewrite Hg. apply to_str_visible. by apply token_visible. Qed.

Lemma get_joined_one m n s : visible_str s → get_all m n = [as_bytes s] → get_joined m n = Some s.
Proof.
  intros Hs Hg. unfold get_joined. rewrite Hg. cbn [omap list_omap]. rewrite to_str_visible by done. cbn.
  unfold as_bytes. by rewrite string_of_list_ascii_of_string.
Qed.

Lemma token_list_bare {A} `{Display A} (vs : list A) :
  Forall (λ v, string_grammar (to_string v) = true) vs →
  ∃ bs, mapM (λ v, token_or_string (to_string v)) vs = Returns bs ∧
        forallb entry_ok ((λ b, EntryItem (item_of b)) <$> bs) = true ∧
        omap entry_text ((λ b, EntryItem (item_of b)) <$> bs) = to_string <$> vs.
Proof using SL.
  induction 1 as [|v vs Hv _ (bs & Hm & Hok & Htext)]; [by exists []|].
  destruct (token_or_string_text _ Hv) as (b & Hb & Hbok & Hbt). exists (b :: bs). cbn [mapM].
  rewrite Hb. cbn [mbind outcome_bind]. rewrite Hm. split_and!; [done| |].
  - cbn [fmap list_fmap forallb]. fold (fmap (M := list) (λ b, EntryItem (item_of b)) bs). rewrite Hok.
    cbn [entry_ok]. unfold item_ok. cbn. by rewrite Hbok.
  - rewrite !fmap_cons. cbn [omap list_omap]. by rewrite Hbt, Htext.
Qed.

Lemma token_list_round_trip {A} `{Display A} (vs : list A) :
  Forall (λ v, string_grammar (to_string v) = true) vs →
  ∃ w, encode_token_list vs = Returns w ∧
       ∀ m n, get_all m n = [w] → decode_token_list_strings m n = Ok (to_string <$> vs).
Proof using SL.
  intros Hvs. destruct (token_list_bare vs Hvs) as (bs & Hm & Hok & Htext). unfold encode_token_list. rewrite Hm.
  cbn [mbind outcome_bind]. eexists. split; [done|]. intros m n Hg. unfold decode_token_list_strings.
  destruct (list_serialize _) as [s|] eqn:Hs.
  - pose proof (list_visible _ _ Hok Hs) as Hvis. rewrite header_value_visible in Hg by done.
    rewrite (get_joined_one m n s) by done. rewrite decide_False by by apply (list_not_blank _ _ Hs).
    rewrite (list_parse_serialize _ _ Hok Hs). cbn. by rewrite Htext.
  - apply list_serialize_None in Hs. rewrite Hs in Htext. rewrite <-Htext. by rewrite (get_joined_one m n EmptyString).
Qed.

(** ** Lemmas: quotes *)

(** The encoders do not panic on a quote. *)
Definition quote_encodable (q : AttestQuote) : bool :=
  token_grammar (to_string (quote_type q)) &&
  (bool_decide (format q = Raw) || token_grammar (to_string (format q))) &&
  forallb string_grammar (collateral_uris q).
Definition quote_list_entry (q : AttestQuote) : ListEntry :=
  EntryInner (item_of (SfvToken (to_string (quote_type q)))
    :: mk_item (SfvBytes (quote_raw q))
         (if decide (format q = Raw) then [] else [("format"%string, SfvToken (to_string (format q)))])
    :: ((λ u, item_of (SfvString u)) <$> collateral_uris q)) [].
(** What arrives of a quote: its user data does not travel, and an unknown type
    or format that is named like a known one becomes the known one. *)
Definition wire_quote (q : AttestQuote) : AttestQuote :=
  mk_quote (quote_type_of (to_string (quote_type q))) (quote_format_of (to_string (format q))) (quote_raw q) [] (collateral_uris q).

Lemma quote_entry_spec q : quote_entry q = if quote_encodable q then Returns (quote_list_entry q) else Panics.
Proof using SL.
  unfold quote_entry, quote_encodable, quote_list_entry, token_from_string, string_from_string.
  rewrite !token_valid_grammar. destruct (token_grammar (to_string (quote_type q))); [|done]. cbn.
  rewrite (mapM_outcome _ (λ u, item_of (SfvString u)) string_grammar)
    by (intros u; rewrite string_valid_grammar; by destruct (string_grammar u)).
  destruct (decide (format q = Raw)) as [Hf|Hf].
  - rewrite bool_decide_eq_true_2 by done. cbn. by destruct (forallb string_grammar _).
  - rewrite bool_decide_eq_false_2 by done. destruct (token_grammar (to_string (format q))); [|done]. cbn.
    by destruct (forallb string_grammar _).
Qed.

Lemma quote_list_entry_ok q : quote_encodable q = true → entry_ok (quote_list_entry q) = true.
Proof using SP.
  unfold quote_encodable, quote_list_entry. rewrite !andb_true_iff, orb_true_iff, bool_decide_eq_true.
  intros [[Ht Hf] Hu]. cbn [entry_ok forallb]. rewrite andb_true_r, !andb_true_iff. split_and!.
  - unfold item_ok. cbn. by rewrite Ht.
  - unfold item_ok. cbn [bare_item params bare_ok]. destruct (decide _) as [|Hne]; [done|]. destruct Hf as [|Hf]; [done|].
    unfold params_ok. cbn. by rewrite Hf.
  - rewrite forallb_forall in Hu. apply forallb_forall.
    intros i Hi%list_elem_of_In. apply list_elem_of_fmap in Hi as (u & -> & Hi%list_elem_of_In%Hu). unfold item_ok. cbn. by rewrite Hi.
Qed.

Lemma decode_quote_entry q : decode_quote (quote_list_entry q) = Some (wire_quote q).
Proof using SP.
  unfold decode_quote, quote_list_entry, wire_quote. do 2 f_equal.
  - cbn [params]. destruct (decide (format q = Raw)) as [->|]; done.
  - induction (collateral_uris q) as [|u l IH]; [done|]. rewrite fmap_cons. cbn [omap list_omap]. cbn. by rewrite IH.
Qed.

Lemma omap_decode_quote (qs : list AttestQuote) : omap decode_quote (quote_list_entry <$> qs) = wire_quote <$> qs.
Proof using SP.
  induction qs as [|q qs IH]; [done|]. rewrite !fmap_cons. cbn [omap list_omap]. by rewrite decode_quote_entry, IH.
Qed.

Lemma encode_quotes_panics qs : encode_quotes qs = Panics ↔ forallb quote_encodable qs = false.
Proof using SL.
  unfold encode_quotes. destruct qs as [|q qs]; [done|].
  rewrite (mapM_outcome _ quote_list_entry quote_encodable) by apply quote_entry_spec.
  by destruct (forallb _ _).
Qed.

Lemma quotes_round_trip qs :
  forallb quote_encodable qs = true →
  ∃ o, encode_quotes qs = Returns o ∧
       ∀ m n, get_all m n = option_list o → decode_quotes_sfv m n = Ok (wire_quote <$> qs).
Proof using SL.
  intros Hqs. unfold encode_quotes. destruct qs as [|q qs'] eqn:Heq.
  { exists None. split; [done|]. intros m n Hg. unfold decode_quotes_sfv, get_joined. by rewrite Hg. }
  rewrite <-Heq in *. clear q qs' Heq.
  rewrite (mapM_outcome _ quote_list_entry quote_encodable), Hqs by apply quote_entry_spec.
  cbn [mbind outcome_bind]. eexists. split; [done|]. intros m n.
  assert (forallb entry_ok (quote_list_entry <$> qs) = true) as Hok.
  { apply forallb_forall. intros e He%list_elem_of_In. apply list_elem_of_fmap in He as (q & -> & Hq%list_elem_of_In).
    apply quote_list_entry_ok. by apply (proj1 (forallb_forall _ _) Hqs). }
  destruct (list_serialize _) as [s|] eqn:Hs; cbn [mbind option_bind].
  - pose proof (list_visible _ _ Hok Hs) as Hvis. rewrite value_from_str_visible by done. intros Hg.
    unfold decode_quotes_sfv. rewrite (get_joined_one m n s) by done.
    rewrite decide_False by by apply (list_not_blank _ _ Hs).
    rewrite (list_parse_serialize _ _ Hok Hs). cbn [map_err mbind result_bind]. by rewrite omap_decode_quote.
  - apply list_serialize_None in Hs. apply fmap_nil_inv in Hs as ->. intros Hg.
    unfold decode_quotes_sfv, get_joined. by rewrite Hg.
Qed.

Lemma decode_policies_encoded m n d a :
  get_all m n = [header_value (policies_text d a)] → decode_policies_sfv m n = (d, a).
Proof using SL.
  assert (visible_str (policies_text d a)) as Hvis by (destruct d, a; by vm_compute).
  rewrite header_value_visible by done. intros Hg. unfold decode_policies_sfv.
  rewrite (get_joined_one m n _ Hvis Hg), dict_parse_policies. by destruct d, a.
Qed.

(** ** Lemmas: the header maps *)

Lemma suite_token c : token_grammar (to_string (A := CipherSuite) c) = true.
Proof. by destruct c. Qed.
Lemma version_token v : token_grammar (to_string (A := ProtocolVersion) v) = true.
Proof. by destruct v. Qed.
Lemma suites_strings cs : Forall (λ c : CipherSuite, string_grammar (to_string c) = true) cs.
Proof. apply Forall_true. intros c. apply token_grammar_string, suite_token. Qed.
Lemma versions_strings vs : Forall (λ v : ProtocolVersion, string_grammar (to_string v) = true) vs.
Proof. apply Forall_true. intros v. apply token_grammar_string, version_token. Qed.

(** The suites the receiving side knows: legacy ones only when it allows them. *)
Definition accepted_suites (allow : option string) (cs : list CipherSuite) : list CipherSuite :=
  base.filter (λ c, is_legacy c = false ∨ default EmptyString allow = "1"%string) cs.
Lemma decode_suites allow (cs : list CipherSuite) :
  omap (suite_from_str allow) (to_string <$> cs) = accepted_suites allow cs.
Proof.
  induction cs as [|c cs IH]; [done|]. rewrite fmap_cons. cbn [omap list_omap]. unfold accepted_suites.
  rewrite filter_cons, suite_round_trip, IH. unfold accepted_suites.
  destruct (is_legacy c) eqn:Hl; [destruct (decide (default EmptyString allow = "1"%string))|].
  - rewrite decide_True by auto. done.
  - rewrite decide_False by (intros [?|?]; congruence). done.
  - rewrite decide_True by auto. done.
Qed.
Lemma decode_versions (vs : list ProtocolVersion) : omap from_str (to_string <$> vs) = vs.
Proof. induction vs as [|v vs IH]; [done|]. rewrite fmap_cons. cbn [omap list_omap]. by rewrite version_round_trip, IH. Qed.

Lemma creation_token c : token_grammar (creation_str c) = true.
Proof. by destruct c. Qed.
Lemma termination_token t : token_grammar (termination_str t) = true.
Proof. by destruct t. Qed.
Lemma creation_of_str c : creation_of (creation_str c) = c.
Proof. by destruct c. Qed.
Lemma termination_of_str t : termination_of (termination_str t) = Some t.
Proof. by destruct t. Qed.

Context {UL : UuidLaws UP} {JL : HeaderJsonLaws HJ}.

Lemma uuid_visible i : visible_str (uuid_to_string i).
Proof using UL.
  apply forallb_forall. intros b Hb%list_elem_of_In. apply bool_decide_eq_true. pose proof (uuid_graphic i b Hb). lia.
Qed.
Lemma decode_base_id_encoded m i :
  length i = 16%nat → get_all m HDR_ATTEST_BASE_ID = [header_value (uuid_to_string i)] → decode_base_id m = Ok i.
Proof using UL.
  intros Hi Hg. unfold decode_base_id, get_str, hm_get. rewrite Hg, header_value_visible by apply uuid_visible.
  cbn [head mbind option_bind]. rewrite to_str_visible by apply uuid_visible. cbn. by rewrite uuid_parse_to_string.
Qed.
Lemma decode_ticket_encoded m n o :
  get_all m n = option_list (encode_bytes_sfv <$> (o ≫= ticket_to_vec)) →
  result_ok (decode_bytes_sfv m n) ≫= ticket_from_slice = (t ← o; _ ← ticket_to_vec t; Some t).
Proof using SL JL.
  intros Hg. rewrite (decode_bytes_option m n _ Hg). destruct o as [t|]; [|done]. cbn.
  destruct (ticket_to_vec t) eqn:Ht; [|done]. cbn. by apply ticket_from_to.
Qed.
Lemma decode_chain_encoded m n o :
  get_all m n = option_list (encode_bytes_sfv <$> (o ≫= chain_to_vec)) →
  result_ok (decode_bytes_sfv m n) ≫= chain_from_slice = (t ← o; _ ← chain_to_vec t; Some t).
Proof using SL JL.
  intros Hg. rewrite (decode_bytes_option m n _ Hg). destruct o as [t|]; [|done]. cbn.
  destruct (chain_to_vec t) eqn:Ht; [|done]. cbn. by apply chain_from_to.
Qed.

Lemma encode_integer_visible n :
  0 ≤ n → encode_integer_sfv n = as_bytes (item_serialize (item_of (SfvInteger (Z.min n MAX_SFV_INT)))) ∧
          item_ok (item_of (SfvInteger (Z.min n MAX_SFV_INT))) = true.
Proof using SL.
  intros Hn. assert (item_ok (item_of (SfvInteger (Z.min n MAX_SFV_INT))) = true) as Hok.
  { unfold item_ok. cbn [bare_item bare_ok params item_of]. rewrite bool_decide_eq_true_2; [done|]. unfold MAX_SFV_INT. lia. }
  split; [|done]. unfold encode_integer_sfv.
  replace (Z.min (if decide _ then _ else _) _) with (Z.min n MAX_SFV_INT) by (unfold MAX_SFV_INT; case_decide; lia).
  by rewrite value_from_str_visible by by apply item_visible.
Qed.
Lemma decode_expires_encoded m n :
  0 ≤ n → get_all m HDR_ATTEST_EXPIRES = [encode_integer_sfv n] →
  decode_expires (get_str m HDR_ATTEST_EXPIRES) = Z.min n MAX_SFV_INT.
Proof using SL.
  intros Hn Hg. destruct (encode_integer_visible n Hn) as [He Hok]. unfold get_str, hm_get. rewrite Hg, He.
  cbn [head mbind option_bind]. rewrite to_str_visible by by apply item_visible. unfold decode_expires.
  rewrite item_parse_serialize by done. cbn. rewrite decide_True; [done|]. unfold MAX_SFV_INT. lia.
Qed.

Lemma decode_signatures_encoded m n sigs :
  get_all m n = option_list (encode_signatures sigs) → decode_signatures (get_str m n) = sigs.
Proof using SL.
  set (f := λ sig, EntryItem (item_of (SfvBytes sig))).
  assert (forallb entry_ok (f <$> sigs) = true) as Hok.
  { apply forallb_forall. intros e He%list_elem_of_In. by apply list_elem_of_fmap in He as (s & -> & _). }
  unfold encode_signatures. destruct sigs as [|s sigs'] eqn:Heq; [|rewrite <-Heq in *; clear s sigs' Heq].
  { intros Hg. unfold get_str, hm_get. by rewrite Hg. }
  fold f. destruct (list_serialize (f <$> sigs)) as [s|] eqn:Hs; cbn [mbind option_bind].
  - pose proof (list_visible _ _ Hok Hs) as Hvis. rewrite value_from_str_visible by done. intros Hg.
    unfold get_str, hm_get. rewrite Hg. change (head _ ≫= to_str) with (to_str (as_bytes s)). rewrite to_str_visible by done.
    unfold decode_signatures. cbn [mbind option_bind]. rewrite (list_parse_serialize _ _ Hok Hs). cbn [result_ok].
    clear. induction sigs as [|s l IH]; [done|]. rewrite fmap_cons. cbn [omap list_omap]. cbn. by rewrite IH.
  - apply list_serialize_None, fmap_nil_inv in Hs as ->. intros Hg. unfold get_str, hm_get. by rewrite Hg.
Qed.

Lemma trr_round_trip_fields (h : TrRequestHeaders) (m : HeaderMap) :
  length (tr_base_id h) = 16%nat →
  ∃ m', encode_trr h m = Returns m' ∧
    decode_trr m' = Ok (mk_trr_headers (tr_base_id h) None
      (match tr_termination h with
       | Some t => Some t
       | None => s ← get_str m HDR_ATTEST_BASE_TERMINATION; termination_of (trim s)
       end)) ∧
    ∀ n, n ≠ HDR_ATTEST_BASE_ID → n ≠ HDR_ATTEST_BASE_TERMINATION → get_all m' n = get_all m n.
Proof using SL UL.
  intros Hi. unfold encode_trr. destruct (tr_termination h) as [t|].
  - rewrite encode_token_sfv_token by apply termination_token. eexists. split_and!; [done| |].
    + unfold decode_trr. rewrite (decode_base_id_encoded _ (tr_base_id h))
        by (done || hm_field). cbn [mbind result_bind].
      rewrite (get_str_token _ _ (termination_str t)) by (apply termination_token || apply get_all_insert). cbn [mbind option_bind].
      by rewrite trim_token, termination_of_str by apply termination_token.
    + intros n H1 H2. by rewrite !get_all_insert_ne.
  - eexists. split_and!; [done| |].
    + unfold decode_trr. rewrite (decode_base_id_encoded _ (tr_base_id h)) by (done || apply get_all_insert).
      cbn [mbind result_bind]. unfold get_str at 1. rewrite hm_get_insert_ne by by_compute. done.
    + intros n H1 H2. by rewrite !get_all_insert_ne.
Qed.

End codec.

(** What arrives of a handshake request. *)
Definition wire_request {HJ : HeaderJson} (allow : option string) (h : AtHsRequestHeaders) : AtHsRequestHeaders :=
  mk_aths_headers (accepted_suites allow (h_cipher_suites h)) (h_random h) (h_versions h) (h_key_shares_json h)
    (h_date h) (h_base_creation h) (h_direct_attestation h) (h_allow_untrusted_requests h)
    (wire_quote <$> h_client_quotes h) (h_challenge h) []
    (t ← h_ticket h; _ ← ticket_to_vec t; Some t) (c ← h_provenance h; _ ← chain_to_vec c; Some c) (h_encrypted_hello h).

Definition wire_response {HJ : HeaderJson} (r : AtHsResponseHeaders) : AtHsResponseHeaders :=
  mk_aths_response (rh_cipher_suite r) (rh_random r) (rh_key_share_json r) (rh_base_id r) (rh_version r)
    (Z.min (rh_expires_secs r) MAX_SFV_INT) (wire_quote <$> rh_quotes r) [] None
    (t ← rh_ticket_resumption r; _ ← ticket_to_vec t; Some t) (rh_server_signatures r) (rh_zk_proof r).

(** ** Theorems *)

Lemma request_wire {SP : SfvPrim} {SL : SfvLaws SP} {HJ : HeaderJson} {JL : HeaderJsonLaws HJ}
    (allow : option string) (h : AtHsRequestHeaders) :
  forallb quote_encodable (h_client_quotes h) = true → accepted_suites allow (h_cipher_suites h) ≠ [] → h_versions h ≠ [] →
  visible_str (h_date h) →
  ∃ m, encode_request h = Returns m ∧ decode_request allow m = Ok (wire_request allow h).
Proof.
  intros Hq Hs Hv Hd. unfold encode_request.
  destruct (token_list_round_trip (h_versions h) (versions_strings _)) as (wv & Hwv & Hdv).
  destruct (token_list_round_trip (h_cipher_suites h) (suites_strings _)) as (ws & Hws & Hds).
  destruct (quotes_round_trip (h_client_quotes h) Hq) as (wq & Hwq & Hdq).
  rewrite Hwv. cbn [mbind outcome_bind]. rewrite Hws. cbn [mbind outcome_bind].
  rewrite encode_token_sfv_token by apply creation_token. cbn [mbind outcome_bind]. rewrite Hwq. cbn [mbind outcome_bind].
  eexists. split; [reflexivity|]. set (m := opt_insert _ _ _). unfold decode_request.
  rewrite (decode_bytes_encoded m HDR_ATTEST_RANDOM (h_random h)) by (unfold m; hm_field).
  rewrite (decode_bytes_encoded m HDR_ATTEST_KEY_SHARES (h_key_shares_json h)) by (unfold m; hm_field).
  assert (get_str m HDR_ATTEST_DATE = Some (h_date h)) as ->.
  { unfold get_str, hm_get. replace (get_all m HDR_ATTEST_DATE) with [as_bytes (h_date h)].
    - by apply to_str_visible.
    - rewrite <-header_value_visible by done. unfold m. symmetry. hm_field. }
  rewrite (get_str_token m HDR_ATTEST_BASE_CREATION (creation_str (h_base_creation h))) by (apply creation_token || (unfold m; hm_field)).
  rewrite (Hds m HDR_ATTEST_CIPHER_SUITES), (Hdv m HDR_ATTEST_VERSIONS) by (unfold m; hm_field). rewrite Hdq by (unfold m; hm_field).
  rewrite (decode_policies_encoded m _ (h_direct_attestation h) (h_allow_untrusted_requests h)) by (unfold m; hm_field).
  rewrite (decode_bytes_option m HDR_ATTEST_CHALLENGE (h_challenge h)) by (unfold m; hm_field).
  rewrite (decode_bytes_option m HDR_ATTEST_ENCRYPTED_HELLO (h_encrypted_hello h)) by (unfold m; hm_field).
  rewrite (decode_ticket_encoded m HDR_ATTEST_TICKET (h_ticket h)) by (unfold m; hm_field).
  rewrite (decode_chain_encoded m HDR_ATTEST_PROVENANCE (h_provenance h)) by (unfold m; hm_field).
  cbn [mbind result_bind default from_option id]. rewrite trim_token, creation_of_str by apply creation_token.
  rewrite decode_suites, decode_versions. by rewrite !decide_False.
Qed.

(** [C11] A handshake request survives the wire: for every request whose quotes can
    be written, the encoder returns, and what the decoder reads from the resulting
    header map is the request up to what does not travel: suites that are legacy
    on the reader's side are dropped, the signatures and the quotes' user data are
    not sent. *)
Theorem request_round_trip {SP : SfvPrim} {SL : SfvLaws SP} {HJ : HeaderJson} {JL : HeaderJsonLaws HJ}
    (allow : option string) (h : AtHsRequestHeaders) :
  forallb quote_encodable (h_client_quotes h) = true → accepted_suites allow (h_cipher_suites h) ≠ [] → h_versions h ≠ [] →
  visible_str (h_date h) →
  ∃ m, encode_request h = Returns m ∧ decode_request allow m = Ok (wire_request allow h).
Proof. apply request_wire. Qed.

Lemma response_wire {SP : SfvPrim} {SL : SfvLaws SP} {HJ : HeaderJson} {JL : HeaderJsonLaws HJ}
    {UP : UuidPrim} {UL : UuidLaws UP} (allow : option string) (r : AtHsResponseHeaders) :
  forallb quote_encodable (rh_quotes r) = true → length (rh_base_id r) = 16%nat → is_u64 (rh_expires_secs r) →
  suite_from_str allow (to_string (rh_cipher_suite r)) = Some (rh_cipher_suite r) →
  ∃ m, encode_response r = Returns m ∧ decode_response allow m = Ok (wire_response r).
Proof.
  intros Hq Hi [He _] Hs. unfold encode_response.
  destruct (quotes_round_trip (rh_quotes r) Hq) as (wq & Hwq & Hdq).
  rewrite (encode_token_sfv_token (to_string (rh_version r))) by apply version_token. cbn [mbind outcome_bind].
  rewrite (encode_token_sfv_token (to_string (rh_cipher_suite r))) by apply suite_token. cbn [mbind outcome_bind]. rewrite Hwq. cbn [mbind outcome_bind].
  eexists. split; [reflexivity|]. set (m := opt_insert _ _ _). unfold decode_response.
  rewrite (decode_bytes_encoded m HDR_ATTEST_RANDOM (rh_random r)) by (unfold m; hm_field).
  rewrite (decode_bytes_encoded m HDR_ATTEST_KEY_SHARE (rh_key_share_json r)) by (unfold m; hm_field).
  rewrite (decode_base_id_encoded m (rh_base_id r)) by (done || (unfold m; hm_field)).
  rewrite (decode_expires_encoded m (rh_expires_secs r)) by (done || (unfold m; hm_field)).
  rewrite (get_str_token m HDR_ATTEST_CIPHER_SUITE (to_string (rh_cipher_suite r))) by (apply suite_token || (unfold m; hm_field)).
  rewrite (get_str_token m HDR_ATTEST_VERSION (to_string (rh_version r))) by (apply version_token || (unfold m; hm_field)).
  rewrite Hdq by (unfold m; hm_field).
  rewrite (decode_ticket_encoded m HDR_ATTEST_TICKET_RESUMPTION (rh_ticket_resumption r)) by (unfold m; hm_field).
  rewrite (decode_signatures_encoded m _ (rh_server_signatures r)) by (unfold m; hm_field).
  rewrite (decode_bytes_option m HDR_ATTEST_ZK_PROOF (rh_zk_proof r)) by (unfold m; hm_field).
  cbn [mbind result_bind ok_or]. rewrite (trim_token (to_string (rh_cipher_suite r))), Hs by apply suite_token. cbn [mbind result_bind ok_or].
  rewrite trim_token, version_round_trip by apply version_token. done.
Qed.

(** A handshake response survives the wire up to what does not travel: secrets,
    cargo and the quotes' user data are not sent, and the lifetime is cut to the
    largest integer a structured field can carry. *)
Theorem response_round_trip {SP : SfvPrim} {SL : SfvLaws SP} {HJ : HeaderJson} {JL : HeaderJsonLaws HJ}
    {UP : UuidPrim} {UL : UuidLaws UP} (allow : option string) (r : AtHsResponseHeaders) :
  forallb quote_encodable (rh_quotes r) = true → length (rh_base_id r) = 16%nat → is_u64 (rh_expires_secs r) →
  suite_from_str allow (to_string (rh_cipher_suite r)) = Some (rh_cipher_suite r) →
  ∃ m, encode_response r = Returns m ∧ decode_response allow m = Ok (wire_response r).
Proof. apply response_wire. Qed.

Lemma encode_panics {SP : SfvPrim} {SL : SfvLaws SP} {HJ : HeaderJson} {UP : UuidPrim}
    (h : AtHsRequestHeaders) (r : AtHsResponseHeaders) :
  (encode_request h = Panics ↔ ∃ q, q ∈ h_client_quotes h ∧ quote_encodable q = false) ∧
  (encode_response r = Panics ↔ ∃ q, q ∈ rh_quotes r ∧ quote_encodable q = false).
Proof.
  assert (∀ qs, encode_quotes qs = Panics ↔ ∃ q, q ∈ qs ∧ quote_encodable q = false) as Hqs.
  { intros qs. by rewrite encode_quotes_panics, forallb_false. }
  rewrite <-!Hqs. unfold encode_request, encode_response. split.
  - destruct (token_list_round_trip (h_versions h) (versions_strings _)) as (wv & -> & _).
    cbn [mbind outcome_bind].
    destruct (token_list_round_trip (h_cipher_suites h) (suites_strings _)) as (ws & -> & _). cbn [mbind outcome_bind].
    rewrite encode_token_sfv_token by apply creation_token. cbn [mbind outcome_bind]. by destruct (encode_quotes _).
  - rewrite (encode_token_sfv_token (to_string (rh_version r))) by apply version_token. cbn [mbind outcome_bind].
    rewrite (encode_token_sfv_token (to_string (rh_cipher_suite r))) by apply suite_token. cbn [mbind outcome_bind].
    by destruct (encode_quotes _).
Qed.

(** [C12] The encoders of the handshake panic exactly when a quote cannot be written:
    its type or its format is not a token, or a collateral address is not printable
    ASCII.  Nothing else in a request or a response makes them panic. *)
Theorem encode_panics_iff {SP : SfvPrim} {SL : SfvLaws SP} {HJ : HeaderJson} {UP : UuidPrim}
    (h : AtHsRequestHeaders) (r : AtHsResponseHeaders) :
  (encode_request h = Panics ↔ ∃ q, q ∈ h_client_quotes h ∧ quote_encodable q = false) ∧
  (encode_response r = Panics ↔ ∃ q, q ∈ rh_quotes r ∧ quote_encodable q = false).
Proof. apply encode_panics. Qed.

Lemma preflight_wire {SP : SfvPrim} {SL : SfvLaws SP} (allow : option string) (p : PreflightResponseHeaders) :
  ∃ m, encode_preflight p = Returns m ∧
    decode_preflight allow m =
      Ok (mk_preflight_headers (accepted_suites allow (pf_cipher_suites p)) (pf_versions p) (pf_challenge p) (pf_oblivious_supported p)).
Proof.
  unfold encode_preflight. destruct (token_list_round_trip (pf_versions p) (versions_strings _)) as (wv & Hwv & Hdv).
  destruct (token_list_round_trip (pf_cipher_suites p) (suites_strings _)) as (ws & Hws & Hds).
  rewrite Hws. cbn [mbind outcome_bind]. rewrite Hwv. cbn [mbind outcome_bind].
  rewrite encode_token_sfv_token by done. cbn [fmap outcome_fmap].
  set (o := if pf_oblivious_supported p then Some (as_bytes "oblivious") else None).
  exists (opt_insert (hm_insert (hm_insert (hm_insert [] HDR_ATTEST_SUPPORTED_CIPHER_SUITES ws) HDR_ATTEST_SUPPORTED_VERSIONS wv)
            HDR_ATTEST_CHALLENGE (encode_bytes_sfv (pf_challenge p))) HDR_ATTEST_TRANSPORT o).
  split; [unfold o; by destruct (pf_oblivious_supported p)|]. set (m := opt_insert _ _ _). unfold decode_preflight.
  rewrite (Hds m HDR_ATTEST_SUPPORTED_CIPHER_SUITES), (Hdv m HDR_ATTEST_SUPPORTED_VERSIONS) by (unfold m; hm_field).
  rewrite (decode_bytes_encoded m HDR_ATTEST_CHALLENGE (pf_challenge p)) by (unfold m; hm_field).
  assert (get_all m HDR_ATTEST_TRANSPORT = option_list o) as Ht by (unfold m; hm_field).
  unfold get_str, hm_get. rewrite Ht. cbn [mbind result_bind]. rewrite decode_suites, decode_versions.
  unfold o. by destruct (pf_oblivious_supported p).
Qed.

(** The preflight response survives the wire; the suites the client does not
    know are dropped, and an empty offer is not an error. *)
Theorem preflight_round_trip {SP : SfvPrim} {SL : SfvLaws SP} (allow : option string) (p : PreflightResponseHeaders) :
  ∃ m, encode_preflight p = Returns m ∧
    decode_preflight allow m =
      Ok (mk_preflight_headers (accepted_suites allow (pf_cipher_suites p)) (pf_versions p) (pf_challenge p) (pf_oblivious_supported p)).
Proof. apply preflight_wire. Qed.

(** The headers of a trusted request survive the wire, and no other header of the
    request changes; without a termination hint the one already in the map is kept. *)
Theorem trr_round_trip {SP : SfvPrim} {SL : SfvLaws SP} {UP : UuidPrim} {UL : UuidLaws UP} (h : TrRequestHeaders) (m : HeaderMap) :
  length (tr_base_id h) = 16%nat → hm_get m HDR_ATTEST_BASE_TERMINATION = None →
  ∃ m', encode_trr h m = Returns m' ∧ decode_trr m' = Ok (mk_trr_headers (tr_base_id h) None (tr_termination h)) ∧
    ∀ n, n ≠ HDR_ATTEST_BASE_ID → n ≠ HDR_ATTEST_BASE_TERMINATION → get_all m' n = get_all m n.
Proof.
  intros Hi Hm. destruct (trr_round_trip_fields h m Hi) as (m' & He & Hd & Hother). exists m'. split_and!; [done| |done].
  rewrite Hd. unfold get_str. rewrite Hm. by destruct (tr_termination h).
Qed.

(** A header that names no known suite is refused as missing, also when it is
    present: this is what a client that offers only legacy suites sees from a
    server that does not allow them. *)
Theorem decode_no_suite {SP : SfvPrim} {SL : SfvLaws SP} {HJ : HeaderJson} {JL : HeaderJsonLaws HJ}
    (allow : option string) (h : AtHsRequestHeaders) (m : HeaderMap) :
  accepted_suites allow (h_cipher_suites h) = [] → encode_request h = Returns m →
  decode_request allow m = Err (Missing HDR_ATTEST_CIPHER_SUITES).
Proof.
  intros Hs He. unfold encode_request in He.
  destruct (token_list_round_trip (h_versions h) (versions_strings _)) as (wv & Hwv & _).
  destruct (token_list_round_trip (h_cipher_suites h) (suites_strings _)) as (ws & Hws & Hds).
  rewrite Hwv in He. cbn [mbind outcome_bind] in He. rewrite Hws in He. cbn [mbind outcome_bind] in He.
  rewrite encode_token_sfv_token in He by apply creation_token. cbn [mbind outcome_bind] in He.
  destruct (encode_quotes _) as [wq|]; [|done]. cbn [mbind outcome_bind] in He. injection He as <-.
  set (m := opt_insert _ _ _). unfold decode_request.
  rewrite (decode_bytes_encoded m HDR_ATTEST_RANDOM (h_random h)) by (unfold m; hm_field).
  rewrite (decode_bytes_encoded m HDR_ATTEST_KEY_SHARES (h_key_shares_json h)) by (unfold m; hm_field).
  rewrite (Hds m HDR_ATTEST_CIPHER_SUITES) by (unfold m; hm_field). cbn [mbind result_bind].
  rewrite decode_suites, Hs. by rewrite decide_True.
Qed.

(** ** Examples *)

Module ToyHeaders.

Definition ticket : SessionTicket := mk_session_ticket (as_bytes "sealed") 60 X25519MlKem768Aes256GcmSha384 true.
#[local] Instance SessionTicket_eq_dec : EqDecision SessionTicket.
Proof. solve_decision. Defined.
#[global] Instance json : HeaderJson := {
  ticket_to_vec t := if decide (t = ticket) then Some (as_bytes "{ticket}") else None;
  ticket_from_slice b := if decide (b = as_bytes "{ticket}") then Some ticket else None;
  chain_to_vec c := if decide (c = ProvenanceChain.default) then Some (as_bytes "{chain}") else None;
  chain_from_slice b := if decide (b = as_bytes "{chain}") then Some ProvenanceChain.default else None;
}.
#[global] Instance json_laws : HeaderJsonLaws json.
Proof. split; simpl; intros t b; (case_decide as Ht; [|done]); intros [= <-]; subst t; done. Qed.

#[global] Instance uuid : UuidPrim := {
  uuid_to_string i := ToySfv.write i;
  uuid_parse s := i ← result_ok (ToySfv.read s); if decide (length i = 16%nat) then Some i else None;
}.
#[global] Instance uuid_laws : UuidLaws uuid.
Proof.
  split; cbn [uuid_to_string uuid_parse uuid].
  - intros i Hi. rewrite ToySfv.read_write. cbn. by rewrite decide_True.
  - intros s i. destruct (ToySfv.read s) as [j|]; [|done]. cbn. case_decide; [by intros [= <-]|done].
  - intros i b. unfold ToySfv.write. change (as_bytes (String ?c ?s)) with (c :: as_bytes s).
    intros [->|Hb]%elem_of_cons; [by vm_compute|]. revert Hb.
    induction (encode i) as [p IH|p IH|]; cbn [ToySfv.bits]; [..|by intros ?%elem_of_nil];
      change (as_bytes (String ?c ?s)) with (c :: as_bytes s); intros [->|?]%elem_of_cons; [by vm_compute|auto|by vm_compute|auto].
Qed.

Definition quote : AttestQuote := mk_quote Tdx Raw (as_bytes "quote") (as_bytes "user data") ["https://pccs.example"%string].
Definition request : AtHsRequestHeaders :=
  mk_aths_headers [X25519MlKem768Aes256GcmSha384] (as_bytes "random") [V2; V1] (as_bytes "{}") "2026-04-27T00:00:00Z" Reuse
    false true [quote] (Some (as_bytes "challenge")) [as_bytes "sig"] (Some ticket) (Some ProvenanceChain.default) None.
Definition response : AtHsResponseHeaders :=
  mk_aths_response X25519MlKem768Aes256GcmSha384 (as_bytes "random") (as_bytes "{}") (replicate 16 (u8_of 0)) V2 u64_max [quote]
    [mk_secret 1 [] []] None (Some ticket) [as_bytes "s1"; as_bytes "s2"] (Some (as_bytes "proof")).

End ToyHeaders.

Lemma request_round_trip_witness :
  ∃ m, encode_request (SP := ToySfv.prim) (HJ := ToyHeaders.json) ToyHeaders.request = Returns m ∧
       decode_request (SP := ToySfv.prim) (HJ := ToyHeaders.json) None m = Ok (wire_request (HJ := ToyHeaders.json) None ToyHeaders.request).
Proof.
  apply (request_round_trip (SP := ToySfv.prim) (SL := ToySfv.laws) (HJ := ToyHeaders.json) (JL := ToyHeaders.json_laws)
    None ToyHeaders.request); [reflexivity|discriminate|discriminate|reflexivity].
Defined.

Lemma response_round_trip_witness :
  ∃ m, encode_response (SP := ToySfv.prim) (HJ := ToyHeaders.json) (UP := ToyHeaders.uuid) ToyHeaders.response = Returns m ∧
       decode_response (SP := ToySfv.prim) (HJ := ToyHeaders.json) (UP := ToyHeaders.uuid) None m =
         Ok (wire_response (HJ := ToyHeaders.json) ToyHeaders.response).
Proof.
  apply (response_round_trip (SP := ToySfv.prim) (SL := ToySfv.laws) (HJ := ToyHeaders.json) (JL := ToyHeaders.json_laws)
    (UP := ToyHeaders.uuid) (UL := ToyHeaders.uuid_laws) None ToyHeaders.response); [reflexivity|reflexivity|by_compute|reflexivity].
Defined.

Lemma encode_panics_iff_witness :
  encode_request (SP := ToySfv.prim) (HJ := ToyHeaders.json)
    (mk_aths_headers [] [] [] [] EmptyString New true false
       [mk_quote (UnknownType "my tee") Raw [] [] []] None [] None None None) = Panics.
Proof.
  apply (encode_panics_iff (SP := ToySfv.prim) (SL := ToySfv.laws) (HJ := ToyHeaders.json)
    (UP := ToyHeaders.uuid) _ ToyHeaders.response).
  eexists. split; [left|reflexivity].
Defined.

Lemma preflight_round_trip_witness :
  ∃ m, encode_preflight (SP := ToySfv.prim) (mk_preflight_headers [X25519MlKem768Aes256GcmSha384] [V2] (as_bytes "c") true) = Returns m ∧
    decode_preflight (SP := ToySfv.prim) None m = Ok (mk_preflight_headers [X25519MlKem768Aes256GcmSha384] [V2] (as_bytes "c") true).
Proof. apply (preflight_round_trip (SP := ToySfv.prim) (SL := ToySfv.laws) None). Defined.

Lemma decode_no_suite_witness :
  ∃ m, decode_request (SP := ToySfv.prim) (HJ := ToyHeaders.json) None m = Err (Missing HDR_ATTEST_CIPHER_SUITES).
Proof.
  destruct (encode_request (SP := ToySfv.prim) (HJ := ToyHeaders.json)
    (mk_aths_headers [] [] [V2] [] EmptyString New true false [] None [] None None None)) as [m|] eqn:Hm;
    [|vm_compute in Hm; discriminate].
  exists m. eapply (decode_no_suite (SP := ToySfv.prim) (SL := ToySfv.laws) (HJ := ToyHeaders.json) (JL := ToyHeaders.json_laws) None).
  2: exact Hm. reflexivity.
Defined.
