(* ===== verification/Fabric.v ===== *)
(** * The memory fabric

    [crates/openhttpa-fabric/src/store.rs], [replication.rs] and [mcp_tools.rs]: the
    encrypted, versioned key-value stores that agents share, the synchronisation of
    replicas, and the two tools that language models call.

    The trait [DataStore] is the class [DataStore]; [DataStoreLaws] is what its
    clients ([MemoryStore], [ReplicationManager], the tools) rely on, and the three
    implementations ([KvStore], [VectorStore], [RocksDbStore]) discharge it.  The
    random nonce of a write and what the database or file system answered are
    arguments; the lock around a store makes each call one step. *)

From S2P Require Import Prelude Crypto Aead Proto KeySchedule Attestation Tee Provenance.
From stdpp Require Import options.
From Stdlib Require Import OrderedTypeEx.

#[local] Open Scope Z_scope.

Inductive Topology : Type := Global | Partitioned (name : string).

Record SealedData : Type := mk_sealed { ciphertext : bytes; sealed_nonce : bytes }.
#[export] Instance SealedData_eq_dec : EqDecision SealedData.
Proof. solve_decision. Defined.

(** A node's counter; a missing node counts as zero. *)
Definition VersionVector : Type := gmap string Z.

Inductive KeyDerivationPolicy : Type := StartupCached | PerTransaction.

Record FabricEntry : Type := mk_fabric_entry {
  fe_version : VersionVector;
  fe_data : SealedData;
  fe_provenance : option ProvenanceChain.t;
}.
#[export] Instance FabricEntry_eq_dec : EqDecision FabricEntry.
Proof. solve_decision. Defined.

(** ** Keys and encryption of entries *)

Definition entry_info (namespace entry_key : string) : bytes :=
  as_bytes "sdmf_entry_v1" ++ u32_be (Z.of_nat (length (as_bytes namespace))) ++ as_bytes namespace ++
  u32_be (Z.of_nat (length (as_bytes entry_key))) ++ as_bytes entry_key.

Section crypto.
Context {AP : AeadPrim} {HP : HkdfPrim}.

Definition derive_entry_key (master_key : bytes) (namespace entry_key : string) (nonce : bytes) : result string bytes :=
  prk ← map_err (λ e, "HKDF extract failed for SDMF entry key: " +:+ to_string e) (extract_sha384 nonce master_key);
  map_err (λ e, "HKDF expand failed for SDMF entry key: " +:+ to_string e) (expand prk (entry_info namespace entry_key) 32).

Definition derive_master_key (tee : TeeOps) : result string bytes :=
  map_err (λ e, "TEE derive_key failed: " +:+ to_string e) (op_derive_key tee (as_bytes "sdmf_rocksdb_master_key")).

(** AES-256-GCM without associated data. *)
Definition encrypt_entry (nonce master_key : bytes) (namespace key : string) (data : bytes) : result string (bytes * bytes) :=
  entry_key ← derive_entry_key master_key namespace key nonce;
  ciphertext ← ok_or (prim_seal Aes256Gcm entry_key nonce [] data) "AES-GCM encrypt failed: aead::Error"%string;
  Ok (nonce, ciphertext).

Definition decrypt_entry (master_key : bytes) (namespace key : string) (sealed : SealedData) : option bytes :=
  match derive_entry_key master_key namespace key (sealed_nonce sealed) with
  | Ok entry_key => prim_open Aes256Gcm entry_key (sealed_nonce sealed) [] (ciphertext sealed)
  | Err _ => None
  end.

Context {AL : AeadLaws AP} {HL : HkdfLaws HP}.

Lemma derive_entry_key_total master ns k nonce :
  ∃ key, derive_entry_key master ns k nonce = Ok key ∧ length key = 32%nat.
Proof using HL.
  unfold derive_entry_key, extract_sha384. cbn [map_err mbind result_bind].
  destruct (expand_total (hkdf_extract (if decide (nonce = []) then replicate 48 NUL else nonce) master) (entry_info ns k) 32)
    as (key & He & Hl); [by rewrite hkdf_extract_length|lia|]. exists key. by rewrite He.
Qed.

Lemma encrypt_entry_total nonce master ns k data :
  Z.of_nat (length data) ≤ 2 ^ 36 - 32 → ∃ ct, encrypt_entry nonce master ns k data = Ok (nonce, ct).
Proof using AL HL.
  intros Hd. unfold encrypt_entry. destruct (derive_entry_key_total master ns k nonce) as (key & Hk & Hl). rewrite Hk.
  cbn [mbind result_bind]. destruct (prim_seal_some Aes256Gcm key nonce [] data Hl Hd) as [ct ->]. by exists ct.
Qed.

Lemma decrypt_encrypt nonce master ns k data n ct :
  encrypt_entry nonce master ns k data = Ok (n, ct) → decrypt_entry master ns k (mk_sealed ct n) = Some data.
Proof using AL.
  unfold encrypt_entry, decrypt_entry. intros H. inv_ok. cbn [sealed_nonce ciphertext].
  match goal with E : derive_entry_key _ _ _ _ = _ |- _ => rewrite E end. by apply prim_open_iff.
Qed.

End crypto.

(** Entries of different names never share the input of the key derivation. *)
Lemma entry_info_inj ns1 k1 ns2 k2 :
  Z.of_nat (length (as_bytes ns1)) < 2 ^ 32 → Z.of_nat (length (as_bytes ns2)) < 2 ^ 32 →
  entry_info ns1 k1 = entry_info ns2 k2 → ns1 = ns2 ∧ k1 = k2.
Proof.
  unfold entry_info. intros H1 H2 Heq. apply (inj (app _)) in Heq.
  apply app_fixed_inj in Heq as [Hl Heq]; [|by wire_len].
  apply to_be_inj in Hl; [|lia..]. apply app_fixed_inj in Heq as [Hn Heq]; [|lia].
  apply app_fixed_inj in Heq as [_ Hk]; [|by wire_len]. split; by apply as_bytes_inj.
Qed.

(** ** Versions *)

(** The loop over the new version's nodes. *)
Definition dominates (existing version : VersionVector) : bool :=
  forallb (λ '(node, v), negb (bool_decide (default 0 (existing !! node) < v))) (map_to_list version).

(** The order that the loop decides. *)
Definition vv_le (v w : VersionVector) : Prop := ∀ node n, v !! node = Some n → n ≤ default 0 (w !! node).

Lemma dominates_iff existing version : dominates existing version = true ↔ vv_le version existing.
Proof.
  unfold dominates, vv_le. rewrite forallb_forall. split.
  - intros H node n Hn. specialize (H (node, n)). cbn in H. apply negb_true_iff, bool_decide_eq_false in H; [lia|].
    by apply list_elem_of_In, elem_of_map_to_list.
  - intros H [node n] Hin%list_elem_of_In%elem_of_map_to_list. apply negb_true_iff, bool_decide_eq_false.
    specialize (H node n Hin). lia.
Qed.
#[export] Instance vv_le_dec v w : Decision (vv_le v w).
Proof. refine (cast_if (decide (dominates w v = true))); by rewrite <- dominates_iff. Defined.

Lemma vv_le_refl v : vv_le v v.
Proof. intros node n ->. done. Qed.

(** ** The trait *)

(** What the surroundings contribute to a call: the nonce drawn for it, and whether the
    database could be read and written. *)
Record FabricEnv : Type := mk_fabric_env { env_nonce : bytes; db_read_ok : bool; db_write_ok : bool }.

Class DataStore (S : Type) : Type := {
  ds_get : TeeOps → FabricEnv → S → string → string → option bytes;
  ds_put : TeeOps → FabricEnv → S → string → string → bytes → VersionVector → option ProvenanceChain.t → bool * S;
  ds_delete : FabricEnv → S → string → string → S;
}.

Definition env_ok (e : FabricEnv) : Prop := db_read_ok e = true ∧ db_write_ok e = true.

(** The contract of a store, in terms of the entry it holds under a name and the master
    key it uses: a stale write changes nothing, a fresh one replaces the entry, a read
    decrypts it. *)
Class DataStoreSpec (S : Type) `{AeadPrim} `{HkdfPrim} `{D : DataStore S} : Type := {
  ds_entry : S → string → string → option FabricEntry;
  ds_key : TeeOps → S → option bytes;
  ds_get_entry tee env st ns k :
    env_ok env → ds_get tee env st ns k = (e ← ds_entry st ns k; mk ← ds_key tee st; decrypt_entry mk ns k (fe_data e));
  ds_put_stale tee env st ns k data v p e :
    env_ok env → ds_entry st ns k = Some e → vv_le v (fe_version e) →
    ∃ st', ds_put tee env st ns k data v p = (false, st') ∧ ds_key tee st' = ds_key tee st ∧
      ∀ ns' k', ds_entry st' ns' k' = ds_entry st ns' k';
  ds_put_fresh tee env st ns k data v p mk n ct :
    env_ok env → (∀ e, ds_entry st ns k = Some e → ¬ vv_le v (fe_version e)) →
    ds_key tee st = Some mk → encrypt_entry (env_nonce env) mk ns k data = Ok (n, ct) →
    ∃ st', ds_put tee env st ns k data v p = (true, st') ∧ ds_key tee st' = Some mk ∧
      ds_entry st' ns k = Some (mk_fabric_entry v (mk_sealed ct n) p);
  ds_put_true tee env st ns k data v p st' :
    ds_put tee env st ns k data v p = (true, st') →
    ∃ mk n ct, ds_key tee st = Some mk ∧ ds_key tee st' = Some mk ∧ encrypt_entry (env_nonce env) mk ns k data = Ok (n, ct) ∧
      ds_entry st' ns k = Some (mk_fabric_entry v (mk_sealed ct n) p);
  ds_delete_entry env st ns k : db_write_ok env = true → ds_entry (ds_delete env st ns k) ns k = None;
}.

(** ** The stores in memory *)

(** [ns.keys().min()] *)
Definition str_le (a b : string) : bool := match String.compare a b with Gt => false | _ => true end.
Definition min_key {A} (m : gmap string A) : option string :=
  foldr (λ k acc, match acc with Some j => Some (if str_le k j then k else j) | None => Some k end) None
    (map_to_list m).*1.

Lemma min_key_elem {A} (m : gmap string A) k : min_key m = Some k → is_Some (m !! k).
Proof.
  unfold min_key. intros Hk. assert (k ∈ (map_to_list m).*1) as ((j & a) & -> & Ha)%list_elem_of_fmap.
  { revert k Hk. induction ((map_to_list m).*1) as [|x l IH]; intros k; cbn; [done|].
    destruct (foldr _ _ l) as [j|]; [|intros [= <-]; left].
    destruct (str_le x j); intros [= <-]; [left|right; auto]. }
  exists a. by apply elem_of_map_to_list.
Qed.
Lemma min_key_some {A} (m : gmap string A) : m ≠ ∅ → is_Some (min_key m).
Proof.
  intros Hm. unfold min_key. destruct (map_to_list m) as [|[k a] l] eqn:Hl.
  - by apply map_to_list_empty_iff in Hl.
  - cbn. destruct (foldr _ _ _); eauto.
Qed.

Definition NAMESPACE_CAP : nat := Z.to_nat 1000.
Abbreviation Namespaces E := (gmap string (gmap string E)).

(** What [KvStore] and [VectorStore] share: their maps differ in what surrounds an
    entry. *)
Section map_store.
Context {AP : AeadPrim} {HP : HkdfPrim} {E : Type} (entry_of : E → FabricEntry) (wrap : FabricEntry → E).

Definition evict (ns : gmap string E) : gmap string E :=
  if decide (NAMESPACE_CAP ≤ size ns)%nat then match min_key ns with Some k => delete k ns | None => ns end else ns.

Definition map_entry (st : Namespaces E) (namespace key : string) : option FabricEntry :=
  ns ← st !! namespace; entry_of <$> ns !! key.

Definition map_get (tee : TeeOps) (st : Namespaces E) (namespace key : string) : option bytes :=
  entry ← map_entry st namespace key;
  master_key ← result_ok (derive_master_key tee);
  decrypt_entry master_key namespace key (fe_data entry).

Definition map_put (tee : TeeOps) (nonce : bytes) (st : Namespaces E) (namespace key : string) (data : bytes)
    (version : VersionVector) (provenance : option ProvenanceChain.t) : bool * Namespaces E :=
  let ns := default ∅ (st !! namespace) in
  if match ns !! key with Some existing => dominates (fe_version (entry_of existing)) version | None => false end
  then (false, <[namespace := ns]> st)
  else
    let ns := evict ns in
    match derive_master_key tee with
    | Err _ => (false, <[namespace := ns]> st)
    | Ok master_key =>
        match encrypt_entry nonce master_key namespace key data with
        | Err _ => (false, <[namespace := ns]> st)
        | Ok (nonce_bytes, ciphertext) =>
            (true, <[namespace := <[key := wrap (mk_fabric_entry version (mk_sealed ciphertext nonce_bytes) provenance)]> ns]> st)
        end
    end.

Definition map_delete (st : Namespaces E) (namespace key : string) : Namespaces E :=
  match st !! namespace with Some ns => <[namespace := delete key ns]> st | None => st end.

(** No namespace grows beyond the cap. *)
Definition map_inv (st : Namespaces E) : Prop := map_Forall (λ _ ns, (size ns ≤ NAMESPACE_CAP)%nat) st.

Lemma size_evict ns : (size ns ≤ NAMESPACE_CAP)%nat → (size (evict ns) < NAMESPACE_CAP)%nat.
Proof.
  unfold evict. intros Hle. destruct (decide (NAMESPACE_CAP ≤ size ns)%nat) as [Hge|]; [|lia].
  destruct (min_key_some ns) as [k Hk].
  { intros ->. rewrite map_size_empty in Hge. unfold NAMESPACE_CAP in Hge. lia. }
  rewrite Hk. destruct (min_key_elem ns k Hk) as [a Ha]. rewrite map_size_delete_Some by eauto.
  unfold NAMESPACE_CAP in *. lia.
Qed.
Lemma evict_lookup ns k : evict ns !! k = ns !! k ∨ evict ns !! k = None.
Proof.
  unfold evict. destruct (decide _); [|by left]. destruct (min_key ns) as [j|]; [|by left].
  destruct (decide (j = k)) as [->|]; [right; apply lookup_delete_eq|left; by apply lookup_delete_ne].
Qed.

Lemma map_put_inv tee nonce st ns k data v p : map_inv st → map_inv (map_put tee nonce st ns k data v p).2.
Proof.
  intros Hinv. assert (size (default ∅ (st !! ns)) ≤ NAMESPACE_CAP)%nat as Hns.
  { destruct (st !! ns) as [m|] eqn:Hm; [by apply (Hinv ns)|]. cbn. rewrite map_size_empty. lia. }
  pose proof (size_evict _ Hns) as Hev. unfold map_put, map_inv in *.
  repeat case_match; cbn [snd]; apply map_Forall_insert_2; try done; try lia.
  all: rewrite map_size_insert; destruct (evict _ !! k); [by apply Nat.lt_le_incl|exact Hev].
Qed.
Lemma map_delete_inv st ns k : map_inv st → map_inv (map_delete st ns k).
Proof.
  intros Hinv. unfold map_delete, map_inv in *. destruct (st !! ns) as [m|] eqn:Hm; [|done].
  apply map_Forall_insert_2; [|done]. pose proof (Hinv ns m Hm) as Hs; cbv beta in Hs. rewrite map_size_delete. destruct (m !! k); unfold id; lia.
Qed.

Lemma map_put_stale tee nonce st ns k data v p e :
  map_entry st ns k = Some e → vv_le v (fe_version e) →
  ∃ st', map_put tee nonce st ns k data v p = (false, st') ∧ ∀ ns' k', map_entry st' ns' k' = map_entry st ns' k'.
Proof.
  unfold map_entry at 1. intros (m & Hm & (x & Hx & ->)%fmap_Some)%bind_Some Hle. unfold map_put. rewrite Hm. cbn [default from_option id].
  rewrite Hx. apply dominates_iff in Hle as ->. eexists. split; [done|]. intros ns' k'. by rewrite insert_id.
Qed.

(** A write that is not stale stores its entry, if the key and the encryption are there. *)
Lemma map_put_fresh tee nonce st ns k data v p :
  (∀ e, map_entry st ns k = Some e → ¬ vv_le v (fe_version e)) →
  map_put tee nonce st ns k data v p =
    match derive_master_key tee with
    | Err _ => (false, <[ns := evict (default ∅ (st !! ns))]> st)
    | Ok mk => match encrypt_entry nonce mk ns k data with
               | Err _ => (false, <[ns := evict (default ∅ (st !! ns))]> st)
               | Ok (n, ct) => (true, <[ns := <[k := wrap (mk_fabric_entry v (mk_sealed ct n) p)]> (evict (default ∅ (st !! ns)))]> st)
               end
    end.
Proof.
  intros Hf. unfold map_put. destruct (default ∅ (st !! ns) !! k) as [x|] eqn:Hx; [|done].
  destruct (dominates _ v) eqn:Hd; [|done]. apply dominates_iff in Hd. destruct (Hf (entry_of x)); [|done].
  unfold map_entry. destruct (st !! ns) as [m|]; cbn in *; [by rewrite Hx|by rewrite lookup_empty in Hx].
Qed.

Lemma map_put_true tee nonce st ns k data v p st' :
  map_put tee nonce st ns k data v p = (true, st') →
  ∃ mk n ct, derive_master_key tee = Ok mk ∧ encrypt_entry nonce mk ns k data = Ok (n, ct) ∧
    st' = <[ns := <[k := wrap (mk_fabric_entry v (mk_sealed ct n) p)]> (evict (default ∅ (st !! ns)))]> st.
Proof.
  unfold map_put. set (stale := match _ with Some _ => _ | None => false end). destruct stale; [done|].
  destruct (derive_master_key tee) as [mk|]; [|done]. destruct (encrypt_entry nonce mk ns k data) as [[n ct]|] eqn:He; [|done].
  intros [= <-]. by exists mk, n, ct.
Qed.

Lemma map_entry_insert st ns m k x : map_entry (<[ns := <[k := x]> m]> st) ns k = Some (entry_of x).
Proof. unfold map_entry. rewrite lookup_insert_eq. cbn. by rewrite lookup_insert_eq. Qed.

Lemma map_delete_entry st ns k : map_entry (map_delete st ns k) ns k = None.
Proof.
  unfold map_delete, map_entry. destruct (st !! ns) as [m|] eqn:Hm; [|by rewrite Hm].
  rewrite lookup_insert_eq. cbn. by rewrite lookup_delete_eq.
Qed.

(** Other namespaces are not touched, and in the same one only the evicted entry is. *)
Lemma map_put_frame tee nonce st ns k data v p ns' k' :
  (ns', k') ≠ (ns, k) →
  map_entry (map_put tee nonce st ns k data v p).2 ns' k' = map_entry st ns' k' ∨
  ns' = ns ∧ min_key (default ∅ (st !! ns)) = Some k' ∧ (NAMESPACE_CAP ≤ size (default ∅ (st !! ns)))%nat ∧
    map_entry (map_put tee nonce st ns k data v p).2 ns' k' = None.
Proof.
  intros Hne. destruct (decide (ns' = ns)) as [->|Hns].
  2: { left. unfold map_put, map_entry. repeat case_match; cbn [snd]; by rewrite lookup_insert_ne. }
  assert (k ≠ k') as Hk by congruence.
  assert (∀ m, map_entry (<[ns := m]> st) ns k' = entry_of <$> m !! k') as Hins.
  { intros m. unfold map_entry. by rewrite lookup_insert_eq. }
  assert (map_entry st ns k' = entry_of <$> default ∅ (st !! ns) !! k') as Hst.
  { unfold map_entry. destruct (st !! ns); cbn; [done|by rewrite lookup_empty]. }
  rewrite Hst. set (m := default ∅ (st !! ns)) in *.
  assert (evict m !! k' = m !! k' ∨ min_key m = Some k' ∧ (NAMESPACE_CAP ≤ size m)%nat ∧ evict m !! k' = None) as Hev.
  { unfold evict. destruct (decide (NAMESPACE_CAP ≤ size m)%nat); [|by left]. destruct (min_key m) as [j|]; [|by left].
    destruct (decide (j = k')) as [->|]; [right; by rewrite lookup_delete_eq|left; by apply lookup_delete_ne]. }
  unfold map_put. fold m.
  repeat case_match; cbn [snd]; rewrite Hins, ?lookup_insert_ne by done; try (by left);
    destruct Hev as [->|(? & ? & ->)]; auto.
Qed.

End map_store.

(** *** [KvStore] *)

Module KvStore.
Definition t : Type := Namespaces FabricEntry.
Definition new : t := ∅.

Section ops.
Context {AP : AeadPrim} {HP : HkdfPrim}.
Definition get (tee : TeeOps) (st : t) (namespace key : string) : option bytes := map_get id tee st namespace key.
Definition put (tee : TeeOps) (nonce : bytes) (st : t) (namespace key : string) (data : bytes) (version : VersionVector)
    (provenance : option ProvenanceChain.t) : bool * t := map_put id id tee nonce st namespace key data version provenance.
Definition delete (st : t) (namespace key : string) : t := map_delete st namespace key.

#[global] Instance data_store : DataStore t := {|
  ds_get tee _ := get tee;
  ds_put tee env := put tee (env_nonce env);
  ds_delete _ := delete;
|}.
End ops.
End KvStore.

(** *** [VectorStore] *)

(** [f32] arithmetic; [f32_cmp] is [partial_cmp]. *)
Class F32 : Type := {
  f32 : Type;
  f32_zero : f32;
  f32_tenth : f32;
  f32_add : f32 → f32 → f32;
  f32_mul : f32 → f32 → f32;
  f32_div : f32 → f32 → f32;
  f32_sqrt : f32 → f32;
  f32_eqb : f32 → f32 → bool;
  f32_cmp : f32 → f32 → option comparison;
}.

Module VectorStore.
Section ops.
Context {AP : AeadPrim} {HP : HkdfPrim} {F : F32}.

Definition t : Type := Namespaces (list f32 * FabricEntry).
Definition new : t := ∅.

Definition sum (l : list f32) : f32 := foldl f32_add f32_zero l.
Definition cosine_similarity (a b : list f32) : f32 :=
  if bool_decide (length a ≠ length b) || bool_decide (a = []) then f32_zero
  else
    let dot := sum (zip_with f32_mul a b) in
    let norm_a := f32_sqrt (sum ((λ x, f32_mul x x) <$> a)) in
    let norm_b := f32_sqrt (sum ((λ x, f32_mul x x) <$> b)) in
    if f32_eqb norm_a f32_zero || f32_eqb norm_b f32_zero then f32_zero else f32_div dot (f32_mul norm_a norm_b).

Definition embedding : list f32 := replicate 128 f32_tenth.

Definition get (tee : TeeOps) (st : t) (namespace key : string) : option bytes := map_get snd tee st namespace key.
Definition put (tee : TeeOps) (nonce : bytes) (st : t) (namespace key : string) (data : bytes) (version : VersionVector)
    (provenance : option ProvenanceChain.t) : bool * t :=
  map_put snd (pair embedding) tee nonce st namespace key data version provenance.
Definition delete (st : t) (namespace key : string) : t := map_delete st namespace key.

#[global] Instance data_store : DataStore t := {|
  ds_get tee _ := get tee;
  ds_put tee env := put tee (env_nonce env);
  ds_delete _ := delete;
|}.

(** The stable sort, descending by score; what a comparison cannot order counts as
    equal. *)
Definition score_cmp (a b : string * f32 * bytes) : comparison := default Eq (f32_cmp b.1.2 a.1.2).
Fixpoint insert_by (x : string * f32 * bytes) (l : list (string * f32 * bytes)) : list (string * f32 * bytes) :=
  match l with
  | [] => [x]
  | y :: l => match score_cmp y x with Gt => x :: y :: l | _ => y :: insert_by x l end
  end.
Definition sort_by_score (l : list (string * f32 * bytes)) : list (string * f32 * bytes) := foldl (λ acc x, insert_by x acc) [] l.

(** [order] is the iteration order of the namespace's hash map. *)
Definition vector_search (tee : TeeOps) (order : list (string * (list f32 * FabricEntry)))
    (st : Namespaces (list f32 * FabricEntry)) (namespace : string)    (query : list f32) (top_k : nat) : list (string * f32 * bytes) :=
  match st !! namespace with
  | None => []
  | Some _ =>
      match derive_master_key tee with
      | Err _ => []
      | Ok master_key =>
          take top_k (sort_by_score
            (omap (M := list) (λ '(k, (emb, entry)),
                     pt ← decrypt_entry master_key namespace k (fe_data entry); Some (k, cosine_similarity query emb, pt)) order))
      end
  end.

Lemma insert_by_Permutation x l : insert_by x l ≡ₚ x :: l.
Proof. induction l as [|y l IH]; cbn; [done|]. destruct (score_cmp y x); [|by rewrite IH, Permutation_swap..|done]. by rewrite IH, Permutation_swap. Qed.
Lemma sort_Permutation l : sort_by_score l ≡ₚ l.
Proof.
  unfold sort_by_score. assert (∀ acc, foldl (λ acc x, insert_by x acc) acc l ≡ₚ l ++ acc) as H.
  { induction l as [|x l IH]; intros acc; cbn; [done|]. by rewrite IH, insert_by_Permutation, Permutation_middle. }
  by rewrite H, app_nil_r.
Qed.
Lemma sort_equal l s : Forall (λ x, x.1.2 = s) l → f32_cmp s s = Some Eq ∨ f32_cmp s s = None → sort_by_score l = l.
Proof.
  intros Hall Hs. assert (∀ acc, Forall (λ x, x.1.2 = s) acc → foldl (λ acc x, insert_by x acc) acc l = acc ++ l) as H.
  { induction Hall as [|x l Hx _ IH]; intros acc Hacc; cbn; [by rewrite app_nil_r|].
    assert (insert_by x acc = acc ++ [x]) as ->.
    { clear IH. induction Hacc as [|y acc Hy _ IH]; cbn; [done|]. unfold score_cmp. rewrite Hx, Hy.
      destruct Hs as [->| ->]; cbn; by rewrite IH. }
    rewrite IH, <- app_assoc; [done|]. apply Forall_app. split; [done|by constructor]. }
  by apply H.
Qed.

End ops.
End VectorStore.

(** ** The persistent store *)

(** [serde_json] on an entry. *)
Class EntryJson : Type := { entry_to_vec : FabricEntry → option bytes; entry_from_slice : bytes → option FabricEntry }.
Class EntryJsonLaws (P : EntryJson) : Prop := {
  entry_to_vec_some e : is_Some (entry_to_vec e);
  entry_from_to e b : entry_to_vec e = Some b → entry_from_slice b = Some e;
}.

Module RocksDbStore.

Record t : Type := mk { db : gmap string bytes; derivation_policy : KeyDerivationPolicy; cached_key : option bytes }.

Definition db_key (namespace key : string) : string := namespace +:+ ":" +:+ key.

Section ops.
Context {AP : AeadPrim} {HP : HkdfPrim} {EJ : EntryJson}.

(** [opened] is what opening the database gave. *)
Definition new (opened : result string (gmap string bytes)) (policy : KeyDerivationPolicy) (tee : TeeOps) : result string t :=
  db ← opened;
  cached ← (match policy with StartupCached => k ← derive_master_key tee; Ok (Some k) | PerTransaction => Ok None end);
  Ok (mk db policy cached).

Definition master_key (tee : TeeOps) (st : t) : option bytes :=
  match derivation_policy st with
  | StartupCached => cached_key st
  | PerTransaction => result_ok (derive_master_key tee)
  end.

(** The stored entry; a read error and an unreadable value look like a missing one. *)
Definition read (env : FabricEnv) (st : t) (namespace key : string) : option FabricEntry :=
  if db_read_ok env then db st !! db_key namespace key ≫= entry_from_slice else None.

Definition get (tee : TeeOps) (env : FabricEnv) (st : t) (namespace key : string) : option bytes :=
  entry ← read env st namespace key;
  master_key ← master_key tee st;
  decrypt_entry master_key namespace key (fe_data entry).

Definition put (tee : TeeOps) (env : FabricEnv) (st : t) (namespace key : string) (data : bytes) (version : VersionVector)
    (provenance : option ProvenanceChain.t) : bool * t :=
  if match read env st namespace key with Some existing => dominates (fe_version existing) version | None => false end
  then (false, st)
  else
    match master_key tee st with
    | None => (false, st)
    | Some master_key =>
        match encrypt_entry (env_nonce env) master_key namespace key data with
        | Err _ => (false, st)
        | Ok (nonce_bytes, ciphertext) =>
            match entry_to_vec (mk_fabric_entry version (mk_sealed ciphertext nonce_bytes) provenance) with
            | None => (false, st)
            | Some serialized =>
                if db_write_ok env
                then (true, mk (<[db_key namespace key := serialized]> (db st)) (derivation_policy st) (cached_key st))
                else (false, st)
            end
        end
    end.

Definition delete (env : FabricEnv) (st : t) (namespace key : string) : t :=
  if db_write_ok env then mk (base.delete (db_key namespace key) (db st)) (derivation_policy st) (cached_key st) else st.

#[global] Instance data_store : DataStore t := {|
  ds_get := get;
  ds_put := put;
  ds_delete := delete;
|}.

End ops.
End RocksDbStore.

(** ** The stores keep the contract *)

Section contract.
Context {AP : AeadPrim} {HP : HkdfPrim}.

(** A store whose operations are those of [map_store]. *)
Section of_map.
Context {E : Type} (entry_of : E → FabricEntry) (wrap : FabricEntry → E) (entry_wrap : ∀ e, entry_of (wrap e) = e).
Context (D : DataStore (Namespaces E)).
Context (get_eq : ∀ tee env st ns k, ds_get tee env st ns k = map_get entry_of tee st ns k).
Context (put_eq : ∀ tee env st ns k d v p, ds_put tee env st ns k d v p = map_put entry_of wrap tee (env_nonce env) st ns k d v p).
Context (delete_eq : ∀ env st ns k, ds_delete env st ns k = map_delete st ns k).

Definition map_spec : DataStoreSpec (Namespaces E).
Proof using get_eq put_eq delete_eq entry_wrap.
  refine {| ds_entry := map_entry entry_of; ds_key tee _ := result_ok (derive_master_key tee) |}.
  - intros tee env st ns k _. apply get_eq.
  - intros tee env st ns k data v p e _ He Hle. rewrite put_eq.
    destruct (map_put_stale entry_of wrap tee (env_nonce env) st ns k data v p e He Hle) as (st' & -> & Heq). eauto.
  - intros tee env st ns k data v p mk n ct _ Hf Hk He. rewrite put_eq, map_put_fresh by done.
    destruct (derive_master_key tee) as [mk'|] eqn:Hm; [|done]. injection Hk as ->. rewrite He. eexists. split; [done|].
    split; [done|]. by rewrite map_entry_insert, entry_wrap.
  - intros tee env st ns k data v p st'. rewrite put_eq. intros (mk & n & ct & Hm & He & ->)%map_put_true.
    exists mk, n, ct. rewrite Hm. split_and!; [done..|]. by rewrite map_entry_insert, entry_wrap.
  - intros env st ns k _. rewrite delete_eq. apply map_delete_entry.
Defined.
End of_map.

#[global] Instance kv_spec : DataStoreSpec KvStore.t := map_spec id id (λ _, eq_refl) _ (λ _ _ _ _ _, eq_refl) (λ _ _ _ _ _ _ _ _, eq_refl) (λ _ _ _ _, eq_refl).
#[global] Instance vector_spec {F : F32} : DataStoreSpec VectorStore.t :=
  map_spec snd (pair VectorStore.embedding) (λ _, eq_refl) _ (λ _ _ _ _ _, eq_refl) (λ _ _ _ _ _ _ _ _, eq_refl) (λ _ _ _ _, eq_refl).

#[global] Instance rocks_spec {EJ : EntryJson} {EL : EntryJsonLaws EJ} : DataStoreSpec RocksDbStore.t.
Proof using.
  refine {| ds_entry := RocksDbStore.read (mk_fabric_env [] true true); ds_key := RocksDbStore.master_key |}.
  - intros tee env st ns k [Hr _]. cbn [ds_get RocksDbStore.data_store]. unfold RocksDbStore.get, RocksDbStore.read. by rewrite Hr.
  - intros tee env st ns k data v p e [Hr _] He Hle. cbn [ds_put RocksDbStore.data_store]. unfold RocksDbStore.put, RocksDbStore.read in *.
    rewrite Hr. cbn [db_read_ok] in He. rewrite He. apply dominates_iff in Hle as ->. eauto.
  - intros tee env st ns k data v p mk n ct [Hr Hw] Hf Hk He. cbn [ds_put RocksDbStore.data_store]. unfold RocksDbStore.put.
    assert (RocksDbStore.read env st ns k = RocksDbStore.read (mk_fabric_env [] true true) st ns k) as ->.
    { unfold RocksDbStore.read. by rewrite Hr. }
    assert (match RocksDbStore.read (mk_fabric_env [] true true) st ns k with Some x => dominates (fe_version x) v | None => false end = false) as ->.
    { destruct (RocksDbStore.read _ st ns k) as [x|] eqn:Hx; [|done]. apply not_true_iff_false. rewrite dominates_iff. by apply Hf. }
    rewrite Hk, He. destruct (entry_to_vec_some (mk_fabric_entry v (mk_sealed ct n) p)) as [b Hb]. rewrite Hb, Hw.
    eexists. split; [done|]. split; [exact Hk|]. unfold RocksDbStore.read. cbn. rewrite lookup_insert_eq. cbn. by apply entry_from_to.
  - intros tee env st ns k data v p st'. cbn [ds_put RocksDbStore.data_store]. unfold RocksDbStore.put.
    destruct (match RocksDbStore.read env st ns k with Some _ => _ | None => _ end); [done|].
    destruct (RocksDbStore.master_key tee st) as [mk|] eqn:Hk; [|done].
    destruct (encrypt_entry _ mk ns k data) as [[n ct]|] eqn:He; [|done]. destruct (entry_to_vec _) as [b|] eqn:Hb; [|done].
    destruct (db_write_ok env); [|done]. intros [= <-]. exists mk, n, ct. split_and!; [done|exact Hk|done|].
    unfold RocksDbStore.read. cbn. rewrite lookup_insert_eq. cbn. by apply entry_from_to.
  - intros env st ns k Hw. cbn [ds_delete RocksDbStore.data_store]. unfold RocksDbStore.delete, RocksDbStore.read. rewrite Hw. cbn.
    by rewrite lookup_delete_eq.
Defined.

End contract.

(** ** [MemoryStore] *)

Module MemoryStore.

Record t (S : Type) : Type := mk { topology : Topology; backend : S; tee_provider : TeeOps }.
#[global] Arguments mk {_}.
#[global] Arguments topology {_}.
#[global] Arguments backend {_}.
#[global] Arguments tee_provider {_}.

Section ops.
Context {S : Type} `{DataStore S}.
Definition get (env : FabricEnv) (m : t S) (namespace key : string) : option bytes :=
  ds_get (tee_provider m) env (backend m) namespace key.
Definition put (env : FabricEnv) (m : t S) (namespace key : string) (data : bytes) (version : VersionVector)
    (provenance : option ProvenanceChain.t) : bool * t S :=
  let '(b, st) := ds_put (tee_provider m) env (backend m) namespace key data version provenance in
  (b, mk (topology m) st (tee_provider m)).
Definition delete (env : FabricEnv) (m : t S) (namespace key : string) : t S :=
  mk (topology m) (ds_delete env (backend m) namespace key) (tee_provider m).
End ops.

Definition new_kv (topology : Topology) (tee : TeeOps) : t KvStore.t := mk topology KvStore.new tee.
Definition new_vector {F : F32} (topology : Topology) (tee : TeeOps) : t VectorStore.t := mk topology VectorStore.new tee.
Definition new_rocksdb (topology : Topology) (tee : TeeOps) (opened : result string (gmap string bytes))
    (policy : KeyDerivationPolicy) : result string (t RocksDbStore.t) :=
  db ← RocksDbStore.new opened policy tee; Ok (mk topology db tee).

End MemoryStore.

(** ** Snapshots *)

(** [serde_json] on the maps of a store, with the error's text. *)
Class MapJson (E : Type) : Type := {
  map_to_vec : Namespaces E → result string bytes;
  map_from_slice : bytes → result string (Namespaces E);
}.
Class MapJsonLaws (E : Type) (P : MapJson E) : Prop := {
  map_from_to st b : map_to_vec st = Ok b → map_from_slice b = Ok st;
}.

Section snapshot.
Context {E : Type} {MJ : MapJson E}.

(** [write] is what writing the file gives, [read] what reading it gave. *)
Definition snapshot_to_disk (tee : TeeOps) (write : bytes → result string ()) (st : Namespaces E) : result string () :=
  serialized ← map_to_vec st;
  sealed_data ← map_err to_string (op_seal_data tee serialized);
  write sealed_data.

Definition restore_from_disk (tee : TeeOps) (read : result string bytes) (st : Namespaces E) : result string () * Namespaces E :=
  match (sealed_data ← read;
         serialized ← map_err to_string (op_unseal_data tee sealed_data);
         map_from_slice serialized) with
  | Ok restored => (Ok (), restored)
  | Err e => (Err e, st)
  end.

End snapshot.

(** A snapshot that was written restores the store it was taken from, and a restore that
    fails changes nothing. *)
Theorem snapshot_restores {E : Type} {MJ : MapJson E} {ML : MapJsonLaws E MJ} (tee : TeeOps) (write : bytes → result string ())
    (st : Namespaces E) :
  (∀ b s, op_seal_data tee b = Ok s → op_unseal_data tee s = Ok b) →
  snapshot_to_disk tee write st = Ok () →
  ∃ file, write file = Ok () ∧ ∀ st0, restore_from_disk tee (Ok file) st0 = (Ok (), st).
Proof.
  intros Hseal H. unfold snapshot_to_disk in H. inv_ok. eexists. split; [eassumption|]. intros st0. unfold restore_from_disk.
  cbn [mbind result_bind]. match goal with Hs : op_seal_data _ _ = Ok _ |- _ => apply Hseal in Hs as -> end. cbn [map_err mbind result_bind].
  match goal with Hv : map_to_vec _ = Ok _ |- _ => by apply map_from_to in Hv as -> end.
Qed.

(** ** What every store promises *)

Section promises.
Context {AP : AeadPrim} {AL : AeadLaws AP} {HP : HkdfPrim} {HL : HkdfLaws HP} {S : Type} {D : DataStore S} {DS : DataStoreSpec S}.
Context (tee : TeeOps) (ns k : string).

Record Update : Type := mk_update {
  u_env : FabricEnv; u_data : bytes; u_version : VersionVector; u_provenance : option ProvenanceChain.t;
}.
(** What the environment must give for a write to go through, and [u64] counters. *)
Definition update_ok (u : Update) : Prop :=
  env_ok (u_env u) ∧ Z.of_nat (length (u_data u)) ≤ 2 ^ 36 - 32 ∧ ∀ node n, u_version u !! node = Some n → 0 ≤ n.

Definition apply_update (st : S) (u : Update) : S := (ds_put tee (u_env u) st ns k (u_data u) (u_version u) (u_provenance u)).2.

(** The store holds the data of [u] under its version. *)
Definition holds (st : S) (u : Update) : Prop :=
  ∃ mk e, ds_key tee st = Some mk ∧ ds_entry st ns k = Some e ∧ fe_version e = u_version u ∧
    decrypt_entry mk ns k (fe_data e) = Some (u_data u).

Lemma holds_get env st u : env_ok env → holds st u → ds_get tee env st ns k = Some (u_data u).
Proof using. intros He (mk & e & Hk & Hs & _ & Hd). rewrite ds_get_entry by done. rewrite Hs. cbn. rewrite Hk. exact Hd. Qed.

Lemma put_true_holds env st data v p st' :
  ds_put tee env st ns k data v p = (true, st') → holds st' (mk_update env data v p).
Proof using AL.
  intros (mk & n & ct & _ & Hk & He & Hs)%ds_put_true. exists mk, (mk_fabric_entry v (mk_sealed ct n) p).
  split_and!; [done..|]. by eapply decrypt_encrypt.
Qed.

Lemma apply_fresh st u :
  update_ok u → is_Some (ds_key tee st) → (∀ e, ds_entry st ns k = Some e → ¬ vv_le (u_version u) (fe_version e)) →
  holds (apply_update st u) u.
Proof using AL HL.
  intros (He & Hd & _) [mk Hk] Hf. destruct (encrypt_entry_total (env_nonce (u_env u)) mk ns k (u_data u) Hd) as [ct Hct].
  destruct (ds_put_fresh tee (u_env u) st ns k (u_data u) (u_version u) (u_provenance u) mk _ ct He Hf Hk Hct) as (st' & Hput & _).
  unfold apply_update. rewrite Hput. cbn [snd]. destruct u as [env data v p]. by eapply put_true_holds.
Qed.
Lemma apply_stale st u s :
  env_ok (u_env u) → holds st s → vv_le (u_version u) (u_version s) → holds (apply_update st u) s.
Proof using.
  intros He (mk & e & Hk & Hs & Hv & Hd) Hle. rewrite <- Hv in Hle. unfold apply_update.
  destruct (ds_put_stale tee (u_env u) st ns k (u_data u) (u_version u) (u_provenance u) e He Hs Hle) as (st' & -> & Hk' & Heq).
  exists mk, e. cbn [snd]. rewrite Hk', Heq. done.
Qed.
Lemma holds_fresh st s u : holds st s → ¬ vv_le (u_version u) (u_version s) →
  is_Some (ds_key tee st) ∧ ∀ e, ds_entry st ns k = Some e → ¬ vv_le (u_version u) (fe_version e).
Proof using. intros (mk & e & Hk & Hs & Hv & _) Hle. split; [by eauto|]. intros e'. rewrite Hs. intros [= <-]. by rewrite Hv. Qed.

Lemma vv_le_trans (u v w : VersionVector) :
  (∀ node n, w !! node = Some n → 0 ≤ n) → vv_le u v → vv_le v w → vv_le u w.
Proof using.
  intros Hw Huv Hvw node n Hn. specialize (Huv node n Hn). destruct (v !! node) as [m|] eqn:Hm; cbn in Huv.
  - specialize (Hvw node m Hm). lia.
  - destruct (w !! node) as [x|] eqn:Hx; cbn; [|lia]. specialize (Hw node x Hx). lia.
Qed.

(** Updates whose versions are ordered: the store ends with one that is above all. *)
Lemma chain_max (us : list Update) (P : Update → Prop) st s :
  (∀ u, P u → update_ok u) → (∀ u w, P u → P w → vv_le (u_version u) (u_version w) ∨ vv_le (u_version w) (u_version u)) →
  Forall P us → P s → holds st s →
  ∃ m, P m ∧ holds (foldl apply_update st us) m ∧ vv_le (u_version s) (u_version m) ∧
    Forall (λ u, vv_le (u_version u) (u_version m)) us.
Proof using AL HL.
  intros Hok Hchain. revert st s. induction us as [|u us IH]; intros st s Hall Hs Hst.
  { exists s. split_and!; [done|done|apply vv_le_refl|constructor]. }
  apply Forall_cons in Hall as [Hu Hall]. cbn [foldl].
  assert (∃ s', P s' ∧ holds (apply_update st u) s' ∧ vv_le (u_version s) (u_version s') ∧ vv_le (u_version u) (u_version s'))
    as (s' & Hs' & Hst' & Hss & Hus).
  { destruct (decide (vv_le (u_version u) (u_version s))) as [Hle|Hle].
    - exists s. split_and!; [done|by apply apply_stale; [apply Hok|..]|apply vv_le_refl|done].
    - exists u. destruct (Hchain u s Hu Hs) as [|Hsu]; [done|]. split_and!; [done| |done|apply vv_le_refl].
      destruct (holds_fresh _ _ _ Hst Hle). apply apply_fresh; auto. }
  destruct (IH _ _ Hall Hs' Hst') as (m & Hm & Hh & Hsm & Hallm). exists m.
  assert (∀ node n, u_version m !! node = Some n → 0 ≤ n) by apply (Hok m Hm).
  split_and!; [done|done|by eapply vv_le_trans|]. constructor; [by eapply vv_le_trans|done].
Qed.

End promises.

(** What a store accepted, it returns. *)
Theorem read_your_write {AP : AeadPrim} {AL : AeadLaws AP} {HP : HkdfPrim} {S : Type} {D : DataStore S} {DS : DataStoreSpec S}
    (tee : TeeOps) (env env' : FabricEnv) (st st' : S) (ns k : string) (data : bytes) (v : VersionVector) (p : option ProvenanceChain.t) :
  env_ok env' → ds_put tee env st ns k data v p = (true, st') → ds_get tee env' st' ns k = Some data.
Proof. intros He Hput%put_true_holds. by apply (holds_get tee ns k env' st' (mk_update env data v p)). Qed.

(** A replica that has received a set of updates, none of them concurrent, holds the
    data of the newest. *)
Lemma chain_newest {AP : AeadPrim} {AL : AeadLaws AP} {HP : HkdfPrim} {HL : HkdfLaws HP} {S : Type} {D : DataStore S} {DS : DataStoreSpec S}
    (tee : TeeOps) (ns k : string) (st : S) (us : list Update) (newest : Update) :
  Forall update_ok us →
  (∀ u w, u ∈ us → w ∈ us → vv_le (u_version u) (u_version w) ∨ vv_le (u_version w) (u_version u)) →
  newest ∈ us → (∀ u, u ∈ us → vv_le (u_version u) (u_version newest)) →
  is_Some (ds_key tee st) → ds_entry st ns k = None →
  ∃ m, m ∈ us ∧ vv_le (u_version newest) (u_version m) ∧ holds tee ns k (foldl (apply_update tee ns k) st us) m.
Proof.
  rewrite Forall_forall. intros Hok Hchain Hn Hmax Hk He. destruct us as [|u us]; [by apply elem_of_nil in Hn|]. cbn [foldl].
  assert (holds tee ns k (apply_update tee ns k st u) u) as Hu.
  { apply apply_fresh; [by apply Hok; left|done|]. intros e. by rewrite He. }
  destruct (chain_max tee ns k us (λ x, x ∈ u :: us) (apply_update tee ns k st u) u Hok Hchain) as (m & Hm & Hh & Hum & Hall); [|by left|done|].
  { apply Forall_forall. intros x Hx. by right. }
  exists m. split; [done|]. split; [|done]. apply elem_of_cons in Hn as [->|Hn]; [done|].
  rewrite Forall_forall in Hall. by apply Hall.
Qed.

(** [C29] Replicas converge when no two updates of a name are concurrent: two stores, of
    any two implementations, that receive the same updates in any order and any
    number of times return the same data, that of the newest version. *)
Theorem replicas_converge {AP : AeadPrim} {AL : AeadLaws AP} {HP : HkdfPrim} {HL : HkdfLaws HP}
    {S1 S2 : Type} {D1 : DataStore S1} {D2 : DataStore S2} {DS1 : DataStoreSpec S1} {DS2 : DataStoreSpec S2}
    (tee1 tee2 : TeeOps) (env : FabricEnv) (ns k : string) (st1 : S1) (st2 : S2) (us1 us2 : list Update) (newest : Update) :
  env_ok env → Forall update_ok us1 → (∀ u, u ∈ us1 ↔ u ∈ us2) →
  (∀ u w, u ∈ us1 → w ∈ us1 → vv_le (u_version u) (u_version w) ∨ vv_le (u_version w) (u_version u)) →
  (∀ u w, u ∈ us1 → w ∈ us1 → vv_le (u_version u) (u_version w) → vv_le (u_version w) (u_version u) → u_data u = u_data w) →
  newest ∈ us1 → (∀ u, u ∈ us1 → vv_le (u_version u) (u_version newest)) →
  is_Some (ds_key tee1 st1) → is_Some (ds_key tee2 st2) → ds_entry st1 ns k = None → ds_entry st2 ns k = None →
  ds_get tee1 env (foldl (apply_update tee1 ns k) st1 us1) ns k = Some (u_data newest) ∧
  ds_get tee2 env (foldl (apply_update tee2 ns k) st2 us2) ns k = Some (u_data newest).
Proof.
  intros Henv Hok Hsame Hchain Hid Hn Hmax Hk1 Hk2 He1 He2.
  assert (Forall update_ok us2) as Hok2 by (rewrite Forall_forall in *; intros u Hu; apply Hok, Hsame, Hu).
  destruct (chain_newest tee1 ns k st1 us1 newest) as (m1 & Hm1 & Hle1 & Hh1); try done.
  destruct (chain_newest tee2 ns k st2 us2 newest) as (m2 & Hm2%Hsame & Hle2 & Hh2); try done.
  { intros u w Hu%Hsame Hw%Hsame. auto. } { by apply Hsame. } { intros u Hu%Hsame. auto. }
  split.
  - rewrite (Hid newest m1) by auto. by apply holds_get.
  - rewrite (Hid newest m2) by auto. by apply holds_get.
Qed.

(** Concurrent versions are not merged: the last one to arrive replaces the other, so
    replicas that see them in different orders differ, and an update that was already
    replaced is accepted again. *)
Theorem concurrent_diverge {AP : AeadPrim} {AL : AeadLaws AP} {HP : HkdfPrim} {HL : HkdfLaws HP} {S : Type} {D : DataStore S} {DS : DataStoreSpec S}
    (tee : TeeOps) (env : FabricEnv) (ns k : string) (st : S) (u w : Update) :
  env_ok env → update_ok u → update_ok w → is_Some (ds_key tee st) → ds_entry st ns k = None →
  ¬ vv_le (u_version u) (u_version w) → ¬ vv_le (u_version w) (u_version u) →
  ds_get tee env (foldl (apply_update tee ns k) st [u; w]) ns k = Some (u_data w) ∧
  ds_get tee env (foldl (apply_update tee ns k) st [w; u]) ns k = Some (u_data u) ∧
  ds_get tee env (foldl (apply_update tee ns k) st [u; w; u]) ns k = Some (u_data u).
Proof.
  intros Henv Hu Hw Hk He Huw Hwu. cbn [foldl].
  assert (∀ x, update_ok x → holds tee ns k (apply_update tee ns k st x) x) as Hfirst.
  { intros x Hx. apply apply_fresh; [done..|]. intros e. by rewrite He. }
  assert (∀ st' x y, update_ok y → holds tee ns k st' x → ¬ vv_le (u_version y) (u_version x) → holds tee ns k (apply_update tee ns k st' y) y) as Hnext.
  { intros st' x y Hy Hx Hle. destruct (holds_fresh tee ns k st' x y Hx Hle). by apply apply_fresh. }
  split_and!; (apply holds_get; [done|]).
  - by apply (Hnext _ u); [|apply Hfirst|].
  - by apply (Hnext _ w); [|apply Hfirst|].
  - apply (Hnext _ w); [done| |done]. by apply (Hnext _ u); [|apply Hfirst|].
Qed.

(** ** What a refused write may do *)

(** A full namespace loses its smallest key before the master key is known: without it
    the write is refused, and the entry is gone. *)
Theorem refused_write_evicts {AP : AeadPrim} {HP : HkdfPrim} (tee : TeeOps) (nonce : bytes) (st : Namespaces FabricEntry) (ns k j : string)
    (m : gmap string FabricEntry) (data : bytes) (v : VersionVector) (p : option ProvenanceChain.t) e :
  derive_master_key tee = Err e → st !! ns = Some m → (NAMESPACE_CAP ≤ size m)%nat → m !! k = None → min_key m = Some j →
  ∃ st', KvStore.put tee nonce st ns k data v p = (false, st') ∧ is_Some (map_entry id st ns j) ∧ map_entry id st' ns j = None.
Proof.
  intros Hk Hm Hsize Hnone Hmin. unfold KvStore.put, map_put. rewrite Hm. cbn [default from_option id]. rewrite Hnone, Hk.
  eexists. split; [done|]. unfold map_entry. rewrite Hm, lookup_insert_eq. cbn. unfold evict. rewrite decide_True by done. rewrite Hmin.
  rewrite lookup_delete_eq. split; [|done]. destruct (min_key_elem m j Hmin) as [x ->]. cbn. eauto.
Qed.

(** The database key joins its parts with a colon: two different names can share it, and
    then a write under one hides the entry of the other. *)
Theorem rocks_names_collide (a b c : string) :
  RocksDbStore.db_key (a +:+ ":" +:+ b) c = RocksDbStore.db_key a (b +:+ ":" +:+ c).
Proof. unfold RocksDbStore.db_key. apply as_bytes_inj. by rewrite !as_bytes_app, <- !app_assoc. Qed.

Theorem rocks_names_distinct (ns1 k1 ns2 k2 : string) :
  ":"%char ∉ as_bytes ns1 → ":"%char ∉ as_bytes ns2 → RocksDbStore.db_key ns1 k1 = RocksDbStore.db_key ns2 k2 → ns1 = ns2 ∧ k1 = k2.
Proof.
  intros H1 H2 Heq. apply (f_equal as_bytes) in Heq. unfold RocksDbStore.db_key in Heq.
  rewrite !as_bytes_app in Heq. cbn in Heq. apply app_sep_inj in Heq as [Hn Hk]; [|done..]. split; by apply as_bytes_inj.
Qed.

(** A read error skips the version check: any version replaces what is stored. *)
Theorem rocks_read_error_overwrites {AP : AeadPrim} {HP : HkdfPrim} {EJ : EntryJson} (tee : TeeOps) (env : FabricEnv) (st : RocksDbStore.t)
    (ns k : string) (data : bytes) (v : VersionVector) (p : option ProvenanceChain.t) (mk n ct b : bytes) :
  db_read_ok env = false → db_write_ok env = true → RocksDbStore.master_key tee st = Some mk →
  encrypt_entry (env_nonce env) mk ns k data = Ok (n, ct) → entry_to_vec (mk_fabric_entry v (mk_sealed ct n) p) = Some b →
  (RocksDbStore.put tee env st ns k data v p).1 = true.
Proof. intros Hr Hw Hk He Hb. unfold RocksDbStore.put, RocksDbStore.read. by rewrite Hr, Hk, He, Hb, Hw. Qed.

(** ** Similarity search *)

Section search.
Context {AP : AeadPrim} {HP : HkdfPrim} {F : F32}.
Import VectorStore.

(** A search returns at most [top_k] entries, each with the data that [get] returns. *)
Theorem search_sound (tee : TeeOps) (order : list (string * (list f32 * FabricEntry))) (st : Namespaces (list f32 * FabricEntry)) (ns : string)
    (m : gmap string (list f32 * FabricEntry)) (query : list f32) (top_k : nat) (k : string) (score : f32) (pt : bytes) :
  st !! ns = Some m → order ≡ₚ map_to_list m → (k, score, pt) ∈ vector_search tee order st ns query top_k →
  get tee st ns k = Some pt ∧ (length (vector_search tee order st ns query top_k) ≤ top_k)%nat.
Proof.
  intros Hm Hord Hin. unfold vector_search in *. rewrite Hm in Hin |- *. destruct (derive_master_key tee) as [mk|] eqn:Hk; [|by apply elem_of_nil in Hin].
  split; [|rewrite length_take; lia]. apply elem_of_take in Hin as (i & Hin%list_elem_of_lookup_2 & _). rewrite sort_Permutation in Hin.
  apply list_elem_of_omap in Hin as ([j [emb e]] & Hj & Hpt). destruct (decrypt_entry mk ns j (fe_data e)) as [d|] eqn:Hd; [|done].
  cbn in Hpt. injection Hpt as <- <- <-. assert (Hj' : (j, (emb, e)) ∈ map_to_list m) by by rewrite <- Hord. apply elem_of_map_to_list in Hj'.
  unfold get, map_get, map_entry. rewrite Hm. cbn. rewrite Hj'. cbn. by rewrite Hk.
Qed.

(** Every entry that [put] stored has the same embedding, ... *)
Definition embeddings_fixed (st : Namespaces (list f32 * FabricEntry)) : Prop := map_Forall (λ _, map_Forall (λ _ x, x.1 = embedding)) st.

Lemma evict_Forall (P : list f32 * FabricEntry → Prop) m : map_Forall (λ _ x, P x) m → map_Forall (λ _ x, P x) (evict m).
Proof. intros Hm k x Hx. destruct (evict_lookup m k) as [Hk|Hk]; rewrite Hk in Hx; [by eapply Hm|done]. Qed.
Lemma put_embeddings tee nonce st ns k data v p : embeddings_fixed st → embeddings_fixed (put tee nonce st ns k data v p).2.
Proof.
  intros Hst. assert (map_Forall (λ _ x, x.1 = embedding) (default ∅ (st !! ns))) as Hns.
  { destruct (st !! ns) as [m|] eqn:Hm; [by apply (Hst ns)|by apply map_Forall_empty]. }
  unfold put, map_put, embeddings_fixed in *. repeat case_match; cbn [snd]; apply map_Forall_insert_2; try done;
    try apply map_Forall_insert_2; try done; by apply (evict_Forall (λ x, x.1 = embedding)).
Qed.

(** ... so the query does not influence which entries a search returns. *)
Theorem search_ignores_query (tee : TeeOps) (order : list (string * (list f32 * FabricEntry))) (st : Namespaces (list f32 * FabricEntry))
    (ns : string) (m : gmap string (list f32 * FabricEntry)) (q1 q2 : list f32) (top_k : nat) :
  (∀ x : f32, f32_cmp x x = Some Eq ∨ f32_cmp x x = None) →
  embeddings_fixed st → st !! ns = Some m → order ≡ₚ map_to_list m →
  (λ r, (r.1.1, r.2)) <$> vector_search tee order st ns q1 top_k = (λ r, (r.1.1, r.2)) <$> vector_search tee order st ns q2 top_k.
Proof.
  intros Hcmp Hst Hm Hord. unfold vector_search. rewrite Hm. destruct (derive_master_key tee) as [mk|]; [|done].
  assert (Forall (λ x, x.2.1 = embedding) order) as Hall.
  { apply Forall_forall. intros [k x] Hx. apply (Hst ns m Hm k x), elem_of_map_to_list. by rewrite <- Hord. }
  set (found q := omap (M := list) (λ '(k, (emb, entry)),
    pt ← decrypt_entry mk ns k (fe_data entry); Some (k, cosine_similarity q emb, pt)) order).
  assert (∀ q, Forall (λ x, x.1.2 = cosine_similarity q embedding) (found q)) as Hfound.
  { intros q. unfold found. clear found Hord. induction Hall as [|[k [emb e]] l Hx _ IH]; cbn; [constructor|]. cbn in Hx. subst emb.
    destruct (decrypt_entry _ _ _ _); cbn; [by constructor|done]. }
  fold (found q1) (found q2). rewrite !(sort_equal _ _ (Hfound _) (Hcmp _)), !fmap_take. f_equal. unfold found.
  clear Hall Hord Hfound found. induction order as [|[k [emb e]] l IH]; cbn; [done|].
  destruct (decrypt_entry _ _ _ _); cbn; by rewrite ?fmap_cons, IH.
Qed.

End search.

(** ** Concrete runs *)

Module ToyFabric.

#[global] Instance floats : F32 := {|
  f32 := Z; f32_zero := 0; f32_tenth := 1; f32_add := Z.add; f32_mul := Z.mul; f32_div := Z.div; f32_sqrt := Z.sqrt; f32_eqb := Z.eqb;
  f32_cmp x y := Some (Z.compare x y);
|}.
Definition tee : TeeOps :=
  mk_tee_ops Mock (λ rd, Ok (mk_quote Mock Raw rd rd [])) (λ rd, Ok [mk_quote Mock Raw rd rd []]) true Ok Ok (λ _, Ok (replicate 32 NUL)).
Definition env : FabricEnv := mk_fabric_env (replicate 12 NUL) true true.
Definition older : Update := mk_update env (as_bytes "x") {["a"%string := 1]} None.
Definition newer : Update := mk_update env (as_bytes "y") {["a"%string := 2]} None.

Lemma vv_singleton (i j : Z) : i ≤ j → vv_le {["a"%string := i]} {["a"%string := j]}.
Proof.
  intros Hij node n [<- <-]%lookup_singleton_Some.
  exact (Z.le_trans _ _ _ Hij (Z.eq_le_incl _ _ (eq_sym (f_equal (default 0) (lookup_singleton_eq (M := gmap string) _ j))))).
Qed.
Lemma update_fine d i : (length d < 10)%nat → 0 ≤ i → update_ok (mk_update env d {["a"%string := i]} None).
Proof.
  intros Hd Hi. split; [done|]. split; [cbn [u_data]; lia|]. intros node n Hn. cbn [u_version] in Hn.
  apply lookup_singleton_Some in Hn as [_ <-]. done.
Qed.

End ToyFabric.

#[local] Existing Instances Toy.aead Toy.hkdf Toy.aead_laws Toy.hkdf_laws.

Lemma replicas_converge_witness :
  ds_get ToyFabric.tee ToyFabric.env
    (foldl (apply_update (S := KvStore.t) ToyFabric.tee "ns" "k") KvStore.new [ToyFabric.older; ToyFabric.newer]) "ns" "k" = Some (as_bytes "y") ∧
  ds_get ToyFabric.tee ToyFabric.env
    (foldl (apply_update (S := VectorStore.t) ToyFabric.tee "ns" "k") VectorStore.new [ToyFabric.newer; ToyFabric.older; ToyFabric.newer])
    "ns" "k" = Some (as_bytes "y").
Proof.
  apply (replicas_converge (AL := Toy.aead_laws) (HL := Toy.hkdf_laws) (DS1 := kv_spec) (DS2 := vector_spec)
    ToyFabric.tee ToyFabric.tee ToyFabric.env "ns" "k" KvStore.new VectorStore.new
    [ToyFabric.older; ToyFabric.newer] [ToyFabric.newer; ToyFabric.older; ToyFabric.newer] ToyFabric.newer).
  - done.
  - repeat constructor; by apply ToyFabric.update_fine; cbn; lia.
  - set_solver.
  - intros u w. rewrite !elem_of_cons, !elem_of_nil. intros [->|[->|[]]] [->|[->|[]]];
      [left|left|right|left]; by apply ToyFabric.vv_singleton.
  - intros u w. rewrite !elem_of_cons, !elem_of_nil. intros [->|[->|[]]] [->|[->|[]]] H1 H2; try done; exfalso;
      [specialize (H2 "a"%string 2 eq_refl)|specialize (H1 "a"%string 2 eq_refl)]; by vm_compute in *.
  - set_solver.
  - intros u. rewrite !elem_of_cons, !elem_of_nil. intros [->|[->|[]]]; by apply ToyFabric.vv_singleton.
  - by eexists.
  - by eexists.
  - done.
  - done.
Defined.
