(* ===== verification/Registry.v ===== *)
(** * The registry of live sessions

    [crates/openhttpa-server/src/atb_registry.rs]: a concurrent map from attest
    base identifiers to sessions, with a separate atomic count of the slots in
    use.  The module has two layers.  [insert], [get] and [evict_expired] are the
    methods as one thread executes them alone; the relation [step] splits them
    at every atomic access, for any number of threads, and the capacity theorem
    is proved for all its interleavings.

    The session handles of the map share one mutable session per identifier, so
    the map holds the session's state. *)

From S2P Require Import Prelude Proto Session.
From stdpp Require Import options relations.

#[local] Open Scope Z_scope.

Module AtbRegistry.

Record t : Type := mk {
  sessions : gmap AtbId SessionInner;
  max_sessions : nat;
  live_count : Z;
}.

Definition with_capacity (max : nat) : t := mk ∅ max 0.
Definition new : t := with_capacity (Z.to_nat 10000).

(** The update of the capacity check's compare-and-exchange loop. *)
Definition claim_upd (max : nat) (current : Z) : option Z :=
  if decide (current < Z.of_nat max) then Some (current + 1) else None.

Definition insert (r : t) (s : SessionInner) : result string () * t :=
  match claim_upd (max_sessions r) (live_count r) with
  | None => (Err "AtB registry full"%string, r)
  | Some c => (Ok (), mk (<[id s := s]> (sessions r)) (max_sessions r) c)
  end.

(** Remove an identifier, counting it only if it was there. *)
Definition remove_counted (r : t) (i : AtbId) : t :=
  match sessions r !! i with
  | Some _ => mk (delete i (sessions r)) (max_sessions r) (live_count r - 1)
  | None => r
  end.

Definition get (now : Z) (r : t) (i : AtbId) : option SessionInner * t :=
  match sessions r !! i with
  | None => (None, r)
  | Some s => if AttestSession.is_alive now s then (Some s, r) else (None, remove_counted r i)
  end.

Definition expired_ids (now : Z) (m : gmap AtbId SessionInner) : list AtbId :=
  (map_to_list (filter (λ kv, AttestSession.is_alive now kv.2 = false) m)).*1.
Definition evict_expired (now : Z) (r : t) : t := foldl remove_counted r (expired_ids now (sessions r)).

Definition len (r : t) : nat := size (sessions r).
Definition is_empty (r : t) : bool := bool_decide (len r = 0%nat).

(** A method on the session behind a handle updates the shared session. *)
Definition update (r : t) (i : AtbId) (s : SessionInner) : t :=
  mk (<[i := s]> (sessions r)) (max_sessions r) (live_count r).

Lemma foldl_remove_sessions r ids j :
  sessions (foldl remove_counted r ids) !! j = if decide (j ∈ ids) then None else sessions r !! j.
Proof.
  revert r. induction ids as [|i ids IH]; intros r; cbn [foldl]; [by rewrite decide_False by set_solver|].
  rewrite IH. unfold remove_counted.
  destruct (sessions r !! i) as [s|] eqn:Hs; simpl.
  - destruct (decide (j ∈ ids)) as [Hj|Hj]; [by rewrite decide_True by set_solver|].
    destruct (decide (j = i)) as [->|Hne].
    + rewrite lookup_delete_eq. by rewrite decide_True by set_solver.
    + rewrite lookup_delete_ne by done. by rewrite decide_False by set_solver.
  - destruct (decide (j ∈ ids)) as [Hj|Hj]; [by rewrite decide_True by set_solver|].
    destruct (decide (j = i)) as [->|Hne]; [by rewrite decide_True, Hs by set_solver|].
    by rewrite decide_False by set_solver.
Qed.

Lemma elem_of_expired_ids now m i :
  i ∈ expired_ids now m ↔ ∃ s, m !! i = Some s ∧ AttestSession.is_alive now s = false.
Proof.
  unfold expired_ids. rewrite list_elem_of_fmap. split.
  - intros ([k s] & -> & Hin%elem_of_map_to_list%map_lookup_filter_Some). naive_solver.
  - intros (s & Hs & Hd). exists (i, s). split; [done|]. by apply elem_of_map_to_list, map_lookup_filter_Some.
Qed.

Lemma evict_expired_sessions now r :
  sessions (evict_expired now r) = filter (λ kv, AttestSession.is_alive now kv.2 = true) (sessions r).
Proof.
  apply map_eq. intros j. unfold evict_expired. rewrite foldl_remove_sessions. apply option_eq. intros s.
  rewrite map_lookup_filter_Some. simpl. case_decide as Hj; rewrite elem_of_expired_ids in Hj.
  - split; [done|]. destruct Hj as (s' & Hs' & Hd). intros [Hs Ha]. congruence.
  - split; [|naive_solver]. intros Hs. split; [done|]. destruct (AttestSession.is_alive now s) eqn:Ha; [done|].
    destruct Hj. by exists s.
Qed.

(** ** Interleavings *)

(** A thread: it has claimed a slot and will insert; it is removing a list of
    expired identifiers (one for [get], several for [evict_expired]); it has
    removed one and will decrement the counter; it is done. *)
Inductive pc : Type :=
| Claimed (i : AtbId) (s : SessionInner)
| Removing (ids : list AtbId)
| Decrementing (ids : list AtbId)
| Done.

Record conf : Type := mk_conf {
  c_sessions : gmap AtbId SessionInner;
  c_live : Z;
  c_threads : list pc;
  (** inserts that replaced a session of the same identifier *)
  c_overwrites : Z;
}.

(** [occupies] counts the slots that a thread holds in the counter. *)
Definition occupies (p : pc) : nat := match p with Claimed _ _ | Decrementing _ => 1 | _ => 0 end.

Inductive step (max : nat) : conf → conf → Prop :=
| step_claim m l ts o i s l' :
    claim_upd max l = Some l' →
    step max (mk_conf m l ts o) (mk_conf m l' (ts ++ [Claimed i s]) o)
| step_put m l ts1 ts2 o i s :
    step max (mk_conf m l (ts1 ++ Claimed i s :: ts2) o)
      (mk_conf (<[i := s]> m) l (ts1 ++ Done :: ts2) (if decide (is_Some (m !! i)) then o + 1 else o))
| step_evict m l ts o ids now :
    Forall (λ i, ∃ s, m !! i = Some s ∧ AttestSession.is_alive now s = false) ids →
    step max (mk_conf m l ts o) (mk_conf m l (ts ++ [Removing ids]) o)
| step_remove m l ts1 ts2 o i ids :
    step max (mk_conf m l (ts1 ++ Removing (i :: ids) :: ts2) o)
      (mk_conf (delete i m) l (ts1 ++ (if decide (is_Some (m !! i)) then Decrementing ids else Removing ids) :: ts2) o)
| step_decrement m l ts1 ts2 o ids :
    step max (mk_conf m l (ts1 ++ Decrementing ids :: ts2) o) (mk_conf m (l - 1) (ts1 ++ Removing ids :: ts2) o)
| step_finish m l ts1 ts2 o :
    step max (mk_conf m l (ts1 ++ Removing [] :: ts2) o) (mk_conf m l (ts1 ++ Done :: ts2) o).

Definition init : conf := mk_conf ∅ 0 [] 0.

(** The counter is the number of sessions, of slots held by running threads and
    of past overwrites; it never exceeds the capacity. *)
Definition inv (max : nat) (c : conf) : Prop :=
  c_live c = Z.of_nat (size (c_sessions c)) + Z.of_nat (sum_list_with occupies (c_threads c)) + c_overwrites c ∧
  0 ≤ c_overwrites c ∧ c_live c ≤ Z.of_nat max.

Lemma size_insert_Z (m : gmap AtbId SessionInner) i s :
  Z.of_nat (size (<[i := s]> m)) = Z.of_nat (size m) + (if decide (is_Some (m !! i)) then 0 else 1).
Proof.
  rewrite map_size_insert. destruct (decide (is_Some (m !! i))) as [[x Hx]|Hn%eq_None_not_Some].
  - rewrite Hx. simpl. lia.
  - rewrite Hn. lia.
Qed.
Lemma size_delete_Z (m : gmap AtbId SessionInner) i :
  Z.of_nat (size (delete i m)) = Z.of_nat (size m) - (if decide (is_Some (m !! i)) then 1 else 0).
Proof.
  destruct (decide (is_Some (m !! i))) as [Hs|Hs].
  - rewrite map_size_delete_Some by done. destruct Hs as [s Hs].
    assert (size m ≠ 0%nat) by (intros ->%map_size_empty_iff; by rewrite lookup_empty in Hs). lia.
  - rewrite delete_id by by apply eq_None_not_Some. lia.
Qed.

Lemma inv_init max : inv max init.
Proof. unfold inv, init. simpl. rewrite map_size_empty. lia. Qed.

Lemma inv_step max c c' : inv max c → step max c c' → inv max c'.
Proof.
  intros (Hl & Ho & Hm) Hstep. unfold inv.
  destruct Hstep as [m l ts o i s l' Hc|m l ts1 ts2 o i s|m l ts o ids now _|m l ts1 ts2 o i ids|m l ts1 ts2 o ids|m l ts1 ts2 o];
    simpl in *; rewrite ?sum_list_with_app in *; simpl in *.
  - unfold claim_upd in Hc. case_decide; simplify_eq. lia.
  - rewrite size_insert_Z. case_decide; lia.
  - lia.
  - rewrite size_delete_Z. case_decide; simpl; lia.
  - lia.
  - lia.
Qed.

Lemma inv_reachable max c : rtc (step max) init c → inv max c.
Proof.
  intros Hr. remember init as c0 eqn:H0. assert (inv max c0) as Hi by (subst; apply inv_init). clear H0.
  induction Hr as [|c1 c2 c3 Hs _ IH]; [done|]. apply IH. by eapply inv_step.
Qed.

End AtbRegistry.

(** ** Properties *)

(** [C16] Capacity under concurrency: in every interleaving of any number of
    inserts, lookups and evictions, the registry never holds more than its
    capacity, and the slot counter accounts for exactly the sessions, the slots
    that running threads hold and the inserts that replaced an existing
    session; it never underflows. *)
Theorem registry_capacity (max : nat) (c : AtbRegistry.conf) :
  rtc (AtbRegistry.step max) AtbRegistry.init c →
  (size (AtbRegistry.c_sessions c) ≤ max)%nat ∧
  0 ≤ AtbRegistry.c_live c ≤ Z.of_nat max ∧
  AtbRegistry.c_live c = Z.of_nat (size (AtbRegistry.c_sessions c)) +
    Z.of_nat (sum_list_with AtbRegistry.occupies (AtbRegistry.c_threads c)) + AtbRegistry.c_overwrites c.
Proof. intros (Hl & Ho & Hm)%AtbRegistry.inv_reachable. lia. Qed.

Definition demo_id : AtbId := replicate 16 (u8_of 0).
Definition demo_live : SessionInner := demo_session default_strategy.

Lemma registry_capacity_witness :
  (size ({[ demo_id := demo_live ]} : gmap AtbId SessionInner) ≤ 1)%nat.
Proof.
  destruct (registry_capacity 1 (AtbRegistry.mk_conf {[ demo_id := demo_live ]} 1 [AtbRegistry.Done] 0)) as [H _];
    [|exact H].
  eapply rtc_l; [by apply (AtbRegistry.step_claim 1 ∅ 0 [] 0 demo_id demo_live)|].
  eapply rtc_l; [apply (AtbRegistry.step_put 1 ∅ 1 [] [])|]. apply rtc_refl.
Defined.

(** An insert under an identifier that is already registered leaks a slot for
    good: afterwards the map has as many sessions as before but one slot fewer
    is free, and removing every session does not give it back. *)
Theorem registry_overwrite_leaks (r : AtbRegistry.t) (s s' : SessionInner) (now : Z) :
  AtbRegistry.sessions r = {[ id s := s ]} → id s' = id s → AtbRegistry.live_count r = 1 →
  (2 ≤ AtbRegistry.max_sessions r)%nat → AttestSession.is_alive now s' = false →
  let r' := AtbRegistry.evict_expired now (AtbRegistry.insert r s').2 in
  AtbRegistry.len r' = 0%nat ∧ AtbRegistry.live_count r' = 1.
Proof.
  intros Hm Hid Hl Hmax Hdead. unfold AtbRegistry.insert, AtbRegistry.claim_upd.
  rewrite Hl, decide_True by lia. simpl. rewrite Hm, Hid, insert_singleton_eq.
  unfold AtbRegistry.evict_expired, AtbRegistry.expired_ids. simpl.
  rewrite map_filter_singleton_True by done. rewrite map_to_list_singleton. simpl.
  unfold AtbRegistry.remove_counted. simpl. rewrite lookup_singleton_eq. simpl.
  unfold AtbRegistry.len. simpl. by rewrite delete_singleton_eq, map_size_empty.
Qed.

Lemma registry_overwrite_leaks_witness :
  let r' := AtbRegistry.evict_expired 2000 (AtbRegistry.insert
    (AtbRegistry.mk {[ id demo_live := demo_live ]} 5 1) demo_live).2 in
  AtbRegistry.len r' = 0%nat ∧ AtbRegistry.live_count r' = 1.
Proof.
  apply (registry_overwrite_leaks (AtbRegistry.mk {[ id demo_live := demo_live ]} 5 1) demo_live demo_live 2000);
    try reflexivity. simpl. lia.
Defined.

(** Lookups: [get] returns a session exactly when one is registered and has
    not expired; an expired one is evicted and its slot is free again; after
    [evict_expired] only live sessions remain, every live one among them. *)
Theorem registry_lookup (now : Z) (r : AtbRegistry.t) (i : AtbId) :
  (AtbRegistry.get now r i).1 =
    (s ← AtbRegistry.sessions r !! i; if AttestSession.is_alive now s then Some s else None) ∧
  (∀ s, AtbRegistry.sessions r !! i = Some s → AttestSession.is_alive now s = false →
     AtbRegistry.sessions (AtbRegistry.get now r i).2 = delete i (AtbRegistry.sessions r) ∧
     AtbRegistry.live_count (AtbRegistry.get now r i).2 = AtbRegistry.live_count r - 1) ∧
  AtbRegistry.sessions (AtbRegistry.evict_expired now r) =
    filter (λ kv, AttestSession.is_alive now kv.2 = true) (AtbRegistry.sessions r).
Proof.
  split_and!.
  - unfold AtbRegistry.get. destruct (_ !! i) as [s|]; [|done]. simpl. by destruct (AttestSession.is_alive now s).
  - intros s Hs Hd. unfold AtbRegistry.get. rewrite Hs, Hd. simpl. unfold AtbRegistry.remove_counted. by rewrite Hs.
  - apply AtbRegistry.evict_expired_sessions.
Qed.
