(* ===== verification/RateLimit.v ===== *)
(** * Rate limiting

    [crates/openhttpa-server/src/rate_limit.rs]: the per-address sliding log of
    request times, its background cleanup, the collapse of IPv6 addresses to
    their /64 prefix, and the answer of the service.

    [origin] is the earliest representable [Instant]: [checked_sub] fails below
    it and the code then uses the current time as the cut-off. *)

From S2P Require Import Prelude.
From stdpp Require Import options.

#[local] Open Scope Z_scope.

Inductive IpAddr : Type :=
| IpV4 (octets : list Z)
| IpV6 (segments : list Z).
#[export] Instance IpAddr_eq_dec : EqDecision IpAddr.
Proof. solve_decision. Defined.
#[export] Instance IpAddr_countable : Countable IpAddr.
Proof.
  refine (inj_countable' (λ a, match a with IpV4 o => inl o | IpV6 s => inr s end)
    (λ a, match a with inl o => IpV4 o | inr s => IpV6 s end) _). by intros [].
Defined.

(** Zero the low four segments of an IPv6 address. *)
Definition normalize_ip (ip : IpAddr) : IpAddr :=
  match ip with
  | IpV4 o => IpV4 o
  | IpV6 segs => IpV6 (take 4 segs ++ [0; 0; 0; 0])
  end.

Definition localhost : IpAddr := IpV4 [127; 0; 0; 1].

Record RateLimitState : Type := mk_rate {
  clients : gmap IpAddr (list Z);
  max_requests : nat;
  window : Z;
}.

Section ops.
Context (origin : Z).

Definition cutoff (s : RateLimitState) (now : Z) : Z :=
  if decide (origin ≤ now - window s) then now - window s else now.

(** [retain(|ts| ts >= cutoff)] *)
Definition retain_from (c : Z) (ts : list Z) : list Z := filter (λ t, c ≤ t) ts.

Definition check_and_record (s : RateLimitState) (now : Z) (ip : IpAddr) : bool * RateLimitState :=
  let ip := normalize_ip ip in
  let entry := retain_from (cutoff s now) (default [] (clients s !! ip)) in
  if decide (max_requests s ≤ length entry)%nat
  then (false, mk_rate (<[ip := entry]> (clients s)) (max_requests s) (window s))
  else (true, mk_rate (<[ip := entry ++ [now]]> (clients s)) (max_requests s) (window s)).

(** One tick of the cleanup task. *)
Definition cleanup (s : RateLimitState) (now : Z) : RateLimitState :=
  mk_rate (omap (λ ts, match retain_from (cutoff s now) ts with [] => None | ts' => Some ts' end) (clients s))
    (max_requests s) (window s).

(** [RateLimitService::call]: [None] when the connection carries no address. *)
Inductive answer : Type := Allowed | TooManyRequests.
Definition call (s : RateLimitState) (now : Z) (peer : option IpAddr) : answer * RateLimitState :=
  let '(ok, s) := check_and_record s now (default localhost peer) in
  (if ok then Allowed else TooManyRequests, s).

(** ** Histories *)

Inductive op : Type :=
| Request (now : Z) (ip : IpAddr)
| Cleanup (now : Z).
Definition op_time (o : op) : Z := match o with Request t _ | Cleanup t => t end.

Definition step (s : RateLimitState) (o : op) : option bool * RateLimitState :=
  match o with
  | Request now ip => let '(r, s) := check_and_record s now ip in (Some r, s)
  | Cleanup now => (None, cleanup s now)
  end.

Fixpoint run (s : RateLimitState) (os : list op) : list (option bool) * RateLimitState :=
  match os with
  | [] => ([], s)
  | o :: os => let '(r, s) := step s o in let '(rs, s) := run s os in (r :: rs, s)
  end.

(** ** The abstract limiter: the log of all accepted requests *)

Abbreviation log := (list (Z * IpAddr)).

(** The accepted requests of an address within the window that ends at [t]. *)
Definition in_window (w t : Z) (ip : IpAddr) (l : log) : list (Z * IpAddr) :=
  filter (λ e, t - w ≤ e.1 ≤ t ∧ e.2 = ip) l.

Definition spec_step (max : nat) (w : Z) (l : log) (o : op) : option bool * log :=
  match o with
  | Request now ip =>
      let ip := normalize_ip ip in
      if decide (length (in_window w now ip l) < max)%nat then (Some true, l ++ [(now, ip)]) else (Some false, l)
  | Cleanup _ => (None, l)
  end.
Fixpoint spec_run (max : nat) (w : Z) (l : log) (os : list op) : list (option bool) * log :=
  match os with
  | [] => ([], l)
  | o :: os => let '(r, l) := spec_step max w l o in let '(rs, l) := spec_run max w l os in (r :: rs, l)
  end.

(** ** Simulation *)

Definition times (ip : IpAddr) (l : log) : list Z := (filter (λ e, e.2 = ip) l).*1.

(** The entry of an address is its accepted times, less some that are older than
    the window; [now] is a lower bound on the time of the next operation. *)
Definition related (now : Z) (s : RateLimitState) (l : log) : Prop :=
  ∀ ip, ∃ old, times ip l = old ++ default [] (clients s !! ip) ∧ Forall (λ t, t < now - window s) old ∧
    Forall (λ t, t ≤ now) (times ip l) ∧ StronglySorted Z.le (times ip l).

Lemma times_app ip l1 l2 : times ip (l1 ++ l2) = times ip l1 ++ times ip l2.
Proof. unfold times. by rewrite filter_app, fmap_app. Qed.

Lemma in_window_times w t ip l :
  length (in_window w t ip l) = length (filter (λ x, t - w ≤ x ≤ t) (times ip l)).
Proof.
  unfold in_window, times. induction l as [|[x i] l IH]; [done|].
  rewrite !filter_cons. simpl. destruct (decide (i = ip)) as [->|Hne]; simpl.
  - rewrite filter_cons. destruct (decide (t - w ≤ x ≤ t)) as [Hx|Hx].
    + rewrite decide_True by done. simpl. by rewrite IH.
    + rewrite decide_False by tauto. done.
  - rewrite decide_False by tauto. done.
Qed.

Lemma filter_all {A} (P : A → Prop) `{∀ x, Decision (P x)} l : Forall P l → filter P l = l.
Proof. induction 1 as [|x l Hx _ IH]; [done|]. by rewrite filter_cons_True, IH. Qed.
Lemma filter_none {A} (P : A → Prop) `{∀ x, Decision (P x)} l : Forall (λ x, ¬ P x) l → filter P l = [].
Proof. induction 1 as [|x l Hx _ IH]; [done|]. by rewrite filter_cons_False, IH. Qed.

(** Dropping the times before a bound from the entry only moves them to [old]. *)
Lemma retain_split c ts :
  StronglySorted Z.le ts → ∃ old, ts = old ++ retain_from c ts ∧ Forall (λ t, t < c) old.
Proof.
  induction 1 as [|t ts Hs IH Ht]; [by exists []|]. unfold retain_from in *. rewrite filter_cons. case_decide as Hc.
  - exists []. split; [|constructor]. simpl. f_equal. symmetry. apply filter_all.
    eapply Forall_impl; [exact Ht|]. simpl. lia.
  - destruct IH as (old & Heq & Hold). exists (t :: old). split; [by rewrite Heq at 1|constructor; [lia|done]].
Qed.

Lemma related_mono now now' s l : now ≤ now' → related now s l → related now' s l.
Proof.
  intros Hle Hr ip. destruct (Hr ip) as (old & Heq & Hold & Hle' & Hs). exists old. split_and!; [done| | |done];
    (eapply Forall_impl; [eassumption|]); simpl; lia.
Qed.

(** The entry after pruning is exactly the window. *)
Lemma related_prune now s l ip :
  related now s l → origin ≤ now - window s →
  let entry := retain_from (cutoff s now) (default [] (clients s !! ip)) in
  ∃ old, times ip l = old ++ entry ∧ Forall (λ t, t < now - window s) old ∧
    length (in_window (window s) now ip l) = length entry.
Proof.
  intros Hr Ho entry. destruct (Hr ip) as (old & Heq & Hold & Hle & Hs).
  unfold entry, cutoff. rewrite decide_True by done.
  rewrite Heq in Hs, Hle. apply StronglySorted_app in Hs as (_ & _ & Hs). apply Forall_app in Hle as [_ Hle].
  destruct (retain_split (now - window s) _ Hs) as (old2 & Heq2 & Hold2).
  set (e := retain_from (now - window s) (default [] (clients s !! ip))) in *.
  exists (old ++ old2). rewrite Heq, Heq2, app_assoc. split_and!; [done|by apply Forall_app|].
  rewrite in_window_times, Heq, Heq2, !filter_app.
  rewrite (filter_none _ old), (filter_none _ old2) by (eapply Forall_impl; [eassumption|]; simpl; lia).
  simpl. f_equal. apply filter_all. rewrite Heq2 in Hle. apply Forall_app in Hle as [_ Hle].
  apply Forall_forall. intros t Ht. rewrite Forall_forall in Hle. split; [|by apply Hle].
  by apply list_elem_of_filter in Ht as [? _].
Qed.

Lemma related_step now s l o :
  related now s l → now ≤ op_time o → origin ≤ op_time o - window s →
  (step s o).1 = (spec_step (max_requests s) (window s) l o).1 ∧
  related (op_time o) (step s o).2 (spec_step (max_requests s) (window s) l o).2 ∧
  window (step s o).2 = window s ∧ max_requests (step s o).2 = max_requests s.
Proof.
  intros Hr Hle Ho. apply (related_mono _ (op_time o)) in Hr; [|done]. destruct o as [t ip|t]; simpl in *.
  - unfold check_and_record. set (i := normalize_ip ip).
    destruct (related_prune t s l i Hr Ho) as (old & Heq & Hold & Hlen). set (e := retain_from _ _) in *.
    rewrite Hlen. destruct (decide (max_requests s ≤ length e)%nat).
    + rewrite decide_False by lia. simpl. split_and!; try done. intros j.
      destruct (Hr j) as (oldj & Hj & Hoj & Hlj & Hsj). destruct (decide (j = i)) as [->|Hne]; simpl.
      * exists old. rewrite lookup_insert_eq. by split_and!.
      * exists oldj. rewrite lookup_insert_ne by done. by split_and!.
    + rewrite decide_True by lia. simpl. split_and!; try done. intros j. rewrite times_app.
      destruct (Hr j) as (oldj & Hj & Hoj & Hlj & Hsj). unfold times at 2 4 6. rewrite filter_cons, filter_nil. simpl.
      destruct (decide (i = j)) as [<-|Hne]; simpl.
      * exists old. rewrite lookup_insert_eq. simpl. rewrite Heq, <-app_assoc. split_and!; [done|done| |].
        -- rewrite Heq in Hlj. apply Forall_app in Hlj as [??]. apply Forall_app. split; [done|].
           apply Forall_app. split; [done|]. by constructor.
        -- rewrite app_assoc, <-Heq. apply StronglySorted_app. split_and!; [|done|repeat constructor].
           intros x y Hx ->%list_elem_of_singleton. rewrite Forall_forall in Hlj. by apply Hlj.
      * exists oldj. rewrite lookup_insert_ne, !app_nil_r by done. by split_and!.
  - split_and!; try done. intros j. destruct (related_prune t s l j Hr Ho) as (old & Heq & Hold & _).
    destruct (Hr j) as (_ & _ & _ & Hlj & Hsj). exists old. split_and!; try done. simpl. rewrite lookup_omap.
    rewrite Heq. f_equal. destruct (clients s !! j) as [ts|]; simpl; [|done]. by destruct (retain_from _ ts).
Qed.

Lemma related_run now s l os :
  related now s l → Forall (λ o, origin ≤ op_time o - window s) os →
  StronglySorted Z.le (now :: (op_time <$> os)) →
  (run s os).1 = (spec_run (max_requests s) (window s) l os).1.
Proof.
  revert now s l. induction os as [|o os IH]; intros now s l Hr Ho Hs; [done|]. cbn [run spec_run].
  apply Forall_cons in Ho as [Ho Hos]. rewrite fmap_cons in Hs. apply StronglySorted_inv in Hs as [Hs Hle].
  apply Forall_cons in Hle as [Hle _].
  destruct (related_step now s l o Hr Hle Ho) as (Hres & Hrel & Hw & Hm).
  destruct (step s o) as [r s1]. destruct (spec_step _ _ l o) as [r' l1]. simpl in *. subst r'.
  specialize (IH (op_time o) s1 l1 Hrel). rewrite Hw, Hm in IH. specialize (IH Hos Hs).
  destruct (run s1 os), (spec_run _ _ l1 os). simpl in *. by subst.
Qed.

(** The abstract limiter never lets a window exceed the maximum. *)
Lemma spec_bound max w l os :
  StronglySorted Z.le ((l.*1) ++ (op_time <$> os)) → 0 ≤ w →
  (∀ t ip, (length (in_window w t ip l) ≤ max)%nat) →
  ∀ t ip, (length (in_window w t ip (spec_run max w l os).2) ≤ max)%nat.
Proof.
  revert l. induction os as [|o os IH]; intros l Hs Hw Hb t ip; cbn [spec_run]; [by apply Hb|].
  rewrite fmap_cons in Hs. destruct o as [now i|now]; simpl in *.
  - destruct (decide (length (in_window w now (normalize_ip i) l) < max)%nat) as [Hlt|Hge].
    + specialize (IH (l ++ [(now, normalize_ip i)])). destruct (spec_run max w (l ++ _) os) as [rs l'] eqn:Hrun.
      simpl in *. apply IH; [by rewrite fmap_app, <-app_assoc|done|]. clear t ip IH Hrun. intros t ip.
      unfold in_window. rewrite filter_app, length_app, filter_cons, filter_nil. simpl.
      destruct (decide _) as [[[Hlo Hhi] <-]|]; simpl; [|rewrite Nat.add_0_r; apply Hb].
      enough (length (in_window w t (normalize_ip i) l) ≤ length (in_window w now (normalize_ip i) l))%nat by
        (unfold in_window in *; lia).
      apply (submseteq_length (in_window w t _ l)). apply sublist_submseteq. unfold in_window.
      apply StronglySorted_app in Hs as (Hall & _ & _). clear -Hlo Hhi Hall.
      induction l as [|[x j] l IH]; [done|]. rewrite !filter_cons. simpl in *.
      assert (x ≤ now) by (apply (Hall x now); set_solver).
      assert (sublist (filter (λ e, t - w ≤ e.1 ≤ t ∧ e.2 = normalize_ip i) l)
                      (filter (λ e, now - w ≤ e.1 ≤ now ∧ e.2 = normalize_ip i) l)) as Hsub by (apply IH; set_solver).
      destruct (decide (t - w ≤ x ≤ t ∧ j = normalize_ip i)) as [[??]|].
      * rewrite decide_True by (split; [lia|done]). by constructor.
      * destruct (decide _); [by constructor|done].
    + specialize (IH l). destruct (spec_run max w l os) as [rs l'] eqn:Hrun. simpl in *. apply IH; [|done..].
      clear -Hs. apply StronglySorted_app in Hs as (Ha & Hl & Ho). apply StronglySorted_app. split_and!; [|done|].
      * intros x y Hx Hy. apply Ha; set_solver.
      * by apply StronglySorted_inv in Ho as [? _].
  - specialize (IH l). destruct (spec_run max w l os) as [rs l'] eqn:Hrun. simpl in *. apply IH; [|done..].
    clear -Hs. apply StronglySorted_app in Hs as (Ha & Hl & Ho). apply StronglySorted_app. split_and!; [|done|].
    + intros x y Hx Hy. apply Ha; set_solver.
    + by apply StronglySorted_inv in Ho as [? _].
Qed.

(** The accepted requests of a history, read off the answers. *)
Fixpoint accepted (os : list op) (rs : list (option bool)) : log :=
  match os, rs with
  | Request t ip :: os, Some true :: rs => (t, normalize_ip ip) :: accepted os rs
  | _ :: os, _ :: rs => accepted os rs
  | _, _ => []
  end.

Lemma spec_run_log max w l os : (spec_run max w l os).2 = l ++ accepted os (spec_run max w l os).1.
Proof.
  revert l. induction os as [|[t ip|t] os IH]; intros l; cbn [spec_run spec_step]; [by rewrite app_nil_r| |].
  - destruct (decide _).
    + specialize (IH (l ++ [(t, normalize_ip ip)])). destruct (spec_run _ _ (l ++ _) os). simpl in *.
      by rewrite IH, <-app_assoc.
    + specialize (IH l). by destruct (spec_run _ _ l os).
  - specialize (IH l). by destruct (spec_run _ _ l os).
Qed.

Definition new_state (max : nat) (w : Z) : RateLimitState := mk_rate ∅ max w.

Lemma related_new now max w : related now (new_state max w) [].
Proof. intros ip. exists []. split_and!; [done|constructor..]. Qed.

(** The hypotheses of the theorems: a monotonic clock, past the first window. *)
Definition well_timed (w : Z) (os : list op) : Prop :=
  Forall (λ o, origin ≤ op_time o - w) os ∧ StronglySorted Z.le (op_time <$> os).

Lemma run_spec max w os :
  well_timed w os → (run (new_state max w) os).1 = (spec_run max w [] os).1.
Proof.
  intros [Ho Hs]. destruct os as [|o os]; [done|].
  apply (related_run (op_time o) (new_state max w) [] (o :: os)); [apply related_new|done|].
  rewrite fmap_cons in *. apply SSorted_cons; [done|]. apply StronglySorted_inv in Hs as [_ Hs]. by constructor.
Qed.

(** [C24] The limiter with its pruned per-address vectors and the cleanup task
    answers every history as a limiter that keeps all accepted requests for
    ever: a request is accepted iff fewer than [max_requests] requests of its
    /64 were accepted in the window that ends now. *)
Theorem rate_limit_refines_log max w os :
  well_timed w os → (run (new_state max w) os).1 = (spec_run max w [] os).1.
Proof. apply run_spec. Qed.

(** No window of the configured length ever holds more than
    [max_requests] accepted requests of one IPv4 address or IPv6 /64, wherever
    the window is placed and however the requests are spread over the /64. *)
Theorem rate_limit_bound max w os t ip :
  well_timed w os → 0 ≤ w →
  (length (in_window w t (normalize_ip ip) (accepted os (run (new_state max w) os).1)) ≤ max)%nat.
Proof.
  intros Hwt Hw. rewrite run_spec by done. rewrite <-(app_nil_l (accepted _ _)), <-spec_run_log.
  apply spec_bound; [apply Hwt|done|]. intros. unfold in_window. rewrite filter_nil. simpl. lia.
Qed.

End ops.

(** Two hosts of one /64 and an IPv4 host, two requests per ten ticks. *)
Definition demo_ops : list op :=
  [ Request 100 (IpV6 [8193; 3512; 0; 1; 0; 0; 0; 7]); Request 101 (IpV6 [8193; 3512; 0; 1; 0; 0; 0; 8]);
    Request 102 (IpV6 [8193; 3512; 0; 1; 9; 9; 9; 9]); Request 102 localhost; Cleanup 103;
    Request 111 (IpV6 [8193; 3512; 0; 1; 0; 0; 0; 7]) ].

Lemma demo_well_timed : well_timed 0 10 demo_ops.
Proof. split; [|apply Sorted_StronglySorted; [intros ???; lia|]]; repeat constructor; simpl; lia. Defined.

Lemma rate_limit_refines_log_witness :
  (run 0 (new_state 2 10) demo_ops).1 = [Some true; Some true; Some false; Some true; None; Some true].
Proof. rewrite (rate_limit_refines_log 0 2 10 demo_ops demo_well_timed). vm_compute. reflexivity. Defined.

Lemma rate_limit_bound_witness :
  (length (in_window 10%Z 105%Z (normalize_ip (IpV6 [8193; 3512; 0; 1; 5; 5; 5; 5]%Z))
     (accepted demo_ops (run 0%Z (new_state 2 10%Z) demo_ops).1)) ≤ 2)%nat.
Proof. apply (rate_limit_bound 0 2 10 demo_ops 105); [apply demo_well_timed|lia]. Defined.
