(* ===== verification/ServerGuards.v ===== *)
(** * Replay guards of the server

    The trait [DistributedReplayGuard] of [crates/openhttpa-core/src/replay_guard.rs]
    and its implementations: the in-memory Bloom filter pair of
    [crates/openhttpa-server/src/middleware.rs] and the Redis guard of
    [crates/openhttpa-server/src/replay_guard_redis.rs]; and the file-backed
    sliding window of [crates/openhttpa-server/src/replay_guard_fs.rs], which
    does not implement the trait.

    The Bloom filter, the Redis server and the JSON serialiser are classes with
    the laws that their documentation states. *)

From S2P Require Import Prelude Codec ReplayWindow Http.
From stdpp Require Import options relations.

#[local] Open Scope Z_scope.

(** ** The trait *)

Class DistributedReplayGuard (G : Type) : Type := {
  (** [now] is the time of the call and [key] the window of the nonce. *)
  check_and_accept : Z → G → string → Z → result ReplayError () * G;
  check : Z → G → string → Z → result ReplayError ();
  accept : Z → G → string → Z → result ReplayError () * G;
}.

(** What a client of the trait relies on: an accepted nonce is remembered for
    [retention], and a remembered nonce is not accepted. *)
Class ReplayGuardLaws {G : Type} (D : DistributedReplayGuard G) (retention : Z) : Type := {
  guard_inv : G → Prop;
  remembers : G → string → Z → Z → Prop;
  accept_inv now g k n : guard_inv g → guard_inv (check_and_accept now g k n).2;
  accept_remembers now g k n g' :
    guard_inv g → is_u64 n → check_and_accept now g k n = (Ok (), g') → remembers g' k n (now + retention);
  remembered_rejected now g k n T :
    guard_inv g → is_u64 n → remembers g k n T → now < T → (check_and_accept now g k n).1 ≠ Ok ();
  remembers_stable now g k n T k' n' :
    guard_inv g → is_u64 n → is_u64 n' → remembers g k n T → now < T →
    remembers (check_and_accept now g k' n').2 k n T;
}.

(** ** The Bloom filter guard *)

(** The [bloomfilter] crate: [new_for_fp_rate] rejects zero items, a fresh
    filter contains nothing, and there are no false negatives. *)
Class BloomPrim : Type := {
  Bloom : Type;
  bloom_new : nat → option Bloom;
  bloom_check : Bloom → bytes → bool;
  bloom_set : Bloom → bytes → Bloom;
}.
Class BloomLaws (B : BloomPrim) : Prop := {
  bloom_new_zero : bloom_new 0 = None;
  bloom_new_Some n : n ≠ 0%nat → ∃ b, bloom_new n = Some b ∧ ∀ x, bloom_check b x = false;
  bloom_check_set b x : bloom_check (bloom_set b x) x = true;
  bloom_check_mono b x y : bloom_check b y = true → bloom_check (bloom_set b x) y = true;
}.

Module LocalReplayGuard.
Section ops.
Context {B : BloomPrim}.

Record t : Type := mk {
  bloom : Bloom;
  prev_bloom : option Bloom;
  capacity : nat;
  count : Z;
}.

Definition new (items : nat) : outcome t :=
  match bloom_new items with
  | Some b => Returns (mk b None items 0)
  | None => Panics
  end.

Definition is_near_capacity (g : t) : bool :=
  bool_decide (wrap64 (Z.of_nat (capacity g) * 4) / 5 ≤ count g).

(** [rotate] takes the two locks one after the other. *)
Definition rotate_swap (g : t) : outcome (Bloom * t) :=
  match bloom_new (capacity g) with
  | Some fresh => Returns (bloom g, mk fresh (prev_bloom g) (capacity g) (count g))
  | None => Panics
  end.
Definition rotate_keep (old : Bloom) (g : t) : t := mk (bloom g) (Some old) (capacity g) 0.
Definition rotate (g : t) : outcome t :=
  match rotate_swap g with Returns (old, g) => Returns (rotate_keep old g) | Panics => Panics end.

(** [check_and_accept] takes the lock of the overlap filter, then that of the
    active filter for the check and the insertion. *)
Definition check_prev (g : t) (nonce : Z) : result ReplayError () :=
  match prev_bloom g with
  | Some p => if bloom_check p (u64_be nonce) then Err (Replay nonce) else Ok ()
  | None => Ok ()
  end.
Definition check_set (g : t) (nonce : Z) : result ReplayError () * t :=
  if bloom_check (bloom g) (u64_be nonce) then (Err (Replay nonce), g)
  else (Ok (), mk (bloom_set (bloom g) (u64_be nonce)) (prev_bloom g) (capacity g) (wrap64 (count g + 1))).

Definition check_and_accept (g : t) (nonce : Z) : result ReplayError () * t :=
  match check_prev g nonce with
  | Err e => (Err e, g)
  | Ok _ => check_set g nonce
  end.
Definition check (g : t) (nonce : Z) : result ReplayError () :=
  _ ← check_prev g nonce;
  if bloom_check (bloom g) (u64_be nonce) then Err (Replay nonce) else Ok ().
Definition accept (g : t) (nonce : Z) : result ReplayError () * t :=
  (Ok (), mk (bloom_set (bloom g) (u64_be nonce)) (prev_bloom g) (capacity g) (wrap64 (count g + 1))).

(** The key of the trait's methods is not used. *)
#[global] Instance guard : DistributedReplayGuard t := {
  check_and_accept _ g _ n := check_and_accept g n;
  check _ g _ n := check g n;
  accept _ g _ n := accept g n;
}.

(** In which filters a nonce is. *)
Definition active (g : t) (n : Z) : bool := bloom_check (bloom g) (u64_be n).
Definition overlap (g : t) (n : Z) : bool :=
  match prev_bloom g with Some p => bloom_check p (u64_be n) | None => false end.

Lemma check_and_accept_eq g n :
  check_and_accept g n =
    if overlap g n || active g n then (Err (Replay n), g)
    else (Ok (), mk (bloom_set (bloom g) (u64_be n)) (prev_bloom g) (capacity g) (wrap64 (count g + 1))).
Proof.
  unfold check_and_accept, check_prev, check_set, overlap, active.
  destruct (prev_bloom g); [destruct (bloom_check b _)|]; simpl; try done; by destruct (bloom_check _ _).
Qed.

(** ** Histories of calls and rotations *)

Inductive op : Type := Submit (nonce : Z) | Rotate.
#[global] Instance op_eq_dec : EqDecision op.
Proof using. solve_decision. Defined.

(** A history, with the accepted nonces and the rotations in order; [None] when
    a call panics. *)
Fixpoint run (g : t) (os : list op) : option (list op * t) :=
  match os with
  | [] => Some ([], g)
  | Submit n :: os =>
      let '(r, g) := check_and_accept g n in
      '(es, g) ← run g os;
      Some (if is_ok r then Submit n :: es else es, g)
  | Rotate :: os =>
      match rotate g with
      | Returns g => '(es, g) ← run g os; Some (Rotate :: es, g)
      | Panics => None
      end
  end.

Definition rotations (es : list op) : nat := length (filter (λ e, e = Rotate) es).
Definition age_in (g : t) (n : Z) (k : nat) : Prop :=
  match k with 0 => active g n = true | 1 => overlap g n = true | _ => True end%nat.

Context {L : BloomLaws B}.

Lemma submit_age g n m k : age_in g m k → age_in (check_and_accept g n).2 m k.
Proof using L.
  rewrite check_and_accept_eq. destruct (_ || _); [done|]. destruct k as [|[|]]; simpl; [|done|done].
  unfold active. simpl. apply bloom_check_mono.
Qed.
Lemma rotate_age g g' m k : rotate g = Returns g' → age_in g m k → age_in g' m (S k).
Proof using.
  unfold rotate, rotate_swap. destruct (bloom_new _); [|done]. intros [= <-]. by destruct k as [|[|]].
Qed.

(** A remembered nonce is accepted again only after it left both filters. *)
Lemma run_reaccept g os es g' n k :
  run g os = Some (es, g') → age_in g n k → Submit n ∈ es →
  ∃ es1 es2, es = es1 ++ Submit n :: es2 ∧ (2 ≤ k + rotations es1)%nat.
Proof using L.
  revert g es k. induction os as [|[m|] os IH]; intros g es k Hrun Hage Hin; cbn [run] in Hrun.
  - simplify_eq. by apply elem_of_nil in Hin.
  - destruct (check_and_accept g m) as [r g1] eqn:Hca. apply bind_Some in Hrun as ([es1 g2] & Hrun & [= <- <-]).
    pose proof (submit_age g m n k Hage) as Hage1. rewrite Hca in Hage1. simpl in Hage1.
    destruct r as [[]|e]; simpl in *; [|by eapply IH].
    destruct (decide (m = n)) as [->|Hne].
    + exists [], es1. split; [done|]. rewrite check_and_accept_eq in Hca.
      destruct (overlap g n || active g n) eqn:Hf; [done|]. apply orb_false_iff in Hf as [Ho Ha].
      destruct k as [|[|k]]; simpl in *; [congruence..|lia].
    + destruct (IH _ _ _ Hrun Hage1) as (l1 & l2 & -> & Hk); [set_solver|].
      exists (Submit m :: l1), l2. split; [done|]. unfold rotations in *. by rewrite filter_cons_False.
  - destruct (rotate g) as [g1|] eqn:Hr; [|done]. apply bind_Some in Hrun as ([es1 g2] & Hrun & [= <- <-]).
    destruct (IH _ _ _ Hrun (rotate_age _ _ _ _ Hr Hage)) as (l1 & l2 & -> & Hk); [set_solver|].
    exists (Rotate :: l1), l2. split; [done|]. unfold rotations in *. rewrite filter_cons_True by done. simpl. lia.
Qed.

Lemma run_app_inv g es1 n es2 os g' :
  run g os = Some (es1 ++ Submit n :: es2, g') →
  ∃ os2 g2, run g2 os2 = Some (es2, g') ∧ active g2 n = true.
Proof using L.
  revert g es1. induction os as [|[m|] os IH]; intros g es1 Hrun; cbn [run] in Hrun.
  - destruct es1; simplify_eq.
  - destruct (check_and_accept g m) as [r g1] eqn:Hca. apply bind_Some in Hrun as ([es g2] & Hrun & Heq).
    destruct r as [[]|e]; simpl in Heq; [|injection Heq as -> ->; by eapply IH].
    destruct es1 as [|e1 es1]; simplify_eq/=; [|by eapply IH].
    exists os, g1. split; [done|]. rewrite check_and_accept_eq in Hca. destruct (_ || _); simplify_eq.
    unfold active. simpl. apply bloom_check_set.
  - destruct (rotate g) as [g1|]; [|done]. apply bind_Some in Hrun as ([es g2] & Hrun & Heq).
    destruct es1 as [|e1 es1]; simplify_eq/=. by eapply IH.
Qed.

Lemma run_replay_window g os es1 es2 n g' :
  run g os = Some (es1 ++ Submit n :: es2, g') → Submit n ∈ es2 →
  ∃ l1 l2, es2 = l1 ++ Submit n :: l2 ∧ (2 ≤ rotations l1)%nat.
Proof using L.
  intros (os2 & g2 & Hrun & Ha)%run_app_inv Hin. by destruct (run_reaccept g2 os2 es2 g' n 0 Hrun Ha Hin) as (?&?&?&?); eauto.
Qed.

#[export] Instance laws (retention : Z) : ReplayGuardLaws guard retention.
Proof using L.
  refine {| guard_inv _ := True; remembers g _ n _ := active g n || overlap g n = true |}; try done; simpl.
  - intros now g k n g' _ _. rewrite check_and_accept_eq. destruct (_ || _); [done|]. intros [= <-].
    unfold active. simpl. by rewrite bloom_check_set.
  - intros now g k n T _ _. rewrite orb_comm, check_and_accept_eq. by intros -> _.
  - intros now g k n T k' m _ _ _ Hm _. rewrite check_and_accept_eq. destruct (overlap g m || active g m); [done|].
    apply orb_true_iff in Hm as [Hm|Hm]; unfold active, overlap in *; simpl.
    + by rewrite bloom_check_mono.
    + by rewrite Hm, orb_true_r.
Defined.

End ops.
End LocalReplayGuard.

(** ** The Redis guard *)

(** The server: [SET key 1 NX PX ttl] inserts iff the key is not live and makes
    it live for [ttl] milliseconds; [EXISTS] asks whether it is live.  A call may
    fail, and a failed [SET] may or may not have been executed. *)
Class RedisPrim : Type := {
  Store : Type;
  redis_set_nx : Z → Store → string → Z → result string bool * Store;
  redis_exists : Z → Store → string → result string bool;
}.
Class RedisLaws (R : RedisPrim) : Type := {
  redis_live : Store → string → Z → Prop;
  redis_set_live now st k ttl st' : redis_set_nx now st k ttl = (Ok true, st') → redis_live st' k (now + ttl);
  redis_set_fresh now st k ttl T st' :
    redis_live st k T → now < T → redis_set_nx now st k ttl ≠ (Ok true, st');
  redis_live_stable now st k ttl k' T :
    redis_live st k T → now < T → redis_live (redis_set_nx now st k' ttl).2 k T;
  redis_exists_live now st k b T : redis_live st k T → now < T → redis_exists now st k = Ok b → b = true;
}.

Module RedisReplayGuard.
Section ops.
Context {R : RedisPrim}.

Record t : Type := mk { store : Store; ttl_millis : Z }.

(** [format!("replay:{key}:{nonce}")] *)
Definition redis_key (key : string) (nonce : Z) : string :=
  ("replay:" +:+ key +:+ ":" +:+ pretty.pretty (Z.to_N nonce))%string.
Definition ttl_ms (g : t) : Z := if decide (ttl_millis g ≤ u64_max) then ttl_millis g else u64_max.

Definition set_nx (now : Z) (g : t) (key : string) (nonce : Z) : result ReplayError bool * t :=
  let '(r, st) := redis_set_nx now (store g) (redis_key key nonce) (ttl_ms g) in
  (map_err StorageError r, mk st (ttl_millis g)).
Definition check_and_accept (now : Z) (g : t) (key : string) (nonce : Z) : result ReplayError () * t :=
  let '(r, g) := set_nx now g key nonce in
  (inserted ← r; if (inserted : bool) then Ok () else Err (Replay nonce), g).
Definition check (now : Z) (g : t) (key : string) (nonce : Z) : result ReplayError () :=
  ex ← map_err StorageError (redis_exists now (store g) (redis_key key nonce));
  if (ex : bool) then Err (Replay nonce) else Ok ().
Definition accept (now : Z) (g : t) (key : string) (nonce : Z) : result ReplayError () * t :=
  let '(r, g) := set_nx now g key nonce in ((λ _, ()) <$> r, g).

#[global] Instance guard : DistributedReplayGuard t := {
  check_and_accept := check_and_accept;
  check := check;
  accept := accept;
}.

Lemma check_and_accept_store now g k n :
  (check_and_accept now g k n).2 = mk (redis_set_nx now (store g) (redis_key k n) (ttl_ms g)).2 (ttl_millis g).
Proof. unfold check_and_accept, set_nx. by destruct (redis_set_nx _ _ _ _). Qed.
Lemma check_and_accept_Ok now g k n :
  (check_and_accept now g k n).1 = Ok () → ∃ st, redis_set_nx now (store g) (redis_key k n) (ttl_ms g) = (Ok true, st).
Proof. unfold check_and_accept, set_nx. destruct (redis_set_nx _ _ _ _) as [[[]|] st]; simpl; naive_solver. Qed.

Lemma nonce_no_colon n : colon ∉ as_bytes (pretty.pretty (Z.to_N n)).
Proof. rewrite <-(N2Nat.id (Z.to_N n)). apply dec_no_colon. Qed.

(** The last colon separates the key from the nonce, whatever the key holds. *)
Lemma redis_key_inj k1 n1 k2 n2 :
  is_u64 n1 → is_u64 n2 → redis_key k1 n1 = redis_key k2 n2 → k1 = k2 ∧ n1 = n2.
Proof.
  intros [Hn1 _] [Hn2 _] Heq. apply (f_equal as_bytes) in Heq. unfold redis_key in Heq. rewrite !as_bytes_app in Heq.
  apply (inj (app _)) in Heq. apply (f_equal reverse) in Heq. rewrite !reverse_app, <-!app_assoc in Heq.
  change (reverse (as_bytes ":")) with [colon] in Heq. simpl in Heq.
  apply app_sep_inj in Heq as [Hn Hk]; [|rewrite elem_of_reverse; apply nonce_no_colon..].
  apply (inj reverse) in Hn, Hk. split; [by apply as_bytes_inj|].
  apply as_bytes_inj, (inj pretty.pretty) in Hn. by apply Z2N.inj.
Qed.

Context {L : RedisLaws R}.

(** Every call keeps the [ttl]; accepted nonces live for that time. *)
#[export] Instance laws (ttl : Z) : 0 ≤ ttl ≤ u64_max → ReplayGuardLaws guard ttl.
Proof using L.
  intros Httl. refine {| guard_inv g := ttl_millis g = ttl; remembers g k n T := redis_live (store g) (redis_key k n) T |};
    simpl.
  - intros. by rewrite check_and_accept_store.
  - intros now g k n g' Hg _ Heq. assert ((check_and_accept now g k n).1 = Ok ()) as Hok by (by rewrite Heq).
    apply check_and_accept_Ok in Hok as [st Hst].
    replace g' with (check_and_accept now g k n).2 by (by rewrite Heq). rewrite check_and_accept_store. simpl.
    rewrite Hst. simpl. apply redis_set_live in Hst. unfold ttl_ms in Hst. rewrite Hg, decide_True in Hst by lia. done.
  - intros now g k n T _ _ Hl HT [st Hst]%check_and_accept_Ok. by eapply redis_set_fresh.
  - intros now g k n T k' n' _ _ _ Hl HT. rewrite check_and_accept_store. simpl. by apply redis_live_stable.
Defined.

End ops.
End RedisReplayGuard.

(** ** Clients of the trait *)

Section client.
Context {G : Type} {D : DistributedReplayGuard G} {retention : Z} {L : ReplayGuardLaws D retention}.

(** A sequence of submissions, each with its time, key and nonce, and those
    that were accepted. *)
Fixpoint submit_all (g : G) (xs : list (Z * string * Z)) : list (string * Z) * G :=
  match xs with
  | [] => ([], g)
  | (now, k, n) :: xs =>
      let '(r, g) := check_and_accept now g k n in
      let '(acc, g) := submit_all g xs in
      (if is_ok r then (k, n) :: acc else acc, g)
  end.

Definition submissions_in (t0 t1 : Z) (xs : list (Z * string * Z)) : Prop :=
  Forall (λ x, t0 ≤ x.1.1 < t1 ∧ is_u64 x.2) xs.

Lemma submit_all_remembered g xs k n T t0 t1 :
  guard_inv g → is_u64 n → submissions_in t0 t1 xs → t1 ≤ T → remembers g k n T → (k, n) ∉ (submit_all g xs).1.
Proof using L.
  intros Hg Hn Hxs HT Hr. revert g Hg Hr. induction Hxs as [|[[now k'] n'] xs [[Ht0 Ht1] Hn'] _ IH]; intros g Hg Hr.
  { apply not_elem_of_nil. }
  cbn [submit_all]. simpl in *. pose proof (accept_inv now g k' n' Hg) as Hg'.
  pose proof (remembers_stable now g k n T k' n' Hg Hn Hn' Hr ltac:(lia)) as Hr'.
  destruct (check_and_accept now g k' n') as [r g1] eqn:Hca. simpl in *. specialize (IH g1 Hg' Hr').
  destruct (submit_all g1 xs) as [acc g2]. simpl in *. destruct r as [[]|]; [|done].
  intros [Heq|]%elem_of_cons; [|done]. injection Heq as -> ->.
  eapply remembered_rejected; [exact Hg|exact Hn|exact Hr| |by rewrite Hca]. lia.
Qed.

Lemma submit_all_NoDup g xs t0 :
  guard_inv g → submissions_in t0 (t0 + retention) xs → NoDup (submit_all g xs).1.
Proof using L.
  intros Hg Hxs. revert g Hg. induction Hxs as [|[[now k] n] xs [Ht Hn] Hxs IH]; intros g Hg; [constructor|].
  cbn [submit_all]. simpl in *. pose proof (accept_inv now g k n Hg) as Hg'.
  destruct (check_and_accept now g k n) as [r g1] eqn:Hca. simpl in *. specialize (IH g1 Hg').
  assert (r = Ok () → (k, n) ∉ (submit_all g1 xs).1) as Hnot.
  { intros ->. eapply submit_all_remembered; [done|done|exact Hxs| |eapply accept_remembers; [exact Hg|done|exact Hca]]. lia. }
  destruct (submit_all g1 xs) as [acc g2]. simpl in *. destruct r as [[]|]; [|done].
  constructor; [by apply Hnot|done].
Qed.

End client.

(** ** The file-backed sliding window *)

(** [serde_json] on the struct [ReplayState]. *)
Class ReplayStateJson : Type := {
  state_to_vec : Z * list Z → result string bytes;
  state_from_slice : bytes → option (Z * list Z);
}.
Class ReplayStateJsonLaws (J : ReplayStateJson) : Prop := {
  state_round_trip s : ∃ b, state_to_vec s = Ok b ∧ state_from_slice b = Some s;
}.

Module FileReplayGuard.
Section ops.
Context {J : ReplayStateJson} (W : Z).

(** [file] is the content at [path], [None] when there is no readable file. *)
Record t : Type := mk { guard : ReplayGuard.t; file : option bytes }.

Definition new (file : option bytes) : t :=
  let loaded :=
    data ← file;
    '(highest, window) ← state_from_slice data;
    if decide (Z.of_nat (length window) = W) then Some (ReplayGuard.import_state highest window) else None in
  mk (default (ReplayGuard.new W) loaded) file.

Definition check (g : t) (nonce : Z) : result ReplayError () := ReplayGuard.check W (guard g) nonce.

(** The new content goes to a temporary file that is renamed over the old one:
    [io] is the first error of the three system calls, and only a completed
    rename changes the file. *)
Definition persist (io : result string ()) (g : t) : result string () * t :=
  match state_to_vec (ReplayGuard.export_state (guard g)) with
  | Err e => (Err e, g)
  | Ok data =>
      match io with
      | Ok _ => (Ok (), mk (guard g) (Some data))
      | Err e => (Err e, g)
      end
  end.
Definition accept (io : result string ()) (g : t) (nonce : Z) : result string () * t :=
  persist io (mk (ReplayGuard.accept W (guard g) nonce) (file g)).

Fixpoint accept_all (g : t) (xs : list (Z * result string ())) : t :=
  match xs with
  | [] => g
  | (n, io) :: xs => accept_all (accept io g n).2 xs
  end.

(** A restart of the process reads the file again. *)
Definition restart (g : t) : t := new (file g).

Lemma accept_all_app g xs ys : accept_all g (xs ++ ys) = accept_all (accept_all g xs) ys.
Proof. revert g. induction xs as [|[n io] xs IH]; intros g; [done|]. simpl. apply IH. Qed.

Lemma accept_guard io g n : guard (accept io g n).2 = ReplayGuard.accept W (guard g) n.
Proof. unfold accept, persist. simpl. destruct (state_to_vec _), io; done. Qed.

Lemma accept_err_file e g n : file (accept (Err e) g n).2 = file g.
Proof. unfold accept, persist. simpl. by destruct (state_to_vec _). Qed.

Lemma accept_all_err_file g xs : Forall (λ x, is_ok x.2 = false) xs → file (accept_all g xs) = file g.
Proof.
  intros Hxs. revert g. induction Hxs as [|[n [[]|e]] xs Hx _ IH]; intros g; try done.
  cbn [accept_all]. by rewrite IH, accept_err_file.
Qed.

Context {JL : ReplayStateJsonLaws J} (HW : 0 < W).

Lemma accept_ok_restart g n :
  ReplayGuard.wf W (guard g) → guard (restart (accept (Ok ()) g n).2) = guard (accept (Ok ()) g n).2.
Proof using JL HW.
  intros Hwf. pose proof (ReplayGuard.wf_accept W HW (guard g) n Hwf) as Hwf'.
  unfold restart, accept, persist. cbn [guard file]. revert Hwf'. generalize (ReplayGuard.accept W (guard g) n). intros g' Hwf'.
  destruct (state_round_trip (ReplayGuard.export_state g')) as (b & -> & Hb). simpl. rewrite Hb. simpl.
  destruct Hwf' as [Hlen _]. rewrite decide_True by lia. by destruct g'.
Qed.

Lemma accept_all_wf g xs : ReplayGuard.wf W (guard g) → ReplayGuard.wf W (guard (accept_all g xs)).
Proof using HW.
  revert g. induction xs as [|[n io] xs IH]; intros g Hg; [done|]. cbn [accept_all]. apply IH.
  rewrite accept_guard. by apply ReplayGuard.wf_accept.
Qed.

End ops.
End FileReplayGuard.

(** ** Instances for the examples *)

Module ToyGuards.

#[global] Instance bloom : BloomPrim := {
  Bloom := list bytes;
  bloom_new n := if decide (n = 0%nat) then None else Some [];
  bloom_check b x := bool_decide (x ∈ b);
  bloom_set b x := x :: b;
}.
#[global] Instance bloom_laws : BloomLaws bloom.
Proof.
  split; simpl.
  - done.
  - intros n Hn. rewrite decide_False by done. by exists [].
  - intros. apply bool_decide_eq_true_2. set_solver.
  - intros b x y. rewrite !bool_decide_eq_true. set_solver.
Qed.

(** Keys with their expiry. *)
#[global] Instance redis : RedisPrim := {
  Store := gmap string Z;
  redis_set_nx now st k ttl :=
    match st !! k with
    | Some T => if decide (now < T) then (Ok false, st) else (Ok true, <[k := now + ttl]> st)
    | None => (Ok true, <[k := now + ttl]> st)
    end;
  redis_exists now st k :=
    Ok match st !! k with Some T => bool_decide (now < T) | None => false end;
}.
#[global] Instance redis_laws : RedisLaws redis.
Proof.
  refine {| redis_live st k T := st !! k = Some T |}; simpl.
  - intros now st k ttl st'. destruct (st !! k) as [T|]; [destruct (decide _)|]; intros [= <-]; apply lookup_insert_eq.
  - intros now st k ttl T st' -> HT. by rewrite decide_True.
  - intros now st k ttl k' T Hk HT. destruct (decide (k' = k)) as [->|Hne].
    + by rewrite Hk, decide_True.
    + destruct (st !! k') as [T'|]; [destruct (decide _)|]; simpl; try done; by rewrite lookup_insert_ne.
  - intros now st k b T -> HT [= <-]. by apply bool_decide_eq_true_2.
Defined.

#[global] Instance json : ReplayStateJson := {
  state_to_vec s := Ok (ToyCodec.put s);
  state_from_slice b := ToyCodec.get b;
}.
#[global] Instance json_laws : ReplayStateJsonLaws json.
Proof. split. intros s. eexists. split; [done|]. apply ToyCodec.get_put. Qed.

End ToyGuards.

(** ** Theorems *)

(** Any guard that keeps the promises of the trait, given a sequence of
    submissions within one retention period, from any number of clients and in
    any order, accepts each pair of key and nonce at most once. *)
Theorem guard_accepts_once {G} {D : DistributedReplayGuard G} {retention} {L : ReplayGuardLaws D retention}
    (g : G) (xs : list (Z * string * Z)) (t0 : Z) :
  guard_inv g → submissions_in t0 (t0 + retention) xs → NoDup (submit_all g xs).1.
Proof. apply submit_all_NoDup. Qed.

Lemma ttl_100 : 0 ≤ 100 ≤ u64_max.
Proof. by_compute. Defined.

(** The Redis guard with a time to live of 100 ms. *)
Lemma guard_accepts_once_witness :
  let g := RedisReplayGuard.mk (R := ToyGuards.redis) ∅ 100 in
  let xs := [(5, "a"%string, 1); (6, "a"%string, 1); (7, "b"%string, 1); (60, "a"%string, 2)] in
  NoDup (submit_all (D := RedisReplayGuard.guard) g xs).1 ∧
  (submit_all (D := RedisReplayGuard.guard) g xs).1 = [("a"%string, 1); ("b"%string, 1); ("a"%string, 2)].
Proof.
  split; [|by vm_compute].
  apply (guard_accepts_once (L := RedisReplayGuard.laws (L := ToyGuards.redis_laws) 100 ttl_100)) with (t0 := 5).
  - done.
  - unfold submissions_in. repeat apply Forall_cons_2; [..|apply Forall_nil_2]; by_compute.
Defined.

(** The in-memory guard with its two filters: between two acceptances of the
    same nonce there are at least two rotations.  Whatever the filter's false
    positives, a nonce is not accepted again before that. *)
Theorem local_guard_two_rotations {B : BloomPrim} {L : BloomLaws B} (g g' : LocalReplayGuard.t)
    (os es1 es2 : list LocalReplayGuard.op) (n : Z) :
  LocalReplayGuard.run g os = Some (es1 ++ LocalReplayGuard.Submit n :: es2, g') →
  LocalReplayGuard.Submit n ∈ es2 →
  ∃ l1 l2, es2 = l1 ++ LocalReplayGuard.Submit n :: l2 ∧ (2 ≤ LocalReplayGuard.rotations l1)%nat.
Proof. apply LocalReplayGuard.run_replay_window. Qed.

Definition demo_submissions : list LocalReplayGuard.op :=
  let s := LocalReplayGuard.Submit in let r := LocalReplayGuard.Rotate in
  [s 7; s 7; r; s 7; s 8; r; s 7].

Lemma local_guard_two_rotations_witness :
  ∃ l1 l2, [LocalReplayGuard.Rotate; LocalReplayGuard.Submit 8; LocalReplayGuard.Rotate; LocalReplayGuard.Submit 7] = l1 ++ LocalReplayGuard.Submit 7 :: l2 ∧
    (2 ≤ LocalReplayGuard.rotations l1)%nat.
Proof.
  apply (local_guard_two_rotations (B := ToyGuards.bloom) (LocalReplayGuard.mk (B := ToyGuards.bloom) [] None 10 0)
    (LocalReplayGuard.mk (B := ToyGuards.bloom) [u64_be 7] (Some [u64_be 8]) 10 1)
    demo_submissions []).
  - by vm_compute.
  - by_compute.
Defined.

(** The check and the insertion are under one lock each, but the two filters
    have separate locks: if a rotation falls between the look-up in the overlap
    filter and the check of the active filter, a nonce that was accepted just
    before the rotation is accepted a second time. *)
Theorem rotation_race_accepts_replay {B : BloomPrim} {L : BloomLaws B} (cap : nat) (n : Z) :
  cap ≠ 0%nat →
  ∃ g0 g1 g2 g3 : LocalReplayGuard.t,
    LocalReplayGuard.new cap = Returns g0 ∧
    LocalReplayGuard.check_and_accept g0 n = (Ok (), g1) ∧
    (* second submission: overlap filter; rotation; active filter *)
    LocalReplayGuard.check_prev g1 n = Ok () ∧
    LocalReplayGuard.rotate g1 = Returns g2 ∧
    LocalReplayGuard.check_set g2 n = (Ok (), g3).
Proof.
  intros Hcap. destruct (bloom_new_Some cap Hcap) as (b & Hb & Hempty).
  unfold LocalReplayGuard.new, LocalReplayGuard.rotate, LocalReplayGuard.rotate_swap. rewrite Hb.
  exists (LocalReplayGuard.mk b None cap 0), (LocalReplayGuard.mk (bloom_set b (u64_be n)) None cap 1),
    (LocalReplayGuard.mk b (Some (bloom_set b (u64_be n))) cap 0),
    (LocalReplayGuard.mk (bloom_set b (u64_be n)) (Some (bloom_set b (u64_be n))) cap 1).
  unfold LocalReplayGuard.check_and_accept, LocalReplayGuard.check_prev, LocalReplayGuard.check_set. simpl.
  by rewrite !Hempty, Hb.
Qed.

Lemma rotation_race_accepts_replay_witness :
  ∃ g1 g2 g3 : LocalReplayGuard.t (B := ToyGuards.bloom),
    LocalReplayGuard.check_and_accept (LocalReplayGuard.mk (B := ToyGuards.bloom) [] None 100 0) 7 = (Ok (), g1) ∧
    LocalReplayGuard.rotate g1 = Returns g2 ∧ LocalReplayGuard.check_set g2 7 = (Ok (), g3).
Proof.
  destruct (rotation_race_accepts_replay (B := ToyGuards.bloom) 100 7) as (g0 & g1 & g2 & g3 & H0 & H1 & _ & H2 & H3).
  - done.
  - injection H0 as <-. by exists g1, g2, g3.
Defined.

(** The file-backed window after a restart is the window at the last accept
    whose write succeeded: nothing is lost when the last write succeeded, and the
    accepts after it, whose errors were reported, are forgotten. *)
Theorem file_guard_restart {J : ReplayStateJson} {JL : ReplayStateJsonLaws J} (W : Z)
    (xs ys : list (Z * result string ())) (n : Z) :
  0 < W → Forall (λ y, is_ok y.2 = false) ys →
  let g := FileReplayGuard.accept_all W (FileReplayGuard.new W None) (xs ++ [(n, Ok ())]) in
  FileReplayGuard.guard (FileReplayGuard.restart W (FileReplayGuard.accept_all W g ys)) = FileReplayGuard.guard g.
Proof.
  intros HW Hys g. unfold FileReplayGuard.restart at 1. rewrite FileReplayGuard.accept_all_err_file by done.
  unfold g. rewrite FileReplayGuard.accept_all_app. apply (FileReplayGuard.accept_ok_restart W HW).
  apply (FileReplayGuard.accept_all_wf W HW). by apply ReplayGuard.wf_new.
Qed.

Lemma file_guard_restart_witness :
  let g := FileReplayGuard.accept_all (J := ToyGuards.json) 4 (FileReplayGuard.new 4 None) [(3, Ok ()); (9, Ok ())] in
  let g' := FileReplayGuard.accept_all 4 g [(20, Err "disk full"%string)] in
  FileReplayGuard.guard (FileReplayGuard.restart 4 g') = FileReplayGuard.guard g ∧
  FileReplayGuard.check 4 g' 20 = Err (Replay 20) ∧
  FileReplayGuard.check 4 (FileReplayGuard.restart 4 g') 20 = Ok ().
Proof.
  split; [|by vm_compute].
  apply (file_guard_restart 4 [(3, Ok ())] [(20, Err "disk full"%string)] 9); [done|]. by repeat constructor.
Defined.
