(* ===== verification/Middleware.v ===== *)
(** * Server middleware

    [crates/openhttpa-server/src/middleware.rs]: the layer that attaches the
    session named by a trusted request, and the layer that resumes a session from
    a 0-RTT ticket.  A layer either answers itself or forwards the request to
    the inner service, so its result is a [decision]; the shared registry and
    replay guard are threaded through. *)

From S2P Require Import Prelude ReplayWindow Crypto Aead Proto KeySchedule Attestation Session Ticket Http Ahl Trailers Registry ServerGuards.
From stdpp Require Import options.

#[local] Open Scope Z_scope.

(** The parts of a request that the server reads. *)
Record Request : Type := mk_request {
  method : string;
  path : string;
  query : option string;
  (** the authority of the request's URI (HTTP/2), absent in HTTP/1.1 *)
  uri_authority : option string;
  (** path and query of [OriginalUri], set when the route is nested *)
  original_uri : option (string * option string);
  headers : HeaderMap;
  body : bytes;
}.

(** [Method::is_safe] of the [http] crate. *)
Definition is_safe (m : string) : bool := bool_decide (m ∈ ["GET"; "HEAD"; "OPTIONS"; "TRACE"]%string).

Definition UNAUTHORIZED : Z := 401.
Definition FORBIDDEN : Z := 403.
Definition TOO_EARLY : Z := 425.

(** Answer with a status, or call the inner service with the session that was
    put into the request's extensions. *)
Inductive decision : Type :=
| Answer (status : Z)
| Forward (session : option SessionInner).

(** ** Trusted requests *)

Module TrRequestMiddleware.
Section ops.
Context {UP : UuidPrim}.

(** The identifier in the header, if there is one that parses. *)
Definition base_id (req : Request) : option AtbId :=
  v ← hm_get (headers req) STR_ATTEST_BASE_ID; s ← to_str v; uuid_parse s.

Definition lookup_session (now : Z) (r : AtbRegistry.t) (req : Request) : option SessionInner * AtbRegistry.t :=
  match base_id req with
  | Some i => AtbRegistry.get now r i
  | None => (None, r)
  end.

Definition call (policy : option (Request → SessionInner → bool)) (now : Z) (r : AtbRegistry.t) (req : Request)
    : decision * AtbRegistry.t :=
  let '(session, r) := lookup_session now r req in
  match session with
  | Some sess =>
      let admitted := match policy with Some p => p req sess | None => true end in
      (if (admitted : bool) then Forward (Some sess) else Answer FORBIDDEN, r)
  | None => (Answer UNAUTHORIZED, r)
  end.

Lemma call_forward policy now r req os r' :
  call policy now r req = (Forward os, r') ↔
  ∃ i s, base_id req = Some i ∧ AtbRegistry.sessions r !! i = Some s ∧ AttestSession.is_alive now s = true ∧
    match policy with Some p => p req s = true | None => True end ∧ os = Some s ∧ r' = r.
Proof.
  unfold call, lookup_session. split.
  - destruct (base_id req) as [i|]; [|done]. unfold AtbRegistry.get.
    destruct (AtbRegistry.sessions r !! i) as [s|] eqn:Hs; [|done].
    destruct (AttestSession.is_alive now s) eqn:Ha; [|done].
    destruct policy as [p|]; [destruct (p req s) eqn:Hp; [|done]|]; intros [= <- <-]; by exists i, s.
  - intros (i & s & -> & Hs & Ha & Hp & -> & ->). unfold AtbRegistry.get. rewrite Hs, Ha.
    destruct policy as [p|]; [by rewrite Hp|done].
Qed.

End ops.
End TrRequestMiddleware.

(** ** 0-RTT resumption *)

(** [hex::decode] *)
Class HexPrim : Type := { hex_decode : string → option bytes; hex_encode : bytes → string }.
Class HexLaws (P : HexPrim) : Prop := {
  hex_decode_encode b : hex_decode (hex_encode b) = Some b;
  hex_visible b : forallb visible (as_bytes (hex_encode b)) = true;
}.

Definition STR_ATTEST_TICKET_RESUMPTION : string := "attest-ticket-resumption".

Module Rtt0ResumptionMiddleware.
Section ops.
Context {AP : AeadPrim} {SC : StateCodec} {HaP : HashPrim} {HP : HkdfPrim} {UP : UuidPrim} {XP : HexPrim} {BP : Base64Prim}.
Context {G : Type} {D : DistributedReplayGuard G}.

Definition set_keys (d : DurableSessionState) (k : SessionKeys) : DurableSessionState :=
  {| d_id := d_id d; d_cipher_suite := d_cipher_suite d; d_version := d_version d; d_phase := d_phase d;
     d_keys := k; d_resumption_secret := d_resumption_secret d; d_expires_at := d_expires_at d;
     d_client_counter := d_client_counter d; d_server_counter := d_server_counter d;
     d_replay_highest := d_replay_highest d; d_replay_window := d_replay_window d;
     d_attestation_result := d_attestation_result d |}.

(** The chain of [if let]s: header as text, hex, unsealed state. *)
Definition unseal_header (now_sys : Z) (engine : TicketEngine.t) (hdr_val : bytes) : option DurableSessionState :=
  ticket_b64 ← to_str hdr_val;
  ticket_raw ← hex_decode ticket_b64;
  result_ok (TicketEngine.unseal_session now_sys engine ticket_raw).

(** With a salt in the request's ticket trailer the keys are derived afresh; an
    error of the derivation keeps the old keys. *)
Definition fresh_keys (d : DurableSessionState) (hs : HeaderMap) : DurableSessionState :=
  match (t ← result_ok (decode_attest_ticket hs); dt_salt t) with
  | Some salt =>
      match derive_0rtt (d_resumption_secret d) salt with
      | Ok k => set_keys d k
      | Err _ => d
      end
  | None => d
  end.

(** What happened to the ticket of a request. *)
Inductive event : Type :=
| NoTicket
| Blocked (key : string) (nonce : Z)
| Resumed (key : string) (nonce : Z) (stored : bool).

(** The ticket's handling, after the method check. *)
Definition resume (now now_sys : Z) (engine : TicketEngine.t) (r : AtbRegistry.t) (g : G) (req : Request)
    : event * (AtbRegistry.t * G) :=
  match v ← hm_get (headers req) STR_ATTEST_TICKET_RESUMPTION; unseal_header now_sys engine v with
  | None => (NoTicket, (r, g))
  | Some durable_state =>
      let nonce := d_client_counter durable_state in
      let atb_id_str := uuid_to_string (d_id durable_state) in
      let '(res, g) := check_and_accept now g atb_id_str nonce in
      match res with
      | Err _ => (Blocked atb_id_str nonce, (r, g))
      | Ok _ =>
          let durable_state := fresh_keys durable_state (headers req) in
          let session := AttestSession.from_durable now now_sys durable_state in
          let '(ins, r) := AtbRegistry.insert r session in
          (Resumed atb_id_str nonce (is_ok ins), (r, g))
      end
  end.

Definition call (now now_sys : Z) (engine : TicketEngine.t) (r : AtbRegistry.t) (g : G) (req : Request)
    : decision * event * (AtbRegistry.t * G) :=
  match hm_get (headers req) STR_ATTEST_TICKET_RESUMPTION with
  | Some _ =>
      if negb (is_safe (method req)) then (Answer TOO_EARLY, NoTicket, (r, g))
      else let '(e, st) := resume now now_sys engine r g req in (Forward None, e, st)
  | None => (Forward None, NoTicket, (r, g))
  end.

(** A history of requests, each with the two clocks at its arrival. *)
Fixpoint run (engine : TicketEngine.t) (r : AtbRegistry.t) (g : G) (reqs : list (Z * Z * Request))
    : list event * (AtbRegistry.t * G) :=
  match reqs with
  | [] => ([], (r, g))
  | (now, now_sys, req) :: reqs =>
      let '(_, e, (r, g)) := call now now_sys engine r g req in
      let '(es, st) := run engine r g reqs in
      (e :: es, st)
  end.

(** The accepted tickets: their session and counter. *)
Definition resumptions (es : list event) : list (string * Z) :=
  omap (λ e, match e with Resumed k n _ => Some (k, n) | _ => None end) es.

(** The submissions that a request makes to the guard. *)
Definition submission (engine : TicketEngine.t) (x : Z * Z * Request) : option (Z * string * Z) :=
  let '(now, now_sys, req) := x in
  if is_safe (method req) then
    v ← hm_get (headers req) STR_ATTEST_TICKET_RESUMPTION;
    d ← unseal_header now_sys engine v;
    Some (now, uuid_to_string (d_id d), d_client_counter d)
  else None.

(** A history of requests is, for the guard, the sequence of its submissions. *)
Lemma run_submit_all engine r g reqs :
  resumptions (run engine r g reqs).1 = (submit_all g (omap (submission engine) reqs)).1.
Proof.
  revert r g. induction reqs as [|[[now now_sys] req] reqs IH]; intros r g; [done|]. cbn [run omap list_omap submission].
  unfold call, resume. destruct (hm_get _ _) as [v|] eqn:Hv; simpl.
  - destruct (is_safe (method req)); simpl.
    + rewrite ?Hv. simpl. destruct (unseal_header now_sys engine v) as [d|]; simpl.
      * destruct (check_and_accept now g _ _) as [[[]|e] g1]; simpl.
        -- destruct (AtbRegistry.insert r _) as [ins r1]. specialize (IH r1 g1).
           destruct (run engine r1 g1 reqs), (submit_all g1 _). simpl in *. by rewrite IH.
        -- specialize (IH r g1). destruct (run engine r g1 reqs), (submit_all g1 _). simpl in *. by rewrite IH.
      * specialize (IH r g). destruct (run engine r g reqs). done.
    + specialize (IH r g). destruct (run engine r g reqs). done.
  - specialize (IH r g). destruct (run engine r g reqs). simpl in *. by destruct (is_safe (method req)).
Qed.

End ops.
End Rtt0ResumptionMiddleware.

(** ** Instances for the examples *)

Module ToyWeb.

#[global] Instance uuid : UuidPrim := {
  uuid_to_string i := string_of_list_ascii (ToyBase64.encode i);
  uuid_parse s := i ← ToyBase64.decode (as_bytes s); if decide (length i = 16%nat) then Some i else None;
}.
#[global] Instance uuid_laws : UuidLaws uuid.
Proof.
  split; simpl.
  - intros i Hi. pose proof (b64_decode_encode (Base64Laws := ToyBase64.laws) i) as Hd. simpl in Hd. rewrite Hd. simpl.
    by rewrite decide_True.
  - intros s i. destruct (ToyBase64.decode (as_bytes s)) as [j|]; [|done]. simpl. case_decide; [by intros [= <-]|done].
  - intros i b. unfold as_bytes. rewrite list_ascii_of_string_of_list_ascii.
    induction i as [|x i IH]; cbn [ToyBase64.encode]; [by intros ?%elem_of_nil|].
    assert (∀ z, 0 ≤ z < 16 → 33 ≤ u8_val (ToyBase64.hex_digit (u8_of z)) < 127) as Hv.
    { intros z Hz. unfold ToyBase64.hex_digit. rewrite !u8_val_of, !(Z.mod_small _ 256) by (rewrite ?(Z.mod_small _ 256); lia). lia. }
    pose proof (u8_val_range x). pose proof (Z.mod_pos_bound (u8_val x) 16).
    intros [->|[->|?]%elem_of_cons]%elem_of_cons; [apply Hv|apply Hv; lia|auto].
    split; [apply Z.div_pos|apply Z.div_lt_upper_bound]; lia.
Qed.

#[global] Instance hex : HexPrim := {
  hex_encode b := string_of_list_ascii (ToyBase64.encode b);
  hex_decode s := ToyBase64.decode (as_bytes s);
}.
#[global] Instance hex_laws : HexLaws hex.
Proof. split; [apply (b64_decode_encode (Base64Laws := ToyBase64.laws))|apply (b64_visible (Base64Laws := ToyBase64.laws))]. Qed.

(** A second session, and a codec for the two. *)
Definition other_state : DurableSessionState :=
  AttestSession.export_durable 0 0 (AttestSession.new (replicate 16 (u8_of 1)) X25519MlKem768Aes256GcmSha384 V2
    (mk_keys [] [] [] [] [] [] [] [] []) 100 default_strategy None).
#[global] Instance codec : StateCodec := {
  encode_state st :=
    if decide (st = demo_state) then Some (as_bytes "state")
    else if decide (st = other_state) then Some (as_bytes "other") else None;
  decode_state b :=
    if decide (b = as_bytes "state") then Some demo_state
    else if decide (b = as_bytes "other") then Some other_state else None;
}.

(** Their tickets, in the header of a request. *)
Definition engine : TicketEngine.t := demo_engine.
Definition sealed (st : DurableSessionState) : bytes :=
  match (TicketEngine.seal_session (AP := Toy.aead) engine st 10).1 with
  | Ok tk => ticket tk
  | Err _ => []
  end.
Definition request_of (st : DurableSessionState) (m : string) : Request :=
  mk_request m "/" None None None [(STR_ATTEST_TICKET_RESUMPTION, [as_bytes (hex_encode (sealed st))])] [].
Definition request : string → Request := request_of demo_state.

End ToyWeb.

(** ** Theorems *)

(** The gate in front of trusted handlers: a request reaches the inner
    service exactly when its header names a session of the registry that is
    alive and that the policy admits, and then with that session attached.  All
    other requests are answered with 401 or, when the policy refused, 403. *)
Theorem tr_request_gate {UP : UuidPrim} (policy : option (Request → SessionInner → bool)) (now : Z)
    (r : AtbRegistry.t) (req : Request) :
  let live i s := AtbRegistry.sessions r !! i = Some s ∧ AttestSession.is_alive now s = true in
  let admits s := match policy with Some p => p req s | None => true end in
  match (TrRequestMiddleware.call policy now r req).1 with
  | Forward (Some s) => ∃ i, TrRequestMiddleware.base_id req = Some i ∧ live i s ∧ admits s = true
  | Forward None => False
  | Answer st =>
      (st = FORBIDDEN ∧ ∃ i s, TrRequestMiddleware.base_id req = Some i ∧ live i s ∧ admits s = false) ∨
      (st = UNAUTHORIZED ∧ ∀ i s, TrRequestMiddleware.base_id req = Some i → ¬ live i s)
  end.
Proof.
  intros live admits. unfold TrRequestMiddleware.call, TrRequestMiddleware.lookup_session.
  destruct (TrRequestMiddleware.base_id req) as [i|] eqn:Hi; [|right; naive_solver]. unfold AtbRegistry.get.
  destruct (AtbRegistry.sessions r !! i) as [s|] eqn:Hs; [|right; split; [done|]; intros ?? [= <-] [??]; congruence].
  destruct (AttestSession.is_alive now s) eqn:Ha; [|right; split; [done|]; intros ?? [= <-] [??]; congruence].
  change (match policy with Some p => p req s | None => true end) with (admits s).
  destruct (admits s) eqn:Hp; [by exists i|]. left. split; [done|]. by exists i, s.
Qed.

(** [C15] A 0-RTT ticket resumes a session at most once: over any history of
    requests within the retention time of the replay guard, no pair of session
    and counter is accepted twice. *)
Theorem resumption_once {AP : AeadPrim} {SC : StateCodec} {HaP : HashPrim} {HP : HkdfPrim} {UP : UuidPrim} {XP : HexPrim}
    {BP : Base64Prim} {G} {D : DistributedReplayGuard G} {retention} {L : ReplayGuardLaws D retention}
    (engine : TicketEngine.t) (r : AtbRegistry.t) (g : G) (reqs : list (Z * Z * Request)) (t0 : Z) :
  guard_inv g → submissions_in t0 (t0 + retention) (omap (Rtt0ResumptionMiddleware.submission engine) reqs) →
  NoDup (Rtt0ResumptionMiddleware.resumptions (Rtt0ResumptionMiddleware.run engine r g reqs).1).
Proof. intros Hg Hs. rewrite Rtt0ResumptionMiddleware.run_submit_all. by eapply submit_all_NoDup. Qed.

Lemma resumption_once_witness :
  let reqs := [(5, 5, ToyWeb.request "GET"); (6, 6, ToyWeb.request "POST"); (7, 7, ToyWeb.request "GET")] in
  let g := RedisReplayGuard.mk (R := ToyGuards.redis) ∅ 100 in
  let es := (Rtt0ResumptionMiddleware.run (AP := Toy.aead) (SC := ToyWeb.codec) (HaP := Toy.hash) (HP := Toy.hkdf)
    (BP := ToyBase64.prim) (D := RedisReplayGuard.guard) ToyWeb.engine AtbRegistry.new g reqs).1 in
  NoDup (Rtt0ResumptionMiddleware.resumptions es) ∧ length (Rtt0ResumptionMiddleware.resumptions es) = 1%nat.
Proof.
  split; [|by vm_compute].
  apply (resumption_once (AP := Toy.aead) (L := RedisReplayGuard.laws (L := ToyGuards.redis_laws) 100 ttl_100)) with (t0 := 5).
  - done.
  - unfold submissions_in. match goal with |- Forall _ ?l => let l' := eval vm_compute in l in change l with l' end.
    repeat apply Forall_cons_2; [..|apply Forall_nil_2]; by_compute.
Defined.

(** With the in-memory guard, which ignores the key, a resumption of one
    session blocks the tickets of all other sessions whose counter is the same. *)
Theorem local_guard_blocks_other_sessions {AP : AeadPrim} {SC : StateCodec} {HaP : HashPrim} {HP : HkdfPrim} {UP : UuidPrim}
    {XP : HexPrim} {BP : Base64Prim} {B : BloomPrim} {L : BloomLaws B}
    (engine : TicketEngine.t) (r r' : AtbRegistry.t) (g g' : LocalReplayGuard.t) (req1 req2 : Request) (d2 : DurableSessionState)
    (v2 : bytes) (t1 s1 t2 s2 n : Z) (k1 : string) (b : bool) :
  Rtt0ResumptionMiddleware.call t1 s1 engine r g req1 =
    (Forward None, Rtt0ResumptionMiddleware.Resumed k1 n b, (r', g')) →
  is_safe (method req2) = true →
  hm_get (headers req2) STR_ATTEST_TICKET_RESUMPTION = Some v2 →
  Rtt0ResumptionMiddleware.unseal_header s2 engine v2 = Some d2 → d_client_counter d2 = n →
  Rtt0ResumptionMiddleware.call t2 s2 engine r' g' req2 =
    (Forward None, Rtt0ResumptionMiddleware.Blocked (uuid_to_string (d_id d2)) n, (r', g')).
Proof.
  intros H1 Hsafe Hv Hd <-.
  assert (LocalReplayGuard.active g' (d_client_counter d2) = true) as Ha.
  { unfold Rtt0ResumptionMiddleware.call, Rtt0ResumptionMiddleware.resume in H1.
    destruct (hm_get _ _) as [v1|]; [|done]. destruct (negb _); [done|]. simpl in H1.
    destruct (Rtt0ResumptionMiddleware.unseal_header s1 engine v1) as [d1|]; [|done].
    rewrite LocalReplayGuard.check_and_accept_eq in H1. destruct (_ || _); [done|].
    destruct (AtbRegistry.insert _ _). injection H1 as _ <- _ _ <-. unfold LocalReplayGuard.active. simpl.
    apply bloom_check_set. }
  unfold Rtt0ResumptionMiddleware.call, Rtt0ResumptionMiddleware.resume. rewrite Hv, Hsafe. simpl. rewrite Hd.
  by rewrite LocalReplayGuard.check_and_accept_eq, Ha, orb_true_r.
Qed.

Lemma local_guard_blocks_other_sessions_witness :
  let g := LocalReplayGuard.mk (B := ToyGuards.bloom) [] None 10 0 in
  let call t r g req := Rtt0ResumptionMiddleware.call (AP := Toy.aead) (HaP := Toy.hash) (HP := Toy.hkdf)
      (BP := ToyBase64.prim) (D := LocalReplayGuard.guard) t t ToyWeb.engine r g req in
  let st := (call 5 AtbRegistry.new g (ToyWeb.request "GET")).2 in
  (call 6 st.1 st.2 (ToyWeb.request_of ToyWeb.other_state "GET")).1.2 =
    Rtt0ResumptionMiddleware.Blocked (uuid_to_string (replicate 16 (u8_of 1))) 1.
Proof.
  intros g call st. unfold call.
  rewrite (local_guard_blocks_other_sessions (AP := Toy.aead) (HaP := Toy.hash) (HP := Toy.hkdf) (BP := ToyBase64.prim)
    (L := ToyGuards.bloom_laws)
    ToyWeb.engine AtbRegistry.new st.1 g st.2 (ToyWeb.request "GET") (ToyWeb.request_of ToyWeb.other_state "GET")
    ToyWeb.other_state (as_bytes (hex_encode (ToyWeb.sealed ToyWeb.other_state))) 5 5 6 6 1 (uuid_to_string (replicate 16 NUL)) true).
  all: vm_compute; reflexivity.
Defined.

(** Resuming a session that is still in the registry replaces it by the
    snapshot in the ticket: a request that the session processed after the
    ticket was issued is processed again, with the same keys and counter. *)
Theorem resumption_replays {AP : AeadPrim} {SC : StateCodec} {HaP : HashPrim} {HP : HkdfPrim} {UP : UuidPrim} {XP : HexPrim}
    {BP : Base64Prim} {G} {D : DistributedReplayGuard G} {E T : Type}
    i cs ver k exp strategy ar (engine : TicketEngine.t) (r : AtbRegistry.t) (g g' : G) (req : Request) (v : bytes)
    (t0 sys0 t1 t2 sys2 n : Z) (f : SessionKeys → Z → result E T) (x : T) (s1 : SessionInner) :
  let s0 := AttestSession.new i cs ver k exp strategy ar in
  let d := AttestSession.export_durable t0 sys0 s0 in
  0 < n ≤ u64_max → AttestSession.with_keys_for_trr t1 s0 n f = (Ok (Ok x), s1) →
  AtbRegistry.sessions r !! i = Some s1 → AtbRegistry.live_count r < Z.of_nat (AtbRegistry.max_sessions r) →
  is_safe (method req) = true → hm_get (headers req) STR_ATTEST_TICKET_RESUMPTION = Some v →
  Rtt0ResumptionMiddleware.unseal_header sys2 engine v = Some d → is_ok (decode_attest_ticket (headers req)) = false →
  check_and_accept t2 g (uuid_to_string i) 1 = (Ok (), g') → sys2 < d_expires_at d →
  ∃ r' s2 s3, Rtt0ResumptionMiddleware.call t2 sys2 engine r g req =
      (Forward None, Rtt0ResumptionMiddleware.Resumed (uuid_to_string i) 1 true, (r', g')) ∧
    AtbRegistry.sessions r' !! i = Some s2 ∧
    (AttestSession.with_keys_for_trr t2 s1 n f).1 ≠ Ok (Ok x) ∧
    AttestSession.with_keys_for_trr t2 s2 n f = (Ok (Ok x), s3).
Proof.
  intros s0 d Hn H1 Hr Hcap Hsafe Hv Hd Hsalt Hg Hsys.
  unfold Rtt0ResumptionMiddleware.call, Rtt0ResumptionMiddleware.resume. rewrite Hv, Hsafe. cbn [negb mbind option_bind].
  rewrite Hd. change (d_client_counter d) with 1. change (d_id d) with i. rewrite Hg.
  unfold Rtt0ResumptionMiddleware.fresh_keys. destruct (decode_attest_ticket _) as [?|?]; [done|].
  cbn [result_ok mbind option_bind]. set (s2 := AttestSession.from_durable t2 sys2 d).
  unfold AtbRegistry.insert, AtbRegistry.claim_upd. rewrite decide_True by done.
  eexists _, s2, _. split; [reflexivity|]. split; [apply lookup_insert_eq|].
  pose proof (AttestSession.trr_remembers (E := E) (T := T) t1 s0 n f [] ltac:(unfold is_u64; lia) (AttestSession.remembers_new _ _ _ _ _ _ _)) as Hrem.
  rewrite H1 in Hrem. destruct Hrem as [_ Hrem].
  apply AttestSession.with_keys_for_trr_Ok in H1 as [_ Hf]. simpl in Hf.
  split.
  - pose proof (AttestSession.trr_remembers (E := E) (T := T) t2 s1 n f [n] ltac:(unfold is_u64; lia) Hrem) as Hrem2.
    destruct (AttestSession.with_keys_for_trr t2 s1 n f) as [[[x'|]|] s1'] eqn:Heq; simpl in *; try done. set_solver.
  - assert (expires_at s2 = t2 + (d_expires_at d - sys2)) as Hexp.
    { unfold s2, AttestSession.from_durable. cbn [expires_at]. by rewrite decide_True. }
    unfold AttestSession.with_keys_for_trr. rewrite decide_False by (rewrite Hexp; lia).
    unfold AttestSession.replay_check. assert (ReplayGuard.check SESSION_W (replay_guard s2) n = Ok ()) as Hc.
    { unfold ReplayGuard.check. rewrite decide_False by lia. rewrite decide_True; [done|].
      change (ReplayGuard.highest (replay_guard s2)) with 0. lia. }
    change (replay_strategy s2) with (SlidingWindow 64). rewrite Hc.
    change (f (keys s2) (client_counter s2)) with (f k 1). rewrite Hf. reflexivity.
Qed.

Lemma resumption_replays_witness :
  let f := λ (_ : SessionKeys) (_ : Z), @Ok () () () in
  let s0 := AttestSession.new (replicate 16 NUL) X25519MlKem768Aes256GcmSha384 V2 (mk_keys [] [] [] [] [] [] [] [] []) 100 StrictMonotonic None in
  let s1 := (AttestSession.with_keys_for_trr 3 s0 7 f).2 in
  let r := (AtbRegistry.insert AtbRegistry.new s1).2 in
  let g := LocalReplayGuard.mk (B := ToyGuards.bloom) [] None 10 0 in
  ∃ r' s2 s3, (Rtt0ResumptionMiddleware.call (AP := Toy.aead) (SC := ToyWeb.codec) (HaP := Toy.hash) (HP := Toy.hkdf)
      (BP := ToyBase64.prim) 5 5 ToyWeb.engine r g (ToyWeb.request "GET")).2.1 = r' ∧
    AtbRegistry.sessions r' !! replicate 16 NUL = Some s2 ∧
    (AttestSession.with_keys_for_trr 5 s1 7 f).1 ≠ Ok (Ok ()) ∧
    AttestSession.with_keys_for_trr 5 s2 7 f = (Ok (Ok ()), s3).
Proof.
  intros f s0 s1 r g.
  edestruct (resumption_replays (AP := Toy.aead) (SC := ToyWeb.codec) (HaP := Toy.hash) (HP := Toy.hkdf) (BP := ToyBase64.prim)
    (D := LocalReplayGuard.guard)
    (replicate 16 NUL) X25519MlKem768Aes256GcmSha384 V2 (mk_keys [] [] [] [] [] [] [] [] []) 100 StrictMonotonic None
    ToyWeb.engine r g (LocalReplayGuard.mk (B := ToyGuards.bloom) [u64_be 1] None 10 1) (ToyWeb.request "GET")
    (as_bytes (hex_encode (ToyWeb.sealed demo_state))) 0 0 3 5 5 7 f () s1) as (r' & s2 & s3 & Hcall & Hget & Hno & Hyes).
  1: vm_compute; split; [reflexivity|discriminate].
  1-2: vm_compute; reflexivity.
  1: vm_compute; reflexivity.
  1-6: vm_compute; reflexivity.
  exists r', s2, s3. rewrite Hcall. split_and!; [reflexivity|exact Hget|exact Hno|exact Hyes].
Defined.
