(* ===== verification/Stream.v ===== *)
(** * Framed streams

    The binary framing of streamed bodies: the frames that
    [OpenHttpaSession::seal_stream] (crates/openhttpa-server/src/extractors.rs)
    and [trusted_request_streaming] (crates/openhttpa-client/src/client.rs)
    produce, and the two [StreamFrameReader]s that take them apart again from
    whatever chunks the transport delivers.

    The reader of the server refuses frames above 16 MB, the reader of the
    client has no limit: [limit] is the difference.  A body is the list of the
    items that its stream yields; after the last the stream is at its end. *)

From S2P Require Import Prelude.
From stdpp Require Import options.

#[local] Open Scope Z_scope.

Record StreamFrame : Type := mk_frame { counter : Z; ciphertext : bytes }.
#[export] Instance StreamFrame_eq_dec : EqDecision StreamFrame.
Proof. solve_decision. Defined.

(** [Len (4b)] || [Counter (8b)] || [Ciphertext]; [u32::try_from] panics on a
    ciphertext of 4 GB and more. *)
Definition encode_frame (f : StreamFrame) : outcome bytes :=
  if decide (Z.of_nat (length (ciphertext f)) ≤ u32_max)
  then Returns (u32_be (Z.of_nat (length (ciphertext f))) ++ u64_be (counter f) ++ ciphertext f)
  else Panics.

Definition MAX_FRAME_SIZE : Z := 16 * 1024 * 1024.

Module StreamFrameReader.

Inductive error : Type :=
| FrameTooLarge (len : Z)
| IncompleteFrame
| StreamError (msg : string).
#[global] Instance error_eq_dec : EqDecision error.
Proof. solve_decision. Defined.

Record t : Type := mk { buffer : bytes; stream : list (result string bytes) }.
Definition new (stream : list (result string bytes)) : t := mk [] stream.

Inductive parsed : Type :=
| NeedMore
| TooLarge (len : Z)
| Parsed (f : StreamFrame) (rest : bytes).

Definition over (limit : option Z) (len : Z) : bool :=
  match limit with Some l => bool_decide (l < len) | None => false end.

(** The head of the loop's body: what the buffer holds. *)
Definition parse (limit : option Z) (buffer : bytes) : parsed :=
  if decide (4 ≤ length buffer)%nat then
    let len := from_be (take 4 buffer) in
    if over limit len then TooLarge len
    else if decide (4 + 8 + len ≤ Z.of_nat (length buffer)) then
      let n := Z.to_nat len in
      Parsed (mk_frame (from_be (take 8 (drop 4 buffer))) (take n (drop 12 buffer))) (drop n (drop 12 buffer))
    else NeedMore
  else NeedMore.

Fixpoint next_frame (limit : option Z) (buffer : bytes) (stream : list (result string bytes))
    : result error (option StreamFrame) * t :=
  match parse limit buffer with
  | TooLarge len => (Err (FrameTooLarge len), mk buffer stream)
  | Parsed f rest => (Ok (Some f), mk rest stream)
  | NeedMore =>
      match stream with
      | Ok chunk :: stream => next_frame limit (buffer ++ chunk) stream
      | Err e :: stream => (Err (StreamError e), mk buffer stream)
      | [] =>
          if decide (buffer = []) then (Ok None, mk buffer [])
          else (Err IncompleteFrame, mk buffer [])
      end
  end.

(** The stream of frames that [futures::stream::unfold] makes of a reader,
    polled at most [n] times: it ends at [None] and goes on after an error. *)
Fixpoint poll (limit : option Z) (n : nat) (r : t) : list (result error StreamFrame) :=
  match n with
  | O => []
  | S n =>
      match next_frame limit (buffer r) (stream r) with
      | (Ok None, _) => []
      | (Ok (Some f), r) => Ok f :: poll limit n r
      | (Err e, r) => Err e :: poll limit n r
      end
  end.

(** ** Frames of any chunking *)

Definition frame_ok (limit : option Z) (f : StreamFrame) : Prop :=
  is_u64 (counter f) ∧ Z.of_nat (length (ciphertext f)) ≤ u32_max ∧
  match limit with Some l => Z.of_nat (length (ciphertext f)) ≤ l | None => True end.
Definition wire (f : StreamFrame) : bytes :=
  u32_be (Z.of_nat (length (ciphertext f))) ++ u64_be (counter f) ++ ciphertext f.
Definition wires (fs : list StreamFrame) : bytes := concat (wire <$> fs).

Lemma frame_ok_over limit f : frame_ok limit f → over limit (Z.of_nat (length (ciphertext f))) = false.
Proof. intros (_ & _ & Hl). destruct limit; [|done]. apply bool_decide_eq_false_2. lia. Qed.
Lemma length_wire f : length (wire f) = (12 + length (ciphertext f))%nat.
Proof. unfold wire. wire_len. Qed.
Lemma encode_frame_wire limit f : frame_ok limit f → encode_frame f = Returns (wire f).
Proof. intros (_ & ? & _). unfold encode_frame. by rewrite decide_True. Qed.

Lemma take_wire f rest : take 4 (wire f ++ rest) = u32_be (Z.of_nat (length (ciphertext f))).
Proof.
  unfold wire, u32_be.
  rewrite <-app_assoc, take_app_le, take_ge by wire_len. done.
Qed.
Lemma u32_be_from n : Z.of_nat n ≤ u32_max → from_be (u32_be (Z.of_nat n)) = Z.of_nat n.
Proof. intros. unfold u32_be, u32_max in *. apply from_be_to_be. simpl. lia. Qed.

(** A proper prefix of a frame is not yet a frame. *)
Lemma parse_short limit f rest n :
  frame_ok limit f → (n < length (wire f))%nat → parse limit (take n (wire f ++ rest)) = NeedMore.
Proof.
  intros Hf Hn. pose proof Hf as (Hc & Hu & _). unfold parse. rewrite length_take, length_app, length_wire in *.
  case_decide as H4; [|done]. rewrite take_take, Nat.min_l, take_wire, u32_be_from by (done || lia).
  rewrite (frame_ok_over _ _ Hf). by rewrite decide_False by lia.
Qed.

Lemma parse_full limit f rest : frame_ok limit f → parse limit (wire f ++ rest) = Parsed f rest.
Proof.
  intros Hf. pose proof Hf as (Hc & Hu & _). unfold parse. rewrite length_app, length_wire, decide_True by lia.
  rewrite take_wire, u32_be_from by done.
  rewrite (frame_ok_over _ _ Hf). rewrite decide_True, Nat2Z.id by lia.
  assert (drop 4 (wire f ++ rest) = u64_be (counter f) ++ ciphertext f ++ rest) as H4.
  { unfold wire, u32_be. by rewrite <-!app_assoc, drop_app_le, drop_ge by wire_len. }
  assert (drop 12 (wire f ++ rest) = ciphertext f ++ rest) as H12.
  { change 12%nat with (4 + 8)%nat. rewrite <-drop_drop, H4. unfold u64_be.
    by rewrite drop_app_le, drop_ge by wire_len. }
  rewrite H4, H12, take_app_length, drop_app_length.
  rewrite take_app_le, take_ge by wire_len. rewrite from_be_u64_be by done.
  by destruct f.
Qed.

Lemma parse_prefix limit f rest buf l :
  frame_ok limit f → buf ++ l = wire f ++ rest →
  parse limit buf = if decide (length buf < length (wire f))%nat then NeedMore else Parsed f (drop (length (wire f)) buf).
Proof.
  intros Hf Heq. assert (buf = take (length buf) (wire f ++ rest)) as Hbuf by (by rewrite <-Heq, take_app_length).
  case_decide as Hlt.
  - rewrite Hbuf. by apply parse_short.
  - assert (buf = wire f ++ drop (length (wire f)) buf) as Hb.
    { rewrite Hbuf at 1. rewrite take_app_ge by lia. f_equal. rewrite Hbuf at 2.
      rewrite take_app_ge by lia. by rewrite drop_app_length. }
    rewrite Hb at 1. by apply parse_full.
Qed.

Lemma next_frame_ok limit f rest buf chunks :
  frame_ok limit f → buf ++ concat chunks = wire f ++ rest →
  ∃ buf' chunks', next_frame limit buf (Ok <$> chunks) = (Ok (Some f), mk buf' (Ok <$> chunks')) ∧
    buf' ++ concat chunks' = rest.
Proof.
  intros Hf. revert buf. induction chunks as [|c chunks IH]; intros buf Heq; cbn [next_frame fmap list_fmap].
  - rewrite (parse_prefix limit f rest buf [] Hf Heq). cbn [concat] in Heq. rewrite app_nil_r in Heq. subst buf.
    destruct (decide (_ < _)%nat) as [Hlt|_]; [rewrite length_app in Hlt; lia|]. exists rest, []. by rewrite drop_app_length, app_nil_r.
  - rewrite (parse_prefix limit f rest buf _ Hf Heq). case_decide as Hlt.
    + apply IH. cbn [concat] in Heq. by rewrite <-app_assoc.
    + exists (drop (length (wire f)) buf), (c :: chunks). split; [done|].
      rewrite <-(drop_app_length (wire f) rest), <-Heq, drop_app_le by lia. done.
Qed.

Lemma next_frame_end limit chunks : concat chunks = [] → ∃ r, next_frame limit [] (Ok <$> chunks) = (Ok None, r).
Proof. induction chunks as [|c chunks IH]; simpl; [by eexists|]. intros [-> H]%app_eq_nil. apply (IH H). Qed.

(** A stream that stops inside a frame. *)
Lemma next_frame_cut limit f n buf chunks :
  frame_ok limit f → (0 < n < length (wire f))%nat → buf ++ concat chunks = take n (wire f) →
  ∃ buf', next_frame limit buf (Ok <$> chunks) = (Err IncompleteFrame, mk buf' []) ∧ buf' = take n (wire f).
Proof.
  intros Hf Hn. revert buf. induction chunks as [|c chunks IH]; intros buf Heq; cbn [next_frame fmap list_fmap].
  - cbn [concat] in Heq. rewrite app_nil_r in Heq. subst buf. pose proof (parse_short limit f [] n Hf ltac:(lia)) as Hp.
    rewrite app_nil_r in Hp. rewrite Hp, decide_False.
    + by eexists.
    + intros Hnil%(f_equal length). rewrite length_take in Hnil. simpl in Hnil. lia.
  - assert (parse limit buf = NeedMore) as ->.
    { rewrite (parse_prefix limit f [] buf (concat (c :: chunks) ++ drop n (wire f))); [|done|].
      - apply decide_True. apply (f_equal length) in Heq. rewrite length_app, length_take in Heq. lia.
      - by rewrite app_assoc, Heq, take_drop, app_nil_r. }
    apply IH. cbn [concat] in Heq. by rewrite <-app_assoc.
Qed.

Lemma poll_frames limit fs tail n r chunks :
  Forall (frame_ok limit) fs → stream r = Ok <$> chunks → buffer r ++ concat chunks = wires fs ++ tail →
  ∃ r' chunks', poll limit (length fs + n) r = (Ok <$> fs) ++ poll limit n r' ∧
    stream r' = Ok <$> chunks' ∧ buffer r' ++ concat chunks' = tail.
Proof.
  intros Hfs. revert r chunks. induction Hfs as [|f fs Hf _ IH]; intros r chunks Hs Heq; [by exists r, chunks|].
  cbn [length Nat.add poll fmap list_fmap]. unfold wires in Heq. rewrite fmap_cons in Heq. cbn [concat] in Heq.
  rewrite <-app_assoc in Heq. destruct (next_frame_ok limit f _ _ _ Hf Heq) as (buf' & chunks' & Hnext & Heq').
  rewrite Hs, Hnext. destruct (IH (mk buf' (Ok <$> chunks')) chunks' eq_refl Heq') as (r2 & c2 & Hp & Hs2 & Heq2).
  exists r2, c2. split_and!; [|done|done]. by rewrite Hp.
Qed.
Lemma poll_all limit fs chunks n :
  Forall (frame_ok limit) fs → concat chunks = wires fs → poll limit (length fs + S n) (new (Ok <$> chunks)) = Ok <$> fs.
Proof.
  intros Hok Hch. destruct (poll_frames limit fs [] (S n) (new (Ok <$> chunks)) chunks) as ([buf st] & chunks' & -> & Hst & Heq); [done|done|by rewrite app_nil_r|].
  simpl in Hst, Heq. subst st. apply app_eq_nil in Heq as [-> Hnil]. cbn [poll buffer stream].
  destruct (next_frame_end limit chunks' Hnil) as [r ->]. by rewrite app_nil_r.
Qed.

End StreamFrameReader.

(** ** Properties *)

(** The error of a cut stream is returned by every further poll. *)
Lemma poll_cut limit f k n buf chunks :
  StreamFrameReader.frame_ok limit f → (0 < k < length (StreamFrameReader.wire f))%nat →
  buf ++ concat chunks = take k (StreamFrameReader.wire f) →
  StreamFrameReader.poll limit n (StreamFrameReader.mk buf (Ok <$> chunks)) =
    replicate n (Err StreamFrameReader.IncompleteFrame).
Proof.
  intros Hf Hk. revert buf chunks. induction n as [|n IH]; intros buf chunks Heq; [done|].
  cbn [StreamFrameReader.poll StreamFrameReader.buffer StreamFrameReader.stream replicate].
  destruct (StreamFrameReader.next_frame_cut limit f k buf chunks Hf Hk Heq) as (buf' & -> & ->).
  f_equal. apply (IH _ []). simpl. by rewrite app_nil_r.
Qed.

(** [C25] However the transport cuts the bytes of a sequence of frames into chunks,
    the reader returns exactly the frames.  If the body then is at its end the
    stream ends; if it stops inside a further frame, that is reported as an
    error, by every poll from then on. *)
Theorem frames_any_chunking (limit : option Z) (fs : list StreamFrame) (chunks : list bytes) (f : StreamFrame) (k n : nat) :
  Forall (StreamFrameReader.frame_ok limit) (f :: fs) → (k < length (StreamFrameReader.wire f))%nat →
  concat chunks = StreamFrameReader.wires fs ++ take k (StreamFrameReader.wire f) →
  StreamFrameReader.poll limit (length fs + S n) (StreamFrameReader.new (Ok <$> chunks)) =
    (Ok <$> fs) ++ (if decide (k = 0%nat) then [] else replicate (S n) (Err StreamFrameReader.IncompleteFrame)).
Proof.
  intros [Hf Hfs]%Forall_cons Hk Heq.
  destruct (StreamFrameReader.poll_frames limit fs (take k (StreamFrameReader.wire f)) (S n)
    (StreamFrameReader.new (Ok <$> chunks)) chunks Hfs eq_refl Heq) as ([buf st] & chunks' & -> & Hs & Heq').
  f_equal. simpl in Hs, Heq'. subst st. case_decide as H0.
  - subst k. rewrite take_0 in Heq'. apply app_eq_nil in Heq' as [-> Hc].
    cbn [StreamFrameReader.poll StreamFrameReader.buffer StreamFrameReader.stream].
    by destruct (StreamFrameReader.next_frame_end limit chunks' Hc) as [r ->].
  - apply (poll_cut limit f k); [done|lia|done].
Qed.

Lemma frames_any_chunking_witness :
  let f1 := mk_frame 1 (as_bytes "hello") in let f2 := mk_frame 2 (as_bytes "you") in
  let b := StreamFrameReader.wires [f1; f2] in
  StreamFrameReader.poll (Some MAX_FRAME_SIZE) 5
    (StreamFrameReader.new (Ok <$> [take 3 b; []; take 20 (drop 3 b); drop 23 b ++ take 2 (StreamFrameReader.wire f1)])) =
    [Ok f1; Ok f2; Err StreamFrameReader.IncompleteFrame; Err StreamFrameReader.IncompleteFrame; Err StreamFrameReader.IncompleteFrame].
Proof.
  intros f1 f2 b. apply (frames_any_chunking (Some MAX_FRAME_SIZE) [f1; f2] _ f1 2 2).
  - repeat constructor; by_compute.
  - by_compute.
  - vm_compute. reflexivity.
Defined.
