(* ===== verification/Client.v ===== *)
(** * Trusted requests, client side

    [crates/openhttpa-client/src/client.rs]: sealing of a request body with its
    ticket, unsealing of a response body, one chunk of a streamed request and one
    frame of a streamed response, and the authority that the request's MAC
    covers.

    All of them build the nonce in a 12-byte array that they fill from the
    session's IV: IVs have 12 bytes ([keys_wf]).  The text that a library error
    adds to a message is left out of the messages. *)

From S2P Require Import Prelude ReplayWindow Nonce Crypto Aead Proto State KeySchedule Attestation Session KeyExchange Handshake.
From S2P Require Import Http Ahl Trailers Stream Middleware.
From stdpp Require Import options.

#[local] Open Scope Z_scope.

(** The body [{"ciphertext": "<hex>"}], as [serde_json] writes and reads it. *)
Class CiphertextJson : Type := {
  ciphertext_to_json : string → bytes;
  ciphertext_of_json : bytes → option string;
}.
Class CiphertextJsonLaws (J : CiphertextJson) : Prop := {
  ciphertext_round_trip s : ciphertext_of_json (ciphertext_to_json s) = Some s;
}.

(** ** The authority *)

(** [str::rsplit_once(':')]: split at the last colon. *)
Fixpoint rsplit_colon (s : bytes) : option (bytes * bytes) :=
  match s with
  | [] => None
  | b :: s =>
      match rsplit_colon s with
      | Some (h, p) => Some (b :: h, p)
      | None => if decide (b = colon) then Some ([], s) else None
      end
  end.

(** [ahl_authority], of the scheme and the authority of a URI. *)
Definition ahl_authority (scheme authority : option bytes) : bytes :=
  match authority with
  | None => []
  | Some auth =>
      let default_port :=
        if decide (scheme = Some (as_bytes "https")) then Some (as_bytes "443")
        else if decide (scheme = Some (as_bytes "http")) then Some (as_bytes "80") else None in
      match default_port, rsplit_colon auth with
      | Some p, Some (host, port) => if decide (port = p) then host else auth
      | _, _ => auth
      end
  end.

(** ** Sealing *)

Definition STR_CONTENT_TYPE : string := "content-type".

Section client.
Context {AP : AeadPrim} {HaP : HashPrim} {MP : HmacPrim} {UP : UuidPrim} {XP : HexPrim} {BP : Base64Prim} {J : CiphertextJson}.

Definition session_error_string (e : SessionError) : string :=
  match e with
  | Transition _ => "state transition error"
  | SessionExpired => "session has expired"
  | NotAttested => "trusted request not permitted in current phase"
  | ReplayRejected => "replay nonce rejected"
  | CounterOverflow => "cryptographic counter overflow"
  end.

(** [map_err(|e| Handshake(e.to_string()))?] on the outer result, then the inner. *)
Definition flatten_session {A} (r : result SessionError (result ClientError A)) : result ClientError A :=
  match r with Ok r => r | Err e => Err (ClientHandshake (session_error_string e)) end.

(** Key and nonce of a message. *)
Definition seal_message (write_key write_iv : bytes) (counter : Z) (aad data : bytes) : result ClientError bytes :=
  nonce ← map_err (λ _, ClientHandshake "nonce length invariant violated")
            (aead_nonce_from_slice (build_aead_nonce counter write_iv));
  key ← map_err (λ _, ClientHandshake "Key setup failed") (AeadKey.new Aes256Gcm write_key);
  map_err (λ _, ClientHandshake "Encryption failed") (AeadKey.seal_in_place key nonce aad data).

Definition request_closure (base_id : AtbId) (method path : string) (query : option string) (authority : string)
    (body aad : bytes) (extra_headers : option HeaderMap) (keys : SessionKeys) (counter : Z)
    : result ClientError (HeaderMap * bytes * Z) :=
  data ← seal_message (client_write_key keys) (client_write_iv keys) counter aad body;
  let base_id := uuid_to_string base_id in
  _ ← (if forallb visible (as_bytes base_id) then Ok () else Err (ClientHandshake "invalid base-id header value"));
  let hdrs := hm_insert (default [] extra_headers) STR_ATTEST_BASE_ID (as_bytes base_id) in
  ahl ← map_err (λ _, ClientHandshake "AHL error") (canonicalize_ahl method path query authority hdrs);
  let mac := hmac_sha384 (client_mac_key keys) (u64_be counter ++ ahl) in
  Ok (hm_insert hdrs STR_ATTEST_TICKET (encode_attest_ticket counter mac None), data, counter).

Definition seal_request_body (now : Z) (session : SessionInner) (method path : string) (query : option string)
    (authority : string) (body aad : bytes) (extra_headers : option HeaderMap)
    : result ClientError (HeaderMap * bytes * Z) * SessionInner :=
  let '(r, session) := AttestSession.with_keys_for_next_trr now session
    (request_closure (id session) method path query authority body aad extra_headers) in
  (flatten_session r, session).

(** [AAD_PREFIX] and the session's identifier. *)
Definition request_aad (i : AtbId) : bytes := AAD_PREFIX ++ as_bytes (uuid_to_string i).

(** [trusted_request_ext] up to the transport: the headers and the body of the
    [TransportRequest]. *)
Definition trusted_request (now : Z) (session : SessionInner) (method path : string) (query : option string)
    (authority : string) (body : bytes) (extra_headers : option HeaderMap)
    : result ClientError (HeaderMap * bytes) * SessionInner :=
  if AttestSession.is_alive now session then
    let '(r, session) := seal_request_body now session method path query authority body (request_aad (id session)) extra_headers in
    ('(hdrs, ct, _) ← r;
     Ok (hm_insert hdrs STR_CONTENT_TYPE (as_bytes "application/json"), ciphertext_to_json (hex_encode ct)), session)
  else (Err ClientNotAttested, session).

(** ** Unsealing *)

Definition open_message (write_key write_iv : bytes) (counter : Z) (aad ct : bytes) : result ClientError bytes :=
  key ← map_err (λ _, ClientHandshake "Key setup failed") (BoundAeadKey.new Aes256Gcm write_key write_iv);
  map_err (λ _, ClientHandshake "Decryption failed") (BoundAeadKey.open key (build_aead_nonce counter write_iv) aad ct).

Definition unseal_response_body (now : Z) (session : SessionInner) (resp_body aad : bytes)
    : result ClientError bytes * SessionInner :=
  match ciphertext_hex ← ciphertext_of_json resp_body; hex_decode ciphertext_hex with
  | None => (Err (ClientSerialisation "invalid response body"), session)
  | Some ct =>
      let '(r, session) := AttestSession.with_keys_for_trs now session
        (λ keys counter, open_message (server_write_key keys) (server_write_iv keys) counter aad ct) in
      (flatten_session r, session)
  end.

(** ** Streaming *)

(** One chunk of a streamed request.  [nonce] is a fresh random number that is
    checked against the session's own replay guard; the frame carries the
    session's counter. *)
Definition seal_chunk (now : Z) (session : SessionInner) (aad cumulative_hash chunk : bytes) (nonce : Z)
    : result ClientError (StreamFrame * bytes) * SessionInner :=
  let '(r, session) := AttestSession.with_keys_for_trr now session nonce (λ keys counter,
    data ← seal_message (client_write_key keys) (client_write_iv keys) counter (aad ++ cumulative_hash) chunk;
    Ok (mk_frame counter data, sha384 (cumulative_hash ++ data))) in
  (flatten_session r, session).

(** One frame of a streamed response: the nonce comes from the frame, the
    session's counter only advances. *)
Definition open_frame (now : Z) (session : SessionInner) (aad prev_hash : bytes) (frame : StreamFrame)
    : result ClientError (bytes * bytes) * SessionInner :=
  let '(r, session) := AttestSession.with_keys_for_trs now session (λ keys _,
    key ← map_err (λ _, ClientHandshake "Key setup failed") (AeadKey.new Aes256Gcm (server_write_key keys));
    let next_hash := sha384 (prev_hash ++ ciphertext frame) in
    p ← map_err (λ _, ClientHandshake "Stream dec fail")
          (AeadKey.open_in_place key (build_aead_nonce (counter frame) (server_write_iv keys)) (aad ++ prev_hash) (ciphertext frame));
    Ok (p, next_hash)) in
  (flatten_session r, session).

(** The items of the decrypted stream: a frame that fails leaves the hash as it
    was. *)
Fixpoint open_frames (session : SessionInner) (aad prev_hash : bytes) (frames : list (Z * StreamFrame))
    : list (result ClientError bytes) * SessionInner :=
  match frames with
  | [] => ([], session)
  | (now, f) :: frames =>
      let '(r, session) := open_frame now session aad prev_hash f in
      let hash := match r with Ok (_, h) => h | Err _ => prev_hash end in
      let '(rs, session) := open_frames session aad hash frames in
      (((λ '(p, _), p) <$> r) :: rs, session)
  end.

End client.
