(* ===== verification/Extractors.v ===== *)
(** * Trusted requests, server side

    [crates/openhttpa-server/src/extractors.rs]: the extraction of the session,
    the decryption of a JSON body after the check of the ticket's MAC, the sealed
    response, and the two sides of a stream on the server.

    A rejection is the status of its response.  The session behind a handle is
    shared with the registry, so an operation on it is followed by
    [AtbRegistry.update]. *)

From S2P Require Import Prelude ReplayWindow Nonce Crypto Aead Proto State KeySchedule Attestation Session KeyExchange Handshake.
From S2P Require Import Http Ahl Trailers Registry Stream Middleware Client.
From stdpp Require Import options.

#[local] Open Scope Z_scope.

Definition BAD_REQUEST : Z := 400.
Definition INTERNAL_SERVER_ERROR : Z := 500.

(** [serde_json] on the application's values. *)
Class ValueJson (T : Type) : Type := {
  value_to_vec : T → option bytes;
  value_from_slice : bytes → option T;
}.
Class ValueJsonLaws (T : Type) (V : ValueJson T) : Prop := {
  value_round_trip v b : value_to_vec v = Some b → value_from_slice b = Some v;
}.

(** axum's [Json] extractor for the body [{"ciphertext": "<hex>"}]: it rejects a
    body with a status of its own. *)
Class JsonExtractor : Type := json_extract : Request → result Z string.
Class JsonExtractorLaws (J : CiphertextJson) (X : JsonExtractor) : Prop :=
  json_extract_ok req s :
    hm_get (headers req) STR_CONTENT_TYPE = Some (as_bytes "application/json") → body req = ciphertext_to_json s →
    json_extract req = Ok s.

Section server.
Context {AP : AeadPrim} {HaP : HashPrim} {MP : HmacPrim} {UP : UuidPrim} {XP : HexPrim} {BP : Base64Prim} {J : CiphertextJson} {X : JsonExtractor}.

(** ** The session *)

Record OpenHttpaSession : Type := mk_ohs { ohs_session : SessionInner; ohs_aad : bytes }.

Definition from_request_parts (now : Z) (r : AtbRegistry.t) (req : Request) : result Z OpenHttpaSession * AtbRegistry.t :=
  match (v ← hm_get (headers req) STR_ATTEST_BASE_ID; to_str v) with
  | None => (Err UNAUTHORIZED, r)
  | Some base_id_str =>
      match uuid_parse base_id_str with
      | None => (Err UNAUTHORIZED, r)
      | Some base_id =>
          let '(session, r) := AtbRegistry.get now r base_id in
          match session with
          | None => (Err FORBIDDEN, r)
          | Some s => (Ok (mk_ohs s (AAD_PREFIX ++ as_bytes base_id_str)), r)
          end
      end
  end.

(** ** Encrypted JSON *)

Definition server_path (req : Request) : string := default (path req) (fst <$> original_uri req).
Definition server_query (req : Request) : option string :=
  match original_uri req with Some (_, q) => q | None => query req end.
(** The authority of the URI, else the [Host] header. *)
Definition server_authority (req : Request) : string :=
  match uri_authority req with
  | Some a => a
  | None => default EmptyString (v ← hm_get (headers req) "host"; to_str v)
  end.

(** The closure: the MAC over nonce and attested headers, then the body. *)
Definition request_open (req : Request) (nonce_val : Z) (mac_val aad ct : bytes) (keys : SessionKeys) (_ : Z)
    : result Z bytes :=
  let authority := server_authority req in
  if decide (authority = EmptyString) then Err BAD_REQUEST
  else
    ahl ← map_err (λ _, BAD_REQUEST)
            (canonicalize_ahl (method req) (server_path req) (server_query req) authority (headers req));
    if decide (hmac_sha384 (client_mac_key keys) (u64_be nonce_val ++ ahl) = mac_val) then
      key ← map_err (λ _, INTERNAL_SERVER_ERROR) (BoundAeadKey.new Aes256Gcm (client_write_key keys) (client_write_iv keys));
      map_err (λ _, BAD_REQUEST)
        (BoundAeadKey.open key (build_aead_nonce nonce_val (client_write_iv keys)) aad ct)
    else Err UNAUTHORIZED.

Definition ticket_status (e : TrailerError) : Z :=
  match e with TrailerMissing _ => UNAUTHORIZED | TrailerInvalid _ _ => BAD_REQUEST end.

(** [EncryptedJson::from_request] up to the plaintext. *)
Definition decrypt_request (now : Z) (r : AtbRegistry.t) (req : Request)
    : result Z bytes * AtbRegistry.t :=
  let '(sess, r) := from_request_parts now r req in
  match sess with
  | Err st => (Err st, r)
  | Ok sess =>
      match decode_attest_ticket (headers req) with
      | Err e => (Err (ticket_status e), r)
      | Ok decoded =>
          match json_extract req with
          | Err st => (Err st, r)
          | Ok hex =>
              match hex_decode hex with
              | None => (Err BAD_REQUEST, r)
              | Some ct =>
                  let '(res, s) := AttestSession.with_keys_for_trr now (ohs_session sess) (dt_nonce decoded)
                    (request_open req (dt_nonce decoded) (dt_mac decoded) (ohs_aad sess) ct) in
                  let r := AtbRegistry.update r (id s) s in
                  (match res with Ok (Ok p) => Ok p | Ok (Err st) => Err st | Err _ => Err UNAUTHORIZED end, r)
              end
          end
      end
  end.

Definition encrypted_json {T} `{ValueJson T} (now : Z) (r : AtbRegistry.t) (req : Request)
    : result Z T * AtbRegistry.t :=
  let '(p, r) := decrypt_request now r req in
  (plaintext ← p; ok_or (value_from_slice plaintext) BAD_REQUEST, r).

(** ** Sealed responses *)

(** A sealed response: the [Attest-Base-ID] header and the body. *)
Record SealedResponse : Type := mk_sealed { resp_id_header : bytes; resp_body : bytes }.

Definition seal_response (keys : SessionKeys) (counter : Z) (aad data : bytes) : result Z bytes :=
  key ← map_err (λ _, INTERNAL_SERVER_ERROR) (AeadKey.new Aes256Gcm (server_write_key keys));
  map_err (λ _, INTERNAL_SERVER_ERROR)
    (AeadKey.seal_in_place key (build_aead_nonce counter (server_write_iv keys)) aad data).

Definition seal {T} `{ValueJson T} (now : Z) (sess : OpenHttpaSession) (value : T)
    : result Z SealedResponse * OpenHttpaSession :=
  match value_to_vec value with
  | None => (Err INTERNAL_SERVER_ERROR, sess)
  | Some plaintext =>
      let i := id (ohs_session sess) in
      let '(res, s) := AttestSession.with_keys_for_trs now (ohs_session sess) (λ keys counter,
        data ← seal_response keys counter (ohs_aad sess) plaintext;
        Ok (mk_sealed (as_bytes (uuid_to_string i)) (ciphertext_to_json (hex_encode data)))) in
      (match res with Ok (Ok r) => Ok r | Ok (Err st) => Err st | Err _ => Err UNAUTHORIZED end, mk_ohs s (ohs_aad sess))
  end.

(** ** Streams *)

(** One item of [seal_stream]: the frame's bytes and the next hash.  The hash is a
    variable of the closure: it moves when sealing succeeded, even if the
    counter then overflows. *)
Definition chunk_closure (aad cumulative_hash plaintext : bytes) (keys : SessionKeys) (c : Z) : result Z (StreamFrame * bytes) :=
  data ← seal_response keys c (aad ++ cumulative_hash) plaintext;
  Ok (mk_frame c data, sha384 (cumulative_hash ++ data)).
Definition seal_stream_item (now : Z) (s : SessionInner) (aad cumulative_hash plaintext : bytes)
    : option StreamFrame * bytes * SessionInner :=
  let '(res, s') := AttestSession.with_keys_for_trs now s (chunk_closure aad cumulative_hash plaintext) in
  let hash :=
    if decide (expires_at s ≤ now) then cumulative_hash
    else match chunk_closure aad cumulative_hash plaintext (keys s) (server_counter s) with
         | Ok (_, h) => h
         | Err _ => cumulative_hash
         end in
  (match res with Ok (Ok (f, _)) => Some f | _ => None end, hash, s').

Fixpoint seal_stream (s : SessionInner) (aad cumulative_hash : bytes) (items : list (Z * bytes))
    : list (option StreamFrame) * SessionInner :=
  match items with
  | [] => ([], s)
  | (now, p) :: items =>
      let '(f, h, s) := seal_stream_item now s aad cumulative_hash p in
      let '(fs, s) := seal_stream s aad h items in
      (f :: fs, s)
  end.

(** One frame of [EncryptedStream]. *)
Definition stream_open (now : Z) (s : SessionInner) (aad prev_hash : bytes) (frame : StreamFrame)
    : result Z (bytes * bytes) * SessionInner :=
  let '(res, s) := AttestSession.with_keys_for_trr now s (counter frame) (λ keys _,
    key ← map_err (λ _, INTERNAL_SERVER_ERROR) (AeadKey.new Aes256Gcm (client_write_key keys));
    let next_hash := sha384 (prev_hash ++ ciphertext frame) in
    p ← map_err (λ _, BAD_REQUEST)
          (AeadKey.open_in_place key (build_aead_nonce (counter frame) (client_write_iv keys)) (aad ++ prev_hash) (ciphertext frame));
    Ok (p, next_hash)) in
  (match res with Ok r => r | Err _ => Err UNAUTHORIZED end, s).

Fixpoint encrypted_stream (s : SessionInner) (aad prev_hash : bytes) (frames : list (Z * StreamFrame))
    : list (result Z bytes) * SessionInner :=
  match frames with
  | [] => ([], s)
  | (now, f) :: frames =>
      let '(r, s) := stream_open now s aad prev_hash f in
      let hash := match r with Ok (_, h) => h | Err _ => prev_hash end in
      let '(rs, s) := encrypted_stream s aad hash frames in
      (((λ '(p, _), p) <$> r) :: rs, s)
  end.

End server.
