(* ===== verification/Exchange.v ===== *)
(** * Exchanges between client and server

    The client of [Client] and the server of [Extractors] on two ends of a
    session: what an accepted request says about its sender, and that the two
    ends understand each other, request after request, as long as every response
    arrives. *)

From S2P Require Import Prelude ReplayWindow Nonce Crypto Aead Proto State KeySchedule Attestation Session KeyExchange Handshake.
From S2P Require Import Http Ahl Trailers Registry ServerGuards Stream Middleware Client Extractors.
From stdpp Require Import options.

#[local] Open Scope Z_scope.

(** ** Headers *)

Lemma attested_insert m n v : is_attested_name n = false → attested_headers (hm_insert m n v) = attested_headers m.
Proof.
  intros Hn. unfold attested_headers. induction m as [|[k vs] m IH]; simpl.
  - by rewrite filter_cons_False by (simpl; congruence).
  - case_decide as Hk.
    + subst k. by rewrite !filter_cons_False by (simpl; congruence).
    + rewrite !filter_cons. simpl. by rewrite IH.
Qed.

Lemma canonicalize_ext meth p q a m1 m2 :
  attested_headers m1 = attested_headers m2 → canonicalize_ahl meth p q a m1 = canonicalize_ahl meth p q a m2.
Proof. intros Heq. unfold canonicalize_ahl, update_ahl. by rewrite Heq. Qed.

(** The headers that a transport adds. *)
Definition add_headers (m : HeaderMap) (extras : list (string * bytes)) : HeaderMap :=
  foldl (λ m e, hm_insert m e.1 e.2) m extras.
Definition transport_header (n : string) : Prop :=
  is_attested_name n = false ∧ n ≠ STR_ATTEST_TICKET ∧ n ≠ STR_CONTENT_TYPE.
#[export] Instance transport_header_dec n : Decision (transport_header n).
Proof. unfold transport_header. apply _. Defined.

Lemma add_headers_attested m extras :
  Forall (λ e, transport_header e.1) extras → attested_headers (add_headers m extras) = attested_headers m.
Proof.
  intros He. revert m. induction He as [|e es (Hn & _) _ IH]; intros m; [done|]. simpl. by rewrite IH, attested_insert.
Qed.
Lemma add_headers_get m extras n :
  Forall (λ e, transport_header e.1) extras → (∀ k, transport_header k → k ≠ n) → hm_get (add_headers m extras) n = hm_get m n.
Proof.
  intros He Hn. revert m. induction He as [|e es Hh _ IH]; intros m; [done|]. simpl. rewrite IH, hm_get_insert_ne; auto.
Qed.

Lemma uuid_to_str `{L : !UuidLaws UP} i : forallb visible (as_bytes (uuid_to_string i)) = true.
Proof.
  apply forallb_forall. intros b Hb%list_elem_of_In. apply (uuid_graphic i) in Hb. unfold visible.
  apply bool_decide_eq_true_2. lia.
Qed.

(** ** Sessions *)

(** The highest nonce that the active strategy remembers. *)
Definition last_nonce (s : SessionInner) : Z :=
  match replay_strategy s with
  | SlidingWindow _ => ReplayGuard.highest (replay_guard s)
  | StrictMonotonic => strict_last_seen s
  end.

(** A session after a request with a higher nonce was committed. *)
Definition committed (s : SessionInner) (n : Z) : SessionInner :=
  AttestSession.set_counters
    (AttestSession.set_replay s
      (match replay_strategy s with
       | SlidingWindow _ => ReplayGuard.accept SESSION_W (replay_guard s) n
       | StrictMonotonic => replay_guard s
       end)
      (match replay_strategy s with SlidingWindow _ => strict_last_seen s | StrictMonotonic => n end))
    (client_counter s + 1) (server_counter s).
Definition answered (s : SessionInner) : SessionInner :=
  AttestSession.set_counters s (client_counter s) (server_counter s + 1).

Definition ready (now : Z) (s : SessionInner) : Prop := now < expires_at s ∧ phase s = Attested.

Lemma trr_fresh {E T} now s n (f : SessionKeys → Z → result E T) x :
  ready now s → last_nonce s < n → 0 < n → client_counter s < u64_max → f (keys s) (client_counter s) = Ok x →
  AttestSession.with_keys_for_trr now s n f = (Ok (Ok x), committed s n).
Proof.
  intros [Hnow Hph] Hn Hpos Hc Hf.
  unfold AttestSession.with_keys_for_trr, AttestSession.replay_check, AttestSession.replay_commit, last_nonce, committed in *.
  rewrite decide_False, Hph by lia. cbn [allows_trusted_request negb]. unfold checked_add64, ReplayGuard.check.
  destruct (replay_strategy s) eqn:Hst.
  - rewrite decide_False by lia. cbn [AttestSession.set_replay keys client_counter replay_strategy].
    rewrite Hf, Hst. simpl. by rewrite decide_True by lia.
  - rewrite decide_False, decide_True by lia. rewrite Hf, Hst. simpl. by rewrite decide_True by lia.
Qed.

Lemma trs_ready {R} now s (f : SessionKeys → Z → R) :
  ready now s → server_counter s < u64_max →
  AttestSession.with_keys_for_trs now s f = (Ok (f (keys s) (server_counter s)), answered s).
Proof.
  intros [Hnow _] Hc. unfold AttestSession.with_keys_for_trs. rewrite decide_False by lia.
  unfold checked_add64. by rewrite decide_True by lia.
Qed.

Lemma highest_accept g n : ReplayGuard.highest g < n → ReplayGuard.highest (ReplayGuard.accept SESSION_W g n) = n.
Proof. intros Hn. unfold ReplayGuard.accept, ReplayGuard.advance_to. rewrite decide_True by lia. done. Qed.
Lemma last_nonce_committed s n : last_nonce s < n → last_nonce (committed s n) = n.
Proof.
  unfold last_nonce, committed. cbn [AttestSession.set_counters AttestSession.set_replay replay_guard replay_strategy strict_last_seen].
  destruct (replay_strategy s); [done|]. apply highest_accept.
Qed.

(** The two ends of a session: same identifier and keys, both attested, both
    about to use the same counters, whatever their replay strategies. *)
Record synced (cs ss : SessionInner) : Prop := mk_synced {
  sync_id : id cs = id ss;
  sync_id_len : length (id ss) = 16%nat;
  sync_keys : keys cs = keys ss;
  sync_keys_wf : keys_wf (keys ss);
  sync_phase : phase cs = Attested ∧ phase ss = Attested;
  sync_client_counter : client_counter cs = client_counter ss;
  sync_server_counter : server_counter cs = server_counter ss;
  sync_counter_pos : 0 < client_counter ss ∧ 0 ≤ server_counter ss;
  sync_window : last_nonce cs < client_counter ss ∧ last_nonce ss < client_counter ss;
}.

Lemma synced_new i cs v k t1 t2 st1 st2 ar :
  length i = 16%nat → keys_wf k →
  synced (AttestSession.new i cs v k t1 st1 None) (AttestSession.new i cs v k t2 st2 ar).
Proof. intros. unfold AttestSession.new. split; unfold last_nonce; simpl; auto; [lia|]. by destruct st1, st2. Qed.

Lemma synced_committed cs ss :
  synced cs ss → synced (committed cs (client_counter ss)) (committed ss (client_counter ss)).
Proof.
  intros []. split; try assumption.
  - simpl. by rewrite sync_client_counter0.
  - simpl. lia.
  - rewrite !last_nonce_committed by lia. simpl. lia.
Qed.
Lemma synced_answered cs ss : synced cs ss → synced (answered cs) (answered ss).
Proof. intros []. split; simpl; try done; [by rewrite sync_server_counter0|lia]. Qed.

Section exchange.
Context {AP : AeadPrim} {AL : AeadLaws AP} {HaP : HashPrim} {MP : HmacPrim}.
Context {UP : UuidPrim} {UL : UuidLaws UP} {XP : HexPrim} {XL : HexLaws XP} {BP : Base64Prim} {BL : Base64Laws BP}.
Context {J : CiphertextJson} {JL : CiphertextJsonLaws J} {X : JsonExtractor} {JXL : JsonExtractorLaws J X}.

(** A request as the server receives it. *)
Record delivers (meth p : string) (q : option string) (a : string) (hdrs : HeaderMap) (b : bytes) (req : Request) : Prop :=
  mk_delivers {
  del_method : method req = meth;
  del_path : server_path req = p;
  del_query : server_query req = q;
  del_authority : server_authority req = a;
  del_headers : ∃ extras, Forall (λ e, transport_header e.1) extras ∧ headers req = add_headers hdrs extras;
  del_body : body req = b;
}.

Lemma seal_message_ok k iv c aad data :
  length k = 32%nat → length iv = 12%nat → Z.of_nat (length data) ≤ 2 ^ 36 - 32 →
  ∃ ct, seal_message k iv c aad data = Ok ct ∧
    AeadKey.seal_in_place (AeadKey.mk k Aes256Gcm) (build_aead_nonce c iv) aad data = Ok ct.
Proof using AL.
  intros Hk Hiv Hd. unfold seal_message, aead_nonce_from_slice.
  rewrite decide_True by (by apply length_build_aead_nonce). simpl.
  assert (AeadKey.new Aes256Gcm k = Ok (AeadKey.mk k Aes256Gcm)) as -> by (by apply AeadKey.new_wf). simpl.
  destruct (AeadKey.seal_total (AeadKey.mk k Aes256Gcm) (build_aead_nonce c iv) aad data) as [ct Hct]; [done|done|].
  exists ct. by rewrite Hct.
Qed.

Lemma bound_open_ok k iv n aad ct pt :
  length k = 32%nat → AeadKey.seal_in_place (AeadKey.mk k Aes256Gcm) n aad pt = Ok ct →
  ∃ bk, BoundAeadKey.new Aes256Gcm k iv = Ok bk ∧ BoundAeadKey.open bk n aad ct = Ok pt.
Proof using AL.
  intros Hk Hct. unfold BoundAeadKey.new, BoundAeadKey.with_sequence.
  assert (AeadKey.new Aes256Gcm k = Ok (AeadKey.mk k Aes256Gcm)) as -> by (by apply AeadKey.new_wf). simpl.
  eexists. split; [done|]. by apply AeadKey.open_seal_iff.
Qed.

(** The headers of a request before the ticket. *)
Definition request_headers (i : AtbId) (extra : option HeaderMap) : HeaderMap :=
  hm_insert (default [] extra) STR_ATTEST_BASE_ID (as_bytes (uuid_to_string i)).

Definition sendable (meth p : string) (q : option string) (a : string) (i : AtbId) (extra : option HeaderMap) (b : bytes) : Prop :=
  a ≠ EmptyString ∧ within_limits (request_headers i extra) ∧ Z.of_nat (length b) ≤ 2 ^ 36 - 32.

(** What a client seals and sends. *)
Lemma client_seals now cs ss meth p q a b extra :
  synced cs ss → ready now cs → client_counter ss < u64_max → sendable meth p q a (id ss) extra b →
  ∃ ct ahl, canonicalize_ahl meth p q a (request_headers (id ss) extra) = Ok ahl ∧
    AeadKey.seal_in_place (AeadKey.mk (client_write_key (keys ss)) Aes256Gcm)
      (build_aead_nonce (client_counter ss) (client_write_iv (keys ss))) (request_aad (id ss)) b = Ok ct ∧
    seal_request_body now cs meth p q a b (request_aad (id ss)) extra = (Ok
      (hm_insert (request_headers (id ss) extra) STR_ATTEST_TICKET
         (encode_attest_ticket (client_counter ss)
           (hmac_sha384 (client_mac_key (keys ss)) (u64_be (client_counter ss) ++ ahl)) None),
       ct, client_counter ss), committed cs (client_counter ss)).
Proof using AL UL.
  intros [] Hready Hc (Ha & Hlim & Hb). destruct sync_keys_wf0 as (_ & _ & Hk & _ & Hiv & _).
  destruct (seal_message_ok (client_write_key (keys ss)) (client_write_iv (keys ss)) (client_counter ss)
    (request_aad (id ss)) b Hk Hiv Hb) as (ct & Hseal & Hct).
  pose proof (canonicalize_Ok meth p q a _ Hlim) as Hahl. eexists ct, _. split_and!; [exact Hahl|exact Hct|].
  unfold seal_request_body, AttestSession.with_keys_for_next_trr. rewrite sync_id0, sync_client_counter0.
  erewrite (trr_fresh now cs); [|done|lia|lia|lia|].
  2:{ unfold request_closure. rewrite sync_keys0, sync_client_counter0, Hseal. cbn [mbind result_bind].
      rewrite uuid_to_str. cbn [mbind result_bind]. fold (request_headers (id ss) extra). rewrite Hahl. reflexivity. }
  reflexivity.
Qed.
Lemma client_sends now cs ss meth p q a b extra :
  synced cs ss → ready now cs → client_counter ss < u64_max → sendable meth p q a (id ss) extra b →
  ∃ ct ahl, canonicalize_ahl meth p q a (request_headers (id ss) extra) = Ok ahl ∧
    AeadKey.seal_in_place (AeadKey.mk (client_write_key (keys ss)) Aes256Gcm)
      (build_aead_nonce (client_counter ss) (client_write_iv (keys ss))) (request_aad (id ss)) b = Ok ct ∧
    trusted_request now cs meth p q a b extra = (Ok
      (hm_insert (hm_insert (request_headers (id ss) extra) STR_ATTEST_TICKET
         (encode_attest_ticket (client_counter ss)
           (hmac_sha384 (client_mac_key (keys ss)) (u64_be (client_counter ss) ++ ahl)) None))
         STR_CONTENT_TYPE (as_bytes "application/json"),
       ciphertext_to_json (hex_encode ct)), committed cs (client_counter ss)).
Proof using AL UL.
  intros Hsync Hready Hc Hs. destruct (client_seals now cs ss meth p q a b extra Hsync Hready Hc Hs) as (ct & ahl & Hahl & Hct & Hseal).
  exists ct, ahl. split_and!; [done|done|]. unfold trusted_request, AttestSession.is_alive. rewrite bool_decide_true by apply Hready.
  rewrite (sync_id _ _ Hsync), Hseal. done.
Qed.

Lemma transport_base_id k : transport_header k → k ≠ STR_ATTEST_BASE_ID.
Proof using. intros (H & _) ->. by vm_compute in H. Qed.

(** What the server reads off the headers. *)
Lemma server_reads i extra c mac v extras :
  is_u64 c → Forall (λ e : string * bytes, transport_header e.1) extras →
  let h := add_headers (hm_insert (hm_insert (request_headers i extra) STR_ATTEST_TICKET (encode_attest_ticket c mac None))
             STR_CONTENT_TYPE v) extras in
  hm_get h STR_ATTEST_BASE_ID = Some (as_bytes (uuid_to_string i)) ∧ hm_get h STR_CONTENT_TYPE = Some v ∧
  decode_attest_ticket h = Ok (mk_ticket c mac None) ∧
  attested_headers h = attested_headers (request_headers i extra).
Proof using BL.
  intros Hc Hex h. unfold h. split_and!.
  - rewrite add_headers_get by (done || apply transport_base_id).
    rewrite !hm_get_insert_ne by done. apply hm_get_insert.
  - rewrite add_headers_get; [apply hm_get_insert|done|]. by intros k (_ & _ & ?).
  - unfold decode_attest_ticket. erewrite decode_header_encoded; [by apply parse_ticket_payload|].
    rewrite add_headers_get; [|done|by intros k (_ & ? & _)]. rewrite hm_get_insert_ne by done. apply hm_get_insert.
  - rewrite add_headers_attested by done. by rewrite !attested_insert by (by vm_compute).
Qed.

Lemma parts_ok now r req (i : AtbId) s :
  length i = 16%nat → hm_get (headers req) STR_ATTEST_BASE_ID = Some (as_bytes (uuid_to_string i)) →
  AtbRegistry.sessions r !! i = Some s → now < expires_at s →
  from_request_parts now r req = (Ok (mk_ohs s (request_aad i)), r).
Proof using UL.
  intros Hi Hh Hs Hnow. unfold from_request_parts. rewrite Hh. cbn [mbind option_bind].
  rewrite to_str_visible by apply uuid_to_str. rewrite uuid_parse_to_string by done.
  unfold AtbRegistry.get. rewrite Hs. unfold AttestSession.is_alive. by rewrite bool_decide_true.
Qed.

Lemma server_accepts now r ss meth p q a b extra ct ahl hdrs body req :
  synced ss ss → ready now ss → client_counter ss < u64_max → sendable meth p q a (id ss) extra b →
  AtbRegistry.sessions r !! id ss = Some ss →
  canonicalize_ahl meth p q a (request_headers (id ss) extra) = Ok ahl →
  AeadKey.seal_in_place (AeadKey.mk (client_write_key (keys ss)) Aes256Gcm)
    (build_aead_nonce (client_counter ss) (client_write_iv (keys ss))) (request_aad (id ss)) b = Ok ct →
  hdrs = hm_insert (hm_insert (request_headers (id ss) extra) STR_ATTEST_TICKET
    (encode_attest_ticket (client_counter ss)
      (hmac_sha384 (client_mac_key (keys ss)) (u64_be (client_counter ss) ++ ahl)) None))
    STR_CONTENT_TYPE (as_bytes "application/json") →
  body = ciphertext_to_json (hex_encode ct) → delivers meth p q a hdrs body req →
  decrypt_request now r req = (Ok b, AtbRegistry.update r (id ss) (committed ss (client_counter ss))).
Proof using AL UL XL BL JXL.
  intros Hsync Hready Hc (Ha & Hlim & Hb) Hr Hahl Hct -> -> [Hm Hp Hq Hau (extras & Hex & Hhd) Hbody].
  destruct Hsync as [_ Hlen _ Hkwf _ _ _ [Hpos _] [Hwin _]]. destruct Hkwf as (_ & _ & Hk & _ & Hiv & _).
  edestruct (server_reads (id ss) extra (client_counter ss)) as (Hbase & Hctype & Htick & Hatt);
    [|exact Hex|]; [unfold is_u64; lia|]. rewrite <-Hhd in Hbase, Hctype, Htick, Hatt.
  unfold decrypt_request. rewrite (parts_ok now r req (id ss) ss) by (done || apply Hready).
  rewrite Htick. cbn [dt_nonce dt_mac]. rewrite (json_extract_ok req (hex_encode ct)) by done.
  rewrite hex_decode_encode. cbn [ohs_session ohs_aad].
  erewrite (trr_fresh now ss); [|done|lia|lia|lia|].
  2:{ unfold request_open. rewrite Hau, decide_False by done. rewrite Hm, Hp, Hq.
      rewrite (canonicalize_ext _ _ _ _ _ _ Hatt), Hahl. cbn [map_err mbind result_bind]. rewrite decide_True by done.
      destruct (bound_open_ok _ (client_write_iv (keys ss)) _ _ _ _ Hk Hct) as (bk & Hbk & Hopen).
      rewrite Hbk. cbn [map_err mbind result_bind]. rewrite Hopen. reflexivity. }
  reflexivity.
Qed.

(** ** Responses *)

Context {T : Type} {V : ValueJson T}.

Lemma server_seals now ss (v : T) pt :
  keys_wf (keys ss) → ready now ss → server_counter ss < u64_max →
  value_to_vec v = Some pt → Z.of_nat (length pt) ≤ 2 ^ 36 - 32 →
  ∃ ct, AeadKey.seal_in_place (AeadKey.mk (server_write_key (keys ss)) Aes256Gcm)
      (build_aead_nonce (server_counter ss) (server_write_iv (keys ss))) (request_aad (id ss)) pt = Ok ct ∧
    seal now (mk_ohs ss (request_aad (id ss))) v =
      (Ok (mk_sealed (as_bytes (uuid_to_string (id ss))) (ciphertext_to_json (hex_encode ct))),
       mk_ohs (answered ss) (request_aad (id ss))).
Proof using AL.
  intros (_ & _ & _ & Hk & _ & Hiv & _) Hready Hc Hv Hpt.
  destruct (AeadKey.seal_total (AeadKey.mk (server_write_key (keys ss)) Aes256Gcm)
    (build_aead_nonce (server_counter ss) (server_write_iv (keys ss))) (request_aad (id ss)) pt) as [ct Hct]; [done|done|].
  exists ct. split; [done|]. unfold seal. rewrite Hv. cbn [ohs_session ohs_aad]. rewrite trs_ready by done.
  unfold seal_response.
  assert (AeadKey.new Aes256Gcm (server_write_key (keys ss)) = Ok (AeadKey.mk (server_write_key (keys ss)) Aes256Gcm)) as ->
    by (by apply AeadKey.new_wf).
  cbn [map_err mbind result_bind]. rewrite Hct. reflexivity.
Qed.

Lemma client_opens now cs ct pt aad :
  keys_wf (keys cs) → ready now cs → server_counter cs < u64_max →
  AeadKey.seal_in_place (AeadKey.mk (server_write_key (keys cs)) Aes256Gcm)
    (build_aead_nonce (server_counter cs) (server_write_iv (keys cs))) aad pt = Ok ct →
  unseal_response_body now cs (ciphertext_to_json (hex_encode ct)) aad = (Ok pt, answered cs).
Proof using AL XL JL.
  intros (_ & _ & _ & Hk & _ & Hiv & _) Hready Hc Hct. unfold unseal_response_body.
  rewrite ciphertext_round_trip. cbn [mbind option_bind]. rewrite hex_decode_encode, trs_ready by done.
  unfold open_message. destruct (bound_open_ok _ (server_write_iv (keys cs)) _ _ _ _ Hk Hct) as (bk & -> & Hopen).
  cbn [map_err mbind result_bind]. by rewrite Hopen.
Qed.

(** ** Conversations *)

(** One request with its response: what the client sends, what the network makes
    of it, what the handler answers, and the times of the four steps. *)
Record message : Type := mk_message {
  m_method : string;
  m_path : string;
  m_query : option string;
  m_authority : string;
  m_extra : option HeaderMap;
  m_body : bytes;
  m_net : HeaderMap → bytes → Request;
  m_response : T;
  m_sent : Z;
  m_received : Z;
  m_answered : Z;
  m_returned : Z;
}.

(** The handler's session handle is the session of the registry, read after the
    body was decrypted. *)
Definition exchange (cs : SessionInner) (r : AtbRegistry.t) (m : message) : option (bytes * bytes) * (SessionInner * AtbRegistry.t) :=
  let '(sent, cs) := trusted_request (m_sent m) cs (m_method m) (m_path m) (m_query m) (m_authority m) (m_body m) (m_extra m) in
  match sent with
  | Err _ => (None, (cs, r))
  | Ok (hdrs, b) =>
      let '(got, r) := decrypt_request (m_received m) r (m_net m hdrs b) in
      let '(sess, r) := from_request_parts (m_received m) r (m_net m hdrs b) in
      match got, sess with
      | Ok p, Ok sess =>
          let '(resp, sess) := seal (m_answered m) sess (m_response m) in
          let r := AtbRegistry.update r (id (ohs_session sess)) (ohs_session sess) in
          match resp with
          | Ok sealed =>
              let '(o, cs) := unseal_response_body (m_returned m) cs (resp_body sealed) (request_aad (id cs)) in
              (match o with Ok q => Some (p, q) | Err _ => None end, (cs, r))
          | Err _ => (None, (cs, r))
          end
      | _, _ => (None, (cs, r))
      end
  end.

Fixpoint conversation (cs : SessionInner) (r : AtbRegistry.t) (ms : list message) : list (option (bytes * bytes)) :=
  match ms with
  | [] => []
  | m :: ms => let '(o, (cs, r)) := exchange cs r m in o :: conversation cs r ms
  end.

(** A message that can be exchanged between two ends. *)
Definition exchangeable (i : AtbId) (exp_c exp_s : Z) (m : message) : Prop :=
  sendable (m_method m) (m_path m) (m_query m) (m_authority m) i (m_extra m) (m_body m) ∧
  (∀ hdrs b, delivers (m_method m) (m_path m) (m_query m) (m_authority m) hdrs b (m_net m hdrs b)) ∧
  (∃ pt, value_to_vec (m_response m) = Some pt ∧ Z.of_nat (length pt) ≤ 2 ^ 36 - 32) ∧
  m_sent m < exp_c ∧ m_returned m < exp_c ∧ m_received m < exp_s ∧ m_answered m < exp_s.

Lemma synced_refl cs ss : synced cs ss → synced ss ss.
Proof using. intros []. split; naive_solver. Qed.
Lemma synced_keys_wf cs ss : synced cs ss → keys_wf (keys cs).
Proof using. intros []. by rewrite sync_keys0. Qed.

Lemma exchange_ok cs ss r m :
  synced cs ss → AtbRegistry.sessions r !! id ss = Some ss → exchangeable (id ss) (expires_at cs) (expires_at ss) m →
  client_counter ss < u64_max → server_counter ss < u64_max →
  ∃ pt cs' ss' r', value_to_vec (m_response m) = Some pt ∧
    exchange cs r m = (Some (m_body m, pt), (cs', r')) ∧ synced cs' ss' ∧ AtbRegistry.sessions r' !! id ss' = Some ss' ∧
    id ss' = id ss ∧ expires_at cs' = expires_at cs ∧ expires_at ss' = expires_at ss ∧
    client_counter ss' = client_counter ss + 1 ∧ server_counter ss' = server_counter ss + 1.
Proof using AL UL XL BL JL JXL.
  intros Hsync Hr (Hsend & Hnet & (pt & Hpt & Hlen) & Ht1 & Ht4 & Ht2 & Ht3) Hc Hs.
  pose proof (sync_phase _ _ Hsync) as [Hph1 Hph2].
  destruct (client_sends (m_sent m) cs ss (m_method m) (m_path m) (m_query m) (m_authority m) (m_body m) (m_extra m))
    as (ct & ahl & Hahl & Hct & Hreq); [done|by split|done|done|].
  unfold exchange. rewrite Hreq. set (hdrs := hm_insert _ STR_CONTENT_TYPE _). set (b := ciphertext_to_json _).
  specialize (Hnet hdrs b).
  erewrite (server_accepts (m_received m) r ss); [|by eapply synced_refl|by split|done|exact Hsend|done|exact Hahl|exact Hct|done|done|exact Hnet].
  pose proof (synced_committed _ _ Hsync) as Hsync1. set (cs1 := committed cs _) in *. set (ss1 := committed ss _) in *.
  set (r1 := AtbRegistry.update r (id ss) ss1).
  assert (AtbRegistry.sessions r1 !! id ss = Some ss1) as Hr1 by apply lookup_insert_eq.
  rewrite (parts_ok (m_received m) r1 _ (id ss) ss1); [|apply Hsync| |done|done].
  2:{ destruct Hnet as [_ _ _ _ (extras & Hex & ->) _]. destruct Hsync as [_ _ _ _ _ _ _ [? _] _].
      by edestruct (server_reads (id ss) (m_extra m) (client_counter ss)) as (Hb & _); [| |exact Hb]; [unfold is_u64; lia|]. }
  change (id ss) with (id ss1).
  destruct (server_seals (m_answered m) ss1 (m_response m) pt) as (ct2 & Hct2 & Hseal); [apply Hsync1|by split|done|done|done|].
  rewrite Hseal. cbn [resp_body ohs_session].
  assert (id cs1 = id ss1) as -> by apply Hsync1.
  rewrite (client_opens (m_returned m) cs1 ct2 pt); [|by eapply synced_keys_wf|by split|rewrite (sync_server_counter _ _ Hsync1); done| ].
  2:{ by rewrite (sync_keys _ _ Hsync1), (sync_server_counter _ _ Hsync1). }
  exists pt, (answered cs1), (answered ss1). eexists. split_and!; try done; [by apply synced_answered|].
  apply lookup_insert_eq.
Qed.

Lemma conversation_all cs ss r ms :
  synced cs ss → AtbRegistry.sessions r !! id ss = Some ss →
  Forall (exchangeable (id ss) (expires_at cs) (expires_at ss)) ms →
  client_counter ss + Z.of_nat (length ms) ≤ u64_max → server_counter ss + Z.of_nat (length ms) ≤ u64_max →
  conversation cs r ms = (λ m, Some (m_body m, default [] (value_to_vec (m_response m)))) <$> ms.
Proof using AL UL XL BL JL JXL.
  intros Hsync Hr Hms. revert cs ss r Hsync Hr Hms. induction ms as [|m ms IH]; intros cs ss r Hsync Hr Hms Hc Hs; [done|].
  apply Forall_cons in Hms as [Hm Hms]. cbn [length] in *.
  destruct (exchange_ok cs ss r m Hsync Hr Hm ltac:(lia) ltac:(lia))
    as (pt & cs' & ss' & r' & Hpt & Hex & Hsync' & Hr' & Hid & He1 & He2 & Hc' & Hs').
  cbn [conversation fmap list_fmap]. rewrite Hex, Hpt. f_equal.
  apply (IH cs' ss'); [done|done|by rewrite Hid, He1, He2|lia|lia].
Qed.

(** ** Inversion of the server's side *)

Lemma to_str_Some v s : to_str v = Some s → v = as_bytes s.
Proof using. unfold to_str, as_bytes. case_match; [|done]. intros [= <-]. by rewrite list_ascii_of_string_of_list_ascii. Qed.

Lemma ticket_nonce_u64 hs t : decode_attest_ticket hs = Ok t → is_u64 (dt_nonce t).
Proof using.
  unfold decode_attest_ticket. intros (b & _ & H)%bind_Ok. unfold parse_ticket in H.
  pose proof (from_be_range (take 8 b)) as Hr. destruct (decide (length b < 9)%nat) as [|Hb]; [done|].
  rewrite length_take, Nat.min_l in Hr by lia. change (256 ^ Z.of_nat 8) with (2 ^ 64) in Hr.
  assert (dt_nonce t = from_be (take 8 b)) as -> by (repeat case_match; by simplify_eq).
  unfold is_u64, u64_max. lia.
Qed.

Lemma from_request_parts_Ok now r req sess r' :
  from_request_parts now r req = (Ok sess, r') →
  ∃ bs i s, hm_get (headers req) STR_ATTEST_BASE_ID = Some (as_bytes bs) ∧ uuid_parse bs = Some i ∧
    AtbRegistry.sessions r !! i = Some s ∧ now < expires_at s ∧ sess = mk_ohs s (AAD_PREFIX ++ as_bytes bs) ∧ r' = r.
Proof using.
  unfold from_request_parts. destruct (hm_get _ _) as [v|]; [|done]. cbn [mbind option_bind].
  destruct (to_str v) as [bs|] eqn:Hbs; [|done]. destruct (uuid_parse bs) as [i|] eqn:Hi; [|done].
  unfold AtbRegistry.get. destruct (AtbRegistry.sessions r !! i) as [s|] eqn:Hs; [|done].
  unfold AttestSession.is_alive. case_bool_decide; [|done]. intros [= <- <-]. exists bs, i, s.
  split_and!; try done. f_equal. by apply to_str_Some.
Qed.

Lemma request_open_Ok req n mac aad ct k c p :
  request_open req n mac aad ct k c = Ok p →
  server_authority req ≠ EmptyString ∧ ∃ ahl,
    canonicalize_ahl (method req) (server_path req) (server_query req) (server_authority req) (headers req) = Ok ahl ∧
    mac = hmac_sha384 (client_mac_key k) (u64_be n ++ ahl) ∧
    AeadKey.seal_in_place (AeadKey.mk (client_write_key k) Aes256Gcm) (build_aead_nonce n (client_write_iv k)) aad p = Ok ct.
Proof using AL.
  unfold request_open. destruct (decide (server_authority req = EmptyString)) as [|Ha]; [done|].
  intros (ahl & Hahl%map_err_Ok & H)%bind_Ok. split; [done|]. exists ahl.
  destruct (decide (hmac_sha384 _ _ = mac)) as [<-|]; [|done]. apply bind_Ok in H as (bk & Hbk%map_err_Ok & Hopen%map_err_Ok).
  unfold BoundAeadKey.new, BoundAeadKey.with_sequence in Hbk. apply bind_Ok in Hbk as (k0 & [-> _]%AeadKey.new_wf & [= <-]).
  split_and!; [done|done|]. by apply AeadKey.open_seal_iff in Hopen.
Qed.

(** A response that is opened with a counter that the server has passed. *)
Definition behind (cs ss : SessionInner) : Prop :=
  id cs = id ss ∧ keys cs = keys ss ∧ server_counter cs + 1 = server_counter ss.

End exchange.

(** ** Properties *)

(** [C4] A request whose body the server decrypts names a live, attested session;
    its ticket carries the MAC, under the session's client key, of the ticket's
    nonce and of the method, path, query, authority and attested headers; its
    body is the encryption of the returned plaintext under that nonce; and the
    nonce was not used before in the session and cannot be used again. *)
Theorem accepted_request_sound {AP : AeadPrim} {AL : AeadLaws AP} {HaP : HashPrim} {MP : HmacPrim} {UP : UuidPrim} {XP : HexPrim}
    {BP : Base64Prim} {X : JsonExtractor} (now : Z) (r r' : AtbRegistry.t) (req : Request) (p : bytes) (seen : AtbId → list Z) :
  decrypt_request now r req = (Ok p, r') →
  (∀ i s, AtbRegistry.sessions r !! i = Some s → AttestSession.remembers s (seen i)) →
  ∃ bs i s s' t hex ct ahl,
    hm_get (headers req) STR_ATTEST_BASE_ID = Some (as_bytes bs) ∧ uuid_parse bs = Some i ∧
    AtbRegistry.sessions r !! i = Some s ∧ now < expires_at s ∧ allows_trusted_request (phase s) = true ∧
    decode_attest_ticket (headers req) = Ok t ∧ server_authority req ≠ EmptyString ∧
    canonicalize_ahl (method req) (server_path req) (server_query req) (server_authority req) (headers req) = Ok ahl ∧
    dt_mac t = hmac_sha384 (client_mac_key (keys s)) (u64_be (dt_nonce t) ++ ahl) ∧
    json_extract req = Ok hex ∧ hex_decode hex = Some ct ∧
    AeadKey.seal_in_place (AeadKey.mk (client_write_key (keys s)) Aes256Gcm)
      (build_aead_nonce (dt_nonce t) (client_write_iv (keys s))) (AAD_PREFIX ++ as_bytes bs) p = Ok ct ∧
    (dt_nonce t ∉ seen i) ∧ r' = AtbRegistry.update r (id s') s' ∧ AttestSession.remembers s' (dt_nonce t :: seen i).
Proof.
  unfold decrypt_request. intros H Hseen. destruct (from_request_parts now r req) as [[sess|] r1] eqn:Hparts; [|done].
  apply from_request_parts_Ok in Hparts as (bs & i & s & Hbs & Hi & Hs & Hnow & -> & ->). cbn [ohs_session ohs_aad] in H.
  destruct (decode_attest_ticket _) as [t|] eqn:Ht; [|done]. destruct (json_extract req) as [hex|] eqn:Hhex; [|done].
  destruct (hex_decode hex) as [ct|] eqn:Hct; [|done].
  set (f := request_open req (dt_nonce t) (dt_mac t) (AAD_PREFIX ++ as_bytes bs) ct) in H.
  pose proof (AttestSession.trr_remembers now s (dt_nonce t) f (seen i) (ticket_nonce_u64 _ _ Ht) (Hseen i s Hs)) as Hrem.
  destruct (AttestSession.with_keys_for_trr now s (dt_nonce t) f) as [[[p0|]|] s'] eqn:Htrr; [|done..].
  injection H as -> <-. destruct Hrem as [Hfresh Hrem]. apply AttestSession.with_keys_for_trr_Ok in Htrr as [Hph Hf].
  apply request_open_Ok in Hf as (Ha & ahl & Hahl & Hmac & Hseal).
  exists bs, i, s, s', t, hex, ct, ahl. by split_and!.
Qed.

(** [C3] Client and server of a fresh session understand each other: over any
    sequence of requests and responses that all arrive while the session lives,
    the server reads exactly the bodies that the client sent and the client
    exactly the responses of the handler, whatever headers the transport adds. *)
Theorem conversation_ok {AP : AeadPrim} {AL : AeadLaws AP} {HaP : HashPrim} {MP : HmacPrim} {UP : UuidPrim} {UL : UuidLaws UP}
    {XP : HexPrim} {XL : HexLaws XP} {BP : Base64Prim} {BL : Base64Laws BP} {J : CiphertextJson} {JL : CiphertextJsonLaws J}
    {X : JsonExtractor} {JXL : JsonExtractorLaws J X} {T : Type} {V : ValueJson T}
    (i : AtbId) cs v k (t1 t2 : Z) ar (r : AtbRegistry.t) (ms : list (message (T := T))) :
  let client := AttestSession.new i cs v k t1 default_strategy None in
  let server := AttestSession.new i cs v k t2 StrictMonotonic ar in
  length i = 16%nat → keys_wf k → AtbRegistry.sessions r !! i = Some server →
  Forall (exchangeable i t1 t2) ms → Z.of_nat (length ms) < u64_max →
  conversation client r ms = (λ m, Some (m_body m, default [] (value_to_vec (m_response m)))) <$> ms.
Proof.
  intros client server Hi Hk Hr Hms Hlen. apply (conversation_all client server); [|done|done|simpl; lia|simpl; lia].
  by apply synced_new.
Qed.

(** ** Examples *)

Module ToyExchange.

#[global] Instance json : CiphertextJson := {
  ciphertext_to_json s := as_bytes s;
  ciphertext_of_json b := Some (string_of_list_ascii b);
}.
#[global] Instance json_laws : CiphertextJsonLaws json.
Proof. split. intros s. simpl. unfold as_bytes. by rewrite string_of_list_ascii_of_string. Qed.

#[global] Instance extractor : JsonExtractor := λ req,
  if decide (hm_get (headers req) STR_CONTENT_TYPE = Some (as_bytes "application/json"))
  then Ok (string_of_list_ascii (body req)) else Err 415.
#[global] Instance extractor_laws : JsonExtractorLaws json extractor.
Proof.
  intros req s Hc Hb. unfold json_extract, extractor. rewrite decide_True by done. rewrite Hb. simpl. unfold as_bytes.
  by rewrite string_of_list_ascii_of_string.
Qed.

#[global] Instance values : ValueJson bytes := {
  value_to_vec v := Some v;
  value_from_slice b := Some b;
}.

Definition sid : AtbId := replicate 16 (u8_of 5).
Definition keys : SessionKeys :=
  mk_keys (replicate 48 (u8_of 1)) (replicate 48 (u8_of 2)) (replicate 32 (u8_of 3)) (replicate 32 (u8_of 4))
    (replicate 12 (u8_of 5)) (replicate 12 (u8_of 6)) (replicate 32 (u8_of 7)) (replicate 32 (u8_of 8)) (replicate 48 (u8_of 9)).
Definition session (exp : Z) : SessionInner :=
  AttestSession.new sid X25519MlKem768Aes256GcmSha384 V2 keys exp default_strategy None.
Definition server_session : SessionInner :=
  AttestSession.new sid X25519MlKem768Aes256GcmSha384 V2 keys 2000 StrictMonotonic None.
Definition registry : AtbRegistry.t := (AtbRegistry.insert AtbRegistry.new server_session).2.

(** HTTP/1.1: the authority travels in the [Host] header. *)
Definition net (m p : string) (q : option string) (a : string) (hdrs : HeaderMap) (b : bytes) : Request :=
  mk_request m p q None None (add_headers hdrs [("host"%string, as_bytes a); ("user-agent"%string, as_bytes "x")]) b.

Definition msg (p : string) (b response : bytes) (t : Z) : message (T := bytes) :=
  mk_message "POST" p (Some "q=1"%string) "example.org" None b (net "POST" p (Some "q=1"%string) "example.org") response t t t t.
Definition msgs : list message := [msg "/a" (as_bytes "one") (as_bytes "uno") 10; msg "/b" (as_bytes "two") (as_bytes "due") 20].

Lemma msg_ok p b response t :
  Z.of_nat (length b) ≤ 2 ^ 36 - 32 → Z.of_nat (length response) ≤ 2 ^ 36 - 32 → t < 1000 →
  exchangeable sid 1000 2000 (msg p b response t).
Proof.
  intros Hb Hr Ht. split_and!; simpl; [| |by exists response|lia..].
  - split_and!; [done|by_compute|done].
  - intros hdrs b'. split; try done.
    + unfold server_authority, net. simpl.
      rewrite hm_get_insert_ne, hm_get_insert by done. by vm_compute.
    + exists [("host"%string, as_bytes "example.org"); ("user-agent"%string, as_bytes "x")]. split; [|done].
      repeat apply Forall_cons_2; [by_compute..|apply Forall_nil_2].
Qed.

End ToyExchange.

Lemma conversation_ok_witness :
  conversation (AP := Toy.aead) (MP := Toy.hmac) (BP := ToyBase64.prim)
    (ToyExchange.session 1000) ToyExchange.registry ToyExchange.msgs =
  [Some (as_bytes "one", as_bytes "uno"); Some (as_bytes "two", as_bytes "due")].
Proof.
  apply (conversation_ok (AL := Toy.aead_laws) (UL := ToyWeb.uuid_laws) (XL := ToyWeb.hex_laws) (BL := ToyBase64.laws)
    (JL := ToyExchange.json_laws) (JXL := ToyExchange.extractor_laws) (HaP := Toy.hash) (MP := Toy.hmac) (V := ToyExchange.values)
    ToyExchange.sid X25519MlKem768Aes256GcmSha384 V2 ToyExchange.keys 1000 2000 None ToyExchange.registry ToyExchange.msgs).
  - reflexivity.
  - by_compute.
  - vm_compute. reflexivity.
  - repeat apply Forall_cons_2; [apply ToyExchange.msg_ok; by_compute..|apply Forall_nil_2].
  - by_compute.
Defined.

Lemma accepted_request_sound_witness :
  let sent := (trusted_request (AP := Toy.aead) (MP := Toy.hmac) (BP := ToyBase64.prim) 10 (ToyExchange.session 1000)
    "POST" "/a" None "example.org" (as_bytes "one") None).1 in
  ∃ hdrs b req r', sent = Ok (hdrs, b) ∧ req = ToyExchange.net "POST" "/a" None "example.org" hdrs b ∧
    decrypt_request (AP := Toy.aead) (MP := Toy.hmac) (BP := ToyBase64.prim) 10 ToyExchange.registry req = (Ok (as_bytes "one"), r') ∧
    ∃ t s', decode_attest_ticket (BP := ToyBase64.prim) (headers req) = Ok t ∧
      r' = AtbRegistry.update ToyExchange.registry (id s') s' ∧ AttestSession.remembers s' [dt_nonce t].
Proof.
  intros sent.
  destruct sent as [[hdrs b]|] eqn:Hsent; [|vm_compute in Hsent; discriminate Hsent].
  set (req := ToyExchange.net "POST" "/a" None "example.org" hdrs b).
  destruct (decrypt_request (AP := Toy.aead) (MP := Toy.hmac) (BP := ToyBase64.prim) 10 ToyExchange.registry req) as [p r'] eqn:Hdec.
  assert (p = Ok (as_bytes "one")) as ->.
  { change p with (p, r').1. rewrite <-Hdec. vm_compute in Hsent. injection Hsent as <- <-. vm_compute. reflexivity. }
  exists hdrs, b, req, r'. split_and!; [reflexivity|reflexivity|exact Hdec|].
  destruct (accepted_request_sound (AL := Toy.aead_laws) (HaP := Toy.hash) (MP := Toy.hmac) (BP := ToyBase64.prim)
    10 ToyExchange.registry r' req (as_bytes "one") (λ _, []) Hdec)
    as (bs & i & s & s' & t & hex & ct & ahl & _ & _ & _ & _ & _ & Ht & _ & _ & _ & _ & _ & _ & _ & Hr' & Hrem).
  - intros i s Hs. change (AtbRegistry.sessions ToyExchange.registry) with ({[ToyExchange.sid := ToyExchange.server_session]} : gmap AtbId SessionInner) in Hs.
    apply lookup_singleton_Some in Hs as [_ <-]. apply AttestSession.remembers_new.
  - exists t, s'. split_and!; [exact Ht|exact Hr'|exact Hrem].
Defined.

(** ** Streams *)

Section streams.
Context {AP : AeadPrim} {AL : AeadLaws AP} {HaP : HashPrim}.

Lemma seal_response_ok k c aad data :
  keys_wf k → Z.of_nat (length data) ≤ 2 ^ 36 - 32 →
  ∃ ct, seal_response k c aad data = Ok ct ∧ length ct = (length data + TAG_LEN)%nat ∧
    AeadKey.open_in_place (AeadKey.mk (server_write_key k) Aes256Gcm) (build_aead_nonce c (server_write_iv k)) aad ct = Ok data.
Proof using AL.
  intros (_ & _ & _ & Hk & _) Hd. unfold seal_response.
  assert (AeadKey.new Aes256Gcm (server_write_key k) = Ok (AeadKey.mk (server_write_key k) Aes256Gcm)) as ->
    by (by apply AeadKey.new_wf).
  destruct (AeadKey.seal_total (AeadKey.mk (server_write_key k) Aes256Gcm) (build_aead_nonce c (server_write_iv k)) aad data)
    as [ct Hct]; [done|done|].
  exists ct. cbn [map_err mbind result_bind]. rewrite Hct. split_and!; [done|by eapply AeadKey.seal_length|].
  by apply AeadKey.open_seal_iff.
Qed.

(** One item: the frame that the server produces, and the client's reading of it. *)
Lemma stream_item_ok ss now aad h p :
  ready now ss → keys_wf (keys ss) → is_u64 (server_counter ss) → server_counter ss < u64_max →
  Z.of_nat (length p) + Z.of_nat TAG_LEN ≤ u32_max →
  ∃ f h', seal_stream_item now ss aad h p = (Some f, h', answered ss) ∧ StreamFrameReader.frame_ok None f ∧
    ∀ cs t, keys cs = keys ss → ready t cs → server_counter cs < u64_max →
      open_frame t cs aad h f = (Ok (p, h'), answered cs).
Proof using AL.
  intros Hready Hk Hc Hlt Hp. unfold u32_max in Hp.
  destruct (seal_response_ok (keys ss) (server_counter ss) (aad ++ h) p) as (ct & Hct & Hlen & Hopen); [done|lia|].
  exists (mk_frame (server_counter ss) ct), (sha384 (h ++ ct)). split_and!.
  - unfold seal_stream_item. rewrite trs_ready by done. unfold chunk_closure. rewrite Hct. cbn [mbind result_bind].
    rewrite decide_False by (destruct Hready; lia). reflexivity.
  - unfold StreamFrameReader.frame_ok, u32_max. simpl. rewrite Hlen. split_and!; [done|lia|done].
  - intros cs t Hkeys Hrdy Hcs. unfold open_frame. rewrite trs_ready by done. rewrite Hkeys.
    assert (AeadKey.new Aes256Gcm (server_write_key (keys ss)) = Ok (AeadKey.mk (server_write_key (keys ss)) Aes256Gcm)) as ->
      by (apply AeadKey.new_wf; split; [done|apply Hk]).
    cbn [map_err mbind result_bind counter ciphertext]. rewrite Hopen. reflexivity.
Qed.

Lemma stream_ok cs ss aad h items ts :
  keys cs = keys ss → keys_wf (keys ss) → 0 ≤ server_counter ss → 0 ≤ server_counter cs →
  server_counter ss + Z.of_nat (length items) ≤ u64_max → server_counter cs + Z.of_nat (length items) ≤ u64_max →
  Forall (λ it, ready it.1 ss ∧ Z.of_nat (length it.2) + Z.of_nat TAG_LEN ≤ u32_max) items →
  length ts = length items → Forall (λ t, ready t cs) ts →
  ∃ fs, (seal_stream ss aad h items).1 = Some <$> fs ∧ Forall (StreamFrameReader.frame_ok None) fs ∧
    (open_frames cs aad h (zip ts fs)).1 = Ok <$> items.*2 ∧ length fs = length items.
Proof using AL.
  revert cs ss h ts. induction items as [|[now p] items IH]; intros cs ss h ts Hkeys Hk H0s H0c Hs Hc Hits Hlen Hts.
  { exists []. destruct ts; [|done]. by repeat constructor. }
  destruct ts as [|t ts]; [done|]. apply Forall_cons in Hits as [[Hready Hp] Hits], Hts as [Ht Hts]. cbn [length fst snd] in *.
  destruct (stream_item_ok ss now aad h p) as (f & h' & Hitem & Hf & Hopen); [done|done|unfold is_u64; lia|lia|done|].
  destruct (IH (answered cs) (answered ss) h' ts) as (fs & Hfs & Hok & Hrd & Hl); try done; simpl; try lia.
  exists (f :: fs). cbn [seal_stream]. rewrite Hitem. destruct (seal_stream (answered ss) aad h' items) as [os s2].
  simpl in Hfs. subst os. split_and!; [done|by constructor| |simpl; lia].
  cbn [zip zip_with open_frames]. rewrite Hopen by (done || lia).
  destruct (open_frames (answered cs) aad h' (zip ts fs)) as [rs s3]. simpl in *. by rewrite Hrd.
Qed.

End streams.

(** A streamed response arrives as it was sent: the frames that the server
    makes of a sequence of values, cut into chunks in any way, are read and
    decrypted by the client to exactly these values, in order, and then the
    stream ends. *)
Theorem stream_response_ok {AP : AeadPrim} {AL : AeadLaws AP} {HaP : HashPrim} (cs ss : SessionInner) (aad h : bytes)
    (items : list (Z * bytes)) (ts : list Z) (chunks : list bytes) (n : nat) :
  keys cs = keys ss → keys_wf (keys ss) → 0 ≤ server_counter ss → 0 ≤ server_counter cs →
  server_counter ss + Z.of_nat (length items) ≤ u64_max → server_counter cs + Z.of_nat (length items) ≤ u64_max →
  Forall (λ it, ready it.1 ss ∧ Z.of_nat (length it.2) + Z.of_nat TAG_LEN ≤ u32_max) items →
  length ts = length items → Forall (λ t, ready t cs) ts →
  ∃ fs, (seal_stream ss aad h items).1 = Some <$> fs ∧
    (∀ f, f ∈ fs → encode_frame f = Returns (StreamFrameReader.wire f)) ∧
    (concat chunks = StreamFrameReader.wires fs →
     StreamFrameReader.poll None (length fs + S n) (StreamFrameReader.new (Ok <$> chunks)) = Ok <$> fs) ∧
    (open_frames cs aad h (zip ts fs)).1 = Ok <$> items.*2.
Proof.
  intros Hkeys Hk H0s H0c Hs Hc Hits Hlen Hts.
  destruct (stream_ok cs ss aad h items ts) as (fs & Hfs & Hok & Hrd & Hl); try done. exists fs. split_and!; try done.
  - intros f Hf. rewrite Forall_forall in Hok. by apply (StreamFrameReader.encode_frame_wire None), Hok.
  - intros Hch. by apply StreamFrameReader.poll_all.
Qed.

Lemma stream_response_ok_witness :
  let items := [(10, as_bytes "hello"); (20, as_bytes "world")] in
  ∃ fs, (seal_stream (AP := Toy.aead) (HaP := Toy.hash) (ToyExchange.session 2000) [] (replicate 48 NUL) items).1 = Some <$> fs ∧
    (open_frames (AP := Toy.aead) (HaP := Toy.hash) (ToyExchange.session 1000) [] (replicate 48 NUL) (zip [11; 21] fs)).1 =
      [Ok (as_bytes "hello"); Ok (as_bytes "world")].
Proof.
  destruct (stream_response_ok (AL := Toy.aead_laws) (HaP := Toy.hash) (ToyExchange.session 1000) (ToyExchange.session 2000) []
    (replicate 48 NUL) [(10, as_bytes "hello"); (20, as_bytes "world")] [11; 21] [] 0) as (fs & Hfs & _ & _ & Hrd).
  1: reflexivity.
  1-5: by_compute.
  1: repeat apply Forall_cons_2; [split; [split; [by_compute|reflexivity]|by_compute]..|apply Forall_nil_2].
  1: reflexivity.
  1: repeat apply Forall_cons_2; [split; [by_compute|reflexivity]..|apply Forall_nil_2].
  exists fs. split; [exact Hfs|exact Hrd].
Defined.

(** Streaming a request chunk records a random 64-bit nonce in the client's
    own replay window.  Once that nonce is more than a window ahead of the
    counter, as it almost always is, every further ordinary request of the
    session is refused by the client itself as a replay. *)
Theorem streaming_locks_session {AP : AeadPrim} {HaP : HashPrim} {MP : HmacPrim} {UP : UuidPrim} {BP : Base64Prim}
    (cs cs' : SessionInner) (w now t nonce : Z) (aad h chunk : bytes) (fr : StreamFrame * bytes)
    meth p q a b aad' extra :
  replay_strategy cs = SlidingWindow w → 0 < client_counter cs → ReplayGuard.highest (replay_guard cs) < nonce →
  seal_chunk now cs aad h chunk nonce = (Ok fr, cs') →
  client_counter cs + 1 + SESSION_W * 64 ≤ nonce → ready t cs →
  seal_request_body t cs' meth p q a b aad' extra = (Err (ClientHandshake "replay nonce rejected"), cs').
Proof.
  intros Hst Hc0 Hhigh Hseal Hfar [Ht Hph].
  assert (cs' = committed cs nonce) as ->.
  { unfold seal_chunk, AttestSession.with_keys_for_trr, AttestSession.replay_check, AttestSession.replay_commit in Hseal.
    unfold committed. rewrite Hst, Hph in *. cbn [allows_trusted_request negb] in Hseal. case_decide; [done|].
    destruct (ReplayGuard.check _ _ _); [|done]. rewrite Hst in Hseal.
    match type of Hseal with context [match ?m with Ok _ => _ | Err _ => _ end] => destruct m end; [|done].
    simpl in Hseal. unfold checked_add64 in Hseal. case_decide; by simplify_eq/=. }
  unfold seal_request_body, AttestSession.with_keys_for_next_trr, AttestSession.with_keys_for_trr, AttestSession.replay_check.
  rewrite decide_False by (simpl; lia). change (phase (committed cs nonce)) with (phase cs). rewrite Hph. cbn [allows_trusted_request negb].
  change (replay_strategy (committed cs nonce)) with (replay_strategy cs). rewrite Hst.
  change (client_counter (committed cs nonce)) with (client_counter cs + 1).
  assert (replay_guard (committed cs nonce) = ReplayGuard.accept SESSION_W (replay_guard cs) nonce) as ->
    by (unfold committed; simpl; by rewrite Hst).
  unfold ReplayGuard.check. rewrite highest_accept by done. unfold SESSION_W in *.
  rewrite decide_False, decide_False, decide_True by lia. done.
Qed.

Lemma streaming_locks_session_witness :
  let r := seal_chunk (AP := Toy.aead) (HaP := Toy.hash) 10 (ToyExchange.session 1000) [] [] (as_bytes "chunk") (2 ^ 63) in
  is_ok r.1 = true ∧
  (seal_request_body (AP := Toy.aead) (MP := Toy.hmac) (BP := ToyBase64.prim) 11 r.2 "GET" "/" None "a" [] [] None).1 =
    Err (ClientHandshake "replay nonce rejected").
Proof.
  intros r. destruct r as [[fr|] cs'] eqn:Hr; [|vm_compute in Hr; discriminate Hr]. split; [reflexivity|]. simpl.
  rewrite (streaming_locks_session (AP := Toy.aead) (HaP := Toy.hash) (MP := Toy.hmac) (BP := ToyBase64.prim)
    (ToyExchange.session 1000) cs' 64 10 11 (2 ^ 63) [] [] (as_bytes "chunk") fr).
  all: first [reflexivity|exact Hr|by_compute|split; [by_compute|reflexivity]].
Defined.

(** The two response counters are never reconciled: when one sealed response
    was lost, the client is one counter behind; the next response does not open
    (the AEAD binds the nonce), and after it the client is still one behind. *)
Theorem lost_response_desyncs {AP : AeadPrim} {AL : AeadLaws AP} {UP : UuidPrim} {XP : HexPrim} {XL : HexLaws XP}
    {J : CiphertextJson} {JL : CiphertextJsonLaws J} {T : Type} {V : ValueJson T}
    (cs ss : SessionInner) (v : T) (pt : bytes) (t1 t2 : Z) :
  behind cs ss → keys_wf (keys ss) → ready t1 ss → ready t2 cs → server_counter ss < u64_max →
  value_to_vec v = Some pt → Z.of_nat (length pt) ≤ 2 ^ 36 - 32 →
  (∀ ct, let key := AeadKey.mk (server_write_key (keys ss)) Aes256Gcm in
    let nonce c := build_aead_nonce c (server_write_iv (keys ss)) in
    AeadKey.seal_in_place key (nonce (server_counter ss)) (request_aad (id ss)) pt = Ok ct →
    is_ok (AeadKey.open_in_place key (nonce (server_counter cs)) (request_aad (id ss)) ct) = false) →
  ∃ sealed, seal t1 (mk_ohs ss (request_aad (id ss))) v = (Ok sealed, mk_ohs (answered ss) (request_aad (id ss))) ∧
    unseal_response_body t2 cs (resp_body sealed) (request_aad (id cs)) =
      (Err (ClientHandshake "Decryption failed"), answered cs) ∧
    behind (answered cs) (answered ss).
Proof.
  intros (Hid & Hkeys & Hcnt) Hk Hr1 Hr2 Hc Hv Hpt Hbind.
  destruct (server_seals t1 ss v pt) as (ct & Hct & Hseal); try done. eexists. split; [exact Hseal|]. split.
  - cbn [resp_body]. unfold unseal_response_body. rewrite ciphertext_round_trip. cbn [mbind option_bind].
    rewrite hex_decode_encode, trs_ready by (done || lia). unfold open_message, BoundAeadKey.new, BoundAeadKey.with_sequence.
    rewrite Hkeys, Hid. specialize (Hbind ct Hct). destruct Hk as (_ & _ & _ & Hk & _).
    assert (AeadKey.new Aes256Gcm (server_write_key (keys ss)) = Ok (AeadKey.mk (server_write_key (keys ss)) Aes256Gcm)) as ->
      by (by apply AeadKey.new_wf).
    cbn [map_err mbind result_bind]. unfold BoundAeadKey.open. cbn [BoundAeadKey.key] in *.
    by destruct (AeadKey.open_in_place _ _ _ ct).
  - split_and!; [done|done|simpl; lia].
Qed.

Lemma lost_response_desyncs_witness :
  let ss := answered (ToyExchange.session 2000) in let cs := ToyExchange.session 1000 in
  ∃ sealed, (seal (AP := Toy.aead) (T := bytes) 10 (mk_ohs ss (request_aad (id ss))) (as_bytes "x")).1 = Ok sealed ∧
    (unseal_response_body (AP := Toy.aead) 11 cs (resp_body sealed) (request_aad (id cs))).1 =
      Err (ClientHandshake "Decryption failed").
Proof.
  destruct (lost_response_desyncs (AL := Toy.aead_laws) (XL := ToyWeb.hex_laws) (JL := ToyExchange.json_laws) (T := bytes)
    (V := ToyExchange.values) (ToyExchange.session 1000) (answered (ToyExchange.session 2000)) (as_bytes "x") (as_bytes "x") 10 11)
    as (sealed & Hs & Hu & _).
  1-8: first [by_compute|split; [by_compute|reflexivity]|reflexivity|
    intros ct key nonce [= <-]; vm_compute; reflexivity|split_and!; reflexivity].
  exists sealed. rewrite Hs, Hu. split; reflexivity.
Defined.
