(* ===== verification/Hpke.v ===== *)
(** * Encrypted client hello

    [crates/openhttpa-crypto/src/hpke.rs]: ML-KEM-768 to the server's semi-static
    key, then AES-256-GCM under a key and a nonce that are both derived from the
    shared secret; and the framing of the result in the handshake request
    ([crates/openhttpa-server/src/handlers.rs]). *)

From S2P Require Import Prelude Crypto Aead Proto KeySchedule KeyExchange.
From stdpp Require Import options.

#[local] Open Scope Z_scope.

Inductive HpkeError : Type :=
| HpkePqc (msg : string)
| Encryption (msg : string)
| Decryption.
#[export] Instance HpkeError_eq_dec : EqDecision HpkeError.
Proof. solve_decision. Defined.

Record HpkeCiphertext : Type := mk_hpke { mlkem_ct : bytes; payload_ct : bytes; hpke_tag : bytes }.

Section hpke.
Context {AP : AeadPrim} {KP : KexPrim}.

Definition HPKE_KEY_INFO : bytes := as_bytes "openhttpa_hpke_key".
Definition HPKE_NONCE_INFO : bytes := as_bytes "openhttpa_hpke_nonce".

(** [Hkdf::<Sha256>::new(None, ..)]: the salt is 32 zero bytes. *)
Definition hpke_expand (shared_secret info : bytes) (len : nat) : option bytes :=
  hkdf_sha256 (replicate 32 NUL) shared_secret info len.

(** [HpkeClient::seal]; [pair] says whether the ephemeral pair, which is not used
    further, could be generated, and [rand] is the encapsulation's randomness. *)
Definition hpke_seal (pair : bool) (rand tee_mlkem_public_key payload : bytes) : result HpkeError HpkeCiphertext :=
  _ ← (if pair then Ok () else Err (HpkePqc "KEM key generation failed"));
  '(shared_secret, mlkem_ct) ← ok_or (mlkem_encap tee_mlkem_public_key rand) (HpkePqc "KEM encapsulation failed");
  key_bytes ← ok_or (hpke_expand shared_secret HPKE_KEY_INFO 32) (Encryption "hkdf failed");
  nonce_bytes ← ok_or (hpke_expand shared_secret HPKE_NONCE_INFO 12) (Encryption "hkdf failed");
  key ← map_err (λ _, Encryption "key construction failed") (AeadKey.new Aes256Gcm key_bytes);
  data ← map_err (λ _, Encryption "seal failed") (AeadKey.seal_in_place key nonce_bytes [] payload);
  let ct_len := (length data - 16)%nat in
  Ok (mk_hpke mlkem_ct (take ct_len data) (drop ct_len data)).

(** [HpkeServer::open] *)
Definition hpke_open (tee_private mlkem_ct ciphertext tag : bytes) : result HpkeError bytes :=
  shared_secret ← ok_or (mlkem_decap tee_private mlkem_ct) (HpkePqc "KEM decapsulation failed");
  key_bytes ← ok_or (hpke_expand shared_secret HPKE_KEY_INFO 32) Decryption;
  nonce_bytes ← ok_or (hpke_expand shared_secret HPKE_NONCE_INFO 12) Decryption;
  key ← map_err (λ _, Decryption) (AeadKey.new Aes256Gcm key_bytes);
  if decide (length tag = 16%nat) then
    map_err (λ _, Decryption) (AeadKey.open_in_place key nonce_bytes [] (ciphertext ++ tag))
  else Err Decryption.

(** The payload of [Attest-Encrypted-Hello] that the handler expects. *)
Definition hello_payload (c : HpkeCiphertext) : bytes := mlkem_ct c ++ payload_ct c ++ hpke_tag c.

(** [aths_handler] takes the payload apart; [None] when it is too short. *)
Definition open_hello (tee_private eh_payload : bytes) : option (result HpkeError bytes) :=
  if decide (length eh_payload < 1088 + 16)%nat then None
  else
    let ct := take 1088 eh_payload in
    let rest := drop 1088 eh_payload in
    let n := (length rest - 16)%nat in
    Some (hpke_open tee_private ct (take n rest) (drop n rest)).

Context {AL : AeadLaws AP} {KL : KexLaws KP}.

Lemma hpke_open_seal d rand payload c :
  hpke_seal true rand (mlkem_encap_key d) payload = Ok c →
  hpke_open d (mlkem_ct c) (payload_ct c) (hpke_tag c) = Ok payload ∧
  length (mlkem_ct c) = 1088%nat ∧ length (hpke_tag c) = 16%nat.
Proof using AL KL.
  unfold hpke_seal. cbn [mbind result_bind]. intros H. inv_ok. destruct x as [ss ct]. inv_ok.
  pose proof (AeadKey.seal_length _ _ _ _ _ H3) as Hlen. simpl in *.
  apply AeadKey.open_seal_iff in H3 as Hopen.
  unfold hpke_open. rewrite (mlkem_correct d rand ss ct) by done. cbn [ok_or mbind result_bind].
  rewrite H0. cbn [ok_or mbind result_bind]. rewrite H1. cbn [ok_or mbind result_bind]. rewrite H2. cbn [map_err mbind result_bind].
  unfold TAG_LEN in Hlen. rewrite length_drop. split_and!; [|apply mlkem_encap_length in H; tauto|lia].
  rewrite decide_True by lia. by rewrite take_drop, Hopen.
Qed.

Lemma hpke_seal_total d rand payload ss ct :
  mlkem_encap (mlkem_encap_key d) rand = Some (ss, ct) → Z.of_nat (length payload) ≤ 2 ^ 36 - 32 →
  ∃ c, hpke_seal true rand (mlkem_encap_key d) payload = Ok c.
Proof using AL KL.
  intros Henc Hlen. unfold hpke_seal, hpke_expand. cbn [mbind result_bind]. rewrite Henc. cbn [ok_or mbind result_bind].
  destruct (hkdf_sha256_some (replicate 32 NUL) ss HPKE_KEY_INFO 32) as (k & -> & Hk); [lia|]. cbn [ok_or mbind result_bind].
  destruct (hkdf_sha256_some (replicate 32 NUL) ss HPKE_NONCE_INFO 12) as (n & -> & _); [lia|]. cbn [ok_or mbind result_bind].
  assert (AeadKey.new Aes256Gcm k = Ok (AeadKey.mk k Aes256Gcm)) as -> by (by apply AeadKey.new_wf). cbn [map_err mbind result_bind].
  destruct (AeadKey.seal_total (AeadKey.mk k Aes256Gcm) n [] payload) as [data ->]; [done|done|]. by eexists.
Qed.

End hpke.

(** ** Properties *)

(** An encrypted hello arrives: sealing to a server's encapsulation key
    succeeds whenever the encapsulation does, and the server takes the
    concatenated payload apart at the right places and recovers the hello. *)
Theorem encrypted_hello_round_trip {AP : AeadPrim} {AL : AeadLaws AP} {KP : KexPrim} {KL : KexLaws KP}
    (d rand payload ss ct : bytes) :
  mlkem_encap (mlkem_encap_key d) rand = Some (ss, ct) → Z.of_nat (length payload) ≤ 2 ^ 36 - 32 →
  ∃ c, hpke_seal true rand (mlkem_encap_key d) payload = Ok c ∧ open_hello d (hello_payload c) = Some (Ok payload).
Proof.
  intros Henc Hlen. destruct (hpke_seal_total d rand payload ss ct Henc Hlen) as [c Hc]. exists c. split; [done|].
  destruct (hpke_open_seal d rand payload c Hc) as (Hopen & Hct & Htag). unfold open_hello, hello_payload.
  rewrite decide_False by (rewrite !length_app; lia).
  rewrite take_app_le, take_ge, drop_app_le, drop_ge by lia. simpl. rewrite length_app, Htag, Nat.add_sub.
  by rewrite take_app_length, drop_app_length, Hopen.
Qed.

#[local] Existing Instance ToyKex.prim.

Lemma encrypted_hello_round_trip_witness :
  ∃ c, hpke_seal (AP := Toy.aead) (KP := ToyKex.prim) true (as_bytes "r") (mlkem_encap_key (as_bytes "d")) (as_bytes "hello") = Ok c ∧
    open_hello (AP := Toy.aead) (KP := ToyKex.prim) (as_bytes "d") (hello_payload c) = Some (Ok (as_bytes "hello")).
Proof.
  destruct (mlkem_encap (mlkem_encap_key (as_bytes "d")) (as_bytes "r")) as [[ss ct]|] eqn:Henc; [|vm_compute in Henc; discriminate Henc].
  apply (encrypted_hello_round_trip (AL := Toy.aead_laws) (KL := ToyKex.laws) (as_bytes "d") (as_bytes "r") (as_bytes "hello") ss ct).
  - exact Henc.
  - vm_compute. discriminate.
Defined.
