(* ===== verification/Handlers.v ===== *)
(** * Handshake handlers

    [crates/openhttpa-server/src/handlers.rs]: the freshness challenge that the
    preflight issues and the handshake demands, and the [ATTEST] handler from the
    decoded request headers to the registered session. *)

From S2P Require Import Prelude ReplayWindow Crypto Aead Proto State KeySchedule Attestation Session KeyExchange Handshake.
From S2P Require Import Headers Hpke Registry Middleware Extractors.
From stdpp Require Import options.

#[local] Open Scope Z_scope.

Definition SERVICE_UNAVAILABLE : Z := 503.

(** ** Challenges *)

Module ChallengeKey.

(** The value behind the lock. *)
Definition t : Type := bytes.
Definition new (key : bytes) : t := key.
Definition rotate (_ : t) (new_key : bytes) : t := new_key.
Definition read (k : t) : bytes := k.

End ChallengeKey.

Section challenge.
Context {MP : HmacPrim}.

(** The challenge of [preflight_handler]; the clock and the entropy source may
    fail, which is answered with 500. *)
Definition issue_challenge (key : bytes) (now : option Z) (rand : option bytes) : result Z bytes :=
  now ← ok_or now INTERNAL_SERVER_ERROR;
  rand_bytes ← ok_or rand INTERNAL_SERVER_ERROR;
  let ts_bytes := u64_be now in
  Ok (ts_bytes ++ rand_bytes ++ hmac_sha256 key (ts_bytes ++ rand_bytes)).

(** [verify_challenge]; the two [split_at] panic on less than 16 bytes.  [now] is
    [None] when the clock is before the epoch. *)
Definition verify_challenge (c key : bytes) (now : option Z) : outcome (result string bytes) :=
  if decide (length c < 16)%nat then Panics
  else
    let ts_bytes := take 8 c in
    let rand_bytes := take 8 (drop 8 c) in
    let sig := drop 16 c in
    if decide (hmac_sha256 key (ts_bytes ++ rand_bytes) = sig) then
      let ts := from_be ts_bytes in
      match now with
      | None => Returns (Err "system time error"%string)
      | Some now =>
          if decide (now < ts ∨ 300 < now - ts) then
            Returns (Err "Attest-Challenge expired. Please refresh preflight."%string)
          else if decide (length c = 48%nat) then Returns (Ok c)
          else Returns (Err "Attest-Challenge must be exactly 48 bytes"%string)
      end
    else Returns (Err "Attest-Challenge signature invalid"%string).

Context {ML : HmacLaws MP}.

Lemma verify_challenge_Ok c key now arr :
  verify_challenge c key (Some now) = Returns (Ok arr) ↔
  arr = c ∧ length c = 48%nat ∧ drop 16 c = hmac_sha256 key (take 16 c) ∧
  from_be (take 8 c) ≤ now ≤ from_be (take 8 c) + 300.
Proof using.
  assert (take 8 c ++ take 8 (drop 8 c) = take 16 c) as Htake.
  { by rewrite take_take_drop. }
  unfold verify_challenge. rewrite Htake. split.
  - destruct (decide (length c < 16)%nat); [done|]. destruct (decide (hmac_sha256 _ _ = _)) as [Hs|]; [|done].
    destruct (decide (_ ∨ _)); [done|]. destruct (decide (length c = 48%nat)); [|done]. intros [= <-].
    split_and!; [done..|lia|lia].
  - intros (-> & Hlen & Hs & Hlo & Hhi). rewrite decide_False by lia. rewrite decide_True by done.
    rewrite decide_False by lia. by rewrite decide_True.
Qed.

Lemma issue_challenge_shape key now rand c :
  is_u64 now → length rand = 8%nat → issue_challenge key (Some now) (Some rand) = Ok c →
  length c = 48%nat ∧ from_be (take 8 c) = now ∧ take 16 c = u64_be now ++ rand ∧ drop 16 c = hmac_sha256 key (take 16 c).
Proof using ML.
  intros Hnow Hr Heq. unfold issue_challenge in Heq. cbn [ok_or mbind result_bind] in Heq. apply (inj Ok) in Heq. subst c.
  assert (length (u64_be now) = 8%nat) as H8 by apply length_to_be.
  assert (take 16 (u64_be now ++ rand ++ hmac_sha256 key (u64_be now ++ rand)) = u64_be now ++ rand) as H16.
  { rewrite app_assoc, take_app_le, take_ge by (rewrite length_app; lia). done. }
  rewrite H16. split_and!; [| |done|].
  - by rewrite !length_app, H8, Hr, hmac_sha256_length.
  - rewrite take_app_le, take_ge by lia. by apply from_be_u64_be.
  - rewrite app_assoc, drop_app_le, drop_ge by (rewrite length_app; lia). done.
Qed.

End challenge.

(** ** The handshake handler *)

Record AtHsHandlerState : Type := mk_handler {
  executor : AtHsExecutor;
  registry : AtbRegistry.t;
  tee_provider : TeeProvider;
  verifier : option QuoteVerifier;
  policy_engine : option (CipherSuite → AtHsResult → result string bool);
  atb_ttl : Z;
  challenge_key : ChallengeKey.t;
  identity_key : option Signer;
  hpke_key : option bytes;
}.

(** The response: a status with a message, the dummy of cover traffic, or the
    fields of [AtHsResponseHeaders] that depend on the handshake. *)
Inductive HandlerResponse : Type :=
| Failed (status : Z)
| Cover
| Attest (suite : CipherSuite) (version : ProtocolVersion) (key_share_json : bytes) (expires_secs : Z) (res : AtHsResult).

(** [serde_json] on the key shares and on the encrypted hello. *)
Class HandshakeJson : Type := {
  parse_client_share : bytes → option KeyShare;
  encode_server_share : ServerKeyShare → option bytes;
  parse_hello : bytes → option bool;
}.

Section handler.
Context {AP : AeadPrim} {HaP : HashPrim} {HP : HkdfPrim} {MP : HmacPrim} {KP : KexPrim} {DF : DebugFmt} {HJ : HandshakeJson}.

(** Step 1.5: whether the request is cover traffic, or the error's status. *)
Definition process_hello (st : AtHsHandlerState) (h : AtHsRequestHeaders) : result Z bool :=
  match h_encrypted_hello h with
  | None => Ok false
  | Some eh =>
      match hpke_key st with
      | None => Err BAD_REQUEST
      | Some k =>
          match open_hello k eh with
          | None | Some (Err _) => Err BAD_REQUEST
          | Some (Ok decrypted) => Ok (default false (parse_hello decrypted))
          end
      end
  end.

Definition check_challenge (st : AtHsHandlerState) (h : AtHsRequestHeaders) (now : option Z) : outcome (result Z bytes) :=
  match h_challenge h with
  | Some c =>
      if decide (48 ≤ length c)%nat then
        match verify_challenge c (ChallengeKey.read (challenge_key st)) now with
        | Panics => Panics
        | Returns (Ok arr) => Returns (Ok arr)
        | Returns (Err _) => Returns (Err UNAUTHORIZED)
        end
      else Returns (Err UNAUTHORIZED)
  | None => Returns (Err UNAUTHORIZED)
  end.

Definition new_session (suite : CipherSuite) (version : ProtocolVersion) (res : AtHsResult) : SessionInner :=
  AttestSession.new (atb_id res) suite version (session_keys res) (hs_expires_at res) StrictMonotonic (client_attestation_result res).

(** Steps 4.1 to 5: policy, registration, response. *)
Definition register (st : AtHsHandlerState) (suite : CipherSuite) (version : ProtocolVersion) (share : ServerKeyShare) (res : AtHsResult)
    : HandlerResponse * AtbRegistry.t :=
  match (match policy_engine st with Some p => p suite res | None => Ok true end) with
  | Err _ => (Failed INTERNAL_SERVER_ERROR, registry st)
  | Ok false => (Failed FORBIDDEN, registry st)
  | Ok true =>
      let '(ins, r) := AtbRegistry.insert (registry st) (new_session suite version res) in
      match ins with
      | Err _ => (Failed SERVICE_UNAVAILABLE, r)
      | Ok _ =>
          match encode_server_share share with
          | None => (Failed INTERNAL_SERVER_ERROR, r)
          | Some json => (Attest suite version json (atb_ttl st) res, r)
          end
      end
  end.

Definition aths_handler (env : ServerEnv) (now : option Z) (st : AtHsHandlerState) (h : AtHsRequestHeaders)
    : outcome (HandlerResponse * AtbRegistry.t) :=
  match process_hello st h with
  | Err code => Returns (Failed code, registry st)
  | Ok true => Returns (Cover, registry st)
  | Ok false =>
      match parse_client_share (h_key_shares_json h) with
      | None => Returns (Failed BAD_REQUEST, registry st)
      | Some share =>
          if decide (length (h_random h) = 32%nat) then
            match check_challenge st h now with
            | Panics => Panics
            | Returns (Err code) => Returns (Failed code, registry st)
            | Returns (Ok challenge) =>
                match execute_server (executor st) env
                        (Handshake.mk_request (h_cipher_suites h) (h_versions h) (h_random h) challenge share (h_client_quotes h) (atb_ttl st))
                        (Some (tee_provider st)) (verifier st) (identity_key st) with
                | Panics => Panics
                | Returns (Err _) => Returns (Failed BAD_REQUEST, registry st)
                | Returns (Ok (suite, version, sshare, res)) => Returns (register st suite version sshare res)
                end
            end
          else Returns (Failed BAD_REQUEST, registry st)
      end
  end.

Lemma check_challenge_Ok st h now c :
  check_challenge st h now = Returns (Ok c) →
  ∃ t, h_challenge h = Some c ∧ now = Some t ∧ verify_challenge c (ChallengeKey.read (challenge_key st)) now = Returns (Ok c).
Proof.
  unfold check_challenge. destruct (h_challenge h) as [c0|]; [|done]. destruct (decide _); [|done].
  destruct (verify_challenge c0 _ now) as [[arr|]|] eqn:Hv; [|done..]. intros [= ->]. destruct now as [t|].
  - pose proof Hv as (-> & _)%verify_challenge_Ok. by exists t.
  - exfalso. unfold verify_challenge in Hv. by repeat case_decide.
Qed.

Lemma register_cases st suite version sshare res resp r' :
  register st suite version sshare res = (resp, r') →
  (r' = registry st ∧ ∃ code, resp = Failed code ∧ 400 ≤ code) ∨
  match policy_engine st with Some p => p suite res = Ok true | None => True end ∧
  AtbRegistry.insert (registry st) (new_session suite version res) = (Ok (), r') ∧
  (resp = Failed INTERNAL_SERVER_ERROR ∧ encode_server_share sshare = None ∨
   ∃ json, encode_server_share sshare = Some json ∧ resp = Attest suite version json (atb_ttl st) res).
Proof.
  unfold register. destruct (match policy_engine st with Some p => p suite res | None => Ok true end) as [[|]|] eqn:Hpol;
    [|left; simplify_eq; split; [done|by eexists]..].
  destruct (AtbRegistry.insert _ _) as [[[]|e] r1] eqn:Hins.
  - intros H. right. assert (r' = r1) as -> by (destruct (encode_server_share sshare); by simplify_eq).
    split_and!; [by destruct (policy_engine st)|done|]. destruct (encode_server_share sshare); simplify_eq; [right|left]; eauto.
  - intros [= <- <-]. left. split; [|by eexists]. unfold AtbRegistry.insert in Hins.
    destruct (AtbRegistry.claim_upd _ _); by simplify_eq.
Qed.

Lemma process_hello_Err st h code : process_hello st h = Err code → 400 ≤ code.
Proof.
  unfold process_hello. destruct (h_encrypted_hello h); [|done]. destruct (hpke_key st); [|by intros [= <-]].
  destruct (open_hello _ _) as [[]|]; [done|..]; by intros [= <-].
Qed.
Lemma check_challenge_Err st h now code : check_challenge st h now = Returns (Err code) → 400 ≤ code.
Proof.
  unfold check_challenge. destruct (h_challenge h) as [c0|]; [|by intros [= <-]]. destruct (decide _); [|by intros [= <-]].
  destruct (verify_challenge c0 _ now) as [[arr|]|]; [done|by intros [= <-]|done].
Qed.

(** Every way the handler can answer. *)
Lemma aths_handler_cases env now st h resp r' :
  aths_handler env now st h = Returns (resp, r') →
  (r' = registry st ∧ ((resp = Cover ∧ h_encrypted_hello h ≠ None) ∨ ∃ code, resp = Failed code ∧ 400 ≤ code)) ∨
  ∃ share c suite version sshare res t,
    parse_client_share (h_key_shares_json h) = Some share ∧ h_challenge h = Some c ∧ now = Some t ∧
    verify_challenge c (ChallengeKey.read (challenge_key st)) now = Returns (Ok c) ∧
    execute_server (executor st) env
      (Handshake.mk_request (h_cipher_suites h) (h_versions h) (h_random h) c share (h_client_quotes h) (atb_ttl st))
      (Some (tee_provider st)) (verifier st) (identity_key st) = Returns (Ok (suite, version, sshare, res)) ∧
    match policy_engine st with Some p => p suite res = Ok true | None => True end ∧
    AtbRegistry.insert (registry st) (new_session suite version res) = (Ok (), r') ∧
    (resp = Failed INTERNAL_SERVER_ERROR ∧ encode_server_share sshare = None ∨
     ∃ json, encode_server_share sshare = Some json ∧ resp = Attest suite version json (atb_ttl st) res).
Proof.
  unfold aths_handler. intros H. destruct (process_hello st h) as [[|]|code] eqn:Hh.
  { left. simplify_eq. split; [done|]. left. split; [done|]. unfold process_hello in Hh. by destruct (h_encrypted_hello h). }
  2: { left. simplify_eq. split; [done|]. right. eexists. split; [done|]. by eapply process_hello_Err. }
  destruct (parse_client_share _) as [share|] eqn:Hshare; [|left; simplify_eq; split; [done|right; by eexists]].
  destruct (decide (length (h_random h) = 32%nat)); [|left; simplify_eq; split; [done|right; by eexists]].
  destruct (check_challenge st h now) as [[c|code]|] eqn:Hc; [| |done].
  2: { left. simplify_eq. split; [done|]. right. eexists. split; [done|]. by eapply check_challenge_Err. }
  destruct (execute_server _ _ _ _ _ _) as [[[[[suite version] sshare] res]|]|] eqn:Hex;
    [|left; simplify_eq; split; [done|right; by eexists]|done].
  apply check_challenge_Ok in Hc as (t & Hch & Hnow & Hver). injection H as H. apply register_cases in H as [[Hr H]|H].
  { left. split; [done|]. by right. }
  right. destruct H as (Hpol & Hins & Hresp). by exists share, c, suite, version, sshare, res, t.
Qed.

End handler.

(** ** Properties *)

(** A challenge lives for exactly five minutes: what the preflight issued at
    time [t] the handshake accepts from [t] to [t + 300] and refuses before and
    after; a rotation of the key refuses it at once, unless the two keys give the
    same MAC. *)
Theorem challenge_lifetime {MP : HmacPrim} {ML : HmacLaws MP} (key key' rand c : bytes) (t now : Z) :
  is_u64 t → length rand = 8%nat → issue_challenge key (Some t) (Some rand) = Ok c →
  verify_challenge c (ChallengeKey.read key) (Some now) =
    (if decide (t ≤ now ≤ t + 300) then Returns (Ok c)
     else Returns (Err "Attest-Challenge expired. Please refresh preflight."%string)) ∧
  (hmac_sha256 key' (take 16 c) ≠ hmac_sha256 key (take 16 c) →
   verify_challenge c (ChallengeKey.read (ChallengeKey.rotate key key')) (Some now) =
     Returns (Err "Attest-Challenge signature invalid"%string)).
Proof.
  intros Ht Hr Hc. destruct (issue_challenge_shape key t rand c Ht Hr Hc) as (Hlen & Hts & _ & Hsig). split.
  - unfold verify_challenge. rewrite take_take_drop. rewrite decide_False by lia. rewrite decide_True by done. rewrite Hts.
    destruct (decide (t ≤ now ≤ t + 300)); [rewrite decide_False by lia|by rewrite decide_True by lia].
    by rewrite decide_True.
  - intros Hne. unfold verify_challenge. rewrite take_take_drop. rewrite decide_False by lia.
    rewrite decide_False; [done|]. change (ChallengeKey.read _) with key'. rewrite Hsig. exact Hne.
Qed.

Lemma challenge_lifetime_witness :
  let c := u64_be 1000 ++ as_bytes "randomly" ++ hmac_sha256 (HmacPrim := Toy.hmac) (as_bytes "k") (u64_be 1000 ++ as_bytes "randomly") in
  verify_challenge (MP := Toy.hmac) c (as_bytes "k") (Some 1300) = Returns (Ok c).
Proof.
  intros c. destruct (challenge_lifetime (MP := Toy.hmac) (ML := Toy.hmac_laws) (as_bytes "k") (as_bytes "l") (as_bytes "randomly") c 1000 1300)
    as [H _]; [by_compute|reflexivity|reflexivity|exact H].
Defined.

(** The handshake accepts a challenge exactly when it is 48 bytes long, carries
    the MAC of its first 16 bytes under the current key, and its time stamp is at
    most five minutes old and not in the future; the accepted challenge is bound
    to the transcript unchanged. *)
Theorem verify_challenge_iff {MP : HmacPrim} (c key arr : bytes) (now : Z) :
  verify_challenge c key (Some now) = Returns (Ok arr) ↔
  arr = c ∧ length c = 48%nat ∧ drop 16 c = hmac_sha256 key (take 16 c) ∧
  from_be (take 8 c) ≤ now ≤ from_be (take 8 c) + 300.
Proof. apply verify_challenge_Ok. Qed.

(** The handler registers a session only at the end of a complete handshake:
    whenever the registry changed, the challenge was valid under the current key,
    the executor completed the handshake on the request's values, the policy
    admitted it, and the registry gained exactly the session of that handshake,
    with a strict replay strategy. *)
Theorem handler_registers {AP : AeadPrim} {HaP : HashPrim} {HP : HkdfPrim} {MP : HmacPrim} {KP : KexPrim} {DF : DebugFmt}
    {HJ : HandshakeJson} (env : ServerEnv) (now : option Z) (st : AtHsHandlerState) (h : AtHsRequestHeaders)
    (resp : HandlerResponse) (r' : AtbRegistry.t) :
  aths_handler env now st h = Returns (resp, r') →
  (r' = registry st ∧ match resp with Attest _ _ _ _ _ => False | _ => True end) ∨
  ∃ share c suite version sshare res t,
    parse_client_share (h_key_shares_json h) = Some share ∧ h_challenge h = Some c ∧ now = Some t ∧
    verify_challenge c (ChallengeKey.read (challenge_key st)) now = Returns (Ok c) ∧
    execute_server (executor st) env
      (Handshake.mk_request (h_cipher_suites h) (h_versions h) (h_random h) c share (h_client_quotes h) (atb_ttl st))
      (Some (tee_provider st)) (verifier st) (identity_key st) = Returns (Ok (suite, version, sshare, res)) ∧
    match policy_engine st with Some p => p suite res = Ok true | None => True end ∧
    AtbRegistry.insert (registry st) (new_session suite version res) = (Ok (), r') ∧
    (resp = Failed INTERNAL_SERVER_ERROR ∧ encode_server_share sshare = None ∨
     ∃ json, encode_server_share sshare = Some json ∧ resp = Attest suite version json (atb_ttl st) res).
Proof.
  intros [[Hr H]|H]%aths_handler_cases; [left|by right]. split; [done|]. destruct H as [[-> _]|(code & -> & _)]; exact I.
Qed.

Module ToyHandler.
#[local] Existing Instances Toy.hash Toy.hkdf Toy.hmac Toy.aead ToyKex.prim Demo.debug.

#[global] Instance json : HandshakeJson := {
  parse_client_share b := if decide (b = []) then None else Some (HybridKemPair.public_key_share Demo.client);
  encode_server_share s := Some (s_mlkem_ciphertext s);
  parse_hello b := Some true;
}.
Definition challenge : bytes :=
  u64_be 1000 ++ as_bytes "randomly" ++ hmac_sha256 (as_bytes "k") (u64_be 1000 ++ as_bytes "randomly").
Definition state : AtHsHandlerState :=
  mk_handler Demo.executor AtbRegistry.new Demo.generate_quotes (Some Demo.verify) None 3600 (as_bytes "k") None None.
Definition hello : AtHsRequestHeaders :=
  mk_aths_headers [X25519MlKem768Aes256GcmSha384] (replicate 32 NUL) [V2] (as_bytes "{}") EmptyString New true false [Demo.quote]
    (Some challenge) [] None None None.
Definition run (now : Z) : outcome (HandlerResponse * AtbRegistry.t) := aths_handler Demo.env (Some now) state hello.
End ToyHandler.

Lemma handler_registers_witness :
  ∃ resp r' suite version res, ToyHandler.run 1010 = Returns (resp, r') ∧
    AtbRegistry.insert AtbRegistry.new (new_session suite version res) = (Ok (), r').
Proof.
  assert (match ToyHandler.run 1010 with Returns (Attest _ _ _ _ _, _) => true | _ => false end = true) as Hok by (vm_compute; reflexivity).
  destruct (ToyHandler.run 1010) as [[resp r']|] eqn:Hrun; [|discriminate Hok].
  destruct (handler_registers (AP := Toy.aead) (HaP := Toy.hash) (HP := Toy.hkdf) (MP := Toy.hmac) (KP := ToyKex.prim)
    (DF := Demo.debug) (HJ := ToyHandler.json) Demo.env (Some 1010) ToyHandler.state ToyHandler.hello resp r' Hrun)
    as [[Heq Hresp]|(share & c & suite & version & sshare & res & t & _ & _ & _ & _ & _ & _ & Hins & _)].
  - exfalso. destruct resp; [discriminate Hok..|exact Hresp].
  - exists resp, r', suite, version, res. split; [reflexivity|exact Hins].
Defined.
