(* ===== verification/Ingress.v ===== *)
(** * The ingress controller

    [crates/openhttpa-ingress/src/router.rs] and the configuration in [main.rs]: an
    HTTP front end that performs the handshake of [Handshake] for its clients, keeps
    their sessions in the registry of [Registry], and forwards the events they send to
    an event bus.

    The server's executor, the session and the registry are those of the core; the
    JSON bodies, hexadecimal text and identifiers are classes.  A request's body is
    [None] when reading it failed. *)

From S2P Require Import Prelude Crypto Aead Proto State KeySchedule Attestation Session KeyExchange Handshake Http Registry Middleware Handlers.
From stdpp Require Import options.

#[local] Open Scope Z_scope.

(** [serde_json] on the two bodies: the four fields of a handshake, the ciphertext of an
    event; and [from_utf8_lossy]. *)
Class IngressText : Type := {
  parse_handshake_body : bytes → option (string * string * string * string);
  parse_trusted_request : bytes → option string;
  utf8_lossy : bytes → string;
}.

Record IngressRequest : Type := mk_ingress { in_method : string; in_path : string; in_headers : HeaderMap; in_body : option bytes }.
Inductive IngressResponse : Type :=
| Plain (status : Z) (text : string)
| Registered (id : AtbId) (expires_in : Z)
| Dispatched (nonce : Z).

(** What the event bus was given. *)
Definition Event : Type := (string * bytes)%type.

Section ingress.
Context {DF : DebugFmt} {HaP : HashPrim} {HP : HkdfPrim} {KP : KexPrim} {HxP : HexPrim} {UP : UuidPrim} {IT : IngressText}.

(** [decode_hex_32] and [decode_hex_48] *)
Definition decode_hex (len : nat) (s : string) : option bytes :=
  b ← hex_decode s; if decide (length b = len) then Some b else None.

Definition ingress_request (random challenge ecdhe mlkem : string) : AtHsRequest :=
  Handshake.mk_request [X25519MlKem768Aes256GcmSha384] [V2]
    (default (replicate 32 NUL) (decode_hex 32 random)) (default (replicate 48 NUL) (decode_hex 48 challenge))
    (mk_share (default [] (hex_decode ecdhe)) (default [] (hex_decode mlkem))) [] 3600.

(** The configuration of [main]. *)
Definition ingress_executor : AtHsExecutor := with_config [X25519MlKem768Aes256GcmSha384] [V2] true false.

Definition ingress_session (suite : CipherSuite) (version : ProtocolVersion) (res : AtHsResult) : SessionInner :=
  AttestSession.new (atb_id res) suite version (session_keys res) (hs_expires_at res) default_strategy (client_attestation_result res).

Definition handle_handshake (x : AtHsExecutor) (env : ServerEnv) (provider : TeeProvider) (reg : AtbRegistry.t) (req : IngressRequest) :
    outcome (option IngressResponse * AtbRegistry.t) :=
  match in_body req with
  | None => Returns (None, reg)
  | Some body =>
      match parse_handshake_body body with
      | None => Returns (Some (Plain 400 "Invalid JSON"), reg)
      | Some (random, challenge, ecdhe, mlkem) =>
          match execute_server x env (ingress_request random challenge ecdhe mlkem) (Some provider) None None with
          | Panics => Panics
          | Returns (Err _) => Returns (Some (Plain 403 "Forbidden"), reg)
          | Returns (Ok (suite, version, _, res)) =>
              match AtbRegistry.insert reg (ingress_session suite version res) with
              | (Err _, reg) => Returns (Some (Plain 500 "Failed to register session"), reg)
              | (Ok _, reg) => Returns (Some (Registered (atb_id res) (Z.max 0 (hs_expires_at res - env_now env))), reg)
              end
          end
      end
  end.

(** What precedes the session: the identifier, the nonce and the ciphertext, or the
    status and text of the error; [None] when the body could not be read. *)
Definition read_event (req : IngressRequest) : option (result (Z * string) (AtbId * Z * string)) :=
  match hm_get (in_headers req) "attest-base-id" with
  | None => Some (Err (400, "Missing Attest-Base-ID"%string))
  | Some id =>
      match hm_get (in_headers req) "attest-nonce" with
      | None => Some (Err (400, "Missing Attest-Nonce"%string))
      | Some n =>
          match parse_uint u64_max (as_bytes (utf8_lossy n)) with
          | None => Some (Err (400, "Invalid Nonce"%string))
          | Some nonce =>
              body ← in_body req;
              Some (ct ← ok_or (parse_trusted_request body) (400, "Invalid JSON"%string);
                    i ← ok_or (uuid_parse (utf8_lossy id)) (400, "Invalid AtbId format"%string);
                    Ok (i, nonce, ct))
          end
      end
  end.

(** [dispatch_event] is a placeholder that always succeeds. *)
Definition handle_trusted_event (now : Z) (reg : AtbRegistry.t) (req : IngressRequest) :
    option IngressResponse * AtbRegistry.t * option (AtbId * Z * Event) :=
  match read_event req with
  | None => (None, reg, None)
  | Some (Err (status, text)) => (Some (Plain status text), reg, None)
  | Some (Ok (i, nonce, ct)) =>
      match AtbRegistry.get now reg i with
      | (None, reg) => (Some (Plain 401 "Session Not Found or Expired"), reg, None)
      | (Some session, reg) =>
          match hex_decode ct with
          | None => (Some (Plain 400 "Invalid Ciphertext Hex"), reg, None)
          | Some ciphertext =>
              match AttestSession.with_keys_for_trr now session nonce (λ _ _, Ok ciphertext : result () bytes) with
              | (Ok (Ok plaintext), session) =>
                  let '(counter, session) := AttestSession.with_keys_for_trs now session (λ _ counter, counter) in
                  (Some (Dispatched (default 0 (result_ok counter))), AtbRegistry.update reg i session,
                   Some (i, nonce, ("openhttpa.events"%string, plaintext)))
              | (_, session) => (Some (Plain 403 "Decryption Failed"), AtbRegistry.update reg i session, None)
              end
          end
      end
  end.

Definition handle_request (x : AtHsExecutor) (env : ServerEnv) (provider : TeeProvider) (now : Z) (reg : AtbRegistry.t) (req : IngressRequest) :
    outcome (option IngressResponse * AtbRegistry.t * option (AtbId * Z * Event)) :=
  if bool_decide (in_method req = "POST"%string) && bool_decide (in_path req = "/api/attest"%string) then
    '(resp, reg) ← handle_handshake x env provider reg req; Returns (resp, reg, None)
  else if bool_decide (in_method req = "POST"%string) && bool_decide (in_path req = "/api/trusted-event"%string) then
    Returns (handle_trusted_event now reg req)
  else Returns (Some (Plain 404 "Not Found"), reg, None).

End ingress.

(** ** Histories *)

Section history.
Context {DF : DebugFmt} {HaP : HashPrim} {HP : HkdfPrim} {KP : KexPrim} {HxP : HexPrim} {UP : UuidPrim} {IT : IngressText}.

(** A request with what the server drew for it and the time it arrived. *)
Record Arrival : Type := mk_arrival { a_env : ServerEnv; a_now : Z; a_req : IngressRequest }.

Definition Log : Type := list (AtbId * Z * Event).

(** The requests in the order in which they were handled; a panic loses the request. *)
Fixpoint serve (x : AtHsExecutor) (provider : TeeProvider) (reg : AtbRegistry.t) (l : list Arrival) : Log * AtbRegistry.t :=
  match l with
  | [] => ([], reg)
  | a :: l =>
      match handle_request x (a_env a) provider (a_now a) reg (a_req a) with
      | Panics => serve x provider reg l
      | Returns (_, reg, e) => let '(es, reg) := serve x provider reg l in (option_list e ++ es, reg)
      end
  end.

Definition nonces_of (i : AtbId) (log : Log) : list Z := omap (M := list) (λ '(j, n, _), if decide (j = i) then Some n else None) log.

(** Every registered session remembers the nonces of its events, and its identifier is
    among those drawn so far. *)
Definition ledger (used : list AtbId) (log : Log) (reg : AtbRegistry.t) : Prop :=
  Forall (λ e, e.1.1 ∈ used) log ∧
  map_Forall (λ i s, i ∈ used ∧ ∃ seen, AttestSession.remembers s seen ∧ nonces_of i log ⊆ seen) (AtbRegistry.sessions reg).

Lemma nonces_of_ne i j n e log : j ≠ i → nonces_of i ((j, n, e) :: log) = nonces_of i log.
Proof using. intros Hne. unfold nonces_of. cbn. by rewrite decide_False. Qed.
Lemma nonces_of_fresh i log (used : list AtbId) : Forall (λ e, e.1.1 ∈ used) log → i ∉ used → nonces_of i log = [].
Proof using.
  intros Hall Hi. induction Hall as [|[[j n] e] log Hj _ IH]; [done|]. rewrite nonces_of_ne; [done|]. intros ->. done.
Qed.
Lemma nonces_of_elem i n e log : (i, n, e) ∈ log → n ∈ nonces_of i log.
Proof using. intros H. unfold nonces_of. apply list_elem_of_omap. exists (i, n, e). split; [done|]. cbn. by rewrite decide_True. Qed.

Lemma get_sessions now reg i o reg' :
  AtbRegistry.get now reg i = (o, reg') →
  (∀ s, o = Some s → AtbRegistry.sessions reg !! i = Some s ∧ now < expires_at s ∧ reg' = reg) ∧
  AtbRegistry.sessions reg' ⊆ AtbRegistry.sessions reg.
Proof using.
  unfold AtbRegistry.get. destruct (AtbRegistry.sessions reg !! i) as [s|] eqn:Hs.
  - destruct (AttestSession.is_alive now s) eqn:Ha; intros [= <- <-]; (split; [|]).
    + intros s' [= <-]. apply bool_decide_eq_true in Ha. done.
    + done.
    + done.
    + unfold AtbRegistry.remove_counted. rewrite Hs. apply delete_subseteq.
  - intros [= <- <-]. split; [done|done].
Qed.

(** The replay window outlives the response's counter. *)
Lemma trs_remembers {R} now s (f : SessionKeys → Z → R) seen :
  AttestSession.remembers s seen → AttestSession.remembers (AttestSession.with_keys_for_trs now s f).2 seen.
Proof using.
  intros Hs. unfold AttestSession.with_keys_for_trs. destruct (decide _); [done|]. destruct (checked_add64 _ _); [|done].
  cbn [snd]. by eapply AttestSession.remembers_ext, Hs.
Qed.

Lemma read_event_nonce req i n ct : read_event req = Some (Ok (i, n, ct)) → is_u64 n.
Proof using.
  unfold read_event. destruct (hm_get _ _); [|done]. destruct (hm_get _ _) as [h|]; [|done].
  destruct (parse_uint _ _) as [m|] eqn:Hp; [|done]. apply parse_uint_range in Hp; [|done].
  intros (body & _ & [= H])%bind_Some. by inv_ok.
Qed.

Lemma ledger_update used log reg i s seen o :
  ledger used log reg → i ∈ used → AttestSession.remembers s seen → nonces_of i (option_list o ++ log) ⊆ seen →
  (∀ e, o = Some e → e.1.1 = i) → ledger used (option_list o ++ log) (AtbRegistry.update reg i s).
Proof using.
  intros [Hlog Hreg] Hi Hs Hsub Ho. split.
  - destruct o as [e|]; [|done]. constructor; [|done]. by rewrite (Ho e).
  - intros j t Hjt. cbn [AtbRegistry.update AtbRegistry.sessions] in Hjt. apply lookup_insert_Some in Hjt as [[<- <-]|[Hne Hj]]; [by eauto|].
    destruct (Hreg j t Hj) as [Hused (seen' & Hrem & Hin)]. split; [done|]. exists seen'. split; [done|].
    destruct o as [[[k n] e]|]; [|done]. specialize (Ho _ eq_refl). cbn in Ho. subst k.
    change (option_list (Some (i, n, e)) ++ log) with ((i, n, e) :: log). by rewrite nonces_of_ne.
Qed.

Lemma event_ledger used log now reg req resp reg' o :
  ledger used log reg → handle_trusted_event now reg req = (resp, reg', o) →
  ledger used (option_list o ++ log) reg' ∧ ∀ i n e, o = Some (i, n, e) → n ∉ nonces_of i log.
Proof using.
  intros Hl. unfold handle_trusted_event. destruct (read_event req) as [[[[i n] ct]|[st t]]|] eqn:Hread;
    [|intros [= <- <- <-]; by split..].
  destruct (AtbRegistry.get now reg i) as [[s|] reg1] eqn:Hget; apply get_sessions in Hget as [Hs Hsub].
  2: { intros [= <- <- <-]. split; [|done]. destruct Hl as [Hlog Hreg]. split; [done|]. intros j s Hj. apply (Hreg j s). by eapply lookup_weaken. }
  destruct (Hs s eq_refl) as (Hi & Hlive & ->). clear Hs Hsub. destruct (proj2 Hl i s Hi) as [Hused (seen & Hrem & Hin)].
  destruct (hex_decode ct) as [ciphertext|]; [|intros [= <- <- <-]; by split].
  pose proof (AttestSession.trr_remembers now s n (λ _ _, Ok ciphertext : result () bytes) seen (read_event_nonce _ _ _ _ Hread) Hrem) as Htrr.
  destruct (AttestSession.with_keys_for_trr now s n _) as [r s1].
  assert (∀ seen', seen ⊆ seen' → AttestSession.remembers s1 seen' → ledger used (option_list None ++ log) (AtbRegistry.update reg i s1)) as Hkeep.
  { intros seen' Hsub Hs1. eapply ledger_update; [done..|by etrans|done]. }
  destruct r as [[pt|]|err]; cbn [AttestSession.committed] in Htrr.
  - destruct Htrr as [Hfresh Hs1]. destruct (AttestSession.with_keys_for_trs now s1 _) as [counter s2] eqn:Htrs.
    intros [= <- <- <-]. split.
    + apply (ledger_update _ _ _ _ _ (n :: seen)); [done..| | |by intros e [= <-]].
      * apply (trs_remembers now s1 (λ _ counter, counter)) in Hs1. by rewrite Htrs in Hs1.
      * unfold nonces_of. cbn. rewrite decide_True by done. set_solver.
    + intros j m e [= <- <- _] Hn. by apply Hfresh, Hin.
  - intros [= <- <- <-]. split; [|done]. by apply (Hkeep seen).
  - intros [= <- <- <-]. split; [|done]. destruct err; cbn in Htrr; first [by apply (Hkeep seen)|destruct Htrr; apply (Hkeep (n :: seen)); [set_solver|done]].
Qed.

Lemma handshake_ledger used log x env provider reg req resp reg' :
  ledger used log reg → env_atb_id env ∉ used → handle_handshake x env provider reg req = Returns (resp, reg') →
  ledger (env_atb_id env :: used) log reg'.
Proof using.
  intros Hl Hfresh. assert (ledger (env_atb_id env :: used) log reg) as Hweak.
  { destruct Hl as [Hlog Hreg]. split; [eapply Forall_impl; [done|]; intros e He; by right|].
    intros i s Hi. destruct (Hreg i s Hi) as [? ?]. split; [by right|done]. }
  unfold handle_handshake. destruct (in_body req) as [body|]; [|by intros [= <- <-]].
  destruct (parse_handshake_body body) as [[[[r c] e] m]|]; [|by intros [= <- <-]].
  destruct (execute_server _ _ _ _ _ _) as [[[[[suite version] share] res]|]|] eqn:Hex; [|by intros [= <- <-]|done].
  assert (atb_id res = env_atb_id env) as Hid by (by apply execute_server_Ok in Hex as (? & ? & ? & ? & ? & ? & ? & ? & ? & ? & ? & ? & ? & ?)).
  unfold AtbRegistry.insert. destruct (AtbRegistry.claim_upd _ _); [|by intros [= <- <-]]. intros [= <- <-].
  destruct Hweak as [Hlog Hreg]. split; [done|]. cbn [AtbRegistry.sessions]. rewrite Hid. intros i s [[<- <-]|[Hne Hi]]%lookup_insert_Some.
  - split; [by left|]. exists []. split; [apply AttestSession.remembers_new|].
    rewrite (nonces_of_fresh _ _ used); [done| |done]. by destruct Hl.
  - apply (Hreg i s Hi).
Qed.

Lemma handle_ledger used log x env provider now reg req resp reg' o :
  ledger used log reg → env_atb_id env ∉ used → handle_request x env provider now reg req = Returns (resp, reg', o) →
  ledger (env_atb_id env :: used) (option_list o ++ log) reg' ∧ ∀ i n e, o = Some (i, n, e) → n ∉ nonces_of i log.
Proof using.
  intros Hl Hfresh. assert (∀ log reg, ledger used log reg → ledger (env_atb_id env :: used) log reg) as Hweak.
  { intros log0 reg0 [Hlog Hreg]. split; [eapply Forall_impl; [done|]; intros e He; by right|].
    intros i s Hi. destruct (Hreg i s Hi) as [? ?]. split; [by right|done]. }
  unfold handle_request. destruct (_ && _).
  - destruct (handle_handshake _ _ _ _ _) as [[r1 reg1]|] eqn:Hh; [|done]. intros [= <- <- <-]. split; [|done]. by eapply handshake_ledger.
  - destruct (_ && _); [|intros [= <- <- <-]; split; [by apply Hweak|done]].
    intros H. injection H as H. destruct (event_ledger _ _ _ _ _ _ _ _ Hl H) as [? ?]. split; [by apply Hweak|done].
Qed.

Lemma serve_NoDup x provider l used log reg :
  ledger used log reg → NoDup log.*1 → NoDup ((λ a, env_atb_id (a_env a)) <$> l) → (∀ a, a ∈ l → env_atb_id (a_env a) ∉ used) →
  NoDup ((serve x provider reg l).1.*1 ++ log.*1).
Proof using.
  revert used log reg. induction l as [|a l IH]; intros used log reg Hl Hlog Hids Hfresh; [done|].
  rewrite fmap_cons in Hids. apply NoDup_cons in Hids as [Hnew Hids]. cbn [serve].
  assert (∀ b, b ∈ l → env_atb_id (a_env b) ∉ env_atb_id (a_env a) :: used) as Hfresh'.
  { intros b Hb [Heq|Hin]%elem_of_cons; [|by apply (Hfresh b); [right|]]. apply Hnew. rewrite <- Heq. apply list_elem_of_fmap. by exists b. }
  destruct (handle_request _ _ _ _ _ _) as [[[resp reg1] o]|] eqn:Hh.
  2: { apply (IH used); try done. intros b Hb. apply Hfresh. by right. }
  destruct (handle_ledger _ _ _ _ _ _ _ _ _ _ _ Hl (Hfresh a ltac:(by left)) Hh) as [Hl1 Hn].
  specialize (IH _ _ _ Hl1). destruct (serve x provider reg1 l) as [es reg2]. cbn [fst] in *.
  rewrite fmap_app in IH |- *. rewrite <- app_assoc, Permutation_app_swap_app. apply IH; [|done|done].
  destruct o as [[[i n] e]|]; [|done]. cbn. apply NoDup_cons. split; [|done].
  intros ([[j m] e'] & [= -> ->] & Hin)%list_elem_of_fmap. by apply (Hn j m e), (nonces_of_elem j m e').
Qed.

End history.

(** No event is forwarded twice: in every sequence of handshakes and events that the
    controller handles, whatever the network delivers, each nonce of each session is
    forwarded at most once. *)
Theorem ingress_events_NoDup {DF : DebugFmt} {HaP : HashPrim} {HP : HkdfPrim} {KP : KexPrim} {HxP : HexPrim} {UP : UuidPrim} {IT : IngressText}
    (x : AtHsExecutor) (provider : TeeProvider) (capacity : nat) (l : list Arrival) :
  NoDup ((λ a, env_atb_id (a_env a)) <$> l) → NoDup (serve x provider (AtbRegistry.with_capacity capacity) l).1.*1.
Proof.
  intros Hids. pose proof (serve_NoDup x provider l [] [] (AtbRegistry.with_capacity capacity)) as H. rewrite app_nil_r in H.
  apply H; [|constructor|done|].
  - split; [constructor|]. apply map_Forall_empty.
  - intros a _ Hin. by apply elem_of_nil in Hin.
Qed.

(** The controller attests none of its clients, whatever the executor requires of its own
    evidence: a session that it registers has no attestation result. *)
Theorem ingress_client_unattested {DF : DebugFmt} {HaP : HashPrim} {HP : HkdfPrim} {KP : KexPrim} {HxP : HexPrim} {IT : IngressText}
    (env : ServerEnv) (provider : TeeProvider) (reg reg' : AtbRegistry.t) (req : IngressRequest) (i : AtbId) (secs : Z) :
  handle_handshake ingress_executor env provider reg req = Returns (Some (Registered i secs), reg') →
  ∃ s, AtbRegistry.sessions reg' !! i = Some s ∧ attestation_result s = None ∧ AttestSession.is_alive (env_now env) s = true.
Proof.
  unfold handle_handshake. destruct (in_body req) as [body|]; [|done].
  destruct (parse_handshake_body body) as [[[[r c] e] m]|]; [|done].
  destruct (execute_server _ _ _ _ _ _) as [[[[[suite version] share] res]|]|] eqn:Hex; [|done..].
  apply execute_server_Ok in Hex as (kem & ss & _ & _ & _ & _ & _ & _ & Hv & _ & _ & _ & Hid & Hexp). injection Hv as Hv.
  unfold AtbRegistry.insert. destruct (AtbRegistry.claim_upd _ _); [|done]. intros [= <- _ <-]. cbn [AtbRegistry.sessions].
  eexists. split; [apply lookup_insert_eq|]. split; [done|]. apply bool_decide_eq_true. cbn. rewrite Hexp. cbn. lia.
Qed.

(** What is forwarded is the bytes of the request: no key of the session is used. *)
Theorem ingress_event_plain {HxP : HexPrim} {UP : UuidPrim} {IT : IngressText} (now : Z) (reg reg' : AtbRegistry.t) (req : IngressRequest)
    (resp : option IngressResponse) (i : AtbId) (n : Z) (topic : string) (payload : bytes) :
  handle_trusted_event now reg req = (resp, reg', Some (i, n, (topic, payload))) →
  ∃ ct s, read_event req = Some (Ok (i, n, ct)) ∧ hex_decode ct = Some payload ∧
    AtbRegistry.sessions reg !! i = Some s ∧ now < expires_at s ∧ allows_trusted_request (phase s) = true.
Proof.
  unfold handle_trusted_event. destruct (read_event req) as [[[[i' n'] ct]|[st t]]|]; [|done..].
  destruct (AtbRegistry.get now reg i') as [[s|] reg1] eqn:Hget; [|done]. apply get_sessions in Hget as [Hs _].
  destruct (Hs s eq_refl) as (Hi & Hlive & ->). destruct (hex_decode ct) as [b|] eqn:Hct; [|done].
  destruct (AttestSession.with_keys_for_trr _ _ _ _) as [[[pt|]|] s1] eqn:Htrr; [|done..].
  apply AttestSession.with_keys_for_trr_Ok in Htrr as [Hphase [= ->]]. destruct (AttestSession.with_keys_for_trs _ _ _).
  intros [= _ _ -> -> _ ->]. eauto 10.
Qed.

(** ** Concrete runs *)

Module ToyIngress.
#[local] Existing Instances Toy.hash Toy.hkdf ToyKex.prim Demo.debug.

#[global] Instance hex : HexPrim := {| hex_decode s := Some (as_bytes s); hex_encode := string_of_list_ascii |}.
#[global] Instance uuid : UuidPrim := {| uuid_to_string := string_of_list_ascii; uuid_parse s := Some (as_bytes s) |}.
Definition share : KeyShare := HybridKemPair.public_key_share Demo.client.
#[global] Instance text : IngressText := {|
  parse_handshake_body _ := Some (EmptyString, EmptyString, string_of_list_ascii (ecdhe_public share), string_of_list_ascii (mlkem_public share));
  parse_trusted_request b := Some (string_of_list_ascii b);
  utf8_lossy := string_of_list_ascii;
|}.
Definition env (i : string) : ServerEnv :=
  mk_env (env_ecdhe Demo.env) (env_mlkem Demo.env) (env_encap Demo.env) (env_random Demo.env) (as_bytes i) (env_now Demo.env) (env_now_secs Demo.env).
Definition hello (i : string) : Arrival :=
  mk_arrival (env i) (env_now Demo.env) (mk_ingress "POST" "/api/attest" [] (Some [])).
Definition event (drawn i nonce body : string) : Arrival :=
  mk_arrival (env drawn) (env_now Demo.env)
    (mk_ingress "POST" "/api/trusted-event" [("attest-base-id", [as_bytes i]); ("attest-nonce", [as_bytes nonce])]%string (Some (as_bytes body))).
(** One session; the second event repeats the first one's nonce. *)
Definition arrivals : list Arrival := [hello "s"; event "t" "s" "5" "one"; event "u" "s" "5" "two"; event "v" "s" "6" "three"].
Definition log : Log := (serve ingress_executor Demo.generate_quotes (AtbRegistry.with_capacity 3) arrivals).1.
End ToyIngress.

Lemma ingress_events_NoDup_witness :
  (λ e, (e.1.2, e.2.2)) <$> ToyIngress.log = [(5, as_bytes "one"); (6, as_bytes "three")] ∧ NoDup ToyIngress.log.*1.
Proof.
  split; [vm_compute; reflexivity|].
  apply (ingress_events_NoDup (HxP := ToyIngress.hex) (UP := ToyIngress.uuid) (IT := ToyIngress.text) (KP := ToyKex.prim)).
  apply (bool_decide_unpack _). vm_compute. exact I.
Defined.
