(* ===== verification/HandshakeWire.v ===== *)
(** * The handshake over the wire

    [OpenHttpaClient::attest_handshake] of [crates/openhttpa-client/src/client.rs]
    from the preflight to the session, and the two endpoints of
    [crates/openhttpa-server/src/handlers.rs] from the header map of the request
    to the header map of the response.  The client's calls are programs over a
    transport state: [prog St A] is a call that may change the transport's state,
    panic, or return a [ClientError].  [loopback] is the transport that delivers
    the client's requests to the two endpoints, so the theorems are about client
    and server together, headers included. *)

From S2P Require Import Prelude ReplayWindow Crypto Aead Proto State KeySchedule Attestation Session KeyExchange Handshake.
From S2P Require Import Http Ahl Sfv Provenance Headers Hpke Registry Middleware Extractors Handlers.
From stdpp Require Import options.

#[local] Open Scope Z_scope.

(** ** Programs over a transport *)

Definition prog (St A : Type) : Type := St → outcome (result ClientError A) * St.
#[export] Instance prog_ret St : MRet (prog St) := λ A a s, (Returns (Ok a), s).
#[export] Instance prog_bind St : MBind (prog St) := λ A B f m s,
  match m s with
  | (Returns (Ok a), s') => f a s'
  | (Returns (Err e), s') => (Returns (Err e), s')
  | (Panics, s') => (Panics, s')
  end.
Definition of_result {St A} (r : result ClientError A) : prog St A := λ s, (Returns r, s).
Definition of_outcome {St A} (o : outcome A) : prog St A := λ s, (Ok <$> o, s).
Definition of_call {St A} (o : outcome (result ClientError A)) : prog St A := λ s, (o, s).

Record TransportRequest : Type := mk_treq { treq_method : string; treq_uri : string; treq_headers : HeaderMap }.
Record TransportResponse : Type := mk_tresp { tresp_status : Z; tresp_headers : HeaderMap; tresp_body : bytes }.

(** [StatusCode::is_success] *)
Definition is_success (status : Z) : bool := bool_decide (200 ≤ status ≤ 299).

(** [to_bytes]: the whole body, an error beyond the limit. *)
Definition to_bytes (body : bytes) (limit : Z) : result string bytes :=
  if decide (Z.of_nat (length body) ≤ limit) then Ok body else Err "length limit exceeded"%string.

(** What the client uses of [http] and of the standard library's text. *)
Class ClientText : Type := {
  uri_valid : string → bool;
  status_display : Z → string;
  from_utf8_lossy : bytes → string;
}.

(** [serde_json] on the key shares, as the client uses it, agreeing with the
    server's use. *)
Class ShareJson : Type := {
  encode_client_share : KeyShare → option bytes;
  parse_server_share : bytes → option ServerKeyShare;
}.
Class ShareJsonLaws (HJ : HandshakeJson) (SJ : ShareJson) : Prop := {
  parse_client_encode s b : encode_client_share s = Some b → parse_client_share b = Some s;
  parse_server_encode s b : encode_server_share s = Some b → parse_server_share b = Some s;
}.

(** ** The client *)

Record OpenHttpaClient : Type := mk_openhttpa_client {
  oc_server_uri : string;
  oc_tee_provider : TeeProvider;
  oc_has_transport : bool;
  oc_require_preflight : bool;
  oc_config : ClientConfig;
}.

(** What the client draws from outside: two key generations, 32 random bytes, the
    date and the clock. *)
Record ClientEnv : Type := mk_client_env {
  ce_ecdhe : option bytes;
  ce_mlkem : option bytes;
  ce_random : option bytes;
  ce_date : string;
  ce_now : Z;
}.

Definition attest_uri (server_uri : string) : string := (trim_end_slashes server_uri +:+ "/attest")%string.

Section client.
Context {St : Type} (send : St → TransportRequest → result string TransportResponse * St).
Context {CT : ClientText} {SJ : ShareJson} {SP : SfvPrim} {HJ : HeaderJson} {UP : UuidPrim}.
Context {HaP : HashPrim} {HP : HkdfPrim} {KP : KexPrim}.
Context (mldsa_verify : bytes → bytes → bytes → bool) (allow : option string).

Definition transport_send (wrap : string → ClientError) (req : TransportRequest) : prog St TransportResponse := λ s,
  let '(r, s') := send s req in (Returns (map_err wrap r), s').

Definition call_transport (c : OpenHttpaClient) (method : string) (wrap : string → ClientError) (headers : outcome HeaderMap)
    : prog St TransportResponse :=
  _ ← of_result (if oc_has_transport c then Ok () else Err (ClientTransport "No transport"));
  _ ← of_outcome (if uri_valid (attest_uri (oc_server_uri c)) then Returns () else Panics);
  hs ← of_outcome headers;
  transport_send wrap (mk_treq method (attest_uri (oc_server_uri c)) hs).

Definition perform_preflight (c : OpenHttpaClient) : prog St bytes :=
  resp ← call_transport c "OPTIONS" (λ e, ClientHandshake ("preflight failed: " +:+ e)) (Returns []);
  of_result (
    if is_success (tresp_status resp) then
      _ ← map_err (λ e, ClientHandshake ("preflight body error: " +:+ e)) (to_bytes (tresp_body resp) (1024 * 1024));
      h ← map_err (λ e, ClientHandshake ("invalid preflight headers: " +:+ header_error_string e)) (decode_preflight allow (tresp_headers resp));
      Ok (pf_challenge h)
    else Err (ClientHandshake ("preflight returned error " +:+ status_display (tresp_status resp)))).

Definition generate_client_quote (c : OpenHttpaClient) (random : bytes) (share : KeyShare) (challenge : option bytes)
    : result ClientError (list AttestQuote) :=
  match oc_tee_provider c (client_report_data random (challenge_bytes challenge) share) with
  | Ok qs => Ok qs
  | Err e => if c_strict_attestation (oc_config c) then Err (ClientAttestation e) else Ok []
  end.

(** The request headers of [send_attest_request]. *)
Definition client_headers (date : string) (random share_bytes : bytes) (quotes : list AttestQuote) (challenge : option bytes)
    : AtHsRequestHeaders :=
  mk_aths_headers [X25519MlKem768Aes256GcmSha384] random [V2] share_bytes date New true false quotes challenge [] None None None.

Definition send_attest_request (c : OpenHttpaClient) (date : string) (random share_bytes : bytes) (quotes : list AttestQuote)
    (challenge : option bytes) : prog St TransportResponse :=
  call_transport c "ATTEST" ClientHandshake (encode_request (client_headers date random share_bytes quotes challenge)).

(** Status, headers and key share of the response. *)
Definition read_response (resp : TransportResponse) : result ClientError HandshakeResponse :=
  if is_success (tresp_status resp) then
    h ← map_err (λ e, ClientHandshake ("invalid response headers: " +:+ header_error_string e)) (decode_response allow (tresp_headers resp));
    share ← ok_or (parse_server_share (rh_key_share_json h)) (ClientHandshake "invalid server key share");
    Ok (mk_response (rh_base_id h) (rh_cipher_suite h) (rh_version h) share (rh_random h) (rh_quotes h)
          (rh_server_signatures h) (rh_expires_secs h))
  else
    Err (ClientHandshake ("server returned error " +:+ status_display (tresp_status resp) +:+ ": " +:+
           from_utf8_lossy (default [] (result_ok (to_bytes (tresp_body resp) 4096))))).

Definition attest_handshake (c : OpenHttpaClient) (e : ClientEnv) : prog St SessionInner :=
  challenge ← (if oc_require_preflight c then (ch ← perform_preflight c; mret (Some ch)) else mret None);
  kem ← of_result (map_err (λ e, ClientHandshake (to_string e)) (HybridKemPair.generate (ce_ecdhe e) (ce_mlkem e)));
  random ← of_result (ok_or (ce_random e) (ClientHandshake "RNG failure"));
  let share := HybridKemPair.public_key_share kem in
  share_bytes ← of_result (ok_or (encode_client_share share) (ClientSerialisation "serialisation failed"));
  quotes ← of_result (generate_client_quote c random share challenge);
  tresp ← send_attest_request c (ce_date e) random share_bytes quotes challenge;
  resp ← of_result (read_response tresp);
  of_call (client_finish mldsa_verify (oc_config c) (ce_now e) kem random challenge resp).

End client.

(** ** The server's endpoints *)

Record PreflightHandlerState : Type := mk_preflight_state {
  ps_cipher_suites : list CipherSuite;
  ps_versions : list ProtocolVersion;
  ps_challenge_key : ChallengeKey.t;
  ps_oblivious_supported : bool;
}.

Section server.
Context {SP : SfvPrim} {HJ : HeaderJson} {UP : UuidPrim}.
Context {AP : AeadPrim} {HaP : HashPrim} {HP : HkdfPrim} {MP : HmacPrim} {KP : KexPrim} {DF : DebugFmt} {SJ : HandshakeJson}.
Context (allow : option string).

Definition preflight_handler (ps : PreflightHandlerState) (now : option Z) (rand : option bytes) : outcome (Z * HeaderMap) :=
  match issue_challenge (ChallengeKey.read (ps_challenge_key ps)) now rand with
  | Err status => Returns (status, [])
  | Ok challenge =>
      m ← encode_preflight (mk_preflight_headers (ps_cipher_suites ps) (ps_versions ps) challenge (ps_oblivious_supported ps));
      Returns (200, m)
  end.

(** The response headers of a completed handshake, and those of cover traffic
    (with the fresh identifier [fresh]). *)
Definition attest_headers (suite : CipherSuite) (version : ProtocolVersion) (json : bytes) (ttl : Z) (res : AtHsResult) : AtHsResponseHeaders :=
  mk_aths_response suite (server_random res) json (atb_id res) version ttl (server_quotes res) [] None None (server_signatures res) None.
Definition cover_headers (fresh : AtbId) : AtHsResponseHeaders :=
  mk_aths_response X25519MlKem768Aes256GcmSha384 (replicate 32 (u8_of 0)) (replicate 256 (u8_of 0)) fresh V2 0 [] [] None None [] None.

Definition render (fresh : AtbId) (resp : HandlerResponse) : outcome (Z * HeaderMap) :=
  match resp with
  | Failed status => Returns (status, [])
  | Cover => m ← encode_response (cover_headers fresh); Returns (200, m)
  | Attest suite version json ttl res => m ← encode_response (attest_headers suite version json ttl res); Returns (200, m)
  end.

(** From the request's headers to the response; the registry has changed also
    when writing the response panics. *)
Definition aths_endpoint (env : ServerEnv) (fresh : AtbId) (now : option Z) (st : AtHsHandlerState) (map : HeaderMap)
    : outcome (Z * HeaderMap) * AtbRegistry.t :=
  match decode_request allow map with
  | Err _ => (Returns (BAD_REQUEST, []), registry st)
  | Ok h =>
      match aths_handler env now st h with
      | Panics => (Panics, registry st)
      | Returns (resp, r) => (render fresh resp, r)
      end
  end.

End server.

(** ** Client and server together *)

(** The server's state with what it draws during the handshake: the clock and the
    entropy of the preflight, then those of the handshake. *)
Record World : Type := mk_world {
  w_preflight : PreflightHandlerState;
  w_state : AtHsHandlerState;
  w_pre_now : option Z;
  w_pre_rand : option bytes;
  w_env : ServerEnv;
  w_fresh : AtbId;
  w_now : option Z;
}.
Definition set_registry (st : AtHsHandlerState) (r : AtbRegistry.t) : AtHsHandlerState :=
  mk_handler (executor st) r (tee_provider st) (verifier st) (policy_engine st) (atb_ttl st) (challenge_key st) (identity_key st) (hpke_key st).
Definition world_registry (w : World) (r : AtbRegistry.t) : World :=
  mk_world (w_preflight w) (set_registry (w_state w) r) (w_pre_now w) (w_pre_rand w) (w_env w) (w_fresh w) (w_now w).

(** A handler that panics drops the connection. *)
Definition deliver (o : outcome (Z * HeaderMap)) : result string TransportResponse :=
  match o with
  | Returns (status, m) => Ok (mk_tresp status m [])
  | Panics => Err "connection closed"%string
  end.

Section loopback.
Context {SP : SfvPrim} {HJ : HeaderJson} {UP : UuidPrim}.
Context {AP : AeadPrim} {HaP : HashPrim} {HP : HkdfPrim} {MP : HmacPrim} {KP : KexPrim} {DF : DebugFmt} {SJ : HandshakeJson}.
Context (allow : option string).

Definition loopback (w : World) (req : TransportRequest) : result string TransportResponse * World :=
  if decide (treq_method req = "OPTIONS"%string) then
    (deliver (preflight_handler (w_preflight w) (w_pre_now w) (w_pre_rand w)), w)
  else if decide (treq_method req = "ATTEST"%string) then
    let '(o, r) := aths_endpoint allow (w_env w) (w_fresh w) (w_now w) (w_state w) (treq_headers req) in
    (deliver o, world_registry w r)
  else (Ok (mk_tresp 405 [] []), w).

End loopback.

(** ** Lemmas *)

Lemma prog_bind_Ok {St A B} (m : prog St A) (f : A → prog St B) s b s' :
  (m ≫= f) s = (Returns (Ok b), s') ↔ ∃ a s1, m s = (Returns (Ok a), s1) ∧ f a s1 = (Returns (Ok b), s').
Proof.
  unfold mbind, prog_bind. split.
  - destruct (m s) as [[[a|e]|] s1]; intros H; [|by simplify_eq..]. eauto.
  - by intros (a & s1 & -> & H).
Qed.
Lemma prog_bind_step {St A B} (m : prog St A) (f : A → prog St B) s a s1 :
  m s = (Returns (Ok a), s1) → (m ≫= f) s = f a s1.
Proof. unfold mbind, prog_bind. by intros ->. Qed.
Lemma of_result_step {St A B} (r : result ClientError A) (f : A → prog St B) s a :
  r = Ok a → (of_result r ≫= f) s = f a s.
Proof. by intros ->. Qed.
Lemma of_result_Ok {St A} (r : result ClientError A) (s : St) a s' :
  of_result r s = (Returns (Ok a), s') ↔ r = Ok a ∧ s' = s.
Proof. unfold of_result. split; [by intros [= -> ->]|by intros [-> ->]]. Qed.
Lemma of_outcome_Ok {St A} (o : outcome A) (s : St) a s' :
  of_outcome o s = (Returns (Ok a), s') ↔ o = Returns a ∧ s' = s.
Proof. unfold of_outcome. split; [destruct o; by intros [= -> ->]|by intros [-> ->]]. Qed.

Lemma challenge_bytes_48 c : length c = 48%nat → challenge_bytes (Some c) = c.
Proof. intros Hc. unfold challenge_bytes. simpl. rewrite take_ge by lia. rewrite Hc. by rewrite app_nil_r. Qed.

Section wire.
Context {CT : ClientText} {CJ : ShareJson} {SP : SfvPrim} {SL : SfvLaws SP} {HJ : HeaderJson} {JL : HeaderJsonLaws HJ}.
Context {UP : UuidPrim} {UL : UuidLaws UP}.
Context {AP : AeadPrim} {HaP : HashPrim} {HP : HkdfPrim} {MP : HmacPrim} {KP : KexPrim} {DF : DebugFmt} {SJ : HandshakeJson}.
Context {CL : ShareJsonLaws SJ CJ}.
Context (allow : option string).

Lemma call_transport_Ok (c : OpenHttpaClient) method wrap headers (w w' : World) resp :
  call_transport (loopback allow) c method wrap headers w = (Returns (Ok resp), w') ↔
  oc_has_transport c = true ∧ uri_valid (attest_uri (oc_server_uri c)) = true ∧
  ∃ m, headers = Returns m ∧ loopback allow w (mk_treq method (attest_uri (oc_server_uri c)) m) = (Ok resp, w').
Proof using.
  unfold call_transport. rewrite prog_bind_Ok. setoid_rewrite of_result_Ok. setoid_rewrite prog_bind_Ok.
  setoid_rewrite of_outcome_Ok. setoid_rewrite prog_bind_Ok. setoid_rewrite of_outcome_Ok. unfold transport_send. split.
  - intros ([] & s1 & [Ht ->] & [] & s2 & [Hu ->] & m & s3 & [Hm ->] & Hs).
    destruct (oc_has_transport c), (uri_valid _); try done. split_and!; [done..|]. exists m. split; [done|].
    destruct (loopback _ _ _) as [r s']. injection Hs as Hs ->. apply map_err_Ok in Hs. by subst.
  - intros (-> & -> & m & -> & Hs). exists (), w. split; [done|]. exists (), w. split; [done|]. exists m, w. split; [done|].
    by rewrite Hs.
Qed.

(** The preflight leaves the server as it was. *)
Lemma perform_preflight_Ok (c : OpenHttpaClient) (w w' : World) ch :
  perform_preflight (loopback allow) allow c w = (Returns (Ok ch), w') → w' = w.
Proof using.
  unfold perform_preflight. rewrite prog_bind_Ok. intros (resp & w1 & (_ & _ & m & _ & Hl)%call_transport_Ok & [_ ->]%of_result_Ok).
  unfold loopback in Hl. cbn [treq_method] in Hl. rewrite decide_True in Hl by done. by injection Hl.
Qed.

(** What the preflight endpoint answers, the client reads as the challenge. *)
Lemma perform_preflight_issues (c : OpenHttpaClient) (w : World) ch :
  oc_has_transport c = true → uri_valid (attest_uri (oc_server_uri c)) = true →
  issue_challenge (ChallengeKey.read (ps_challenge_key (w_preflight w))) (w_pre_now w) (w_pre_rand w) = Ok ch →
  perform_preflight (loopback allow) allow c w = (Returns (Ok ch), w).
Proof using SL.
  intros Ht Hu Hi. unfold perform_preflight. apply prog_bind_Ok.
  destruct (preflight_wire allow (mk_preflight_headers (ps_cipher_suites (w_preflight w)) (ps_versions (w_preflight w)) ch
    (ps_oblivious_supported (w_preflight w)))) as (m & He & Hd).
  exists (mk_tresp 200 m []), w. split.
  - apply call_transport_Ok. split_and!; [done..|]. exists []. split; [done|]. unfold loopback. cbn [treq_method].
    rewrite decide_True by done. unfold preflight_handler. rewrite Hi, He. done.
  - apply of_result_Ok. split; [|done]. cbn [tresp_status tresp_body tresp_headers]. rewrite Hd. done.
Qed.

Lemma endpoint_wire env fresh now st h m :
  encode_request h = Returns m → accepted_suites allow (h_cipher_suites h) ≠ [] → h_versions h ≠ [] → visible_str (h_date h) →
  aths_endpoint allow env fresh now st m =
    match aths_handler env now st (wire_request allow h) with
    | Panics => (Panics, registry st)
    | Returns (resp, r) => (render fresh resp, r)
    end.
Proof using SL JL.
  intros He Hs Hv Hd. unfold aths_endpoint.
  destruct (request_wire allow h) as (m' & He' & Hdec); [|done..|].
  - apply not_false_iff_true. intros (q & Hq)%forallb_false.
    destruct (encode_panics h (cover_headers fresh)) as [[_ Hp] _]. rewrite Hp in He; [done|]. eauto.
  - rewrite He in He'. injection He' as <-. by rewrite Hdec.
Qed.

(** The client reads the answer of a completed handshake. *)
Lemma read_response_wire suite version sshare json ttl res m :
  encode_response (attest_headers suite version json ttl res) = Returns m →
  encode_server_share sshare = Some json → length (atb_id res) = 16%nat → is_u64 ttl → is_legacy suite = false →
  read_response allow (mk_tresp 200 m []) =
    Ok (mk_response (atb_id res) suite version sshare (server_random res) (wire_quote <$> server_quotes res)
          (server_signatures res) (Z.min ttl MAX_SFV_INT)).
Proof using SL JL UL CL.
  intros He Hj Hi Ht Hl. unfold read_response. cbn [tresp_status tresp_headers].
  change (is_success 200) with true. cbn [negb].
  destruct (response_wire allow (attest_headers suite version json ttl res)) as (m' & He' & Hd); [|done|done| |].
  - apply not_false_iff_true. intros (q & Hq)%forallb_false.
    destruct (encode_panics (ToyHeaders.request) (attest_headers suite version json ttl res)) as [_ [_ Hp]]. rewrite Hp in He; [done|]. eauto.
  - cbn [attest_headers rh_cipher_suite]. by rewrite suite_round_trip, Hl.
  - rewrite He in He'. injection He' as <-. rewrite Hd. cbn [map_err mbind result_bind wire_response rh_key_share_json].
    by rewrite (parse_server_encode sshare json Hj).
Qed.

(** The client offers one suite, so that is the one negotiated. *)
Lemma offered_not_legacy x req suite :
  negotiate_suite x req = Ok suite → client_suites req = [X25519MlKem768Aes256GcmSha384] → is_legacy suite = false.
Proof using.
  unfold negotiate_suite. intros (l1 & l2 & _ & _ & Hin)%ok_or_Ok%head_filter_Some Hc. rewrite Hc in Hin.
  by apply list_elem_of_singleton in Hin as ->.
Qed.

(** A request the client sent and whose answer it could read: the server completed
    the handshake on exactly these values and registered its session. *)
Lemma attest_leg (c : OpenHttpaClient) date random json qs challenge (w w' : World) tresp resp :
  send_attest_request (loopback allow) c date random json qs challenge w = (Returns (Ok tresp), w') →
  read_response allow tresp = Ok resp →
  visible_str date → length (env_atb_id (w_env w)) = 16%nat → is_u64 (atb_ttl (w_state w)) →
  ∃ share ch suite version sshare res r t,
    parse_client_share json = Some share ∧ challenge = Some ch ∧ w_now w = Some t ∧
    verify_challenge ch (ChallengeKey.read (challenge_key (w_state w))) (w_now w) = Returns (Ok ch) ∧
    execute_server (executor (w_state w)) (w_env w)
      (Handshake.mk_request [X25519MlKem768Aes256GcmSha384] [V2] random ch share (wire_quote <$> qs) (atb_ttl (w_state w)))
      (Some (tee_provider (w_state w))) (verifier (w_state w)) (identity_key (w_state w)) = Returns (Ok (suite, version, sshare, res)) ∧
    AtbRegistry.insert (registry (w_state w)) (new_session suite version res) = (Ok (), r) ∧ w' = world_registry w r ∧
    resp = mk_response (atb_id res) suite version sshare (server_random res) (wire_quote <$> server_quotes res)
             (server_signatures res) (Z.min (atb_ttl (w_state w)) MAX_SFV_INT).
Proof using SL JL UL CL.
  intros (_ & _ & m & He & Hl)%call_transport_Ok Hread Hd Hid Httl. unfold loopback in Hl. cbn [treq_method treq_headers] in Hl.
  rewrite decide_False, decide_True in Hl by done. rewrite (endpoint_wire _ _ _ _ _ _ He) in Hl by done.
  destruct (aths_handler _ _ _ _) as [[hresp r]|] eqn:Hh; [|by injection Hl].
  assert (∀ code, 400 ≤ code → mk_tresp code [] [] = tresp → False) as Hfail.
  { intros code Hc <-. unfold read_response in Hread. cbn [tresp_status] in Hread.
    unfold is_success in Hread. by rewrite bool_decide_eq_false_2 in Hread by lia. }
  apply aths_handler_cases in Hh as [[-> [[-> Hne]|(code & -> & Hc)]]|H]; [done|injection Hl; naive_solver|].
  destruct H as (share & ch & suite & version & sshare & res & t & Hshare & Hch & Hnow & Hver & Hex & _ & Hins & Hresp).
  cbn [wire_request client_headers h_key_shares_json h_challenge h_cipher_suites h_versions h_random h_client_quotes] in *.
  change (accepted_suites _ _) with [X25519MlKem768Aes256GcmSha384] in Hex.
  destruct Hresp as [[-> _]|(sjson & Hj & ->)]; [injection Hl as Hl _; by apply Hfail in Hl|].
  exists share, ch, suite, version, sshare, res, r, t. cbn [render] in Hl.
  destruct (encode_response _) as [m'|] eqn:Hm; [|by injection Hl]. cbn in Hl. injection Hl as <- <-.
  pose proof Hex as (_ & _ & Hsuite & _ & _ & _ & _ & _ & _ & _ & _ & _ & Hatb & _)%execute_server_Ok.
  rewrite (read_response_wire suite version sshare sjson _ res m') in Hread by (done || congruence || by eapply offered_not_legacy).
  injection Hread as <-. by split_and!.
Qed.

(** The honest run of the handler and its answer on the wire. *)
Lemma attest_leg_runs (c : OpenHttpaClient) date random json qs ch (w : World) share t suite version sshare res sjson r' :
  oc_has_transport c = true → uri_valid (attest_uri (oc_server_uri c)) = true → visible_str date → length random = 32%nat →
  forallb quote_encodable qs = true → parse_client_share json = Some share → w_now w = Some t → length ch = 48%nat →
  verify_challenge ch (ChallengeKey.read (challenge_key (w_state w))) (Some t) = Returns (Ok ch) →
  execute_server (executor (w_state w)) (w_env w)
    (Handshake.mk_request [X25519MlKem768Aes256GcmSha384] [V2] random ch share (wire_quote <$> qs) (atb_ttl (w_state w)))
    (Some (tee_provider (w_state w))) (verifier (w_state w)) (identity_key (w_state w)) = Returns (Ok (suite, version, sshare, res)) →
  register (w_state w) suite version sshare res = (Attest suite version sjson (atb_ttl (w_state w)) res, r') →
  forallb quote_encodable (server_quotes res) = true → length (atb_id res) = 16%nat → is_u64 (atb_ttl (w_state w)) →
  ∃ m, send_attest_request (loopback allow) c date random json qs (Some ch) w = (Returns (Ok (mk_tresp 200 m [])), world_registry w r') ∧
    encode_response (attest_headers suite version sjson (atb_ttl (w_state w)) res) = Returns m.
Proof using SL JL UL.
  intros Ht Hu Hd Hr Hq Hshare Hnow Hch Hver Hex Hreg Hsq Hid Httl.
  pose proof Hex as (_ & _ & Hsuite & _)%execute_server_Ok.
  destruct (response_wire allow (attest_headers suite version sjson (atb_ttl (w_state w)) res)) as (m & Hm & _); [done..| |].
  { cbn [attest_headers rh_cipher_suite]. by rewrite suite_round_trip, (offered_not_legacy _ _ _ Hsuite). }
  exists m. split; [|done]. destruct (request_wire allow (client_headers date random json qs (Some ch))) as (mr & He & _); [done..|].
  apply call_transport_Ok. split_and!; [done..|]. exists mr. split; [done|]. unfold loopback. cbn [treq_method treq_headers].
  rewrite decide_False, decide_True by done. rewrite (endpoint_wire _ _ _ _ _ _ He) by done.
  unfold aths_handler, process_hello, check_challenge.
  cbn [wire_request client_headers h_encrypted_hello h_key_shares_json h_random h_challenge h_cipher_suites h_versions h_client_quotes].
  change (accepted_suites _ _) with [X25519MlKem768Aes256GcmSha384].
  rewrite Hshare, decide_True, decide_True by (done || lia). rewrite Hnow, Hver, Hex, Hreg. cbn [render]. by rewrite Hm.
Qed.

Lemma honest_challenge {ML : HmacLaws MP} key t0 t rand ch :
  is_u64 t0 → length rand = 8%nat → t0 ≤ t ≤ t0 + 300 → issue_challenge key (Some t0) (Some rand) = Ok ch →
  length ch = 48%nat ∧ verify_challenge ch key (Some t) = Returns (Ok ch).
Proof using.
  intros H0 Hr [? ?] Hi. destruct (issue_challenge_shape key t0 rand ch H0 Hr Hi) as (Hl & Hts & _ & Hsig).
  split; [done|]. apply verify_challenge_Ok. rewrite Hts. by split_and!.
Qed.

End wire.

(** ** Theorems *)

Lemma handshake_Ok {CT : ClientText} {CJ : ShareJson} {SP : SfvPrim} {SL : SfvLaws SP} {HJ : HeaderJson} {JL : HeaderJsonLaws HJ}
    {UP : UuidPrim} {UL : UuidLaws UP} {AP : AeadPrim} {HaP : HashPrim} {HP : HkdfPrim} {MP : HmacPrim} {KP : KexPrim} {KL : KexLaws KP}
    {DF : DebugFmt} {SJ : HandshakeJson} {CL : ShareJsonLaws SJ CJ} (mldsa_verify : bytes → bytes → bytes → bool) (allow : option string)
    (c : OpenHttpaClient) (e : ClientEnv) (w w' : World) (s : SessionInner) :
  visible_str (ce_date e) → length (env_atb_id (w_env w)) = 16%nat → is_u64 (atb_ttl (w_state w)) →
  (∀ r, env_random (w_env w) = Some r → length r = 32%nat) →
  attest_handshake (loopback allow) mldsa_verify allow c e w = (Returns (Ok s), w') →
  ∃ ch kem random qs suite version sshare res,
    oc_require_preflight c = true ∧ HybridKemPair.generate (ce_ecdhe e) (ce_mlkem e) = Ok kem ∧ ce_random e = Some random ∧
    verify_challenge ch (ChallengeKey.read (challenge_key (w_state w))) (w_now w) = Returns (Ok ch) ∧
    execute_server (executor (w_state w)) (w_env w)
      (Handshake.mk_request [X25519MlKem768Aes256GcmSha384] [V2] random ch (HybridKemPair.public_key_share kem)
         (wire_quote <$> qs) (atb_ttl (w_state w)))
      (Some (tee_provider (w_state w))) (verifier (w_state w)) (identity_key (w_state w)) = Returns (Ok (suite, version, sshare, res)) ∧
    AtbRegistry.sessions (registry (w_state w')) !! id s = Some (new_session suite version res) ∧
    keys s = keys (new_session suite version res) ∧ cipher_suite s = suite ∧ Session.version s = version.
Proof.
  intros Hd Hid Httl Hr32 H. unfold attest_handshake in H.
  apply prog_bind_Ok in H as (challenge & w1 & Hpre & H). apply prog_bind_Ok in H as (kem & w2 & [Hkem%map_err_Ok ->]%of_result_Ok & H).
  apply prog_bind_Ok in H as (random & w3 & [Hrand%ok_or_Ok ->]%of_result_Ok & H).
  apply prog_bind_Ok in H as (json & w4 & [Hjson%ok_or_Ok ->]%of_result_Ok & H).
  apply prog_bind_Ok in H as (qs & w5 & [Hqs ->]%of_result_Ok & H).
  apply prog_bind_Ok in H as (tresp & w6 & Hsend & H). apply prog_bind_Ok in H as (resp & w7 & [Hread ->]%of_result_Ok & H).
  assert (w1 = w ∧ (challenge = None ∨ oc_require_preflight c = true)) as [-> Hreq].
  { destruct (oc_require_preflight c).
    - apply prog_bind_Ok in Hpre as (ch & w2 & ->%perform_preflight_Ok & Hm). injection Hm as _ <-. auto.
    - injection Hpre as <- <-. auto. }
  destruct (attest_leg allow _ _ _ _ _ _ _ _ _ _ Hsend Hread Hd Hid Httl)
    as (share & ch & suite & version & sshare & res & r & t & Hshare & -> & Hnow & Hver & Hex & Hins & -> & ->).
  rewrite (parse_client_encode _ _ Hjson) in Hshare. injection Hshare as <-.
  pose proof Hex as (_ & _ & Hsuite & Hversion & _ & _ & Hres & _)%execute_server_Ok.
  assert (challenge_bytes (Some ch) = ch) as Hch.
  { apply challenge_bytes_48. rewrite Hnow in Hver. apply verify_challenge_Ok in Hver. tauto. }
  unfold of_call in H. rewrite (client_finish_agrees _ _ _ _ _ _ _ _ _ _ _ _ _ _ (Some ch) _ Hex) in H by (reflexivity || (symmetry; exact Hch) || by apply Hr32).
  injection H as H <-. inv_ok. exists ch, kem, random, qs, suite, version, sshare, res.
  split_and!; try done.
  - by destruct Hreq.
  - unfold AtbRegistry.insert in Hins. destruct (AtbRegistry.claim_upd _ _); [|done]. injection Hins as <-. apply lookup_insert_eq.
  - unfold negotiate_suite in Hsuite. apply ok_or_Ok, head_filter_Some in Hsuite as (l1 & l2 & _ & _ & Hin).
    by apply list_elem_of_singleton in Hin as ->.
  - unfold negotiate_version in Hversion. apply ok_or_Ok, head_filter_Some in Hversion as ([|? []] & l2 & Heq & _ & _); by simplify_eq/=.
Qed.

(** [C6] A client that ends the handshake with a session talks to a server that holds
    its other end: over the whole exchange, headers included, whenever
    [attest_handshake] returns a session, the server ran the handshake to its end on
    the client's own random, key share and challenge, a challenge it had accepted as
    fresh, and its registry gained under the client's session identifier a session
    with the same keys, suite and version. *)
Theorem handshake_sound {CT : ClientText} {CJ : ShareJson} {SP : SfvPrim} {SL : SfvLaws SP} {HJ : HeaderJson} {JL : HeaderJsonLaws HJ}
    {UP : UuidPrim} {UL : UuidLaws UP} {AP : AeadPrim} {HaP : HashPrim} {HP : HkdfPrim} {MP : HmacPrim} {KP : KexPrim} {KL : KexLaws KP}
    {DF : DebugFmt} {SJ : HandshakeJson} {CL : ShareJsonLaws SJ CJ} (mldsa_verify : bytes → bytes → bytes → bool) (allow : option string)
    (c : OpenHttpaClient) (e : ClientEnv) (w w' : World) (s : SessionInner) :
  visible_str (ce_date e) → length (env_atb_id (w_env w)) = 16%nat → is_u64 (atb_ttl (w_state w)) →
  (∀ r, env_random (w_env w) = Some r → length r = 32%nat) →
  attest_handshake (loopback allow) mldsa_verify allow c e w = (Returns (Ok s), w') →
  ∃ ch kem random qs suite version sshare res,
    oc_require_preflight c = true ∧ HybridKemPair.generate (ce_ecdhe e) (ce_mlkem e) = Ok kem ∧ ce_random e = Some random ∧
    verify_challenge ch (ChallengeKey.read (challenge_key (w_state w))) (w_now w) = Returns (Ok ch) ∧
    execute_server (executor (w_state w)) (w_env w)
      (Handshake.mk_request [X25519MlKem768Aes256GcmSha384] [V2] random ch (HybridKemPair.public_key_share kem)
         (wire_quote <$> qs) (atb_ttl (w_state w)))
      (Some (tee_provider (w_state w))) (verifier (w_state w)) (identity_key (w_state w)) = Returns (Ok (suite, version, sshare, res)) ∧
    AtbRegistry.sessions (registry (w_state w')) !! id s = Some (new_session suite version res) ∧
    keys s = keys (new_session suite version res) ∧ cipher_suite s = suite ∧ Session.version s = version.
Proof. apply handshake_Ok. Qed.

(** [C7] An honest handshake completes: with a preflight at [t0] and a handshake at
    most five minutes later under the same challenge key, if the server's executor
    accepts the client's values as they arrive and the session fits the policy and
    the registry, then the client's call returns; its result is the verdict of the
    client's own checks on the server's signature and quotes, and with that the
    session keys are those of the session the server registered. *)
Theorem handshake_completes {CT : ClientText} {CJ : ShareJson} {SP : SfvPrim} {SL : SfvLaws SP} {HJ : HeaderJson} {JL : HeaderJsonLaws HJ}
    {UP : UuidPrim} {UL : UuidLaws UP} {AP : AeadPrim} {HaP : HashPrim} {HP : HkdfPrim} {MP : HmacPrim} {ML : HmacLaws MP}
    {KP : KexPrim} {KL : KexLaws KP} {DF : DebugFmt} {SJ : HandshakeJson} {CL : ShareJsonLaws SJ CJ}
    (mldsa_verify : bytes → bytes → bytes → bool) (allow : option string)
    (c : OpenHttpaClient) (e : ClientEnv) (w : World) (t0 t : Z) (rand ch random json sjson : bytes) (kem : HybridKemPair.t)
    (qs : list AttestQuote) suite version sshare res r' :
  let st := w_state w in
  let share := HybridKemPair.public_key_share kem in
  oc_has_transport c = true → uri_valid (attest_uri (oc_server_uri c)) = true → oc_require_preflight c = true →
  ps_challenge_key (w_preflight w) = challenge_key st →
  w_pre_now w = Some t0 → is_u64 t0 → w_pre_rand w = Some rand → length rand = 8%nat → w_now w = Some t → t0 ≤ t ≤ t0 + 300 →
  issue_challenge (ChallengeKey.read (challenge_key st)) (Some t0) (Some rand) = Ok ch →
  HybridKemPair.generate (ce_ecdhe e) (ce_mlkem e) = Ok kem → ce_random e = Some random → length random = 32%nat →
  visible_str (ce_date e) → encode_client_share share = Some json →
  generate_client_quote c random share (Some ch) = Ok qs → forallb quote_encodable qs = true →
  execute_server (executor st) (w_env w)
    (Handshake.mk_request [X25519MlKem768Aes256GcmSha384] [V2] random ch share (wire_quote <$> qs) (atb_ttl st))
    (Some (tee_provider st)) (verifier st) (identity_key st) = Returns (Ok (suite, version, sshare, res)) →
  register st suite version sshare res = (Attest suite version sjson (atb_ttl st) res, r') →
  forallb quote_encodable (server_quotes res) = true → length (atb_id res) = 16%nat → length (server_random res) = 32%nat →
  is_u64 (atb_ttl st) →
  let resp := mk_response (atb_id res) suite version sshare (server_random res) (wire_quote <$> server_quotes res)
                (server_signatures res) (Z.min (atb_ttl st) MAX_SFV_INT) in
  attest_handshake (loopback allow) mldsa_verify allow c e w =
    (Returns (att ← (_ ← verify_pqc_server_sig mldsa_verify (oc_config c) resp (hs_transcript_hash res);
                     verify_server_quotes (oc_config c) resp (hs_transcript_hash res));
              Ok (AttestSession.new (atb_id res) X25519MlKem768Aes256GcmSha384 V2 (session_keys res)
                    (ce_now e + Z.min (atb_ttl st) MAX_SFV_INT) default_strategy att)),
     world_registry w r') ∧
  AtbRegistry.sessions r' !! atb_id res = Some (new_session suite version res).
Proof.
  intros st share Ht Hu Hp Hkey Hn0 H0 Hrand Hrl Hn Htt Hi Hkem Hr Hrl32 Hd Hj Hq Hqe Hex Hreg Hsq Hid Hsr Httl resp.
  destruct (honest_challenge _ _ _ _ _ H0 Hrl Htt Hi) as [H48 Hver]. split.
  - unfold attest_handshake. rewrite Hp. erewrite prog_bind_step.
    2: { apply prog_bind_Ok. exists ch, w. split; [|done]. apply perform_preflight_issues; [done..|]. by rewrite Hkey, Hn0, Hrand. }
    rewrite (of_result_step _ _ _ kem) by by rewrite Hkem. rewrite (of_result_step _ _ _ random) by by rewrite Hr.
    fold share. rewrite (of_result_step _ _ _ json) by by rewrite Hj. rewrite (of_result_step _ _ _ qs) by done.
    destruct (attest_leg_runs allow c (ce_date e) random json qs ch w share t suite version sshare res sjson r') as (m & Hsend & Hm);
      try done. { by apply parse_client_encode. }
    rewrite (prog_bind_step _ _ _ _ _ Hsend).
    assert (encode_server_share sshare = Some sjson) as Hsj.
    { apply register_cases in Hreg as [[_ (? & ? & _)]|(_ & _ & [[? _]|(? & ? & [= ->])])]; done. }
    pose proof Hex as (_ & _ & Hsuite & _)%execute_server_Ok.
    rewrite (of_result_step _ _ _ resp)
      by (apply (read_response_wire allow suite version sshare sjson (atb_ttl st) res m); try done; by eapply offered_not_legacy).
    unfold of_call. rewrite (client_finish_agrees _ _ _ _ _ _ _ _ _ _ _ _ _ _ (Some ch) _ Hex)
      by (reflexivity || done || (symmetry; by apply challenge_bytes_48)). done.
  - apply register_cases in Hreg as [[_ (? & ? & _)]|(_ & Hins & _)]; [done|].
    unfold AtbRegistry.insert in Hins. destruct (AtbRegistry.claim_upd _ _); [|done]. injection Hins as <-. apply lookup_insert_eq.
Qed.

(** A client that skips the preflight, which is its default, cannot complete a
    handshake: the server demands a challenge. *)
Theorem no_preflight_no_session {CT : ClientText} {CJ : ShareJson} {SP : SfvPrim} {SL : SfvLaws SP} {HJ : HeaderJson} {JL : HeaderJsonLaws HJ}
    {UP : UuidPrim} {UL : UuidLaws UP} {AP : AeadPrim} {HaP : HashPrim} {HP : HkdfPrim} {MP : HmacPrim} {KP : KexPrim} {KL : KexLaws KP}
    {DF : DebugFmt} {SJ : HandshakeJson} {CL : ShareJsonLaws SJ CJ} (mldsa_verify : bytes → bytes → bytes → bool) (allow : option string)
    (c : OpenHttpaClient) (e : ClientEnv) (w w' : World) (s : SessionInner) :
  visible_str (ce_date e) → length (env_atb_id (w_env w)) = 16%nat → is_u64 (atb_ttl (w_state w)) →
  (∀ r, env_random (w_env w) = Some r → length r = 32%nat) → oc_require_preflight c = false →
  attest_handshake (loopback allow) mldsa_verify allow c e w ≠ (Returns (Ok s), w').
Proof.
  intros Hd Hid Httl Hr Hp H. destruct (handshake_Ok _ _ _ _ _ _ _ Hd Hid Httl Hr H) as (ch & kem & random & qs & su & v & sh & res & Hp' & _).
  congruence.
Qed.

(** ** A run *)

Module ToyWire.
#[local] Existing Instances Toy.hash Toy.hkdf Toy.hmac Toy.aead ToyKex.prim Demo.debug ToySfv.prim ToyHeaders.json ToyHeaders.uuid.

#[global] Instance text : ClientText := {
  uri_valid s := true;
  status_display z := pretty.pretty z;
  from_utf8_lossy b := string_of_list_ascii b;
}.

(** Fields with their lengths. *)
Definition pack (l : list bytes) : option bytes :=
  if forallb (λ b, bool_decide (Z.of_nat (length b) < 2 ^ 32)) l then Some (concat (len_prefixed 4 <$> l)) else None.
Fixpoint unpack (n : nat) (b : bytes) : option (list bytes) :=
  match n with
  | O => Some []
  | S n =>
      let len := Z.to_nat (from_be (take 4 b)) in
      r ← unpack n (drop len (drop 4 b)); Some (take len (drop 4 b) :: r)
  end.
Lemma unpack_pack l b : pack l = Some b → unpack (length l) b = Some l.
Proof.
  unfold pack. destruct (forallb _ l) eqn:Hl; [|done]. intros [= <-]. induction l as [|a l IH]; [done|].
  cbn [forallb] in Hl. apply andb_true_iff in Hl as [Ha%bool_decide_eq_true Hl]. cbn [length unpack fmap list_fmap concat].
  pose proof (length_to_be 4 (Z.of_nat (length a))) as H4.
  assert (∀ r, take 4 (len_prefixed 4 a ++ r) = to_be 4 (Z.of_nat (length a))) as ->.
  { intros r. unfold len_prefixed. rewrite <-app_assoc, take_app_le, take_ge by lia. done. }
  assert (∀ r, drop 4 (len_prefixed 4 a ++ r) = a ++ r) as ->.
  { intros r. unfold len_prefixed. rewrite <-app_assoc, drop_app_le, drop_ge by lia. done. }
  rewrite from_be_to_be by (split; [lia|exact Ha]). rewrite Nat2Z.id.
  rewrite drop_app_length, take_app_length. fold (fmap (M := list) (len_prefixed 4) l). by rewrite IH.
Qed.

#[global] Instance server_json : HandshakeJson := {
  parse_client_share b := match unpack 2 b with Some [e; m] => Some (mk_share e m) | _ => None end;
  encode_server_share s :=
    pack [s_ecdhe_public s; s_mlkem_public s; s_mlkem_ciphertext s; match s_signature_alg s with Some _ => [u8_of 1] | None => [] end];
  parse_hello b := Some true;
}.
#[global] Instance client_json : ShareJson := {
  encode_client_share s := pack [ecdhe_public s; mlkem_public s];
  parse_server_share b :=
    match unpack 4 b with
    | Some [e; m; ct; alg] => Some (mk_server_share e m ct (if decide (alg = []) then None else Some MlDsa65))
    | _ => None
    end;
}.
#[global] Instance json_laws : ShareJsonLaws server_json client_json.
Proof.
  split; cbn [parse_client_share encode_server_share encode_client_share parse_server_share server_json client_json].
  - intros [e m] b H%unpack_pack. cbn [length ecdhe_public mlkem_public] in H. by rewrite H.
  - intros [e m ct alg] b H%unpack_pack. cbn [length s_ecdhe_public s_mlkem_public s_mlkem_ciphertext s_signature_alg] in H.
    rewrite H. by destruct alg as [[]|].
Qed.

Definition generate_quotes : TeeProvider := λ rd, Ok [mk_quote Mock Raw (as_bytes "q") rd []].
Definition client (preflight : bool) : OpenHttpaClient :=
  mk_openhttpa_client "https://server.example/" generate_quotes true preflight
    (mk_client true Demo.verify None).
Definition client_env : ClientEnv :=
  mk_client_env (Some (as_bytes "client ecdhe")) (Some (as_bytes "client mlkem")) (Some (replicate 32 (u8_of 7))) "2026-04-27T00:00:00Z" 0.
Definition world : World :=
  mk_world (mk_preflight_state [X25519MlKem768Aes256GcmSha384] [V2] (as_bytes "k") false)
    (mk_handler Demo.executor AtbRegistry.new generate_quotes (Some Demo.verify) None 3600 (as_bytes "k") None None)
    (Some 1000) (Some (as_bytes "randomly")) Demo.env (replicate 16 (u8_of 1)) (Some 1010).
Abbreviation run preflight :=
  (attest_handshake (CT := text) (SJ := client_json) (SP := ToySfv.prim) (HJ := ToyHeaders.json) (UP := ToyHeaders.uuid) (HaP := Toy.hash)
     (HP := Toy.hkdf) (KP := ToyKex.prim)
     (loopback (SP := ToySfv.prim) (HJ := ToyHeaders.json) (UP := ToyHeaders.uuid) (AP := Toy.aead) (HaP := Toy.hash) (HP := Toy.hkdf)
        (MP := Toy.hmac) (KP := ToyKex.prim) (DF := Demo.debug) (SJ := server_json) None)
     (λ _ _ _, true) None (client preflight) client_env world).

Definition finished (r : outcome (result ClientError SessionInner) * World) : bool :=
  match r.1 with Returns (Ok _) => true | _ => false end.

(** The server's part of the run. *)
Definition challenge : bytes :=
  u64_be 1000 ++ as_bytes "randomly" ++ hmac_sha256 (as_bytes "k") (u64_be 1000 ++ as_bytes "randomly").
Definition kem : HybridKemPair.t := HybridKemPair.mk (as_bytes "client ecdhe") (as_bytes "client mlkem").
Definition quotes : list AttestQuote :=
  [mk_quote Mock Raw (as_bytes "q") (client_report_data (replicate 32 (u8_of 7)) (challenge_bytes (Some challenge))
     (HybridKemPair.public_key_share kem)) []].
Abbreviation server_run :=
  (execute_server (DF := Demo.debug) (HaP := Toy.hash) (HP := Toy.hkdf) (KP := ToyKex.prim) (executor (w_state world)) (w_env world)
    (Handshake.mk_request [X25519MlKem768Aes256GcmSha384] [V2] (replicate 32 (u8_of 7)) challenge
       (HybridKemPair.public_key_share (KP := ToyKex.prim) kem) (wire_quote <$> quotes) (atb_ttl (w_state world)))
    (Some (tee_provider (w_state world))) (verifier (w_state world)) (identity_key (w_state world))).
Definition accepted (r : outcome (result HandshakeError (CipherSuite * ProtocolVersion * ServerKeyShare * AtHsResult))) : bool :=
  match r with
  | Returns (Ok (suite, version, sshare, res)) =>
      forallb quote_encodable (server_quotes res) && bool_decide (length (atb_id res) = 16%nat) &&
      bool_decide (length (server_random res) = 32%nat) &&
      match (register (HJ := server_json) (w_state world) suite version sshare res).1 with Attest _ _ _ _ _ => true | _ => false end
  | _ => false
  end.

End ToyWire.

Lemma handshake_sound_witness :
  ∃ s w' suite version res, ToyWire.run true = (Returns (Ok s), w') ∧
    AtbRegistry.sessions (registry (w_state w')) !! id s = Some (new_session suite version res) ∧
    keys s = keys (new_session suite version res).
Proof.
  assert (ToyWire.finished (ToyWire.run true) = true) as Hf by (vm_compute; reflexivity).
  destruct (ToyWire.run true) as [[[s|?]|] w'] eqn:Hrun; [|discriminate Hf..]. clear Hf.
  assert (∀ r, env_random (w_env ToyWire.world) = Some r → length r = 32%nat) as H32.
  { change (env_random (w_env ToyWire.world)) with (Some (replicate 32 Ascii.zero)). intros r Hr. apply (inj Some) in Hr. by subst r. }
  destruct (handshake_sound (CT := ToyWire.text) (CJ := ToyWire.client_json) (SP := ToySfv.prim) (SL := ToySfv.laws)
    (HJ := ToyHeaders.json) (JL := ToyHeaders.json_laws) (UP := ToyHeaders.uuid) (UL := ToyHeaders.uuid_laws) (AP := Toy.aead)
    (HaP := Toy.hash) (HP := Toy.hkdf) (MP := Toy.hmac) (KP := ToyKex.prim) (KL := ToyKex.laws) (DF := Demo.debug)
    (SJ := ToyWire.server_json) (CL := ToyWire.json_laws) (λ _ _ _, true) None (ToyWire.client true) ToyWire.client_env
    ToyWire.world w' s) as (ch & kem & random & qs & suite & version & sshare & res & _ & _ & _ & _ & _ & Hs & Hk & _);
    [vm_compute; reflexivity|vm_compute; reflexivity|by_compute|exact H32|exact Hrun|].
  exists s, w', suite, version, res. split; [reflexivity|]. split; [exact Hs|exact Hk].
Defined.

Lemma handshake_completes_witness :
  ∃ r' res suite version,
    (ToyWire.run true).2 = world_registry ToyWire.world r' ∧
    AtbRegistry.sessions r' !! atb_id res = Some (new_session suite version res).
Proof.
  assert (ToyWire.accepted ToyWire.server_run = true) as Ha by (vm_compute; reflexivity).
  destruct ToyWire.server_run as [[[[[suite version] sshare] res]|]|] eqn:Hex; [|discriminate Ha..].
  unfold ToyWire.accepted in Ha. apply andb_true_iff in Ha as [Ha Hreg]. apply andb_true_iff in Ha as [Ha Hsr].
  apply andb_true_iff in Ha as [Hq Hid]. apply bool_decide_eq_true in Hid, Hsr.
  destruct (register (HJ := ToyWire.server_json) _ _ _ _ _) as [resp r'] eqn:Hr.
  pose proof Hr as [[_ (code & -> & _)]|(_ & _ & [[-> _]|(json & _ & ->)])]%register_cases; [discriminate Hreg..|].
  destruct (handshake_completes (CT := ToyWire.text) (CJ := ToyWire.client_json) (SP := ToySfv.prim) (SL := ToySfv.laws)
    (HJ := ToyHeaders.json) (JL := ToyHeaders.json_laws) (UP := ToyHeaders.uuid) (UL := ToyHeaders.uuid_laws) (AP := Toy.aead)
    (HaP := Toy.hash) (HP := Toy.hkdf) (MP := Toy.hmac) (ML := Toy.hmac_laws) (KP := ToyKex.prim) (KL := ToyKex.laws) (DF := Demo.debug)
    (SJ := ToyWire.server_json) (CL := ToyWire.json_laws) (λ _ _ _, true) None (ToyWire.client true) ToyWire.client_env ToyWire.world
    1000 1010 (as_bytes "randomly") ToyWire.challenge (replicate 32 (u8_of 7))
    (default [] (encode_client_share (ShareJson := ToyWire.client_json) (HybridKemPair.public_key_share (KP := ToyKex.prim) ToyWire.kem)))
    json ToyWire.kem
    ToyWire.quotes suite version sshare res r') as [Hrun Hin].
  1-5: reflexivity. 1: by_compute. 1-3: reflexivity. 1: lia. 1: vm_compute; reflexivity. 1-3: reflexivity. 1-2: vm_compute; reflexivity.
  1: unfold ToyWire.quotes; reflexivity. 1: unfold ToyWire.quotes; reflexivity. 1: exact Hex. 1: exact Hr. 1: exact Hq. 1: exact Hid. 1: exact Hsr.
  1: by_compute.
  exists r', res, suite, version. split; [|exact Hin]. by rewrite Hrun.
Defined.
