(* ===== verification/ClientCall.v ===== *)
(** * Calls of an attested client

    [trusted_request_ext] of [crates/openhttpa-client/src/client.rs] as a whole: the
    checks, the URI, the sealed request, the transport, the bounds on the answer and its
    unsealing.  [Client] has the sealing and the unsealing; here they are composed over
    any transport, and over the one ([serve]) that delivers to a handler behind the
    server's extractors.

    A session is shared: a call returns the session with its counters moved, also when
    it fails. *)

From S2P Require Import Prelude Nonce Crypto Aead Proto State KeySchedule Attestation Session KeyExchange Handshake Http Oblivious Ahl Trailers.
From S2P Require Import Sfv Headers Registry Middleware Client Extractors Exchange HandshakeWire.
From stdpp Require Import options.

#[local] Open Scope Z_scope.

(** What the client reads of a parsed URI, and [Method::from_bytes]. *)
Class UriParts : Type := {
  parts_path : string → string;
  parts_query : string → option string;
  parts_scheme : string → option bytes;
  parts_authority : string → option bytes;
  method_valid : string → bool;
}.

Definition ends_with_slash (s : string) : bool := bool_decide (last (as_bytes s) = Some "/"%char).
Definition starts_with_slash (s : string) : bool := bool_decide (head (as_bytes s) = Some "/"%char).
Definition pop_char (s : string) : string := string_of_list_ascii (removelast (as_bytes s)).

Definition join_uri (base path : string) : string :=
  ((if ends_with_slash base && starts_with_slash path then pop_char base else base) +:+ path)%string.

(** A transport's [send], over a state of its own. *)
Abbreviation wire St := (St → Transport.Request → result SendError Transport.Response * St).
(** What a call uses of an answer: its status, and what [to_bytes] makes of its body under a
    limit. *)
Abbreviation fetcher St := (St → Transport.Request → result SendError (Z * (Z → result string bytes)) * St).
Definition whole_bodies {St} (send : wire St) : fetcher St := λ w req,
  match send w req with
  | (Err e, w) => (Err e, w)
  | (Ok resp, w) => (Ok (Transport.status resp, Transport.to_bytes (Transport.resp_body resp)), w)
  end.

Section call.
Context {CT : ClientText} {UR : UriParts} {CJ : CiphertextJson}.
Context {AP : AeadPrim} {HaP : HashPrim} {MP : HmacPrim} {UP : UuidPrim} {XP : HexPrim} {BP : Base64Prim}.

(** The authority that the MAC covers. *)
Definition call_authority (uri : string) : string :=
  string_of_list_ascii (ahl_authority (parts_scheme uri) (parts_authority uri)).

(** The clock is read before sealing, by the sealing and by the unsealing. *)
Definition trusted_request_over {St} (fetch : fetcher St) (c : OpenHttpaClient) (max_response_size t0 t1 t2 : Z) (session : SessionInner)
    (method path : string) (body : bytes) (extra : option HeaderMap) (w : St) : result ClientError bytes * SessionInner * St :=
  if negb (AttestSession.is_alive t0 session) then (Err ClientNotAttested, session, w)
  else if negb (oc_has_transport c) then (Err (ClientTransport "No transport configured"), session, w)
  else
    let uri := join_uri (oc_server_uri c) path in
    if negb (uri_valid uri) then (Err (ClientHandshake ("Invalid request URI '" +:+ uri +:+ "'")), session, w)
    else
      let aad := request_aad (id session) in
      let '(sealed, session) := seal_request_body t1 session method (parts_path uri) (parts_query uri)
        (call_authority uri) body aad extra in
      match sealed with
      | Err e => (Err e, session, w)
      | Ok (headers, ct, _) =>
          if negb (method_valid method) then (Err (ClientTransport ("invalid HTTP method '" +:+ method +:+ "'")), session, w)
          else
            let req := Transport.mk_request method uri (hm_insert headers STR_CONTENT_TYPE (as_bytes "application/json"))
              (ciphertext_to_json (hex_encode ct)) None in
            match fetch w req with
            | (Err e, w) => (Err (ClientTransport (to_string e)), session, w)
            | (Ok (status, to_bytes), w) =>
                if negb (is_success status) then
                  (Err (ClientTransport ("Server returned error: " +:+ status_display status)), session, w)
                else
                  match to_bytes max_response_size with
                  | Err e => (Err (ClientTransport e), session, w)
                  | Ok b => let '(r, session) := unseal_response_body t2 session b aad in (r, session, w)
                  end
            end
      end.

(** The call over a transport whose bodies are whole. *)
Definition trusted_request_ext {St} (send : wire St) (c : OpenHttpaClient) (max_response_size t0 t1 t2 : Z) (session : SessionInner)
    (method path : string) (body : bytes) (extra : option HeaderMap) (w : St) : result ClientError bytes * SessionInner * St :=
  trusted_request_over (whole_bodies send) c max_response_size t0 t1 t2 session method path body extra w.

(** The handshake over the same transport: its requests have no body. *)
Definition handshake_send {St} (send : wire St) (w : St) (req : TransportRequest) : result string TransportResponse * St :=
  let '(r, w) := send w (Transport.mk_request (treq_method req) (treq_uri req) (treq_headers req) [] None) in
  (r ← map_err to_string r; Ok (mk_tresp (Transport.status r) (Transport.resp_headers r) (Transport.resp_body r)), w).

End call.

(** ** A handler behind the extractors *)

Section serve.
Context {AP : AeadPrim} {HaP : HashPrim} {MP : HmacPrim} {UP : UuidPrim} {XP : HexPrim} {BP : Base64Prim} {J : CiphertextJson}.
Context {X : JsonExtractor} {T : Type} {V : ValueJson T}.

(** [net] is what the network makes of the request, [handler] what answers it. *)
Definition serve (net : Transport.Request → Request) (handler : bytes → T) (t1 t2 : Z) : wire AtbRegistry.t := λ r req,
  let answer status body := Ok (Transport.mk_response status [] body None) in
  let '(got, r) := decrypt_request t1 r (net req) in
  let '(sess, r) := from_request_parts t1 r (net req) in
  match got, sess with
  | Ok p, Ok sess =>
      let '(resp, sess) := seal t2 sess (handler p) in
      let r := AtbRegistry.update r (id (ohs_session sess)) (ohs_session sess) in
      match resp with Ok sealed => (answer 200 (resp_body sealed), r) | Err st => (answer st [], r) end
  | Err st, _ | _, Err st => (answer st [], r)
  end.

End serve.

(** ** Lemmas *)

Section lemmas.
Context {AP : AeadPrim} {AL : AeadLaws AP} {HaP : HashPrim} {MP : HmacPrim}.
Context {UP : UuidPrim} {UL : UuidLaws UP} {XP : HexPrim} {XL : HexLaws XP} {BP : Base64Prim} {BL : Base64Laws BP}.
Context {J : CiphertextJson} {JL : CiphertextJsonLaws J} {X : JsonExtractor} {JXL : JsonExtractorLaws J X}.
Context {T : Type} {V : ValueJson T} {CT : ClientText} {UR : UriParts}.

(** What no call changes of a session. *)
Definition identity (s : SessionInner) : AtbId * CipherSuite * option VerificationResult := (id s, cipher_suite s, attestation_result s).

Lemma trr_identity {E A} now s n (f : SessionKeys → Z → result E A) : identity (AttestSession.with_keys_for_trr now s n f).2 = identity s.
Proof using.
  unfold AttestSession.with_keys_for_trr, AttestSession.replay_check, AttestSession.replay_commit, AttestSession.replay_rollback.
  repeat case_match; simplify_eq/=; done.
Qed.
Lemma seal_identity now s method path query authority body aad extra :
  identity (seal_request_body now s method path query authority body aad extra).2 = identity s.
Proof using.
  unfold seal_request_body, AttestSession.with_keys_for_next_trr.
  pose proof (trr_identity now s (client_counter s) (request_closure (id s) method path query authority body aad extra)) as H.
  by destruct (AttestSession.with_keys_for_trr _ _ _ _) as [? ?].
Qed.
(** Sealing moves the client's half of a session only. *)
Lemma seal_keeps now s method path query authority body aad extra :
  let s' := (seal_request_body now s method path query authority body aad extra).2 in keys s' = keys s ∧ server_counter s' = server_counter s.
Proof using.
  cbv zeta. unfold seal_request_body, AttestSession.with_keys_for_next_trr. set (f := request_closure _ _ _ _ _ _ _ _).
  assert (∀ n, keys (AttestSession.with_keys_for_trr now s n f).2 = keys s ∧ server_counter (AttestSession.with_keys_for_trr now s n f).2 = server_counter s) as H.
  { intros n. unfold AttestSession.with_keys_for_trr, AttestSession.replay_check, AttestSession.replay_commit, AttestSession.replay_rollback.
    repeat case_match; simplify_eq/=; done. }
  specialize (H (client_counter s)). by destruct (AttestSession.with_keys_for_trr _ _ _ _) as [? ?].
Qed.
(** What the client opens is the server's ciphertext under the client's view of the counter. *)
Lemma sealed_answer now now' sess (v : T) sealed sess' cs cs' aad pt :
  seal now sess v = (Ok sealed, sess') → unseal_response_body now' cs (resp_body sealed) aad = (Ok pt, cs') →
  ∃ ct, AeadKey.seal_in_place (AeadKey.mk (server_write_key (keys cs)) Aes256Gcm) (build_aead_nonce (server_counter cs) (server_write_iv (keys cs))) aad pt = Ok ct ∧
    resp_body sealed = ciphertext_to_json (hex_encode ct).
Proof using AL XL JL.
  intros Hs Hu. assert (∃ ct, resp_body sealed = ciphertext_to_json (hex_encode ct)) as [ct Hct].
  { revert Hs. unfold seal. destruct (value_to_vec v) as [b|]; [|done]. unfold AttestSession.with_keys_for_trs. case_decide; [done|]. cbv zeta.
    destruct (checked_add64 _ _); [|done]. destruct (seal_response _ _ _ _) as [ct|]; [|done]. cbn. intros [= <- _]. by exists ct. }
  exists ct. split; [|done]. revert Hu. rewrite Hct. unfold unseal_response_body. rewrite ciphertext_round_trip. cbn [mbind option_bind]. rewrite hex_decode_encode.
  unfold AttestSession.with_keys_for_trs. case_decide; [done|]. cbv zeta. destruct (checked_add64 _ _); [|done]. cbn [flatten_session].
  intros [= Ho _]. unfold open_message in Ho. apply bind_Ok in Ho as (key & Hk & Ho). apply map_err_Ok in Hk, Ho.
  unfold BoundAeadKey.new, BoundAeadKey.with_sequence, AeadKey.new in Hk. destruct (unbound_key_ok _ _); [|done]. injection Hk as <-.
  by apply AeadKey.open_seal_iff.
Qed.

Lemma unseal_identity now s b aad : identity (unseal_response_body now s b aad).2 = identity s.
Proof using.
  unfold unseal_response_body, AttestSession.with_keys_for_trs. destruct (_ ≫= _) as [ct|]; [|done].
  case_decide; [done|]. cbv zeta. by destruct (checked_add64 _ _).
Qed.
Lemma call_identity {St} (send : wire St) c max t0 t1 t2 s method path body extra w r s' w' :
  trusted_request_ext send c max t0 t1 t2 s method path body extra w = (r, s', w') → identity s' = identity s.
Proof using.
  unfold trusted_request_ext, trusted_request_over, whole_bodies. destruct (negb (AttestSession.is_alive t0 s)); [by intros [= <- <- <-]|].
  destruct (negb (oc_has_transport c)); [by intros [= <- <- <-]|]. cbv zeta. set (uri := join_uri _ _).
  destruct (negb (uri_valid uri)); [by intros [= <- <- <-]|].
  pose proof (seal_identity t1 s method (parts_path uri) (parts_query uri) (call_authority uri) body (request_aad (id s)) extra) as Hseal.
  destruct (seal_request_body _ _ _ _ _ _ _ _ _) as [[[[hd ct] n]|e] s1]; cbn [snd] in Hseal; [|by intros [= <- <- <-]].
  destruct (negb (method_valid method)); [by intros [= <- <- <-]|].
  destruct (send w _) as [[resp|e] w1]; [|by intros [= <- <- <-]].
  destruct (negb (is_success _)); [by intros [= <- <- <-]|].
  destruct (Transport.to_bytes _ _) as [b|e]; [|by intros [= <- <- <-]].
  pose proof (unseal_identity t2 s1 b (request_aad (id s))) as Hun.
  destruct (unseal_response_body _ _ _ _) as [? s2]. cbn [snd] in Hun. intros [= <- <- <-]. by rewrite Hun.
Qed.

(** The body of the answer in a session: the handler's value sealed under the next response
    counter. *)
Definition answer_body (s : SessionInner) (pt answer : bytes) : Prop :=
  ∃ ct, AeadKey.seal_in_place (AeadKey.mk (server_write_key (keys s)) Aes256Gcm) (build_aead_nonce (server_counter s) (server_write_iv (keys s)))
      (request_aad (id s)) pt = Ok ct ∧ answer = ciphertext_to_json (hex_encode ct).

(** A call over [serve] is an exchange, up to the limit on the answer's size. *)
Lemma call_exchange net (handler : bytes → T) c max t0 t1 t2 t3 t4 cs cs' r r' method path body extra pt :
  let uri := join_uri (oc_server_uri c) path in
  let m := mk_message method (parts_path uri) (parts_query uri) (call_authority uri) extra body
             (λ hdrs b, net (Transport.mk_request method uri hdrs b None)) (handler body) t1 t2 t3 t4 in
  AttestSession.is_alive t0 cs = true → AttestSession.is_alive t1 cs = true → oc_has_transport c = true → uri_valid uri = true →
  method_valid method = true → exchange cs r m = (Some (body, pt), (cs', r')) →
  ∃ (answer : bytes) cs1, answer_body cs pt answer ∧ trusted_request_ext (serve net handler t2 t3) c max t0 t1 t4 cs method path body extra r =
    if decide (Z.of_nat (length answer) ≤ max) then (Ok pt, cs', r') else (Err (ClientTransport "length limit exceeded"), cs1, r').
Proof using AL XL JL.
  intros uri m Ha0 Ha1 Ht Hu Hm Hex. subst m. unfold exchange, trusted_request in Hex.
  cbn [m_sent m_received m_answered m_returned m_method m_path m_query m_authority m_body m_extra] in Hex.
  unfold trusted_request_ext, trusted_request_over, whole_bodies. rewrite Ha0, Ht. fold uri. rewrite Hu, Hm. cbn [negb]. cbv zeta. rewrite Ha1 in Hex.
  pose proof (seal_identity t1 cs method (parts_path uri) (parts_query uri) (call_authority uri) body (request_aad (id cs)) extra) as Hid.
  pose proof (seal_keeps t1 cs method (parts_path uri) (parts_query uri) (call_authority uri) body (request_aad (id cs)) extra) as Hkeep.
  destruct (seal_request_body _ _ _ _ _ _ _ _ _) as [[[[hd ct] n]|e] cs1]; [|done]. cbn [snd mbind result_bind] in *. destruct Hkeep as [Hkeys Hctr].
  assert (id cs1 = id cs) as Hid' by (unfold identity in Hid; congruence).
  unfold serve. cbn [m_net m_received m_answered m_response] in Hex.
  set (req := net _) in *. destruct (decrypt_request _ _ _) as [[p|] r1]; destruct (from_request_parts _ _ _) as [[sess|] r2]; try done.
  destruct (seal _ _ _) as [[sealed|] sess'] eqn:Hseal; [|done].
  destruct (unseal_response_body _ _ _ _) as [[q|] cs2] eqn:Hun; [|done]. simplify_eq.
  rewrite Hid' in Hun. exists (resp_body sealed), cs1. split.
  { unfold answer_body. rewrite <-Hkeys, <-Hctr. by eapply sealed_answer. }
  rewrite Hseal. cbn [Transport.status Transport.resp_body].
  change (is_success 200) with true. cbn [negb]. unfold Transport.to_bytes. case_decide; [|done]. by rewrite Hun.
Qed.

End lemmas.

(** A call between two synchronised ends returns what the handler answered to the body
    that was sent, and leaves the ends synchronised, so the next call works as well; an
    answer beyond the client's limit is the one error. *)
Theorem call_answered {AP : AeadPrim} {AL : AeadLaws AP} {HaP : HashPrim} {MP : HmacPrim} {UP : UuidPrim} {UL : UuidLaws UP}
    {XP : HexPrim} {XL : HexLaws XP} {BP : Base64Prim} {BL : Base64Laws BP} {J : CiphertextJson} {JL : CiphertextJsonLaws J}
    {X : JsonExtractor} {JXL : JsonExtractorLaws J X} {T : Type} {V : ValueJson T} {CT : ClientText} {UR : UriParts}
    net (handler : bytes → T) (c : OpenHttpaClient) (max t0 t1 t2 t3 t4 : Z) (cs ss : SessionInner) (r : AtbRegistry.t)
    (method path : string) (body pt : bytes) (extra : option HeaderMap) :
  let uri := join_uri (oc_server_uri c) path in
  oc_has_transport c = true → uri_valid uri = true → method_valid method = true → value_to_vec (handler body) = Some pt →
  synced cs ss → AtbRegistry.sessions r !! id ss = Some ss → client_counter ss < u64_max → server_counter ss < u64_max → t0 < expires_at cs →
  exchangeable (id ss) (expires_at cs) (expires_at ss)
    (mk_message method (parts_path uri) (parts_query uri) (call_authority uri) extra body
      (λ hdrs b, net (Transport.mk_request method uri hdrs b None)) (handler body) t1 t2 t3 t4) →
  ∃ (answer : bytes) cs1 cs' ss' r', answer_body cs pt answer ∧
    trusted_request_ext (serve net handler t2 t3) c max t0 t1 t4 cs method path body extra r =
      (if decide (Z.of_nat (length answer) ≤ max) then (Ok pt, cs', r') else (Err (ClientTransport "length limit exceeded"), cs1, r')) ∧
    synced cs' ss' ∧ AtbRegistry.sessions r' !! id ss' = Some ss'.
Proof.
  intros uri Ht Hu Hm Hpt Hsync Hr Hc Hs H0 Hex.
  assert (AttestSession.is_alive t1 cs = true) as H1 by (apply bool_decide_eq_true; apply Hex).
  destruct (exchange_ok cs ss r _ Hsync Hr Hex Hc Hs) as (pt' & cs' & ss' & r' & Hpt' & Hrun & Hsync' & Hr' & _).
  cbn [m_response] in Hpt'. assert (pt' = pt) as -> by congruence.
  eapply (call_exchange net handler c max t0 t1 t2 t3 t4) in Hrun as (answer & cs1 & Hans & Hrun); [|by apply bool_decide_eq_true|done..].
  exists answer, cs1, cs', ss', r'. by split_and!.
Qed.
