(* ===== verification/Transports.v ===== *)
(** * Transport adapters

    From [crates/openhttpa-transport/src]: the streamed bodies of [connection.rs], and the
    three implementations of the trait [AttestTransport]: over [reqwest]
    ([reqwest_adapter.rs]), the HTTP/2 stub ([h2_adapter.rs]) and HTTP/3 over QUIC
    ([h3_adapter.rs]) with its shared connection.

    [reqwest], [quinn] and [h3] are classes of operations over a state of their own.  The
    search for a connection is a step relation: calls share it under a read-write lock. *)

From S2P Require Import Prelude Nonce Crypto Aead Proto State KeySchedule Attestation Session KeyExchange Handshake Http Oblivious Ahl Trailers.
From S2P Require Import Sfv Headers Registry Middleware Client Extractors Exchange HandshakeWire ClientCall.
From stdpp Require Import options.

#[local] Open Scope Z_scope.

(** ** Streamed bodies *)

(** A frame of [http_body]: data or trailers. *)
Inductive Frame : Type := Data (b : bytes) | TrailerFrame (h : HeaderMap).
Abbreviation TransportBody := (list (result string Frame)).
Definition into_data (f : Frame) : option bytes := match f with Data b => Some b | TrailerFrame _ => None end.

Definition empty_body : TransportBody := [].
(** [Full] has no frame when there is nothing in it. *)
Definition full_body (b : bytes) : TransportBody := match b with [] => [] | _ => [Ok (Data b)] end.
Definition full_body_from_stream (s : list (result string bytes)) : TransportBody := (λ r : result string bytes, Data <$> r) <$> s.

(** [to_bytes]: [Limited] counts what is left, [collect] joins the data. *)
Fixpoint to_bytes (body : TransportBody) (limit : Z) : result string bytes :=
  match body with
  | [] => Ok []
  | Err e :: _ => Err e
  | Ok (TrailerFrame _) :: body => to_bytes body limit
  | Ok (Data b) :: body =>
      if decide (limit < Z.of_nat (length b)) then Err "length limit exceeded"%string
      else rest ← to_bytes body (limit - Z.of_nat (length b)); Ok (b ++ rest)
  end.

Record BodyRequest : Type := mk_body_request {
  br_method : string; br_uri : string; br_headers : HeaderMap; br_body : TransportBody; br_trailers : option HeaderMap;
}.
Record BodyResponse : Type := mk_body_response {
  bs_status : Z; bs_headers : HeaderMap; bs_body : TransportBody; bs_trailers : option HeaderMap;
}.
(** The trait [AttestTransport]. *)
Class AttestTransport (St : Type) : Type := { send : St → BodyRequest → result SendError BodyResponse * St }.

(** ** reqwest *)

(** [RequestBuilder::header]: the value is appended. *)
Fixpoint hm_append (m : HeaderMap) (name : string) (v : bytes) : HeaderMap :=
  match m with
  | [] => [(name, [v])]
  | (n, vs) :: m => if decide (n = name) then (n, vs ++ [v]) :: m else (n, vs) :: hm_append m name v
  end.
(** Iterating over a map names only the first value of each name. *)
Definition append_trailers (m trailers : HeaderMap) : HeaderMap :=
  foldl (λ m '(name, vs), match vs with v :: _ => hm_append m name v | [] => m end) m trailers.

(** [reqwest::Client]: method, address, headers and body; the answer with its chunks. *)
Class ReqwestClient (St : Type) : Type := {
  rq_send : St → string → string → HeaderMap → list (result string bytes) → result string (Z * HeaderMap * list (result string bytes)) * St;
}.
#[export] Instance ReqwestTransport {St} `{ReqwestClient St} : AttestTransport St := {|
  send w request :=
    let body := (λ r : result string Frame, f ← r; Ok (default [] (into_data f))) <$> br_body request in
    let headers := match br_trailers request with Some t => append_trailers (br_headers request) t | None => br_headers request end in
    match rq_send w (br_method request) (br_uri request) headers body with
    | (Err e, w) => (Err (Connection e), w)
    | (Ok (status, headers, chunks), w) => (Ok (mk_body_response status headers (full_body_from_stream chunks) None), w)
    end;
|}.

(** ** HTTP/2 *)

(** [H2Transport::send]; [from_parts] is the check of [http::Uri] on the base address with the
    path of the request. *)
Definition h2_send (from_parts : (*base*) string → (*request*) string → result string ()) (base_uri : string) (request : BodyRequest) : result SendError BodyResponse :=
  _ ← map_err Protocol (from_parts base_uri (br_uri request));
  Err (Connection "H2Transport stub — connect a TLS connector").

(** ** Socket addresses *)

(** [SocketAddr::from_str] of the standard library on version 4: four decimal numbers below 256
    of at most three digits without a leading zero, and a port. *)
Fixpoint span_digits (s : bytes) : bytes * bytes :=
  match s with
  | [] => ([], [])
  | b :: s' => match digit b with Some _ => let '(ds, rest) := span_digits s' in (b :: ds, rest) | None => ([], s) end
  end.
Definition read_octet (s : bytes) : option (Z * bytes) :=
  let '(ds, rest) := span_digits s in
  if decide ((0 < length ds ≤ 3)%nat ∧ (head ds = Some "0"%char → length ds = 1%nat))
  then n ← parse_digits 255 0 ds; Some (n, rest) else None.
Definition read_char (c : byte) (s : bytes) : option bytes :=
  match s with b :: s => if decide (b = c) then Some s else None | [] => None end.
Definition parse_v4 (s : bytes) : option (Z * Z * Z * Z * Z) :=
  '(a, s) ← read_octet s; s ← read_char "." s;
  '(b, s) ← read_octet s; s ← read_char "." s;
  '(c, s) ← read_octet s; s ← read_char "." s;
  '(d, s) ← read_octet s; s ← read_char ":" s;
  let '(ds, rest) := span_digits s in
  match ds, rest with _ :: _, [] => port ← parse_digits 65535 0 ds; Some (a, b, c, d, port) | _, _ => None end.
(** Version 6 stands in brackets; [v6] reads what starts with one. *)
Definition parse_socket_addr (v6 : bytes → bool) (s : bytes) : bool :=
  match parse_v4 s with Some _ => true | None => bool_decide (head s = Some "["%char) && v6 s end.

(** ** HTTP/3: the shared connection *)

Module H3.

(** Where a call of [get_connection] is: before the read lock, before the write lock, with the
    write lock, connecting under it, or at its end. *)
Inductive Call : Type :=
| Reading | Waiting | Locked | Connecting
| Got (c : nat) | Failed (e : SendError) | Panicked.

(** Connections are numbered as they are made; [closed] are those with a close reason. *)
Record State : Type := mk_state {
  connection : option nat;
  writer : option nat;
  opened : nat;
  closed : gset nat;
  calls : list Call;
}.
Definition usable (st : State) : option nat := c ← connection st; if decide (c ∈ closed st) then None else Some c.
Definition at_call (st : State) (i : nat) (c : Call) : State := mk_state (connection st) (writer st) (opened st) (closed st) (<[i := c]> (calls st)).
Definition release (st : State) : State := mk_state (connection st) None (opened st) (closed st) (calls st).

Section step.
(** The host and the port of the base address, and the reader of version 6 addresses. *)
Context (host : option string) (port : option Z) (v6 : bytes → bool).

Definition address (h : string) : bytes := as_bytes h ++ as_bytes ":" ++ as_bytes (pretty.pretty (default 443 port)).

Inductive step (st : State) : State → Prop :=
| step_call : step st (mk_state (connection st) (writer st) (opened st) (closed st) (calls st ++ [Reading]))
| step_read_hit i c : calls st !! i = Some Reading → writer st = None → usable st = Some c → step st (at_call st i (Got c))
| step_read_miss i : calls st !! i = Some Reading → writer st = None → usable st = None → step st (at_call st i Waiting)
| step_lock i : calls st !! i = Some Waiting → writer st = None →
    step st (mk_state (connection st) (Some i) (opened st) (closed st) (<[i := Locked]> (calls st)))
| step_again_hit i c : calls st !! i = Some Locked → usable st = Some c → step st (release (at_call st i (Got c)))
| step_no_host i : calls st !! i = Some Locked → usable st = None → host = None →
    step st (release (at_call st i (Failed (Oblivious.Connection "missing host"))))
| step_bad_address i h : calls st !! i = Some Locked → usable st = None → host = Some h → parse_socket_addr v6 (address h) = false →
    step st (release (at_call st i Panicked))
| step_connect i h : calls st !! i = Some Locked → usable st = None → host = Some h → parse_socket_addr v6 (address h) = true →
    step st (at_call st i Connecting)
| step_connected i : calls st !! i = Some Connecting →
    step st (mk_state (Some (opened st)) None (S (opened st)) (closed st) (<[i := Got (opened st)]> (calls st)))
| step_refused i e : calls st !! i = Some Connecting → step st (release (at_call st i (Failed (Oblivious.Connection e))))
| step_close c : (c < opened st)%nat → step st (mk_state (connection st) (writer st) (opened st) ({[c]} ∪ closed st) (calls st)).

Definition start : State := mk_state None None 0 ∅ [].
Definition reachable (st : State) : Prop := rtc step start st.

End step.
End H3.

(** ** HTTP/3: a request *)

(** The streams of [h3] on a connection: opening, what is sent, and what comes back. *)
Class H3Client (St : Type) : Type := {
  h3_new_client : St → nat → result string () * St;
  h3_send_request : St → string → string → HeaderMap → result string () * St;
  h3_send_data : St → bytes → result string () * St;
  h3_finish : St → result string () * St;
  h3_recv_response : St → result string (Z * HeaderMap) * St;
  (** all that [recv_data] yields until the end *)
  h3_recv_data : St → list (result string bytes) * St;
}.
Definition H3_LIMIT : Z := 100 * 1024 * 1024.
(** The loop over [recv_data]. *)
Fixpoint h3_collect (chunks : list (result string bytes)) : result SendError bytes :=
  match chunks with
  | [] => Ok []
  | Err e :: _ => Err (Protocol ("h3 recv_data failed: " +:+ e))
  | Ok b :: chunks => rest ← h3_collect chunks; Ok (b ++ rest)
  end.
(** [send] once [get_connection] has answered; a request that [http] builds is one whose
    method and address it accepted before. *)
Definition h3_exchange {St} `{H3Client St} (conn : result SendError nat) (request : BodyRequest) (w : St) : result SendError BodyResponse * St :=
  match conn with
  | Err e => (Err e, w)
  | Ok c =>
  match h3_new_client w c with
  | (Err e, w) => (Err (Connection ("h3 client init failed: " +:+ e)), w)
  | (Ok _, w) =>
  match h3_send_request w (br_method request) (br_uri request) (br_headers request) with
  | (Err e, w) => (Err (Protocol ("h3 send_request failed: " +:+ e)), w)
  | (Ok _, w) =>
  match to_bytes (br_body request) H3_LIMIT with
  | Err e => (Err (Protocol ("failed to collect request body: " +:+ e)), w)
  | Ok body =>
  match h3_send_data w body with
  | (Err e, w) => (Err (Protocol ("h3 send_data failed: " +:+ e)), w)
  | (Ok _, w) =>
  match h3_finish w with
  | (Err e, w) => (Err (Protocol ("h3 finish stream failed: " +:+ e)), w)
  | (Ok _, w) =>
  match h3_recv_response w with
  | (Err e, w) => (Err (Protocol ("h3 recv_response failed: " +:+ e)), w)
  | (Ok (status, headers), w) =>
      let '(chunks, w) := h3_recv_data w in
      (body ← h3_collect chunks; Ok (mk_body_response status headers (full_body body) None), w)
  end end end end end end end.

(** ** Theorems *)

Module H3Facts.
Import H3.

Record inv (st : State) : Prop := mk_inv {
  inv_connection c : connection st = Some c → (c < opened st)%nat;
  inv_live c : (c < opened st)%nat → c ∉ closed st → connection st = Some c;
  inv_writer i x : calls st !! i = Some x → x = Locked ∨ x = Connecting → writer st = Some i;
  inv_connecting i : calls st !! i = Some Connecting → usable st = None;
  inv_got i c : calls st !! i = Some (Got c) → (c < opened st)%nat;
}.

Lemma usable_Some st c : usable st = Some c ↔ connection st = Some c ∧ c ∉ closed st.
Proof. unfold usable. destruct (connection st) as [d|]; cbn; [|naive_solver]. case_decide; naive_solver. Qed.

Lemma lookup_at (l : list Call) i j x y :
  <[i := x]> l !! j = Some y → (i = j ∧ y = x) ∨ (i ≠ j ∧ l !! j = Some y).
Proof. intros [(-> & -> & _)|[? ?]]%list_lookup_insert_Some; naive_solver. Qed.

(** A step that only moves one call, and perhaps releases the lock that it held. *)
Lemma inv_move st i x w :
  inv st → (∀ j y, i ≠ j → calls st !! j = Some y → y = Locked ∨ y = Connecting → w = Some j) →
  (x = Locked ∨ x = Connecting → w = Some i) → (x = Connecting → usable st = None) → (∀ c, x = Got c → (c < opened st)%nat) →
  inv (mk_state (connection st) w (opened st) (closed st) (<[i := x]> (calls st))).
Proof.
  intros [Hc Hl Hw Hn Hg] Hother Hx1 Hx2 Hx3. split; cbn; [done|done| | |].
  - intros j y [[-> ->]|[Hne Hy]]%lookup_at Hlk; [auto|by eapply Hother].
  - intros j [[-> <-]|[Hne Hy]]%lookup_at; [by apply Hx2|by eapply Hn].
  - intros j c [[-> ?]|[Hne Hy]]%lookup_at; [by apply Hx3|by eapply Hg].
Qed.

Lemma h3_inv_step host port v6 st st' : inv st → step host port v6 st st' → inv st'.
Proof.
  intros Hinv Hstep. pose proof Hinv as [Hc Hl Hw Hn Hg].
  assert (∀ i, writer st = None → ∀ j y, i ≠ j → calls st !! j = Some y → y = Locked ∨ y = Connecting → writer st = Some j) as Hfree
    by (intros i Hnone j y _ Hy Hlk; by rewrite (Hw j y Hy Hlk) in Hnone).
  assert (∀ i x, calls st !! i = Some x → x = Locked ∨ x = Connecting →
    ∀ (w : option nat) j y, i ≠ j → calls st !! j = Some y → y = Locked ∨ y = Connecting → w = Some j) as Hheld.
  { intros i x Hi Hlk w j y Hne Hy Hlk'. pose proof (Hw i x Hi Hlk). pose proof (Hw j y Hy Hlk'). congruence. }
  destruct Hstep as [|i c Hi Hnone Hu|i Hi Hnone Hu|i Hi Hnone|i c Hi Hu|i Hi Hu Hh|i h Hi Hu Hh Hp|i h Hi Hu Hh Hp|i Hi|i e Hi|c Hlt]; unfold release, at_call; cbn.
  - assert (∀ j x, (calls st ++ [Reading]) !! j = Some x → x = Reading ∨ calls st !! j = Some x) as Hlk.
    { intros j x [Hj|[_ Hj]]%lookup_app_Some; [by right|]. by apply list_lookup_singleton_Some in Hj as [_ <-]; left. }
    split; cbn; [done|done|intros j x [-> |Hj]%Hlk; [naive_solver|by apply Hw]|intros j [|Hj]%Hlk; [done|by eapply Hn]|intros j c [|Hj]%Hlk; [done|by eapply Hg]].
  - apply inv_move; [done|by apply Hfree|naive_solver|done|]. intros d [= <-]. apply usable_Some in Hu as [Hu _]. by apply Hc.
  - apply inv_move; [done|by apply Hfree|naive_solver|done|done].
  - apply inv_move; [done| |done|done|done]. intros j y _ Hy Hlk. rewrite (Hw j y Hy Hlk) in Hnone. done.
  - apply inv_move; [done|eapply Hheld; [done|by left]|naive_solver|done|]. intros d [= <-]. apply usable_Some in Hu as [Hu _]. by apply Hc.
  - apply inv_move; [done|eapply Hheld; [done|by left]|naive_solver|done|done].
  - apply inv_move; [done|eapply Hheld; [done|by left]|naive_solver|done|done].
  - apply inv_move; [done|eapply Hheld; [done|by left]|intros _; by eapply Hw; [|left]|done|done].
  - pose proof (Hn i Hi) as Hu. split; cbn.
    + intros c [= <-]. lia.
    + intros c Hlt Hcl. destruct (decide (c = opened st)) as [->|Hne]; [done|].
      assert (usable st = Some c) by (apply usable_Some; split; [apply Hl; [lia|done]|done]). congruence.
    + intros j y [[-> ->]|[Hne Hy]]%lookup_at Hlk; [naive_solver|]. by eapply (Hheld i _ Hi); [right| | |].
    + intros j [[-> ?]|[Hne Hy]]%lookup_at; [done|]. exfalso. pose proof (Hw i _ Hi (or_intror eq_refl)). pose proof (Hw j _ Hy (or_intror eq_refl)). congruence.
    + intros j c [[-> [= ->]]|[Hne Hy]]%lookup_at; [lia|]. apply Hg in Hy. lia.
  - apply inv_move; [done|eapply Hheld; [done|by right]|naive_solver|done|done].
  - split; cbn; [done| |done| |done].
    + intros d Hd Hcl. apply Hl; set_solver.
    + intros j Hj. apply Hn in Hj. unfold usable in *. cbn. destruct (connection st); [|done]. cbn in *. repeat case_decide; set_solver.
Qed.

Lemma reachable_inv host port v6 st : reachable host port v6 st → inv st.
Proof.
  assert (inv start) as H0 by (split; cbn; try done; intros; lia). unfold reachable. generalize start, H0. clear.
  intros s0 H0 Hr. induction Hr as [|s1 s2 s3 Hs _ IH]; [done|]. apply IH. by eapply h3_inv_step.
Qed.

End H3Facts.

(** [C28] Calls share one connection: under every interleaving at most one call connects at a
    time, two calls that hold connections that are not closed hold the same one, and one more
    connection was opened than closed at most. *)
Theorem h3_one_connection (host : option string) (port : option Z) (v6 : bytes → bool) (st : H3.State) :
  H3.reachable host port v6 st →
  (∀ i j, H3.calls st !! i = Some H3.Connecting → H3.calls st !! j = Some H3.Connecting → i = j) ∧
  (∀ i j c d, H3.calls st !! i = Some (H3.Got c) → H3.calls st !! j = Some (H3.Got d) →
     c ∉ H3.closed st → d ∉ H3.closed st → c = d ∧ H3.connection st = Some c) ∧
  (H3.opened st ≤ S (size (H3.closed st)))%nat.
Proof.
  intros [Hc Hl Hw Hn Hg]%H3Facts.reachable_inv. split_and!.
  - intros i j Hi Hj. pose proof (Hw i _ Hi (or_intror eq_refl)). pose proof (Hw j _ Hj (or_intror eq_refl)). congruence.
  - intros i j c d Hi%Hg Hj%Hg Hcc Hcd. pose proof (Hl c Hi Hcc). pose proof (Hl d Hj Hcd). by split; [congruence|].
  - rewrite <-(size_set_seq (C := gset nat) 0 (H3.opened st)). destruct (H3.connection st) as [c|] eqn:Hcon.
    + transitivity (size ({[c]} ∪ H3.closed st)); [|rewrite size_union_alt; rewrite size_singleton; pose proof (subseteq_size (H3.closed st ∖ {[c]}) (H3.closed st)) as Hs; specialize (Hs ltac:(set_solver)); lia].
      apply subseteq_size. intros d Hd%elem_of_set_seq. destruct (decide (d ∈ H3.closed st)); [set_solver|]. apply Hl in n; [|lia]. set_solver.
    + transitivity (size (H3.closed st)); [|lia]. apply subseteq_size. intros d Hd%elem_of_set_seq.
      destruct (decide (d ∈ H3.closed st)) as [|n]; [done|]. apply Hl in n; [done|lia].
Qed.

(** A host that is a name: neither a digit nor a bracket comes first. *)
Lemma name_not_address v6 (h : string) port b :
  head (as_bytes h) = Some b → digit b = None → b ≠ "["%char → parse_socket_addr v6 (H3.address port h) = false.
Proof.
  unfold H3.address, parse_socket_addr, parse_v4, read_octet. destruct (as_bytes h) as [|c t]; [done|]. intros [= ->] Hd Hb. cbn [app span_digits].
  rewrite Hd. rewrite decide_False by (cbn; lia). cbn. by rewrite bool_decide_eq_false_2 by congruence.
Qed.

(** No call gets a connection to a host that is given by name: the address is parsed as that of
    a socket, which panics. *)
Theorem h3_names_panic (h : string) (port : option Z) (v6 : bytes → bool) (b : byte) (st : H3.State) (i : nat) (x : H3.Call) :
  head (as_bytes h) = Some b → digit b = None → b ≠ "["%char → H3.reachable (Some h) port v6 st →
  H3.calls st !! i = Some x → x ∈ [H3.Reading; H3.Waiting; H3.Locked; H3.Panicked].
Proof.
  intros Hh Hd Hb Hr. pose proof (name_not_address v6 h port b Hh Hd Hb) as Hno.
  assert (H3.connection st = None ∧ ∀ i x, H3.calls st !! i = Some x → x ∈ [H3.Reading; H3.Waiting; H3.Locked; H3.Panicked]) as [_ H]; [|by apply H].
  clear i x. unfold H3.reachable in Hr.
  assert (∀ s, H3.connection s = None → H3.usable s = None) as Hu by (intros s Hs; unfold H3.usable; by rewrite Hs).
  refine (rtc_ind_r (λ st, H3.connection st = None ∧ ∀ i x, H3.calls st !! i = Some x → x ∈ [H3.Reading; H3.Waiting; H3.Locked; H3.Panicked]) _ _ _ _ Hr); [by split|].
  intros s1 s2 _ Hs [Hc Hall].
  destruct Hs; cbn;
    try (match goal with E : H3.usable _ = Some _ |- _ => rewrite (Hu _ Hc) in E; discriminate E end);
    try (match goal with E : H3.calls _ !! _ = Some H3.Connecting |- _ => apply Hall in E; set_solver end); try congruence; (split; [done|]).
  all: try (intros j y [[_ ->]|[_ Hy]]%H3Facts.lookup_at; [set_solver|by eapply Hall]).
  - intros j y [Hj|[_ Hj]]%lookup_app_Some; [by eapply Hall|]. apply list_lookup_singleton_Some in Hj as [_ <-]. set_solver.
  - done.
Qed.

(** ** Bodies and their chunks *)

Definition chunked (cs : list bytes) : list (result string bytes) := Ok <$> cs.

Lemma to_bytes_frames frames limit : 0 ≤ limit → to_bytes (Ok <$> frames) limit = Transport.to_bytes (concat (omap into_data frames)) limit.
Proof.
  unfold Transport.to_bytes. revert limit. induction frames as [|[b|h] frames IH]; intros limit Hl; cbn; [by rewrite decide_True by lia| |by apply IH]. rewrite length_app.
  destruct (decide (limit < Z.of_nat (length b))); [by rewrite decide_False by lia|]. rewrite IH by lia.
  destruct (decide (Z.of_nat (length (concat (omap into_data frames))) ≤ limit - Z.of_nat (length b))); cbn; [by rewrite decide_True by lia|by rewrite decide_False by lia].
Qed.
Lemma to_bytes_chunked cs limit : 0 ≤ limit → to_bytes (full_body_from_stream (chunked cs)) limit = Transport.to_bytes (concat cs) limit.
Proof.
  intros Hl. assert (full_body_from_stream (chunked cs) = Ok <$> (Data <$> cs)) as ->.
  { unfold full_body_from_stream, chunked. by rewrite <-!list_fmap_compose. }
  rewrite to_bytes_frames by done. f_equal. f_equal. induction cs as [|b cs IH]; cbn; [done|by f_equal].
Qed.

(** Collecting a body does not depend on how it was cut: for any data frames, and any trailer
    frames between them, it is the test of the whole length against the limit; a stream that
    fails within the limit fails with its own error. *)
Theorem to_bytes_equiv (frames : list Frame) (limit : Z) (rest : TransportBody) (e : string) :
  0 ≤ limit →
  to_bytes (Ok <$> frames) limit = Transport.to_bytes (concat (omap into_data frames)) limit ∧
  (is_ok (Transport.to_bytes (concat (omap into_data frames)) limit) = true → to_bytes ((Ok <$> frames) ++ Err e :: rest) limit = Err e).
Proof.
  intros Hl. split; [by apply to_bytes_frames|]. revert limit Hl. unfold Transport.to_bytes. induction frames as [|[b|h] frames IH]; intros limit Hl; cbn; [done| |by apply IH].
  rewrite length_app. destruct (decide _) as [Hle|]; [|done]. intros _. rewrite decide_False by lia. rewrite IH; [done|lia|]. by rewrite decide_True by lia.
Qed.
Lemma to_bytes_equiv_witness : to_bytes [Ok (Data (as_bytes "ab")); Ok (TrailerFrame []); Ok (Data (as_bytes "c"))] 3 = Transport.to_bytes (as_bytes "abc") 3.
Proof. apply (to_bytes_equiv [Data (as_bytes "ab"); TrailerFrame []; Data (as_bytes "c")] 3 [] EmptyString). lia. Defined.

(** ** The adapters carry requests *)

(** A transport with streamed bodies does what a transport with collected ones does. *)
Definition streamed (req : Transport.Request) : BodyRequest :=
  mk_body_request (Transport.method req) (Transport.uri req) (Transport.req_headers req) (full_body (Transport.req_body req)) (Transport.req_trailers req).
Definition same_response (r : BodyResponse) (resp : Transport.Response) : Prop :=
  bs_status r = Transport.status resp ∧ bs_headers r = Transport.resp_headers resp ∧ bs_trailers r = None ∧
  ∀ limit, 0 ≤ limit → to_bytes (bs_body r) limit = Transport.to_bytes (Transport.resp_body resp) limit.

(** An HTTP client that delivers a request and its answer to and from a server, in whatever
    pieces; a failure of the server's side is one of the connection. *)
Class HttpDelivers {St} (R : ReqwestClient St) (srv : wire St) : Prop := {
  http_answered w m u h cs resp w' :
    srv w (Transport.mk_request m u h (concat cs) None) = (Ok resp, w') →
    ∃ chunks, concat chunks = Transport.resp_body resp ∧ rq_send w m u h (chunked cs) = (Ok (Transport.status resp, Transport.resp_headers resp, chunked chunks), w');
  http_refused w m u h cs e w' :
    srv w (Transport.mk_request m u h (concat cs) None) = (Err e, w') → ∃ t, e = Connection t ∧ rq_send w m u h (chunked cs) = (Err t, w');
}.

Lemma reqwest_answers {St} {R : ReqwestClient St} {srv : wire St} {HD : HttpDelivers R srv} (w w' : St) (req : Transport.Request) (r : result SendError Transport.Response) :
  srv w (match Transport.req_trailers req with
         | Some t => Transport.mk_request (Transport.method req) (Transport.uri req) (append_trailers (Transport.req_headers req) t) (Transport.req_body req) None
         | None => req
         end) = (r, w') →
  match r with
  | Ok resp => ∃ r, send w (streamed req) = (Ok r, w') ∧ same_response r resp
  | Err e => send w (streamed req) = (Err e, w')
  end.
Proof.
  destruct req as [m u h b t]. set (h' := match t with Some t => append_trailers h t | None => h end).
  assert (∃ cs, concat cs = b ∧ ((λ r : result string Frame, f ← r; Ok (default [] (into_data f))) <$> full_body b) = chunked cs) as (cs & Hcs & Hbody).
  { destruct b as [|a b]; [by exists []|]. exists [a :: b]. split; [|done]. cbn. by rewrite app_nil_r. }
  intros Hs. assert (srv w (Transport.mk_request m u h' (concat cs) None) = (r, w')) as Hsrv by (rewrite Hcs; subst h'; by destruct t). clear Hs.
  cbn [streamed send ReqwestTransport br_body br_trailers br_headers br_method br_uri Transport.method Transport.uri Transport.req_headers Transport.req_body Transport.req_trailers].
  rewrite Hbody. fold h'.
  destruct r as [resp|e].
  - destruct (http_answered _ _ _ _ _ _ _ Hsrv) as (chunks & Hch & ->). eexists. split; [done|]. split_and!; [done..|].
    intros limit Hl. cbn [bs_body]. by rewrite to_bytes_chunked, Hch.
  - by destruct (http_refused _ _ _ _ _ _ _ Hsrv) as (t' & -> & ->).
Qed.

(** Over [reqwest] a request without trailers is answered as by the server itself, with the
    same status, headers and body under every limit, and an error of the connection is passed
    on; trailers of a request travel as headers. *)
Theorem reqwest_refines {St} {R : ReqwestClient St} {srv : wire St} {HD : HttpDelivers R srv} (w w' : St) (req : Transport.Request) (r : result SendError Transport.Response) :
  srv w (match Transport.req_trailers req with
         | Some t => Transport.mk_request (Transport.method req) (Transport.uri req) (append_trailers (Transport.req_headers req) t) (Transport.req_body req) None
         | None => req
         end) = (r, w') →
  match r with
  | Ok resp => ∃ r, send w (streamed req) = (Ok r, w') ∧ same_response r resp
  | Err e => send w (streamed req) = (Err e, w')
  end.
Proof. apply reqwest_answers. Qed.

(** The transport as the client uses it: the request's body in one frame, the answer's
    collected under the client's limit. *)
Definition stream_fetch {St} `{AttestTransport St} : fetcher St := λ w req,
  match send w (streamed req) with
  | (Err e, w) => (Err e, w)
  | (Ok r, w) => (Ok (bs_status r, to_bytes (bs_body r)), w)
  end.
(** Two transports that a call with the limit [max] cannot tell apart. *)
Definition same_fetch {St} (max : Z) (x y : result SendError (Z * (Z → result string bytes)) * St) : Prop :=
  match x, y with
  | (Ok (s1, b1), w1), (Ok (s2, b2), w2) => s1 = s2 ∧ b1 max = b2 max ∧ w1 = w2
  | (Err e1, w1), (Err e2, w2) => e1 = e2 ∧ w1 = w2
  | _, _ => False
  end.
Lemma stream_fetch_reqwest {St} {R : ReqwestClient St} {srv : wire St} {HD : HttpDelivers R srv} max w req :
  0 ≤ max → Transport.req_trailers req = None → same_fetch max (stream_fetch w req) (whole_bodies srv w req).
Proof.
  intros Hmax Ht. destruct (srv w req) as [r w'] eqn:Hs. unfold stream_fetch, whole_bodies. rewrite Hs.
  pose proof (reqwest_answers w w' req r) as H. rewrite Ht in H. specialize (H Hs). destruct r as [resp|e].
  - destruct H as (r & -> & Hst & _ & _ & Hb). cbn. split_and!; [done|by apply Hb|done].
  - by rewrite H.
Qed.

Section calls.
Context {AP : AeadPrim} {HaP : HashPrim} {MP : HmacPrim} {UP : UuidPrim} {XP : HexPrim} {BP : Base64Prim} {J : CiphertextJson}.
Context {X : JsonExtractor} {T : Type} {V : ValueJson T} {CT : ClientText} {UR : UriParts}.

(** A call looks at one answer of the transport, to a request without trailers. *)
Lemma call_fetch {St} (f1 f2 : fetcher St) c max t0 t1 t2 session method path body extra w :
  (∀ req, Transport.req_trailers req = None → same_fetch max (f1 w req) (f2 w req)) →
  trusted_request_over f1 c max t0 t1 t2 session method path body extra w = trusted_request_over f2 c max t0 t1 t2 session method path body extra w.
Proof.
  intros H. unfold trusted_request_over. repeat (case_match; [done|]). cbv zeta. destruct (seal_request_body _ _ _ _ _ _ _ _ _) as [[[[hd ct] ahl]|e] s]; [|done].
  case_match; [done|]. set (req := Transport.mk_request _ _ _ _ None). specialize (H req eq_refl).
  destruct (f1 w req) as [[[s1 b1]|e1] w1], (f2 w req) as [[[s2 b2]|e2] w2]; cbn in H; [|done..|].
  - destruct H as (-> & Hb & ->). by rewrite Hb.
  - by destruct H as [-> ->].
Qed.

End calls.

(** [C27] The whole way of a trusted request: the client seals it, [reqwest] streams it over a
    network that delivers what it is given in any pieces, the server's extractors open it and a
    handler answers; the client collects the pieces of the sealed answer under its limit.  It
    reads exactly the handler's value if the sealed answer, the one ciphertext of that value
    under the next response counter, is within the limit, and the error that it is too long if
    it is not; the ends stay in step for the next call. *)
Theorem reqwest_call_answered {AP : AeadPrim} {AL : AeadLaws AP} {HaP : HashPrim} {MP : HmacPrim} {UP : UuidPrim} {UL : UuidLaws UP}
    {XP : HexPrim} {XL : HexLaws XP} {BP : Base64Prim} {BL : Base64Laws BP} {J : CiphertextJson} {JL : CiphertextJsonLaws J}
    {X : JsonExtractor} {JXL : JsonExtractorLaws J X} {T : Type} {V : ValueJson T} {CT : ClientText} {UR : UriParts}
    net (handler : bytes → T) {R : ReqwestClient AtbRegistry.t} (c : OpenHttpaClient) (max t0 t1 t2 t3 t4 : Z) (cs ss : SessionInner) (r : AtbRegistry.t)
    (method path : string) (body pt : bytes) (extra : option HeaderMap) :
  let uri := join_uri (oc_server_uri c) path in
  HttpDelivers R (serve net handler t2 t3) → 0 ≤ max →
  oc_has_transport c = true → uri_valid uri = true → method_valid method = true → value_to_vec (handler body) = Some pt →
  synced cs ss → AtbRegistry.sessions r !! id ss = Some ss → client_counter ss < u64_max → server_counter ss < u64_max → t0 < expires_at cs →
  exchangeable (id ss) (expires_at cs) (expires_at ss)
    (mk_message method (parts_path uri) (parts_query uri) (call_authority uri) extra body
      (λ hdrs b, net (Transport.mk_request method uri hdrs b None)) (handler body) t1 t2 t3 t4) →
  ∃ ct cs1 cs' ss' r',
    AeadKey.seal_in_place (AeadKey.mk (server_write_key (keys ss)) Aes256Gcm) (build_aead_nonce (server_counter ss) (server_write_iv (keys ss)))
      (request_aad (id ss)) pt = Ok ct ∧
    trusted_request_over stream_fetch c max t0 t1 t4 cs method path body extra r =
      (if decide (Z.of_nat (length (ciphertext_to_json (hex_encode ct))) ≤ max) then (Ok pt, cs', r')
       else (Err (ClientTransport "length limit exceeded"), cs1, r')) ∧
    synced cs' ss' ∧ AtbRegistry.sessions r' !! id ss' = Some ss'.
Proof.
  intros uri HD Hmax Htr Hu Hm Hpt Hsync Hr Hc Hs H0 Hex.
  rewrite (call_fetch stream_fetch (whole_bodies (serve net handler t2 t3))) by (intros; by apply stream_fetch_reqwest).
  destruct (call_answered net handler c max t0 t1 t2 t3 t4 cs ss r method path body pt extra Htr Hu Hm Hpt Hsync Hr Hc Hs H0 Hex)
    as (answer & cs1 & cs' & ss' & r' & (ct & Hct & ->) & Hrun & Hsync' & Hr').
  exists ct, cs1, cs', ss', r'. rewrite (sync_keys _ _ Hsync), (sync_id _ _ Hsync), (sync_server_counter _ _ Hsync) in Hct. by split_and!.
Qed.

(** ** Concrete runs *)

Lemma h3_one_connection_witness :
  ∃ st, H3.reachable (Some "10.0.0.1"%string) None (λ _, false) st ∧ H3.calls st = [H3.Got 0; H3.Connecting] ∧
    (H3.opened st ≤ S (size (H3.closed st)))%nat.
Proof.
  assert (∃ st, H3.reachable (Some "10.0.0.1"%string) None (λ _, false) st ∧ H3.calls st = [H3.Got 0; H3.Connecting]) as (st & Hr & Hc).
  { eexists. split.
    - eapply rtc_l; [apply H3.step_call|]. eapply rtc_l; [apply H3.step_call|].
      eapply rtc_l; [apply (H3.step_read_miss _ _ _ _ 0%nat); reflexivity|]. eapply rtc_l; [apply (H3.step_read_miss _ _ _ _ 1%nat); reflexivity|].
      eapply rtc_l; [apply (H3.step_lock _ _ _ _ 0%nat); reflexivity|]. eapply rtc_l; [apply (H3.step_connect _ _ _ _ 0%nat "10.0.0.1"%string); by vm_compute|].
      eapply rtc_l; [apply (H3.step_connected _ _ _ _ 0%nat); reflexivity|]. eapply rtc_l; [apply (H3.step_close _ _ _ _ 0%nat); cbn; lia|].
      eapply rtc_l; [apply (H3.step_lock _ _ _ _ 1%nat); reflexivity|]. eapply rtc_l; [apply (H3.step_connect _ _ _ _ 1%nat "10.0.0.1"%string); by vm_compute|].
      apply rtc_refl.
    - reflexivity. }
  exists st. split_and!; [exact Hr|exact Hc|]. apply (h3_one_connection (Some "10.0.0.1"%string) None (λ _, false) st Hr).
Defined.

Module ToyReqwest.
Definition parts : UriParts := {|
  parts_path _ := "/a"%string; parts_query _ := Some "q=1"%string; parts_scheme _ := None; parts_authority _ := Some (as_bytes "example.org"); method_valid _ := true |}.
Definition net (req : Transport.Request) : Request :=
  ToyExchange.net (Transport.method req) "/a" (Some "q=1"%string) "example.org" (Transport.req_headers req) (Transport.req_body req).
Definition srv : wire AtbRegistry.t :=
  serve (AP := Toy.aead) (MP := Toy.hmac) (UP := ToyWeb.uuid) (XP := ToyWeb.hex) (BP := ToyBase64.prim) (X := ToyExchange.extractor)
    (J := ToyExchange.json) (V := ToyExchange.values) net (λ _, as_bytes "uno") 10 10.
(** The network cuts every answer after its first byte. *)
Definition client : ReqwestClient AtbRegistry.t := {|
  rq_send w m u h body :=
    match srv w (Transport.mk_request m u h (concat (omap (λ r : result string bytes, match r with Ok b => Some b | Err _ => None end) body)) None) with
    | (Ok resp, w) => (Ok (Transport.status resp, Transport.resp_headers resp, chunked [take 1 (Transport.resp_body resp); drop 1 (Transport.resp_body resp)]), w)
    | (Err e, w) => (Err "closed"%string, w)
    end |}.
Lemma client_delivers : HttpDelivers client srv.
Proof.
  assert (∀ cs : list bytes, omap (λ r : result string bytes, match r with Ok b => Some b | Err _ => None end) (chunked cs) = cs) as Hc
    by (induction cs as [|b cs IH]; cbn; [done|by f_equal]).
  split; intros w m u h cs ? w' Hs.
  - eexists [_; _]. split; [|cbn; rewrite Hc, Hs; done]. cbn. by rewrite app_nil_r, take_drop.
  - exfalso. revert Hs. unfold srv, serve. destruct (decrypt_request _ _ _) as [[p|st] r1], (from_request_parts _ _ _) as [[sess|st'] r2]; try done.
    by destruct (seal _ _ _) as [[sealed|st] sess'].
Qed.
End ToyReqwest.

Lemma reqwest_call_answered_witness :
  ∃ cs' r',
    trusted_request_over (CT := ToyWire.text) (UR := ToyReqwest.parts) (CJ := ToyExchange.json) (AP := Toy.aead) (MP := Toy.hmac) (UP := ToyWeb.uuid)
      (XP := ToyWeb.hex) (BP := ToyBase64.prim) (stream_fetch (H := ReqwestTransport (H := ToyReqwest.client))) (ToyWire.client true) 4096 1 10 10 (ToyExchange.session 1000) "POST" "/a" (as_bytes "one") None ToyExchange.registry =
    (Ok (as_bytes "uno"), cs', r').
Proof.
  edestruct (reqwest_call_answered (AL := Toy.aead_laws) (HaP := Toy.hash) (MP := Toy.hmac) (UL := ToyWeb.uuid_laws) (XL := ToyWeb.hex_laws) (BL := ToyBase64.laws)
    (JL := ToyExchange.json_laws) (JXL := ToyExchange.extractor_laws) (V := ToyExchange.values) (CT := ToyWire.text) (UR := ToyReqwest.parts) ToyReqwest.net (λ _, as_bytes "uno")
    (R := ToyReqwest.client) (ToyWire.client true) 4096 1 10 10 10 10 (ToyExchange.session 1000) ToyExchange.server_session ToyExchange.registry "POST" "/a" (as_bytes "one") (as_bytes "uno") None)
    as (ct & cs1 & cs' & ss' & r' & Hct & Hrun & _ & _).
  - exact ToyReqwest.client_delivers.
  - by_compute.
  - reflexivity.
  - reflexivity.
  - reflexivity.
  - reflexivity.
  - apply synced_new; [reflexivity|by_compute].
  - reflexivity.
  - by_compute.
  - by_compute.
  - by_compute.
  - exact (ToyExchange.msg_ok "/a" (as_bytes "one") (as_bytes "uno") 10 ltac:(by_compute) ltac:(by_compute) ltac:(by_compute)).
  - exists cs', r'. vm_compute in Hct. injection Hct as <-. rewrite decide_True in Hrun by by_compute. exact Hrun.
Defined.
