(* ===== verification/StreamCall.v ===== *)
(** * Streaming calls

    [trusted_request_streaming] of [crates/openhttpa-client/src/client.rs] as a whole, the
    extractor [EncryptedStream] of [crates/openhttpa-server/src/extractors.rs] on a whole
    request, and the transport ([serve_stream]) that joins them.  [Client], [Extractors] and
    [Stream] have the single chunks and frames.

    A body is the list of its pieces, each of which may be an error; the clock is read once
    per piece. *)

From S2P Require Import Prelude Crypto Aead Proto State KeySchedule Attestation ReplayWindow Session KeyExchange Handshake Http Oblivious Ahl Trailers.
From S2P Require Import Sfv Headers Registry Stream Middleware Client Extractors Exchange HandshakeWire ClientCall.
From stdpp Require Import options.

#[local] Open Scope Z_scope.

Definition STREAM_TYPE : bytes := as_bytes "application/x-openhttpa-stream".
Definition NO_HASH : bytes := replicate 48 NUL.

Record StreamResponse : Type := mk_stream_response { sr_status : Z; sr_body : list (result string bytes) }.
(** A transport's [send] of a streamed request: method, address, headers, and the body that it
    pulls. *)
Abbreviation stream_wire St := (St → string → string → HeaderMap → list (result string bytes) → result SendError StreamResponse * St).

(** The loop of both decrypting streams: a frame that fails leaves the hash as it was, an error
    of the reader is an item of its own. *)
Fixpoint unfold_stream {E} (open : Z → SessionInner → bytes → StreamFrame → result E (bytes * bytes) * SessionInner) (bad : StreamFrameReader.error → E)
    (s : SessionInner) (hash : bytes) (items : list (Z * result StreamFrameReader.error StreamFrame)) : list (result E bytes) * SessionInner :=
  match items with
  | [] => ([], s)
  | (_, Err e) :: items => let '(rs, s) := unfold_stream open bad s hash items in (Err (bad e) :: rs, s)
  | (now, Ok f) :: items =>
      let '(r, s) := open now s hash f in
      let '(rs, s) := unfold_stream open bad s (match r with Ok (_, h) => h | Err _ => hash end) items in
      (((λ '(p, _), p) <$> r) :: rs, s)
  end.

(** The client's reader sets no limit, so the first case does not occur there. *)
Definition reader_error (e : StreamFrameReader.error) : ClientError :=
  match e with
  | StreamFrameReader.FrameTooLarge _ => ClientTransport EmptyString
  | StreamFrameReader.IncompleteFrame => ClientTransport "Incomplete frame at end of stream"
  | StreamFrameReader.StreamError m => ClientTransport m
  end.

Section client.
Context {CT : ClientText} {UR : UriParts}.
Context {AP : AeadPrim} {HaP : HashPrim} {MP : HmacPrim} {UP : UuidPrim} {BP : Base64Prim} (show : ClientError → string).

(** A piece of the body to send: when it is pulled, the piece, and the random nonce. *)
Record Piece : Type := mk_piece { pc_now : Z; pc_chunk : result string bytes; pc_nonce : option Z }.

(** One step of the encrypting [scan]: the item, the next hash. *)
Definition encrypt_piece (session : SessionInner) (aad hash : bytes) (p : Piece) : outcome (result string bytes) * bytes * SessionInner :=
  match pc_chunk p, pc_nonce p with
  | Err e, _ => (Returns (Err e), hash, session)
  | Ok _, None => (Returns (Err "RNG failure"%string), hash, session)
  | Ok chunk, Some nonce =>
      match seal_chunk (pc_now p) session aad hash chunk nonce with
      | (Ok (f, h), session) => (frame ← encode_frame f; Returns (Ok frame), h, session)
      | (Err e, session) => (Returns (Err (show e)), hash, session)
      end
  end.
Fixpoint encrypt_pieces (session : SessionInner) (aad hash : bytes) (ps : list Piece) : outcome (list (result string bytes)) * SessionInner :=
  match ps with
  | [] => (Returns [], session)
  | p :: ps =>
      match encrypt_piece session aad hash p with
      | (Panics, _, session) => (Panics, session)
      | (Returns item, hash, session) =>
          let '(items, session) := encrypt_pieces session aad hash ps in
          (items ← items; Returns (item :: items), session)
      end
  end.

(** The items of the response stream that its reader polls, one for each time in [polls]. *)
Definition response_items (session : SessionInner) (aad : bytes) (polls : list Z) (body : list (result string bytes))
    : list (result ClientError bytes) * SessionInner :=
  unfold_stream (λ now s h f, open_frame now s aad h f) reader_error session NO_HASH
    (zip polls (StreamFrameReader.poll None (length polls) (StreamFrameReader.new body))).

(** [pieces] are those that the transport pulls. *)
Definition trusted_request_streaming {St} (send : stream_wire St) (c : OpenHttpaClient) (t0 t1 : Z) (session : SessionInner)
    (method path : string) (pieces : list Piece) (polls : list Z) (w : St)
    : outcome (result ClientError (list (result ClientError bytes))) * SessionInner * St :=
  if negb (AttestSession.is_alive t0 session) then (Returns (Err ClientNotAttested), session, w)
  else if negb (oc_has_transport c) then (Returns (Err (ClientTransport "No transport configured")), session, w)
  else
    let uri := join_uri (oc_server_uri c) path in
    if negb (uri_valid uri) then (Returns (Err (ClientHandshake ("Invalid request URI '" +:+ uri +:+ "'"))), session, w)
    else
      let aad := request_aad (id session) in
      let '(sealed, session) := seal_request_body t1 session method (parts_path uri) (parts_query uri) (call_authority uri) [] aad None in
      match sealed with
      | Err e => (Returns (Err e), session, w)
      | Ok (headers, _, _) =>
          if negb (method_valid method) then (Returns (Err (ClientTransport ("invalid HTTP method '" +:+ method +:+ "'"))), session, w)
          else
            match encrypt_pieces session aad NO_HASH pieces with
            | (Panics, session) => (Panics, session, w)
            | (Returns body, session) =>
                match send w method uri (hm_insert headers STR_CONTENT_TYPE STREAM_TYPE) body with
                | (Err e, w) => (Returns (Err (ClientTransport (to_string e))), session, w)
                | (Ok resp, w) =>
                    if negb (is_success (sr_status resp)) then
                      (Returns (Err (ClientTransport ("Server returned error: " +:+ status_display (sr_status resp)))), session, w)
                    else let '(items, session) := response_items session aad polls (sr_body resp) in (Returns (Ok items), session, w)
                end
            end
      end.

End client.

Section server.
Context {AP : AeadPrim} {HaP : HashPrim} {MP : HmacPrim} {UP : UuidPrim}.

(** [EncryptedStream::from_request], with the items that the handler polls. *)
Definition stream_from_request (now : Z) (r : AtbRegistry.t) (req : Request) (body : list (result string bytes)) (polls : list Z)
    : result Z (list (result Z bytes) * OpenHttpaSession) * AtbRegistry.t :=
  let '(sess, r) := from_request_parts now r req in
  match sess with
  | Err st => (Err st, r)
  | Ok s =>
      let '(items, inner) := unfold_stream (λ now s' h f, stream_open now s' (ohs_aad s) h f) (λ _, BAD_REQUEST) (ohs_session s) NO_HASH
        (zip polls (StreamFrameReader.poll (Some MAX_FRAME_SIZE) (length polls) (StreamFrameReader.new body))) in
      (Ok (items, mk_ohs inner (ohs_aad s)), AtbRegistry.update r (id inner) inner)
  end.

(** The body of a response that [seal_stream] makes; a value that could not be sealed is an
    error. *)
Definition sealed_body (fs : list (option StreamFrame)) : outcome (list (result string bytes)) :=
  mapM (λ f, match f with Some f => b ← encode_frame f; Returns (Ok b) | None => Returns (Err "Seal fail"%string) end) fs.

(** A handler that reads the request's stream and answers with one.  [net] is what the network
    makes of the head of the request, [cut] how it cuts a body. *)
Definition serve_stream (net : string → string → HeaderMap → Request) (cut : list (result string bytes) → list (result string bytes))
    (handler : list (result Z bytes) → list (Z * bytes)) (now : Z) (polls : list Z) : stream_wire AtbRegistry.t := λ r method uri headers body,
  match stream_from_request now r (net method uri headers) (cut body) polls with
  | (Err st, r) => (Ok (mk_stream_response st []), r)
  | (Ok (items, sess), r) =>
      let '(fs, inner) := seal_stream (ohs_session sess) (ohs_aad sess) NO_HASH (handler items) in
      match sealed_body fs with
      | Panics => (Err (Connection "closed"), r)
      | Returns out => (Ok (mk_stream_response 200 (cut out)), AtbRegistry.update r (id inner) inner)
      end
  end.

End server.

(** ** Both directions *)

Lemma unfold_open_frames {AP : AeadPrim} {HaP : HashPrim} bad s aad h ts fs :
  unfold_stream (λ now s h f, open_frame now s aad h f) bad s h (zip ts (Ok <$> fs)) = open_frames s aad h (zip ts fs).
Proof.
  revert s h ts. induction fs as [|f fs IH]; intros s h [|t ts]; [done..|]. cbn [fmap list_fmap zip zip_with unfold_stream open_frames].
  destruct (open_frame t s aad h f) as [r s1]. by rewrite IH.
Qed.
Lemma unfold_encrypted_stream {AP : AeadPrim} {HaP : HashPrim} bad s aad h ts fs :
  unfold_stream (λ now s h f, stream_open now s aad h f) bad s h (zip ts (Ok <$> fs)) = encrypted_stream s aad h (zip ts fs).
Proof.
  revert s h ts. induction fs as [|f fs IH]; intros s h [|t ts]; [done..|]. cbn [fmap list_fmap zip zip_with unfold_stream encrypted_stream].
  destruct (stream_open t s aad h f) as [r s1]. by rewrite IH.
Qed.

Section chunks.
Context {AP : AeadPrim} {AL : AeadLaws AP} {HaP : HashPrim}.

(** A client in the middle of a stream and the server that reads it: the server has accepted no
    nonce that the client will still use. *)
Record streaming (cs ss : SessionInner) : Prop := mk_streaming {
  sg_keys : keys cs = keys ss;
  sg_wf : keys_wf (keys ss);
  sg_counter : 0 < client_counter cs;
  sg_window : last_nonce ss < client_counter cs;
}.

Lemma chunk_ok cs ss now t aad h p n :
  streaming cs ss → ready now cs → ready t ss → last_nonce cs < n → 0 < n → client_counter cs < u64_max → client_counter ss < u64_max →
  Z.of_nat (length p) + Z.of_nat TAG_LEN ≤ MAX_FRAME_SIZE →
  ∃ f h', seal_chunk now cs aad h p n = (Ok (f, h'), committed cs n) ∧ StreamFrameReader.frame_ok (Some MAX_FRAME_SIZE) f ∧
    stream_open t ss aad h f = (Ok (p, h'), committed ss (client_counter cs)) ∧ streaming (committed cs n) (committed ss (client_counter cs)).
Proof using AL.
  intros [Hkeys Hwf Hc0 Hwin] Hrc Hrs Hn Hn0 Hcc Hsc Hlen. pose proof Hwf as (_ & _ & Hk & _ & Hiv & _).
  destruct (seal_message_ok (client_write_key (keys ss)) (client_write_iv (keys ss)) (client_counter cs) (aad ++ h) p Hk Hiv) as (ct & Hseal & Hct);
    [unfold MAX_FRAME_SIZE in Hlen; lia|].
  exists (mk_frame (client_counter cs) ct), (sha384 (h ++ ct)). split_and!.
  - unfold seal_chunk. erewrite trr_fresh; [reflexivity|done..|]. rewrite Hkeys, Hseal. done.
  - apply AeadKey.seal_length in Hct as Hl. unfold StreamFrameReader.frame_ok, is_u64, MAX_FRAME_SIZE, u32_max in *. cbn. lia.
  - unfold stream_open. cbn [counter ciphertext]. erewrite trr_fresh; [reflexivity|done|lia|done|done|].
    assert (AeadKey.new Aes256Gcm (client_write_key (keys ss)) = Ok (AeadKey.mk (client_write_key (keys ss)) Aes256Gcm)) as -> by by apply AeadKey.new_wf.
    cbn [map_err mbind result_bind]. apply AeadKey.open_seal_iff in Hct. by rewrite Hct.
  - split; [done|done|cbn; lia|]. rewrite last_nonce_committed by done. cbn. lia.
Qed.

(** What reading and sending requests leaves of a session. *)
Definition response_side (s : SessionInner) : AtbId * SessionKeys * Z * Z * ProtocolPhase := (id s, keys s, server_counter s, expires_at s, phase s).

Fixpoint increasing_from (l : Z) (ns : list Z) : Prop := match ns with [] => True | n :: ns => l < n ∧ increasing_from n ns end.
(** Pieces that arrive: their times, texts and random nonces. *)
Definition pieces_of (xs : list (Z * bytes * Z)) : list Piece := (λ '(now, p, n), mk_piece now (Ok p) (Some n)) <$> xs.
Definition texts (xs : list (Z * bytes * Z)) : list bytes := (λ '(_, p, _), p) <$> xs.

Lemma request_stream_ok show cs ss aad h xs ts :
  streaming cs ss → 0 ≤ last_nonce cs → increasing_from (last_nonce cs) xs.*2 →
  client_counter cs + Z.of_nat (length xs) ≤ u64_max → client_counter ss + Z.of_nat (length xs) ≤ u64_max →
  Forall (λ x, ready x.1.1 cs ∧ Z.of_nat (length x.1.2) + Z.of_nat TAG_LEN ≤ MAX_FRAME_SIZE) xs → Forall (λ t, ready t ss) ts → length ts = length xs →
  ∃ fs cs' ss', encrypt_pieces show cs aad h (pieces_of xs) = (Returns (Ok ∘ StreamFrameReader.wire <$> fs), cs') ∧
    Forall (StreamFrameReader.frame_ok (Some MAX_FRAME_SIZE)) fs ∧ length fs = length xs ∧
    encrypted_stream ss aad h (zip ts fs) = (Ok <$> texts xs, ss') ∧ response_side cs' = response_side cs ∧ response_side ss' = response_side ss.
Proof using AL.
  revert cs ss h ts. induction xs as [|[[now p] n] xs IH]; intros cs ss h ts Hst H0 Hinc Hcc Hsc Hxs Hts Hlen.
  { destruct ts; [|done]. exists [], cs, ss. by split_and!. }
  destruct ts as [|t ts]; [done|]. cbn in *. destruct Hinc as [Hn Hinc]. apply Forall_cons in Hxs as [[Hr Hp] Hxs], Hts as [Ht Hts].
  destruct (chunk_ok cs ss now t aad h p n) as (f & h' & Hseal & Hf & Hopen & Hst'); [done|done|done|lia|lia|lia|lia|done|].
  destruct (IH (committed cs n) (committed ss (client_counter cs)) h' ts) as (fs & cs' & ss' & He & Hfs & Hl & Hd & Hc' & Hs'); try done.
  - rewrite last_nonce_committed by done. lia.
  - by rewrite last_nonce_committed by done.
  - cbn. lia.
  - cbn. lia.
  - lia.
  - exists (f :: fs), cs', ss'. split_and!; [|by constructor|cbn; lia| |done|done].
    + cbn [pieces_of fmap list_fmap encrypt_pieces]. unfold encrypt_piece. cbn [pc_chunk pc_nonce pc_now]. rewrite Hseal.
      rewrite (StreamFrameReader.encode_frame_wire _ _ Hf). cbn [mbind outcome_bind]. fold (pieces_of xs). rewrite He. done.
    + cbn [zip zip_with encrypted_stream]. rewrite Hopen, Hd. done.
Qed.

End chunks.

Lemma zip_extra {A B} (l : list A) (k : list B) : (length k ≤ length l)%nat → zip l k = zip (take (length k) l) k.
Proof. revert k. induction l as [|x l IH]; intros [|y k]; cbn; [done|lia|done|]. intros H. by rewrite IH by lia. Qed.
Lemma sealed_body_Some fs :
  Forall (StreamFrameReader.frame_ok None) fs → sealed_body (Some <$> fs) = Returns (Ok ∘ StreamFrameReader.wire <$> fs).
Proof.
  unfold sealed_body. induction 1 as [|f fs Hf _ IH]; [done|]. cbn [fmap list_fmap mapM]. rewrite (StreamFrameReader.encode_frame_wire _ _ Hf).
  cbn [mbind outcome_bind]. by rewrite IH.
Qed.

(** What the network may do to a body: move its cuts. *)
Definition recuts (cut : list (result string bytes) → list (result string bytes)) : Prop :=
  ∀ bs, ∃ chunks, cut (Ok <$> bs) = Ok <$> chunks ∧ concat chunks = concat bs.

(** A body of frames, cut by the network, is read as these frames. *)
Lemma cut_frames limit cut fs (times : list Z) :
  recuts cut → Forall (StreamFrameReader.frame_ok limit) fs →
  length times = S (length fs) →
  zip times (StreamFrameReader.poll limit (length times) (StreamFrameReader.new (cut (Ok ∘ StreamFrameReader.wire <$> fs)))) =
    zip (take (length fs) times) (Ok <$> fs).
Proof.
  intros Hcut Hfs Hlen. destruct (Hcut (StreamFrameReader.wire <$> fs)) as (chunks & Hc & Hcat).
  rewrite <-list_fmap_compose in Hc. rewrite Hc, Hlen, <-Nat.add_1_r, (StreamFrameReader.poll_all limit fs chunks 0 Hfs Hcat).
  rewrite zip_extra by (rewrite length_fmap; lia). by rewrite length_fmap.
Qed.

Lemma stream_served {AP : AeadPrim} {HaP : HashPrim} {UP : UuidPrim} {UL : UuidLaws UP} cut now reads r req ss ss2 fs items :
  recuts cut →
  hm_get (headers req) STR_ATTEST_BASE_ID = Some (as_bytes (uuid_to_string (id ss))) → length (id ss) = 16%nat →
  AtbRegistry.sessions r !! id ss = Some ss → ready now ss → Forall (StreamFrameReader.frame_ok (Some MAX_FRAME_SIZE)) fs → length reads = S (length fs) →
  encrypted_stream ss (request_aad (id ss)) NO_HASH (zip (take (length fs) reads) fs) = (items, ss2) →
  stream_from_request now r req (cut (Ok ∘ StreamFrameReader.wire <$> fs)) reads = (Ok (items, mk_ohs ss2 (request_aad (id ss))), AtbRegistry.update r (id ss2) ss2).
Proof.
  intros Hcut Hhd Hid Hr [Hnow _] Hfs Hlen Hdec. unfold stream_from_request. rewrite (parts_ok now r req (id ss) ss) by done.
  rewrite cut_frames by done. cbn [ohs_session ohs_aad]. by rewrite unfold_encrypted_stream, Hdec.
Qed.

(** [C26] A streaming call carries both streams: the handler reads exactly the pieces that the
    client sent, in order, and the client exactly the values that the handler answered, in order,
    however the network cuts the two bodies; provided that the random nonces of the pieces
    happen to increase. *)
Theorem streaming_call_ok {AP : AeadPrim} {AL : AeadLaws AP} {HaP : HashPrim} {MP : HmacPrim} {UP : UuidPrim} {UL : UuidLaws UP} {BP : Base64Prim}
    {CT : ClientText} {UR : UriParts} (show : ClientError → string) net cut (handler : list (result Z bytes) → list (Z * bytes)) (c : OpenHttpaClient)
    (t0 t1 now : Z) (cs ss : SessionInner) (r : AtbRegistry.t) (method path : string) (xs : list (Z * bytes * Z)) (reads polls : list Z) :
  let uri := join_uri (oc_server_uri c) path in let values := handler (Ok <$> texts xs) in
  oc_has_transport c = true → uri_valid uri = true → method_valid method = true →
  sendable method (parts_path uri) (parts_query uri) (call_authority uri) (id ss) None [] →
  (∀ hd, hm_get (headers (net method uri hd)) STR_ATTEST_BASE_ID = hm_get hd STR_ATTEST_BASE_ID) →
  recuts cut →
  synced cs ss → AtbRegistry.sessions r !! id ss = Some ss → t0 < expires_at cs → ready t1 cs → ready now ss →
  client_counter ss + 1 + Z.of_nat (length xs) ≤ u64_max → server_counter ss + Z.of_nat (length values) ≤ u64_max →
  increasing_from (client_counter ss) xs.*2 →
  Forall (λ x, ready x.1.1 cs ∧ Z.of_nat (length x.1.2) + Z.of_nat TAG_LEN ≤ MAX_FRAME_SIZE) xs →
  length reads = S (length xs) → Forall (λ t, ready t ss) reads →
  Forall (λ it, ready it.1 ss ∧ Z.of_nat (length it.2) + Z.of_nat TAG_LEN ≤ u32_max) values →
  length polls = S (length values) → Forall (λ t, ready t cs) polls →
  ∃ cs' r', trusted_request_streaming show (serve_stream net cut handler now reads) c t0 t1 cs method path (pieces_of xs) polls r =
    (Returns (Ok (Ok <$> values.*2)), cs', r').
Proof.
  intros uri values Ht Hu Hm Hsend Hnet Hcut Hsync Hr H0 H1 Hnow Hcc Hsc Hinc Hxs Hrl Hreads Hvs Hpl Hpolls.
  destruct (client_seals t1 cs ss method (parts_path uri) (parts_query uri) (call_authority uri) [] None) as (ct & ahl & _ & _ & Hseal); [done|done|lia|done|].
  set (cs1 := committed cs (client_counter ss)) in *. destruct (synced_committed cs ss Hsync) as [Hid Hidl Hkeys Hwf _ Hcc1 Hsc1 _ _]. pose proof Hsync as [_ _ _ _ _ Hcceq Hsceq [Hpos Hspos] [Hw1 Hw2]].
  assert (last_nonce cs1 = client_counter ss) as Hlast by by apply last_nonce_committed.
  unfold trusted_request_streaming, AttestSession.is_alive. rewrite bool_decide_true by done. rewrite Ht. fold uri. rewrite Hu. cbn [negb]. cbv zeta.
  rewrite (sync_id _ _ Hsync), Hseal, Hm. cbn [negb]. fold cs1.
  destruct (request_stream_ok show cs1 ss (request_aad (id ss)) NO_HASH xs (take (length xs) reads)) as (fs & cs2 & ss2 & -> & Hfs & Hfl & Hdec & Hc2 & Hs2).
  { split; [done|apply Hwf|change (client_counter cs1) with (client_counter cs + 1); lia|change (client_counter cs1) with (client_counter cs + 1); lia]. }
  { rewrite Hlast. lia. }
  { by rewrite Hlast. }
  { change (client_counter cs1) with (client_counter cs + 1). lia. }
  { lia. }
  { done. }
  { by apply Forall_take. }
  { rewrite length_take. lia. }
  unfold serve_stream at 1. erewrite (stream_served cut now reads r _ ss ss2 fs (Ok <$> texts xs)); [|done| |done|done|done|done|lia|by rewrite Hfl].
  2: { rewrite Hnet. rewrite !hm_get_insert_ne by done. apply hm_get_insert. }
  unfold response_side in Hc2, Hs2. injection Hs2 as Hsid Hskeys Hssc Hsexp Hsph. injection Hc2 as Hcid Hckeys Hcsc Hcexp Hcph.
  cbn [ohs_session ohs_aad]. fold values.
  assert (∀ t, ready t ss → ready t ss2) as Hrs by (intros t [Ha Hb]; split; [by rewrite Hsexp|by rewrite Hsph]).
  assert (∀ t, ready t cs → ready t cs2) as Hrc by (intros t [Ha Hb]; split; [by rewrite Hcexp|by rewrite Hcph]).
  change (server_counter cs1) with (server_counter cs) in Hcsc.
  destruct (stream_ok cs2 ss2 (request_aad (id ss)) NO_HASH values (take (length values) polls)) as (fs' & Hfs' & Hok' & Hopen & Hl').
  { rewrite Hckeys, Hskeys. done. }
  { by rewrite Hskeys. }
  1-4: lia.
  { eapply Forall_impl; [exact Hvs|]. intros it [Hit ?]. auto. }
  { rewrite length_take. lia. }
  { apply Forall_take. eapply Forall_impl; [exact Hpolls|auto]. }
  destruct (seal_stream ss2 (request_aad (id ss)) NO_HASH values) as [os ss3]. cbn [fst] in Hfs'. subst os. rewrite sealed_body_Some by done.
  cbn [sr_status sr_body]. change (is_success 200) with true. cbn [negb]. unfold response_items.
  rewrite cut_frames by (done || lia). rewrite unfold_open_frames, Hl'.
  destruct (open_frames cs2 (request_aad (id ss)) NO_HASH (zip (take (length values) polls) fs')) as [items cs3]. cbn [fst] in Hopen. subst items. eauto.
Qed.

(** The nonces are random: a piece whose nonce lies a window or more behind one that was drawn
    before it is refused by the client's own guard, and the stream has an error in its place. *)
Theorem random_nonce_refused {AP : AeadPrim} {HaP : HashPrim} (show : ClientError → string) (cs : SessionInner) (w now n : Z) (aad h p : bytes) :
  replay_strategy cs = SlidingWindow w → ready now cs → 0 < n → n + SESSION_W * 64 ≤ ReplayGuard.highest (replay_guard cs) →
  encrypt_piece show cs aad h (mk_piece now (Ok p) (Some n)) = (Returns (Err (show (ClientHandshake "replay nonce rejected"))), h, cs).
Proof.
  intros Hst [Hnow Hph] Hn Hfar. unfold encrypt_piece. cbn [pc_chunk pc_nonce pc_now]. unfold seal_chunk, AttestSession.with_keys_for_trr.
  rewrite decide_False, Hph by lia. cbn [allows_trusted_request negb]. unfold AttestSession.replay_check. rewrite Hst. unfold ReplayGuard.check.
  rewrite decide_False by lia. unfold SESSION_W in *. rewrite decide_False by lia. cbv zeta. rewrite decide_True by lia. done.
Qed.

(** The extractor reads the session's identifier only: neither the ticket nor what its MAC
    covers, so that a streamed body is accepted under any method, path and headers. *)
Theorem stream_request_unbound {AP : AeadPrim} {HaP : HashPrim} {UP : UuidPrim} (now : Z) (r : AtbRegistry.t) (req req' : Request)
    (body : list (result string bytes)) (polls : list Z) :
  hm_get (headers req') STR_ATTEST_BASE_ID = hm_get (headers req) STR_ATTEST_BASE_ID →
  stream_from_request now r req' body polls = stream_from_request now r req body polls.
Proof. intros H. unfold stream_from_request, from_request_parts. by rewrite H. Qed.

(** ** Witness *)

Module ToyStream.
#[global] Instance parts : UriParts := {|
  parts_path _ := "/stream"%string; parts_query _ := None; parts_scheme _ := None; parts_authority _ := Some (as_bytes "example.org"); method_valid _ := true |}.
Definition xs : list (Z * bytes * Z) := [(10, as_bytes "one", 5); (11, as_bytes "two", 9)].
Definition handler (items : list (result Z bytes)) : list (Z * bytes) := [(20, as_bytes "uno"); (21, as_bytes "due")].
Definition net (method uri : string) (hd : HeaderMap) : Request := Middleware.mk_request method "/stream" None None None hd [].
End ToyStream.

Lemma streaming_call_ok_witness :
  ∃ cs' r', trusted_request_streaming (CT := ToyWire.text) (UR := ToyStream.parts) (AP := Toy.aead) (HaP := Toy.hash) (MP := Toy.hmac) (UP := ToyWeb.uuid)
      (BP := ToyBase64.prim) (λ _, EmptyString)
      (serve_stream (AP := Toy.aead) (HaP := Toy.hash) (UP := ToyWeb.uuid) ToyStream.net (λ b, b) ToyStream.handler 15 [16; 17; 18])
      (ToyWire.client true) 1 2 (ToyExchange.session 1000) "POST" "/stream" (pieces_of ToyStream.xs) [30; 31; 32] ToyExchange.registry =
    (Returns (Ok [Ok (as_bytes "uno"); Ok (as_bytes "due")]), cs', r').
Proof.
  apply (streaming_call_ok (AL := Toy.aead_laws) (HaP := Toy.hash) (MP := Toy.hmac) (UL := ToyWeb.uuid_laws) (BP := ToyBase64.prim) (CT := ToyWire.text)
    (UR := ToyStream.parts) (λ _, EmptyString) ToyStream.net (λ b, b) ToyStream.handler (ToyWire.client true) 1 2 15 (ToyExchange.session 1000) ToyExchange.server_session
    ToyExchange.registry "POST" "/stream" ToyStream.xs [16; 17; 18] [30; 31; 32]).
  1-3: reflexivity.
  - split_and!; [done|by_compute|done].
  - reflexivity.
  - intros bs. by exists bs.
  - apply synced_new; [reflexivity|by_compute].
  - reflexivity.
  - by_compute.
  - by split.
  - by split.
  - by_compute.
  - by_compute.
  - by_compute.
  - repeat apply Forall_cons_2; [split; [by split|by_compute]..|apply Forall_nil_2].
  - reflexivity.
  - repeat apply Forall_cons_2; [by split..|apply Forall_nil_2].
  - repeat apply Forall_cons_2; [split; [by split|by_compute]..|apply Forall_nil_2].
  - reflexivity.
  - repeat apply Forall_cons_2; [by split..|apply Forall_nil_2].
Defined.
