(* ===== verification/Mesh.v ===== *)
(** * The agent mesh

    [crates/openhttpa-mesh/src]: the registries in which agents find each other
    ([registry.rs]), the admission policy ([policy.rs], [default_policies.rego]) and the
    node that connects to its peers ([node.rs]).

    A node's client is the one of [HandshakeWire]; the clock, the transport and the
    [regorus] evaluator are arguments.  [DashMap] operations are single steps. *)

From S2P Require Import Prelude Crypto Aead Proto KeySchedule Attestation Session KeyExchange Handshake Http Sfv Provenance Headers.
From S2P Require Import Oblivious Trailers Registry Middleware Client Handlers HandshakeWire ClientCall.
From stdpp Require Import options.

#[local] Open Scope Z_scope.

Inductive MeshError : Type :=
| MeshHandshake (msg : string)
| MeshAttestation (msg : string)
| PeerNotFound (msg : string)
| MeshMcp (msg : string)
| MeshRegistry (msg : string).

(** ** Registries *)

(** The trait [AgentRegistry]; the search's order is that of the underlying maps. *)
Class AgentRegistry (R : Type) : Type := {
  ar_register : (*now*) Z → R → AgentMetadata → outcome (result string () * R);
  ar_get_agent : R → AtbId → outcome (result string (option AgentMetadata));
  ar_search : R → string → list AgentMetadata;
  ar_heartbeat : (*now*) Z → R → AtbId → outcome (result string () * R);
}.

Module MockRegistry.
Definition t : Type := gmap AtbId AgentMetadata.
Definition new : t := ∅.
#[global] Instance agent_registry : AgentRegistry t := {|
  ar_register _ r m := Returns (Ok (), <[agent_id m := m]> r);
  ar_get_agent r i := Returns (Ok (r !! i));
  ar_search r c := base.filter (λ m, c ∈ capabilities m) (map_to_list r).*2;
  ar_heartbeat _ r _ := Returns (Ok (), r);
|}.
End MockRegistry.

(** One map, with the time each agent was last seen: what the sharded registry
    implements. *)
Abbreviation flat := (gmap AtbId (AgentMetadata * Z)).
Module FlatRegistry.
Definition register (now : Z) (r : flat) (m : AgentMetadata) : flat := <[agent_id m := (m, now)]> r.
Definition get_agent (r : flat) (i : AtbId) : option AgentMetadata := fst <$> r !! i.
Definition heartbeat (now : Z) (r : flat) (i : AtbId) : result string () * flat :=
  match r !! i with Some (m, _) => (Ok (), <[i := (m, now)]> r) | None => (Err "Agent not found"%string, r) end.
Definition alive (ttl now : Z) (x : AgentMetadata * Z) : bool := bool_decide (Z.max 0 (now - x.2) < ttl).
Definition reap (ttl now : Z) (r : flat) : flat := base.filter (λ kv, alive ttl now kv.2 = true) r.
End FlatRegistry.

Module ShardedRegistry.

Record t : Type := mk { shards : list flat; ttl : Z }.
Definition new (shard_count : nat) (ttl : Z) : t := mk (replicate shard_count ∅) ttl.

(** [id.as_u128() % len]; no shards, no remainder. *)
Definition index (n : nat) (i : AtbId) : nat := Z.to_nat (from_be i `mod` Z.of_nat n).
Definition get_shard (r : t) (i : AtbId) : outcome (nat * flat) :=
  match shards r with
  | [] => Panics
  | l => let k := index (length l) i in match l !! k with Some s => Returns (k, s) | None => Panics end
  end.
Definition set_shard (r : t) (k : nat) (s : flat) : t := mk (<[k := s]> (shards r)) (ttl r).

Definition register (now : Z) (r : t) (m : AgentMetadata) : outcome (result string () * t) :=
  '(k, s) ← get_shard r (agent_id m); Returns (Ok (), set_shard r k (FlatRegistry.register now s m)).
Definition get_agent (r : t) (i : AtbId) : outcome (result string (option AgentMetadata)) :=
  '(_, s) ← get_shard r i; Returns (Ok (FlatRegistry.get_agent s i)).
Definition search (r : t) (capability : string) : list AgentMetadata :=
  base.filter (λ m, capability ∈ capabilities m) (shards r ≫= λ s : flat, fst <$> (map_to_list s).*2).
Definition heartbeat (now : Z) (r : t) (i : AtbId) : outcome (result string () * t) :=
  '(k, s) ← get_shard r i; let '(res, s) := FlatRegistry.heartbeat now s i in Returns (res, set_shard r k s).
Definition reap (now : Z) (r : t) : t := mk (FlatRegistry.reap (ttl r) now <$> shards r) (ttl r).

#[global] Instance agent_registry : AgentRegistry t := {|
  ar_register := register;
  ar_get_agent := get_agent;
  ar_search := search;
  ar_heartbeat := heartbeat;
|}.

(** Every agent is in the shard of its identifier, and there with what the flat registry
    holds. *)
Definition refines (r : t) (f : flat) : Prop :=
  (0 < length (shards r))%nat ∧
  ∀ k s, shards r !! k = Some s → ∀ i, s !! i = if decide (index (length (shards r)) i = k) then f !! i else None.

Lemma index_lt n i : (0 < n)%nat → (index n i < n)%nat.
Proof. intros Hn. unfold index. pose proof (Z.mod_pos_bound (from_be i) (Z.of_nat n)). lia. Qed.
Lemma get_shard_total r i f :
  refines r f → ∃ s, get_shard r i = Returns (index (length (shards r)) i, s) ∧ shards r !! index (length (shards r)) i = Some s ∧ s !! i = f !! i.
Proof.
  intros [Hn Href]. destruct (lookup_lt_is_Some_2 (shards r) (index (length (shards r)) i)) as [s Hs]; [by apply index_lt|].
  exists s. split_and!; [|done|].
  - unfold get_shard. destruct (shards r) as [|s0 l]; [cbn in Hn; lia|]. by rewrite Hs.
  - rewrite (Href _ _ Hs). by rewrite decide_True.
Qed.
Lemma refines_set r f i s x :
  refines r f → shards r !! index (length (shards r)) i = Some s →
  refines (set_shard r (index (length (shards r)) i) (<[i := x]> s)) (<[i := x]> f).
Proof.
  intros [Hn Href] Hs. unfold refines, set_shard. cbn [shards]. rewrite length_insert. split; [done|]. intros k s' Hk j.
  apply list_lookup_insert_Some in Hk as [(<- & <- & _)|[Hne Hk]].
  - destruct (decide (i = j)) as [<-|Hij]; [by rewrite !lookup_insert_eq, decide_True|]. rewrite !lookup_insert_ne by done. by apply Href.
  - rewrite (Href _ _ Hk). case_decide as Hd; [|done]. destruct (decide (i = j)) as [<-|]; [done|]. by rewrite lookup_insert_ne.
Qed.

End ShardedRegistry.

(** The sharded registry behaves as one map: for any number of shards but zero, every
    operation gives the flat registry's answer and leaves a registry that still
    represents it. *)
Theorem sharding_refines (r : ShardedRegistry.t) (f : flat) (now : Z) :
  ShardedRegistry.refines r f →
  (∀ m, ∃ r', ShardedRegistry.register now r m = Returns (Ok (), r') ∧ ShardedRegistry.refines r' (FlatRegistry.register now f m)) ∧
  (∀ i, ShardedRegistry.get_agent r i = Returns (Ok (FlatRegistry.get_agent f i))) ∧
  (∀ i, ∃ r', ShardedRegistry.heartbeat now r i = Returns ((FlatRegistry.heartbeat now f i).1, r') ∧
     ShardedRegistry.refines r' (FlatRegistry.heartbeat now f i).2) ∧
  ShardedRegistry.refines (ShardedRegistry.reap now r) (FlatRegistry.reap (ShardedRegistry.ttl r) now f) ∧
  (∀ c m, m ∈ ShardedRegistry.search r c ↔ c ∈ capabilities m ∧ ∃ i t, f !! i = Some (m, t)).
Proof.
  intros Href. split_and!.
  - intros m. destruct (ShardedRegistry.get_shard_total r (agent_id m) f Href) as (s & Hg & Hs & _).
    unfold ShardedRegistry.register. rewrite Hg. eexists. split; [done|]. by apply ShardedRegistry.refines_set.
  - intros i. destruct (ShardedRegistry.get_shard_total r i f Href) as (s & Hg & _ & Hi).
    unfold ShardedRegistry.get_agent. rewrite Hg. cbn [mbind outcome_bind]. unfold FlatRegistry.get_agent. by rewrite Hi.
  - intros i. destruct (ShardedRegistry.get_shard_total r i f Href) as (s & Hg & Hs & Hi).
    unfold ShardedRegistry.heartbeat. rewrite Hg. cbn [mbind outcome_bind]. unfold FlatRegistry.heartbeat. rewrite Hi.
    destruct (f !! i) as [[m t]|] eqn:Hf; (eexists; split; [done|]); cbn [snd]; [by apply ShardedRegistry.refines_set|].
    unfold ShardedRegistry.set_shard. rewrite list_insert_id by done. by destruct r.
  - destruct Href as [Hn Href]. unfold ShardedRegistry.refines, ShardedRegistry.reap. cbn [ShardedRegistry.shards]. rewrite length_fmap.
    split; [done|]. intros k s Hk i. apply list_lookup_fmap_Some in Hk as (s0 & -> & Hk). unfold FlatRegistry.reap.
    rewrite !map_lookup_filter, (Href _ _ Hk). by case_decide.
  - intros c m. unfold ShardedRegistry.search. rewrite list_elem_of_filter. apply and_iff_compat_l. destruct Href as [Hn Href]. split.
    + intros (s & (x & -> & Hx)%list_elem_of_fmap & [k Hk]%list_elem_of_lookup)%list_elem_of_bind.
      apply list_elem_of_fmap in Hx as ([i y] & -> & Hi%elem_of_map_to_list). rewrite (Href _ _ Hk) in Hi.
      case_decide; [|done]. exists i, y.2. by destruct y.
    + intros (i & t & Hi). destruct (lookup_lt_is_Some_2 (ShardedRegistry.shards r) (ShardedRegistry.index (length (ShardedRegistry.shards r)) i))
        as [s Hs]; [by apply ShardedRegistry.index_lt|].
      apply list_elem_of_bind. exists s. split; [|by eapply list_elem_of_lookup_2]. apply list_elem_of_fmap. exists (m, t). split; [done|].
      apply list_elem_of_fmap. exists (i, (m, t)). split; [done|]. apply elem_of_map_to_list. rewrite (Href _ _ Hs). by rewrite decide_True.
Qed.

(** A registry without shards panics on its first use. *)
Theorem no_shards_panics (ttl now : Z) (m : AgentMetadata) : ShardedRegistry.register now (ShardedRegistry.new 0 ttl) m = Panics.
Proof. done. Qed.

(** ** The admission policy *)

Record PolicyInput : Type := mk_policy_input {
  in_src : string; in_dst : string; in_claims : EatClaims; in_tcb_status : string; in_pqc_bound : bool; in_timestamp : Z;
}.
Record EvaluationResult : Type := mk_evaluation { ev_allow : bool; ev_policy_id : string }.

(** The rule [allow] of the default policy, with the library's [is_trusted_tee],
    [is_tcb_uptodate] and [is_pqc_bound]; an absent member makes a rule undefined. *)
Definition is_trusted_tee (c : EatClaims) : bool := bool_decide (dbgstat c = Some 0).
Definition is_tcb_uptodate (status : string) : bool := bool_decide (status = "UpToDate"%string).
Definition is_pqc_bound (i : PolicyInput) : bool := in_pqc_bound i.
Definition default_allow (i : PolicyInput) : bool :=
  is_trusted_tee (in_claims i) && is_tcb_uptodate (in_tcb_status i) && is_pqc_bound i.

(** [regorus]: the values of a query's first expressions, as JSON booleans ([None] for
    anything else). *)
Definition RegoQuery : Type := (*query*) string → PolicyInput → result string (list (option bool)).

Definition evaluate_ext (eval_query : RegoQuery) (policy_id : string) (input : PolicyInput) : result MeshError EvaluationResult :=
  let query := if decide (policy_id = "default"%string ∨ policy_id = EmptyString) then "data.openhttpa.mesh.allow"%string
               else ("data.openhttpa.mesh." +:+ policy_id +:+ ".allow")%string in
  results ← map_err (λ e, MeshAttestation ("Policy evaluation failed: " +:+ e)) (eval_query query input);
  Ok (mk_evaluation (existsb (λ v, bool_decide (v = Some true)) results) policy_id).

(** The engine with the default policy: the query is always defined. *)
Definition default_engine : RegoQuery := λ query i,
  if decide (query = "data.openhttpa.mesh.allow"%string) then Ok [Some (default_allow i)] else Ok [].

(** ** The node *)

Record AgentSession : Type := mk_agent_session { peer_metadata : AgentMetadata; agent_session : SessionInner }.

Record AgentNode : Type := mk_node {
  node_metadata : AgentMetadata;
  node_sessions : gmap AtbId AgentSession;
  node_tee_provider : TeeProvider;
  node_verifier : QuoteVerifier;
}.
Definition set_sessions (n : AgentNode) (m : gmap AtbId AgentSession) : AgentNode :=
  mk_node (node_metadata n) m (node_tee_provider n) (node_verifier n).
Definition new_node (id : AtbId) (name : string) (capabilities : list string) (endpoint : string) (tee : TeeProvider) (v : QuoteVerifier) : AgentNode :=
  mk_node (mk_agent id name capabilities endpoint [] None [] None) ∅ tee v.
Definition is_gateway (n : AgentNode) : bool := existsb (λ c, bool_decide (c = "gateway"%string)) (capabilities (node_metadata n)).

(** The client that a node builds for a peer: strict, with the builder's default of no
    preflight. *)
Definition peer_client (n : AgentNode) (endpoint : string) : OpenHttpaClient :=
  mk_openhttpa_client endpoint (node_tee_provider n) true false (mk_client true (node_verifier n) None).

Section node.
Context {St : Type} (send : St → TransportRequest → result string TransportResponse * St).
Context {CT : ClientText} {SJ : ShareJson} {SP : SfvPrim} {HJ : HeaderJson} {UP : UuidPrim}.
Context {HaP : HashPrim} {HP : HkdfPrim} {KP : KexPrim}.
Context (mldsa_verify : bytes → bytes → bytes → bool) (allow : option string) (show : ClientError → string).
Context {R : Type} `{AgentRegistry R} (eval_query : RegoQuery).

Definition policy_input (n : AgentNode) (peer : AtbId) (s : SessionInner) (res : VerificationResult) (timestamp : Z) : PolicyInput :=
  mk_policy_input (uuid_to_string (agent_id (node_metadata n))) (uuid_to_string peer) (claims res) (tcb_status res)
    (is_post_quantum (cipher_suite s)) timestamp.

(** What is checked of a session that the handshake gave. *)
Definition admit_peer (n : AgentNode) (peer : AtbId) (s : SessionInner) (timestamp : Z) : result MeshError () :=
  match attestation_result s with
  | None => Ok ()
  | Some res =>
      r ← evaluate_ext eval_query "default" (policy_input n peer s res timestamp);
      if ev_allow r then Ok ()
      else Err (MeshAttestation ("Peer failed to satisfy mesh admission policy '" +:+ ev_policy_id r +:+ "'"))
  end.

Definition connect_to_peer (e : ClientEnv) (now timestamp : Z) (reg : R) (n : AgentNode) (w : St) (peer : AtbId) :
    outcome (result MeshError AgentSession) * AgentNode * St :=
  let cached := match node_sessions n !! peer with
                | Some s => if AttestSession.is_alive now (agent_session s) then Some s else None
                | None => None
                end in
  match cached with
  | Some s => (Returns (Ok s), n, w)
  | None =>
      match ar_get_agent reg peer with
      | Panics => (Panics, n, w)
      | Returns (Err m) => (Returns (Err (MeshRegistry m)), n, w)
      | Returns (Ok None) => (Returns (Err (PeerNotFound (uuid_to_string peer))), n, w)
      | Returns (Ok (Some meta)) =>
          if uri_valid (endpoint meta) then
            match attest_handshake send mldsa_verify allow (peer_client n (endpoint meta)) e w with
            | (Panics, w) => (Panics, n, w)
            | (Returns (Err err), w) => (Returns (Err (MeshHandshake (show err))), n, w)
            | (Returns (Ok s), w) =>
                match admit_peer n peer s timestamp with
                | Err err => (Returns (Err err), n, w)
                | Ok _ =>
                    let a := mk_agent_session meta s in
                    (Returns (Ok a), set_sessions n (<[peer := a]> (node_sessions n)), w)
                end
            end
          else (Returns (Err (MeshHandshake "Invalid endpoint")), n, w)
      end
  end.

End node.

(** ** Tool calls *)

(** [serde_json] on the MCP request and on the answer. *)
Class McpJson (P : Type) : Type := {
  mcp_request : (*id*) string → (*method*) string → (*params*) P → option bytes;
  mcp_value : bytes → option P;
}.

Section tools.
Context {St : Type} (send : wire St).
Context {CT : ClientText} {SJ : ShareJson} {SP : SfvPrim} {HJ : HeaderJson} {UP : UuidPrim} {UR : UriParts} {CJ : CiphertextJson}.
Context {AP : AeadPrim} {HaP : HashPrim} {HP : HkdfPrim} {MP : HmacPrim} {KP : KexPrim} {XP : HexPrim} {BP : Base64Prim}.
Context (mldsa_verify : bytes → bytes → bytes → bool) (allow : option string) (show : ClientError → string).
Context {R : Type} `{AgentRegistry R} (eval_query : RegoQuery) {P : Type} {MJ : McpJson P}.

(** The headers of a call: the chain with this node appended, anonymised. *)
Definition provenance_headers (fresh : nat → AtbId) (n : AgentNode) (provenance : ProvenanceChain.t) : option HeaderMap :=
  json ← chain_to_vec (ProvenanceChain.anonymize fresh (ProvenanceChain.append provenance (node_metadata n)));
  Some (hm_insert [] HDR_ATTEST_PROVENANCE (encode_attest_provenance json)).

(** The peer's session is shared with the node's table: it keeps the counters that the
    call moved. *)
Definition call_peer_tool_with_provenance (e : ClientEnv) (now timestamp max t0 t1 t2 : Z) (fresh : nat → AtbId) (request_id : AtbId) (reg : R)
    (n : AgentNode) (w : St) (peer : AtbId) (method : string) (params : P) (provenance : ProvenanceChain.t)
    : outcome (result MeshError P) * AgentNode * St :=
  match connect_to_peer (handshake_send send) mldsa_verify allow show eval_query e now timestamp reg n w peer with
  | (Panics, n, w) => (Panics, n, w)
  | (Returns (Err err), n, w) => (Returns (Err err), n, w)
  | (Returns (Ok a), n, w) =>
      match mcp_request (uuid_to_string request_id) method params with
      | None => (Returns (Err (MeshMcp "Serialization error")), n, w)
      | Some req =>
          match provenance_headers fresh n provenance with
          | None => (Returns (Err (MeshHandshake "Provenance serialization failed")), n, w)
          | Some extra =>
              if negb (uri_valid (endpoint (peer_metadata a))) then (Panics, n, w)
              else
                let '(r, s, w) := trusted_request_ext send (peer_client n (endpoint (peer_metadata a))) max t0 t1 t2 (agent_session a)
                  "POST" "/api/mcp" req (Some extra) w in
                let n := set_sessions n (<[peer := mk_agent_session (peer_metadata a) s]> (node_sessions n)) in
                (Returns (b ← map_err (λ err, MeshHandshake (show err)) r; ok_or (mcp_value b) (MeshMcp "Deserialization error")), n, w)
          end
      end
  end.
Definition call_peer_tool e now timestamp max t0 t1 t2 fresh request_id (reg : R) (n : AgentNode) (w : St) peer method (params : P) :=
  call_peer_tool_with_provenance e now timestamp max t0 t1 t2 fresh request_id reg n w peer method params ProvenanceChain.default.

End tools.

(** ** Who is admitted *)

(** A peer's session carries evidence that the node's verifier accepted, and the first
    quote's result is one that the default policy admits. *)
Definition admitted (n : AgentNode) (a : AgentSession) : Prop :=
  ∃ q report_data r rs,
    node_verifier n (bind_quote q report_data) report_data = Ok r ∧
    attestation_result (agent_session a) = Some (set_secondary r (secondary r ++ rs)) ∧
    dbgstat (claims r) = Some 0 ∧ tcb_status r = "UpToDate"%string ∧
    is_post_quantum (cipher_suite (agent_session a)) = true.

Definition all_admitted (n : AgentNode) : Prop := map_Forall (λ _, admitted n) (node_sessions n).

Lemma verify_bound_Ok verify rd composite qs c :
  verify_bound verify rd composite qs = Ok c →
  ∃ rs, Forall2 (λ q r, verify (bind_quote q rd) rd = Ok r) qs rs ∧ c = foldl push_result composite rs.
Proof.
  revert composite. induction qs as [|q qs IH]; intros composite; cbn [verify_bound].
  { intros [= <-]. by exists []. }
  intros H. inv_ok. match goal with H : verify_bound _ _ _ _ = _ |- _ => destruct (IH _ H) as (rs & Hrs & ->) end.
  exists (x :: rs). split; [by constructor|done].
Qed.

(** A strict client's session always carries a verified first quote. *)
Lemma strict_finish_attested {HaP : HashPrim} {HP : HkdfPrim} {KP : KexPrim} mldsa_verify c now kem random challenge resp s :
  c_strict_attestation c = true →
  client_finish mldsa_verify c now kem random challenge resp = Returns (Ok s) →
  ∃ q rd r rs, c_verifier c (bind_quote q rd) rd = Ok r ∧ attestation_result s = Some (set_secondary r (secondary r ++ rs)).
Proof.
  intros Hs H. unfold client_finish in H. cbv zeta in H.
  match type of H with (match ?m with Ok _ => _ | Err _ => _ end) = _ => destruct m as [att|] eqn:Hq; [|done] end.
  assert (attestation_result s = att) as Hatt.
  { destruct (HybridKemPair.client_combine _ _ _) as [[secret|]|]; [|done..].
    destruct (derive _ _) as [[ks|]|]; [|done..]. by injection H as <-. }
  inv_ok. match goal with H : verify_server_quotes _ _ _ = Ok _ |- _ => revert H end. unfold verify_server_quotes. rewrite Hs.
  destruct (resp_quotes resp) as [|q qs]; [done|]. intros (rs & Hall & Hc)%verify_bound_Ok.
  apply Forall2_cons_inv_l in Hall as (r & rs' & Hr & _ & ->). eexists q, _, r, rs'. split; [exact Hr|].
  rewrite Hatt, Hc. cbn [foldl push_result]. apply push_results.
Qed.

Lemma strict_handshake_attested {St} (send : St → TransportRequest → result string TransportResponse * St) {CT : ClientText} {SJ : ShareJson}
    {SP : SfvPrim} {HJ : HeaderJson} {UP : UuidPrim} {HaP : HashPrim} {HP : HkdfPrim} {KP : KexPrim} mldsa_verify allow c e w s w' :
  c_strict_attestation (oc_config c) = true →
  attest_handshake send mldsa_verify allow c e w = (Returns (Ok s), w') →
  ∃ q rd r rs, c_verifier (oc_config c) (bind_quote q rd) rd = Ok r ∧
    attestation_result s = Some (set_secondary r (secondary r ++ rs)).
Proof.
  intros Hs H. unfold attest_handshake in H.
  do 7 apply prog_bind_Ok in H as (? & ? & _ & H). unfold of_call in H.
  eapply strict_finish_attested; [exact Hs|]. by injection H as H _.
Qed.

Lemma default_admits {UP : UuidPrim} n peer s ts r :
  attestation_result s = Some r → admit_peer default_engine n peer s ts = Ok () →
  dbgstat (claims r) = Some 0 ∧ tcb_status r = "UpToDate"%string ∧ is_post_quantum (cipher_suite s) = true.
Proof.
  unfold admit_peer. intros ->. unfold evaluate_ext, default_engine. rewrite (decide_True (P := _ ∨ _)) by (by left).
  destruct (default_allow (policy_input n peer s r ts)) eqn:Hd; [|done]. intros _. revert Hd.
  unfold default_allow, is_trusted_tee, is_tcb_uptodate, is_pqc_bound.
  cbn [policy_input in_claims in_tcb_status in_pqc_bound]. rewrite !andb_true_iff, !bool_decide_eq_true. tauto.
Qed.

Lemma connect_admitted {St} (send : St → TransportRequest → result string TransportResponse * St) {CT : ClientText} {SJ : ShareJson}
    {SP : SfvPrim} {HJ : HeaderJson} {UP : UuidPrim} {HaP : HashPrim} {HP : HkdfPrim} {KP : KexPrim} mldsa_verify allow show
    {R} {AR : AgentRegistry R} e now timestamp (reg : R) (n n' : AgentNode) (w w' : St) peer o :
  all_admitted n →
  connect_to_peer send mldsa_verify allow show default_engine e now timestamp reg n w peer = (o, n', w') →
  all_admitted n' ∧ node_verifier n' = node_verifier n ∧ ∀ a, o = Returns (Ok a) → admitted n' a ∧ node_sessions n' !! peer = Some a.
Proof.
  intros Hn H. unfold connect_to_peer in H. destruct (node_sessions n !! peer) as [a|] eqn:Hp.
  1: destruct (AttestSession.is_alive now (agent_session a)).
  1: { simplify_eq. split_and!; [done|done|]. intros ? [= <-]. split; [by apply (Hn peer)|done]. }
  all: cbv zeta iota in H; destruct (ar_get_agent reg peer) as [[[meta|]|]|];
    [destruct (uri_valid (endpoint meta)); [|by simplify_eq]|by simplify_eq..];
    destruct (attest_handshake _ _ _ _ _ _) as [[[s|]|] w1] eqn:Hh; [|by simplify_eq..];
    destruct (admit_peer _ _ _ _ _) as [[]|] eqn:Ha; [|by simplify_eq];
    apply strict_handshake_attested in Hh as (q & rd & r & rs & Hv & Hr); [|done];
    destruct (default_admits _ _ _ _ _ Hr Ha) as (Hd & Ht & Hq); simplify_eq;
    assert (admitted n (mk_agent_session meta s)) as Hadm by (by exists q, rd, r, rs);
    (split_and!; [|done|intros ? [= <-]; split; [exact Hadm|apply lookup_insert_eq]]);
    unfold all_admitted; apply map_Forall_insert_2; [exact Hadm|exact Hn].
Qed.

(** [C23] Everything a mesh node talks to has been attested and admitted: as long as the
    sessions that a node keeps are admitted, connecting to any peer, over any transport
    and with any registry, keeps them so, also on its error paths; and the session it
    returns carries evidence that the node's own verifier accepted, of a production TEE
    with an up to date TCB over a post-quantum suite. *)
Theorem mesh_peers_admitted {St} (send : St → TransportRequest → result string TransportResponse * St) {CT : ClientText} {SJ : ShareJson}
    {SP : SfvPrim} {HJ : HeaderJson} {UP : UuidPrim} {HaP : HashPrim} {HP : HkdfPrim} {KP : KexPrim} mldsa_verify allow show
    {R} {AR : AgentRegistry R} e now timestamp (reg : R) (n n' : AgentNode) (w w' : St) peer o :
  all_admitted n →
  connect_to_peer send mldsa_verify allow show default_engine e now timestamp reg n w peer = (o, n', w') →
  all_admitted n' ∧ node_verifier n' = node_verifier n ∧ ∀ a, o = Returns (Ok a) → admitted n' a ∧ node_sessions n' !! peer = Some a.
Proof. apply connect_admitted. Qed.

(** Calling a tool keeps every session of the node admitted, whatever the call returns. *)
Theorem tool_calls_admitted {St} (send : wire St) {CT : ClientText} {SJ : ShareJson} {SP : SfvPrim} {HJ : HeaderJson} {UP : UuidPrim}
    {UR : UriParts} {CJ : CiphertextJson} {AP : AeadPrim} {HaP : HashPrim} {HP : HkdfPrim} {MP : HmacPrim} {KP : KexPrim} {XP : HexPrim}
    {BP : Base64Prim} mldsa_verify allow show {R} {AR : AgentRegistry R} {P} {MJ : McpJson P} e now timestamp max t0 t1 t2 fresh request_id
    (reg : R) (n n' : AgentNode) (w w' : St) peer method (params : P) provenance o :
  all_admitted n →
  call_peer_tool_with_provenance send mldsa_verify allow show default_engine e now timestamp max t0 t1 t2 fresh request_id reg n w peer
    method params provenance = (o, n', w') →
  all_admitted n'.
Proof.
  intros Hn H. unfold call_peer_tool_with_provenance in H.
  destruct (connect_to_peer _ _ _ _ _ _ _ _ _ _ _ _) as [[oc n1] w1] eqn:Hc.
  destruct (connect_admitted _ _ _ _ _ _ _ _ _ _ _ _ _ _ Hn Hc) as (Hn1 & _ & Ha).
  destruct oc as [[a|]|]; [|by simplify_eq..]. destruct (Ha a eq_refl) as [Hadm _].
  destruct (mcp_request _ _ _); [|by simplify_eq]. destruct (provenance_headers _ _ _); [|by simplify_eq].
  destruct (negb _); [by simplify_eq|]. destruct (trusted_request_ext _ _ _ _ _ _ _ _ _ _ _ _) as [[r s] w2] eqn:Hcall.
  apply call_identity in Hcall. injection Hcall as _ Hsuite Hres. injection H as _ <- _.
  unfold all_admitted. apply map_Forall_insert_2; [|exact Hn1]. destruct Hadm as (q & rd & r0 & rs & Hv & Hr & Hd & Htcb & Hpq).
  exists q, rd, r0, rs. cbn [agent_session]. rewrite Hsuite, Hres. by split_and!.
Qed.

(** What the peer reads of a call's route: a chain one hop longer than the one that came
    in, with this node's capabilities at its end, in which no agent has its name. *)
Theorem peer_reads_anonymous {SP : SfvPrim} {SL : SfvLaws SP} {HJ : HeaderJson} {JL : HeaderJsonLaws HJ} fresh n provenance hs name :
  provenance_headers fresh n provenance = Some hs →
  ∃ c, result_ok (decode_bytes_sfv hs HDR_ATTEST_PROVENANCE) ≫= chain_from_slice = Some c ∧
    length (ProvenanceChain.hops c) = S (length (ProvenanceChain.hops provenance)) ∧
    capabilities <$> ProvenanceChain.previous c = Some (capabilities (node_metadata n)) ∧
    (ProvenanceChain.contains_agent c name = true ↔ name = "anonymous_agent"%string).
Proof.
  unfold provenance_headers. set (c := ProvenanceChain.anonymize _ _). destruct (chain_to_vec c) as [json|] eqn:Hj; [|done].
  intros [= <-]. exists c. split_and!.
  - rewrite (decode_chain_encoded _ _ (Some c)); cbn [mbind option_bind]; rewrite Hj; done.
  - unfold c. rewrite ProvenanceChain.hops_anonymize. cbn. rewrite length_app. cbn. lia.
  - unfold c, ProvenanceChain.previous, ProvenanceChain.anonymize, ProvenanceChain.append. cbn [ProvenanceChain.hops].
    rewrite imap_app. cbn [imap]. by rewrite last_snoc.
  - unfold c. rewrite anonymize_contains, bool_decide_eq_true. cbn. split; [by intros [? _]|].
    intros ->. split; [done|]. by destruct (ProvenanceChain.hops provenance).
Qed.

(** A node cannot connect to this repository's own server: its client does not ask for
    a preflight, and without the challenge of one the server refuses the handshake. *)
Theorem mesh_needs_preflight {CT : ClientText} {CJ : ShareJson} {SP : SfvPrim} {SL : SfvLaws SP} {HJ : HeaderJson} {JL : HeaderJsonLaws HJ}
    {UP : UuidPrim} {UL : UuidLaws UP} {AP : AeadPrim} {HaP : HashPrim} {HP : HkdfPrim} {MP : HmacPrim} {KP : KexPrim} {KL : KexLaws KP}
    {DF : DebugFmt} {SJ : HandshakeJson} {CL : ShareJsonLaws SJ CJ} mldsa_verify allow show eval_query {R} {AR : AgentRegistry R}
    e now timestamp (reg : R) (n : AgentNode) (w : World) peer a :
  visible_str (ce_date e) → length (env_atb_id (w_env w)) = 16%nat → is_u64 (atb_ttl (w_state w)) →
  (∀ r, env_random (w_env w) = Some r → length r = 32%nat) → node_sessions n !! peer = None →
  (connect_to_peer (loopback allow) mldsa_verify allow show eval_query e now timestamp reg n w peer).1.1 ≠ Returns (Ok a).
Proof.
  intros Hd Hid Httl Hr Hp H. unfold connect_to_peer in H. rewrite Hp in H. cbv zeta iota in H.
  destruct (ar_get_agent reg peer) as [[[meta|]|]|]; [|done..]. destruct (uri_valid (endpoint meta)); [|done].
  destruct (attest_handshake _ _ _ _ _ _) as [[[s|]|] w1] eqn:Hh; [|done..].
  by eapply (no_preflight_no_session mldsa_verify allow _ _ _ _ _ Hd Hid Httl Hr) in Hh.
Qed.

(** ** A run *)

Module ToyMesh.
#[local] Existing Instances Toy.hash Toy.hkdf ToyKex.prim ToySfv.prim ToyHeaders.json ToyHeaders.uuid.

Definition peer_id : AtbId := replicate 16 (u8_of 9).
Definition registry : MockRegistry.t := {[ peer_id := mk_agent peer_id "peer" [] "https://peer.example" [] None [] None ]}.
Definition verify : QuoteVerifier := λ q rd,
  Ok (mk_result None (mk_claims None None None None (Some 0) None None None None None) "UpToDate" None None []).
Definition node : AgentNode := new_node (replicate 16 (u8_of 1)) "node" [] "https://node.example" ToyWire.generate_quotes verify.

(** A peer that answers every request with the same share. *)
Definition peer_share : ServerKeyShare :=
  let server := HybridKemPair.mk (as_bytes "peer ecdhe") (as_bytes "peer mlkem") in
  mk_server_share (ecdhe_public (HybridKemPair.public_key_share server)) [] (Toy.pad 1088 []) None.
Definition answer : AtHsResponseHeaders :=
  mk_aths_response X25519MlKem768Aes256GcmSha384 (replicate 32 (u8_of 3)) (default [] (encode_server_share (HandshakeJson := ToyWire.server_json) peer_share))
    peer_id V2 3600 [mk_quote Mock Raw (as_bytes "q") [] []] [] None None [] None.
Definition send (w : ()) (req : TransportRequest) : result string TransportResponse * () :=
  (deliver (m ← encode_response answer; Returns (200, m)), w).
Abbreviation run :=
  (connect_to_peer (CT := ToyWire.text) (SJ := ToyWire.client_json) (SP := ToySfv.prim) (HJ := ToyHeaders.json) (UP := ToyHeaders.uuid)
     (HaP := Toy.hash) (HP := Toy.hkdf) (KP := ToyKex.prim) send (λ _ _ _, true) None (λ _, EmptyString) default_engine
     ToyWire.client_env 0 0 registry node () peer_id).

End ToyMesh.

Lemma mesh_peers_admitted_witness : ∃ a n', ToyMesh.run = (Returns (Ok a), n', ()) ∧ admitted n' a.
Proof.
  assert (match ToyMesh.run with (Returns (Ok _), _, _) => true | _ => false end = true) as Hf by (vm_compute; reflexivity).
  destruct ToyMesh.run as [[[[a|?]|] n'] []] eqn:Hrun; [|discriminate Hf..]. exists a, n'. split; [reflexivity|].
  eapply (mesh_peers_admitted ToyMesh.send (CT := ToyWire.text) (SJ := ToyWire.client_json) (SP := ToySfv.prim) (HJ := ToyHeaders.json)
    (UP := ToyHeaders.uuid) (HaP := Toy.hash) (HP := Toy.hkdf) (KP := ToyKex.prim) (λ _ _ _, true) None (λ _, EmptyString) (AR := MockRegistry.agent_registry));
    [|exact Hrun|reflexivity].
  apply map_Forall_empty.
Defined.
