(* ===== verification/Builder.v ===== *)
(** * Building a server

    [crates/openhttpa-server/src/builder.rs]: the builder's defaults and options, the
    choice of a TEE provider, and the router that [build] and [build_fabric] return, with
    its one route [/attest] behind the rate limit.

    A build is described by [Tee.Build]; what a chosen provider does is the parameter
    [instantiate].  The clocks and the entropy that a request draws are a [Draws]. *)

From S2P Require Import Prelude Crypto Aead Proto KeySchedule Attestation Session KeyExchange Handshake Tee Http Oblivious Sfv Headers.
From S2P Require Import Fabric Registry RateLimit Middleware Trailers Client Handlers HandshakeWire ClientCall Mesh.
From stdpp Require Import options.

#[local] Open Scope Z_scope.

(** ** The builder *)

Inductive ProviderChoice : Type :=
| GivenProvider (generate_quotes : TeeProvider)
| CompositeOf (kinds : list ProviderKind)
| ZkCompressedOf (kinds : list ProviderKind)
| MockFallback.

Record OpenHttpaServerBuilder : Type := mk_server_builder {
  sb_registry : AtbRegistry.t;
  sb_executor : option AtHsExecutor;
  sb_tee_provider : option ProviderChoice;
  sb_verifier : option QuoteVerifier;
  sb_atb_ttl : Z;
  sb_challenge_key : ChallengeKey.t;
  sb_identity_key : option Signer;
  sb_hpke_key : option bytes;
  sb_policy_engine : option (CipherSuite → AtHsResult → result string bool);
  sb_rate_limit : option RateLimitState;
  sb_fabric_config : option (string * list string * string * Topology);
}.

Definition new_server_builder : OpenHttpaServerBuilder :=
  mk_server_builder AtbRegistry.new None None None 3600 (ChallengeKey.new (replicate 32 (u8_of 0))) None None None None None.

(** The options, each setting one field. *)
Inductive ServerOption : Type :=
| WithRegistry (r : AtbRegistry.t)
| WithExecutor (x : AtHsExecutor)
| WithTeeProvider (p : TeeProvider)
| WithVerifier (v : QuoteVerifier)
| WithAtbTtl (ttl : Z)
| WithChallengeKey (key : bytes)
| WithIdentityKey (k : Signer)
| WithHpkeKey (k : bytes)
| WithRateLimit (l : RateLimitState)
| WithPolicyEngine (p : CipherSuite → AtHsResult → result string bool)
| WithFabric (name : string) (capabilities : list string) (endpoint : string) (topology : Topology).

Definition set_provider (b : OpenHttpaServerBuilder) (p : ProviderChoice) : OpenHttpaServerBuilder :=
  mk_server_builder (sb_registry b) (sb_executor b) (Some p) (sb_verifier b) (sb_atb_ttl b) (sb_challenge_key b) (sb_identity_key b)
    (sb_hpke_key b) (sb_policy_engine b) (sb_rate_limit b) (sb_fabric_config b).

Definition with_option (b : OpenHttpaServerBuilder) (o : ServerOption) : OpenHttpaServerBuilder :=
  let '(mk_server_builder r x p v ttl key idk hk pol rl fab) := b in
  match o with
  | WithRegistry r => mk_server_builder r x p v ttl key idk hk pol rl fab
  | WithExecutor x => mk_server_builder r (Some x) p v ttl key idk hk pol rl fab
  | WithTeeProvider p => set_provider b (GivenProvider p)
  | WithVerifier v => mk_server_builder r x p (Some v) ttl key idk hk pol rl fab
  | WithAtbTtl ttl => mk_server_builder r x p v ttl key idk hk pol rl fab
  | WithChallengeKey key => mk_server_builder r x p v ttl (ChallengeKey.new key) idk hk pol rl fab
  | WithIdentityKey k => mk_server_builder r x p v ttl key (Some k) hk pol rl fab
  | WithHpkeKey k => mk_server_builder r x p v ttl key idk (Some k) pol rl fab
  | WithRateLimit l => mk_server_builder r x p v ttl key idk hk pol (Some l) fab
  | WithPolicyEngine pol => mk_server_builder r x p v ttl key idk hk (Some pol) rl fab
  | WithFabric name caps endpoint topology => mk_server_builder r x p v ttl key idk hk pol rl (Some (name, caps, endpoint, topology))
  end.
Definition configure (os : list ServerOption) : OpenHttpaServerBuilder := foldl with_option new_server_builder os.

(** [with_auto_attestation]; without the feature [zaa] compression is not available. *)
Definition with_auto_attestation (bld : Build) (avail : ProviderKind → bool) (use_zk_compression : bool) (b : OpenHttpaServerBuilder)
    : outcome OpenHttpaServerBuilder :=
  r ← detect_all_providers bld avail (default_tee_config bld);
  match r with
  | Ok composite => Returns (set_provider b (if feature bld "zaa" && use_zk_compression then ZkCompressedOf composite else CompositeOf composite))
  | Err _ => if debug_build bld then _ ← MockTeeProvider.default bld; Returns (set_provider b MockFallback) else Panics
  end.

(** ** The router *)

Record Router : Type := mk_router {
  rt_aths : AtHsHandlerState;
  rt_preflight : PreflightHandlerState;
  rt_limit : option RateLimitState;
}.

Definition choose_server_provider (bld : Build) (b : OpenHttpaServerBuilder) : outcome ProviderChoice :=
  match sb_tee_provider b with
  | Some p => Returns p
  | None => if debug_build bld then _ ← MockTeeProvider.default bld; Returns MockFallback else Panics
  end.

Definition build (bld : Build) (instantiate : ProviderChoice → TeeProvider) (b : OpenHttpaServerBuilder) : outcome Router :=
  let x := default (new_executor [] []) (sb_executor b) in
  p ← choose_server_provider bld b;
  Returns (mk_router
    (mk_handler x (sb_registry b) (instantiate p) (sb_verifier b) (sb_policy_engine b) (sb_atb_ttl b) (sb_challenge_key b)
       (sb_identity_key b) (sb_hpke_key b))
    (mk_preflight_state [X25519MlKem768Aes256GcmSha384; X25519Aes256GcmSha384] [V2; V1] (sb_challenge_key b) false)
    (sb_rate_limit b)).

(** What one request draws: the origin of the monotonic clock and its time for the rate limit, the clock and the entropy of the
    preflight, those of the handshake. *)
Record Draws : Type := mk_draws {
  d_origin : Z;
  d_instant : Z;
  d_pre_now : option Z;
  d_pre_rand : option bytes;
  d_env : ServerEnv;
  d_fresh : AtbId;
  d_now : option Z;
}.

Section router.
Context {SP : SfvPrim} {HJ : HeaderJson} {UP : UuidPrim} {UR : UriParts}.
Context {AP : AeadPrim} {HaP : HashPrim} {HP : HkdfPrim} {MP : HmacPrim} {KP : KexPrim} {DF : DebugFmt} {SJ : HandshakeJson}.
Context (allow : option string).

(** The route [/attest]: [OPTIONS] is the preflight, every other method the handshake. *)
Definition route (d : Draws) (rt : Router) (req : TransportRequest) : result string TransportResponse * Router :=
  if decide (parts_path (treq_uri req) = "/attest"%string) then
    if decide (treq_method req = "OPTIONS"%string) then
      (deliver (preflight_handler (rt_preflight rt) (d_pre_now d) (d_pre_rand d)), rt)
    else
      let '(o, r) := aths_endpoint allow (d_env d) (d_fresh d) (d_now d) (rt_aths rt) (treq_headers req) in
      (deliver o, mk_router (set_registry (rt_aths rt) r) (rt_preflight rt) (rt_limit rt))
  else (Ok (mk_tresp 404 [] []), rt).

(** The rate limit is the outermost layer. *)
Definition serve (d : Draws) (peer : option IpAddr) (rt : Router) (req : TransportRequest) : result string TransportResponse * Router :=
  match rt_limit rt with
  | None => route d rt req
  | Some l =>
      let '(a, l) := RateLimit.call (d_origin d) l (d_instant d) peer in
      let rt := mk_router (rt_aths rt) (rt_preflight rt) (Some l) in
      match a with
      | Allowed => route d rt req
      | TooManyRequests => (Ok (mk_tresp 429 [] []), rt)
      end
  end.

End router.

(** ** The fabric

    [build_fabric]: the node of the mesh with the policy it admits peers by. *)
Definition permissive_engine : RegoQuery := λ query _,
  if decide (query = "data.openhttpa.mesh.allow"%string) then Ok [Some true] else Ok [].

Definition build_fabric (bld : Build) (instantiate : ProviderChoice → TeeProvider) (parse_uri : string → option string) (id : AtbId)
    (b : OpenHttpaServerBuilder) : outcome (Router * AgentNode * RegoQuery) :=
  match sb_fabric_config b, sb_tee_provider b, sb_verifier b with
  | Some (name, caps, endpoint, _), Some p, Some v =>
      match parse_uri endpoint with
      | None => Panics
      | Some _ =>
          router ← build bld instantiate b;
          Returns (router, new_node id name caps endpoint (instantiate p) v, permissive_engine)
      end
  | _, _, _ => Panics
  end.

(** ** Theorems *)

(** The provider of a release server is one that was configured: given, or found as
    hardware of the machine. *)
Lemma detect_all_release bld avail ks :
  debug_build bld = false → detect_all_providers bld avail (default_tee_config bld) = Returns (Ok ks) →
  ks ≠ [] ∧ ∀ k, k ∈ ks → k ≠ MockProvider ∧ avail k = true.
Proof.
  intros Hd. unfold detect_all_providers, default_tee_config. rewrite Hd. cbn [allow_mock andb].
  destruct (detected bld avail) as [|k ks'] eqn:Hk; [by destruct (feature bld "mock")|]. intros [= <-]. split; [done|].
  intros j Hj. rewrite <-Hk in Hj. by apply detected_hardware in Hj as (? & _ & ?).
Qed.

(** A release server never attests with the mock provider: automatic attestation and
    building panic rather than fall back to it, and what they accept is the provider that
    was given or the hardware that was found. *)
Theorem release_server_provider (bld : Build) (avail : ProviderKind → bool) (zk : bool) (instantiate : ProviderChoice → TeeProvider)
    (os : list ServerOption) (b : OpenHttpaServerBuilder) (rt : Router) :
  debug_build bld = false →
  b = configure os ∨ with_auto_attestation bld avail zk (configure os) = Returns b →
  build bld instantiate b = Returns rt →
  ∃ p, tee_provider (rt_aths rt) = instantiate p ∧
    ((∃ g, p = GivenProvider g ∧ WithTeeProvider g ∈ os) ∨
     ∃ ks, (p = CompositeOf ks ∨ p = ZkCompressedOf ks) ∧ ks ≠ [] ∧ ∀ k, k ∈ ks → k ≠ MockProvider ∧ avail k = true).
Proof.
  intros Hd Hb. unfold build, choose_server_provider. rewrite Hd.
  destruct (sb_tee_provider b) as [p|] eqn:Hp; [|done]. intros [= <-]. exists p. split; [done|]. destruct Hb as [->|Hb].
  - left. unfold configure in Hp. revert Hp.
    assert (∀ b0, sb_tee_provider (foldl with_option b0 os) = Some p →
      sb_tee_provider b0 = Some p ∨ ∃ g, p = GivenProvider g ∧ WithTeeProvider g ∈ os) as Hgen.
    { induction os as [|o os IH]; intros b0 H; [by left|]. cbn [foldl] in H.
      destruct (IH _ H) as [H0|(g & -> & Hin)]; [|right; exists g; split; [done|by right]].
      destruct b0, o; cbn in H0; try (by left). injection H0 as <-. right. eexists. split; [done|by left]. }
    intros [H|H]%Hgen; done.
  - right. unfold with_auto_attestation in Hb. destruct (detect_all_providers bld avail _) as [[ks|e]|] eqn:Hk; cbn in Hb; [| |done].
    + injection Hb as <-. cbn in Hp. injection Hp as <-. exists ks. split; [destruct (_ && _); auto|]. by eapply detect_all_release.
    + by rewrite Hd in Hb.
Qed.

(** The rate limit stands before everything: a refused request reaches neither handler. *)
Theorem limited_request {SP : SfvPrim} {HJ : HeaderJson} {UP : UuidPrim} {UR : UriParts} {AP : AeadPrim} {HaP : HashPrim} {HP : HkdfPrim}
    {MP : HmacPrim} {KP : KexPrim} {DF : DebugFmt} {SJ : HandshakeJson} allow d peer rt req l l' :
  rt_limit rt = Some l → RateLimit.call (d_origin d) l (d_instant d) peer = (TooManyRequests, l') →
  serve allow d peer rt req = (Ok (mk_tresp 429 [] []), mk_router (rt_aths rt) (rt_preflight rt) (Some l')).
Proof. intros Hl Hc. unfold serve. by rewrite Hl, Hc. Qed.

(** *** The built server and the loopback of the handshake *)

(** The loopback server with the state of a router. *)
Definition world_of (d : Draws) (rt : Router) : World :=
  mk_world (rt_preflight rt) (rt_aths rt) (d_pre_now d) (d_pre_rand d) (d_env d) (d_fresh d) (d_now d).

Create HintDb sim.
Section simulation.
Context {CT : ClientText} {CJ : ShareJson} {SP : SfvPrim} {HJ : HeaderJson} {UP : UuidPrim} {UR : UriParts}.
Context {AP : AeadPrim} {HaP : HashPrim} {HP : HkdfPrim} {MP : HmacPrim} {KP : KexPrim} {DF : DebugFmt} {SJ : HandshakeJson}.
Context (mldsa_verify : bytes → bytes → bytes → bool) (allow : option string).

Context {St1 St2 : Type} (f : St1 → St2) (P : St1 → Prop).

(** Where [P] holds, the second program does what the first does, and [P] holds again. *)
Definition lift {A} (r : outcome (result ClientError A) * St1) : outcome (result ClientError A) * St2 := (r.1, f r.2).
Definition sim {A} (m1 : prog St1 A) (m2 : prog St2 A) : Prop := ∀ w, P w → m2 (f w) = lift (m1 w) ∧ P (m1 w).2.

Lemma sim_of_result {A} (r : result ClientError A) : sim (of_result r) (of_result r).
Proof using. done. Qed.
Lemma sim_of_outcome {A} (o : outcome A) : sim (of_outcome o) (of_outcome o).
Proof using. done. Qed.
Lemma sim_of_call {A} (o : outcome (result ClientError A)) : sim (of_call o) (of_call o).
Proof using. done. Qed.
Lemma sim_ret {A} (a : A) : sim (mret a) (mret a).
Proof using. done. Qed.
Lemma sim_bind {A B} (m1 : prog St1 A) (m2 : prog St2 A) (k1 : A → prog St1 B) (k2 : A → prog St2 B) :
  sim m1 m2 → (∀ a, sim (k1 a) (k2 a)) → sim (m1 ≫= k1) (m2 ≫= k2).
Proof using.
  intros Hm Hk w Hw. destruct (Hm w Hw) as [Heq Hinv]. unfold mbind, prog_bind. rewrite Heq.
  destruct (m1 w) as [[[a|e]|] w']; cbn in *; [by apply Hk|done..].
Qed.
#[local] Hint Resolve sim_of_result sim_of_outcome sim_of_call sim_ret sim_bind : sim.

Context (send1 : St1 → TransportRequest → result string TransportResponse * St1).
Context (send2 : St2 → TransportRequest → result string TransportResponse * St2).
Context (c : OpenHttpaClient).
(** The two transports answer the client's two requests alike. *)
Context (Hsend : ∀ w method hs, P w → method = "OPTIONS"%string ∨ method = "ATTEST"%string →
  let req := mk_treq method (attest_uri (oc_server_uri c)) hs in
  send2 (f w) req = ((send1 w req).1, f (send1 w req).2) ∧ P (send1 w req).2).

Lemma sim_call_transport method wrap hs :
  method = "OPTIONS"%string ∨ method = "ATTEST"%string → sim (call_transport send1 c method wrap hs) (call_transport send2 c method wrap hs).
Proof using Hsend.
  intros Hm. unfold call_transport. apply sim_bind; [auto with sim|]. intros _. apply sim_bind; [auto with sim|]. intros _.
  apply sim_bind; [auto with sim|]. intros h w Hw. unfold transport_send. destruct (Hsend w method h Hw Hm) as [-> Hinv].
  by destruct (send1 w _).
Qed.
Lemma sim_attest_handshake e : sim (attest_handshake send1 mldsa_verify allow c e) (attest_handshake send2 mldsa_verify allow c e).
Proof using Hsend.
  unfold attest_handshake. apply sim_bind.
  - destruct (oc_require_preflight c); [|auto with sim]. apply sim_bind; [|auto with sim]. unfold perform_preflight.
    apply sim_bind; [apply sim_call_transport; by left|auto with sim].
  - intros ch. do 4 (apply sim_bind; [auto with sim|intros ?]). apply sim_bind; [apply sim_call_transport; by right|auto 10 with sim].
Qed.
End simulation.

(** A handshake with the server that the builder made is the handshake with the loopback
    server of the same handler state, draws and registry: the router adds nothing to it and
    hides nothing of it.  The preflight and the handshake share their challenge key. *)
Theorem built_server_handshake {CT : ClientText} {CJ : ShareJson} {SP : SfvPrim} {HJ : HeaderJson} {UP : UuidPrim} {UR : UriParts}
    {AP : AeadPrim} {HaP : HashPrim} {HP : HkdfPrim} {MP : HmacPrim} {KP : KexPrim} {DF : DebugFmt} {SJ : HandshakeJson}
    (mldsa_verify : bytes → bytes → bytes → bool) (allow : option string) (bld : Build) (instantiate : ProviderChoice → TeeProvider)
    (b : OpenHttpaServerBuilder) (rt : Router) (d : Draws) (peer : option IpAddr) (c : OpenHttpaClient) (e : ClientEnv) :
  build bld instantiate b = Returns rt → sb_rate_limit b = None → parts_path (attest_uri (oc_server_uri c)) = "/attest"%string →
  attest_handshake (loopback allow) mldsa_verify allow c e (world_of d rt) =
    lift (world_of d) (attest_handshake (serve allow d peer) mldsa_verify allow c e rt) ∧
  ps_challenge_key (w_preflight (world_of d rt)) = challenge_key (w_state (world_of d rt)).
Proof.
  intros Hb Hl Hp. unfold build in Hb. destruct (choose_server_provider bld b) as [p|]; [|done]. cbn in Hb. injection Hb as <-. split; [|done].
  apply (sim_attest_handshake mldsa_verify allow (world_of d) (λ rt, rt_limit rt = None)); [|done].
  intros rt method hs Hrt Hm. cbv zeta. unfold serve. rewrite Hrt. unfold route, loopback. cbn [treq_uri treq_method treq_headers].
  rewrite Hp, (decide_True (P := ("/attest" = "/attest")%string)) by done. destruct Hm as [-> | ->].
  - rewrite !decide_True by done. done.
  - rewrite !decide_False, decide_True by done. cbn [world_of w_env w_fresh w_now w_state].
    by destruct (aths_endpoint _ _ _ _ _ _) as [o r].
Qed.

(** Without [with_challenge_key] the challenge key is public: anyone makes challenges that
    the server takes for its own. *)
Theorem default_key_challenges {MP : HmacPrim} {ML : HmacLaws MP} (bld : Build) (instantiate : ProviderChoice → TeeProvider)
    (os : list ServerOption) (rt : Router) (h : AtHsRequestHeaders) (t0 t : Z) (rand ch : bytes) :
  (∀ key, WithChallengeKey key ∉ os) → build bld instantiate (configure os) = Returns rt →
  is_u64 t0 → length rand = 8%nat → t0 ≤ t ≤ t0 + 300 →
  issue_challenge (replicate 32 (u8_of 0)) (Some t0) (Some rand) = Ok ch → h_challenge h = Some ch →
  check_challenge (rt_aths rt) h (Some t) = Returns (Ok ch).
Proof.
  intros Hos Hb H0 Hr Ht Hi Hh. destruct (honest_challenge _ _ _ _ _ H0 Hr Ht Hi) as [Hl Hv].
  assert (challenge_key (rt_aths rt) = ChallengeKey.new (replicate 32 (u8_of 0))) as Hk.
  { unfold build in Hb. destruct (choose_server_provider bld _); [|done]. cbn in Hb. injection Hb as <-. cbn. unfold configure.
    assert (∀ b0, sb_challenge_key (foldl with_option b0 os) = sb_challenge_key b0) as ->; [|done].
    clear -Hos. induction os as [|o os IH]; intros b0; [done|]. cbn [foldl]. rewrite IH by (intros key Hin; by apply (Hos key); right).
    destruct b0, o; try done. exfalso. by eapply Hos, list_elem_of_here. }
  unfold check_challenge. rewrite Hh, decide_True by lia. rewrite Hk. cbn in *. by rewrite Hv.
Qed.

(** The node of [build_fabric] admits every peer whose session has an attestation result,
    whatever policy the builder was given. *)
Theorem fabric_admits_all {UP : UuidPrim} bld instantiate parse_uri id b rt n engine peer s timestamp :
  build_fabric bld instantiate parse_uri id b = Returns (rt, n, engine) → admit_peer engine n peer s timestamp = Ok ().
Proof.
  unfold build_fabric. destruct (sb_fabric_config b) as [[[[name caps] endpoint] top]|]; [|done].
  destruct (sb_tee_provider b); [|done]. destruct (sb_verifier b); [|done]. destruct (parse_uri endpoint); [|done].
  destruct (build _ _ _); [|done]. intros [= _ _ <-]. unfold admit_peer. by destruct (attestation_result s).
Qed.

(** ** A server *)

Module ToyBuilder.
#[global] Instance parts : UriParts := {|
  parts_path _ := "/attest"%string; parts_query _ := None; parts_scheme _ := None; parts_authority _ := None; method_valid _ := true |}.
Definition options : list ServerOption :=
  [WithTeeProvider ToyWire.generate_quotes; WithVerifier Demo.verify; WithExecutor Demo.executor; WithChallengeKey (as_bytes "k")].
Definition instantiate (p : ProviderChoice) : TeeProvider := match p with GivenProvider g => g | _ => λ _, Err "unavailable"%string end.
Definition router : Router :=
  mk_router (mk_handler Demo.executor AtbRegistry.new ToyWire.generate_quotes (Some Demo.verify) None 3600 (as_bytes "k") None None)
    (mk_preflight_state [X25519MlKem768Aes256GcmSha384; X25519Aes256GcmSha384] [V2; V1] (as_bytes "k") false) None.
Definition draws : Draws := mk_draws 0 0 (Some 1000) (Some (as_bytes "randomly")) Demo.env (replicate 16 (u8_of 1)) (Some 1010).
End ToyBuilder.

Lemma release_server_provider_witness : ∃ p, ToyWire.generate_quotes = ToyBuilder.instantiate p.
Proof.
  destruct (release_server_provider DemoTee.release (λ _, false) false ToyBuilder.instantiate ToyBuilder.options
    (configure ToyBuilder.options) ToyBuilder.router eq_refl (or_introl eq_refl) eq_refl) as (p & Hp & _).
  exists p. exact Hp.
Defined.

Lemma built_server_handshake_witness :
  ToyWire.finished (attest_handshake (CT := ToyWire.text) (SJ := ToyWire.client_json) (SP := ToySfv.prim) (HJ := ToyHeaders.json) (UP := ToyHeaders.uuid)
    (HaP := Toy.hash) (HP := Toy.hkdf) (KP := ToyKex.prim)
    (loopback (SP := ToySfv.prim) (HJ := ToyHeaders.json) (UP := ToyHeaders.uuid) (AP := Toy.aead) (HaP := Toy.hash) (HP := Toy.hkdf)
        (MP := Toy.hmac) (KP := ToyKex.prim) (DF := Demo.debug) (SJ := ToyWire.server_json) None)
    (λ _ _ _, true) None (ToyWire.client true) ToyWire.client_env (world_of ToyBuilder.draws ToyBuilder.router)) = true.
Proof.
  destruct (built_server_handshake (CT := ToyWire.text) (CJ := ToyWire.client_json) (SP := ToySfv.prim) (HJ := ToyHeaders.json)
    (UP := ToyHeaders.uuid) (UR := ToyBuilder.parts) (AP := Toy.aead) (HaP := Toy.hash) (HP := Toy.hkdf) (MP := Toy.hmac) (KP := ToyKex.prim)
    (DF := Demo.debug) (SJ := ToyWire.server_json) (λ _ _ _, true) None DemoTee.release ToyBuilder.instantiate (configure ToyBuilder.options)
    ToyBuilder.router ToyBuilder.draws None (ToyWire.client true) ToyWire.client_env eq_refl eq_refl eq_refl) as [H _].
  apply (f_equal ToyWire.finished) in H. refine (eq_trans H _). clear H.
  vm_compute. reflexivity.
Defined.
