(* ===== verification/Services.v ===== *)
(** * The smaller services

    - the gRPC form of the handshake ([crates/openhttpa-grpc/src/service.rs]);
    - the provider that attaches a SPIFFE identity to quotes
      ([crates/openhttpa-spiffe/src/lib.rs]);
    - the encrypted log events ([crates/openhttpa-telemetry/src/lib.rs]);
    - the resolver of identities on a chain ([crates/openhttpa-identity-chain/src/lib.rs]). *)

From S2P Require Import Prelude Crypto Aead Proto KeySchedule Attestation Session KeyExchange Handshake Tee Http Oblivious Sfv Headers.
From S2P Require Import Registry Middleware Handlers HandshakeWire.
From stdpp Require Import options.

#[local] Open Scope Z_scope.

(** ** gRPC *)

Inductive Status : Type := InvalidArgument (m : string) | StatusInternal (m : string) | Unimplemented (m : string).

Record GrpcAtHsRequest : Type := mk_grpc_request {
  g_key_share : bytes;
  g_random : bytes;
  g_cipher_suites : list string;
  g_versions : list string;
  g_challenge : bytes;
}.
Record GrpcAtHsResponse : Type := mk_grpc_response {
  gr_cipher_suite : string;
  gr_random : bytes;
  gr_key_share : bytes;
  gr_base_id : string;
  gr_version : string;
  gr_expires_secs : Z;
  gr_quotes : list AttestQuote;
}.

Section grpc.
Context {HaP : HashPrim} {HP : HkdfPrim} {KP : KexPrim} {DF : DebugFmt} {SJ : HandshakeJson} {UP : UuidPrim}.
Context (allow : option string).

(** A random shorter than 32 bytes becomes zeros. *)
Definition grpc_client_random (random : bytes) : bytes :=
  if decide (32 ≤ length random)%nat then take 32 random else replicate 32 (u8_of 0).

(** The request that the executor gets. *)
Definition grpc_request (req : GrpcAtHsRequest) (share : KeyShare) : AtHsRequest :=
  Handshake.mk_request (omap (suite_from_str allow) (g_cipher_suites req)) (omap version_from_str (g_versions req))
    (grpc_client_random (g_random req)) (take 48 (g_challenge req)) share [] 3600.

(** The response, with the result that the service holds at that point and drops. *)
Definition grpc_run (x : AtHsExecutor) (env : ServerEnv) (req : GrpcAtHsRequest) : outcome (result Status (GrpcAtHsResponse * AtHsResult)) :=
  match parse_client_share (g_key_share req) with
  | None => Returns (Err (InvalidArgument "invalid key_share"))
  | Some share =>
      if decide (length (g_challenge req) = 48%nat) then
        r ← execute_server x env (grpc_request req share) None None None;
        Returns (
          '(suite, ver, server_share, res) ← map_err (λ e, StatusInternal (to_string e)) r;
          json ← ok_or (encode_server_share server_share) (StatusInternal "serialise server share");
          Ok (mk_grpc_response (to_string suite) (replicate 32 (u8_of 0)) json (uuid_to_string (atb_id res)) (to_string ver) 3600 [], res))
      else Returns (Err (InvalidArgument "challenge must be exactly 48 bytes"))
  end.
Definition grpc_attest_handshake (x : AtHsExecutor) (env : ServerEnv) (req : GrpcAtHsRequest) : outcome (result Status GrpcAtHsResponse) :=
  r ← grpc_run x env req; Returns ('(resp, _) ← r; Ok resp).

Definition trusted_call (base_id : string) (ciphertext nonce : bytes) (termination : string) : result Status (bytes * bytes) :=
  Err (Unimplemented "trusted_call — not yet implemented").

Lemma grpc_run_Ok x env req resp res :
  grpc_run x env req = Returns (Ok (resp, res)) →
  ∃ share suite ver sshare,
    parse_client_share (g_key_share req) = Some share ∧ length (g_challenge req) = 48%nat ∧
    execute_server x env (grpc_request req share) None None None = Returns (Ok (suite, ver, sshare, res)) ∧
    encode_server_share sshare = Some (gr_key_share resp) ∧
    resp = mk_grpc_response (to_string suite) (replicate 32 (u8_of 0)) (gr_key_share resp) (uuid_to_string (atb_id res)) (to_string ver) 3600 [].
Proof using.
  unfold grpc_run. destruct (parse_client_share _) as [share|] eqn:Hs; [|done]. case_decide as Hl; [|done].
  destruct (execute_server _ _ _ _ _ _) as [[[[[suite ver] sshare] res']|e]|] eqn:Hx; [|done..]. cbn [mbind outcome_bind map_err result_bind].
  destruct (encode_server_share sshare) as [json|] eqn:Hj; [|done]. cbn [ok_or mbind result_bind]. intros [= <- <-].
  by exists share, suite, ver, sshare.
Qed.
End grpc.

(** What a gRPC handshake guarantees and what it does not: it succeeds only for a server
    that neither insists on its own evidence nor requires the client's, its answer carries no
    evidence and no signature, the suite and the version are ones both sides named; and the
    random it answers with is the one in the transcript only if the server drew zeros, so
    that a client that computes the transcript from the answer does not get the server's. *)
Theorem grpc_handshake {HaP : HashPrim} {HP : HkdfPrim} {KP : KexPrim} {DF : DebugFmt} {SJ : HandshakeJson} {UP : UuidPrim}
    (allow : option string) (x : AtHsExecutor) (env : ServerEnv) (req : GrpcAtHsRequest)
    (resp : GrpcAtHsResponse) (res : AtHsResult) :
  grpc_run allow x env req = Returns (Ok (resp, res)) →
  strict_attestation x = false ∧ required_client_quote_types x = [] ∧ gr_quotes resp = [] ∧ server_signatures res = [] ∧
  client_attestation_result res = None ∧
  gr_cipher_suite resp ∈ g_cipher_suites req ∧ gr_version resp ∈ g_versions req ∧
  (gr_random resp = server_random res ↔ server_random res = replicate 32 (u8_of 0)).
Proof.
  intros (share & suite & ver & sshare & Hs & Hl & Hx & Hj & ->)%grpc_run_Ok.
  apply execute_server_Ok in Hx as (kem & ss & Hsu & Hve & _ & _ & _ & _ & Hq & _ & Hg & Hsig & _).
  cbn [gr_quotes gr_cipher_suite gr_version gr_random]. split_and!.
  - unfold gather_server_quotes in Hg. by destruct (strict_attestation x).
  - unfold verify_client_quotes in Hq. cbn [grpc_request client_quotes] in Hq. inv_ok.
    destruct (required_client_quote_types x) eqn:Hr; [done|]. unfold check_required_client_quote_types in *. by rewrite Hr in *.
  - done.
  - by injection Hsig.
  - unfold verify_client_quotes in Hq. cbn [grpc_request client_quotes] in Hq. inv_ok. by simplify_eq.
  - unfold negotiate_suite in Hsu. destruct (head _) as [s|] eqn:Hh; [|done]. injection Hsu as <-.
    apply head_filter_Some in Hh as (_ & _ & _ & _ & Hin). cbn in Hin. apply list_elem_of_omap in Hin as (str & Hin & Hstr).
    by apply suite_from_str_sound in Hstr as ->.
  - unfold negotiate_version in Hve. destruct (head _) as [v|] eqn:Hh; [|done]. injection Hve as <-.
    apply head_filter_Some in Hh as (l1 & l2 & Heq & _ & _). cbn in Heq.
    assert (v ∈ omap version_from_str (g_versions req)) as Hin by (rewrite Heq; set_solver).
    apply list_elem_of_omap in Hin as (str & Hin & Hstr). unfold version_from_str in Hstr. repeat case_decide; simplify_eq; done.
  - split; by intros <-.
Qed.

(** ** SPIFFE *)

Section spiffe.
Context {XP : HexPrim}.

(** [spire]: the certificate chain of the identity that the agent returns. *)
Definition spiffe_generate_quote (inner : bytes → result TeeProviderError AttestQuote) (fetch_svid : result string (list bytes)) (rd : bytes)
    : result TeeProviderError AttestQuote :=
  q ← inner rd;
  Ok (match fetch_svid with
      | Ok chain =>
          mk_quote (quote_type q) (format q) (quote_raw q) (qudd q)
            (collateral_uris q ++ [("spiffe:svid:" +:+ hex_encode (default [] (head chain)))%string])
      | Err _ => q
      end).
(** The other operations of the trait: [generate_quotes] as it is provided, sealing and key
    derivation refused. *)
Definition spiffe_ops (inner : TeeOps) (fetch_svid : result string (list bytes)) : TeeOps :=
  provider (op_quote_type inner) (spiffe_generate_quote (op_generate_quote inner) fetch_svid) (op_is_available inner).

(** The quote itself is the inner provider's; the identity is an addition that nothing
    binds to it, and its absence is not an error. *)
Theorem spiffe_quote inner fetch_svid rd q :
  op_generate_quote (spiffe_ops inner fetch_svid) rd = Ok q →
  ∃ q0, op_generate_quote inner rd = Ok q0 ∧ quote_type q = quote_type q0 ∧ quote_raw q = quote_raw q0 ∧ qudd q = qudd q0 ∧
    collateral_uris q0 `prefix_of` collateral_uris q.
Proof using.
  cbn. unfold spiffe_generate_quote. intros H. inv_ok. eexists. split; [done|]. destruct fetch_svid; simplify_eq; cbn; split_and!; try done.
  by apply prefix_app_r.
Qed.
End spiffe.

(** ** Telemetry

    HPKE in base mode: [setup] gives the encapsulated key and the sender's key for the
    message, from fresh randomness. *)
Class HpkeBase : Type := {
  hpke_public : bytes → bytes;
  hpke_setup_sender : (*public*) bytes → (*info*) bytes → (*rand*) bytes → option (bytes * bytes);
  hpke_setup_receiver : (*private*) bytes → (*encapsulated*) bytes → (*info*) bytes → option bytes;
  hpke_seal_detached : (*context*) bytes → (*aad*) bytes → bytes → option (bytes * bytes);
  hpke_open_detached : (*context*) bytes → (*aad*) bytes → (*tag*) bytes → bytes → option bytes;
}.
Class HpkeBaseLaws (H : HpkeBase) : Prop := {
  hpke_setup_agree sk info rand enc ctx : hpke_setup_sender (hpke_public sk) info rand = Some (enc, ctx) → hpke_setup_receiver sk enc info = Some ctx;
  hpke_detached_round_trip ctx aad pt ct tag : hpke_seal_detached ctx aad pt = Some (ct, tag) → length tag = 16%nat ∧ hpke_open_detached ctx aad tag ct = Some pt;
}.

Section telemetry.
Context {HB : HpkeBase} {XP : HexPrim}.

Definition telemetry_info : bytes := as_bytes "openhttpa-telemetry".
(** [StringVisitor]: every field, in the debug rendering. *)
Definition render_fields (fields : list (string * string)) : string :=
  foldl (λ acc f, (acc +:+ f.1 +:+ "=" +:+ f.2 +:+ " ")%string) EmptyString fields.
Definition telemetry_payload (level : string) (fields : list (string * string)) : string :=
  ("level=" +:+ level +:+ " fields=" +:+ render_fields fields)%string.

Record EncryptedTelemetryPayload : Type := mk_telemetry { encap_key : string; tel_ciphertext : string }.
Definition on_event (public_key rand : bytes) (level : string) (fields : list (string * string)) : outcome EncryptedTelemetryPayload :=
  '(encap, ctx) ← match hpke_setup_sender public_key telemetry_info rand with Some r => Returns r | None => Panics end;
  '(ct, tag) ← match hpke_seal_detached ctx [] (as_bytes (telemetry_payload level fields)) with Some r => Returns r | None => Panics end;
  Returns (mk_telemetry (hex_encode encap) (hex_encode (ct ++ tag))).

(** The sink's side, as the crate's test decrypts an event. *)
Definition read_event (private_key : bytes) (p : EncryptedTelemetryPayload) : option bytes :=
  encap ← hex_decode (encap_key p); ct ← hex_decode (tel_ciphertext p);
  ctx ← hpke_setup_receiver private_key encap telemetry_info;
  let n := (length ct - 16)%nat in hpke_open_detached ctx [] (drop n ct) (take n ct).

(** What the layer prints, the holder of the key reads back. *)
Theorem telemetry_round_trip {HL : HpkeBaseLaws HB} {XL : HexLaws XP} sk rand level fields p :
  on_event (hpke_public sk) rand level fields = Returns p → read_event sk p = Some (as_bytes (telemetry_payload level fields)).
Proof using.
  unfold on_event. destruct (hpke_setup_sender _ _ _) as [[enc ctx]|] eqn:Hs; [|done]. cbn [mbind outcome_bind].
  destruct (hpke_seal_detached _ _ _) as [[ct tag]|] eqn:Hc; [|done]. cbn [mbind outcome_bind]. intros [= <-].
  apply hpke_detached_round_trip in Hc as [Ht Ho]. unfold read_event. cbn [encap_key tel_ciphertext]. rewrite !hex_decode_encode. cbn [mbind option_bind].
  rewrite (hpke_setup_agree _ _ _ _ _ Hs). cbn [mbind option_bind]. rewrite length_app, Ht, Nat.add_sub.
  by rewrite drop_app_length, take_app_length.
Qed.
End telemetry.

(** ** Identities on a chain *)

Inductive IdentityResolverError : Type :=
| InvalidUrl (m : string) | NotImplemented (did : string) | RpcError (m : string) | InvalidMrenclave (did reason : string).
Definition new_resolver {Url : Type} (parse : string → result string Url) (rpc_url : string) : result IdentityResolverError Url :=
  map_err InvalidUrl (parse rpc_url).
(** Refuses every identity: the call to the contract is not written. *)
Definition resolve_did {Url : Type} (rpc_url : Url) (did : string) : result IdentityResolverError string := Err (NotImplemented did).
