(* ===== verification/A2a.v ===== *)
(** * Agent to agent

    [crates/openhttpa-a2a/src]: the messages ([types.rs]), the agents' own handshake
    ([handshake.rs]), the agent that talks through an attested client ([agent.rs]) and the
    router that keeps sessions by target ([router.rs]).

    The client's calls are those of [HandshakeWire] and [ClientCall]; a router hands out
    clones of the sessions that it keeps, and sends nothing through them itself. *)

From S2P Require Import Prelude Crypto Aead Proto KeySchedule Attestation Session KeyExchange Handshake Http Oblivious Sfv Headers.
From S2P Require Import Registry Middleware Trailers Client Handlers HandshakeWire ClientCall.
From stdpp Require Import options.

#[local] Open Scope Z_scope.

(** ** Messages *)

Record A2AMessage (P : Type) : Type := mk_a2a_message {
  sender_id : string; receiver_id : string; message_type : string; payload : P; a2a_timestamp : Z;
}.
Arguments mk_a2a_message {P}.

Inductive PublicKeyAlgorithm : Type := EcdsaP256 | EcdsaP384 | MlDsa65Key | MlDsa87Key | HybridMlKem768X25519 | UnknownKey.
Record PublicKey : Type := mk_public_key { pk_algorithm : PublicKeyAlgorithm; pk_bytes : bytes }.
Record AgentIdentity : Type := mk_identity { identity_agent : string; public_key : PublicKey; attestation_quote : bytes }.
Record A2AHandshakeRequest : Type := mk_a2a_request { client_identity : AgentIdentity; a2a_client_random : bytes }.
Record A2AHandshakeResponse : Type := mk_a2a_response {
  server_identity : AgentIdentity; a2a_server_random : bytes; encrypted_handshake_key : bytes;
}.

(** The random has 32 bytes, so there is a first one. *)
Definition has_valid_entropy (req : A2AHandshakeRequest) : bool :=
  negb (forallb (λ b, bool_decide (Some b = head (a2a_client_random req))) (a2a_client_random req)).

(** ** The handshake *)

(** The place of a random: each index, masked. *)
Definition stub_random (mask : Z) : bytes := (λ i, u8_of (Z.lxor (Z.of_nat i) mask)) <$> seq 0 32.

Section handshake.
Context {KP : KexPrim} {CJ : ShareJson} {SJ : HandshakeJson}.

Definition execute_client_handshake (ecdhe mlkem : option bytes) (agent_id : string) (quote : bytes)
    : result string (A2AHandshakeRequest * HybridKemPair.t) :=
  kem ← map_err (λ _, "Key generation failed"%string) (HybridKemPair.generate ecdhe mlkem);
  pub_bytes ← ok_or (encode_client_share (HybridKemPair.public_key_share kem)) "Failed to serialize key share"%string;
  Ok (mk_a2a_request (mk_identity agent_id (mk_public_key HybridMlKem768X25519 pub_bytes) quote) (stub_random 0x42), kem).

Definition execute_server_handshake (ecdhe mlkem : option bytes) (rand : bytes) (agent_id : string) (quote : bytes) (req : A2AHandshakeRequest)
    : outcome (result string (A2AHandshakeResponse * bytes)) :=
  match
    client_share ← ok_or (parse_client_share (pk_bytes (public_key (client_identity req)))) "Failed to parse client key share"%string;
    _ ← (if has_valid_entropy req then Ok () else Err "client_random has insufficient entropy (all bytes identical)"%string);
    kem ← map_err (λ _, "Server key generation failed"%string) (HybridKemPair.generate ecdhe mlkem);
    pub_bytes ← ok_or (encode_client_share (HybridKemPair.public_key_share kem)) "Failed to serialize server key share"%string;
    Ok (client_share, kem, pub_bytes)
  with
  | Err e => Returns (Err e)
  | Ok (client_share, kem, pub_bytes) =>
      combined ← HybridKemPair.server_combine kem rand client_share;
      Returns (
        '(secret, ct) ← map_err (λ _, "Server combine failed"%string) combined;
        Ok (mk_a2a_response (mk_identity agent_id (mk_public_key HybridMlKem768X25519 pub_bytes) quote) (stub_random 0x24) ct, secret))
  end.

End handshake.

(** ** The agent *)

Record A2AAgent : Type := mk_a2a_agent { a2a_agent_id : string; a2a_client : OpenHttpaClient; a2a_max_response : Z }.

(** What one exchange draws: the handshake's randomness and three readings of the clock. *)
Record CallEnv : Type := mk_call_env { call_client_env : ClientEnv; call_t0 : Z; call_t1 : Z; call_t2 : Z }.

(** [serde_json]: the handshake's body, which cannot fail, and a message. *)
Class A2AJson (P : Type) : Type := { a2a_hello : string → bytes; a2a_message_to_vec : A2AMessage P → option bytes }.

(** The sessions of a router, by target. *)
Abbreviation router_sessions := (gmap string SessionInner).

Section agent.
Context {St : Type} (send : wire St).
Context {CT : ClientText} {SJ : ShareJson} {SP : SfvPrim} {HJ : HeaderJson} {UP : UuidPrim} {UR : UriParts} {CJ : CiphertextJson}.
Context {AP : AeadPrim} {HaP : HashPrim} {HP : HkdfPrim} {MP : HmacPrim} {KP : KexPrim} {XP : HexPrim} {BP : Base64Prim}.
Context (mldsa_verify : bytes → bytes → bytes → bool) (allow : option string) (show : ClientError → string).
Context {P : Type} {AJ : A2AJson P}.

Definition handshake (a : A2AAgent) (e : CallEnv) (w : St) : outcome (result ClientError SessionInner) * St :=
  attest_handshake (handshake_send send) mldsa_verify allow (a2a_client a) (call_client_env e) w.

(** A new session and one request in it. *)
Definition handshake_and_post (a : A2AAgent) (e : CallEnv) (body : bytes) (w : St) : outcome (result string ()) * St :=
  match handshake a e w with
  | (Panics, w) => (Panics, w)
  | (Returns (Err err), w) => (Returns (Err (show err)), w)
  | (Returns (Ok s), w) =>
      let '(r, _, w) := trusted_request_ext send (a2a_client a) (a2a_max_response a) (call_t0 e) (call_t1 e) (call_t2 e) s
        "POST" "/api/a2a" body None w in
      (Returns (_ ← map_err show r; Ok ()), w)
  end.

Definition connect_to_agent (a : A2AAgent) (e : CallEnv) (target_url : string) (w : St) : outcome (result string ()) * St :=
  handshake_and_post a e (a2a_hello (a2a_agent_id a)) w.

Definition send_message (json_error : string) (a : A2AAgent) (e : CallEnv) (target_url : string) (msg : A2AMessage P) (w : St)
    : outcome (result string ()) * St :=
  match a2a_message_to_vec msg with
  | None => (Returns (Err json_error), w)
  | Some body => handshake_and_post a e body w
  end.

(** ** The router *)

Definition get_or_connect (a : A2AAgent) (e1 e2 : CallEnv) (now : Z) (target_url : string) (sessions : router_sessions) (w : St)
    : outcome (result string SessionInner) * router_sessions * St :=
  match (match sessions !! target_url with Some s => if AttestSession.is_alive now s then Some s else None | None => None end) with
  | Some s => (Returns (Ok s), sessions, w)
  | None =>
      match connect_to_agent a e1 target_url w with
      | (Panics, w) => (Panics, sessions, w)
      | (Returns (Err m), w) => (Returns (Err m), sessions, w)
      | (Returns (Ok _), w) =>
          match handshake a e2 w with
          | (Panics, w) => (Panics, sessions, w)
          | (Returns (Err err), w) => (Returns (Err ("Failed to get session: " +:+ show err)), sessions, w)
          | (Returns (Ok s), w) => (Returns (Ok s), <[target_url := s]> sessions, w)
          end
      end
  end.

(** The messages of a broadcast, one after the other; one that panics ends it. *)
Fixpoint send_all (json_error : string) (a : A2AAgent) (targets : list (string * CallEnv)) (msg : A2AMessage P) (w : St)
    : outcome (list (result string ())) * St :=
  match targets with
  | [] => (Returns [], w)
  | (t, e) :: targets =>
      match send_message json_error a e t msg w with
      | (Panics, w) => (Panics, w)
      | (Returns r, w) => let '(rs, w) := send_all json_error a targets msg w in (cons r <$> rs, w)
      end
  end.
(** The keys come in the order of the map. *)
Definition broadcast (json_error : string) (a : A2AAgent) (envs : list CallEnv) (sessions : router_sessions) (msg : A2AMessage P) (w : St)
    : outcome (list (result string ())) * St :=
  send_all json_error a (zip (map_to_list sessions).*1 envs) msg w.

End agent.

(** ** Theorems *)

(** The check finds exactly the randoms with one repeated byte. *)
Theorem entropy_iff (req : A2AHandshakeRequest) :
  has_valid_entropy req = false ↔ ∃ b, a2a_client_random req = replicate (length (a2a_client_random req)) b.
Proof.
  unfold has_valid_entropy. rewrite negb_false_iff, forallb_forall. destruct (a2a_client_random req) as [|b l].
  { split; [by exists Ascii.zero|done]. }
  cbn [head]. split.
  - intros Hall. exists b. symmetry. apply replicate_as_elem_of. split; [done|]. intros x Hx%list_elem_of_In.
    specialize (Hall x Hx). rewrite bool_decide_eq_true in Hall. congruence.
  - intros [b' Heq] x Hx%list_elem_of_In. symmetry in Heq. apply replicate_as_elem_of in Heq as [_ Hall]. rewrite bool_decide_eq_true. f_equal.
    rewrite (Hall x Hx). symmetry. apply Hall. left.
Qed.

(** Two agents agree: a server that answers a client's request holds the secret that the
    client computes from the response, of 32 bytes. *)
Theorem a2a_agreement {KP : KexPrim} {KL : KexLaws KP} {CJ : ShareJson} {SJ : HandshakeJson} {JL : ShareJsonLaws SJ CJ}
    e1 m1 e2 m2 rand client server cq sq req kem resp secret :
  execute_client_handshake e1 m1 client cq = Ok (req, kem) →
  execute_server_handshake e2 m2 rand server sq req = Returns (Ok (resp, secret)) →
  ∃ share, parse_client_share (pk_bytes (public_key (server_identity resp))) = Some share ∧
    HybridKemPair.client_combine kem share (encrypted_handshake_key resp) = Returns (Ok secret) ∧ length secret = 32%nat.
Proof.
  unfold execute_client_handshake, execute_server_handshake. intros Hc Hs. inv_ok.
  match type of Hs with (match ?m with Ok _ => _ | Err _ => _ end) = _ => destruct m as [[[cs ks] pub]|] eqn:Hm; [|done] end.
  inv_ok. cbn [client_identity public_key pk_bytes] in *.
  match goal with H1 : encode_client_share _ = Some ?b, H2 : parse_client_share ?b = Some _ |- _ =>
    rewrite (parse_client_encode _ _ H1) in H2; injection H2 as <- end.
  destruct (HybridKemPair.server_combine _ _ _) as [[[sec ct]|]|] eqn:Hcomb; [|done..]. cbn in Hs. injection Hs as <- <-.
  cbn [server_identity public_key pk_bytes encrypted_handshake_key].
  eexists. split; [by apply parse_client_encode|]. split; [by eapply HybridKemPair.agreement|by eapply HybridKemPair.server_secret_length].
Qed.

(** A target names a session but not its peer: every message and every handshake of an
    agent goes to the server of its client, whatever the target. *)
Theorem target_ignored {St} (send : wire St) {CT : ClientText} {SJ : ShareJson} {SP : SfvPrim} {HJ : HeaderJson} {UP : UuidPrim}
    {UR : UriParts} {CJ : CiphertextJson} {AP : AeadPrim} {HaP : HashPrim} {HP : HkdfPrim} {MP : HmacPrim} {KP : KexPrim} {XP : HexPrim}
    {BP : Base64Prim} mldsa_verify allow show {P} {AJ : A2AJson P} json_error a e1 e2 now u1 u2 (sessions : router_sessions)
    (msg : A2AMessage P) (w : St) :
  send_message send mldsa_verify allow show json_error a e1 u1 msg w = send_message send mldsa_verify allow show json_error a e1 u2 msg w ∧
  (sessions !! u1 = None → sessions !! u2 = None →
   let '(o1, m1, w1) := get_or_connect send mldsa_verify allow show a e1 e2 now u1 sessions w in
   let '(o2, m2, w2) := get_or_connect send mldsa_verify allow show a e1 e2 now u2 sessions w in
   o1 = o2 ∧ w1 = w2 ∧ m1 !! u1 = m2 !! u2).
Proof.
  split; [done|]. intros H1 H2. unfold get_or_connect. rewrite H1, H2. unfold connect_to_agent.
  destruct (handshake_and_post _ _ _ _ _ _ _ _) as [[[[]|]|] w1]; [|by rewrite H1, H2..].
  destruct (handshake _ _ _ _ _ _) as [[[s|]|] w2]; [|by rewrite H1, H2..]. by rewrite !lookup_insert_eq.
Qed.

(** What a router returns is what it then keeps for the target. *)
Theorem router_keeps {St} (send : wire St) {CT : ClientText} {SJ : ShareJson} {SP : SfvPrim} {HJ : HeaderJson} {UP : UuidPrim}
    {UR : UriParts} {CJ : CiphertextJson} {AP : AeadPrim} {HaP : HashPrim} {HP : HkdfPrim} {MP : HmacPrim} {KP : KexPrim} {XP : HexPrim}
    {BP : Base64Prim} mldsa_verify allow show {P} {AJ : A2AJson P} a e1 e2 now url (sessions sessions' : router_sessions) (w w' : St) o :
  get_or_connect send mldsa_verify allow show a e1 e2 now url sessions w = (o, sessions', w') →
  (∀ s, o = Returns (Ok s) → sessions' !! url = Some s) ∧ (∀ u, u ≠ url → sessions' !! u = sessions !! u) ∧
  (∀ m, o = Returns (Err m) → sessions' = sessions).
Proof.
  unfold get_or_connect. intros H. destruct (sessions !! url) as [s|] eqn:Hs.
  1: destruct (AttestSession.is_alive now s); [by simplify_eq; split_and!; intros; simplify_eq|].
  all: destruct (connect_to_agent _ _ _ _ _ _ _ _) as [[[[]|]|] w1]; [|by simplify_eq; split_and!; intros; simplify_eq..];
    destruct (handshake _ _ _ _ _ _) as [[[s1|]|] w2]; [|by simplify_eq; split_and!; intros; simplify_eq..];
    injection H as <- <- <-; (split_and!; [intros ? [= <-]; apply lookup_insert_eq|intros u Hu; by rewrite lookup_insert_ne|done]).
Qed.

(** Both randoms are constants, which the entropy check accepts: the handshakes of
    any two agents show the same ones. *)
Theorem a2a_random_constant {KP : KexPrim} {CJ : ShareJson} {SJ : HandshakeJson} e1 m1 client cq req kem :
  execute_client_handshake e1 m1 client cq = Ok (req, kem) →
  a2a_client_random req = stub_random 0x42 ∧ has_valid_entropy req = true ∧
  ∀ e2 m2 rand server sq resp secret,
    execute_server_handshake e2 m2 rand server sq req = Returns (Ok (resp, secret)) → a2a_server_random resp = stub_random 0x24.
Proof.
  unfold execute_client_handshake. intros Hc. inv_ok.
  split_and!; [done|by vm_compute|]. intros e2 m2 rand server sq resp secret. unfold execute_server_handshake.
  destruct (_ ≫= _) as [[[cs ks] pub]|]; [|done]. destruct (HybridKemPair.server_combine _ _ _) as [[[sec ct]|]|]; [|done..].
  cbn. by intros [= <- <-].
Qed.
