(* ===== verification/Mcp.v ===== *)
(** * Tools over the model context protocol

    [crates/openhttpa-mcp/src]: the JSON-RPC messages ([types.rs]), the server with its
    table of tools ([server.rs]) and the client that calls it in an attested session
    ([client.rs]).

    JSON values are those of [serde_json]; the text of messages is a class.  A tool may
    keep state: a call takes the state that the tools share and returns it. *)

From S2P Require Import Prelude Codec Crypto Aead Proto KeySchedule Attestation Session KeyExchange Handshake Tee Http Oblivious Sfv Headers.
From S2P Require Import Registry Middleware Trailers Client Handlers HandshakeWire ClientCall A2a.
From stdpp Require Import options.

#[local] Open Scope Z_scope.
#[local] Set Warnings "-register-all".

(** ** JSON values *)

Inductive Value : Type :=
| Null
| VBool (b : bool)
| Number (text : string)
| VString (s : string)
| VArray (l : list Value)
| VObject (members : list (string * Value)).

(** The members of an object are listed in the order of their keys, each key once. *)
Fixpoint wf_value (v : Value) : bool :=
  match v with
  | VArray l => forallb wf_value l
  | VObject ms =>
      forallb (λ m, wf_value m.2) ms &&
      (fix sorted (ks : list string) : bool :=
         match ks with k :: (k' :: _) as rest => String.ltb k k' && sorted rest | _ => true end) (ms.*1)
  | _ => true
  end.

(** [value["key"]]: a member of an object, and [Null] for anything else. *)
Definition index (v : Value) (key : string) : Value :=
  match v with
  | VObject ms => default Null (snd <$> head (base.filter (λ m, m.1 = key) ms))
  | _ => Null
  end.
Definition as_str (v : Value) : option string := match v with VString s => Some s | _ => None end.

(** ** Messages *)

Record McpRequest : Type := mk_mcp_request { req_jsonrpc : string; req_id : Value; req_method : string; req_params : option Value }.
Record McpError : Type := mk_mcp_error { err_code : Z; err_message : string; err_data : option Value }.
Record McpResponse : Type := mk_mcp_response { res_jsonrpc : string; res_id : Value; res_result : option Value; res_error : option McpError }.

Definition new_request (i : Value) (method : string) (params : option Value) : McpRequest := mk_mcp_request "2.0" i method params.
Definition success (i result : Value) : McpResponse := mk_mcp_response "2.0" i (Some result) None.
Definition error (i : Value) (code : Z) (message : string) : McpResponse :=
  mk_mcp_response "2.0" i None (Some (mk_mcp_error code message None)).

Class RpcJson : Type := {
  request_to_vec : McpRequest → result string bytes;
  request_from_slice : bytes → result string McpRequest;
  response_to_vec : McpResponse → result string bytes;
  response_from_slice : bytes → result string McpResponse;
}.
(** An optional value that is [null] is read as an absent one. *)
Definition absent_null (v : option Value) : option Value := match v with Some Null => None | _ => v end.
Definition wf_option (v : option Value) : bool := match v with Some v => wf_value v | None => true end.
Class RpcJsonLaws (J : RpcJson) : Prop := {
  request_round_trip_json r b :
    wf_value (req_id r) && wf_option (req_params r) → request_to_vec r = Ok b →
    request_from_slice b = Ok (mk_mcp_request (req_jsonrpc r) (req_id r) (req_method r) (absent_null (req_params r)));
  success_round_trip i v b :
    wf_value i → wf_value v → response_to_vec (success i v) = Ok b →
    response_from_slice b = Ok (mk_mcp_response "2.0" i (absent_null (Some v)) None);
  error_round_trip i code m b :
    wf_value i → response_to_vec (error i code m) = Ok b → response_from_slice b = Ok (error i code m);
  response_not_empty r : response_to_vec r ≠ Ok [];
}.

(** ** The server *)

Record McpTool (S : Type) : Type := mk_tool {
  tool_name : string;
  tool_description : option string;
  input_schema : Value;
  tool_call : Value → S → result string Value * S;
}.
Arguments mk_tool {S}.
Arguments tool_name {S}.
Arguments tool_description {S}.
Arguments input_schema {S}.
Arguments tool_call {S}.

Module McpServer.
Section server.
Context {S : Type} {J : RpcJson}.

Definition t : Type := gmap string (McpTool S).
Definition new : t := (∅ : gmap string (McpTool S)).

Definition add_tool (tools : t) (tool : McpTool S) : result string () * t :=
  let name := tool_name tool in
  match (tools : gmap string (McpTool S)) !! name with
  | Some _ => (Err ("MCP tool '" +:+ name +:+ "' is already registered; remove it first")%string, tools)
  | None => (Ok (), <[name := tool]> (tools : gmap string (McpTool S)))
  end.

Definition tool_entry (tool : McpTool S) : Value :=
  VObject [("description"%string, match tool_description tool with Some d => VString d | None => Null end);
           ("input_schema"%string, input_schema tool);
           ("name"%string, VString (tool_name tool))].
(** In the order of the table. *)
Definition tools_list (tools : t) : Value :=
  VObject [("tools"%string, VArray (tool_entry ∘ snd <$> map_to_list (tools : gmap string (McpTool S))))].

Definition tools_call (tools : t) (req : McpRequest) (st : S) : result string McpResponse * S :=
  match (params ← ok_or (req_params req) "Missing params for tools/call"%string;
         name ← ok_or (as_str (index params "name")) "Missing tool name"%string;
         Ok (name, index params "arguments")) with
  | Err e => (Err e, st)
  | Ok (name, arguments) =>
      match (tools : gmap string (McpTool S)) !! name with
      | Some tool =>
          let '(r, st) := tool_call tool arguments st in
          (Ok (match r with Ok result => success (req_id req) result | Err e => error (req_id req) (-32000) e end), st)
      | None => (Ok (error (req_id req) (-32601) "Tool not found"), st)
      end
  end.

Definition dispatch (tools : t) (req : McpRequest) (st : S) : result string McpResponse * S :=
  if decide (req_method req = "tools/list"%string) then (Ok (success (req_id req) (tools_list tools)), st)
  else if decide (req_method req = "tools/call"%string) then tools_call tools req st
  else (Ok (error (req_id req) (-32601) "Method not found"), st).

Definition handle_request (tools : t) (request_bytes : bytes) (st : S) : result string bytes * S :=
  match request_from_slice request_bytes with
  | Err e => (Err ("Invalid JSON-RPC request: " +:+ e)%string, st)
  | Ok req =>
      let '(res, st) := dispatch tools req st in
      (res ← res; map_err (λ e, "Serialization error: " +:+ e)%string (response_to_vec res), st)
  end.

End server.
End McpServer.

(** ** The client *)

Inductive McpClientError : Type := McpOpenHttpa (m : string) | McpSerde (m : string) | McpProtocol (m : string).

(** [new] and [new_with_verifier]; [parse_uri] is the reading of a URI, [make]
    [OpenHttpaClient::new] on what the builder chose. *)
Definition new_mcp_client (parse_uri : string → result string string) (make : BuiltClient → OpenHttpaClient)
    (bld : Build) (avail : ProviderKind → bool) (show_build : ClientBuildError → string) (verifier : option QuoteVerifier) (server_url : string)
    : outcome (result McpClientError OpenHttpaClient) :=
  match map_err McpProtocol (parse_uri server_url) with
  | Err e => Returns (Err e)
  | Ok uri =>
      let b := with_server_uri builder uri in
      let b := match verifier with Some v => with_verifier b v | None => b end in
      built ← try_build bld avail (require_preflight b);
      Returns (built ← map_err (λ e, McpOpenHttpa (show_build e)) built; Ok (make built))
  end.

(** The answer to a call, once decrypted. *)
Definition read_answer {J : RpcJson} (response_bytes : bytes) : result McpClientError Value :=
  if decide (response_bytes = []) then Ok (VObject [("tools"%string, VArray [])])
  else
    response ← map_err McpSerde (response_from_slice response_bytes);
    match res_error response with
    | Some e => Err (McpProtocol (err_message e))
    | None => Ok (default Null (res_result response))
    end.

Section client.
Context {St : Type} (send : wire St).
Context {CT : ClientText} {SJ : ShareJson} {SP : SfvPrim} {HJ : HeaderJson} {UP : UuidPrim} {UR : UriParts} {CJ : CiphertextJson}.
Context {AP : AeadPrim} {HaP : HashPrim} {HP : HkdfPrim} {MP : HmacPrim} {KP : KexPrim} {XP : HexPrim} {BP : Base64Prim}.
Context (mldsa_verify : bytes → bytes → bytes → bool) (allow : option string) (show : ClientError → string).
Context {J : RpcJson}.

(** Every call makes a handshake of its own. *)
Definition call (c : OpenHttpaClient) (max : Z) (e : CallEnv) (request_id : string) (method : string) (params : option Value) (w : St)
    : outcome (result McpClientError Value) * St :=
  match map_err McpSerde (request_to_vec (new_request (VString request_id) method params)) with
  | Err err => (Returns (Err err), w)
  | Ok body =>
      match attest_handshake (handshake_send send) mldsa_verify allow c (call_client_env e) w with
      | (Panics, w) => (Panics, w)
      | (Returns (Err err), w) => (Returns (Err (McpOpenHttpa (show err))), w)
      | (Returns (Ok s), w) =>
          let '(r, _, w) := trusted_request_ext send c max (call_t0 e) (call_t1 e) (call_t2 e) s "POST" "/api/mcp" body None w in
          (Returns (response_bytes ← map_err (λ e, McpOpenHttpa (show e)) r; read_answer response_bytes), w)
      end
  end.
Definition list_tools (c : OpenHttpaClient) (max : Z) (e : CallEnv) (request_id : string) (w : St) := call c max e request_id "tools/list" None w.
Definition tool_params (name : string) (arguments : Value) : Value := VObject [("arguments"%string, arguments); ("name"%string, VString name)].
Definition call_tool (c : OpenHttpaClient) (max : Z) (e : CallEnv) (request_id name : string) (arguments : Value) (w : St) :=
  call c max e request_id "tools/call" (Some (tool_params name arguments)) w.

End client.

(** ** Theorems *)

Section facts.
Context {S : Type} {J : RpcJson} {JL : RpcJsonLaws J}.

(** The table maps every name to a tool of that name. *)
Definition named (tools : McpServer.t (S := S)) : Prop := map_Forall (λ n tool, tool_name tool = n) (tools : gmap string (McpTool S)).

Lemma named_new : named McpServer.new.
Proof using. apply map_Forall_empty. Qed.
Lemma named_add tools tool : named tools → named (McpServer.add_tool tools tool).2.
Proof using.
  intros Hn. unfold McpServer.add_tool. destruct (_ !! _); [done|]. cbn [snd]. by apply map_Forall_insert_2.
Qed.
(** Registering never replaces a tool. *)
Lemma add_tool_keeps tools tool n u :
  (tools : gmap string (McpTool S)) !! n = Some u → ((McpServer.add_tool tools tool).2 : gmap string (McpTool S)) !! n = Some u.
Proof using.
  intros Hn. unfold McpServer.add_tool. destruct ((tools : gmap string (McpTool S)) !! tool_name tool) eqn:Ht; [done|]. cbn [snd].
  rewrite lookup_insert_ne; [done|]. congruence.
Qed.
Lemma add_tools_keep tools more n u :
  (tools : gmap string (McpTool S)) !! n = Some u →
  (foldl (λ ts t, (McpServer.add_tool ts t).2) tools more : gmap string (McpTool S)) !! n = Some u.
Proof using. revert tools. induction more as [|m more IH]; intros tools Hn; [done|]. cbn [foldl]. by apply IH, add_tool_keeps. Qed.

End facts.

(** How the client reads what the server wrote. *)
Lemma read_success {J : RpcJson} {JL : RpcJsonLaws J} i v b :
  wf_value i → wf_value v → response_to_vec (success i v) = Ok b → read_answer b = Ok v.
Proof.
  intros Hi Hv Hb. unfold read_answer. rewrite decide_False by (intros ->; by apply response_not_empty in Hb).
  rewrite (success_round_trip _ _ _ Hi Hv Hb). by destruct v.
Qed.
Lemma read_error {J : RpcJson} {JL : RpcJsonLaws J} i code m b :
  wf_value i → response_to_vec (error i code m) = Ok b → read_answer b = Err (McpProtocol m).
Proof.
  intros Hi Hb. unfold read_answer. rewrite decide_False by (intros ->; by apply response_not_empty in Hb).
  by rewrite (error_round_trip _ _ _ _ Hi Hb).
Qed.

(** The server on the request that [call_tool] makes. *)
Lemma tools_call_request {S : Type} (tools : McpServer.t (S := S)) i name arguments st :
  McpServer.dispatch tools (new_request (VString i) "tools/call" (Some (tool_params name arguments))) st =
  match (tools : gmap string (McpTool S)) !! name with
  | Some tool =>
      let '(r, st) := tool_call tool arguments st in
      (Ok (match r with Ok result => success (VString i) result | Err e => error (VString i) (-32000) e end), st)
  | None => (Ok (error (VString i) (-32601) "Tool not found"), st)
  end.
Proof.
  unfold McpServer.dispatch. cbn [req_method new_request]. rewrite decide_False, decide_True by done.
  unfold McpServer.tools_call. cbn [req_params req_id new_request ok_or mbind result_bind].
  change (index (tool_params name arguments) "name") with (VString name).
  by change (index (tool_params name arguments) "arguments") with arguments.
Qed.

(** The answer of a tool as the client reports it. *)
Definition tool_answer (r : result string Value) : result McpClientError Value := map_err McpProtocol r.

(** [C36] What a client gets for a tool call, through both codecs: the value or the error of
    the tool that is registered under the name, called once on the given arguments, or the
    error that there is none and no tool called.  Tools registered in the meantime do not
    change which one answers. *)
Theorem mcp_tool_call {S : Type} {J : RpcJson} {JL : RpcJsonLaws J} (tools : McpServer.t (S := S)) (more : list (McpTool S))
    (i name : string) (arguments : Value) (body out : bytes) (st st' : S) :
  let tools' := foldl (λ ts t, (McpServer.add_tool ts t).2) tools more in
  wf_value arguments →
  (∀ tool v st1, (tools : gmap string (McpTool S)) !! name = Some tool → tool_call tool arguments st = (Ok v, st1) → wf_value v) →
  request_to_vec (new_request (VString i) "tools/call" (Some (tool_params name arguments))) = Ok body →
  McpServer.handle_request tools' body st = (Ok out, st') →
  match (tools : gmap string (McpTool S)) !! name with
  | Some tool => (read_answer out, st') = (tool_answer (tool_call tool arguments st).1, (tool_call tool arguments st).2)
  | None => (tools' : gmap string (McpTool S)) !! name = None → (read_answer out, st') = (Err (McpProtocol "Tool not found"), st)
  end.
Proof.
  intros tools' Hwf Htool Hb. unfold McpServer.handle_request.
  rewrite (request_round_trip_json (new_request (VString i) "tools/call" (Some (tool_params name arguments))) body); [|by cbn; destruct (wf_value arguments)|done].
  change (mk_mcp_request _ _ _ _) with (new_request (VString i) "tools/call" (Some (tool_params name arguments))).
  rewrite tools_call_request. intros H. destruct ((tools : gmap string (McpTool S)) !! name) as [tool|] eqn:Ht.
  - assert ((tools' : gmap string (McpTool S)) !! name = Some tool) as Ht' by by apply add_tools_keep. rewrite Ht' in H.
    destruct (tool_call tool arguments st) as [r st1] eqn:Hc. cbn [mbind result_bind fst snd] in H |- *.
    injection H as H <-. apply map_err_Ok in H. f_equal. destruct r as [v|e].
    + apply (read_success (VString i)); [done| |done]. by eapply Htool.
    + by apply (read_error (VString i) (-32000)).
  - intros Hn. rewrite Hn in H. cbn [mbind result_bind] in H. injection H as H <-. apply map_err_Ok in H. f_equal.
    by apply (read_error (VString i) (-32601)).
Qed.

(** An empty answer passes for a list of no tools, whatever was called. *)
Theorem mcp_empty_answer {J : RpcJson} : read_answer [] = Ok (VObject [("tools"%string, VArray [])]).
Proof. done. Qed.

(** ** An instance

    A codec of the messages whose values are strings, and a server with one tool that
    counts its calls. *)
Module ToyMcp.
Definition request_bytes (r : McpRequest) : result string bytes :=
  match r with
  | mk_mcp_request v (VString i) m (Some (VObject [(ka, VString a); (kn, VString n)])) => Ok (ToyCodec.put_delimited (v, i, m, (ka, a), (kn, n)))
  | _ => Err "unsupported"%string
  end.
Definition read_request (b : bytes) : result string McpRequest :=
  match ToyCodec.take_delimited b with
  | Some ((v, i, m, (ka, a), (kn, n)), _) => Ok (mk_mcp_request v (VString i) m (Some (VObject [(ka, VString a); (kn, VString n)])))
  | None => Err "invalid"%string
  end.
Definition response_bytes (r : McpResponse) : result string bytes :=
  match r with
  | mk_mcp_response v (VString i) (Some (VString s)) None => Ok (ToyCodec.put_delimited (v, i, @inl string (Z * string) s))
  | mk_mcp_response v (VString i) None (Some (mk_mcp_error c m None)) => Ok (ToyCodec.put_delimited (v, i, @inr string (Z * string) (c, m)))
  | _ => Err "unsupported"%string
  end.
Definition read_response (b : bytes) : result string McpResponse :=
  match ToyCodec.take_delimited (A := string * string * (string + Z * string)) b with
  | Some ((v, i, inl s), _) => Ok (mk_mcp_response v (VString i) (Some (VString s)) None)
  | Some ((v, i, inr (c, m)), _) => Ok (mk_mcp_response v (VString i) None (Some (mk_mcp_error c m None)))
  | None => Err "invalid"%string
  end.
#[export] Instance json : RpcJson := {|
  request_to_vec := request_bytes; request_from_slice := read_request;
  response_to_vec := response_bytes; response_from_slice := read_response |}.
Lemma take_put_all {A} `{Countable A} (a : A) : ToyCodec.take_delimited (ToyCodec.put_delimited a) = Some (a, []).
Proof. rewrite <-(app_nil_r (ToyCodec.put_delimited a)). apply ToyCodec.take_put. Qed.
#[export] Instance json_laws : RpcJsonLaws json.
Proof.
  split.
  - intros [v i m ps] b _. cbn. intros Hb. unfold read_request. repeat case_match; simplify_eq; rewrite take_put_all in *; by simplify_eq.
  - intros i v b _ _. cbn. intros Hb. unfold read_response. repeat case_match; simplify_eq; rewrite take_put_all in *; by simplify_eq.
  - intros i c m b _. cbn. intros Hb. unfold read_response. repeat case_match; simplify_eq; rewrite take_put_all in *; by simplify_eq.
  - intros [v i r e]. cbn. repeat case_match; try done; intros [= Hb]; symmetry in Hb; by apply app_cons_not_nil in Hb.
Qed.
Definition echo : McpTool nat := mk_tool "echo" None Null (λ v n, (Ok v, S n)).
Definition shadow : McpTool nat := mk_tool "echo" None Null (λ v n, (Err "shadowed"%string, n)).
Definition server : McpServer.t (S := nat) := (McpServer.add_tool McpServer.new echo).2.
Definition body : bytes := match request_bytes (new_request (VString "1") "tools/call" (Some (tool_params "echo" (VString "hello")))) with Ok b => b | Err _ => [] end.
Definition out : bytes := match McpServer.handle_request server body 0%nat with (Ok b, _) => b | _ => [] end.
End ToyMcp.

Lemma mcp_tool_call_witness : read_answer (J := ToyMcp.json) ToyMcp.out = Ok (VString "hello").
Proof.
  pose proof (mcp_tool_call (JL := ToyMcp.json_laws) ToyMcp.server [ToyMcp.shadow] "1" "echo" (VString "hello") ToyMcp.body ToyMcp.out 0%nat 1%nat I) as H.
  cbn [foldl] in H. rewrite (eq_refl : (ToyMcp.server : gmap string (McpTool nat)) !! "echo"%string = Some ToyMcp.echo) in H.
  apply (f_equal fst) in H; [exact H| | |].
  - intros tool v st1 [= <-] [= <- <-]. exact I.
  - reflexivity.
  - vm_compute. reflexivity.
Defined.
