(* ===== verification/Verifiers.v ===== *)
(** * Quote verifiers

    From [crates/openhttpa-attestation/src]: the verifiers for AMD SEV-SNP
    ([snp_verifier.rs]) and Intel TDX ([tdx_dcap_verifier.rs]) with the Azure
    paravisor binding they share ([azure_hcl.rs]), the two remote verifiers
    ([maa_verifier.rs], [nvidia_remote_verifier.rs]), the fixture verifier for
    NVIDIA GPUs ([nvidia_verifier.rs]), the TPM verifier ([tpm_verifier.rs]) with the
    guard of the collateral fetcher ([collateral_fetcher.rs]), and the mock verifier
    ([mock_verifier.rs]).

    The crates that check the hardware vendors' signatures ([sev], [dcap-qvl],
    [jsonwebtoken], [aws-lc-rs]) are classes of operations; what a remote service
    answered is an argument.  Optional features are taken as enabled. *)

From S2P Require Import Prelude Crypto Aead Proto Attestation KeyExchange KeySchedule Session Handshake Tee Http Ahl Trailers Sfv Provenance Headers.
From S2P Require Import Registry Middleware Handlers.
From stdpp Require Import options.

#[local] Open Scope Z_scope.

Definition violation (m : string) : AttestError := PolicyViolation m.

(** ** Azure paravisor binding *)

(** The member [user-data] of the runtime claims: a parse error, absent, or a string. *)
Class HclJson : Type := { hcl_user_data : bytes → result string (option string) }.

Section hcl.
Context {HaP : HashPrim} {HxP : HexPrim} {HJ : HclJson}.

Definition verify_azure_hcl_binding (embedded runtime_data expected : bytes) : result AttestError () :=
  if decide (sha256 runtime_data = take 32 embedded) then
    claims ← map_err (λ e, MalformedQuote ("invalid HCL runtime data: " +:+ e)) (hcl_user_data runtime_data);
    user_data ← ok_or claims (violation "Azure HCL runtime data is missing user-data");
    if eq_ignore_ascii_case user_data (hex_encode expected) then Ok ()
    else Err (violation "Azure HCL user-data does not match the expected report_data")
  else Err (violation "Azure HCL runtime data does not match hardware report_data").

(** The report data embedded in the hardware's report stands for [expected]. *)
Definition bound_report_data (hcl : option bytes) (embedded expected : bytes) : Prop :=
  match hcl with
  | None => embedded = expected
  | Some runtime =>
      sha256 runtime = take 32 embedded ∧
      ∃ u, hcl_user_data runtime = Ok (Some u) ∧ eq_ignore_ascii_case u (hex_encode expected) = true
  end.

Lemma hcl_binding_Ok embedded runtime expected :
  verify_azure_hcl_binding embedded runtime expected = Ok () ↔ bound_report_data (Some runtime) embedded expected.
Proof.
  unfold verify_azure_hcl_binding, bound_report_data. destruct (decide _) as [Hh|Hh]; [|split; [done|by intros [? _]]].
  destruct (hcl_user_data runtime) as [[u|]|]; cbn [map_err mbind result_bind ok_or];
    [|split; [done|by intros (_ & ? & ? & _)]..].
  destruct (eq_ignore_ascii_case u _) eqn:Hu; split; [by eauto|done|done|]. intros (_ & ? & [= <-] & ?). congruence.
Qed.

(** What both hardware verifiers do with the report data. *)
Definition check_binding (hcl : option bytes) (embedded expected : bytes) (mismatch : string) : result AttestError () :=
  match hcl with
  | Some runtime_data => verify_azure_hcl_binding embedded runtime_data expected
  | None => if decide (embedded = expected) then Ok () else Err (violation mismatch)
  end.
Lemma check_binding_Ok hcl embedded expected m :
  check_binding hcl embedded expected m = Ok () ↔ bound_report_data hcl embedded expected.
Proof.
  destruct hcl as [runtime|]; cbn [check_binding]; [apply hcl_binding_Ok|]. unfold bound_report_data. destruct (decide _); by split.
Qed.

End hcl.

(** ** AMD SEV-SNP *)

Inductive AmdCaSource : Type :=
| Builtin
| Static (der_or_pem : bytes)
| CaFile (path : string)
| FetchFromKDS.

Record SevSnpVerifier : Type := mk_snp_verifier {
  snp_min_svn : option Z;
  snp_expected_measurement : option bytes;
  snp_allow_debug : bool;
  snp_ca_source : AmdCaSource;
}.
Definition snp_new : SevSnpVerifier := mk_snp_verifier None None false Builtin.
Definition snp_with_ca_source (v : SevSnpVerifier) (s : AmdCaSource) : SevSnpVerifier :=
  mk_snp_verifier (snp_min_svn v) (snp_expected_measurement v) (snp_allow_debug v) s.
Definition snp_with_min_svn (v : SevSnpVerifier) (svn : Z) : SevSnpVerifier :=
  mk_snp_verifier (Some svn) (snp_expected_measurement v) (snp_allow_debug v) (snp_ca_source v).
Definition snp_with_expected_measurement (v : SevSnpVerifier) (m : bytes) : SevSnpVerifier :=
  mk_snp_verifier (snp_min_svn v) (Some m) (snp_allow_debug v) (snp_ca_source v).
(** [allow_debug] panics in release builds. *)
Definition snp_allow_debug_reports (debug_build : bool) (v : SevSnpVerifier) : outcome SevSnpVerifier :=
  if debug_build then Returns (mk_snp_verifier (snp_min_svn v) (snp_expected_measurement v) true (snp_ca_source v)) else Panics.

(** The [sev] crate: reports, certificate chains and the bundled AMD roots. *)
Class SevPrim : Type := {
  SnpReport : Type;
  report_from_bytes : bytes → result string SnpReport;
  rep_report_data : SnpReport → bytes;
  rep_measurement : SnpReport → bytes;
  rep_debug_allowed : SnpReport → bool;
  rep_microcode : SnpReport → Z;
  Chain : Type;
  chain_from_cert_table : list (SevSnpCertificateType * bytes) → result string Chain;
  chain_ark_der : Chain → result string bytes;
  chain_verifies : Chain → SnpReport → bool;
  builtin_arks : list (result string bytes);
  certificate_der : (*der or pem*) bytes → result string bytes;
  read_file : string → result string bytes;
}.
Definition SNP_REPORT_LEN : nat := Z.to_nat 1184.

Section snp.
Context {HaP : HashPrim} {HxP : HexPrim} {HJ : HclJson} {BJ : BundleJson} {SP : SevPrim}.

Fixpoint collect_results {A} (l : list (result string A)) (wrap : string → AttestError) : result AttestError (list A) :=
  match l with
  | [] => Ok []
  | r :: l => a ← map_err wrap r; l' ← collect_results l wrap; Ok (a :: l')
  end.

Definition trusted_ark_der (v : SevSnpVerifier) : result AttestError (list bytes) :=
  let pinned b := d ← map_err (λ e, violation ("invalid pinned AMD ARK: " +:+ e)) (certificate_der b); Ok [d] in
  match snp_ca_source v with
  | Builtin => collect_results builtin_arks (λ e, violation ("invalid bundled AMD ARK: " +:+ e))
  | Static b => pinned b
  | CaFile path => b ← map_err (λ e, violation ("cannot read pinned AMD ARK: " +:+ e)) (read_file path); pinned b
  | FetchFromKDS => Err (violation "fetching an AMD root certificate at verification time is not a trust anchor; configure a pinned ARK")
  end.

Definition check_expected_measurement (v : SevSnpVerifier) (r : SnpReport) : result AttestError () :=
  expected ← ok_or (snp_expected_measurement v) (violation "expected SNP launch measurement must be configured");
  if decide (rep_measurement r = expected) then Ok ()
  else Err (violation "SNP launch measurement does not match the pinned value").

(** The entries of the certificate table that the chain is built from. *)
Definition chain_entries (table : list SevSnpCertificate) : list (SevSnpCertificateType * bytes) :=
  omap (λ c, match certificate_type c with
             | Crl | OtherCert _ => None
             | t => Some (t, der c)
             end) table.

Definition snp_result (r : SnpReport) : VerificationResult :=
  let svn := rep_microcode r in
  let m := hex_encode (take 48 (rep_measurement r)) in
  mk_result None
    (mk_claims None (Some "AMD SEV-SNP"%string) None (Some "AMD"%string) (Some (if rep_debug_allowed r then 1 else 0)) (Some m)
       (Some svn) None None (Some AmdSevSnp))
    ("SVN=" +:+ pretty.pretty svn) (Some m) None [].

Definition verify_snp_report (v : SevSnpVerifier) (q : AttestQuote) (rd : bytes) : result AttestError VerificationResult :=
  _ ← (if decide (qudd q = rd) then Ok () else Err (violation "SEV-SNP quote QUDD mismatch"));
  _ ← (if decide (format q = SevSnpBundleV1 ∧ collateral_uris q = []) then Ok ()
       else Err (MalformedQuote "SEV-SNP quotes must use the certificate-bearing sev_snp_bundle_v1 format"));
  bundle ← map_err (λ e, MalformedQuote ("invalid SNP bundle: " +:+ e)) (snp_from_slice (quote_raw q));
  _ ← (match certificate_table bundle with
       | [] => Err (MalformedQuote "SEV-SNP bundle is missing its certificate table")
       | _ => Ok ()
       end);
  _ ← (if decide (length (snp_report bundle) = SNP_REPORT_LEN) then Ok ()
       else Err (MalformedQuote "SNP report has invalid length"));
  report ← map_err (λ e, MalformedQuote ("invalid SNP report: " +:+ e)) (report_from_bytes (snp_report bundle));
  _ ← check_binding (snp_hcl_runtime_data bundle) (rep_report_data report) rd
        "SNP report_data mismatch: the embedded nonce does not match the expected value";
  _ ← check_expected_measurement v report;
  _ ← (if rep_debug_allowed report && negb (snp_allow_debug v)
       then Err (violation "SNP report: debug-mode reports are not accepted in production") else Ok ());
  chain ← map_err (λ e, MalformedQuote ("invalid AMD certificate table: " +:+ e))
            (chain_from_cert_table (chain_entries (certificate_table bundle)));
  ark ← map_err MalformedQuote (chain_ark_der chain);
  trusted ← trusted_ark_der v;
  _ ← (if decide (ark ∈ (trusted : list bytes)) then Ok ()
       else Err (violation "SEV-SNP certificate chain does not terminate at a trusted AMD ARK"));
  _ ← (if chain_verifies chain report then Ok () else Err SignatureInvalid);
  min_svn ← ok_or (snp_min_svn v) (violation "minimum SNP microcode SVN must be configured");
  _ ← (if decide (rep_microcode report < min_svn) then Err (violation "SNP reported_tcb.microcode SVN is below minimum") else Ok ());
  Ok (snp_result report).

Definition snp_verify (v : SevSnpVerifier) : QuoteVerifier := λ q rd,
  if decide (quote_type q = SevSnp) then verify_snp_report v q rd
  else Err (violation "SevSnpVerifier: unexpected quote type; expected SevSnp").

End snp.

(** ** Intel TDX *)

Record TdxPolicy : Type := mk_tdx_policy {
  allowed_tcb_statuses : list string;
  expected_mrtds : list bytes;
  (** one optional pin for each of [RTMR0..RTMR3] *)
  expected_rtmrs : list (option bytes);
  tdx_allow_debug : bool;
  allow_dynamic_platform : bool;
  allow_cached_keys : bool;
  allow_smt : bool;
}.
Definition default_tdx_policy : TdxPolicy := mk_tdx_policy [] [] (replicate 4 None) false false false false.
Definition cloud_host (mrtds : list bytes) : TdxPolicy := mk_tdx_policy [] mrtds (replicate 4 None) false true true true.

Record TDReport10 : Type := mk_td {
  tee_tcb_svn : bytes; mr_seam : bytes; mr_signer_seam : bytes; td_attributes : bytes; xfam : bytes; mr_td : bytes;
  mr_config_id : bytes; mr_owner : bytes; mr_owner_config : bytes; rt_mrs : list bytes; td_report_data : bytes;
}.
Record DcapClaims : Type := mk_dcap_claims {
  dc_tee_type : Z;
  dc_td10 : option TDReport10;
  dc_tcb_status : string;
  dc_header_version : Z;
  dc_advisory_ids : list string;
  dc_earliest_expiration_date : Z;
  dc_latest_issue_date : Z;
}.
(** [QuotePolicy::strict(now)] with the operator's additions. *)
Record QuotePolicy : Type := mk_quote_policy {
  qp_now : Z;
  qp_dynamic_platform : bool;
  qp_cached_keys : bool;
  qp_smt : bool;
  qp_statuses : list string;
}.

(** [dcap-qvl]: the status names it knows, and verification under a policy. *)
Class DcapPrim : Type := {
  Collateral : Type;
  tcb_status_known : string → bool;
  dcap_verify : (*root*) bytes → (*allow_debug*) bool → QuotePolicy → (*quote*) bytes → Collateral → (*now*) Z → result string DcapClaims;
  intel_root_ca : bytes;
  report_to_vec : TDReport10 → DcapClaims → option bytes;
}.
Class DcapLaws (P : DcapPrim) : Prop := {
  (** a strict policy accepts only [UpToDate] and the statuses added to it, and no
      collateral past its date *)
  dcap_strict root dbg pol q col now c :
    dcap_verify root dbg pol q col now = Ok c →
    (dc_tcb_status c = "UpToDate"%string ∨ dc_tcb_status c ∈ qp_statuses pol) ∧ qp_now pol ≤ dc_earliest_expiration_date c;
}.

Definition INTEL_SGX_ROOT_CA_SHA256 : string := "44a0196b2b99f889b8e149e95b807a350e7424964399e885a7cbb8ccfab674d3".

Section tdx.
Context {HaP : HashPrim} {HxP : HexPrim} {HJ : HclJson} {BJ : BundleJson} {DP : DcapPrim}.

Definition decode_tdx_bundle (q : AttestQuote) : result AttestError TdxQuoteBundleV1 :=
  if decide (quote_type q = Tdx) then
    match format q with
    | TdxBundleV1 => map_err (λ e, MalformedQuote ("invalid tdx_bundle_v1: " +:+ e)) (tdx_from_slice (quote_raw q))
    | Raw => Ok (mk_tdx_bundle (quote_raw q) None)
    | other => Err (MalformedQuote ("unsupported TDX quote format '" +:+ to_string other +:+ "'"))
    end
  else Err (violation "TdxDcapVerifier: unexpected quote type; expected Tdx").

Fixpoint parse_statuses (names : list string) : result AttestError (list string) :=
  match names with
  | [] => Ok []
  | n :: names =>
      s ← (if tcb_status_known n then Ok n else Err (violation ("unknown TDX TCB status in policy: " +:+ n)));
      l ← parse_statuses names; Ok (s :: l)
  end.

(** The pins that are set must equal the registers. *)
Fixpoint check_rtmrs (pins : list (option bytes)) (actual : list bytes) : result AttestError () :=
  match pins, actual with
  | pin :: pins, a :: actual =>
      match pin with
      | Some p => if decide (p = a) then check_rtmrs pins actual else Err (violation "TDX RTMR does not match the pinned value")
      | None => check_rtmrs pins actual
      end
  | _, _ => Ok ()
  end.

(** [td_attributes[0] & 0x01 != 0]; indexing panics on an empty field, which is a
    fixed array in the source. *)
Definition td_debug (td : TDReport10) : bool :=
  match td_attributes td with b :: _ => Z.testbit (u8_val b) 0 | [] => false end.

Definition verify_tdx_bundle_with_collateral (bundle : TdxQuoteBundleV1) (collateral : Collateral) (expected : bytes) (now : Z)
    (policy : TdxPolicy) : result AttestError (DcapClaims * TDReport10) :=
  _ ← (if decide (hex_encode (sha256 intel_root_ca) = INTEL_SGX_ROOT_CA_SHA256) then Ok ()
       else Err (violation "bundled Intel SGX Root CA does not match its pinned SHA-256"));
  _ ← (match expected_mrtds policy with [] => Err (violation "at least one expected TDX MRTD must be configured") | _ => Ok () end);
  statuses ← parse_statuses (allowed_tcb_statuses policy);
  let qp := mk_quote_policy now (allow_dynamic_platform policy) (allow_cached_keys policy) (allow_smt policy) statuses in
  claims ← map_err (λ e, violation ("Intel DCAP verification failed: " +:+ e))
             (dcap_verify intel_root_ca (tdx_allow_debug policy) qp (tdx_quote bundle) collateral now);
  _ ← (if decide (dc_tee_type claims = 129) then Ok () else Err (violation "DCAP quote is not a TDX quote"));
  td ← ok_or (dc_td10 claims) (violation "DCAP quote does not carry a TD report");
  _ ← (if td_debug td && negb (tdx_allow_debug policy) then Err (violation "TDX quote comes from a debug TD") else Ok ());
  _ ← check_binding (tdx_hcl_runtime_data bundle) (td_report_data td) expected "TDX REPORTDATA does not match the expected report data";
  _ ← (if decide (mr_td td ∈ expected_mrtds policy) then Ok () else Err (violation "TDX MRTD is not in the approved allow-list"));
  _ ← check_rtmrs (expected_rtmrs policy) (rt_mrs td);
  Ok (claims, td).

Definition tdx_result (claims : DcapClaims) (td : TDReport10) (now : Z) : VerificationResult :=
  let m := hex_encode (mr_td td) in
  mk_result (report_to_vec td claims)
    (mk_claims None (Some "Intel TDX"%string) None (Some "Intel"%string) (Some (if td_debug td then 1 else 0)) (Some m) None
       (Some now) (Some (dc_earliest_expiration_date claims)) (Some IntelTdx))
    (dc_tcb_status claims) (Some m) (Some (hex_encode (mr_signer_seam td))) [].

(** [TdxDcapVerifier::verify]; [fetched] is what the collateral service answered
    for the quote, [now] the clock. *)
Definition tdx_verify (policy : TdxPolicy) (fetched : bytes → result string Collateral) (now : option Z) : QuoteVerifier := λ q rd,
  _ ← (if decide (qudd q = rd) then Ok () else Err (violation "TDX quote QUDD mismatch"));
  bundle ← decode_tdx_bundle q;
  collateral ← map_err (λ e, violation ("Intel PCS collateral fetch failed: " +:+ e)) (fetched (tdx_quote bundle));
  now ← ok_or now (violation "system clock is before the Unix epoch");
  '(claims, td) ← verify_tdx_bundle_with_collateral bundle collateral rd now policy;
  Ok (tdx_result claims td now).

End tdx.

(** ** Fixtures, TPM and mock *)

Definition NVIDIA_SIM : bytes := as_bytes "NVIDIA-HOPPER-ATTESTATION-REPORT-SIM".

(** [NvidiaGpuVerifier]; the fixture is accepted by debug builds with the mock
    feature only. *)
Definition nvidia_verify (mock_debug : bool) : QuoteVerifier := λ q rd,
  if decide (quote_type q = NvidiaGpu) then
    if decide (qudd q = rd) then
      if bool_decide (take (length NVIDIA_SIM) (quote_raw q) = NVIDIA_SIM) && mock_debug then
        Ok (mk_result None
              (mk_claims None (Some "NVIDIA H100"%string) (Some "hopper_v1"%string) (Some "NVIDIA"%string) (Some 0)
                 (Some "simulated_gpu_measurement"%string) None None None None)
              "UpToDate" (Some "simulated_gpu_measurement"%string) (Some "nvidia_mock_signer"%string) [])
      else Err SignatureInvalid
    else Err (PolicyViolation "QUDD mismatch")
  else Err (MalformedQuote "not an nvidia_gpu quote").

(** The parts of a URL that the code looks at. *)
Record Url : Type := mk_url {
  url_scheme : string; url_host : option string; url_username : string; url_password : option string;
  url_query : option string; url_fragment : option string; url_path : string;
}.
Class UrlPrim : Type := { url_parse : string → result string Url }.

Inductive FetchError : Type :=
| FetchNetwork (msg : string)
| UnauthorizedUri (msg : string)
| TooLarge (n : Z)
| FetchStatus (status : Z).

Definition MAX_COLLATERAL_SIZE : Z := 1024 * 1024.
Definition default_allowed_domains (mock : bool) : list string :=
  [".trustauthority.intel.com"; ".kdsintpk.amd.com"; ".nras.nvidia.com"]%string ++ (if mock then ["127.0.0.1"%string] else []).

(** [trim_start_matches('.')] and [ends_with] *)
Fixpoint trim_dots (s : bytes) : bytes := match s with [] => [] | b :: r => if decide (b = "."%char) then trim_dots r else s end.
Definition ends_with (s p : string) : bool :=
  let s := as_bytes s in let p := as_bytes p in bool_decide (drop (length s - length p) s = p ∧ (length p ≤ length s)%nat).
Definition domain_allowed (domains : list string) (host : string) : bool :=
  existsb (λ d, bool_decide (as_bytes host = trim_dots (as_bytes d)) || ends_with host d) domains.

(** The loop over the body's chunks. *)
Fixpoint read_chunks (body : bytes) (chunks : list bytes) : result FetchError bytes :=
  match chunks with
  | [] => Ok body
  | c :: chunks =>
      if decide (MAX_COLLATERAL_SIZE < Z.of_nat (length body + length c)) then Err (TooLarge (Z.of_nat (length body + length c)))
      else read_chunks (body ++ c) chunks
  end.

(** What the server answered: a network error, or status, content length, chunks. *)
Definition HttpAnswer : Type := result string (Z * option Z * list bytes).

Section fetch.
Context {UP : UrlPrim}.

Definition fetch (domains : list string) (answer : Url → HttpAnswer) (uri : string) : result FetchError bytes :=
  url ← map_err (λ _, UnauthorizedUri uri) (url_parse uri);
  _ ← (if decide (url_scheme url ≠ "https"%string ∧ url_host url ≠ Some "127.0.0.1"%string)
       then Err (UnauthorizedUri "only HTTPS URIs are allowed") else Ok ());
  _ ← (match url_host url with
       | Some host => if domain_allowed domains host then Ok () else Err (UnauthorizedUri ("domain " +:+ host +:+ " is not in allowlist"))
       | None => Ok ()
       end);
  '(status, len, chunks) ← map_err FetchNetwork (answer url);
  _ ← (if decide (status = 200) then Ok () else Err (FetchStatus status));
  _ ← (match len with
       | Some n => if decide (MAX_COLLATERAL_SIZE < n) then Err (TooLarge n) else Ok ()
       | None => Ok ()
       end);
  read_chunks [] chunks.

Definition fetch_error_string (e : FetchError) : string :=
  match e with
  | FetchNetwork m => "network error: " +:+ m
  | UnauthorizedUri m => "SSRF protection: unauthorized URI: " +:+ m
  | TooLarge n => "artifact too large: " +:+ pretty.pretty n +:+ " bytes"
  | FetchStatus s => "unexpected status code: " +:+ pretty.pretty s
  end.

(** [TpmVerifier]; [ecdsa_verify] is [aws-lc-rs]'s check of a signature. *)
Definition tpm_verify (ecdsa_verify : (*key*) bytes → (*message*) bytes → (*signature*) bytes → bool)
    (domains : list string) (answer : Url → HttpAnswer) : QuoteVerifier := λ q rd,
  if decide (quote_type q = Tpm) then
    match collateral_uris q with
    | [] => Err (MalformedQuote "missing AIK certificate URI")
    | uri :: _ =>
        aik_cert ← map_err (λ e, NetworkError ("failed to fetch AIK collateral: " +:+ fetch_error_string e)) (fetch domains answer uri);
        let ok :=
          mk_result None (mk_claims None None None None None None None None None (Some TpmClass)) "UpToDate" None None [] in
        (* a failed signature is logged, not refused *)
        if ecdsa_verify aik_cert rd (quote_raw q) then Ok ok else Ok ok
    end
  else Err (PolicyViolation "TpmVerifier only accepts Tpm quotes").

End fetch.

(** [MockVerifier]; a release build refuses. *)
Section mock.
Context {HaP : HashPrim}.

Definition mock_claims (now : Z) (model version : string) (c : TeeClass) : EatClaims :=
  mk_claims None (Some model) (Some version) None (Some 1) (Some "mock-measurement"%string) (Some 1) (Some now) None (Some c).

Definition mock_verify (debug_build : bool) (configured : option VerificationResult) (now : Z) : QuoteVerifier := λ q rd,
  if debug_build then
    _ ← map_err (λ _, SignatureInvalid) (MockTeeProvider.verify_mock_quote q rd);
    match configured with
    | Some res => Ok res
    | None =>
        let c := match quote_type q with
                 | Tdx => mock_claims now "Intel TDX" "v1.0" IntelTdx
                 | SevSnp => mock_claims now "AMD SEV-SNP" "v2.0" AmdSevSnp
                 | Tpm => mock_claims now "TPM 2.0" "v1.0" TpmClass
                 | NvidiaGpu => mock_claims now "NVIDIA H100" "v1.0" NvidiaGpuClass
                 | _ => mock_claims now "Mock TEE" "v0.0" MockClass
                 end in
        Ok (mk_result None c "UpToDate" (Some "mock-measurement"%string) (Some "mock-signer"%string) [])
    end
  else Err (PolicyViolation "MockVerifier is forbidden in release builds").

End mock.

(** ** Remote services *)

Record JwkKey : Type := mk_jwk { key_id : string; x5c : list string; jwk_n : string; jwk_e : string }.
Abbreviation Jwks := (list JwkKey).

(** [jsonwebtoken]: the header's key identifier, RSA keys, and decoding with the
    RS256 signature, the issuer and the expiry checked; [serde_json] on the claims. *)
Class JwtPrim : Type := {
  RsaKey : Type;
  JwtClaims : Type;
  header_kid : string → result string (option string);
  from_rsa_der : bytes → RsaKey;
  from_rsa_components : string → string → result string RsaKey;
  jwt_decode : string → RsaKey → (*issuer*) string → option JwtClaims;
  claim_str : JwtClaims → string → option string;
  claim_bool : JwtClaims → string → option bool;
}.

(** The JWKS cache: an expiry and the keys. *)
Definition JwksCache : Type := option (Z * Jwks).
(** Keys that are not expired come from the cache; otherwise they are fetched and
    cached for a day. *)
Definition cached_jwks (cache : JwksCache) (now : Z) (fetched : result AttestError Jwks) : result AttestError Jwks * JwksCache :=
  match cache with
  | Some (expiry, keys) =>
      if decide (now < expiry) then (Ok keys, cache)
      else match fetched with
           | Ok keys => (Ok keys, Some (now + 86400, keys))
           | Err e => (Err e, cache)
           end
  | None =>
      match fetched with
      | Ok keys => (Ok keys, Some (now + 86400, keys))
      | Err e => (Err e, cache)
      end
  end.

Definition find_key (keys : Jwks) (kid : string) : result AttestError JwkKey :=
  ok_or (head (base.filter (λ k, key_id k = kid) keys)) SignatureInvalid.

Section remote.
Context {JP : JwtPrim} {BP : Base64Prim}.
(** [Base64UrlUnpadded::encode_string] *)
Context (b64url : bytes → string).

Record MaaVerifier : Type := mk_maa { maa_endpoint : string; maa_policy_hash : option string }.

Context {UP : UrlPrim}.

Definition maa_try_new (endpoint : string) : result AttestError MaaVerifier :=
  let trimmed := trim_end_slashes endpoint in
  url ← map_err (λ e, Malformed ("invalid MAA endpoint: " +:+ e)) (url_parse trimmed);
  let host := default EmptyString (url_host url) in
  if decide (url_scheme url = "https"%string ∧
             (host = "attest.azure.net"%string ∨ ends_with host ".attest.azure.net" = true) ∧
             url_username url = EmptyString ∧ url_password url = None ∧ url_query url = None ∧ url_fragment url = None)
  then Ok (mk_maa trimmed None)
  else Err (violation "MAA endpoint must be an HTTPS Azure Attestation endpoint").
Definition maa_with_expected_policy_hash (v : MaaVerifier) (h : string) : MaaVerifier := mk_maa (maa_endpoint v) (Some h).

Definition debuggable_claim (qt : QuoteType) : option string :=
  match qt with
  | Tdx => Some "x-ms-tdx-is-debuggable"%string
  | Sgx => Some "x-ms-sgx-is-debuggable"%string
  | _ => None
  end.

Definition maa_validate_claims (v : MaaVerifier) (c : JwtClaims) (rd : bytes) (qt : QuoteType) : result AttestError () :=
  expected ← ok_or (maa_policy_hash v) (violation "expected Azure MAA policy hash is not configured");
  _ ← (if decide (claim_str c "x-ms-policy-hash" = Some expected) then Ok ()
       else Err (violation "Azure MAA policy hash does not match the pinned policy"));
  nonce ← ok_or (claim_str c "nonce") (violation "MAA JWT is missing its signed nonce");
  _ ← (if decide (nonce = b64url rd) then Ok () else Err (violation "MAA JWT nonce mismatch"));
  if decide ((n ← debuggable_claim qt; claim_bool c n) = Some true) then Err (violation "MAA reports a debug-enabled TEE") else Ok ().

Definition maa_decoding_key (jwk : JwkKey) : result AttestError RsaKey :=
  match x5c jwk with
  | cert :: _ => d ← ok_or (b64_decode cert) (Malformed "x5c base64 decode failed"); Ok (from_rsa_der d)
  | [] =>
      if decide (jwk_n jwk = EmptyString) then Err (Malformed "no key material in JWK")
      else map_err (λ e, Malformed ("JWK RSA parse: " +:+ e)) (from_rsa_components (jwk_n jwk) (jwk_e jwk))
  end.

Definition maa_kid (token : string) : result AttestError string :=
  o ← map_err (λ e, Malformed ("JWT header decode failed: " +:+ e)) (header_kid token);
  kid ← ok_or o (Malformed "missing kid in JWT header");
  if decide (kid = EmptyString) then Err (Malformed "empty kid in JWT header") else Ok kid.

Definition maa_verify_jwt (v : MaaVerifier) (keys : Jwks) (kid token : string) (rd : bytes) (qt : QuoteType) : result AttestError (option bool) :=
  jwk ← find_key keys kid;
  key ← maa_decoding_key jwk;
  c ← ok_or (jwt_decode token key (maa_endpoint v)) SignatureInvalid;
  _ ← maa_validate_claims v c rd qt;
  Ok (n ← debuggable_claim qt; claim_bool c n).

(** [verify]: [token] is the service's answer to the quote, [fetched] its key set. *)
Definition maa_verify (v : MaaVerifier) (debug_name : QuoteType → string) (token : result AttestError string) (now : Z)
    (fetched : result AttestError Jwks) (cache : JwksCache) (q : AttestQuote) (rd : bytes) : result AttestError VerificationResult * JwksCache :=
  match debuggable_claim (quote_type q) with
  | None => (Err (violation "MAA verifier does not support quote type"), cache)
  | Some _ =>
      if decide (qudd q = rd) then
        match (token ≫= λ t, kid ← maa_kid t; Ok (t, kid)) with
        | Err e => (Err e, cache)
        | Ok (t, kid) =>
            let '(keys, cache') := cached_jwks cache now fetched in
            (ks ← keys;
             dbg ← maa_verify_jwt v ks kid t rd (quote_type q);
             Ok (mk_result None
                   (mk_claims None (Some (debug_name (quote_type q))) (Some "maa-verified"%string) (Some "Microsoft"%string)
                      ((λ b : bool, if b then 1 else 0) <$> dbg) None None None None None)
                   "UpToDate" None None []), cache')
        end
      else (Err (violation "OpenHTTPA QUDD does not match expected report data"), cache)
  end.

Definition nras_validate_endpoint (endpoint : string) : result AttestError () :=
  url ← map_err (λ e, Malformed ("invalid NRAS endpoint: " +:+ e)) (url_parse endpoint);
  if decide (url_scheme url = "https"%string ∧ url_host url = Some "nras.nvidia.com"%string ∧ url_username url = EmptyString ∧
             url_password url = None ∧ url_query url = None ∧ url_fragment url = None ∧
             (url_path url = "/v1"%string ∨ url_path url = "/v1/"%string))
  then Ok () else Err (violation "NVIDIA NRAS endpoint must be https://nras.nvidia.com/v1").

Definition nras_validate_signed_claims (c : JwtClaims) (rd : bytes) : result AttestError () :=
  nonce ← ok_or (claim_str c "nonce") (violation "NVIDIA NRAS response is missing its signed nonce");
  _ ← (if decide (nonce = b64_encode rd) then Ok () else Err (violation "NVIDIA NRAS nonce mismatch"));
  rim ← ok_or (claim_bool c "rim_result") (violation "NVIDIA NRAS response is missing its signed RIM result");
  if (rim : bool) then Ok () else Err (violation "NVIDIA GPU RIM check failed").

Definition nras_verify_jws (endpoint : string) (keys : Jwks) (kid jws : string) (rd : bytes) : result AttestError () :=
  jwk ← find_key keys kid;
  cert ← ok_or (head (x5c jwk)) (Malformed "JWK missing x5c certificate");
  d ← ok_or (b64_decode cert) (Malformed "x5c base64 decode failed");
  c ← ok_or (jwt_decode jws (from_rsa_der d) endpoint) SignatureInvalid;
  nras_validate_signed_claims c rd.

Definition nras_verify (endpoint : string) (jws : result AttestError string) (now : Z) (fetched : result AttestError Jwks)
    (cache : JwksCache) (q : AttestQuote) (rd : bytes) : result AttestError VerificationResult * JwksCache :=
  match (_ ← nras_validate_endpoint endpoint;
         _ ← (if decide (quote_type q = NvidiaGpu) then Ok () else Err (violation "NvidiaRemoteVerifier only supports NvidiaGpu quotes"));
         _ ← (if decide (qudd q = rd) then Ok () else Err (violation "NVIDIA GPU quote QUDD mismatch"));
         t ← jws;
         o ← map_err (λ e, Malformed ("JWS header decode failed: " +:+ e)) (header_kid t);
         kid ← ok_or o (Malformed "missing kid in JWS header");
         Ok (t, kid)) with
  | Err e => (Err e, cache)
  | Ok (t, kid) =>
      let '(keys, cache') := cached_jwks cache now fetched in
      (ks ← keys;
       _ ← nras_verify_jws endpoint ks kid t rd;
       Ok (mk_result None
             (mk_claims None (Some "NVIDIA Hopper GPU"%string) (Some "nras-verified"%string) (Some "NVIDIA"%string) (Some 0) None None None None None)
             "UpToDate" None None []), cache')
  end.

End remote.

(** ** Theorems *)

(** The pins of a verifier admit a report and the certificates that come with it. *)
Record snp_admits `{SevPrim} (v : SevSnpVerifier) (report : SnpReport) (table : list SevSnpCertificate) : Prop := mk_snp_admits {
  sa_measurement : snp_expected_measurement v = Some (rep_measurement report);
  sa_debug : rep_debug_allowed report = true → snp_allow_debug v = true;
  sa_chain : ∃ chain ark trusted, chain_from_cert_table (chain_entries table) = Ok chain ∧ chain_ark_der chain = Ok ark ∧
    trusted_ark_der v = Ok trusted ∧ ark ∈ trusted ∧ chain_verifies chain report = true;
  sa_svn : ∃ svn, snp_min_svn v = Some svn ∧ svn ≤ rep_microcode report;
}.
Lemma snp_verify_iff {HaP : HashPrim} {HxP : HexPrim} {HJ : HclJson} {BJ : BundleJson} {SP : SevPrim} v q rd res :
  snp_verify v q rd = Ok res ↔
  quote_type q = SevSnp ∧ qudd q = rd ∧ format q = SevSnpBundleV1 ∧ collateral_uris q = [] ∧
  ∃ bundle report, snp_from_slice (quote_raw q) = Ok bundle ∧ certificate_table bundle ≠ [] ∧ length (snp_report bundle) = SNP_REPORT_LEN ∧
    report_from_bytes (snp_report bundle) = Ok report ∧ bound_report_data (snp_hcl_runtime_data bundle) (rep_report_data report) rd ∧
    snp_admits v report (certificate_table bundle) ∧ res = snp_result report.
Proof.
  unfold snp_verify, verify_snp_report, check_expected_measurement. split.
  - intros H. inv_checks. match goal with E : _ ∧ _ |- _ => destruct E end. split_and!; [done..|].
    match goal with E : certificate_table _ = _ |- _ => rewrite <-E in * end.
    do 2 eexists. split_and!; try eassumption; try done; [by match goal with E : certificate_table _ = _ |- _ => rewrite E end|by eapply check_binding_Ok|].
    split; [congruence| |by eauto 10|eexists; split; [done|lia]]. intros Hd. rewrite Hd in *. by destruct (snp_allow_debug v).
  - intros (Ht & Hq & Hf & Hc & bundle & report & Hb & Hne & Hl & Hr & Hbd & [Hm Hd (chain & ark & trusted & Hch & Hark & Htr & Hin & Hv) (svn & Hs & Hle)] & ->).
    rewrite Ht, Hq, Hf, Hc, !decide_True by done. rewrite Hb. cbn [map_err mbind result_bind]. destruct (certificate_table bundle) eqn:Htab; [done|]. rewrite <-Htab in *.
    rewrite decide_True by done. rewrite Hr. cbn [map_err mbind result_bind]. apply check_binding_Ok with (m := "SNP report_data mismatch: the embedded nonce does not match the expected value"%string) in Hbd as ->.
    rewrite Hm. cbn [mbind result_bind ok_or]. rewrite decide_True by done. cbn [mbind result_bind].
    assert (rep_debug_allowed report && negb (snp_allow_debug v) = false) as -> by (destruct (rep_debug_allowed report); [by rewrite Hd|done]).
    rewrite Hch. cbn [map_err mbind result_bind]. rewrite Hark. cbn [map_err mbind result_bind]. rewrite Htr. cbn [mbind result_bind].
    rewrite decide_True by done. cbn [mbind result_bind]. rewrite Hv, Hs. cbn [mbind result_bind ok_or]. by rewrite decide_False by lia.
Qed.

(** [C18] What an accepted SEV-SNP quote proves: the report in its bundle is signed by
    a chain that ends in a configured AMD root, carries the expected report data
    (directly or through the paravisor's runtime claims), the pinned launch
    measurement, a microcode version at or above the configured floor, and is not a
    debug report unless those are allowed; the result reports exactly these. *)
Theorem snp_verify_sound {HaP : HashPrim} {HxP : HexPrim} {HJ : HclJson} {BJ : BundleJson} {SP : SevPrim}
    (v : SevSnpVerifier) (q : AttestQuote) (rd : bytes) (res : VerificationResult) :
  snp_verify v q rd = Ok res →
  quote_type q = SevSnp ∧ qudd q = rd ∧
  ∃ bundle report chain ark trusted m svn,
    snp_from_slice (quote_raw q) = Ok bundle ∧ report_from_bytes (snp_report bundle) = Ok report ∧
    bound_report_data (snp_hcl_runtime_data bundle) (rep_report_data report) rd ∧
    snp_expected_measurement v = Some m ∧ rep_measurement report = m ∧
    (rep_debug_allowed report = true → snp_allow_debug v = true) ∧
    chain_from_cert_table (chain_entries (certificate_table bundle)) = Ok chain ∧ chain_ark_der chain = Ok ark ∧
    trusted_ark_der v = Ok trusted ∧ ark ∈ trusted ∧ chain_verifies chain report = true ∧
    snp_min_svn v = Some svn ∧ svn ≤ rep_microcode report ∧ res = snp_result report.
Proof.
  intros (Ht & Hq & _ & _ & bundle & report & Hb & _ & _ & Hr & Hbd & [Hm Hd (chain & ark & trusted & Hc) (svn & Hs & Hle)] & ->)%snp_verify_iff.
  split_and!; [done..|]. exists bundle, report, chain, ark, trusted, (rep_measurement report), svn. naive_solver.
Qed.

Lemma parse_statuses_Ok {DP : DcapPrim} names l : parse_statuses names = Ok l → l = names.
Proof.
  revert l. induction names as [|n names IH]; intros l H; cbn [parse_statuses] in H; inv_checks; [done|]. by f_equal; apply IH.
Qed.
Lemma check_rtmrs_Ok pins actual i p a :
  check_rtmrs pins actual = Ok () → pins !! i = Some (Some p) → actual !! i = Some a → a = p.
Proof.
  revert actual i. induction pins as [|pin pins IH]; intros [|b actual] [|i] H Hp Ha; try done; cbn [check_rtmrs] in H.
  - cbn in Hp, Ha. simplify_eq. by destruct (decide (p = a)).
  - destruct pin as [p'|]; [destruct (decide (p' = b)); [|done]|]; by eapply IH.
Qed.

(** The policy admits a quote, with what Intel's verification says of it. *)
Definition dcap_policy (policy : TdxPolicy) (now : Z) : QuotePolicy :=
  mk_quote_policy now (allow_dynamic_platform policy) (allow_cached_keys policy) (allow_smt policy) (allowed_tcb_statuses policy).
Record tdx_admits `{HashPrim} `{HexPrim} `{DcapPrim} (policy : TdxPolicy) (quote : bytes) (collateral : Collateral) (now : Z) (claims : DcapClaims) (td : TDReport10) : Prop := mk_tdx_admits {
  ta_root : hex_encode (sha256 intel_root_ca) = INTEL_SGX_ROOT_CA_SHA256;
  ta_statuses : parse_statuses (allowed_tcb_statuses policy) = Ok (allowed_tcb_statuses policy);
  ta_verified : dcap_verify intel_root_ca (tdx_allow_debug policy) (dcap_policy policy now) quote collateral now = Ok claims;
  ta_type : dc_tee_type claims = 129;
  ta_report : dc_td10 claims = Some td;
  ta_debug : td_debug td = true → tdx_allow_debug policy = true;
  ta_mrtd : mr_td td ∈ expected_mrtds policy;
  ta_rtmrs : check_rtmrs (expected_rtmrs policy) (rt_mrs td) = Ok ();
}.
Lemma tdx_bundle_iff {HaP : HashPrim} {HxP : HexPrim} {HJ : HclJson} {DP : DcapPrim} bundle collateral expected now policy claims td :
  verify_tdx_bundle_with_collateral bundle collateral expected now policy = Ok (claims, td) ↔
  tdx_admits policy (tdx_quote bundle) collateral now claims td ∧ bound_report_data (tdx_hcl_runtime_data bundle) (td_report_data td) expected.
Proof.
  unfold verify_tdx_bundle_with_collateral. split.
  - intros H. inv_checks. simplify_eq.
    match goal with E : parse_statuses _ = Ok _ |- _ => pose proof E as Hs; apply parse_statuses_Ok in E as -> end.
    split; [split; try done|by eapply check_binding_Ok]; [intros Hd; rewrite Hd in *; by destruct (tdx_allow_debug policy)|].
    by match goal with E : expected_mrtds _ = _ |- _ => rewrite E end.
  - intros [[Hroot Hs Hv Ht Hr Hd Hm Hp] Hb]. rewrite decide_True by done. cbn [mbind result_bind].
    destruct (expected_mrtds policy) eqn:He; [by apply elem_of_nil in Hm|]. rewrite <-He in *. cbn [mbind result_bind]. rewrite Hs. cbn [mbind result_bind]. fold (dcap_policy policy now).
    rewrite Hv. cbn [map_err mbind result_bind]. rewrite decide_True by done. cbn [mbind result_bind]. rewrite Hr. cbn [ok_or mbind result_bind].
    assert (td_debug td && negb (tdx_allow_debug policy) = false) as -> by (destruct (td_debug td); [by rewrite Hd|done]). cbn [mbind result_bind].
    apply check_binding_Ok with (m := "TDX REPORTDATA does not match the expected report data"%string) in Hb as ->. cbn [mbind result_bind].
    rewrite decide_True by done. cbn [mbind result_bind]. by rewrite Hp.
Qed.

Lemma verify_tdx_bundle_Ok {HaP : HashPrim} {HxP : HexPrim} {HJ : HclJson} {DP : DcapPrim} {DL : DcapLaws DP}
    bundle collateral expected now policy claims td :
  verify_tdx_bundle_with_collateral bundle collateral expected now policy = Ok (claims, td) →
  dcap_verify intel_root_ca (tdx_allow_debug policy) (dcap_policy policy now) (tdx_quote bundle) collateral now = Ok claims ∧ dc_tee_type claims = 129 ∧
  dc_td10 claims = Some td ∧ hex_encode (sha256 intel_root_ca) = INTEL_SGX_ROOT_CA_SHA256 ∧
  (dc_tcb_status claims = "UpToDate"%string ∨ dc_tcb_status claims ∈ allowed_tcb_statuses policy) ∧
  now ≤ dc_earliest_expiration_date claims ∧ mr_td td ∈ expected_mrtds policy ∧
  (∀ i p a, expected_rtmrs policy !! i = Some (Some p) → rt_mrs td !! i = Some a → a = p) ∧
  (td_debug td = true → tdx_allow_debug policy = true) ∧
  bound_report_data (tdx_hcl_runtime_data bundle) (td_report_data td) expected.
Proof.
  intros [[Hroot Hs Hv Ht Hr Hd Hm Hp] Hb]%tdx_bundle_iff. pose proof Hv as [Hst Hexp]%dcap_strict. split_and!; try done.
  intros i p a. by apply check_rtmrs_Ok.
Qed.

(** [C19] What an accepted TDX quote proves: the claims are what Intel's verification
    returned for this quote and the collateral fetched for it, under the pinned root and the
    operator's policy at this time; they are of a trust domain, the TCB status is
    [UpToDate] or one the operator listed, no collateral had expired, the measurement is in
    the allow-list, every pinned runtime register matches, debug domains are refused unless
    allowed, and the report data stands for the expected one. *)
Theorem tdx_verify_sound {HaP : HashPrim} {HxP : HexPrim} {HJ : HclJson} {BJ : BundleJson} {DP : DcapPrim} {DL : DcapLaws DP}
    (policy : TdxPolicy) (fetched : bytes → result string Collateral) (now : option Z) (q : AttestQuote) (rd : bytes) (res : VerificationResult) :
  tdx_verify policy fetched now q rd = Ok res →
  quote_type q = Tdx ∧ qudd q = rd ∧
  ∃ bundle collateral t claims td,
    now = Some t ∧ decode_tdx_bundle q = Ok bundle ∧ fetched (tdx_quote bundle) = Ok collateral ∧
    hex_encode (sha256 intel_root_ca) = INTEL_SGX_ROOT_CA_SHA256 ∧
    dcap_verify intel_root_ca (tdx_allow_debug policy) (dcap_policy policy t) (tdx_quote bundle) collateral t = Ok claims ∧
    dc_tee_type claims = 129 ∧ dc_td10 claims = Some td ∧
    (dc_tcb_status claims = "UpToDate"%string ∨ dc_tcb_status claims ∈ allowed_tcb_statuses policy) ∧
    t ≤ dc_earliest_expiration_date claims ∧ mr_td td ∈ expected_mrtds policy ∧
    (∀ i p a, expected_rtmrs policy !! i = Some (Some p) → rt_mrs td !! i = Some a → a = p) ∧
    (td_debug td = true → tdx_allow_debug policy = true) ∧
    bound_report_data (tdx_hcl_runtime_data bundle) (td_report_data td) rd ∧
    res = tdx_result claims td t.
Proof.
  unfold tdx_verify. intros H. inv_checks.
  match goal with E : verify_tdx_bundle_with_collateral _ _ _ _ _ = Ok ?p |- _ => destruct p as [claims td]; apply verify_tdx_bundle_Ok in E end.
  inv_ok. split; [|split; [done|]].
  - match goal with E : decode_tdx_bundle _ = Ok _ |- _ => unfold decode_tdx_bundle in E; by destruct (decide (quote_type q = Tdx)) end.
  - do 5 eexists. split; [done|]. split; [eassumption|]. split; [eassumption|]. naive_solver.
Qed.

(** Runtime claims bind one report data: what the paravisor signed cannot be read as
    two different ones. *)
Theorem hcl_binding_unique {HaP : HashPrim} {HxP : HexPrim} {HL : HexLaws HxP} {HJ : HclJson} (embedded embedded' runtime rd rd' : bytes) :
  verify_azure_hcl_binding embedded runtime rd = Ok () → verify_azure_hcl_binding embedded' runtime rd' = Ok () →
  to_lower <$> as_bytes (hex_encode rd) = to_lower <$> as_bytes (hex_encode rd').
Proof.
  intros (_ & u & Hu & Hr)%hcl_binding_Ok (_ & u' & Hu' & Hr')%hcl_binding_Ok. rewrite Hu in Hu'. injection Hu' as <-.
  unfold eq_ignore_ascii_case in Hr, Hr'. apply bool_decide_eq_true in Hr, Hr'. congruence.
Qed.

(** What an MAA verdict rests on: a token whose signature, issuer and expiry
    [jsonwebtoken] checked with the key the service published under the token's key
    identifier, whose signed nonce is the report data and whose policy hash is the
    pinned one, and which does not report a debuggable enclave. *)
Theorem maa_verify_sound {JP : JwtPrim} {BP : Base64Prim} (b64url : bytes → string) (v : MaaVerifier) (debug_name : QuoteType → string)
    token now fetched cache cache' (q : AttestQuote) (rd : bytes) res :
  maa_verify b64url v debug_name token now fetched cache q rd = (Ok res, cache') →
  qudd q = rd ∧ ∃ n t kid keys jwk key c,
    debuggable_claim (quote_type q) = Some n ∧ token = Ok t ∧ header_kid t = Ok (Some kid) ∧
    (fetched = Ok keys ∨ ∃ expiry, cache = Some (expiry, keys) ∧ now < expiry) ∧
    jwk ∈ keys ∧ key_id jwk = kid ∧ maa_decoding_key jwk = Ok key ∧ jwt_decode t key (maa_endpoint v) = Some c ∧
    claim_str c "x-ms-policy-hash" = maa_policy_hash v ∧ maa_policy_hash v ≠ None ∧ claim_str c "nonce" = Some (b64url rd) ∧
    claim_bool c n ≠ Some true.
Proof.
  unfold maa_verify. destruct (debuggable_claim _) as [n|] eqn:Hn; [|done]. destruct (decide (qudd q = rd)) as [Hq|]; [|done].
  destruct (token ≫= _) as [[t kid]|] eqn:Ht; [|done]. destruct (cached_jwks cache now fetched) as [keys c1] eqn:Hc.
  intros H. injection H as H <-. unfold maa_kid, maa_verify_jwt, find_key in *. inv_checks. simplify_eq.
  unfold maa_validate_claims in *. inv_checks. simplify_eq. split; [done|]. rewrite Hn in *. cbn [mbind option_bind] in *.
  match goal with E : head _ = Some _ |- _ => apply head_filter_Some in E as (l1 & l2 & -> & _ & Hk) end.
  do 7 eexists. split_and!; try eassumption; try done.
  - unfold cached_jwks in Hc. destruct cache as [[expiry ks]|]; [destruct (decide (now < expiry))|]; [|destruct fetched..]; simplify_eq; eauto.
  - set_solver.
  - congruence.
  - congruence.
Qed.

(** Collateral is fetched only over HTTPS (or from the loopback address) from the
    allow-listed domains, and never more than a megabyte is kept. *)
Theorem fetch_safe {UP : UrlPrim} (domains : list string) (answer : Url → HttpAnswer) (uri : string) (b : bytes) :
  fetch domains answer uri = Ok b →
  ∃ url, url_parse uri = Ok url ∧ (url_scheme url = "https"%string ∨ url_host url = Some "127.0.0.1"%string) ∧
    (∀ host, url_host url = Some host → domain_allowed domains host = true) ∧ Z.of_nat (length b) ≤ MAX_COLLATERAL_SIZE.
Proof.
  assert (∀ chunks body b, Z.of_nat (length body) ≤ MAX_COLLATERAL_SIZE → read_chunks body chunks = Ok b →
    Z.of_nat (length b) ≤ MAX_COLLATERAL_SIZE) as Hchunks.
  { clear. induction chunks as [|c chunks IH]; intros body b Hb H; cbn [read_chunks] in H; [by inv_ok|].
    case_decide; [done|]. eapply IH; [|exact H]. rewrite length_app. lia. }
  unfold fetch. intros H. inv_checks.
  match goal with E : url_parse uri = Ok ?u |- _ => exists u; rename u into url end.
  match goal with E : (let '(_, _) := ?p in _) = Ok _ |- _ => destruct p as [[status len] chunks] end.
  inv_checks. split_and!; [done| | |].
  - match goal with E : ¬ (_ ∧ _) |- _ => apply not_and_r in E as [?|?] end; [left|right]; by apply dec_stable.
  - intros host Hh. rewrite Hh in *. by destruct (domain_allowed domains host).
  - eapply Hchunks; [|eassumption]. done.
Qed.

(** The TPM verifier does not depend on the signature: whatever the quote's bytes
    and whatever the signature check says, a TPM quote whose first collateral address
    can be fetched is accepted. *)
Theorem tpm_ignores_signature {UP : UrlPrim} (ecdsa_verify : bytes → bytes → bytes → bool) (domains : list string)
    (answer : Url → HttpAnswer) (q : AttestQuote) (uri : string) (uris : list string) (aik rd : bytes) :
  quote_type q = Tpm → collateral_uris q = uri :: uris → fetch domains answer uri = Ok aik →
  ∃ res, tpm_verify ecdsa_verify domains answer q rd = Ok res ∧ tcb_status res = "UpToDate"%string.
Proof.
  intros Ht Hu Hf. unfold tpm_verify. rewrite decide_True by done. rewrite Hu, Hf. cbn [map_err mbind result_bind].
  destruct (ecdsa_verify _ _ _); by eexists.
Qed.

(** ** Quotes of clients *)

(** A verifier that insists on the quote's user data. *)
Definition checks_qudd (v : QuoteVerifier) : Prop := ∀ q rd, qudd q ≠ rd → ∃ e, v q rd = Err e.

Lemma snp_checks_qudd {HaP : HashPrim} {HxP : HexPrim} {HJ : HclJson} {BJ : BundleJson} {SP : SevPrim} v : checks_qudd (snp_verify v).
Proof. intros q rd Hne. unfold snp_verify, verify_snp_report. destruct (decide (quote_type q = SevSnp)); [|by eexists]. destruct (decide (qudd q = rd)); [done|]. by eexists. Qed.
Lemma tdx_checks_qudd {HaP : HashPrim} {HxP : HexPrim} {HJ : HclJson} {BJ : BundleJson} {DP : DcapPrim} policy fetched now :
  checks_qudd (tdx_verify policy fetched now).
Proof. intros q rd Hne. unfold tdx_verify. destruct (decide (qudd q = rd)); [done|]. by eexists. Qed.
Lemma nvidia_checks_qudd mock_debug : checks_qudd (nvidia_verify mock_debug).
Proof. intros q rd Hne. unfold nvidia_verify. destruct (decide (quote_type q = NvidiaGpu)); [|by eexists]. destruct (decide (qudd q = rd)); [done|]. by eexists. Qed.
Lemma maa_checks_qudd {JP : JwtPrim} {BP : Base64Prim} b64url v debug_name token now fetched cache :
  checks_qudd (λ q rd, (maa_verify b64url v debug_name token now fetched cache q rd).1).
Proof.
  intros q rd Hne. unfold maa_verify. destruct (debuggable_claim _); [|by eexists]. destruct (decide (qudd q = rd)); [done|]. by eexists.
Qed.
Lemma nras_checks_qudd {JP : JwtPrim} {BP : Base64Prim} {UP : UrlPrim} endpoint jws now fetched cache :
  checks_qudd (λ q rd, (nras_verify endpoint jws now fetched cache q rd).1).
Proof.
  intros q rd Hne. unfold nras_verify. destruct (nras_validate_endpoint endpoint) as [[]|]; [|by eexists].
  cbn [mbind result_bind]. destruct (decide (quote_type q = NvidiaGpu)); [|by eexists]. cbn [mbind result_bind].
  destruct (decide (qudd q = rd)); [done|]. by eexists.
Qed.

Lemma appraise_first_fails `{DF : DebugFmt} x now verify rd composite q qs e :
  verify q rd = Err e → ∃ e', appraise_all x now verify rd composite (q :: qs) = Err e'.
Proof. intros Hv. cbn [appraise_all]. unfold appraise. rewrite Hv. by eexists. Qed.

(** A client cannot attest itself to a server whose verifier checks the quote's
    user data, as those for SEV-SNP, TDX, NVIDIA and Azure MAA do: the user data does
    not travel in the handshake's headers and the server does not restore it, so every
    handshake request that carries a quote is refused and no session is registered. *)
Theorem client_quotes_refused {HJ : HeaderJson} {AP : AeadPrim} {HaP : HashPrim} {HL : HashLaws HaP} {HP : HkdfPrim} {MP : HmacPrim}
    {KP : KexPrim} {DF : DebugFmt} {SJ : HandshakeJson} (allow : option string) (env : ServerEnv) (now : option Z)
    (st : AtHsHandlerState) (h : AtHsRequestHeaders) (v : QuoteVerifier) (resp : HandlerResponse) (r : AtbRegistry.t) :
  verifier st = Some v → checks_qudd v → h_client_quotes h ≠ [] →
  aths_handler env now st (wire_request allow h) = Returns (resp, r) →
  r = registry st ∧ match resp with Attest _ _ _ _ _ => False | _ => True end.
Proof.
  intros Hv Hc Hq [[-> H]|H]%aths_handler_cases.
  { split; [done|]. by destruct H as [[-> _]|(code & -> & _)]. }
  exfalso. destruct H as (share & c & suite & version & sshare & res & t & _ & _ & _ & _ & Hex & _).
  apply execute_server_Ok in Hex as (kem & ss & _ & _ & _ & _ & _ & _ & Hver & _).
  unfold verify_client_quotes in Hver. cbn [client_quotes wire_request h_client_quotes h_random client_random client_challenge client_share] in Hver.
  apply bind_Ok in Hver as ([] & _ & Hver). rewrite Hv in Hver.
  destruct (h_client_quotes h) as [|q qs]; [done|]. rewrite fmap_cons in Hver. cbn [ok_or mbind result_bind] in Hver.
  destruct (Hc (wire_quote q) (client_report_data (h_random h) c share)) as [e He].
  { cbn [wire_quote qudd]. intros Heq. apply (f_equal length) in Heq. unfold client_report_data in Heq.
    by rewrite sha512_length in Heq. }
  destruct (appraise_first_fails (executor st) (env_now_secs env) v (client_report_data (h_random h) c share) None _
    (wire_quote <$> qs) e He) as [e' He']. by rewrite He' in Hver.
Qed.

(** ** Concrete runs *)

Module ToyVerifiers.

(** A vendor crate that reads a fixed report, and a chain that is its root. *)
#[global] Instance sev : SevPrim := {|
  SnpReport := bytes;
  report_from_bytes b := Ok (take 4 b);
  rep_report_data _ := as_bytes "nonce";
  rep_measurement r := r;
  rep_debug_allowed _ := false;
  rep_microcode _ := 7;
  Chain := bytes;
  chain_from_cert_table l := match l with (_, d) :: _ => Ok d | [] => Err "empty"%string end;
  chain_ark_der c := Ok c;
  chain_verifies _ _ := true;
  builtin_arks := [Ok (as_bytes "milan"); Ok (as_bytes "genoa")];
  certificate_der b := Ok b;
  read_file _ := Err "no file"%string;
|}.
#[global] Instance bundles : BundleJson := {|
  snp_to_vec _ := None;
  snp_from_slice b := Ok (mk_snp_bundle (as_bytes "mark" ++ replicate 1180 NUL) [mk_cert Ark b] None);
  tdx_to_vec _ := None;
  tdx_from_slice b := Ok (mk_tdx_bundle b None);
|}.
#[global] Instance hcl : HclJson := {| hcl_user_data _ := Ok None |}.
#[global] Instance hash : HashPrim := {|
  sha256 _ := as_bytes INTEL_SGX_ROOT_CA_SHA256; sha384 _ := []; sha512 _ := [];
|}.
#[global] Instance hex : HexPrim := {| hex_decode s := Some (as_bytes s); hex_encode := string_of_list_ascii |}.

Definition td : TDReport10 :=
  mk_td [] [] [] (replicate 8 NUL) [] (as_bytes "mrtd") [] [] [] [as_bytes "r0"; as_bytes "r1"; as_bytes "r2"; as_bytes "r3"]
    (as_bytes "nonce").
#[global] Instance dcap : DcapPrim := {|
  Collateral := unit;
  tcb_status_known _ := true;
  dcap_verify _ _ pol _ _ _ := Ok (mk_dcap_claims 129 (Some td) "UpToDate" 4 [] (qp_now pol + 60) 0);
  intel_root_ca := [];
  report_to_vec _ _ := None;
|}.
#[global] Instance dcap_laws : DcapLaws dcap.
Proof. constructor. intros root dbg pol q col now c [= <-]. cbn. split; [by left|lia]. Qed.

Definition snp_verifier : SevSnpVerifier := snp_with_min_svn (snp_with_expected_measurement snp_new (as_bytes "mark")) 5.
Definition snp_quote : AttestQuote := mk_quote SevSnp SevSnpBundleV1 (as_bytes "genoa") (as_bytes "nonce") [].
Definition tdx_policy : TdxPolicy := mk_tdx_policy [] [as_bytes "mrtd"] [None; Some (as_bytes "r1"); None; None] false false false false.
Definition tdx_quote : AttestQuote := mk_quote Tdx TdxBundleV1 [] (as_bytes "nonce") [].
Definition gpu_quote : AttestQuote := mk_quote NvidiaGpu Raw NVIDIA_SIM (as_bytes "nonce") [].

End ToyVerifiers.

Lemma snp_verify_sound_witness :
  ∃ res trusted, snp_verify ToyVerifiers.snp_verifier ToyVerifiers.snp_quote (as_bytes "nonce") = Ok res ∧
    trusted_ark_der ToyVerifiers.snp_verifier = Ok trusted ∧ as_bytes "genoa" ∈ trusted.
Proof.
  eexists. destruct (snp_verify_sound ToyVerifiers.snp_verifier ToyVerifiers.snp_quote (as_bytes "nonce")
    (snp_result (SP := ToyVerifiers.sev) (as_bytes "mark"))) as (_ & _ & bundle & report & chain & ark & trusted & m & svn & Hb & _ & _ & _ & _ & _ & Hc & Ha & Ht & Hin & _).
  - vm_compute. reflexivity.
  - exists trusted. split; [vm_compute; reflexivity|]. split; [exact Ht|].
    injection Hb as <-. cbn in Hc. injection Hc as <-. cbn in Ha. by injection Ha as <-.
Defined.

Lemma tdx_verify_sound_witness :
  ∃ res, tdx_verify (DP := ToyVerifiers.dcap) ToyVerifiers.tdx_policy (λ _, Ok ()) (Some 1000) ToyVerifiers.tdx_quote (as_bytes "nonce") = Ok res ∧
    measurement res = Some "mrtd"%string.
Proof.
  destruct (tdx_verify (DP := ToyVerifiers.dcap) ToyVerifiers.tdx_policy (λ _, Ok ()) (Some 1000) ToyVerifiers.tdx_quote (as_bytes "nonce"))
    as [res|] eqn:Hrun; [|vm_compute in Hrun; discriminate Hrun].
  exists res. split; [reflexivity|].
  destruct (tdx_verify_sound (DP := ToyVerifiers.dcap) _ _ _ _ _ _ Hrun)
    as (_ & _ & bundle & col & t & claims & td & _ & _ & _ & _ & _ & _ & _ & _ & _ & Hin & _ & _ & _ & ->).
  apply list_elem_of_singleton in Hin. cbn. rewrite Hin. reflexivity.
Defined.

Lemma client_quotes_refused_witness :
  let st := mk_handler Demo.executor AtbRegistry.new Demo.generate_quotes (Some (nvidia_verify true)) None 3600 (as_bytes "k") None None in
  let h := mk_aths_headers [X25519MlKem768Aes256GcmSha384] (replicate 32 NUL) [V2] (as_bytes "{}") EmptyString New true false
             [ToyVerifiers.gpu_quote] (Some ToyHandler.challenge) [] None None None in
  is_ok (nvidia_verify true ToyVerifiers.gpu_quote (as_bytes "nonce")) = true ∧
  ∃ resp r, aths_handler (AP := Toy.aead) (HaP := Toy.hash) (HP := Toy.hkdf) (MP := Toy.hmac) (KP := ToyKex.prim) (DF := Demo.debug)
              (HJ := ToyHandler.json) Demo.env (Some 1010) st (wire_request None h) = Returns (resp, r) ∧ r = AtbRegistry.new.
Proof.
  cbv zeta. split; [vm_compute; reflexivity|].
  destruct (aths_handler _ _ _ _) as [[resp r]|] eqn:Hrun; [|vm_compute in Hrun; discriminate Hrun].
  exists resp, r. split; [reflexivity|].
  refine (proj1 (client_quotes_refused (AP := Toy.aead) (HaP := Toy.hash) (HP := Toy.hkdf) (MP := Toy.hmac) (KP := ToyKex.prim)
    (DF := Demo.debug) (SJ := ToyHandler.json) (HL := Toy.hash_laws) None Demo.env (Some 1010) _ _ (nvidia_verify true) resp r _ _ _ Hrun)).
  - done.
  - apply nvidia_checks_qudd.
  - done.
Defined.
