(* ===== verification/Hardware.v ===== *)
(** * Hardware providers

    From [crates/openhttpa-tee/src]: the providers of Intel TDX ([tdx.rs]), AMD SEV-SNP
    ([sev_snp.rs]), SGX, TrustZone, TPM, AWS Nitro and NVIDIA GPUs, the two that speak to the
    paravisor of Azure ([azure_vtpm.rs], [azure_tdx_vtpm.rs]), the fallback hooks
    ([telemetry.rs]) and the collateral cache ([collateral.rs]).

    Devices, SDKs and services are the class [Platform]: what they answer during one call.
    [hardware_ops] is the provider of each kind that [Tee.detect_best_provider] selects, and
    [hardware_available] what it asks for. *)

From S2P Require Import Prelude Crypto Aead Proto Attestation KeyExchange KeySchedule Session Handshake Tee Http Ahl Trailers Sfv Provenance Headers.
From S2P Require Import Codec Registry Middleware Handlers Verifiers.
From stdpp Require Import options.

#[local] Open Scope Z_scope.

(** ** The platform *)

(** The certificate types of the [sev] crate. *)
Inductive CertType : Type := CertARK | CertASK | CertVCEK | CertVLEK | CertCRL | CertEmpty | CertOTHER (guid : string).
Inductive ReportType : Type := ReportTdx | ReportSnp.
#[export] Instance ReportType_eq_dec : EqDecision ReportType.
Proof. solve_decision. Defined.
Inductive NsmResponse : Type := NsmAttestation (document : bytes) | NsmError (code : string) | NsmOther.

Class Platform : Type := {
  target_linux : bool;
  target_unix : bool;
  path_exists : string → bool;
  env_var_os : string → option string;
  (** [tdx_attest] *)
  get_tdx_quote : string → result string bytes;
  (** [sev]: the firmware device and its extended report *)
  firmware_open : result string ();
  get_ext_report : bytes → result string (bytes * option (list (CertType * bytes)));
  (** the NSM driver *)
  nsm_init : Z;
  nsm_process_request : Z → bytes → NsmResponse;
  (** [az_cvm_vtpm], [az_tdx_vtpm] and [az_snp_vtpm] *)
  vtpm_get_report : result string bytes;
  vtpm_get_report_with_report_data : bytes → result string bytes;
  HclReport : Type;
  hcl_new : bytes → result string HclReport;
  hcl_report_type : HclReport → ReportType;
  hcl_var_data : HclReport → bytes;
  snp_report_size : nat;
  TdReport : Type;
  td_try_from : HclReport → result string TdReport;
  td_reportdata : TdReport → bytes;
  imds_get_td_quote : TdReport → result string bytes;
  imds_get_certs : result string ((*vcek*) string * (*amd_chain*) string);
  X509 : Type;
  vcek_from_pem : string → result string X509;
  build_cert_chain : string → result string ((*ask*) X509 * (*ark*) X509);
  x509_to_der : X509 → result string bytes;
  (** the socket of the NVIDIA agent: connecting, its timeouts, each write, and what can be
      read after a line was written: bytes, then an error or the end *)
  socket_connect : string → result string ();
  socket_timeouts : result string ();
  socket_write : bytes → result string ();
  socket_reply : bytes → bytes * option string;
}.

(** [serde_json] on the two messages of the agent; the version is a [u32]. *)
Class AgentJson : Type := {
  agent_request_to_writer : (*version*) Z → (*report_data_hex*) string → bytes;
  agent_response_from_slice : bytes → result string (Z * string);
}.

(** A provider from an adapter's evidence: the impls of [TeeProvider] all read alike. *)
Definition adapter `{BundleJson} (qt : QuoteType) (evidence : bytes → result TeeProviderError AttestationEvidence) (available : bool) : TeeOps :=
  provider qt (λ rd, e ← evidence rd; Ok (to_quote e rd)) available.
Definition with_derive_key (p : TeeOps) (derive : bytes → result TeeProviderError bytes) : TeeOps :=
  mk_tee_ops (op_quote_type p) (op_generate_quote p) (op_generate_quotes p) (op_is_available p) (op_seal_data p) (op_unseal_data p) derive.

Section providers.
Context {PF : Platform} {HaP : HashPrim} {HxP : HexPrim} {BJ : BundleJson} {AJ : AgentJson}.

(** ** Azure *)

Definition HCL_HEADER_SIZE : nat := 32.
Definition snp_report_bytes (hcl_bytes : bytes) : result TeeProviderError bytes :=
  if decide (HCL_HEADER_SIZE + snp_report_size ≤ length hcl_bytes)%nat then Ok (take snp_report_size (drop HCL_HEADER_SIZE hcl_bytes))
  else Err (QuoteGeneration "HCL report too short for an SNP report").

Definition fetch_certificates : result TeeProviderError (list SevSnpCertificate) :=
  '(vcek, amd_chain) ← map_err (λ e, QuoteGeneration ("IMDS THIM request failed: " +:+ e)) imds_get_certs;
  vcek ← map_err (λ e, QuoteGeneration ("invalid VCEK: " +:+ e)) (vcek_from_pem vcek);
  '(ask, ark) ← map_err (λ e, QuoteGeneration ("invalid AMD chain: " +:+ e)) (build_cert_chain amd_chain);
  d0 ← map_err QuoteGeneration (x509_to_der vcek);
  d1 ← map_err QuoteGeneration (x509_to_der ask);
  d2 ← map_err QuoteGeneration (x509_to_der ark);
  Ok [mk_cert Vcek d0; mk_cert Ask d1; mk_cert Ark d2].

Definition azure_vtpm_evidence (rd : bytes) : result TeeProviderError AttestationEvidence :=
  _ ← (if decide (length rd = 64%nat) then Ok () else Err (QuoteGeneration "report_data must be 64 bytes"));
  hcl_bytes ← map_err (λ e, QuoteGeneration ("vTPM HCL report failed: " +:+ e)) (vtpm_get_report_with_report_data rd);
  report ← snp_report_bytes hcl_bytes;
  hcl ← map_err (λ e, QuoteGeneration ("invalid HCL report: " +:+ e)) (hcl_new hcl_bytes);
  _ ← (if decide (hcl_report_type hcl = ReportSnp) then Ok () else Err (QuoteGeneration "Azure HCL report is not an SEV-SNP report"));
  table ← fetch_certificates;
  Ok (SevSnpEvidence report table None (Some (hcl_var_data hcl))).

Definition check_local_binding (td : TdReport) (var_data : bytes) : result TeeProviderError () :=
  if decide (take 32 (td_reportdata td) = sha256 var_data) then Ok ()
  else Err (QuoteGeneration "TD report REPORTDATA does not bind SHA-256(HCL runtime data)").

Definition azure_tdx_evidence (rd : bytes) : result TeeProviderError AttestationEvidence :=
  _ ← (if decide (length rd = 64%nat) then Ok () else Err (QuoteGeneration "report_data must be 64 bytes"));
  hcl_bytes ← map_err (λ e, QuoteGeneration ("vTPM HCL report failed: " +:+ e)) (vtpm_get_report_with_report_data rd);
  hcl ← map_err (λ e, QuoteGeneration ("invalid HCL report: " +:+ e)) (hcl_new hcl_bytes);
  _ ← (if decide (hcl_report_type hcl = ReportTdx) then Ok () else Err (QuoteGeneration "Azure HCL report is not an Intel TDX report"));
  td ← map_err (λ e, QuoteGeneration ("invalid TD report: " +:+ e)) (td_try_from hcl);
  _ ← check_local_binding td (hcl_var_data hcl);
  quote ← map_err (λ e, QuoteGeneration ("Azure IMDS /acc/tdquote failed: " +:+ e)) (imds_get_td_quote td);
  _ ← (match quote with [] => Err (QuoteGeneration "Azure IMDS returned an empty TD quote") | _ => Ok () end);
  Ok (TdxEvidence quote None (Some (hcl_var_data hcl))).

Definition azure_tdx_probe : bool :=
  path_exists "/dev/tpmrm0" &&
  match vtpm_get_report with
  | Ok b => match hcl_new b with Ok hcl => bool_decide (hcl_report_type hcl = ReportTdx) | Err _ => false end
  | Err _ => false
  end.
(** [is_available] with its [OnceLock]: the answer and the cell. *)
Definition azure_tdx_available (cell : option bool) : bool * option bool :=
  match cell with Some a => (a, cell) | None => (azure_tdx_probe, Some azure_tdx_probe) end.
Definition AzureTdxVtpmTeeProvider (cell : option bool) : TeeOps :=
  with_derive_key (adapter Tdx azure_tdx_evidence (azure_tdx_available cell).1)
    (λ _, Err (NotAvailable "Azure TDX CVMs expose no guest sealing-key primitive through the paravisor")).

(** ** Host providers *)

Definition tdx_evidence (b : Build) (rd : bytes) : result TeeProviderError AttestationEvidence :=
  if feature b "tdx" then
    quote ← map_err QuoteGeneration (get_tdx_quote (hex_encode rd));
    Ok (TdxEvidence quote None None)
  else Err (NotAvailable "TDX feature not enabled at compile time").
Definition tdx_available (b : Build) : bool :=
  feature b "tdx" && (path_exists "/dev/tdx-guest" || path_exists "/dev/tdx_guest" || path_exists "/dev/tdx-attest").
Definition TdxTeeProvider (b : Build) : TeeOps :=
  with_derive_key (adapter Tdx (tdx_evidence b) (tdx_available b))
    (λ _, if feature b "tdx" then Err (Enclave "TDX dynamic key derivation requires TDX SDK C-FFI linking.")
          else Err (NotAvailable "TDX feature not enabled at compile time")).

Definition snp_cert_type (t : CertType) : SevSnpCertificateType :=
  match t with
  | CertARK => Ark | CertASK => Ask | CertVCEK => Vcek | CertVLEK => Vlek | CertCRL => Crl
  | CertEmpty => OtherCert "empty" | CertOTHER guid => OtherCert guid
  end.
Definition snp_evidence (b : Build) (rd : bytes) : result TeeProviderError AttestationEvidence :=
  if feature b "sev_snp" && target_linux then
    match firmware_open with
    | Err e =>
        if feature b "azure_vtpm" && path_exists "/dev/tpmrm0" then azure_vtpm_evidence rd else Err (NotAvailable e)
    | Ok _ =>
        '(report, table) ← map_err QuoteGeneration (get_ext_report rd);
        table ← ok_or table (QuoteGeneration "SNP_GET_EXT_REPORT returned no AMD certificate table");
        Ok (SevSnpEvidence report ((λ '(t, d), mk_cert (snp_cert_type t) d) <$> (table : list (CertType * bytes))) None None)
    end
  else Err (NotAvailable "sev_snp feature not supported on this platform or not enabled at compile time").
Definition snp_available (b : Build) : bool :=
  feature b "sev_snp" && target_linux && (is_ok firmware_open || feature b "azure_vtpm" && path_exists "/dev/tpmrm0").
Definition SevSnpTeeProvider (b : Build) : TeeOps := adapter SevSnp (snp_evidence b) (snp_available b).

Definition SgxTeeProvider (b : Build) : TeeOps :=
  with_derive_key
    (provider Sgx
      (λ _, if feature b "sgx" then Err (QuoteGeneration "SGX enclave ECALL stub — wire up your enclave binary")
            else Err (NotAvailable "sgx feature not enabled at compile time"))
      (feature b "sgx" && (path_exists "/dev/sgx_enclave" || path_exists "/dev/isgx")))
    (λ _, if feature b "sgx" then
            Err (Enclave "SGX EGETKEY not available outside of trusted enclave context. Compile with full SGX SDK to link FFI.")
          else Err (NotAvailable "sgx feature not enabled at compile time")).

Definition TrustZoneTeeProvider (b : Build) : TeeOps :=
  provider TrustZone
    (λ _, if feature b "trustzone" then Err (QuoteGeneration "TrustZone TA stub — configure your OP-TEE TA UUID")
          else Err (NotAvailable "trustzone feature not enabled at compile time"))
    (feature b "trustzone" && path_exists "/dev/tee0").

Definition TPM_MOCK : bytes := as_bytes "TPM2.0-PCR-QUOTE-MOCK".
Definition TPM_CERT : string := "https://attestation.example.com/tpm/cert/mock".
Definition tpm_evidence (rd : bytes) : result TeeProviderError AttestationEvidence :=
  Ok (TpmEvidence (TPM_MOCK ++ rd) [] (Some TPM_CERT)).
Definition TpmTeeAdapter : TeeOps :=
  adapter Tpm tpm_evidence (target_linux && (path_exists "/dev/tpm0" || path_exists "/dev/tpmrm0")).

(** What is called on the NSM driver, in order. *)
Inductive NsmCall : Type := NsmInit (fd : Z) | NsmRequest (fd : Z) (user_data : bytes) | NsmExit (fd : Z).
Definition nitro_evidence (b : Build) (rd : bytes) : result TeeProviderError AttestationEvidence * list NsmCall :=
  if feature b "aws_nitro" then
    let fd := nsm_init in
    if decide (fd < 0) then (Err NotInitialised, [NsmInit fd])
    else
      (match nsm_process_request fd rd with
       | NsmAttestation document => Ok (AwsNitroEvidence document)
       | NsmError code => Err (QuoteGeneration ("NSM Error: " +:+ code))
       | NsmOther => Err (QuoteGeneration "Unexpected NSM response")
       end, [NsmInit fd; NsmRequest fd rd; NsmExit fd])
  else (Err (NotAvailable "AWS Nitro feature not enabled at compile time"), []).
Definition AwsNitroTeeProvider (b : Build) : TeeOps :=
  adapter AwsNitro (λ rd, (nitro_evidence b rd).1) (feature b "aws_nitro" && path_exists "/dev/nsm").

(** ** NVIDIA GPUs *)

Definition NVIDIA_SOCKET : string := "OPENHTTPA_NVIDIA_ATTESTATION_SOCKET".
Definition MAX_AGENT_RESPONSE_BYTES : Z := 2 * 1024 * 1024.
Definition NEWLINE : byte := u8_of 10.

Definition parse_agent_response (response : bytes) : result TeeProviderError bytes :=
  _ ← (if decide (MAX_AGENT_RESPONSE_BYTES < Z.of_nat (length response) ∨ last response ≠ Some NEWLINE)
       then Err (QuoteGeneration "NVIDIA SDK agent response exceeded its size limit or was unterminated") else Ok ());
  '(version, quote_hex) ← map_err (λ e, QuoteGeneration ("invalid agent response: " +:+ e)) (agent_response_from_slice response);
  _ ← (if decide (version = 1) then Ok ()
       else Err (TeeConfigError ("unsupported NVIDIA SDK agent protocol version " +:+ pretty.pretty version)));
  quote ← ok_or (hex_decode quote_hex) (QuoteGeneration "invalid quote hex");
  (** the length of a vector fits into 64 bits *)
  _ ← (if decide (quote = [] ∨ MAX_AGENT_RESPONSE_BYTES < Z.of_nat (length quote))
       then Err (QuoteGeneration "NVIDIA SDK agent returned an empty or oversized quote") else Ok ());
  Ok quote.

(** [read_until] of a reader that ends after [limit] bytes: up to the byte, the limit or the
    end, or the error that comes before all of these. *)
Fixpoint read_until (limit : nat) (stop : byte) (data : bytes) (err : option string) : result string bytes :=
  match limit, data with
  | O, _ => Ok []
  | S limit, c :: data => if decide (c = stop) then Ok [c] else rest ← read_until limit stop data err; Ok (c :: rest)
  | S _, [] => match err with Some e => Err e | None => Ok [] end
  end.

Definition fetch_nvidia_quote (rd : bytes) : result TeeProviderError bytes :=
  if target_unix then
    path ← ok_or (env_var_os NVIDIA_SOCKET) (NotAvailable "set OPENHTTPA_NVIDIA_ATTESTATION_SOCKET to the NVIDIA SDK agent socket");
    _ ← map_err (λ e, NotAvailable ("NVIDIA SDK agent unavailable: " +:+ e)) (socket_connect path);
    _ ← map_err (λ e, Driver ("cannot configure agent socket: " +:+ e)) socket_timeouts;
    let request := agent_request_to_writer 1 (hex_encode rd) in
    _ ← map_err (λ e, QuoteGeneration ("cannot encode agent request: " +:+ e)) (socket_write request);
    _ ← map_err (λ e, Driver ("cannot send agent request: " +:+ e)) (socket_write [NEWLINE]);
    let '(data, err) := socket_reply (request ++ [NEWLINE]) in
    response ← map_err (λ e, Driver ("cannot read agent response: " +:+ e)) (read_until (Z.to_nat (MAX_AGENT_RESPONSE_BYTES + 1)) NEWLINE data err);
    parse_agent_response response
  else Err (NotAvailable "the NVIDIA SDK-agent Unix socket is supported only on Unix platforms").

(** [cfg(all(feature = "mock", debug_assertions))] *)
Definition gpu_fixture (b : Build) : bool := feature b "mock" && debug_build b.
Definition simulated_quote (rd : bytes) : bytes :=
  as_bytes "NV-Hopper-RIM-v1" ++ replicate 32 (u8_of 85) ++ replicate 32 (u8_of 119) ++ replicate 32 (u8_of 153) ++
  as_bytes "GPU-H100-ID-80GB-MOCK" ++ as_bytes "||REPORT_DATA:" ++ rd.
Definition gpu_evidence (b : Build) (rd : bytes) : result TeeProviderError AttestationEvidence :=
  if gpu_fixture b then Ok (NvidiaGpuEvidence (simulated_quote rd) (Some "https://attestation.example.com/nvidia/gpu/cert/mock"%string))
  else quote ← fetch_nvidia_quote rd; Ok (NvidiaGpuEvidence quote None).
Definition gpu_available (b : Build) : bool :=
  if gpu_fixture b then path_exists "/dev/nvidiactl" || path_exists "/dev/nvidia0"
  else target_unix && bool_decide (is_Some (env_var_os NVIDIA_SOCKET)) && path_exists "/dev/nvidiactl" && path_exists "/dev/nvidia0".
Definition NvidiaGpuTeeProvider (b : Build) : TeeOps := adapter NvidiaGpu (gpu_evidence b) (gpu_available b).

(** ** The selected provider *)

(** The provider that is made for a kind; the mock is in [Tee]. *)
Definition hardware_ops (b : Build) (k : ProviderKind) : option TeeOps :=
  match k with
  | NvidiaGpuProvider => Some (NvidiaGpuTeeProvider b) | TdxProvider => Some (TdxTeeProvider b)
  | SevSnpProvider => Some (SevSnpTeeProvider b) | AwsNitroProvider => Some (AwsNitroTeeProvider b)
  | SgxProvider => Some (SgxTeeProvider b) | TpmProvider => Some TpmTeeAdapter
  | TrustZoneProvider => Some (TrustZoneTeeProvider b) | MockProvider => None
  end.
Definition hardware_available (b : Build) (k : ProviderKind) : bool :=
  match hardware_ops b k with Some p => op_is_available p | None => false end.

End providers.

(** ** Fallback hooks *)

(** [FALLBACK_HOOKS]: the hooks in the order of registration, each what it does with a reason. *)
Definition Hooks (W : Type) : Type := list (string → W → W).
Definition register_fallback_hook {W} (hooks : Hooks W) (hook : string → W → W) : Hooks W := hooks ++ [hook].
Definition trigger_fallback_hook {W} (hooks : Hooks W) (reason : string) (w : W) : W := foldl (λ w hook, hook reason w) w hooks.

Definition FALLBACK : string := "No hardware TEE detected; falling back to MockTeeProvider.".
Definition FALLBACK_ALL : string := "No hardware TEE detected for federation; falling back to MockTeeProvider.".
(** What the two detections tell the hooks, before the mock is made. *)
Definition detect_best_hook (b : Build) (avail : ProviderKind → bool) (config : TeeConfig) : option string :=
  if allow_mock config && negb (debug_build b) then None
  else match var_tee_provider b, preferred_type config, detected b avail with
       | None, None, [] => if feature b "mock" && allow_mock config then Some FALLBACK else None
       | _, _, _ => None
       end.
Definition detect_all_hook (b : Build) (avail : ProviderKind → bool) (config : TeeConfig) : option string :=
  if allow_mock config && negb (debug_build b) then None
  else match detected b avail with
       | [] => if feature b "mock" && allow_mock config then Some FALLBACK_ALL else None
       | _ => None
       end.

(** ** The collateral cache *)

Module CollateralCache.

Definition fetch_simulated (uri : string) : result string bytes :=
  if contains (as_bytes uri) (as_bytes "mock") then Ok (replicate (Z.to_nat 1024) (u8_of 170)) else Err ("URI not supported in simulation: " +:+ uri).

(** The map behind the lock, and what each call of [get] does next: look it up under the read
    lock, fetch without a lock, insert under the write lock, or be done. *)
Inductive Get : Type :=
| Lookup (uri : string)
| Fetch (uri : string)
| Insert (uri : string) (data : bytes)
| Done (uri : string) (r : result string bytes).
Definition get_step (cache : gmap string bytes) (g : Get) : Get * gmap string bytes :=
  match g with
  | Lookup uri => (match cache !! uri with Some data => Done uri (Ok data) | None => Fetch uri end, cache)
  | Fetch uri => (match fetch_simulated uri with Ok data => Insert uri data | Err e => Done uri (Err e) end, cache)
  | Insert uri data => (Done uri (Ok data), <[uri := data]> cache)
  | Done _ _ => (g, cache)
  end.
(** The calls that run and the steps that the scheduler takes, each of the call at an index. *)
Definition State : Type := list Get * gmap string bytes.
Definition step (i : nat) (st : State) : State :=
  match st.1 !! i with
  | Some g => let '(g, cache) := get_step st.2 g in (<[i := g]> st.1, cache)
  | None => st
  end.
Definition run (schedule : list nat) (st : State) : State := foldl (λ st i, step i st) st schedule.
(** A call on its own. *)
Definition get (uri : string) (cache : gmap string bytes) : result string bytes * gmap string bytes :=
  match run [0; 0; 0]%nat ([Lookup uri], cache) with
  | ([Done _ r], cache) => (r, cache)
  | (_, cache) => (Err EmptyString, cache)
  end.

End CollateralCache.

(** ** What the hardware promises *)

(** [serde_json] writes every bundle. *)
Class BundleJsonTotal (P : BundleJson) : Prop := {
  snp_to_vec_total bundle : is_Some (snp_to_vec bundle);
  tdx_to_vec_total bundle : is_Some (tdx_to_vec bundle);
}.

(** AMD's firmware puts the user data into its report; Azure's paravisor puts there a digest of
    runtime claims that name the user data, and returns the report behind its header. *)
Class SnpPlatformLaws `{PF : Platform} `{HaP : HashPrim} `{HxP : HexPrim} `{HJ : HclJson} `{SP : SevPrim} : Prop := {
  snp_report_size_len : snp_report_size = SNP_REPORT_LEN;
  firmware_report rd report table :
    get_ext_report rd = Ok (report, Some table) → length report = SNP_REPORT_LEN ∧ ∃ r, report_from_bytes report = Ok r ∧ rep_report_data r = rd;
  paravisor_report rd b hcl :
    vtpm_get_report_with_report_data rd = Ok b → hcl_new b = Ok hcl → hcl_report_type hcl = ReportSnp →
    ∃ r, report_from_bytes (take snp_report_size (drop HCL_HEADER_SIZE b)) = Ok r ∧ bound_report_data (Some (hcl_var_data hcl)) (rep_report_data r) rd;
}.

(** The report data of a quote that Intel's verification accepts is that of the report that was
    quoted: what the guest gave, or the paravisor's digest of its claims. *)
Class TdxPlatformLaws `{PF : Platform} `{HaP : HashPrim} `{HxP : HexPrim} `{HJ : HclJson} `{DP : DcapPrim} : Prop := {
  tdx_attest_binds rd quote root dbg pol col now claims td :
    get_tdx_quote (hex_encode rd) = Ok quote → dcap_verify root dbg pol quote col now = Ok claims → dc_td10 claims = Some td → td_report_data td = rd;
  imds_binds tdr quote root dbg pol col now claims td :
    imds_get_td_quote tdr = Ok quote → dcap_verify root dbg pol quote col now = Ok claims → dc_td10 claims = Some td →
    td_report_data td = td_reportdata tdr;
  paravisor_claims rd b hcl :
    vtpm_get_report_with_report_data rd = Ok b → hcl_new b = Ok hcl → hcl_report_type hcl = ReportTdx →
    ∃ u, hcl_user_data (hcl_var_data hcl) = Ok (Some u) ∧ eq_ignore_ascii_case u (hex_encode rd) = true;
}.

(** ** Theorems *)

Section snp_facts.
Context {PF : Platform} {HaP : HashPrim} {HxP : HexPrim} {HJ : HclJson} {BJ : BundleJson} {BL : BundleJsonLaws BJ} {BT : BundleJsonTotal BJ} {SP : SevPrim}.
Context {SL : SnpPlatformLaws}.

(** Evidence of either path is a report of the right length that stands for the report data. *)
Lemma snp_evidence_bound b rd e :
  snp_evidence b rd = Ok e →
  ∃ report table hcl r, e = SevSnpEvidence report table None hcl ∧ length report = SNP_REPORT_LEN ∧ report_from_bytes report = Ok r ∧
    bound_report_data hcl (rep_report_data r) rd.
Proof using SL.
  unfold snp_evidence. destruct (_ && _); [|done]. destruct firmware_open as [u|m].
  - intros H. inv_checks. match goal with p : bytes * option _ |- _ => destruct p as [report [table|]]; [|done] end. inv_checks. simplify_eq.
    match goal with E : get_ext_report _ = Ok _ |- _ => apply firmware_report in E as (Hl & r & Hr & Hd) end.
    eexists _, _, _, r. by split_and!.
  - destruct (_ && _); [|done]. unfold azure_vtpm_evidence, snp_report_bytes. intros H. inv_checks.
    match goal with E : vtpm_get_report_with_report_data _ = Ok ?b', E' : hcl_new _ = Ok ?h |- _ => destruct (paravisor_report rd b' h) as (r & Hr & Hb); [done..|] end.
    eexists _, _, _, r. split_and!; [done| |done|done]. rewrite length_take, length_drop, snp_report_size_len. unfold HCL_HEADER_SIZE in *. rewrite snp_report_size_len in *. lia.
Qed.

End snp_facts.

(** [C20] A quote of the SEV-SNP provider, from AMD's firmware or through Azure's paravisor, always
    passes the verifier's test that it is bound to the handshake: the verifier accepts it exactly
    if its certificates and its report meet the pins. *)
Theorem snp_provider_attests {PF : Platform} {HaP : HashPrim} {HxP : HexPrim} {HJ : HclJson} {BJ : BundleJson} {BL : BundleJsonLaws BJ}
    {BT : BundleJsonTotal BJ} {SP : SevPrim} {SL : SnpPlatformLaws} (b : Build) (rd : bytes) (q : AttestQuote) :
  op_generate_quote (SevSnpTeeProvider b) rd = Ok q →
  ∃ bundle report, snp_from_slice (quote_raw q) = Ok bundle ∧ report_from_bytes (snp_report bundle) = Ok report ∧
    ∀ v res, snp_verify v q rd = Ok res ↔
      certificate_table bundle ≠ [] ∧ snp_admits v report (certificate_table bundle) ∧ res = snp_result report.
Proof.
  cbn. intros H. inv_ok. match goal with E : snp_evidence _ _ = Ok _ |- _ => apply snp_evidence_bound in E as (report & table & hcl & r & -> & Hl & Hr & Hb) end.
  destruct (snp_to_vec_total (mk_snp_bundle report table hcl)) as [raw Hraw]. pose proof (snp_from_to _ _ Hraw) as Hback.
  exists (mk_snp_bundle report table hcl), r. cbn [to_quote]. rewrite Hraw. cbn [default quote_raw snp_report]. split_and!; [done..|].
  intros v res. rewrite snp_verify_iff. cbn. rewrite Hback. split.
  - intros (_ & _ & _ & _ & bundle & report' & [= <-] & Hne & _ & Hr' & _ & Ha & ->). cbn in Hr'. rewrite Hr in Hr'. by simplify_eq.
  - intros (Hne & Ha & ->). split_and!; [done..|]. eexists _, r. by split_and!.
Qed.

Section tdx_facts.
Context {PF : Platform} {HaP : HashPrim} {HxP : HexPrim} {HJ : HclJson} {BJ : BundleJson} {BL : BundleJsonLaws BJ} {BT : BundleJsonTotal BJ} {DP : DcapPrim}.
Context {TL : TdxPlatformLaws}.

(** Evidence for a trust domain whose quote, whenever Intel's verification accepts it, stands
    for the report data. *)
Definition tdx_bound (e : AttestationEvidence) (rd : bytes) : Prop :=
  ∃ quote hcl, e = TdxEvidence quote None hcl ∧
    ∀ root dbg pol col now claims td, dcap_verify root dbg pol quote col now = Ok claims → dc_td10 claims = Some td →
      bound_report_data hcl (td_report_data td) rd.
Lemma tdx_evidence_bound b rd e : tdx_evidence b rd = Ok e → tdx_bound e rd.
Proof using TL.
  unfold tdx_evidence. destruct (feature b "tdx"); [|done]. intros H. inv_ok. eexists _, None. split; [done|].
  intros root dbg pol col now claims td Hv Ht. by eapply tdx_attest_binds.
Qed.
Lemma azure_tdx_bound rd e : azure_tdx_evidence rd = Ok e → tdx_bound e rd.
Proof using TL.
  unfold azure_tdx_evidence, check_local_binding. intros H. inv_checks. eexists _, _. split; [done|].
  intros root dbg pol col now claims td Hv Ht.
  match goal with E : imds_get_td_quote _ = Ok _, E' : vtpm_get_report_with_report_data _ = Ok _, E'' : hcl_new _ = Ok _ |- _ =>
    rewrite (imds_binds _ _ _ _ _ _ _ _ _ E Hv Ht); destruct (paravisor_claims _ _ _ E' E'') as (u & Hu & Hm); [done|] end.
  split; [done|]. by exists u.
Qed.

Lemma tdx_bound_attests e rd :
  tdx_bound e rd →
  ∃ bundle, decode_tdx_bundle (to_quote e rd) = Ok bundle ∧
    ∀ policy fetched now res, tdx_verify policy fetched now (to_quote e rd) rd = Ok res ↔
      ∃ t col claims td, now = Some t ∧ fetched (tdx_quote bundle) = Ok col ∧ tdx_admits policy (tdx_quote bundle) col t claims td ∧
        res = tdx_result claims td t.
Proof using BL BT.
  intros (quote & hcl & -> & Hb).
  assert (decode_tdx_bundle (to_quote (TdxEvidence quote None hcl) rd) = Ok (mk_tdx_bundle quote hcl)) as Hdec.
  { destruct hcl as [runtime|]; [|done]. destruct (tdx_to_vec_total (mk_tdx_bundle quote (Some runtime))) as [raw Hraw].
    unfold decode_tdx_bundle. cbn [to_quote quote_type format quote_raw]. rewrite decide_True, Hraw by done. cbn. by rewrite (tdx_from_to _ _ Hraw). }
  exists (mk_tdx_bundle quote hcl). split; [done|]. intros policy fetched now res. unfold tdx_verify.
  assert (qudd (to_quote (TdxEvidence quote None hcl) rd) = rd) as -> by by destruct hcl. rewrite decide_True by done. cbn [mbind result_bind]. rewrite Hdec.
  cbn [mbind result_bind tdx_quote]. split.
  - intros H. inv_checks. match goal with p : DcapClaims * TDReport10 |- _ => destruct p as [claims td] end. inv_ok.
    match goal with E : verify_tdx_bundle_with_collateral _ _ _ _ _ = Ok _ |- _ => apply tdx_bundle_iff in E as [Ha _] end. by eexists _, _, _, _.
  - intros (t & col & claims & td & -> & -> & Ha & ->). cbn [map_err mbind result_bind ok_or].
    assert (verify_tdx_bundle_with_collateral (mk_tdx_bundle quote hcl) col rd t policy = Ok (claims, td)) as ->; [|done].
    apply tdx_bundle_iff. split; [done|]. destruct Ha as [_ _ Hv _ Ht _ _ _]. by eapply Hb.
Qed.

End tdx_facts.

(** [C21] The same of both TDX providers: whatever quote they return, the verifier accepts it
    exactly if the collateral is there and the policy admits what Intel's verification says. *)
Theorem tdx_providers_attest {PF : Platform} {HaP : HashPrim} {HxP : HexPrim} {HJ : HclJson} {BJ : BundleJson} {BL : BundleJsonLaws BJ}
    {BT : BundleJsonTotal BJ} {DP : DcapPrim} {TL : TdxPlatformLaws} (b : Build) (cell : option bool) (p : TeeOps) (rd : bytes) (q : AttestQuote) :
  p = TdxTeeProvider b ∨ p = AzureTdxVtpmTeeProvider cell → op_generate_quote p rd = Ok q →
  ∃ bundle, decode_tdx_bundle q = Ok bundle ∧
    ∀ policy fetched now res, tdx_verify policy fetched now q rd = Ok res ↔
      ∃ t col claims td, now = Some t ∧ fetched (tdx_quote bundle) = Ok col ∧ tdx_admits policy (tdx_quote bundle) col t claims td ∧
        res = tdx_result claims td t.
Proof.
  intros [-> | ->]; cbn; intros H; inv_ok; apply tdx_bound_attests; [by eapply tdx_evidence_bound|by eapply azure_tdx_bound].
Qed.

(** ** The GPU agent *)

Lemma read_until_line limit stop data err r :
  read_until limit stop data err = Ok r ∧ last r = Some stop ↔
  ∃ line rest, r = line ++ [stop] ∧ data = line ++ stop :: rest ∧ (stop ∉ line) ∧ (length line < limit)%nat.
Proof.
  revert limit r. induction data as [|c data IH]; intros limit r.
  - split; [|by intros ([] & ? & _ & ? & _)]. destruct limit, err; cbn; intros [[= <-] ?]; done.
  - destruct limit as [|limit]; cbn [read_until].
    { split; [intros [[= <-] ?]; done|intros (line & rest & _ & _ & _ & ?); lia]. }
    destruct (decide (c = stop)) as [->|Hc].
    + split; [intros [[= <-] _]; exists [], data; split_and!; [done|done|by apply not_elem_of_nil|cbn; lia]|].
      intros ([|d line] & rest & -> & Heq & Hn & _); [done|]. injection Heq as <- _. by destruct Hn; left.
    + split.
      * intros [H Hl]. inv_ok. destruct (read_until limit stop data err) as [r'|] eqn:Hr; [|done]. injection H as <-.
        destruct r' as [|d r']; [cbn in Hl; congruence|]. destruct (proj1 (IH limit (d :: r'))) as (line & rest & -> & -> & Hn & Hlt); [by split|].
        exists (c :: line), rest. split_and!; [done|done|by apply not_elem_of_cons|cbn; lia].
      * intros ([|d line] & rest & -> & [= <- ->] & Hn & Hlt); [done|]. apply not_elem_of_cons in Hn as [_ Hn].
        destruct (proj2 (IH limit (line ++ [stop]))) as [-> Hl]; [exists line, rest; cbn in Hlt; split_and!; [done..|lia]|].
        split; [done|]. by rewrite last_snoc.
Qed.

(** [C22] The quote that the agent's socket yields is exactly the decoding of the first line that
    it answers, of protocol version 1; the line with its end and the quote are no longer than
    two mebibytes, the quote is not empty, and nothing after the line is looked at. *)
Theorem gpu_agent_iff {PF : Platform} {HxP : HexPrim} {AJ : AgentJson} (rd quote : bytes) :
  fetch_nvidia_quote rd = Ok quote ↔
  target_unix = true ∧ (∃ path, env_var_os NVIDIA_SOCKET = Some path ∧ socket_connect path = Ok ()) ∧ socket_timeouts = Ok () ∧
  socket_write (agent_request_to_writer 1 (hex_encode rd)) = Ok () ∧ socket_write [NEWLINE] = Ok () ∧
  ∃ line rest err quote_hex,
    socket_reply (agent_request_to_writer 1 (hex_encode rd) ++ [NEWLINE]) = (line ++ NEWLINE :: rest, err) ∧ (NEWLINE ∉ line) ∧
    Z.of_nat (length line) < MAX_AGENT_RESPONSE_BYTES ∧
    agent_response_from_slice (line ++ [NEWLINE]) = Ok (1, quote_hex) ∧ hex_decode quote_hex = Some quote ∧
    0 < Z.of_nat (length quote) ≤ MAX_AGENT_RESPONSE_BYTES.
Proof.
  unfold fetch_nvidia_quote, parse_agent_response. destruct target_unix; [|naive_solver]. split.
  - intros H. inv_checks. destruct (socket_reply _) as [data err] eqn:Hreply. inv_checks.
    match goal with p : Z * string |- _ => destruct p as [version h] end. inv_checks.
    match goal with E : read_until _ _ _ _ = Ok ?r, N : ¬ (_ ∨ last _ ≠ _), N' : ¬ (quote = [] ∨ _) |- _ =>
      assert (last r = Some NEWLINE) as Hl by (apply dec_stable; tauto);
      destruct (proj1 (read_until_line _ _ _ _ r) (conj E Hl)) as (line & rest & -> & -> & Hn & _);
      apply Decidable.not_or in N as [Hlen _]; apply Decidable.not_or in N' as [Hne Hq] end.
    rewrite length_app in Hlen. cbn in Hlen.
    split_and!; [done|by eexists|done..|]. exists line, rest, err, h. split_and!; [done|done|lia|done|done| |lia].
    destruct quote; [done|cbn; lia].
  - intros (_ & (path & Henv & Hc) & Ht & Hw & Hw' & line & rest & err & h & Hreply & Hn & Hlen & Hj & Hx & H0 & Hmax).
    rewrite Henv. cbn [ok_or mbind result_bind]. rewrite Hc, Ht, Hw, Hw', Hreply. cbn [map_err mbind result_bind].
    destruct (proj2 (read_until_line (Z.to_nat (MAX_AGENT_RESPONSE_BYTES + 1)) NEWLINE (line ++ NEWLINE :: rest) err (line ++ [NEWLINE]))) as [-> Hl].
    { exists line, rest. split_and!; [done..|lia]. }
    cbn [map_err mbind result_bind]. rewrite decide_False by (rewrite length_app; cbn; intros [?|?]; [lia|done]). cbn [mbind result_bind].
    rewrite Hj. cbn [map_err mbind result_bind]. rewrite decide_True by done. cbn [mbind result_bind]. rewrite Hx. cbn [ok_or mbind result_bind].
    rewrite decide_False; [done|]. intros [-> |?]; [cbn in H0|]; lia.
Qed.

(** ** The cache under concurrency *)

Module CacheFacts.
Import CollateralCache.

(** Every call is on its way to what a fetch would return, and so is the cache. *)
Definition uri_of (g : Get) : string := match g with Lookup u | Fetch u | Insert u _ | Done u _ => u end.
Definition get_ok (g : Get) : Prop :=
  match g with Insert u d => fetch_simulated u = Ok d | Done u r => fetch_simulated u = r | _ => True end.
Definition cache_ok (cache : gmap string bytes) : Prop := map_Forall (λ u d, fetch_simulated u = Ok d) cache.
(** How many steps a call still takes at most. *)
Definition rank (g : Get) : nat := match g with Lookup _ => 3 | Fetch _ => 2 | Insert _ _ => 1 | Done _ _ => 0 end.

Lemma get_step_ok cache g :
  get_ok g → cache_ok cache →
  let '(g', cache') := get_step cache g in get_ok g' ∧ cache_ok cache' ∧ uri_of g' = uri_of g ∧ (rank g' ≤ rank g - 1)%nat.
Proof.
  intros Hg Hc. destruct g as [u|u|u d|u r]; cbn.
  - destruct (cache !! u) as [d|] eqn:Hu; cbn; split_and!; [by apply (Hc u)|done|done|lia|done|done|done|lia].
  - destruct (fetch_simulated u) as [d|e] eqn:Hf; cbn; split_and!; try done; lia.
  - split_and!; [done|by apply map_Forall_insert_2|done|lia].
  - by split_and!.
Qed.

(** A call that is scheduled [n] times has at most [3 - n] steps left. *)
Definition invariant (uris : list string) (count : nat → nat) (st : State) : Prop :=
  cache_ok st.2 ∧ uri_of <$> st.1 = uris ∧ ∀ i g, st.1 !! i = Some g → get_ok g ∧ (rank g ≤ 3 - count i)%nat.
Lemma step_invariant uris count st i :
  invariant uris count st → invariant uris (λ j, if decide (j = i) then S (count j) else count j) (step i st).
Proof.
  intros (Hc & Hu & Hg). unfold step. destruct (st.1 !! i) as [g|] eqn:Hi.
  - destruct (Hg i g Hi) as [Hok Hr]. pose proof (get_step_ok st.2 g Hok Hc) as Hs. destruct (get_step st.2 g) as [g' cache']. destruct Hs as (Hok' & Hc' & Hu' & Hr').
    split_and!; [done|cbn; rewrite list_fmap_insert, Hu', Hu; apply list_insert_id; by rewrite <-Hu, list_lookup_fmap, Hi|].
    intros j h Hj. cbn in Hj. destruct (decide (j = i)) as [->|Hne].
    + rewrite list_lookup_insert_eq in Hj by (by eapply lookup_lt_Some). injection Hj as <-. split; [done|lia].
    + rewrite list_lookup_insert_ne in Hj by done. by apply Hg.
  - split_and!; [done..|]. intros j h Hj. destruct (decide (j = i)) as [->|]; [congruence|by apply Hg].
Qed.
Definition occurrences (schedule : list nat) (i : nat) : nat := length (base.filter (eq i) schedule).
Lemma run_invariant uris schedule st count :
  invariant uris count st → invariant uris (λ i, count i + occurrences schedule i)%nat (run schedule st).
Proof.
  revert st count. induction schedule as [|i schedule IH]; intros st count H; [|change (run (i :: schedule) st) with (run schedule (step i st))].
  - destruct H as (Hc & Hu & Hg). split_and!; [done..|]. intros j g Hj. destruct (Hg j g Hj). split; [done|]. cbn. lia.
  - destruct (IH _ _ (step_invariant _ _ _ i H)) as (Hc & Hu & Hg). split_and!; [done..|]. intros j g Hj. destruct (Hg j g Hj) as [? Hr]. split; [done|].
    unfold occurrences in *. rewrite filter_cons. destruct (decide (j = i)); cbn [length] in *; lia.
Qed.

End CacheFacts.

(** The cache is transparent: however any number of calls of [get] interleave, each of them
    that gets its three steps returns exactly what a fetch without a cache would, starting from
    a cache that earlier calls filled. *)
Theorem collateral_cache_equiv (uris : list string) (schedule : list nat) (cache : gmap string bytes) (i : nat) (uri : string) :
  map_Forall (λ u d, CollateralCache.fetch_simulated u = Ok d) cache →
  uris !! i = Some uri → (3 ≤ length (base.filter (eq i) schedule))%nat →
  let st := CollateralCache.run schedule (CollateralCache.Lookup <$> uris, cache) in
  st.1 !! i = Some (CollateralCache.Done uri (CollateralCache.fetch_simulated uri)) ∧
  map_Forall (λ u d, CollateralCache.fetch_simulated u = Ok d) st.2.
Proof.
  intros Hc Hi Hn st.
  assert (CacheFacts.invariant uris (λ _, 0%nat) (CollateralCache.Lookup <$> uris, cache)) as H0.
  { split_and!; [done|cbn; rewrite <-list_fmap_compose; apply list_fmap_id|]. intros j g Hj. cbn in Hj.
    rewrite list_lookup_fmap in Hj. destruct (uris !! j); [|done]. injection Hj as <-. by split. }
  destruct (CacheFacts.run_invariant _ schedule _ _ H0) as (Hc' & Hu & Hg). fold st in Hc', Hu, Hg. split; [|done].
  assert ((CacheFacts.uri_of <$> st.1) !! i = Some uri) as Hl by by rewrite Hu. rewrite list_lookup_fmap in Hl.
  destruct (st.1 !! i) as [g|] eqn:Hst; [|done]. injection Hl as Hl. destruct (Hg i g Hst) as [Hok Hr]. unfold CacheFacts.occurrences in Hr.
  destruct g as [u|u|u d|u r]; cbn in Hr; try lia. cbn in Hok, Hl. by rewrite <-Hl, <-Hok.
Qed.

(** ** Selection and flaws *)

(** Every quote of a hardware provider carries the report data and the type of its provider. *)
Theorem hardware_quotes_bound {PF : Platform} {HaP : HashPrim} {HxP : HexPrim} {BJ : BundleJson} {AJ : AgentJson} (b : Build) (k : ProviderKind)
    (p : TeeOps) (rd : bytes) (q : AttestQuote) :
  hardware_ops b k = Some p → op_generate_quote p rd = Ok q → qudd q = rd ∧ quote_type q = op_quote_type p.
Proof.
  destruct k; cbn; intros [= <-]; cbn; intros H; inv_ok.
  - unfold gpu_evidence in *. destruct (gpu_fixture b); by inv_ok.
  - unfold tdx_evidence in *. destruct (feature b "tdx"); [|done]. by inv_ok.
  - unfold snp_evidence, azure_vtpm_evidence in *. destruct (_ && _); [|done]. destruct firmware_open; [|destruct (_ && _); [|done]]; inv_checks; [|done].
    match goal with p : bytes * option _ |- _ => destruct p as [report [table|]]; [|done] end. by inv_checks.
  - unfold nitro_evidence in *. destruct (feature b "aws_nitro"); [|done]. cbv zeta in *. destruct (decide _); [done|]. cbn in *.
    destruct (nsm_process_request _ _); by inv_ok.
  - by destruct (feature b "sgx").
  - done.
  - by destruct (feature b "trustzone").
Qed.

(** The NSM device is closed again on every path that opened it. *)
Theorem nitro_closes {PF : Platform} (b : Build) (rd : bytes) :
  (nitro_evidence b rd).2 = [] ∨ (∃ fd, fd < 0 ∧ (nitro_evidence b rd).2 = [NsmInit fd]) ∨
  ∃ fd, 0 ≤ fd ∧ (nitro_evidence b rd).2 = [NsmInit fd; NsmRequest fd rd; NsmExit fd].
Proof.
  unfold nitro_evidence. destruct (feature b "aws_nitro"); [|by left]. cbv zeta. destruct (decide (nsm_init < 0)) as [H|H]; [by eauto|]. right; right. exists nsm_init. by split; [lia|].
Qed.

(** An SGX device is selected before the TPM although its provider never yields a quote: such a
    machine cannot attest, also where a TPM is available. *)
Theorem sgx_selected_never_quotes {PF : Platform} {HaP : HashPrim} {HxP : HexPrim} {BJ : BundleJson} {AJ : AgentJson} (b : Build) (config : TeeConfig) :
  allow_mock config = false → var_tee_provider b = None → preferred_type config = None →
  feature b "sgx" = true → path_exists "/dev/sgx_enclave" = true →
  feature b "nvidia_gpu" = false → feature b "tdx" = false → feature b "sev_snp" = false → feature b "aws_nitro" = false →
  detect_best_provider b (hardware_available b) config = Returns (Ok SgxProvider) ∧ ∀ rd, ∃ e, op_generate_quote (SgxTeeProvider b) rd = Err e.
Proof.
  intros Hm Hv Hp Hsgx Hdev Hg Ht Hs Hn. split.
  - unfold detect_best_provider. rewrite Hm, Hv, Hp. cbn [andb]. unfold detected, detection_order.
    do 4 (rewrite filter_cons_False by (cbn; rewrite ?Hg, ?Ht, ?Hs, ?Hn; naive_solver)).
    rewrite filter_cons_True; [done|]. cbn. by rewrite Hsgx, Hdev.
  - intros rd. cbn. rewrite Hsgx. by eexists.
Qed.

(** The TPM provider answers with the same constant in every build, and the verifier with its
    default domains refuses that quote: its certificate's address is not among them. *)
Theorem tpm_quotes_refused {PF : Platform} {BJ : BundleJson} {UP : UrlPrim} (ecdsa_verify : bytes → bytes → bytes → bool) (mock : bool)
    (answer : Url → HttpAnswer) (u : Url) (rd : bytes) :
  url_parse TPM_CERT = Ok u → url_host u = Some "attestation.example.com"%string →
  ∃ q e, op_generate_quote TpmTeeAdapter rd = Ok q ∧ quote_raw q = TPM_MOCK ++ rd ∧
    tpm_verify ecdsa_verify (default_allowed_domains mock) answer q rd = Err e.
Proof.
  intros Hu Hh. assert (∃ e, fetch (default_allowed_domains mock) answer TPM_CERT = Err e) as [e He].
  { unfold fetch. rewrite Hu. cbn [map_err mbind result_bind]. case_decide; [by eexists|]. cbn [mbind result_bind]. rewrite Hh.
    assert (domain_allowed (default_allowed_domains mock) "attestation.example.com" = false) as -> by (destruct mock; by vm_compute). by eexists. }
  exists (to_quote (TpmEvidence (TPM_MOCK ++ rd) [] (Some TPM_CERT)) rd). eexists. split_and!; [done|done|].
  unfold tpm_verify. cbn [quote_type to_quote]. rewrite decide_True by done. change (collateral_uris _) with [TPM_CERT]. cbv match. by rewrite He.
Qed.

(** The fixture of the GPU provider is not the one its verifier knows. *)
Theorem gpu_fixture_refused {PF : Platform} {HxP : HexPrim} {BJ : BundleJson} {AJ : AgentJson} (b : Build) (mock_debug : bool) (rd : bytes) (q : AttestQuote) :
  gpu_fixture b = true → op_generate_quote (NvidiaGpuTeeProvider b) rd = Ok q → nvidia_verify mock_debug q rd = Err SignatureInvalid.
Proof.
  intros Hf. cbn. unfold gpu_evidence. rewrite Hf. cbn. intros [= <-]. unfold nvidia_verify. rewrite !decide_True by done.
  cbn [quote_raw]. by rewrite bool_decide_eq_false_2.
Qed.

(** The hooks are told exactly when detection falls back to the mock: not when no hardware is
    found and the mock is refused, nor when the mock is selected by its name. *)
Theorem fallback_hook_iff (b : Build) (avail : ProviderKind → bool) (config : TeeConfig) :
  is_Some (detect_best_hook b avail config) ↔
  var_tee_provider b = None ∧ preferred_type config = None ∧ allow_mock config = true ∧ debug_build b = true ∧ feature b "mock" = true ∧
  detected b avail = [].
Proof.
  unfold detect_best_hook. destruct (allow_mock config), (debug_build b), (var_tee_provider b), (preferred_type config), (detected b avail), (feature b "mock");
    cbn; (split; [by intros [? ?]|naive_solver]) || naive_solver.
Qed.

(** ** Concrete runs *)

Module ToyHardware.

Definition cert_code (t : SevSnpCertificateType) : nat * string :=
  match t with
  | Ark => (0%nat, EmptyString) | Ask => (1%nat, EmptyString) | Vcek => (2%nat, EmptyString) | Vlek => (3%nat, EmptyString)
  | Crl => (4%nat, EmptyString) | OtherCert s => (5%nat, s)
  end.
Definition cert_of (c : nat * string) : SevSnpCertificateType :=
  match c.1 with 0 => Ark | 1 => Ask | 2 => Vcek | 3 => Vlek | 4 => Crl | _ => OtherCert c.2 end%nat.
Definition snp_tuple (b : SevSnpQuoteBundleV1) : bytes * list (nat * string * bytes) * option bytes :=
  (snp_report b, (λ c, (cert_code (certificate_type c), der c)) <$> certificate_table b, snp_hcl_runtime_data b).
Definition snp_of (t : bytes * list (nat * string * bytes) * option bytes) : SevSnpQuoteBundleV1 :=
  mk_snp_bundle t.1.1 ((λ '(c, d), mk_cert (cert_of c) d) <$> t.1.2) t.2.
Lemma snp_of_tuple b : snp_of (snp_tuple b) = b.
Proof.
  destruct b as [r t h]. unfold snp_of, snp_tuple. cbn [fst snd snp_report certificate_table snp_hcl_runtime_data]. f_equal.
  rewrite <-list_fmap_compose. rewrite <-(list_fmap_id t) at 2. apply list_fmap_ext. intros i [[] d] _; done.
Qed.
#[export] Instance bundles : BundleJson := {|
  snp_to_vec b := Some (ToyCodec.put (snp_tuple b));
  snp_from_slice v := match ToyCodec.get v with Some t => Ok (snp_of t) | None => Err "bundle"%string end;
  tdx_to_vec b := Some (ToyCodec.put (tdx_quote b, tdx_hcl_runtime_data b));
  tdx_from_slice v := match ToyCodec.get v with Some (q, h) => Ok (mk_tdx_bundle q h) | None => Err "bundle"%string end;
|}.
#[export] Instance bundles_laws : BundleJsonLaws bundles.
Proof. split; cbn; intros b v [= <-]; rewrite ToyCodec.get_put; [by rewrite snp_of_tuple|by destruct b]. Qed.
#[export] Instance bundles_total : BundleJsonTotal bundles.
Proof. split; by eexists. Qed.

#[export] Instance hash : HashPrim := {|
  sha256 b := if decide (b = as_bytes "root") then as_bytes INTEL_SGX_ROOT_CA_SHA256 else take 32 (b ++ replicate 32 NUL);
  sha384 b := b; sha512 b := b;
|}.
#[export] Instance hcl : HclJson := {| hcl_user_data v := Ok (Some (string_of_list_ascii v)) |}.
#[export] Instance sev : SevPrim := {|
  SnpReport := bytes; report_from_bytes b := Ok b; rep_report_data r := take 64 r; rep_measurement _ := as_bytes "mark";
  rep_debug_allowed _ := false; rep_microcode _ := 7; Chain := bytes;
  chain_from_cert_table l := match last l with Some (_, d) => Ok d | None => Err "empty"%string end;
  chain_ark_der c := Ok c; chain_verifies _ _ := true; builtin_arks := [Ok (as_bytes "ark")]; certificate_der b := Ok b; read_file _ := Err "no file"%string;
|}.
Definition td (rd : bytes) : TDReport10 := mk_td [] [] [] [] [] (as_bytes "mrtd") [] [] [] [[]; []; []; []] rd.
#[export] Instance dcap : DcapPrim := {|
  Collateral := (); tcb_status_known _ := true;
  dcap_verify _ _ pol quote _ now := if decide (qp_now pol ≤ 100) then Ok (mk_dcap_claims 129 (Some (td (tail quote))) "UpToDate" 4 [] 100 0) else Err "expired"%string;
  intel_root_ca := as_bytes "root"; report_to_vec _ _ := None;
|}.

(** A machine behind the paravisor: header, report with the digest of the claims, claims. *)
Definition claims_report (rd : bytes) : bytes := sha256 rd ++ replicate (Z.to_nat 1152) NUL.
#[export] Instance platform (rt : ReportType) : Platform := {|
  target_linux := true; target_unix := true; path_exists p := bool_decide (p = "/dev/tpmrm0"%string); env_var_os _ := None;
  get_tdx_quote h := Ok (NUL :: as_bytes h);
  firmware_open := Err "no device"%string; get_ext_report _ := Err "no device"%string;
  nsm_init := -1; nsm_process_request _ _ := NsmOther;
  vtpm_get_report := Err "no report"%string;
  vtpm_get_report_with_report_data rd := if decide (length rd = 64%nat) then Ok (replicate 32 NUL ++ claims_report rd ++ rd) else Err "length"%string;
  HclReport := bytes; hcl_new b := Ok b; hcl_report_type _ := rt; hcl_var_data b := drop (32 + SNP_REPORT_LEN) b; snp_report_size := SNP_REPORT_LEN;
  TdReport := bytes; td_try_from b := Ok (take 64 (drop 32 b)); td_reportdata r := r; imds_get_td_quote r := Ok (NUL :: r);
  imds_get_certs := Ok ("vcek", "chain")%string; X509 := bytes; vcek_from_pem s := Ok (as_bytes s);
  build_cert_chain _ := Ok (as_bytes "ask", as_bytes "ark"); x509_to_der b := Ok b;
  socket_connect _ := Err "no agent"%string; socket_timeouts := Ok (); socket_write _ := Ok (); socket_reply _ := ([], None);
|}.
Definition azure : Build := mk_build false (λ f, bool_decide (f ∈ ["sev_snp"; "azure_vtpm"]%string)) None None None false.
Definition rd : bytes := replicate 64 "x"%char.
Definition verifier : SevSnpVerifier := snp_with_min_svn (snp_with_expected_measurement snp_new (as_bytes "mark")) 5.
Definition policy : TdxPolicy := mk_tdx_policy [] [as_bytes "mrtd"] (replicate 4 None) false false false false.

End ToyHardware.

Import ToyHardware.

Lemma pad_length (b : bytes) : length b = 64%nat → sha256 b = take 32 b ∧ length (sha256 b) = 32%nat.
Proof.
  intros Hl. cbn. rewrite decide_False by (intros ->; done). rewrite take_app_le by lia. by rewrite length_take, Hl.
Qed.
Lemma claims_of r : length r = 64%nat → drop (32 + SNP_REPORT_LEN) (replicate 32 NUL ++ claims_report r ++ r) = r.
Proof.
  intros [_ H32]%pad_length. rewrite <-drop_drop. rewrite drop_app_length' by done. apply drop_app_length'. unfold claims_report. by rewrite length_app, H32, length_replicate.
Qed.
Lemma digest_of r n : length r = 64%nat → (32 ≤ n)%nat → take 32 (take 64 (take n (drop 32 (replicate 32 NUL ++ claims_report r ++ r)))) = sha256 r.
Proof.
  intros [_ H32]%pad_length Hn. rewrite drop_app_length' by done. rewrite !take_take. replace ((32 `min` 64) `min` n)%nat with 32%nat by lia.
  unfold claims_report. rewrite <-app_assoc. by rewrite take_app_length'.
Qed.
#[local] Instance snp_laws : SnpPlatformLaws (PF := platform ReportSnp) (HxP := ToyVerifiers.hex).
Proof.
  split; [done|done|]. intros r b h Hb [= <-] _. cbn [vtpm_get_report_with_report_data platform] in Hb. case_decide as Hl; [|done]. apply (inj Ok) in Hb as <-.
  eexists. split; [done|]. split.
  - change (hcl_var_data ?x) with (drop (32 + SNP_REPORT_LEN) x). rewrite claims_of by done. symmetry. apply digest_of; [done|]. vm_compute. lia.
  - exists (string_of_list_ascii r). split; [|by apply bool_decide_eq_true]. cbn [hcl_user_data hcl]. change (hcl_var_data ?x) with (drop (32 + SNP_REPORT_LEN) x). by rewrite claims_of.
Qed.
#[local] Instance tdx_laws : TdxPlatformLaws (PF := platform ReportTdx) (HxP := ToyVerifiers.hex).
Proof.
  split.
  - cbn. intros r q root dbg pol col now c t [= <-]. case_decide; [|done]. intros [= <-] [= <-]. cbn. apply list_ascii_of_string_of_list_ascii.
  - cbn. intros r q root dbg pol col now c t [= <-]. case_decide; [|done]. by intros [= <-] [= <-].
  - intros r b h Hb [= <-] _. cbn [vtpm_get_report_with_report_data platform] in Hb. case_decide as Hl; [|done]. apply (inj Ok) in Hb as <-.
    exists (string_of_list_ascii r). split; [|by apply bool_decide_eq_true]. cbn [hcl_user_data hcl]. change (hcl_var_data ?x) with (drop (32 + SNP_REPORT_LEN) x). by rewrite claims_of.
Qed.

Lemma snp_provider_attests_witness :
  ∃ q res, op_generate_quote (SevSnpTeeProvider (PF := platform ReportSnp) azure) rd = Ok q ∧
    snp_verify (HxP := ToyVerifiers.hex) verifier q rd = Ok res.
Proof.
  eexists. exists (snp_result (HxP := ToyVerifiers.hex) (SP := sev) (claims_report rd)). split; [reflexivity|].
  edestruct (snp_provider_attests (PF := platform ReportSnp) (HxP := ToyVerifiers.hex) (SL := snp_laws) azure rd) as (bundle & report & Hb & Hr & Hiff); [reflexivity|].
  apply Hiff. match type of Hb with snp_from_slice (quote_raw (to_quote (SevSnpEvidence ?r ?t _ ?h) _)) = _ =>
    assert (Ok bundle = Ok (mk_snp_bundle r t h) :> result string _) as Heq by (rewrite <-Hb; exact (snp_from_to (mk_snp_bundle r t h) _ eq_refl)) end.
  apply (inj Ok) in Heq as ->.
  split_and!; [done| |reflexivity]. split; [reflexivity|done| |exists 5; split; [reflexivity|cbn; lia]].
  exists (as_bytes "ark"), (as_bytes "ark"), [as_bytes "ark"]. split_and!; [reflexivity..|by left|reflexivity].
Defined.

Lemma tdx_providers_attest_witness :
  ∃ q res, op_generate_quote (AzureTdxVtpmTeeProvider (PF := platform ReportTdx) None) rd = Ok q ∧
    tdx_verify (HxP := ToyVerifiers.hex) (DP := dcap) policy (λ _, Ok ()) (Some 50) q rd = Ok res.
Proof.
  eexists. exists (tdx_result (HxP := ToyVerifiers.hex) (DP := dcap) (mk_dcap_claims 129 None "UpToDate" 4 [] 100 0) (td []) 50). split; [reflexivity|].
  edestruct (tdx_providers_attest (PF := platform ReportTdx) (HxP := ToyVerifiers.hex) (DP := dcap) (TL := tdx_laws) azure None
    (AzureTdxVtpmTeeProvider (PF := platform ReportTdx) None) rd) as (bundle & Hb & Hiff); [by right|reflexivity|].
  apply Hiff. exists 50, (), (mk_dcap_claims 129 (Some (td (tail (tdx_quote bundle)))) "UpToDate" 4 [] 100 0), (td (tail (tdx_quote bundle))).
  split_and!; [done|done| |reflexivity]. split; try reflexivity; [done|by left].
Defined.

Lemma collateral_cache_equiv_witness :
  (CollateralCache.run [0; 1; 1; 0; 1; 0]%nat (CollateralCache.Lookup <$> ["mock://a"; "mock://a"]%string, ∅)).1 !! 1%nat =
  Some (CollateralCache.Done "mock://a" (CollateralCache.fetch_simulated "mock://a")).
Proof.
  apply (collateral_cache_equiv ["mock://a"; "mock://a"]%string [0; 1; 1; 0; 1; 0]%nat ∅ 1 "mock://a"); [apply map_Forall_empty|reflexivity|vm_compute; lia].
Defined.
