(* ===== verification/Cli.v ===== *)
(** * The command line demo

    [demo/cli/src/main.rs]: a server that echoes, and a client that makes the handshake with
    the library and then seals its one request by hand.

    The reply round trips.  The request does not: the client writes its ticket as JSON where
    the server reads Base64. *)

From S2P Require Import Prelude ReplayWindow Nonce Crypto Aead Proto State KeySchedule Attestation Tee Session KeyExchange Handshake.
From S2P Require Import Http Oblivious Ahl Trailers Sfv Headers Registry Middleware Client Extractors Exchange Handlers HandshakeWire ClientCall Verifiers.
From stdpp Require Import options.

#[local] Open Scope Z_scope.
#[local] Set Warnings "-register-all".

Record EchoRequest : Type := mk_echo_request { echo_message : string }.
Record EchoResponse : Type := mk_echo_response { echo_reply : string; echo_session_id : string }.

(** [openhttpa_proto::AttestTicket] *)
Record AttestTicket : Type := mk_attest_ticket { at_nonce : Z; at_rtt0_salt : option bytes; at_mac : bytes }.

(** [serde_json] on a ticket, and the body of a response read as a value: its ["ciphertext"]
    if that is a string. *)
Class CliJson : Type := {
  attest_ticket_to_string : AttestTicket → bytes;
  response_ciphertext : bytes → result string (option string);
}.
(** A struct is an object. *)
Class CliJsonLaws (CJ : CliJson) (J : CiphertextJson) : Prop := {
  ticket_is_object t : head (attest_ticket_to_string t) = Some "{"%char;
  ticket_visible t : forallb visible (attest_ticket_to_string t) = true;
  response_reads s : response_ciphertext (ciphertext_to_json s) = Ok (Some s);
}.
(** A brace is not a digit of Base64. *)
Class Base64Alphabet (BP : Base64Prim) : Prop := b64_no_brace s : b64_decode (String "{"%char s) = None.

(** ** The server *)

(** [env] is the variable, [random] what the system draws. *)
Definition demo_challenge_key {XP : HexPrim} (env : option string) (random : option bytes) : outcome bytes :=
  match env with
  | Some hex_val =>
      match hex_decode hex_val with
      | None => Panics
      | Some b => if decide (length b = 32%nat) then Returns b else Panics
      end
  | None => match random with Some key => Returns key | None => Panics end
  end.

Section server.
Context {AP : AeadPrim} {HP : HashPrim} {MP : HmacPrim} {UP : UuidPrim} {XP : HexPrim} {BP : Base64Prim}.
Context {J : CiphertextJson} {X : JsonExtractor} {VQ : ValueJson EchoRequest} {VA : ValueJson EchoResponse}.

(** The session's handle is shared with the registry. *)
Definition echo_handler (t1 t2 : Z) (r : AtbRegistry.t) (req : Request) : result Z SealedResponse * AtbRegistry.t :=
  let '(sess, r) := from_request_parts t1 r req in
  match sess with
  | Err st => (Err st, r)
  | Ok sess =>
      let '(q, r) := encrypted_json t1 r req in
      match q with
      | Err st => (Err st, r)
      | Ok q =>
          let s := default (ohs_session sess) (AtbRegistry.sessions r !! id (ohs_session sess)) in
          let '(res, sess) := seal t2 (mk_ohs s (ohs_aad sess))
            (mk_echo_response ("Server received: " +:+ echo_message q) (uuid_to_string (id s))) in
          (res, AtbRegistry.update r (id (ohs_session sess)) (ohs_session sess))
      end
  end.

(** [AtHsHandlerState] of [run_server]; [mock] is [MockTeeProvider::default()]. *)
Definition cli_state (mock : outcome TeeProvider) (mock_verifier : QuoteVerifier) (mutual : bool) (env : option string) (random : option bytes)
    : outcome AtHsHandlerState :=
  tee ← mock; key ← demo_challenge_key env random;
  Returns (mk_handler (with_config [] [] false true) AtbRegistry.new tee (if mutual then Some mock_verifier else None) None 3600 key None None).

(** The routes of the application, before the handlers. *)
Inductive CliRoute : Type := RouteHealth | RouteAttest | RouteEcho | RouteMissing | RouteNotAllowed.
Definition cli_route (req : Request) : CliRoute :=
  if decide (path req = "/health"%string) then
    if decide (Middleware.method req = "GET"%string ∨ Middleware.method req = "HEAD"%string) then RouteHealth else RouteNotAllowed
  else if decide (path req = "/api/attest"%string ∨ path req = "/"%string) then RouteAttest
  else if decide (path req = "/api/echo"%string) then
    if decide (Middleware.method req = "POST"%string) then RouteEcho else RouteNotAllowed
  else RouteMissing.

End server.

(** ** The client *)

Section client.
Context {AP : AeadPrim} {HP : HashPrim} {MP : HmacPrim} {UP : UuidPrim} {XP : HexPrim} {BP : Base64Prim}.
Context {J : CiphertextJson} {CJ : CliJson} {VQ : ValueJson EchoRequest} {VA : ValueJson EchoResponse}.

Definition or_panic {A} (o : option A) : outcome A := match o with Some a => Returns a | None => Panics end.
Definition expect {E A} (r : result E A) : outcome A := match r with Ok a => Returns a | Err _ => Panics end.

(** The first closure: the counter is the constant 1, the MAC covers an empty authority and
    one header. *)
Definition cli_seal (base_id : AtbId) (req : EchoRequest) (keys : SessionKeys) : outcome (string * AttestTicket) :=
  plaintext ← or_panic (value_to_vec req);
  let nonce_val := 1 in
  sealer ← expect (AeadKey.new Aes256Gcm (client_write_key keys));
  data ← expect (AeadKey.seal_in_place sealer (build_aead_nonce nonce_val (client_write_iv keys)) (request_aad base_id) plaintext);
  let header_map := hm_insert [] "attest-base-id" (as_bytes (uuid_to_string base_id)) in
  ahl ← expect (canonicalize_ahl "POST" "/api/echo" None EmptyString header_map);
  Returns (hex_encode data, mk_attest_ticket nonce_val None (hmac_sha384 (client_mac_key keys) (u64_be nonce_val ++ ahl))).

(** What [reqwest] posts; it adds the [Host] of the address. *)
Definition cli_headers (base_id : AtbId) (ticket : AttestTicket) (host : bytes) : HeaderMap :=
  hm_insert (hm_insert (hm_insert (hm_insert [] STR_ATTEST_BASE_ID (as_bytes (uuid_to_string base_id)))
    STR_ATTEST_TICKET (attest_ticket_to_string ticket)) STR_CONTENT_TYPE (as_bytes "application/json")) "host" host.
Definition cli_post (url : string) (base_id : AtbId) (ticket : AttestTicket) (ciphertext : string) (host : bytes) : Transport.Request :=
  Transport.mk_request "POST" (url +:+ "/api/echo") (cli_headers base_id ticket host) (ciphertext_to_json ciphertext) None.

(** The second closure. *)
Definition cli_open (base_id : AtbId) (ct : bytes) (keys : SessionKeys) : outcome (result string EchoResponse) :=
  opener ← expect (AeadKey.new Aes256Gcm (server_write_key keys));
  Returns (
    plaintext ← map_err (λ _, "Failed to decrypt response"%string)
      (AeadKey.open_in_place opener (build_aead_nonce 1 (server_write_iv keys)) (request_aad base_id) ct);
    ok_or (value_from_slice plaintext) "invalid response"%string).

Context (show_session : SessionError → string).
Definition cli_read (t2 : Z) (session : SessionInner) (resp : Transport.Response) : outcome (result string EchoResponse) :=
  if negb (is_success (Transport.status resp)) then
    Returns (Err ("Server returned error: " +:+ string_of_list_ascii (Transport.resp_body resp))%string)
  else
    match (c ← response_ciphertext (Transport.resp_body resp); hex ← ok_or c "Missing ciphertext in response"%string; ok_or (hex_decode hex) "invalid hex"%string) with
    | Err e => Returns (Err e)
    | Ok ct =>
        match AttestSession.peek_keys t2 session (cli_open (id session) ct) with
        | Err e => Returns (Err ("Session error: " +:+ show_session e)%string)
        | Ok reply => reply
        end
    end.

(** After the handshake; [send] is the second HTTP client, with its error as text. *)
Definition cli_echo {W} (send : W → Transport.Request → result string Transport.Response * W) (url message : string) (host : bytes)
    (t1 t2 : Z) (session : SessionInner) (w : W) : outcome (result string EchoResponse) * W :=
  match AttestSession.peek_keys t1 session (cli_seal (id session) (mk_echo_request message)) with
  | Err e => (Returns (Err ("Session expired: " +:+ show_session e)%string), w)
  | Ok Panics => (Panics, w)
  | Ok (Returns (ciphertext, ticket)) =>
      match send w (cli_post url (id session) ticket ciphertext host) with
      | (Err e, w) => (Returns (Err e), w)
      | (Ok resp, w) => (cli_read t2 session resp, w)
      end
  end.

(** [run_client]: the client has no verifier and asks for no preflight; its transport is the
    one that the builder takes by default.  [parse_uri] reads the address, [make] is
    [OpenHttpaClient::new], [mock] the provider of [--mutual]. *)
Definition cli_builder (url : string) (mutual : bool) (mock : TeeOps) : OpenHttpaClientBuilder :=
  let b := with_server_uri builder url in if mutual then Oblivious.tee_provider b mock else b.
Definition run_client {W} {CT : ClientText} {ShJ : ShareJson} {SP : SfvPrim} {HJ : HeaderJson} {HkP : HkdfPrim} {KP : KexPrim}
    (wire_send : wire W) (mldsa_verify : bytes → bytes → bytes → bool) (allow : option string) (show : ClientError → string)
    (bld : Build) (avail : ProviderKind → bool) (make : BuiltClient → OpenHttpaClient) (mock : TeeOps) (parse_uri : string → result string string)
    (post : W → Transport.Request → result string Transport.Response * W) (host : bytes) (e : ClientEnv) (t1 t2 : Z)
    (url message : string) (mutual : bool) (w : W) : outcome (result string EchoResponse) * W :=
  match parse_uri url with
  | Err m => (Returns (Err m), w)
  | Ok uri =>
      match build_client bld avail (cli_builder uri mutual mock) with
      | Panics => (Panics, w)
      | Returns built =>
          match attest_handshake (handshake_send wire_send) mldsa_verify allow (make built) e w with
          | (Panics, w) => (Panics, w)
          | (Returns (Err err), w) => (Returns (Err ("Handshake failed: " +:+ show err)%string), w)
          | (Returns (Ok session), w) => cli_echo post url message host t1 t2 session w
          end
      end
  end.

End client.

(** ** The two together *)

Section together.
Context {AP : AeadPrim} {HP : HashPrim} {MP : HmacPrim} {UP : UuidPrim} {XP : HexPrim} {BP : Base64Prim}.
Context {J : CiphertextJson} {X : JsonExtractor} {CJ : CliJson} {VQ : ValueJson EchoRequest} {VA : ValueJson EchoResponse}.

(** The request as axum hands it over. *)
Definition cli_net (req : Transport.Request) : Request :=
  Middleware.mk_request (Transport.method req) "/api/echo" None None None (Transport.req_headers req) (Transport.req_body req).
Definition cli_serve (t1 t2 : Z) (r : AtbRegistry.t) (req : Transport.Request) : result string Transport.Response * AtbRegistry.t :=
  let '(res, r) := echo_handler t1 t2 r (cli_net req) in
  (Ok match res with Ok s => Transport.mk_response 200 [] (resp_body s) None | Err st => Transport.mk_response st [] [] None end, r).

End together.

(** ** Theorems *)

Section facts.
Context {AP : AeadPrim} {AL : AeadLaws AP} {HP : HashPrim} {MP : HmacPrim} {UP : UuidPrim} {UL : UuidLaws UP} {XP : HexPrim} {XL : HexLaws XP} {BP : Base64Prim} {BA : Base64Alphabet BP}.
Context {J : CiphertextJson} {X : JsonExtractor} {CJ : CliJson} {CL : CliJsonLaws CJ J} {VQ : ValueJson EchoRequest} {VA : ValueJson EchoResponse}.
Context {VL : ValueJsonLaws EchoResponse VA} (show_session : SessionError → string).

Lemma cli_ticket_unreadable base_id ticket host :
  ∃ e, decode_attest_ticket (cli_headers base_id ticket host) = Err e.
Proof using CL BA.
  unfold decode_attest_ticket, decode_header, cli_headers. rewrite hm_get_insert_ne, hm_get_insert_ne, hm_get_insert by done. cbn [ok_or mbind result_bind].
  assert (Hv := ticket_visible ticket). assert (Hh := ticket_is_object ticket).
  destruct (attest_ticket_to_string ticket) as [|b t]; [done|]. injection Hh as ->.
  unfold to_str. rewrite Hv. cbn [ok_or mbind result_bind string_of_list_ascii].
  rewrite b64_no_brace. by eexists.
Qed.

(** Every request that the client makes is refused, whatever the server's state. *)
Lemma cli_post_refused t1 t2 r url base_id ticket ciphertext host :
  ∃ st, (echo_handler t1 t2 r (cli_net (cli_post url base_id ticket ciphertext host))).1 = Err st ∧ is_success st = false.
Proof using CL BA.
  unfold echo_handler. set (req := cli_net _). assert (∀ r, (from_request_parts t1 r req).1 = Err UNAUTHORIZED ∨ (from_request_parts t1 r req).1 = Err FORBIDDEN ∨
    ∃ s, (from_request_parts t1 r req).1 = Ok s) as Hparts.
  { intros r'. unfold from_request_parts. destruct (_ ← _; _); [|by left]. destruct (uuid_parse _); [|by left].
    destruct (AtbRegistry.get _ _ _) as [[s0|] r0]; [|by right; left]. right; right. by eexists. }
  destruct (from_request_parts t1 r req) as [sess r1] eqn:Hs. destruct (Hparts r) as [H|[H|[s H]]]; rewrite Hs in H; cbn in H; subst sess; [by eexists..|].
  unfold encrypted_json, decrypt_request. destruct (cli_ticket_unreadable base_id ticket host) as [e He].
  assert (decode_attest_ticket (headers req) = Err e) as -> by exact He.
  destruct (from_request_parts t1 r1 req) as [sess r2] eqn:Hs2. destruct (Hparts r1) as [H|[H|[s2 H]]]; rewrite Hs2 in H; cbn in H; subst sess; [by eexists..|].
  cbn. eexists. split; [done|]. by destruct e.
Qed.

(** The reply to the first request of a session is read by the client. *)
Lemma cli_reads_reply t1 t2 cs ss (v : EchoResponse) pt :
  synced cs ss → ready t1 ss → server_counter ss = 1 → t2 < expires_at cs → value_to_vec v = Some pt → Z.of_nat (length pt) ≤ 2 ^ 36 - 32 →
  ∃ s, (seal t1 (mk_ohs ss (request_aad (id ss))) v).1 = Ok s ∧
    cli_read show_session t2 cs (Transport.mk_response 200 [] (resp_body s) None) = Returns (Ok v).
Proof using AL XL CL VL.
  intros Hsync Hr Hone Ht Hv Hpt. destruct (server_seals t1 ss v pt) as (ct & Hct & Hseal); [apply Hsync|done|by rewrite Hone|done..|].
  rewrite Hseal. eexists. split; [done|]. unfold cli_read. change (is_success (Transport.status _)) with true. cbn [negb Transport.resp_body resp_body].
  rewrite response_reads. cbn [mbind result_bind ok_or]. rewrite hex_decode_encode. cbn [ok_or]. unfold AttestSession.peek_keys. rewrite decide_False by lia.
  unfold cli_open. rewrite (sync_keys _ _ Hsync), (sync_id _ _ Hsync). destruct (sync_keys_wf _ _ Hsync) as (_ & _ & _ & Hk & _).
  assert (AeadKey.new Aes256Gcm (server_write_key (keys ss)) = Ok (AeadKey.mk (server_write_key (keys ss)) Aes256Gcm)) as -> by by apply AeadKey.new_wf.
  cbn [expect mbind outcome_bind]. apply AeadKey.open_seal_iff in Hct. rewrite Hone in Hct. rewrite Hct. cbn [map_err mbind result_bind].
  by rewrite (value_round_trip _ _ Hv).
Qed.

End facts.

(** The demo does not work: against the demo's server, in any state, the client's echo never
    succeeds, because its ticket is JSON and the server reads Base64. *)
Theorem cli_demo_refused {AP : AeadPrim} {HP : HashPrim} {MP : HmacPrim} {UP : UuidPrim} {XP : HexPrim} {BP : Base64Prim} {BA : Base64Alphabet BP}
    {J : CiphertextJson} {X : JsonExtractor} {CJ : CliJson} {CL : CliJsonLaws CJ J} {VQ : ValueJson EchoRequest} {VA : ValueJson EchoResponse}
    (show_session : SessionError → string) (url message : string) (host : bytes) (t1 t2 t3 t4 : Z) (session : SessionInner) (r : AtbRegistry.t) (v : EchoResponse) :
  (cli_echo show_session (cli_serve t1 t2) url message host t3 t4 session r).1 ≠ Returns (Ok v).
Proof.
  unfold cli_echo. destruct (AttestSession.peek_keys _ _ _) as [[[ct ticket]|]|e]; [|done..].
  unfold cli_serve. destruct (cli_post_refused t1 t2 r url (id session) ticket ct host) as (st & Hst & Hno).
  destruct (echo_handler _ _ _ _) as [res r']. cbn in Hst. subst res. cbn [fst]. unfold cli_read. cbn [Transport.status]. by rewrite Hno.
Qed.

(** The reply round trips: what the handler seals first in a session, the client reads with
    its fixed counter. *)
Theorem cli_reply_round_trip {AP : AeadPrim} {AL : AeadLaws AP} {HP : HashPrim} {UP : UuidPrim} {XP : HexPrim} {XL : HexLaws XP}
    {J : CiphertextJson} {CJ : CliJson} {CL : CliJsonLaws CJ J} {VA : ValueJson EchoResponse} {VL : ValueJsonLaws EchoResponse VA}
    (show_session : SessionError → string) (t1 t2 expiry_client expiry_server : Z) (i : AtbId) (suite : CipherSuite) (ver : ProtocolVersion) (k : SessionKeys)
    (v : EchoResponse) (pt : bytes) :
  length i = 16%nat → keys_wf k → t1 < expiry_server → t2 < expiry_client → value_to_vec v = Some pt → Z.of_nat (length pt) ≤ 2 ^ 36 - 32 →
  ∃ s, (seal t1 (mk_ohs (AttestSession.new i suite ver k expiry_server default_strategy None) (request_aad i)) v).1 = Ok s ∧
    cli_read show_session t2 (AttestSession.new i suite ver k expiry_client default_strategy None) (Transport.mk_response 200 [] (resp_body s) None) = Returns (Ok v).
Proof.
  intros Hi Hk H1 H2 Hv Hpt. set (cs := AttestSession.new _ _ _ _ expiry_client _ _). set (ss := AttestSession.new _ _ _ _ expiry_server _ _).
  assert (synced cs ss) by by apply synced_new. by eapply cli_reads_reply; [| | |exact H2|exact Hv|exact Hpt].
Qed.
