(* ===== verification/Zk.v ===== *)
(** * Zero-knowledge receipts

    From [crates/openhttpa-zk]: the guest program that runs in the RISC Zero virtual
    machine ([methods/guest/src/main.rs]), the prover and the verifier of receipts
    ([src/prover.rs], [src/verifier.rs]) and the verifier of compressed quotes
    ([src/dcap_zk_verifier.rs]); and the provider that compresses the quotes of another
    one ([ZkCompressedTeeProvider] of [crates/openhttpa-tee/src/provider.rs]).

    The virtual machine, X.509, ECDSA and the codecs are classes of operations.  The
    crate is compiled in three ways (cfg [feature = "zk"], and within it the flag
    [openhttpa_zk_stub]); each way has its own definitions. *)

From S2P Require Import Prelude Codec Crypto Proto Attestation Tee Middleware.
From stdpp Require Import options.

#[local] Open Scope Z_scope.

(** ** Inputs and outputs ([src/lib.rs]) *)

Inductive ZkMode : Type := Handshake | VerifiedAi | Oracle | DcapCompression.
#[export] Instance ZkMode_eq_dec : EqDecision ZkMode.
Proof. solve_decision. Defined.

Record VaiInput : Type := mk_vai { model_id : bytes; input_hash : bytes; output_hash : bytes }.
Record DcapCollateral : Type := mk_collateral {
  pck_cert : bytes;
  intermediate_ca : bytes;
  root_ca : bytes;
  tcb_info : bytes;
  qe_identity : bytes;
}.
Record ZkInput : Type := mk_zk_input {
  zi_mode : ZkMode;
  zi_transcript_hash : bytes;
  quote_bytes : bytes;
  zi_report_data : bytes;
  oracle_data : option bytes;
  vai_data : option VaiInput;
  dcap_collateral : option DcapCollateral;
}.
Record VaiOutput : Type := mk_vai_output { vo_vai : VaiInput; verified_at_secs : Z }.

(** The journal as the guest writes it ... *)
Record GuestOutput : Type := mk_guest_output {
  zo_mode : ZkMode;
  zo_transcript_hash : bytes;
  is_valid : bool;
  oracle_payload_hash : bytes;
  vai_output : option VaiOutput;
  dcap_verified : bool;
}.
(** ... and as the host reads it: one field more. *)
Record ZkOutput : Type := mk_zk_output { zo_fields : GuestOutput; zo_iat : Z }.

(** The types fix the lengths of the arrays. *)
Definition wf_vai (v : VaiInput) : Prop :=
  length (model_id v) = 32%nat ∧ length (input_hash v) = 32%nat ∧ length (output_hash v) = 32%nat.
Definition wf_input (i : ZkInput) : Prop :=
  length (zi_transcript_hash i) = 48%nat ∧ length (zi_report_data i) = 64%nat ∧
  match vai_data i with Some v => wf_vai v | None => True end.
Definition wf_output (o : GuestOutput) : Prop :=
  length (zo_transcript_hash o) = 48%nat ∧ length (oracle_payload_hash o) = 32%nat ∧
  match vai_output o with Some v => wf_vai (vo_vai v) ∧ is_u64 (verified_at_secs v) | None => True end.

Inductive ZkError : Type := ProverError (m : string) | VerificationError (m : string) | SerializationError (m : string).
#[export] Instance zk_error_display : Display ZkError := λ e,
  match e with
  | ProverError m => "prover error: " +:+ m
  | VerificationError m => "verification error: " +:+ m
  | SerializationError m => "serialization error: " +:+ m
  end.

(** [postcard] writes the fields of a structure one after the other, without
    delimiters or names, and reads them in order; [from_bytes] ignores what is left. *)
Class Postcard : Type := {
  put_input : ZkInput → result string bytes;
  get_input : bytes → option ZkInput;
  put_fields : GuestOutput → bytes;
  take_fields : bytes → result string (GuestOutput * bytes);
  put_u64 : Z → bytes;
  take_u64 : bytes → result string (Z * bytes);
}.
Class PostcardLaws (P : Postcard) : Prop := {
  get_put_input i b : wf_input i → put_input i = Ok b → get_input b = Some i;
  get_input_wf b i : get_input b = Some i → wf_input i;
  take_put_fields o rest : wf_output o → take_fields (put_fields o ++ rest) = Ok (o, rest);
  take_put_u64 z rest : is_u64 z → take_u64 (put_u64 z ++ rest) = Ok (z, rest);
  take_u64_empty : is_ok (take_u64 []) = false;
}.

Section codec.
Context {PC : Postcard}.
Definition put_output (o : ZkOutput) : bytes := put_fields (zo_fields o) ++ put_u64 (zo_iat o).
Definition get_output (b : bytes) : result string ZkOutput :=
  '(o, rest) ← take_fields b;
  '(t, _) ← take_u64 rest;
  Ok (mk_zk_output o t).
End codec.

(** ** The guest program *)

(** X.509 certificates and ECDSA over P-256, and over the curve of k256. *)
Class P256 : Type := {
  Certificate : Type;
  VerifyingKey : Type;
  Signature : Type;
  cert_from_der : bytes → option Certificate;
  cert_signature : Certificate → option bytes;
  cert_tbs_der : Certificate → option bytes;
  cert_public_key : Certificate → option bytes;
  vk_from_sec1 : bytes → option VerifyingKey;
  sig_from_der : bytes → option Signature;
  sig_from_slice : bytes → option Signature;
  vk_verify : VerifyingKey → (*message*) bytes → Signature → bool;
  k256_verify : (*key*) bytes → (*signature*) bytes → (*message*) bytes → option bool;
}.
(** [serde_json] on the TCB info: the levels as pairs of [pcesvn] and status. *)
Class TcbJson : Type := { tcb_from_slice : bytes → option (list (Z * string)) }.

Section guest.
Context {P : P256}.

Definition extract_verifying_key (c : Certificate) : option VerifyingKey := k ← cert_public_key c; vk_from_sec1 k.

Definition verify_cert (c : Certificate) (issuer_pub : VerifyingKey) : outcome bool :=
  sig_bytes ← expect (cert_signature c);
  Returns match sig_from_der sig_bytes with
          | None => false
          | Some sig => vk_verify issuer_pub (default [] (cert_tbs_der c)) sig
          end.

Definition verify_cert_chain (root inter pck : bytes) : outcome bool :=
  match cert_from_der root, cert_from_der inter, cert_from_der pck with
  | Some root_cert, Some inter_cert, Some pck_cert =>
      match extract_verifying_key root_cert with
      | None => Returns false
      | Some root_pub =>
          ok ← verify_cert inter_cert root_pub;
          if negb ok then Returns false
          else match extract_verifying_key inter_cert with
               | None => Returns false
               | Some inter_pub => verify_cert pck_cert inter_pub
               end
      end
  | _, _, _ => Returns false
  end.

(** [SgxDcapVerifier::verify_quote] *)
Definition verify_quote (quote report_data : bytes) (collateral : option DcapCollateral) : outcome bool :=
  match collateral with
  | None => Returns false
  | Some col =>
      if decide (length quote < 1024)%nat then Returns false
      else
        chain ← verify_cert_chain (root_ca col) (intermediate_ca col) (pck_cert col);
        if negb chain then Returns false
        else
          body ← slice quote 48 432;
          len ← slice quote 432 436;
          signature_bytes ← slice quote 436 (436 + Z.to_nat (from_le len));
          quote_report_data ← slice body 320 384;
          if decide (quote_report_data ≠ report_data) then Returns false
          else match cert_from_der (pck_cert col) ≫= extract_verifying_key, sig_from_slice signature_bytes with
               | Some pck_pub, Some sig =>
                   signed_data ← slice quote 0 432;
                   Returns (vk_verify pck_pub signed_data sig)
               | _, _ => Returns false
               end
  end.

Context {TJ : TcbJson}.

Fixpoint first_level (pcesvn : Z) (levels : list (Z * string)) : bool :=
  match levels with
  | [] => false
  | (svn, status) :: levels =>
      if decide (svn ≤ pcesvn)
      then bool_decide (status = "UpToDate" ∨ status = "SWHardeningNeeded")%string
      else first_level pcesvn levels
  end.
Definition verify_tcb_status (quote tcb_info_json : bytes) : outcome bool :=
  body ← slice quote 48 432;
  svn ← slice body 384 386;
  let pcesvn := from_le svn in
  Returns match tcb_from_slice tcb_info_json with
          | None => false
          | Some levels => first_level pcesvn levels
          end.

Context {HP : HashPrim}.

Definition HS_PREFIX : bytes := as_bytes "openhttpa hs server".
Definition VAI_PREFIX : bytes := as_bytes "openhttpa vai v1".
Definition ORACLE_PREFIX : bytes := as_bytes "openhttpa oracle v1".

(** What the report data must be the SHA-512 digest of; a missing part panics. *)
Definition binding_preimage (i : ZkInput) : outcome bytes :=
  match zi_mode i with
  | Handshake | DcapCompression => Returns (HS_PREFIX ++ zi_transcript_hash i)
  | VerifiedAi =>
      vai ← expect (vai_data i);
      Returns (VAI_PREFIX ++ model_id vai ++ input_hash vai ++ output_hash vai)
  | Oracle =>
      data ← expect (oracle_data i);
      Returns (ORACLE_PREFIX ++ zi_transcript_hash i ++ data)
  end.
Definition assert_binding (i : ZkInput) : outcome () :=
  pre ← binding_preimage i;
  if decide (zi_report_data i = sha512 pre) then Returns () else Panics.

Definition guest_dcap (i : ZkInput) : outcome bool :=
  if decide (zi_mode i = DcapCompression) then
    ok ← verify_quote (quote_bytes i) (zi_report_data i) (dcap_collateral i);
    match ok, dcap_collateral i with
    | true, Some collateral => verify_tcb_status (quote_bytes i) (tcb_info collateral)
    | _, _ => Returns ok
    end
  else Returns false.

(** The check of an ECDSA signature at the end of the quote, whose verdict is dropped. *)
Definition guest_k256 (i : ZkInput) : outcome () :=
  let n := length (quote_bytes i) in
  if decide (97 < n)%nat then
    vk_bytes ← slice (quote_bytes i) (n - 64 - 33) (n - 64);
    sig_bytes ← slice (quote_bytes i) (n - 64) n;
    let _ := k256_verify vk_bytes sig_bytes (zi_report_data i) in
    Returns ()
  else Returns ().
Definition guest_run (i : ZkInput) : outcome GuestOutput :=
  _ ← guest_k256 i;
  _ ← assert_binding i;
  dcap ← guest_dcap i;
  Returns (mk_guest_output (zi_mode i) (zi_transcript_hash i) true (sha256 (default [] (oracle_data i)))
    ((λ v, mk_vai_output v 0) <$> vai_data i) dcap).

Context {PC : Postcard}.

(** [main]: the bytes that are committed to the journal. *)
Definition guest_main (input_bytes : bytes) : outcome bytes :=
  input ← expect (get_input input_bytes);
  put_fields <$> guest_run input.

End guest.

(** ** Prover and verifier *)

Definition no_id : list Z := replicate 8 0.

(** What the build embeds: the features, the stub flag, and the generated image. *)
Record ZkBuild : Type := mk_zk_build {
  feature_mock : bool;
  zk_stub : bool;
  embedded_id : list Z;
  embedded_elf : bytes;
}.
Definition OPENHTTPA_GUEST_ID (b : ZkBuild) : list Z :=
  if feature_mock b then no_id else if zk_stub b then no_id else embedded_id b.
Definition OPENHTTPA_GUEST_ELF (b : ZkBuild) : bytes :=
  if feature_mock b then [] else if zk_stub b then [] else embedded_elf b.

(** What [verify] does once the proof is checked. *)
Definition check_statement (output : ZkOutput) (expected_transcript : bytes) : result ZkError ZkOutput :=
  if negb (is_valid (zo_fields output))
  then Err (VerificationError "guest program reported invalid attestation")
  else if decide (zo_transcript_hash (zo_fields output) ≠ expected_transcript)
  then Err (VerificationError "transcript hash mismatch in ZK proof")
  else Ok output.

(** *** Without the feature [zk]: a receipt is a journal *)
Module Simulated.
Section simulated.
Context {PC : Postcard}.

Record Receipt : Type := mk_receipt { journal : bytes }.

Definition SIMULATED_TIME : Z := 1700000000.
Definition simulated_output (i : ZkInput) : ZkOutput :=
  mk_zk_output
    (mk_guest_output (zi_mode i) (zi_transcript_hash i) true (replicate 32 (u8_of 0))
       ((λ v, mk_vai_output v SIMULATED_TIME) <$> vai_data i) (bool_decide (zi_mode i = DcapCompression)))
    SIMULATED_TIME.
Definition prove (i : ZkInput) : result ZkError Receipt := Ok (mk_receipt (put_output (simulated_output i))).
Definition extract_output (r : Receipt) : result ZkError ZkOutput := map_err SerializationError (get_output (journal r)).
Definition verify (r : Receipt) (expected_transcript : bytes) : result ZkError ZkOutput :=
  output ← extract_output r; check_statement output expected_transcript.

End simulated.
End Simulated.

(** *** With the feature [zk] *)

(** The virtual machine: a receipt is checked against an image identifier; its journal
    holds a byte vector in the machine's own encoding. *)
Class Zkvm : Type := {
  Env : Type;
  Receipt : Type;
  env_write : bytes → result string Env;
  env_build : Env → result string Env;
  zkvm_prove : Env → (*elf*) bytes → result string Receipt;
  receipt_verify : Receipt → (*image id*) list Z → result string ();
  journal_vec : Receipt → result string bytes;
}.
(** Soundness of the proof system for the image [id] of the program [guest]: a receipt
    that verifies comes from a run of that program. *)
Class ZkvmSound (Z0 : Zkvm) (guest : bytes → outcome bytes) (id : list Z) : Prop := {
  verified_run r : receipt_verify r id = Ok () →
    ∃ input out, guest input = Returns out ∧ journal_vec r = Ok out;
}.

Module Proved.
Section proved.
Context {PC : Postcard} {ZV : Zkvm}.

Definition prove (b : ZkBuild) (i : ZkInput) : result ZkError Receipt :=
  if zk_stub b then Err (ProverError "ZK guest program was not compiled into this binary")
  else if decide (OPENHTTPA_GUEST_ID b = no_id) then Err (ProverError "OPENHTTPA_GUEST_ID is all-zeros")
  else
    input_bytes ← map_err SerializationError (put_input i);
    env ← map_err SerializationError (env_write input_bytes);
    env ← map_err ProverError (env_build env);
    receipt ← map_err ProverError (zkvm_prove env (OPENHTTPA_GUEST_ELF b));
    _ ← map_err VerificationError (receipt_verify receipt (OPENHTTPA_GUEST_ID b));
    Ok receipt.
Definition extract_output (r : Receipt) : result ZkError ZkOutput :=
  out_bytes ← map_err SerializationError (journal_vec r);
  map_err SerializationError (get_output out_bytes).
Definition verify (b : ZkBuild) (r : Receipt) (expected_transcript : bytes) : result ZkError ZkOutput :=
  _ ← map_err VerificationError (receipt_verify r (OPENHTTPA_GUEST_ID b));
  output ← extract_output r;
  check_statement output expected_transcript.

End proved.
End Proved.

(** ** Compressed quotes ([DcapZkVerifier]) *)

Section dcap.
Context {HxP : HexPrim} {R : Type}.
(** [bincode] on receipts, and [ZkVerifier::verify] of the build. *)
Context (receipt_from_slice : bytes → result string R) (zk_verify : R → bytes → result ZkError ZkOutput).

Definition dcap_zk_verify (allow_fallback : bool) : QuoteVerifier := λ quote report_data,
  if decide (quote_type quote ≠ ZkCompressed) then
    if allow_fallback then Err (Malformed "Raw DCAP fallback not implemented")
    else Err (Malformed "Expected ZkCompressed quote type")
  else
    receipt ← map_err (λ e, Malformed ("Failed to deserialize ZK receipt: " +:+ e)) (receipt_from_slice (quote_raw quote));
    output ← map_err (λ _, SignatureInvalid) (zk_verify receipt (take 48 report_data));
    if decide (zo_mode (zo_fields output) ≠ DcapCompression ∨ dcap_verified (zo_fields output) = false)
    then Err SignatureInvalid
    else Ok (mk_result None
      (mk_claims None (Some "Intel SGX (ZK-Compressed)"%string) (Some "v3.0 (ZAA)"%string) None (Some 0) None (Some 3)
         (Some (zo_iat output)) None None)
      "UpToDate" (Some (hex_encode (zo_transcript_hash (zo_fields output)))) None []).

(** *** The provider of compressed quotes *)
Context (zk_prove : ZkInput → result ZkError R) (receipt_to_vec : R → result string bytes).

(** The certificates and JSON documents that stand in for the collateral. *)
Definition newline : string := String (ascii_of_nat 10) EmptyString.
Definition placeholder_pem (label : string) : bytes :=
  as_bytes ("-----BEGIN CERTIFICATE-----" +:+ newline +:+ "MIIC..." +:+ label +:+ "...=" +:+ newline +:+ "-----END CERTIFICATE-----").
Definition quoted (s : string) : string := String (ascii_of_nat 34) s +:+ String (ascii_of_nat 34) EmptyString.
Definition placeholder_collateral : DcapCollateral :=
  mk_collateral (placeholder_pem "PCK") (placeholder_pem "INT") (placeholder_pem "ROOT")
    (as_bytes ("{" +:+ quoted "tcbInfo" +:+ ": {" +:+ quoted "version" +:+ ": 3}}"))
    (as_bytes ("{" +:+ quoted "qeIdentity" +:+ ": {" +:+ quoted "id" +:+ ": " +:+ quoted "QE" +:+ "}}")).
Definition zk_compressed_input (quote report_data : bytes) : ZkInput :=
  mk_zk_input DcapCompression (take 48 report_data) quote report_data None None (Some placeholder_collateral).

Definition zk_compressed_quote (inner : TeeOps) (report_data : bytes) : result TeeProviderError AttestQuote :=
  raw_quote ← op_generate_quote inner report_data;
  receipt ← map_err (λ e, Enclave ("ZK-proving failed: " +:+ to_string e))
              (zk_prove (zk_compressed_input (quote_raw raw_quote) report_data));
  receipt_bytes ← map_err (λ e, Enclave ("Serialization failed: " +:+ e)) (receipt_to_vec receipt);
  Ok (mk_quote ZkCompressed Raw receipt_bytes report_data (collateral_uris raw_quote)).
(** The other operations keep the defaults of the trait, but for [derive_key]. *)
Definition zk_compressed_ops (inner : TeeOps) : TeeOps :=
  let p := provider ZkCompressed (zk_compressed_quote inner) (op_is_available inner) in
  mk_tee_ops (op_quote_type p) (op_generate_quote p) (op_generate_quotes p) (op_is_available p) (op_seal_data p) (op_unseal_data p)
    (op_derive_key inner).

End dcap.

(** ** What the guest proves *)

(** What a journal is about. *)
Inductive Statement : Type :=
| ServerStatement (transcript : bytes)
| AiStatement (v : VaiInput)
| OracleStatement (transcript data : bytes).
Definition statement (i : ZkInput) : option Statement :=
  match zi_mode i with
  | Handshake | DcapCompression => Some (ServerStatement (zi_transcript_hash i))
  | VerifiedAi => AiStatement <$> vai_data i
  | Oracle => OracleStatement (zi_transcript_hash i) <$> oracle_data i
  end.
Definition preimage (s : Statement) : bytes :=
  match s with
  | ServerStatement th => HS_PREFIX ++ th
  | AiStatement v => VAI_PREFIX ++ model_id v ++ input_hash v ++ output_hash v
  | OracleStatement th data => ORACLE_PREFIX ++ th ++ data
  end.
Definition wf_statement (s : Statement) : Prop :=
  match s with
  | ServerStatement th => length th = 48%nat
  | AiStatement v => wf_vai v
  | OracleStatement th _ => length th = 48%nat
  end.

Lemma binding_preimage_statement i : binding_preimage i = expect (preimage <$> statement i).
Proof. unfold binding_preimage, statement. destruct (zi_mode i); [|destruct (vai_data i)|destruct (oracle_data i)|]; done. Qed.
Lemma statement_wf i s : wf_input i → statement i = Some s → wf_statement s.
Proof.
  intros (Ht & _ & Hv). unfold statement. destruct (zi_mode i); [intros [= <-]|destruct (vai_data i); intros [= <-]
    |destruct (oracle_data i); intros [= <-]|intros [= <-]]; done.
Qed.

(** The three prefixes separate the domains, and the parts have fixed lengths. *)
Lemma preimage_inj s s' : wf_statement s → wf_statement s' → preimage s = preimage s' → s = s'.
Proof.
  destruct s as [t|[m i o]|t d], s' as [t'|[m' i' o']|t' d']; cbn [wf_statement preimage]; unfold wf_vai; cbn;
    intros Hw Hw'; try discriminate; intros [= He].
  - by subst.
  - destruct Hw as (Hm & Hi & Ho), Hw' as (Hm' & Hi' & Ho').
    apply app_inj_1 in He as [-> He]; [|congruence]. by apply app_inj_1 in He as [-> ->]; [|congruence].
  - by apply app_inj_1 in He as [-> ->]; [|congruence].
Qed.

(** The slice of the report is one word too short: the status check never returns. *)
Lemma tcb_status_panics {TJ : TcbJson} quote info : verify_tcb_status quote info = Panics.
Proof.
  unfold verify_tcb_status. destruct (slice quote 48 432) as [body|] eqn:Hs; [|done].
  apply slice_Returns in Hs as [Hl ->]. cbn [mbind outcome_bind]. unfold slice. rewrite decide_False; [done|].
  rewrite length_take, length_drop. lia.
Qed.

Section guest_facts.
Context {P : P256} {TJ : TcbJson} {HP : HashPrim} {PC : Postcard}.

Definition committed (i : ZkInput) : GuestOutput :=
  mk_guest_output (zi_mode i) (zi_transcript_hash i) true (sha256 (default [] (oracle_data i)))
    ((λ v, mk_vai_output v 0) <$> vai_data i) false.
Definition quote_refused (i : ZkInput) : Prop :=
  zi_mode i = DcapCompression → verify_quote (quote_bytes i) (zi_report_data i) (dcap_collateral i) = Returns false.

Lemma guest_dcap_Returns i b : guest_dcap i = Returns b ↔ b = false ∧ quote_refused i.
Proof.
  unfold guest_dcap, quote_refused. case_decide as Hm; [|naive_solver]. rewrite bind_Returns. split.
  - intros (ok & Hq & Hr). destruct ok; [|by simplify_eq]. destruct (dcap_collateral i) eqn:Hc.
    + by rewrite tcb_status_panics in Hr.
    + unfold verify_quote in Hq. simplify_eq.
  - intros [-> Hq]. exists false. split; [auto|]. done.
Qed.
Lemma guest_k256_Returns i : guest_k256 i = Returns ().
Proof. unfold guest_k256, slice. case_decide; [|done]. by rewrite !decide_True by lia. Qed.
Lemma guest_run_Returns i o :
  guest_run i = Returns o ↔
  (∃ s, statement i = Some s ∧ zi_report_data i = sha512 (preimage s)) ∧ quote_refused i ∧ o = committed i.
Proof.
  unfold guest_run, assert_binding. rewrite guest_k256_Returns, binding_preimage_statement. cbn [mbind outcome_bind].
  destruct (statement i) as [s|]; [|split; [done|by intros [(? & ? & _) _]]]. cbn [fmap option_fmap option_map expect mbind outcome_bind].
  case_decide as Hb; [|split; [done|by intros [(? & [= <-] & ?) _]]]. cbn [mbind outcome_bind].
  rewrite bind_Returns. setoid_rewrite guest_dcap_Returns. unfold committed. split.
  - intros (? & [-> Hq] & [= <-]). eauto.
  - intros (_ & Hq & ->). eauto.
Qed.

Lemma guest_main_Returns b out :
  guest_main b = Returns out ↔ ∃ i s, get_input b = Some i ∧ statement i = Some s ∧
    zi_report_data i = sha512 (preimage s) ∧ quote_refused i ∧ out = put_fields (committed i).
Proof.
  unfold guest_main. destruct (get_input b) as [i|]; [|split; [done|by intros (? & ? & ? & _)]].
  cbn [expect mbind outcome_bind]. split.
  - destruct (guest_run i) as [o|] eqn:Hr; [|done]. intros [= <-].
    apply guest_run_Returns in Hr as ((s & Hs & Hd) & Hq & ->). eauto 10.
  - intros (? & s & [= <-] & Hs & Hd & Hq & ->). by rewrite (proj2 (guest_run_Returns i (committed i))) by eauto.
Qed.

End guest_facts.

(** [C34] What a run of the guest commits to.  It commits exactly when its input
    decodes, the report data is the SHA-512 digest of the statement, with the prefix
    of its domain, and, in the mode for compressed quotes, the quote is refused; the
    journal then says that the quote was not verified, and on a quote that is accepted
    the guest panics.  Two runs with one report data either state the same or exhibit a
    SHA-512 collision. *)
Theorem guest_sound {P : P256} {TJ : TcbJson} {HP : HashPrim} {PC : Postcard} {PL : PostcardLaws PC} (b : bytes) :
  (∀ out, guest_main b = Returns out ↔ ∃ i s, get_input b = Some i ∧ statement i = Some s ∧
    zi_report_data i = sha512 (preimage s) ∧ quote_refused i ∧ out = put_fields (committed i)) ∧
  (∀ i, get_input b = Some i → zi_mode i = DcapCompression →
    verify_quote (quote_bytes i) (zi_report_data i) (dcap_collateral i) = Returns true → guest_main b = Panics) ∧
  (∀ i s i' s' b', get_input b = Some i → get_input b' = Some i' → statement i = Some s → statement i' = Some s' →
    zi_report_data i = sha512 (preimage s) → zi_report_data i' = sha512 (preimage s') → zi_report_data i = zi_report_data i' →
    s = s' ∨ (preimage s ≠ preimage s' ∧ sha512 (preimage s) = sha512 (preimage s'))).
Proof.
  split_and!; [intros out; apply guest_main_Returns| |].
  { intros i Hi Hm Hq. destruct (guest_main b) as [out|] eqn:Hr; [|done].
    apply guest_main_Returns in Hr as (i' & s & Hi' & _ & _ & Hno & _). rewrite Hi in Hi'. injection Hi' as <-. by rewrite (Hno Hm) in Hq. }
  intros i s i' s' b' Hi Hi' Hs Hs' Hd Hd' He. destruct (decide (preimage s = preimage s')) as [Hp|Hp]; [left|right].
  - by apply preimage_inj; [apply (statement_wf i); [by eapply get_input_wf|]|apply (statement_wf i'); [by eapply get_input_wf|]|].
  - split; [done|]. congruence.
Qed.

(** *** The zero-knowledge build *)

Lemma committed_wf {HP : HashPrim} {HL : HashLaws HP} i : wf_input i → wf_output (committed i).
Proof.
  intros (Ht & _ & Hv). split; [done|]. split; [apply sha256_length|]. cbn. destruct (vai_data i); [|done]. by split; [|split].
Qed.
Lemma simulated_wf i : wf_input i → wf_output (zo_fields (Simulated.simulated_output i)).
Proof. intros (Ht & _ & Hv). split; [done|]. split; [done|]. cbn. destruct (vai_data i); [|done]. by split; [|split]. Qed.

(** The guest writes one field less than the host reads. *)
Lemma guest_journal_short {PC : Postcard} {PL : PostcardLaws PC} o : wf_output o → is_ok (get_output (put_fields o)) = false.
Proof.
  intros Hw. unfold get_output. rewrite <-(app_nil_r (put_fields o)), take_put_fields by done. cbn [mbind result_bind].
  pose proof take_u64_empty as Hu. by destruct (take_u64 []).
Qed.

(** No receipt of the guest is accepted: whatever the image, [ZkVerifier::verify]
    fails on every receipt that a run of the guest can have produced. *)
Theorem zk_receipts_refused {P : P256} {TJ : TcbJson} {HP : HashPrim} {HL : HashLaws HP} {PC : Postcard} {PL : PostcardLaws PC}
    {ZV : Zkvm} (b : ZkBuild) {ZS : ZkvmSound ZV guest_main (OPENHTTPA_GUEST_ID b)} (r : Receipt) (expected : bytes) :
  is_ok (Proved.verify b r expected) = false.
Proof.
  unfold Proved.verify. destruct (receipt_verify r (OPENHTTPA_GUEST_ID b)) as [[]|] eqn:Hv; [|done]. cbn [map_err mbind result_bind].
  destruct (verified_run r Hv) as (input & out & Hg & Hj). unfold Proved.extract_output. rewrite Hj. cbn [map_err mbind result_bind].
  apply guest_main_Returns in Hg as (i & s & Hi & _ & _ & _ & ->).
  pose proof (guest_journal_short (committed i) (committed_wf i (get_input_wf _ _ Hi))) as Hs. by destruct (get_output (put_fields (committed i))).
Qed.

(** *** The default build *)

Lemma simulated_verify {PC : Postcard} {PL : PostcardLaws PC} i th :
  wf_input i →
  Simulated.verify (Simulated.mk_receipt (put_output (Simulated.simulated_output i))) th =
  check_statement (Simulated.simulated_output i) th.
Proof.
  intros Hw. unfold Simulated.verify, Simulated.extract_output, put_output, get_output. cbn [Simulated.journal].
  rewrite take_put_fields by by apply simulated_wf. cbn [mbind result_bind].
  rewrite <-(app_nil_r (put_u64 _)), take_put_u64 by done. by destruct i.
Qed.

(** Without the feature [zk], which no default enables, the prover states any
    input without looking at its quote, and the verifier accepts: the compressed quote that
    the provider makes of any quote whatsoever is accepted. *)
Theorem default_build_accepts_anything {HxP : HexPrim} {PC : Postcard} {PL : PostcardLaws PC}
    (from_slice : bytes → result string Simulated.Receipt) (to_vec : Simulated.Receipt → result string bytes) (fallback : bool)
    (inner : TeeOps) (rd : bytes) (q : AttestQuote) :
  (∀ r b, to_vec r = Ok b → from_slice b = Ok r) → length rd = 64%nat →
  op_generate_quote (zk_compressed_ops Simulated.prove to_vec inner) rd = Ok q →
  ∃ v, dcap_zk_verify from_slice Simulated.verify fallback q rd = Ok v ∧ measurement v = Some (hex_encode (take 48 rd)).
Proof.
  intros Hcodec Hlen. cbn [op_generate_quote zk_compressed_ops provider]. unfold zk_compressed_quote. intros H. inv_ok.
  unfold dcap_zk_verify. rewrite decide_False by (intros []; done). cbn [quote_raw].
  erewrite Hcodec by eassumption. cbn [map_err mbind result_bind].
  match goal with H : Simulated.prove _ = Ok _ |- _ => injection H as <- end.
  rewrite simulated_verify by (repeat split; cbn; rewrite ?length_take; done || lia).
  unfold check_statement. cbn. rewrite decide_False by auto. eexists. split; [done|]. done.
Qed.
(** With the feature, the guest refuses that same input unless the report data is a
    fixed point of the binding. *)
Theorem zk_build_refuses_provider {P : P256} {TJ : TcbJson} {HP : HashPrim} (quote rd : bytes) (o : GuestOutput) :
  guest_run (zk_compressed_input quote rd) = Returns o → rd = sha512 (HS_PREFIX ++ take 48 rd).
Proof. intros ((s & [= <-] & Hr) & _)%guest_run_Returns. exact Hr. Qed.

(** *** Compressed quotes *)

(** What acceptance of a compressed quote means ... *)
Lemma dcap_zk_verify_Ok {HxP : HexPrim} {R} from_slice (zk_verify : R → bytes → result ZkError ZkOutput) fallback q rd v :
  dcap_zk_verify from_slice zk_verify fallback q rd = Ok v →
  quote_type q = ZkCompressed ∧ ∃ r o, from_slice (quote_raw q) = Ok r ∧ zk_verify r (take 48 rd) = Ok o ∧
    zo_mode (zo_fields o) = DcapCompression ∧ dcap_verified (zo_fields o) = true ∧
    measurement v = Some (hex_encode (zo_transcript_hash (zo_fields o))).
Proof.
  unfold dcap_zk_verify. case_decide as Hq; [by destruct fallback|]. intros H. inv_checks.
  split; [done|].
  eexists _, _. split; [done|]. split; [done|].
  split; [apply dec_stable; tauto|]. destruct (dcap_verified _); [done|tauto].
Qed.

(** ... and why an honest one is refused: the verifier compares the transcript with the
    first 48 bytes of the report data, which is a digest of the transcript. *)
Theorem compressed_quote_mismatch {HxP : HexPrim} {HP : HashPrim} {R} (from_slice : bytes → result string R)
    (zk_verify : R → bytes → result ZkError ZkOutput) (fallback : bool) (q : AttestQuote) (i : ZkInput) (s : Statement) :
  (∀ r th o, zk_verify r th = Ok o → zo_transcript_hash (zo_fields o) = th) →
  zi_mode i = DcapCompression → statement i = Some s → zi_report_data i = sha512 (preimage s) →
  (∀ r th o, from_slice (quote_raw q) = Ok r → zk_verify r th = Ok o → zo_transcript_hash (zo_fields o) = zi_transcript_hash i) →
  is_ok (dcap_zk_verify from_slice zk_verify fallback q (zi_report_data i)) = true →
  take 48 (sha512 (HS_PREFIX ++ zi_transcript_hash i)) = zi_transcript_hash i.
Proof.
  intros Hth Hm Hs Hd Hq Hok. destruct (dcap_zk_verify _ _ _ _ _) as [v|] eqn:Hv; [|done].
  apply dcap_zk_verify_Ok in Hv as (_ & r & o & Hr & Ho & _). unfold statement in Hs. rewrite Hm in Hs. injection Hs as <-.
  rewrite Hd in Ho. rewrite <-(Hq r _ o Hr Ho) at 2. by rewrite (Hth r _ o Ho).
Qed.

(** ** Witnesses *)

Module ToyZk.
Export Toy.

#[export] Instance mode_countable : Countable ZkMode.
Proof.
  refine (inj_countable' (λ m, match m with Handshake => 0 | VerifiedAi => 1 | Oracle => 2 | DcapCompression => 3 end%nat)
    (λ n, match n with 0 => Handshake | 1 => VerifiedAi | 2 => Oracle | _ => DcapCompression end%nat) _). by intros [].
Qed.
#[export] Instance vai_eq_dec : EqDecision VaiInput.
Proof. solve_decision. Defined.
#[export] Instance vai_countable : Countable VaiInput.
Proof.
  refine (inj_countable' (λ v, (model_id v, input_hash v, output_hash v)) (λ '(m, i, o), mk_vai m i o) _). by intros [].
Defined.
#[export] Instance collateral_eq_dec : EqDecision DcapCollateral.
Proof. solve_decision. Defined.
#[export] Instance collateral_countable : Countable DcapCollateral.
Proof.
  refine (inj_countable' (λ c, (pck_cert c, intermediate_ca c, root_ca c, tcb_info c, qe_identity c))
    (λ '(p, i, r, t, q), mk_collateral p i r t q) _). by intros [].
Defined.
#[export] Instance input_eq_dec : EqDecision ZkInput.
Proof. solve_decision. Defined.
#[export] Instance input_countable : Countable ZkInput.
Proof.
  refine (inj_countable' (λ i, (zi_mode i, zi_transcript_hash i, quote_bytes i, zi_report_data i, oracle_data i, vai_data i, dcap_collateral i))
    (λ '(m, t, q, r, o, v, c), mk_zk_input m t q r o v c) _). by intros [].
Defined.
#[export] Instance vai_output_eq_dec : EqDecision VaiOutput.
Proof. solve_decision. Defined.
#[export] Instance vai_output_countable : Countable VaiOutput.
Proof. refine (inj_countable' (λ v, (vo_vai v, verified_at_secs v)) (λ '(v, t), mk_vai_output v t) _). by intros []. Defined.
#[export] Instance output_eq_dec : EqDecision GuestOutput.
Proof. solve_decision. Defined.
#[export] Instance output_countable : Countable GuestOutput.
Proof.
  refine (inj_countable' (λ o, (zo_mode o, zo_transcript_hash o, is_valid o, oracle_payload_hash o, vai_output o, dcap_verified o))
    (λ '(m, t, b, h, v, d), mk_guest_output m t b h v d) _). by intros [].
Defined.
#[export] Instance wf_input_dec i : Decision (wf_input i).
Proof. unfold wf_input, wf_vai. destruct (vai_data i); apply _. Defined.

#[export] Instance postcard : Postcard := {|
  put_input i := Ok (ToyCodec.put i);
  get_input b := i ← ToyCodec.get b; if decide (wf_input i) then Some i else None;
  put_fields := ToyCodec.put_delimited;
  take_fields b := ok_or (ToyCodec.take_delimited b) "truncated"%string;
  put_u64 := ToyCodec.put_delimited;
  take_u64 b := ok_or (ToyCodec.take_delimited b) "truncated"%string;
|}.
#[export] Instance postcard_laws : PostcardLaws postcard.
Proof.
  split.
  - intros i b Hw [= <-]. unfold get_input, postcard. rewrite ToyCodec.get_put. cbn [mbind option_bind]. by rewrite decide_True.
  - intros b i (j & _ & Hj)%bind_Some. case_decide; naive_solver.
  - intros o rest _. unfold take_fields, put_fields, postcard. by rewrite ToyCodec.take_put.
  - intros z rest _. unfold take_u64, put_u64, postcard. by rewrite ToyCodec.take_put.
  - done.
Qed.
(** Every certificate is its own key, and signs what starts with it. *)
#[export] Instance p256 : P256 := {|
  Certificate := bytes; VerifyingKey := bytes; Signature := bytes;
  cert_from_der b := Some b; cert_signature c := Some c; cert_tbs_der c := Some c; cert_public_key c := Some c;
  vk_from_sec1 b := Some b; sig_from_der b := Some b; sig_from_slice b := Some b; k256_verify _ _ _ := None;
  vk_verify k m s := bool_decide (k = s);
|}.
#[export] Instance tcb : TcbJson := {| tcb_from_slice _ := None |}.

Definition transcript : bytes := replicate 48 (u8_of 7).
Definition data : bytes := as_bytes "42".
Definition oracle_input : ZkInput :=
  mk_zk_input Oracle transcript [] (sha512 (ORACLE_PREFIX ++ transcript ++ data)) (Some data) None None.
Definition input_bytes : bytes := ToyCodec.put oracle_input.
Lemma input_decodes : get_input input_bytes = Some oracle_input.
Proof. unfold input_bytes. apply (get_put_input oracle_input); [|done]. by repeat split. Qed.

End ToyZk.

Section witnesses.
Import ToyZk.

(** An honest oracle run commits, and its journal names the transcript and the data. *)
Lemma guest_sound_witness :
  guest_main ToyZk.input_bytes = Returns (put_fields (committed ToyZk.oracle_input)) ∧
  oracle_payload_hash (committed ToyZk.oracle_input) = sha256 ToyZk.data.
Proof.
  split; [|done]. apply (proj1 (guest_sound ToyZk.input_bytes)). exists ToyZk.oracle_input, (OracleStatement ToyZk.transcript ToyZk.data).
  split; [exact ToyZk.input_decodes|]. split; [done|]. split; [done|]. by split.
Defined.

End witnesses.
