(* ===== verification/Llm.v ===== *)
(** * The confidential language-model client

    [crates/openhttpa-llm/src]: chat requests inside an attested session, the check of a
    provenance proof against the model, the messages and the answer ([client.rs],
    [types.rs]), and the stub engine ([enclave_inference.rs]).

    The attested client is that of [HandshakeWire] and [ClientCall].  The session behind
    the client's lock is shared with the calls made on it, so a call leaves its counters
    there. *)

From S2P Require Import Prelude Codec Crypto Aead Proto KeySchedule Attestation Session KeyExchange Handshake Tee Http Oblivious Sfv Headers.
From S2P Require Import Registry Middleware Trailers Client Extractors Exchange Handlers HandshakeWire ClientCall A2a Zk.
From stdpp Require Import options.

#[local] Open Scope Z_scope.

(** ** Types *)

Inductive Role : Type := System | User | Assistant.
#[export] Instance role_display : Display Role := λ r,
  match r with System => "system" | User => "user" | Assistant => "assistant" end.
Record ChatMessage : Type := mk_chat_message { role : Role; content : string }.
(** The temperature is a 32-bit float, kept as its bits. *)
Record ChatRequest : Type := mk_chat_request {
  cr_model : string; cr_messages : list ChatMessage; temperature : option bytes; max_tokens : option Z; cr_stream : bool;
}.
Definition new_chat_request (model : string) (messages : list ChatMessage) : ChatRequest := mk_chat_request model messages None None false.
Record ChatChoice : Type := mk_choice { choice_index : Z; choice_message : ChatMessage; finish_reason : option string }.
Record ChatResponse : Type := mk_chat_response {
  resp_id : string; resp_object : string; resp_created : Z; resp_model : string; choices : list ChatChoice; provenance_proof : option string;
}.

Inductive LlmError : Type :=
| LlmHandshake (m : string) | LlmTransport (m : string) | InvalidResponse (m : string) | Inference (m : string).

(** [serde_json] on the two bodies and on receipts; the text of a streamed chunk and
    its field [choices[0].delta.content]. *)
Class ChatJson (R : Type) : Type := {
  chat_request_to_vec : ChatRequest → result string bytes;
  chat_response_from_slice : bytes → result string ChatResponse;
  receipt_from_json : bytes → result string R;
  chunk_from_utf8 : bytes → result string string;
  delta_content : string → option string;
}.

(** ** The client *)

Record ConfidentialLlmClient : Type := mk_llm {
  httpa_client : OpenHttpaClient;
  llm_session : option SessionInner;
  llm_model : string;
  inference_path : string;
  bypass_attestation : bool;
  llm_max_response : Z;
}.
Definition set_session (c : ConfidentialLlmClient) (s : option SessionInner) : ConfidentialLlmClient :=
  mk_llm (httpa_client c) s (llm_model c) (inference_path c) (bypass_attestation c) (llm_max_response c).
Definition with_bypass (c : ConfidentialLlmClient) : ConfidentialLlmClient :=
  mk_llm (httpa_client c) (llm_session c) (llm_model c) (inference_path c) true (llm_max_response c).

Section vai.
Context {HP : HashPrim}.

Definition vai_input_preimage (messages : list ChatMessage) : bytes :=
  concat ((λ m, as_bytes (to_string (role m)) ++ as_bytes (content m)) <$> messages).
Definition compute_vai_hashes (model : string) (messages : list ChatMessage) (answer : string) : VaiInput :=
  mk_vai (sha256 (as_bytes model)) (sha256 (vai_input_preimage messages)) (sha256 (as_bytes answer)).

Context {XP : HexPrim}.

(** The comparison with the journal. *)
Definition check_vai (expected : VaiInput) (o : ZkOutput) : result LlmError () :=
  vai ← ok_or (vai_output (zo_fields o)) (Inference "proof missing V-AI journal");
  if decide (model_id (vo_vai vai) ≠ model_id expected)
  then Err (Inference ("model ID mismatch: expected " +:+ hex_encode (model_id expected) +:+ ", got " +:+ hex_encode (model_id (vo_vai vai))))
  else if decide (input_hash (vo_vai vai) ≠ input_hash expected) then Err (Inference "input hash mismatch")
  else if decide (output_hash (vo_vai vai) ≠ output_hash expected) then Err (Inference "output hash mismatch")
  else Ok ().

End vai.

Section client.
Context {St : Type} (send : wire St).
Context {CT : ClientText} {SJ : ShareJson} {SP : SfvPrim} {HJ : HeaderJson} {UP : UuidPrim} {UR : UriParts} {CJ : CiphertextJson}.
Context {AP : AeadPrim} {HaP : HashPrim} {HP : HkdfPrim} {MP : HmacPrim} {KP : KexPrim} {XP : HexPrim} {BP : Base64Prim}.
Context (mldsa_verify : bytes → bytes → bytes → bool) (allow : option string) (show : ClientError → string).
Context {R : Type} {J : ChatJson R} (zk_verify : R → bytes → result ZkError ZkOutput).

Definition attest (c : ConfidentialLlmClient) (e : ClientEnv) (w : St) : outcome (result LlmError SessionInner) * St :=
  match attest_handshake (handshake_send send) mldsa_verify allow (httpa_client c) e w with
  | (Panics, w) => (Panics, w)
  | (Returns r, w) => (Returns (map_err (λ e, LlmHandshake (show e)) r), w)
  end.

Definition new_llm (client : OpenHttpaClient) (model path : string) (max : Z) (e : ClientEnv) (w : St)
    : outcome (result LlmError ConfidentialLlmClient) * St :=
  let c := mk_llm client None model path false max in
  match attest c e w with
  | (Panics, w) => (Panics, w)
  | (Returns r, w) => (Returns (s ← r; Ok (set_session c (Some s))), w)
  end.

(** A live session is reused; otherwise a new one is attested and kept. *)
Definition ensure_session (now : Z) (e : ClientEnv) (c : ConfidentialLlmClient) (w : St)
    : outcome (result LlmError SessionInner) * ConfidentialLlmClient * St :=
  match (match llm_session c with Some s => if AttestSession.is_alive now s then Some s else None | None => None end) with
  | Some s => (Returns (Ok s), c, w)
  | None =>
      match attest c e w with
      | (Panics, w) => (Panics, c, w)
      | (Returns (Err err), w) => (Returns (Err err), c, w)
      | (Returns (Ok s), w) => (Returns (Ok s), set_session c (Some s), w)
      end
  end.

(** What a chat draws: the readings of the clock and the randomness of up to two
    handshakes; [bypass_post] is the plain HTTP request of the bypass. *)
Record ChatEnv : Type := mk_chat_env {
  chat_now : Z; chat_call : CallEnv; chat_now2 : Z; chat_env2 : ClientEnv; chat_peek : Z;
  bypass_post : string → ChatRequest → result string bytes;
}.

Definition chat_exchange (e : ChatEnv) (c : ConfidentialLlmClient) (req : ChatRequest) (body : bytes) (w : St)
    : outcome (result LlmError bytes) * ConfidentialLlmClient * St :=
  if bypass_attestation c then
    (Returns (map_err LlmTransport (bypass_post e ("http://127.0.0.1:8080" +:+ inference_path c) req)), c, w)
  else
    match ensure_session (chat_now e) (call_client_env (chat_call e)) c w with
    | (Panics, c, w) => (Panics, c, w)
    | (Returns (Err err), c, w) => (Returns (Err err), c, w)
    | (Returns (Ok s), c, w) =>
        let '(r, s, w) := trusted_request_ext send (httpa_client c) (llm_max_response c) (call_t0 (chat_call e)) (call_t1 (chat_call e))
          (call_t2 (chat_call e)) s "POST" (inference_path c) body None w in
        (Returns (map_err (λ e, LlmTransport (show e)) r), set_session c (Some s), w)
    end.

Definition first_content (resp_bytes : bytes) : result LlmError (ChatResponse * string) :=
  if decide (resp_bytes = []) then Err (InvalidResponse "empty response body from inference endpoint")
  else
    resp ← map_err InvalidResponse (chat_response_from_slice resp_bytes);
    choice ← ok_or (head (choices resp)) (Inference "no choices in response");
    Ok (resp, content (choice_message choice)).

(** The transcript of the session at the time of the check, which may be a new one. *)
Definition proof_transcript (e : ChatEnv) (c : ConfidentialLlmClient) (w : St)
    : outcome (result LlmError bytes) * ConfidentialLlmClient * St :=
  if bypass_attestation c then (Returns (Ok (replicate 48 (u8_of 0x42))), c, w)
  else
    match ensure_session (chat_now2 e) (chat_env2 e) c w with
    | (Panics, c, w) => (Panics, c, w)
    | (Returns (Err err), c, w) => (Returns (Err err), c, w)
    | (Returns (Ok s), c, w) =>
        (Returns (map_err (λ e, Inference ("session keys unavailable: " +:+ session_error_string e)) (AttestSession.peek_keys (chat_peek e) s transcript_hash)), c, w)
    end.

Definition verify_provenance (e : ChatEnv) (c : ConfidentialLlmClient) (messages : list ChatMessage) (answer proof_hex : string) (w : St)
    : outcome (result LlmError ()) * ConfidentialLlmClient * St :=
  match (proof_bytes ← ok_or (hex_decode proof_hex) (InvalidResponse "invalid proof hex");
         map_err (λ e, InvalidResponse ("invalid proof format: " +:+ e)) (receipt_from_json proof_bytes)) with
  | Err err => (Returns (Err err), c, w)
  | Ok receipt =>
      let expected := compute_vai_hashes (llm_model c) messages answer in
      match proof_transcript e c w with
      | (Panics, c, w) => (Panics, c, w)
      | (Returns (Err err), c, w) => (Returns (Err err), c, w)
      | (Returns (Ok th), c, w) =>
          (Returns (output ← map_err (λ e, Inference ("ZK verification failed: " +:+ to_string e)) (zk_verify receipt th);
                    check_vai expected output), c, w)
      end
  end.

Definition chat (e : ChatEnv) (c : ConfidentialLlmClient) (messages : list ChatMessage) (w : St)
    : outcome (result LlmError string) * ConfidentialLlmClient * St :=
  let req_body := new_chat_request (llm_model c) messages in
  match map_err InvalidResponse (chat_request_to_vec req_body) with
  | Err err => (Returns (Err err), c, w)
  | Ok body =>
      match chat_exchange e c req_body body w with
      | (Panics, c, w) => (Panics, c, w)
      | (Returns (Err err), c, w) => (Returns (Err err), c, w)
      | (Returns (Ok resp_bytes), c, w) =>
          match first_content resp_bytes with
          | Err err => (Returns (Err err), c, w)
          | Ok (resp, answer) =>
              match provenance_proof resp with
              | None => (Returns (Ok answer), c, w)
              | Some proof_hex =>
                  match verify_provenance e c messages answer proof_hex w with
                  | (Panics, c, w) => (Panics, c, w)
                  | (Returns r, c, w) => (Returns (_ ← r; Ok answer), c, w)
                  end
              end
          end
      end
  end.

(** ** Streaming *)

(** One chunk: the token, or nothing for chunks without content. *)
Definition stream_token (chunk : result string bytes) : result LlmError string :=
  chunk ← map_err LlmTransport chunk;
  text ← map_err InvalidResponse (chunk_from_utf8 chunk);
  Ok (if starts_with "data: " text then
        let json_part := trim (String.substring 6 (String.length text - 6) text) in
        if decide (json_part = "[DONE]"%string) then EmptyString else default EmptyString (delta_content json_part)
      else EmptyString).
Definition keep_token (r : result LlmError string) : bool :=
  match r with Ok s => negb (bool_decide (s = EmptyString)) | Err _ => true end.
Definition token_stream (chunks : list (result string bytes)) : list (result LlmError string) :=
  List.filter keep_token (stream_token <$> chunks).

(** [streaming] is [trusted_request_streaming] on the session: the plaintext chunks. *)
Definition chat_stream (streaming : SessionInner → bytes → result ClientError (list (result string bytes)) * SessionInner)
    (now : Z) (e : ClientEnv) (c : ConfidentialLlmClient) (messages : list ChatMessage) (w : St)
    : outcome (result LlmError (list (result LlmError string))) * ConfidentialLlmClient * St :=
  match ensure_session now e c w with
  | (Panics, c, w) => (Panics, c, w)
  | (Returns (Err err), c, w) => (Returns (Err err), c, w)
  | (Returns (Ok s), c, w) =>
      let req_body := mk_chat_request (llm_model c) messages None None true in
      match map_err InvalidResponse (chat_request_to_vec req_body) with
      | Err err => (Returns (Err err), c, w)
      | Ok body =>
          let '(r, s) := streaming s body in
          (Returns (chunks ← map_err (λ e, LlmTransport (show e)) r; Ok (token_stream chunks)), set_session c (Some s), w)
      end
  end.



(** ** The builder *)

Record LlmBuilder : Type := mk_llm_builder {
  lb_server_uri : option string; lb_model : option string; lb_inference_path : option string;
  lb_tee_providers : list TeeOps; lb_verifier : option QuoteVerifier; lb_bypass : bool;
}.
Definition llm_httpa_builder (b : LlmBuilder) : OpenHttpaClientBuilder :=
  let hb := require_preflight (with_server_uri builder (default "http://127.0.0.1:8080"%string (lb_server_uri b))) in
  let hb := foldl add_tee_provider hb (lb_tee_providers b) in
  match lb_verifier b with Some v => with_verifier hb v | None => hb end.

(** [make] is [OpenHttpaClient::new] on what the builder chose. *)
Definition build_llm (make : BuiltClient → OpenHttpaClient) (bld : Build) (avail : ProviderKind → bool) (show_build : ClientBuildError → string)
    (b : LlmBuilder) (e : ClientEnv) (w : St) : outcome (result LlmError ConfidentialLlmClient) * St :=
  match try_build bld avail (llm_httpa_builder b) with
  | Panics => (Panics, w)
  | Returns (Err err) => (Returns (Err (LlmHandshake (show_build err))), w)
  | Returns (Ok built) =>
      let c := mk_llm (make built) None (default "llama3"%string (lb_model b)) (default "/v1/chat/completions"%string (lb_inference_path b))
        (lb_bypass b) (built_max_response built) in
      if lb_bypass b then (Returns (Ok c), w)
      else match attest c e w with
           | (Panics, w) => (Panics, w)
           | (Returns r, w) => (Returns (s ← r; Ok (set_session c (Some s))), w)
           end
  end.

End client.

(** [EnclaveInferenceEngine::run_inference] *)
Definition run_inference (tensor : result string ()) (input_prompt : string) : result string string :=
  _ ← tensor; Ok ("Local TEE Response to: " +:+ input_prompt).

(** ** What an answer means *)

Lemma check_vai_Ok {XP : HexPrim} expected o :
  check_vai expected o = Ok () ↔ ∃ t, vai_output (zo_fields o) = Some (mk_vai_output expected t).
Proof.
  unfold check_vai. destruct (vai_output (zo_fields o)) as [[v t]|]; cbn [ok_or mbind result_bind vo_vai]; [|split; [done|by intros [? ?]]].
  destruct expected as [m i p], v as [m' i' p']. cbn [model_id input_hash output_hash]. repeat case_decide; naive_solver.
Qed.

Section facts.
Context {St : Type} (send : wire St).
Context {CT : ClientText} {SJ : ShareJson} {SP : SfvPrim} {HJ : HeaderJson} {UP : UuidPrim} {UR : UriParts} {CJ : CiphertextJson}.
Context {AP : AeadPrim} {HaP : HashPrim} {HP : HkdfPrim} {MP : HmacPrim} {KP : KexPrim} {XP : HexPrim} {BP : Base64Prim}.
Context (mldsa_verify : bytes → bytes → bytes → bool) (allow : option string) (show : ClientError → string).
Context {R : Type} {J : ChatJson R} (zk_verify : R → bytes → result ZkError ZkOutput).

(** How a session comes to be used: it was kept and is alive, or it is the outcome of a
    handshake. *)
Definition session_from (now : Z) (e : ClientEnv) (c : ConfidentialLlmClient) (s : SessionInner) (w w' : St) : Prop :=
  (llm_session c = Some s ∧ AttestSession.is_alive now s = true ∧ w' = w) ∨
  attest_handshake (handshake_send send) mldsa_verify allow (httpa_client c) e w = (Returns (Ok s), w').

Lemma ensure_session_Ok now e c w s c' w' :
  ensure_session send mldsa_verify allow show now e c w = (Returns (Ok s), c', w') →
  c' = set_session c (Some s) ∧ session_from now e c s w w'.
Proof using.
  unfold ensure_session, session_from. destruct (llm_session c) as [s0|] eqn:Hs; [destruct (AttestSession.is_alive now s0) eqn:Ha|].
  - intros [= -> <- <-]. split; [destruct c; cbn in *; by subst|]. by left.
  - unfold attest. destruct (attest_handshake _ _ _ _ _ _) as [[[s1|err]|] w1] eqn:Hh; [|done..]. intros [= -> <- <-]. by split; [|right].
  - unfold attest. destruct (attest_handshake _ _ _ _ _ _) as [[[s1|err]|] w1] eqn:Hh; [|done..]. intros [= -> <- <-]. by split; [|right].
Qed.

Lemma chat_exchange_Ok e c req body w b c' w' :
  bypass_attestation c = false →
  chat_exchange send mldsa_verify allow show e c req body w = (Returns (Ok b), c', w') →
  ∃ s s' w1, session_from (chat_now e) (call_client_env (chat_call e)) c s w w1 ∧ c' = set_session c (Some s') ∧
    trusted_request_ext send (httpa_client c) (llm_max_response c) (call_t0 (chat_call e)) (call_t1 (chat_call e)) (call_t2 (chat_call e)) s
      "POST" (inference_path c) body None w1 = (Ok b, s', w').
Proof using.
  intros Hb. unfold chat_exchange. rewrite Hb.
  destruct (ensure_session _ _ _ _ _ _ _ _) as [[[[s|]|] c1] w1] eqn:Hs; [|done..].
  apply ensure_session_Ok in Hs as [-> Hs]. cbn [httpa_client set_session llm_max_response inference_path].
  destruct (trusted_request_ext _ _ _ _ _ _ _ _ _ _ _ _) as [[[r|] s'] w2] eqn:Hr; [|done]. intros [= <- <- <-]. eauto 10.
Qed.

Lemma verify_provenance_Ok e c messages answer proof w c' w' :
  bypass_attestation c = false →
  verify_provenance send mldsa_verify allow show zk_verify e c messages answer proof w = (Returns (Ok ()), c', w') →
  ∃ pb r s o t, hex_decode proof = Some pb ∧ receipt_from_json pb = Ok r ∧ llm_session c' = Some s ∧
    zk_verify r (transcript_hash (Session.keys s)) = Ok o ∧
    vai_output (zo_fields o) = Some (mk_vai_output (compute_vai_hashes (llm_model c) messages answer) t).
Proof using.
  intros Hb. unfold verify_provenance. destruct (_ ≫= _) as [r|] eqn:Hr; [|done]. unfold proof_transcript. rewrite Hb.
  destruct (ensure_session _ _ _ _ _ _ _ _) as [[[[s|]|] c1] w1] eqn:Hs; [|done..].
  apply ensure_session_Ok in Hs as [-> _]. unfold AttestSession.peek_keys. case_decide; [done|]. cbn [map_err].
  intros [= Hv <- <-]. inv_ok.
  match goal with H : check_vai _ _ = Ok () |- _ => apply check_vai_Ok in H as [t Hvai] end.
  eauto 12.
Qed.

End facts.

(** What an answer means, when encryption is not bypassed.  The request went out in a
    session that was kept and is alive or that a handshake just attested; the answer is
    the first choice of the response that was decrypted in that session; and a proof in the
    response, if there is one, verifies against the transcript of the session that is kept
    and states the model, the messages and the answer. *)
Theorem chat_sound {St : Type} (send : wire St)
    {CT : ClientText} {SJ : ShareJson} {SP : SfvPrim} {HJ : HeaderJson} {UP : UuidPrim} {UR : UriParts} {CJ : CiphertextJson}
    {AP : AeadPrim} {HaP : HashPrim} {HP : HkdfPrim} {MP : HmacPrim} {KP : KexPrim} {XP : HexPrim} {BP : Base64Prim}
    (mldsa_verify : bytes → bytes → bytes → bool) (allow : option string) (show : ClientError → string)
    {R : Type} {J : ChatJson R} (zk_verify : R → bytes → result ZkError ZkOutput)
    (e : ChatEnv) (c c' : ConfidentialLlmClient) (messages : list ChatMessage) (w w' : St) (answer : string) :
  chat send mldsa_verify allow show zk_verify e c messages w = (Returns (Ok answer), c', w') → bypass_attestation c = false →
  ∃ body s s' w1 w2 b resp,
    chat_request_to_vec (new_chat_request (llm_model c) messages) = Ok body ∧
    session_from send mldsa_verify allow (chat_now e) (call_client_env (chat_call e)) c s w w1 ∧
    trusted_request_ext send (httpa_client c) (llm_max_response c) (call_t0 (chat_call e)) (call_t1 (chat_call e)) (call_t2 (chat_call e)) s
      "POST" (inference_path c) body None w1 = (Ok b, s', w2) ∧
    chat_response_from_slice b = Ok resp ∧ content ∘ choice_message <$> head (choices resp) = Some answer ∧
    (∀ proof, provenance_proof resp = Some proof → ∃ pb r k o t,
       hex_decode proof = Some pb ∧ receipt_from_json pb = Ok r ∧ llm_session c' = Some k ∧
       zk_verify r (transcript_hash (Session.keys k)) = Ok o ∧
       vai_output (zo_fields o) = Some (mk_vai_output (compute_vai_hashes (llm_model c) messages answer) t)).
Proof.
  unfold chat. intros H Hb. destruct (chat_request_to_vec _) as [body|] eqn:Hbody; [|done]. cbn [map_err] in H.
  destruct (chat_exchange _ _ _ _ _ _ _ _ _) as [[[[b|]|] c1] w1] eqn:Hx; [|done..].
  apply chat_exchange_Ok in Hx as (s & s' & w0 & Hs & -> & Hr); [|done].
  unfold first_content in H. destruct (decide (b = [])); [done|]. destruct (chat_response_from_slice b) as [resp|] eqn:Hresp; [|done].
  cbn [map_err mbind result_bind] in H. destruct (head (choices resp)) as [ch|] eqn:Hh; [|done]. cbn [ok_or mbind result_bind] in H.
  exists body, s, s', w0, w1, b, resp. split; [done|]. split; [done|]. split; [done|]. split; [done|].
  destruct (provenance_proof resp) as [proof|].
  - destruct (verify_provenance _ _ _ _ _ _ _ _ _ _ _) as [[[[[]|]|] c2] w2] eqn:Hv; [|done..].
    injection H as <- <- <-. rewrite Hh. split; [done|]. intros ? [= <-]. by apply verify_provenance_Ok in Hv.
  - injection H as <- _ _. rewrite Hh. by split.
Qed.

(** The client compares the journal's statement but not its mode, and the guest copies the
    provenance data of its input whatever the mode: a receipt of the handshake mode,
    whose report data binds the transcript alone, passes for any model and answer. *)
Theorem vai_mode_confusion {P : P256} {TJ : TcbJson} {HaP : HashPrim} {XP : HexPrim} (th : bytes) (v : VaiInput) (t : Z) :
  let i := mk_zk_input Handshake th [] (sha512 (HS_PREFIX ++ th)) None (Some v) None in
  guest_run i = Returns (Zk.committed i) ∧ check_vai v (mk_zk_output (Zk.committed i) t) = Ok ().
Proof.
  intros i. split.
  - apply guest_run_Returns. split; [by exists (ServerStatement th)|]. by split.
  - apply check_vai_Ok. by exists 0.
Qed.

(** The digest of the messages does not separate them: a role and a text at the end of one
    message pass for a message of their own. *)
Theorem vai_input_ambiguous {HaP : HashPrim} model r1 r2 a b answer :
  compute_vai_hashes model [mk_chat_message r1 a; mk_chat_message r2 b] answer =
  compute_vai_hashes model [mk_chat_message r1 (a +:+ to_string r2 +:+ b)] answer.
Proof.
  unfold compute_vai_hashes, vai_input_preimage. do 2 f_equal. cbn [fmap list_fmap concat role content]. rewrite !app_nil_r, !as_bytes_app.
  by rewrite <-!app_assoc.
Qed.

(** A stream yields the contents of its chunks in order, and never an empty token. *)
Theorem token_stream_nonempty {R} {J : ChatJson R} (chunks : list (result string bytes)) (tok : string) :
  Ok tok ∈ token_stream chunks → tok ≠ EmptyString ∧ ∃ chunk text json,
    Ok chunk ∈ chunks ∧ chunk_from_utf8 chunk = Ok text ∧ starts_with "data: " text = true ∧ delta_content json = Some tok.
Proof.
  unfold token_stream. rewrite list_elem_of_In, filter_In, <-list_elem_of_In. intros [Hin Hk]. cbn [keep_token] in Hk.
  apply negb_true_iff, bool_decide_eq_false in Hk. split; [done|]. apply list_elem_of_fmap in Hin as (c & Hc & Hin).
  unfold stream_token in Hc. symmetry in Hc. inv_ok.
  destruct (starts_with _ _) eqn:Hst; [|done]. case_decide; [done|]. destruct (delta_content _) as [d|] eqn:Hd; [|done].
  eexists _, _, _. eauto.
Qed.

(** A live session is reused without a message to the server. *)
Theorem live_session_reused {St : Type} (send : wire St)
    {CT : ClientText} {SJ : ShareJson} {SP : SfvPrim} {HJ : HeaderJson} {UP : UuidPrim} {HaP : HashPrim} {HP : HkdfPrim} {KP : KexPrim}
    mldsa_verify allow show now e c s (w : St) :
  llm_session c = Some s → AttestSession.is_alive now s = true →
  ensure_session send mldsa_verify allow show now e c w = (Returns (Ok s), c, w).
Proof. intros Hs Ha. unfold ensure_session. by rewrite Hs, Ha. Qed.

(** ** Witnesses *)

Module ToyLlm.
#[global] Instance parts : UriParts := {|
  parts_path u := "/v1/chat/completions"%string; parts_query _ := None; parts_scheme _ := None;
  parts_authority _ := Some (as_bytes "server.example"); method_valid _ := true;
|}.
Definition answer : string := "hello".
Definition response : ChatResponse := mk_chat_response "1" "chat.completion" 0 "llama3" [mk_choice 0 (mk_chat_message Assistant answer) None] (Some "00"%string).
Definition messages : list ChatMessage := [mk_chat_message User "hi"].
#[global] Instance json : ChatJson () := {|
  chat_request_to_vec _ := Ok (as_bytes "request");
  chat_response_from_slice b := if decide (b = as_bytes "response") then Ok response else Err "malformed"%string;
  receipt_from_json _ := Ok ();
  chunk_from_utf8 b := Ok (string_of_list_ascii b);
  delta_content s := Some s;
|}.
(** A prover that states the conversation for the session of [ToyExchange]. *)
Definition zk_verify (_ : ()) (th : bytes) : result ZkError ZkOutput :=
  if decide (th = transcript_hash ToyExchange.keys)
  then Ok (mk_zk_output (mk_guest_output VerifiedAi th true [] (Some (mk_vai_output (compute_vai_hashes (HP := Toy.hash) "llama3" messages answer) 0)) false) 0)
  else Err (VerificationError "transcript hash mismatch in ZK proof").
Definition client : ConfidentialLlmClient :=
  mk_llm (ToyWire.client true) (Some (ToyExchange.session 1000)) "llama3" "/v1/chat/completions" false 100000.
Definition env : ChatEnv := mk_chat_env 1 (mk_call_env ToyWire.client_env 1 2 3) 4 ToyWire.client_env 5 (λ _ _, Err "unused"%string).
Definition net (r : Transport.Request) : Middleware.Request :=
  ToyExchange.net "POST" "/v1/chat/completions" None "server.example" (Transport.req_headers r) (Transport.req_body r).
Abbreviation run :=
  (chat (serve (AP := Toy.aead) (MP := Toy.hmac) (UP := ToyHeaders.uuid) (XP := ToyWeb.hex) (BP := ToyBase64.prim)
           (J := ToyExchange.json) (X := ToyExchange.extractor) (V := ToyExchange.values) net (λ _, as_bytes "response") 2 2)
     (CT := ToyWire.text) (SJ := ToyWire.client_json) (SP := ToySfv.prim) (HJ := ToyHeaders.json) (UP := ToyHeaders.uuid)
     (CJ := ToyExchange.json) (AP := Toy.aead) (HaP := Toy.hash) (HP := Toy.hkdf) (MP := Toy.hmac) (KP := ToyKex.prim)
     (XP := ToyWeb.hex) (BP := ToyBase64.prim) (λ _ _ _, true) None (λ _, EmptyString) zk_verify env client messages ToyExchange.registry).

End ToyLlm.

Lemma chat_sound_witness : ∃ c' w' k o t,
  ToyLlm.run = (Returns (Ok ToyLlm.answer), c', w') ∧ llm_session c' = Some k ∧ ToyLlm.zk_verify () (transcript_hash (Session.keys k)) = Ok o ∧
  vai_output (zo_fields o) = Some (mk_vai_output (compute_vai_hashes (HP := Toy.hash) "llama3" ToyLlm.messages ToyLlm.answer) t).
Proof.
  assert (ToyLlm.run.1.1 = Returns (Ok ToyLlm.answer)) as Hf by (vm_compute; reflexivity).
  destruct ToyLlm.run as [[r c'] w'] eqn:Hrun. cbn in Hf. subst r. exists c', w'.
  destruct (chat_sound _ (CT := ToyWire.text) (SJ := ToyWire.client_json) (SP := ToySfv.prim) (HJ := ToyHeaders.json) (UP := ToyHeaders.uuid)
     (CJ := ToyExchange.json) (AP := Toy.aead) (HaP := Toy.hash) (HP := Toy.hkdf) (MP := Toy.hmac) (KP := ToyKex.prim)
     (XP := ToyWeb.hex) (BP := ToyBase64.prim) (λ _ _ _, true) None (λ _, EmptyString) ToyLlm.zk_verify ToyLlm.env ToyLlm.client c'
     ToyLlm.messages _ w' _ Hrun eq_refl) as (body & s & s' & w1 & w2 & b & resp & _ & _ & _ & Hresp & _ & Hp).
  change ((if decide (b = as_bytes "response") then Ok ToyLlm.response else Err "malformed"%string) = Ok resp) in Hresp.
  destruct (decide (b = as_bytes "response")); [|discriminate Hresp]. injection Hresp as <-.
  destruct (Hp _ eq_refl) as (pb & [] & k & o & t & _ & _ & Hk & Ho & Hv). exists k, o, t. split; [reflexivity|]. exact (conj Hk (conj Ho Hv)).
Defined.
