(* ===== verification/Oracle.v ===== *)
(** * The oracle node and its contract

    From [crates/openhttpa-oracle/src]: the guard against requests to internal
    addresses, [OracleNode::fetch_and_prove] ([oracle.rs]) and the handler behind the
    encrypted endpoint ([main.rs]); and the contracts of
    [crates/openhttpa-contract/src].

    URLs are parsed by the crate [url], whose result is a record here; the HTTP client
    with the servers it asks, the quoting service and the prover are arguments. *)

From S2P Require Import Prelude Crypto Aead Proto Attestation KeyExchange KeySchedule State Session Handshake Tee Http Ahl Trailers Registry.
From S2P Require Import Middleware Stream Client Extractors Exchange Zk.
From stdpp Require Import options.

#[local] Open Scope Z_scope.

(** ** Addresses *)

(** The host of a parsed URL ([url::Host]): a name, four octets, or eight segments. *)
Inductive Host : Type :=
| Domain (d : string)
| Ipv4 (a b c d : Z)
| Ipv6 (segments : list Z).
Record Url : Type := mk_url { url_scheme : string; url_host : option Host; url_host_str : option string }.
Class UrlParse : Type := { url_parse : string → option Url }.

Inductive OracleError : Type := FetchFailed (m : string) | OracleTeeError (m : string) | OracleZkError (m : string).
#[export] Instance oracle_error_display : Display OracleError := λ e,
  match e with
  | FetchFailed m => "Failed to fetch data: " +:+ m
  | OracleTeeError m => "TEE error: " +:+ m
  | OracleZkError m => "ZK Prover error: " +:+ m
  end.

Definition blocked_v4 (a b c d : Z) : bool :=
  let is_loopback := bool_decide (a = 127) && negb (bool_decide ([a; b; c; d] = [127; 0; 0; 1])) in
  let is_10 := bool_decide (a = 10) in
  let is_172_16 := bool_decide (a = 172) && bool_decide (16 ≤ b ≤ 31) in
  let is_192_168 := bool_decide (a = 192) && bool_decide (b = 168) in
  let is_link_local := bool_decide (a = 169) && bool_decide (b = 254) in
  let is_unspecified := bool_decide ([a; b; c; d] = [0; 0; 0; 0]) in
  let is_cgnat := bool_decide (a = 100) && bool_decide (64 ≤ b ≤ 127) in
  is_loopback || is_10 || is_172_16 || is_192_168 || is_link_local || is_unspecified || is_cgnat.
Definition blocked_v6 (segments : list Z) : bool :=
  let s0 := default 0 (head segments) in
  let is_loopback := bool_decide (segments = [0; 0; 0; 0; 0; 0; 0; 1]) in
  let is_unspecified := bool_decide (segments = [0; 0; 0; 0; 0; 0; 0; 0]) in
  let is_link_local := bool_decide (Z.land s0 0xffc0 = 0xfe80) in
  let is_unique_local := bool_decide (Z.land s0 0xfe00 = 0xfc00) in
  is_loopback || is_unspecified || is_link_local || is_unique_local.

Definition validate_url_for_ssrf (u : Url) : result OracleError () :=
  host ← ok_or (url_host u) (OracleTeeError "URL has no host");
  match host with
  | Domain d =>
      if eq_ignore_ascii_case d "localhost"
      then Err (OracleTeeError "SSRF blocked: 'localhost' hostname is not permitted; use 127.0.0.1 only for local test endpoints")
      else Ok ()
  | _ =>
      let blocked := match host with Ipv4 a b c d => blocked_v4 a b c d | Ipv6 s => blocked_v6 s | Domain _ => false end in
      if blocked then Err (OracleTeeError "SSRF blocked: destination IP is in a private or reserved range") else Ok ()
  end.

(** ** The node *)

Record OracleResponse : Type := mk_oracle_response {
  or_data : bytes;
  or_quote : bytes;
  or_quote_type : string;
  or_transcript_hash : bytes;
  zk_receipt : option bytes;
}.

(** The standard library's [Debug] for strings. *)
Class DebugStr : Type := { debug_str : string → string }.
Definition quote_type_debug {D : DebugStr} (q : QuoteType) : string :=
  match q with
  | Sgx => "Sgx" | Tdx => "Tdx" | SevSnp => "SevSnp" | TrustZone => "TrustZone" | Tpm => "Tpm"
  | NvidiaGpu => "NvidiaGpu" | AwsNitro => "AwsNitro" | ZkCompressed => "ZkCompressed" | Mock => "Mock"
  | UnknownType s => "Unknown(" +:+ debug_str s +:+ ")"
  end.

Section node.
Context {UP : UrlParse} {HP : HashPrim} {D : DebugStr} {R : Type}.

(** What the node talks to.  The HTTP client follows redirects, so a response comes with
    the URL that gave it, which need not be the one asked for. *)
Record OracleEnv : Type := mk_oracle_env {
  oe_fetch : string → result string (string * bytes);
  oe_tee : TeeOps;
  oe_prove : ZkInput → result ZkError R;
  oe_receipt_to_vec : R → result string bytes;
}.

Definition LOCAL_HOST : string := "127.0.0.1".
Definition oracle_report_data (transcript_hash response : bytes) : bytes := sha512 (ORACLE_PREFIX ++ transcript_hash ++ response).
Definition DUMMY_RECEIPT : bytes := u8_of <$> [0xDE; 0xAD; 0xBE; 0xEF].

(** The first step: the checks on the URL. *)
Definition check_url (url : string) : result OracleError () :=
  parsed_url ← ok_or (url_parse url) (OracleTeeError "Invalid URL format");
  _ ← validate_url_for_ssrf parsed_url;
  if decide (url_scheme parsed_url ≠ "https" ∧ url_host_str parsed_url ≠ Some LOCAL_HOST)%string
  then Err (OracleTeeError "HTTPS required for non-local URLs") else Ok ().

Definition oracle_receipt (env : OracleEnv) (i : ZkInput) : result OracleError bytes :=
  match oe_prove env i with
  | Ok receipt => map_err OracleZkError (oe_receipt_to_vec env receipt)
  | Err e => if str_contains (to_string e) "Mock Prover" then Ok DUMMY_RECEIPT else Err (OracleZkError (to_string e))
  end.

Definition fetch_and_prove (env : OracleEnv) (url : string) (transcript_hash : bytes) (generate_zk_proof : bool)
    : result OracleError OracleResponse :=
  _ ← check_url url;
  '(_, response) ← map_err FetchFailed (oe_fetch env url);
  let report_data := oracle_report_data transcript_hash response in
  quote ← map_err (λ e, OracleTeeError (to_string e)) (op_generate_quote (oe_tee env) report_data);
  zk_receipt_bytes ←
    (if generate_zk_proof
     then Some <$> oracle_receipt env (mk_zk_input Oracle transcript_hash (quote_raw quote) report_data (Some response) None None)
     else Ok None);
  Ok (mk_oracle_response response (quote_raw quote) (quote_type_debug (quote_type quote)) transcript_hash zk_receipt_bytes).

End node.
Arguments OracleEnv : clear implicits.

(** ** The endpoint *)

Record OracleRequest : Type := mk_oracle_request { oq_url : string; oq_transcript_hash : bytes; generate_zk : bool }.
Inductive OracleAnswer : Type := Answered (r : OracleResponse) | Refused (error : string).

Section endpoint.
Context {AP : AeadPrim} {HP : HashPrim} {MP : HmacPrim} {UuP : UuidPrim} {XP : HexPrim} {BP : Base64Prim}.
Context {J : CiphertextJson} {X : JsonExtractor} {VQ : ValueJson OracleRequest} {VA : ValueJson OracleAnswer}.
Context {UP : UrlParse} {D : DebugStr} {R : Type}.

Definition oracle_answer (env : OracleEnv R) (q : OracleRequest) : OracleAnswer :=
  match fetch_and_prove env (oq_url q) (oq_transcript_hash q) (generate_zk q) with
  | Ok res => Answered res
  | Err e => Refused (to_string e)
  end.

(** The session's handle is shared with the registry: it is read back after the body was
    decrypted, and stored after sealing. *)
Definition oracle_fetch_handler (env : OracleEnv R) (received answered : Z) (r : AtbRegistry.t) (req : Request)
    : result Z SealedResponse * AtbRegistry.t :=
  let '(sess, r) := from_request_parts received r req in
  match sess with
  | Err st => (Err st, r)
  | Ok sess =>
      let '(q, r) := encrypted_json received r req in
      match q with
      | Err st => (Err st, r)
      | Ok q =>
          let s := default (ohs_session sess) (AtbRegistry.sessions r !! id (ohs_session sess)) in
          let '(res, sess) := seal answered (mk_ohs s (ohs_aad sess)) (oracle_answer env q) in
          (res, AtbRegistry.update r (id (ohs_session sess)) (ohs_session sess))
      end
  end.

End endpoint.

(** ** The contracts *)

Record OraclePayload : Type := mk_payload {
  transcriptHash : bytes;
  op_quote : bytes;
  reportData : bytes;
  op_data : bytes;
  zkReceipt : bytes;
}.
Inductive Event : Type := PayloadVerified (transcript : bytes) (sender : Z).

(** [require] in a loop over [n] positions; an index out of range reverts. *)
Fixpoint require_all (n : nat) (test : nat → option bool) (msg : string) : result string () :=
  match n with
  | O => Ok ()
  | S n =>
      _ ← require_all n test msg;
      match test n with
      | Some true => Ok ()
      | Some false => Err msg
      | None => Err "Panic(0x32)"%string
      end
  end.
Definition bytes_eq_at (x y : bytes) (i j : nat) : option bool := a ← x !! i; b ← y !! j; Some (bool_decide (a = b)).

Definition verifyOraclePayload (sender : Z) (p : OraclePayload) : result string (bool * list Event) :=
  if decide (length (transcriptHash p) ≠ 48%nat) then Err "Invalid transcriptHash length (expected 48)"%string
  else if decide (length (reportData p) ≠ 64%nat) then Err "Invalid reportData length (expected 64)"%string
  else
    let expectedPrefix := as_bytes "openhttpa hs server" in
    _ ← require_all 16 (λ i, bytes_eq_at (reportData p) expectedPrefix i i) "Invalid domain separation prefix";
    _ ← require_all 48 (λ i, bytes_eq_at (reportData p) (transcriptHash p) (16 + i)%nat i) "Transcript hash mismatch in reportData";
    Ok (true, [PayloadVerified (transcriptHash p) sender]).

(** The contract [Counter]: checked arithmetic reverts. *)
Definition setNumber (newNumber number : Z) : Z := newNumber.
Definition increment (number : Z) : option Z := if decide (number = 2 ^ 256 - 1) then None else Some (number + 1).

(** ** Which addresses are refused *)

Definition octet (z : Z) : Prop := 0 ≤ z < 256.
Definition v4_addr (a b c d : Z) : Z := ((a * 256 + b) * 256 + c) * 256 + d.
(** Membership in the network of the first [len] bits of [net]. *)
Definition in_net (width net len addr : Z) : Prop := addr / 2 ^ (width - len) = net / 2 ^ (width - len).

(** The networks of the documentation. *)
Definition v4_blocked_nets : list (Z * Z) :=
  [(v4_addr 127 0 0 0, 8); (v4_addr 10 0 0 0, 8); (v4_addr 172 16 0 0, 12); (v4_addr 192 168 0 0, 16);
   (v4_addr 169 254 0 0, 16); (v4_addr 0 0 0 0, 32); (v4_addr 100 64 0 0, 10)].

#[local] Ltac by_div := Z.to_euclidean_division_equations; lia.
Lemma v4_prefix a b c d :
  octet a → octet b → octet c → octet d →
  v4_addr a b c d / 2 ^ 24 = a ∧ v4_addr a b c d / 2 ^ 20 = a * 16 + b / 16 ∧ v4_addr a b c d / 2 ^ 16 = a * 256 + b ∧
  v4_addr a b c d / 2 ^ 22 = a * 4 + b / 64 ∧ v4_addr a b c d / 2 ^ 0 = v4_addr a b c d.
Proof.
  unfold octet, v4_addr. intros Ha Hb Hc Hd.
  change (2 ^ 24) with 16777216. change (2 ^ 20) with 1048576. change (2 ^ 16) with 65536. change (2 ^ 22) with 4194304.
  split_and!; [symmetry..|apply Z.div_1_r].
  - apply (Z.div_unique _ _ _ ((b * 256 + c) * 256 + d)); lia.
  - apply (Z.div_unique _ _ _ ((b `mod` 16 * 256 + c) * 256 + d)); by_div.
  - apply (Z.div_unique _ _ _ (c * 256 + d)); lia.
  - apply (Z.div_unique _ _ _ ((b `mod` 64 * 256 + c) * 256 + d)); by_div.
Qed.

(** The tests on octets are the prefixes of the networks. *)
Lemma blocked_v4_iff a b c d :
  octet a → octet b → octet c → octet d →
  blocked_v4 a b c d = true ↔
  v4_addr a b c d ≠ v4_addr 127 0 0 1 ∧ Exists (λ '(net, len), in_net 32 net len (v4_addr a b c d)) v4_blocked_nets.
Proof.
  intros Ha Hb Hc Hd. destruct (v4_prefix a b c d Ha Hb Hc Hd) as (H24 & H20 & H16 & H22 & H0).
  unfold blocked_v4, v4_blocked_nets, in_net. cbv zeta.
  rewrite !orb_true_iff, !andb_true_iff, negb_true_iff, bool_decide_eq_false, !bool_decide_eq_true.
  rewrite !Exists_cons, Exists_nil.
  change (32 - 8) with 24. change (32 - 12) with 20. change (32 - 16) with 16. change (32 - 32) with 0. change (32 - 10) with 22.
  rewrite H24, H20, H16, H22, H0. clear H24 H20 H16 H22 H0.
  change (v4_addr 127 0 0 0 / 2 ^ 24) with 127. change (v4_addr 10 0 0 0 / 2 ^ 24) with 10.
  change (v4_addr 172 16 0 0 / 2 ^ 20) with 2753. change (v4_addr 192 168 0 0 / 2 ^ 16) with 49320.
  change (v4_addr 169 254 0 0 / 2 ^ 16) with 43518. change (v4_addr 0 0 0 0 / 2 ^ 0) with 0.
  change (v4_addr 100 64 0 0 / 2 ^ 22) with 401. change (v4_addr 127 0 0 1) with 2130706433. unfold octet, v4_addr in *.
  assert ([a; b; c; d] = [127; 0; 0; 1] ↔ a = 127 ∧ b = 0 ∧ c = 0 ∧ d = 1) as -> by naive_solver.
  assert ([a; b; c; d] = [0; 0; 0; 0] ↔ a = 0 ∧ b = 0 ∧ c = 0 ∧ d = 0) as -> by naive_solver.
  split.
  - intros H. split; [clear -Hb Hc Hd H; lia|].
    destruct H as [[[[[[[H _]|H]|H]|H]|H]|H]|H]; [by left|by right; left|do 2 right; left; by_div|do 3 right; left; lia
      |do 4 right; left; lia|do 5 right; left; lia|do 6 right; left; by_div].
  - intros [Hne [H|[H|[H|[H|[H|[H|[H|[]]]]]]]]].
    + do 6 left. split; [done|]. intros (? & ? & ? & ?). lia.
    + do 5 left. by right.
    + do 4 left. right. by_div.
    + do 3 left. right. lia.
    + do 2 left. right. lia.
    + left. right. lia.
    + right. by_div.
Qed.

(** For IPv6 the two masks are the prefixes [fe80::/10] and [fc00::/7]. *)
Definition seg (z : Z) : Prop := 0 ≤ z < 65536.
Lemma mask_prefix s k m : 0 ≤ k ≤ 16 → seg s → seg m → Z.land m (Z.ones k) = 0 →
  Z.land s (65535 - Z.ones k) = m ↔ s / 2 ^ k = m / 2 ^ k.
Proof.
  unfold seg. intros Hk Hs Hm H0.
  assert (Z.ldiff s (Z.ones k) = s / 2 ^ k * 2 ^ k) as Hd by (by rewrite Z.ldiff_ones_r, Z.shiftr_div_pow2, Z.shiftl_mul_pow2 by lia).
  assert (m = m / 2 ^ k * 2 ^ k) as Hm'.
  { rewrite Z.land_ones in H0 by lia. rewrite (Z.div_mod m (2 ^ k)) at 1 by lia. lia. }
  assert (Z.land s (65535 - Z.ones k) = Z.ldiff s (Z.ones k)) as ->.
  { change 65535 with (Z.ones 16). rewrite Z.sub_nocarry_ldiff.
    - transitivity (Z.ldiff (Z.land s (Z.ones 16)) (Z.ones k)).
      + apply Z.bits_inj'. intros n Hn. rewrite Z.land_spec, !Z.ldiff_spec, Z.land_spec. apply andb_assoc.
      + f_equal. rewrite Z.land_ones by lia. apply Z.mod_small. lia.
    - apply Z.bits_inj'. intros n Hn. rewrite Z.ldiff_spec, Z.bits_0, !Z.testbit_ones_nonneg by lia.
      destruct (n <? k) eqn:E1, (n <? 16) eqn:E2; try done. lia. }
  rewrite Hd. pose proof (Z.pow_pos_nonneg 2 k). split; [nia|]. intros ->. lia.
Qed.
Lemma blocked_v6_iff s0 rest :
  seg s0 →
  blocked_v6 (s0 :: rest) = true ↔
  s0 :: rest = [0; 0; 0; 0; 0; 0; 0; 1] ∨ s0 :: rest = [0; 0; 0; 0; 0; 0; 0; 0] ∨ in_net 16 0xfe80 10 s0 ∨ in_net 16 0xfc00 7 s0.
Proof.
  intros Hs. unfold blocked_v6, in_net. cbn [head default]. cbv zeta.
  rewrite !orb_true_iff, !bool_decide_eq_true.
  pose proof (mask_prefix s0 6 0xfe80) as H6. pose proof (mask_prefix s0 9 0xfc00) as H9.
  change (65535 - Z.ones 6) with 0xffc0 in H6. change (65535 - Z.ones 9) with 0xfe00 in H9.
  change (16 - 10) with 6. change (16 - 7) with 9. unfold default, id.
  rewrite H6, H9; [tauto|by unfold seg|done|by unfold seg|done..].
Qed.

(** ** What the node answers *)

Definition host_wf (h : Host) : Prop :=
  match h with
  | Domain _ => True
  | Ipv4 a b c d => octet a ∧ octet b ∧ octet c ∧ octet d
  | Ipv6 s => length s = 8%nat ∧ Forall seg s
  end.
Class UrlParseLaws (P : UrlParse) : Prop := {
  url_parse_wf s u h : url_parse s = Some u → url_host u = Some h → host_wf h;
}.

(** The destinations that the guard lets through. *)
Definition reachable (h : Host) : Prop :=
  match h with
  | Domain d => eq_ignore_ascii_case d "localhost" = false
  | Ipv4 a b c d =>
      v4_addr a b c d = v4_addr 127 0 0 1 ∨ Forall (λ '(net, len), ¬ in_net 32 net len (v4_addr a b c d)) v4_blocked_nets
  | Ipv6 s =>
      s ≠ [0; 0; 0; 0; 0; 0; 0; 1] ∧ s ≠ [0; 0; 0; 0; 0; 0; 0; 0] ∧
      ¬ in_net 16 0xfe80 10 (default 0 (head s)) ∧ ¬ in_net 16 0xfc00 7 (default 0 (head s))
  end.

#[export] Instance in_net_dec w n l a : Decision (in_net w n l a).
Proof. unfold in_net. apply _. Defined.

Lemma validate_iff u : validate_url_for_ssrf u = Ok () ↔ ∃ h, url_host u = Some h ∧
  match h with
  | Domain d => eq_ignore_ascii_case d "localhost" = false
  | Ipv4 a b c d => blocked_v4 a b c d = false
  | Ipv6 s => blocked_v6 s = false
  end.
Proof.
  unfold validate_url_for_ssrf. destruct (url_host u) as [[d|a b c d|s]|]; cbn [ok_or mbind result_bind].
  - destruct (eq_ignore_ascii_case d _) eqn:E; naive_solver congruence.
  - destruct (blocked_v4 a b c d) eqn:E; naive_solver congruence.
  - destruct (blocked_v6 s) eqn:E; naive_solver congruence.
  - naive_solver.
Qed.

Lemma validate_reachable u h :
  url_host u = Some h → host_wf h → validate_url_for_ssrf u = Ok () ↔ reachable h.
Proof.
  intros Hh Hw. rewrite validate_iff. setoid_rewrite Hh. destruct h as [d|a b c d|s]; cbn [reachable host_wf] in *.
  - naive_solver.
  - destruct Hw as (Ha & Hb & Hc & Hd). pose proof (blocked_v4_iff a b c d Ha Hb Hc Hd) as Hiff.
    transitivity (blocked_v4 a b c d = false); [naive_solver|]. rewrite <-not_true_iff_false, Hiff.
    split.
    + intros Hn. destruct (decide (v4_addr a b c d = v4_addr 127 0 0 1)) as [|Hne]; [by left|right].
      apply Forall_forall. intros [n l] Hin Hnet. apply Hn. split; [done|]. apply Exists_exists. by exists (n, l).
    + intros [He|Hf] [Hne Hex]; [done|]. apply Exists_exists in Hex as ([n l] & Hin & Hnet).
      rewrite Forall_forall in Hf. by apply (Hf (n, l)).
  - destruct Hw as [Hl Hs]. destruct s as [|s0 rest]; [done|]. apply Forall_cons in Hs as [Hs0 _].
    pose proof (blocked_v6_iff s0 rest Hs0) as Hiff. transitivity (blocked_v6 (s0 :: rest) = false); [naive_solver|].
    rewrite <-not_true_iff_false, Hiff. cbn [head default]. tauto.
Qed.

Section node_facts.
Context {UP : UrlParse} {HP : HashPrim} {D : DebugStr} {R : Type}.

Lemma check_url_Ok url :
  check_url url = Ok () ↔ ∃ u, url_parse url = Some u ∧ validate_url_for_ssrf u = Ok () ∧
    (url_scheme u = "https"%string ∨ url_host_str u = Some LOCAL_HOST).
Proof.
  unfold check_url. destruct (url_parse url) as [u|]; cbn [ok_or mbind result_bind]; [|by split; [|intros (? & ? & _)]].
  destruct (validate_url_for_ssrf u) as [[]|] eqn:Hv; cbn [mbind result_bind]; [|split; [done|intros (? & [= <-] & ? & _); congruence]].
  destruct (decide (_ ∧ _)) as [Hd|Hd]; [by split; [|intros (? & [= <-] & _ & ?); tauto]|]. split; [|done]. intros _. exists u. split; [done|]. split; [done|].
  destruct (decide (url_scheme u = "https"%string)); [by left|right].
  destruct (decide (url_host_str u = Some LOCAL_HOST)); [done|]. by destruct Hd.
Qed.

Lemma fetch_and_prove_Ok (env : OracleEnv R) url th zk resp :
  fetch_and_prove env url th zk = Ok resp →
  check_url url = Ok () ∧ (∃ final, oe_fetch env url = Ok (final, or_data resp)) ∧ or_transcript_hash resp = th ∧
  ∃ q, op_generate_quote (oe_tee env) (oracle_report_data th (or_data resp)) = Ok q ∧
    or_quote resp = quote_raw q ∧ or_quote_type resp = quote_type_debug (quote_type q) ∧
    (if zk then ∃ b, zk_receipt resp = Some b ∧
       oracle_receipt env (mk_zk_input Oracle th (quote_raw q) (oracle_report_data th (or_data resp)) (Some (or_data resp)) None None) = Ok b
     else zk_receipt resp = None).
Proof.
  unfold fetch_and_prove. intros H. inv_ok. destruct x, x0 as [final response]. inv_ok. split; [done|]. cbn [or_data or_transcript_hash or_quote or_quote_type zk_receipt].
  split; [by exists final|]. split; [done|]. eexists. split; [done|]. split; [done|]. split; [done|].
  match goal with Hz : (if zk then _ else _) = Ok ?z |- _ => rename Hz into Hzk end.
  destruct zk; [|by injection Hzk as <-]. destruct (oracle_receipt env _) as [b|] eqn:Hr; [|done]. injection Hzk as <-. eauto.
Qed.

(** A receipt is what the prover made for the input, or the placeholder where the prover
    said that it is a mock. *)
Lemma oracle_receipt_Ok (env : OracleEnv R) i b :
  oracle_receipt env i = Ok b →
  (∃ receipt, oe_prove env i = Ok receipt ∧ oe_receipt_to_vec env receipt = Ok b) ∨
  (∃ e, oe_prove env i = Err e ∧ str_contains (to_string e) "Mock Prover" = true ∧ b = DUMMY_RECEIPT).
Proof.
  unfold oracle_receipt. destruct (oe_prove env i) as [receipt|e].
  - destruct (oe_receipt_to_vec env receipt) as [b'|] eqn:Hv; intros [= <-]. left. by exists receipt.
  - destruct (str_contains _ _) eqn:Hm; intros [= <-]. right. by exists e.
Qed.

(** The input of the proof is one that the guest accepts. *)
Lemma oracle_input_guest {P : P256} {TJ : TcbJson} th quote data :
  let i := mk_zk_input Oracle th quote (oracle_report_data th data) (Some data) None None in
  guest_run i = Returns (Zk.committed i).
Proof. apply guest_run_Returns. split; [|by split]. by exists (OracleStatement th data). Qed.

End node_facts.

(** [C35] What an answer of the oracle means.  The URL asked for is HTTPS or names the
    loopback address 127.0.0.1, and its host as written is a name other than
    [localhost] or an address outside the networks that [blocked_v4] and [blocked_v6]
    list ([reachable]); names are not resolved, and the URL that answered after redirects
    is not checked ([redirect_unguarded], [ssrf_mapped_addresses]).  The data is what the
    fetch returned and the quote is asked for the SHA-512 digest of the prefix, the
    transcript and the data.  A receipt is there exactly when asked for: it is the
    prover's, for an input on which the guest program commits to that transcript and to
    the digest of that data, or the placeholder that stands for a mock prover's error and
    is bound to nothing. *)
Theorem oracle_answer_sound {UP : UrlParse} {UL : UrlParseLaws UP} {HP : HashPrim} {D : DebugStr} {P : P256} {TJ : TcbJson} {R : Type}
    (env : OracleEnv R) (url : string) (th : bytes) (zk : bool) (resp : OracleResponse) :
  fetch_and_prove env url th zk = Ok resp →
  (∃ u h, url_parse url = Some u ∧ url_host u = Some h ∧ reachable h ∧
     (url_scheme u = "https"%string ∨ url_host_str u = Some LOCAL_HOST)) ∧
  (∃ final, oe_fetch env url = Ok (final, or_data resp)) ∧ or_transcript_hash resp = th ∧
  ∃ q, op_generate_quote (oe_tee env) (sha512 (ORACLE_PREFIX ++ th ++ or_data resp)) = Ok q ∧ or_quote resp = quote_raw q ∧
    (zk = false → zk_receipt resp = None) ∧
    (zk = true → ∃ b i, zk_receipt resp = Some b ∧
       quote_bytes i = or_quote resp ∧ guest_run i = Returns (Zk.committed i) ∧
       zo_transcript_hash (Zk.committed i) = th ∧ oracle_payload_hash (Zk.committed i) = sha256 (or_data resp) ∧
       ((∃ receipt, oe_prove env i = Ok receipt ∧ oe_receipt_to_vec env receipt = Ok b) ∨
        (∃ e, oe_prove env i = Err e ∧ str_contains (to_string e) "Mock Prover" = true ∧ b = DUMMY_RECEIPT))).
Proof.
  intros (Hu & Hf & Ht & q & Hq & Hr & _ & Hzk)%fetch_and_prove_Ok. apply check_url_Ok in Hu as (u & Hp & Hv & Hs).
  split.
  { pose proof Hv as (h & Hh & _)%validate_iff. exists u, h. split; [done|]. split; [done|]. split; [|done].
    apply (validate_reachable u h); [done|by eapply url_parse_wf|done]. }
  split; [done|]. split; [done|]. exists q. split; [done|]. split; [done|].
  split; intros ->; [done|]. destruct Hzk as (b & Hb & Hor%oracle_receipt_Ok). eexists b, _. split; [done|].
  split; [|split; [apply oracle_input_guest|by repeat split]]. done.
Qed.

(** The URL that answered, after the redirects that the client followed, makes no
    difference to the answer. *)
Theorem redirect_unguarded {UP : UrlParse} {HP : HashPrim} {D : DebugStr} {R : Type}
    (env : OracleEnv R) (url final : string) (data th : bytes) (zk : bool) :
  let answering from := mk_oracle_env (λ _, Ok (from, data)) (oe_tee env) (oe_prove env) (oe_receipt_to_vec env) in
  fetch_and_prove (answering final) url th zk = fetch_and_prove (answering url) url th zk.
Proof. done. Qed.

(** A destination that the list misses: every IPv4 address written as a mapped IPv6
    address. *)
Theorem ssrf_mapped_addresses (u : Url) (a b c d : Z) :
  url_host u = Some (Ipv6 [0; 0; 0; 0; 0; 0xffff; a * 256 + b; c * 256 + d]) → validate_url_for_ssrf u = Ok ().
Proof. intros Hu. apply validate_iff. eexists. split; [done|]. done. Qed.

(** ** The contract *)

Lemma require_all_Ok n test msg : require_all n test msg = Ok () ↔ ∀ i, (i < n)%nat → test i = Some true.
Proof.
  induction n as [|n IH]; cbn [require_all]; [split; [lia|done]|]. rewrite bind_Ok. split.
  - intros ([] & Hn & Ht) i Hi. destruct (decide (i = n)) as [->|]; [by destruct (test n) as [[]|]|]. apply IH; [done|lia].
  - intros Ht. exists (). split; [apply IH; intros; apply Ht; lia|]. by rewrite Ht by lia.
Qed.
Lemma bytes_eq_at_true x y i j : bytes_eq_at x y i j = Some true ↔ ∃ b, x !! i = Some b ∧ y !! j = Some b.
Proof.
  unfold bytes_eq_at. destruct (x !! i) as [a|], (y !! j) as [b|]; cbn; [|naive_solver..].
  split; [intros [= ?%bool_decide_eq_true]; naive_solver|intros (? & [= <-] & [= <-]); by rewrite bool_decide_true].
Qed.

(** The contract accepts a payload exactly when its report data are sixteen bytes of
    a prefix followed by the transcript hash: the quote, the data and the receipt play no
    part. *)
Theorem contract_accepts_iff (sender : Z) (p : OraclePayload) :
  is_ok (verifyOraclePayload sender p) = true ↔
  length (transcriptHash p) = 48%nat ∧ reportData p = take 16 HS_PREFIX ++ transcriptHash p.
Proof.
  unfold verifyOraclePayload. destruct (decide (length (transcriptHash p) ≠ 48%nat)) as [|Ht%dec_stable]; [naive_solver|].
  destruct (decide (length (reportData p) ≠ 64%nat)) as [Hr|Hr%dec_stable].
  { split; [done|]. intros [_ He]. destruct Hr. by rewrite He, length_app, Ht. }
  set (r1 := require_all 16 _ _). set (r2 := require_all 48 _ _).
  transitivity (r1 = Ok () ∧ r2 = Ok ()); [destruct r1 as [[]|], r2 as [[]|]; naive_solver|]. subst r1 r2.
  rewrite !require_all_Ok. setoid_rewrite bytes_eq_at_true. split.
  - intros [H1 H2]. split; [done|]. apply list_eq. intros i. destruct (decide (i < 16)%nat) as [Hi|Hi].
    + destruct (H1 i Hi) as (b & -> & Hb). rewrite lookup_app_l by done. by rewrite lookup_take_lt by done.
    + rewrite lookup_app_r by (change (length (take 16 HS_PREFIX)) with 16%nat; lia). change (length (take 16 HS_PREFIX)) with 16%nat.
      destruct (decide (i < 64)%nat) as [Hi'|Hi'].
      * destruct (H2 (i - 16)%nat ltac:(lia)) as (b & Hb & ->). by replace (16 + (i - 16))%nat with i in Hb by lia.
      * by rewrite !lookup_ge_None_2 by lia.
  - intros [_ ->]. split; intros i Hi.
    + destruct (lookup_lt_is_Some_2 (take 16 HS_PREFIX) i Hi) as [b Hb]. exists b.
      rewrite lookup_app_l by done. split; [done|]. by rewrite lookup_take_lt in Hb by done.
    + destruct (lookup_lt_is_Some_2 (transcriptHash p) i ltac:(lia)) as [b Hb]. exists b. split; [|done].
      rewrite lookup_app_r by (change (length (take 16 HS_PREFIX)) with 16%nat; lia). change (length (take 16 HS_PREFIX)) with 16%nat.
      by replace (16 + i - 16)%nat with i by lia.
Qed.

(** The node binds a digest, the contract expects the transcript in the clear: the
    contract accepts an honest answer only if the digest happens to have that form. *)
Theorem contract_refuses_node {HP : HashPrim} (sender : Z) (resp : OracleResponse) (receipt : bytes) :
  let report := oracle_report_data (or_transcript_hash resp) (or_data resp) in
  is_ok (verifyOraclePayload sender (mk_payload (or_transcript_hash resp) (or_quote resp) report (or_data resp) receipt)) = true →
  sha512 (ORACLE_PREFIX ++ or_transcript_hash resp ++ or_data resp) = take 16 HS_PREFIX ++ or_transcript_hash resp.
Proof. intros report [_ H]%contract_accepts_iff. exact H. Qed.

(** ** The endpoint over a session *)

Section endpoint_facts.
Context {AP : AeadPrim} {AL : AeadLaws AP} {HP : HashPrim} {MP : HmacPrim}.
Context {UuP : UuidPrim} {UuL : UuidLaws UuP} {XP : HexPrim} {XL : HexLaws XP} {BP : Base64Prim} {BL : Base64Laws BP}.
Context {J : CiphertextJson} {JL : CiphertextJsonLaws J} {X : JsonExtractor} {JXL : JsonExtractorLaws J X}.
Context {VQ : ValueJson OracleRequest} {VA : ValueJson OracleAnswer}.
Context {UP : UrlParse} {D : DebugStr} {R : Type}.

(** The handler on what a client of the session sent is the exchange of [Exchange]. *)
Lemma handler_exchange (env : OracleEnv R) cs ss r m q :
  m_response m = oracle_answer env q → value_from_slice (m_body m) = Some q →
  synced cs ss → AtbRegistry.sessions r !! Session.id ss = Some ss →
  exchangeable (Session.id ss) (expires_at cs) (expires_at ss) m →
  client_counter ss < u64_max → server_counter ss < u64_max →
  ∃ hdrs b cs1 sealed r' pt cs',
    trusted_request (m_sent m) cs (m_method m) (m_path m) (m_query m) (m_authority m) (m_body m) (m_extra m) = (Ok (hdrs, b), cs1) ∧
    oracle_fetch_handler env (m_received m) (m_answered m) r (m_net m hdrs b) = (Ok sealed, r') ∧
    value_to_vec (oracle_answer env q) = Some pt ∧
    unseal_response_body (m_returned m) cs1 (resp_body sealed) (request_aad (Session.id cs1)) = (Ok pt, cs').
Proof using AL UuL XL BL JL JXL.
  intros Hm Hq Hsync Hr Hex Hc Hs. pose proof Hex as (Hsend & Hnet & (pt & Hpt & Hlen) & Ht1 & Ht4 & Ht2 & Ht3).
  pose proof (sync_phase _ _ Hsync) as [Hph1 Hph2].
  destruct (client_sends (m_sent m) cs ss (m_method m) (m_path m) (m_query m) (m_authority m) (m_body m) (m_extra m))
    as (ct & ahl & Hahl & Hct & Hreq); [done|by split|done|done|].
  rewrite Hreq. set (hdrs := hm_insert _ STR_CONTENT_TYPE _). set (b := ciphertext_to_json _).
  specialize (Hnet hdrs b). eexists hdrs, b, _.
  pose proof (synced_committed _ _ Hsync) as Hsync1. set (cs1 := Exchange.committed cs _) in *. set (ss1 := Exchange.committed ss _) in *.
  unfold oracle_fetch_handler. rewrite (parts_ok (m_received m) r _ (Session.id ss) ss); [|apply Hsync| |done|done].
  2:{ destruct Hnet as [_ _ _ _ (extras & Hext & ->) _]. destruct Hsync as [_ _ _ _ _ _ _ [? _] _].
      by edestruct (server_reads (Session.id ss) (m_extra m) (client_counter ss)) as (Hb & _); [| |exact Hb]; [unfold is_u64; lia|]. }
  unfold encrypted_json.
  erewrite (server_accepts (m_received m) r ss); [|by eapply synced_refl|by split|done|exact Hsend|done|exact Hahl|exact Hct|done|done|exact Hnet].
  cbn [mbind result_bind]. rewrite Hq. cbn [ok_or ohs_session ohs_aad].
  unfold AtbRegistry.update at 1 2. cbn [AtbRegistry.sessions]. rewrite lookup_insert_eq. fold ss1.
  change (default ss (Some ss1)) with ss1. change (Session.id ss) with (Session.id ss1). rewrite <-Hm.
  destruct (server_seals (m_answered m) ss1 (m_response m) pt) as (ct2 & Hct2 & Hseal); [apply Hsync1|by split|done|done|done|].
  rewrite Hseal. cbn [ohs_session]. eexists _, _, pt, _. split; [done|]. split; [done|]. split; [done|].
  cbn [resp_body]. fold cs1. assert (Session.id cs1 = Session.id ss1) as -> by apply Hsync1.
  rewrite (client_opens (m_returned m) cs1 ct2 pt); [done|by eapply synced_keys_wf|by split|rewrite (sync_server_counter _ _ Hsync1); done| ].
  by rewrite (sync_keys _ _ Hsync1), (sync_server_counter _ _ Hsync1).
Qed.

End endpoint_facts.

(** ** Witnesses *)

Module ToyOracle.
Export ToyZk.

#[export] Instance urls : UrlParse := {|
  url_parse s := if decide (s = "https://example.org/price"%string)
    then Some (mk_url "https" (Some (Domain "example.org")) (Some "example.org"%string)) else None;
|}.
#[export] Instance url_laws : UrlParseLaws urls.
Proof. split. intros s u h. cbn. case_decide; [|done]. intros [= <-] [= <-]. exact I. Qed.
#[export] Instance debug : DebugStr := {| debug_str s := s |}.

Definition env : OracleEnv unit :=
  mk_oracle_env (λ url, Ok (url, as_bytes "42")) (provider Tdx (λ rd, Ok (mk_quote Tdx Raw rd rd [])) true) (λ _, Ok ()) (λ _, Ok [u8_of 1]).
Definition resp : OracleResponse :=
  mk_oracle_response (as_bytes "42") (oracle_report_data transcript (as_bytes "42")) "Tdx" transcript (Some [u8_of 1]).

End ToyOracle.

Section witnesses.
Import ToyOracle.

Lemma oracle_answer_sound_witness :
  fetch_and_prove env "https://example.org/price" transcript true = Ok resp ∧
  ∃ b i, zk_receipt resp = Some b ∧ quote_bytes i = or_quote resp ∧ guest_run i = Returns (Zk.committed i) ∧
    zo_transcript_hash (Zk.committed i) = transcript ∧ oracle_payload_hash (Zk.committed i) = sha256 (or_data resp) ∧
    ((∃ receipt, oe_prove env i = Ok receipt ∧ oe_receipt_to_vec env receipt = Ok b) ∨
     (∃ e, oe_prove env i = Err e ∧ str_contains (to_string e) "Mock Prover" = true ∧ b = DUMMY_RECEIPT)).
Proof.
  assert (fetch_and_prove env "https://example.org/price" transcript true = Ok resp) as H by (vm_compute; reflexivity).
  split; [exact H|]. destruct (oracle_answer_sound env _ _ _ _ H) as (_ & _ & _ & q & _ & _ & _ & Hz). exact (Hz eq_refl).
Defined.

End witnesses.
