(* ===== verification/Eat.v ===== *)
(** * Entity attestation tokens and Intel Trust Authority

    From [crates/openhttpa-attestation/src]: signed tokens in COSE ([eat.rs]) and the
    verifier that asks Intel Trust Authority ([ita_verifier.rs]).  The COSE and CBOR
    codecs are classes; what the service answers is an argument. *)

From S2P Require Import Prelude Codec Crypto Proto Attestation KeyExchange Pqc KeySchedule Session Handshake Tee Http Ahl Trailers.
From S2P Require Import Middleware Handlers Verifiers Stream Client Extractors Zk Oracle.
From stdpp Require Import options.

#[local] Open Scope Z_scope.

(** ** Signed tokens *)

Inductive EatSignAlgorithm : Type := EatMlDsa65.
(** [coset::Algorithm]: assigned names, and private ones by number. *)
Inductive CoseAlgorithm : Type := HSS_LMS | PrivateUse (n : Z) | OtherAlgorithm (debug : string).

Definition to_cose_algorithm (a : EatSignAlgorithm) : CoseAlgorithm := match a with EatMlDsa65 => HSS_LMS end.
Definition from_cose_algorithm (a : CoseAlgorithm) : result AttestError EatSignAlgorithm :=
  match a with
  | HSS_LMS => Ok EatMlDsa65
  | PrivateUse n =>
      if decide (n = -46) then Ok EatMlDsa65 else Err (Malformed ("unsupported COSE algorithm: PrivateUse(" +:+ pretty.pretty n +:+ ")"))
  | OtherAlgorithm d => Err (Malformed ("unsupported COSE algorithm: " +:+ d))
  end.

Record CoseSign1 : Type := mk_cose { cose_alg : option CoseAlgorithm; cose_payload : option bytes; cose_signature : bytes }.

Class CoseCodec : Type := {
  claims_to_cbor : EatClaims → result string bytes;
  claims_from_cbor : bytes → result string EatClaims;
  (** [tbs_data(&[])]: the protected header and the payload *)
  tbs_data : option CoseAlgorithm → option bytes → bytes;
  cose_to_vec : CoseSign1 → result string bytes;
  cose_from_slice : bytes → result string CoseSign1;
}.
Class CoseLaws (C : CoseCodec) : Prop := {
  claims_round_trip c b : claims_to_cbor c = Ok b → claims_from_cbor b = Ok c;
  cose_round_trip s b : cose_to_vec s = Ok b → cose_from_slice b = Ok s;
  (** RFC 9052: the structure to be signed is a CBOR array of byte strings *)
  tbs_data_inj a a' p p' : tbs_data a p = tbs_data a' p' → a = a' ∧ p = p';
}.

Section eat.
Context {C : CoseCodec} {O : Oqs}.

Definition serialize_claims (c : EatClaims) : result AttestError bytes :=
  map_err (λ e, Malformed ("failed to serialize claims to CBOR: " +:+ e)) (claims_to_cbor c).
Definition deserialize_claims (b : bytes) : result AttestError EatClaims :=
  map_err (λ e, Malformed ("failed to deserialize claims from CBOR: " +:+ e)) (claims_from_cbor b).

Definition create_signed_eat (claims : EatClaims) (signing_key_der : bytes) (algorithm : EatSignAlgorithm) : result AttestError bytes :=
  payload ← serialize_claims claims;
  let alg := Some (to_cose_algorithm algorithm) in
  let tbs := tbs_data alg (Some payload) in
  signature ←
    match algorithm with
    | EatMlDsa65 =>
        _ ← map_err Malformed sig_new;
        sk ← ok_or (sig_secret_key_from_bytes signing_key_der) (Malformed "invalid ML-DSA-65 secret key");
        map_err (λ _, SignatureInvalid) (sig_sign tbs sk)
    end;
  map_err (λ e, Malformed ("failed to serialize COSE Sign1: " +:+ e)) (cose_to_vec (mk_cose alg (Some payload) signature)).

Definition verify_signed_eat (cose_bytes verification_key_der : bytes) : result AttestError EatClaims :=
  cose_sign1 ← map_err (λ e, Malformed ("invalid COSE Sign1 envelope: " +:+ e)) (cose_from_slice cose_bytes);
  alg_val ← ok_or (cose_alg cose_sign1) (Malformed "missing algorithm in protected header");
  algorithm ← from_cose_algorithm alg_val;
  let tbs := tbs_data (cose_alg cose_sign1) (cose_payload cose_sign1) in
  _ ← match algorithm with
      | EatMlDsa65 =>
          _ ← map_err Malformed sig_new;
          pk ← ok_or (sig_public_key_from_bytes verification_key_der) SignatureInvalid;
          s ← ok_or (sig_signature_from_bytes (cose_signature cose_sign1)) SignatureInvalid;
          if sig_verify tbs s pk then Ok () else Err SignatureInvalid
      end;
  payload_bytes ← ok_or (cose_payload cose_sign1) (Malformed "missing payload in COSE Sign1 envelope");
  deserialize_claims payload_bytes.

End eat.

(** ** Intel Trust Authority *)

Record ItaVerifier : Type := mk_ita { ita_endpoint : string; ita_feature : bool }.
(** The answer to the POST: a network error, or a status, the text and the token of the body. *)
Record ItaAnswer : Type := mk_ita_answer { ita_status : Z; ita_text : string; ita_token : result string string }.

Section ita.
Context {JP : JwtPrim} {BP : Base64Prim} {D : DebugStr}.

Definition ita_verify_jwt (v : ItaVerifier) (keys : Jwks) (kid token : string) (rd : bytes) : result AttestError () :=
  jwk ← find_key keys kid;
  cert_b64 ← ok_or (head (x5c jwk)) (Malformed "JWK missing x5c certificate");
  der ← ok_or (b64_decode cert_b64) (Malformed "x5c base64 decode failed");
  claims ← ok_or (jwt_decode token (from_rsa_der der) (ita_endpoint v)) SignatureInvalid;
  match claim_str claims "runtime_data" with
  | Some rd_claim =>
      if decide (rd_claim = b64_encode rd) then Ok () else Err (PolicyViolation "ITA JWT runtime_data mismatch")
  | None => Err (PolicyViolation "ITA JWT missing runtime_data claim")
  end.
Definition ita_verify_jwt_signature (v : ItaVerifier) (now : Z) (fetched : result AttestError Jwks) (cache : JwksCache)
    (token : string) (rd : bytes) : result AttestError () * JwksCache :=
  match (o ← map_err (λ e, Malformed ("JWT header decode failed: " +:+ e)) (header_kid token);
         ok_or o (Malformed "missing kid in JWT header")) with
  | Err e => (Err e, cache)
  | Ok kid =>
      let '(keys, cache) := cached_jwks cache now fetched in
      (ks ← keys; ita_verify_jwt v ks kid token rd, cache)
  end.

(** [answer] is what the service returns for the quote and the report data in Base64,
    [fetched] its key set. *)
Definition ita_verify (v : ItaVerifier) (answer : string → string → result string ItaAnswer) (now : Z)
    (fetched : result AttestError Jwks) (cache : JwksCache) (q : AttestQuote) (rd : bytes)
    : result AttestError VerificationResult * JwksCache :=
  match (resp ← map_err NetworkError (answer (b64_encode (quote_raw q)) (b64_encode rd));
         if negb (bool_decide (200 ≤ ita_status resp ≤ 299))
         then Err (ServiceError ("ITA returned " +:+ pretty.pretty (ita_status resp) +:+ ": " +:+ ita_text resp))
         else map_err ServiceError (ita_token resp)) with
  | Err e => (Err e, cache)
  | Ok token =>
      if ita_feature v then
        let '(r, cache) := ita_verify_jwt_signature v now fetched cache token rd in
        (_ ← r;
         Ok (mk_result None
               (mk_claims None (Some (quote_type_debug (quote_type q))) (Some "ita-verified"%string) (Some "Intel"%string) (Some 0)
                  None None None None None)
               "UpToDate" None None []), cache)
      else (Err (PolicyViolation "Intel Trust Authority verification failed: 'ita' feature is disabled"), cache)
  end.

End ita.

(** ** Theorems *)

(** A signed token round-trips: what a generated key signs, its public key opens to
    the same claims; and conversely claims come only from a token whose header and
    payload carry a signature that verifies, so that two tokens with one signed
    structure yield the same claims. *)
Theorem eat_round_trip {C : CoseCodec} {CL : CoseLaws C} {O : Oqs} {OL : OqsLaws O} (claims : EatClaims) (seed pk sk tok : bytes) :
  sig_keypair seed = Ok (pk, sk) → create_signed_eat claims sk EatMlDsa65 = Ok tok →
  verify_signed_eat tok pk = Ok claims ∧
  (∀ tok' key claims', verify_signed_eat tok' key = Ok claims' →
     ∃ s p, cose_from_slice tok' = Ok s ∧ cose_payload s = Some p ∧ claims_from_cbor p = Ok claims' ∧
       sig_verify (tbs_data (cose_alg s) (Some p)) (cose_signature s) key = true ∧
       (tbs_data (cose_alg s) (Some p) = tbs_data (Some HSS_LMS) (result_ok (claims_to_cbor claims)) → claims' = claims)).
Proof.
  intros Hk Ht. unfold create_signed_eat, serialize_claims in Ht.
  apply bind_Ok in Ht as (p & Hp%map_err_Ok & Ht). apply bind_Ok in Ht as (s & Hs & Ht%map_err_Ok).
  destruct (sig_keypair_from _ _ _ Hk) as [Hpk Hsk]. rewrite Hsk in Hs. apply bind_Ok in Hs as ([] & Hn & Hs). cbn [ok_or mbind result_bind] in Hs.
  apply map_err_Ok in Hs. cbn [to_cose_algorithm] in *. split.
  - unfold verify_signed_eat. rewrite (cose_round_trip _ _ Ht). cbn [map_err mbind result_bind cose_alg ok_or to_cose_algorithm from_cose_algorithm].
    rewrite Hn, Hpk. cbn [map_err mbind result_bind cose_signature ok_or cose_payload]. rewrite (sig_sign_from _ _ _ Hs). cbn [ok_or mbind result_bind].
    rewrite (sig_correct _ _ _ _ _ Hk Hs). cbn. unfold deserialize_claims. by rewrite (claims_round_trip _ _ Hp).
  - intros tok' key claims' Hv. unfold verify_signed_eat, deserialize_claims in Hv. inv_ok. destruct x1, x2.
    match goal with H : _ ≫= _ = Ok () |- _ => rename H into Hc end. apply bind_Ok in Hc as ([] & _ & Hc). inv_checks.
    repeat match goal with
    | H : sig_public_key_from_bytes _ = Some _ |- _ => apply sig_pk_id in H as ->
    | H : sig_signature_from_bytes _ = Some _ |- _ => apply sig_id in H as ->
    end.
    match goal with H : cose_payload ?x = Some ?p' |- _ => exists x, p'; rewrite H in *; clear H end.
    split; [done|]. split; [done|]. split; [done|]. split; [done|]. rewrite Hp. cbn [result_ok]. intros [_ [= ->]]%tbs_data_inj.
    apply claims_round_trip in Hp. congruence.
Qed.

(** What a verdict of Intel Trust Authority rests on: a token, returned for this quote and
    this report data, that the service's published key signed and whose signed runtime
    data is the report data. *)
Theorem ita_verify_sound {JP : JwtPrim} {BP : Base64Prim} {D : DebugStr} v answer now fetched cache cache' q rd res :
  ita_verify v answer now fetched cache q rd = (Ok res, cache') →
  ita_feature v = true ∧ ∃ a t kid keys jwk cert der c,
    answer (b64_encode (quote_raw q)) (b64_encode rd) = Ok a ∧ 200 ≤ ita_status a ≤ 299 ∧ ita_token a = Ok t ∧
    header_kid t = Ok (Some kid) ∧ (fetched = Ok keys ∨ ∃ expiry, cache = Some (expiry, keys) ∧ now < expiry) ∧
    jwk ∈ keys ∧ key_id jwk = kid ∧ head (x5c jwk) = Some cert ∧ b64_decode cert = Some der ∧
    jwt_decode t (from_rsa_der der) (ita_endpoint v) = Some c ∧ claim_str c "runtime_data" = Some (b64_encode rd).
Proof.
  unfold ita_verify. destruct (_ ≫= _) as [t|] eqn:Ha; [|done]. destruct (ita_feature v); [|done].
  unfold ita_verify_jwt_signature.
  destruct (o ← map_err _ (header_kid t); _) as [kid|] eqn:Hk; [|done].
  destruct (cached_jwks cache now fetched) as [keys c1] eqn:Hc. intros H. injection H as H <-.
  unfold ita_verify_jwt, find_key in *. inv_checks. simplify_eq.
  match goal with E : head (base.filter _ _) = Some _ |- _ => apply head_filter_Some in E as (l1 & l2 & -> & _ & Hk') end.
  destruct (claim_str _ _) as [rdc|] eqn:Hrd; [|done]. case_decide; [|done]. simplify_eq. split; [done|].
  match goal with E : negb (bool_decide _) = false |- _ => apply negb_false_iff, bool_decide_eq_true in E end.
  do 8 eexists. split_and!; try eassumption; try lia.
  - unfold cached_jwks in Hc. destruct cache as [[expiry ks]|]; [destruct (decide (now < expiry))|]; [|destruct fetched..]; simplify_eq; eauto.
  - set_solver.
  - done.
Qed.

(** The verdict is the same whatever the signed claims say: debug state and TCB status
    of the token are not read. *)
Theorem ita_verdict_constant {JP : JwtPrim} {BP : Base64Prim} {D : DebugStr} v answer now fetched cache cache' q rd res :
  ita_verify v answer now fetched cache q rd = (Ok res, cache') → dbgstat (claims res) = Some 0 ∧ tcb_status res = "UpToDate"%string.
Proof.
  unfold ita_verify. destruct (_ ≫= _) as [t|]; [|done]. destruct (ita_feature v); [|done].
  destruct (ita_verify_jwt_signature _ _ _ _ _ _) as [[u|] c1]; [|done]. by intros [= <- _].
Qed.

(** ** Witnesses *)

Module ToyEat.
Export ToyOqs.

#[export] Instance alg_eq_dec : EqDecision CoseAlgorithm.
Proof. solve_decision. Defined.
#[export] Instance alg_countable : Countable CoseAlgorithm.
Proof.
  refine (inj_countable' (λ a, match a with HSS_LMS => inl (inl ()) | PrivateUse n => inl (inr n) | OtherAlgorithm d => inr d end)
    (λ s, match s with inl (inl _) => HSS_LMS | inl (inr n) => PrivateUse n | inr d => OtherAlgorithm d end) _). by intros [].
Defined.
#[export] Instance cose_eq_dec : EqDecision CoseSign1.
Proof. solve_decision. Defined.
#[export] Instance cose_countable : Countable CoseSign1.
Proof.
  refine (inj_countable' (λ s, (cose_alg s, cose_payload s, cose_signature s)) (λ '(a, p, s), mk_cose a p s) _). by intros [].
Defined.

(** A codec that knows one set of claims. *)
Definition known : EatClaims := mk_claims None (Some "Intel TDX"%string) None None (Some 0) None None (Some 1700000000) None (Some IntelTdx).
#[export] Instance codec : CoseCodec := {|
  claims_to_cbor c := if decide (c = known) then Ok [u8_of 1] else Err "unknown"%string;
  claims_from_cbor b := if decide (b = [u8_of 1]) then Ok known else Err "unknown"%string;
  tbs_data a p := ToyCodec.put (a, p);
  cose_to_vec s := Ok (ToyCodec.put s);
  cose_from_slice b := ok_or (ToyCodec.get b) "malformed"%string;
|}.
#[export] Instance codec_laws : CoseLaws codec.
Proof.
  split.
  - intros c b. unfold claims_to_cbor, codec. case_decide; [|done]. intros [= <-]. by subst.
  - intros s b [= <-]. unfold cose_from_slice, codec. by rewrite ToyCodec.get_put.
  - intros a a' p p' H. apply (f_equal (ToyCodec.get (A := option CoseAlgorithm * option bytes))) in H.
    unfold tbs_data, codec in H. rewrite !ToyCodec.get_put in H. by simplify_eq.
Qed.
Definition seed : bytes := replicate 4 (u8_of 9).
Definition token : bytes :=
  ToyCodec.put (mk_cose (Some HSS_LMS) (Some [u8_of 1]) (ToyCodec.put (Some HSS_LMS, Some [u8_of 1]) ++ seed)).

End ToyEat.

Section witnesses.
Import ToyEat.

Lemma eat_round_trip_witness : create_signed_eat known seed EatMlDsa65 = Ok token ∧ verify_signed_eat token seed = Ok known.
Proof.
  assert (create_signed_eat known seed EatMlDsa65 = Ok token) as H by (vm_compute; reflexivity).
  split; [exact H|]. exact (proj1 (eat_round_trip known seed seed seed token eq_refl H)).
Defined.

End witnesses.
