(* ===== verification/Ws.v ===== *)
(** * Attested WebSockets

    [crates/openhttpa-server/src/ws.rs]: the upgrade of a session to a WebSocket,
    and the encryption and decryption of its frames.  The socket itself is a
    library: a connection is the sequence of messages that it delivers. *)

From S2P Require Import Prelude ReplayWindow Nonce Crypto Aead Proto State KeySchedule Attestation Session.
From S2P Require Import Http Ahl Registry Middleware Extractors.
From stdpp Require Import options.

#[local] Open Scope Z_scope.

Definition MSG_TEXT : byte := u8_of 0.
Definition MSG_BINARY : byte := u8_of 1.
Definition MIN_FRAME : nat := 12 + 1 + 16.

Inductive WsError : Type :=
| FrameTooShort (len min : nat)
| NonceReplay
| AeadOpen (e : AeadError)
| AeadSeal (e : BoundAeadError)
| UnknownType (b : byte)
| InvalidUtf8
| WsTransport (msg : string).

Inductive WsPayload : Type :=
| Text (t : bytes)
| Binary (b : bytes)
| Close.
#[export] Instance WsPayload_eq_dec : EqDecision WsPayload.
Proof. solve_decision. Defined.

(** [String::from_utf8]: well-formed UTF-8, that is no overlong forms, no
    surrogates, nothing above U+10FFFF. *)
Definition in_range (lo hi : Z) (b : byte) : bool := bool_decide (lo ≤ u8_val b ≤ hi).
Fixpoint utf8_valid (s : bytes) : bool :=
  match s with
  | [] => true
  | a :: s1 =>
      if in_range 0 127 a then utf8_valid s1 else
      match s1 with
      | [] => false
      | b :: s2 =>
          if in_range 194 223 a then in_range 128 191 b && utf8_valid s2 else
          match s2 with
          | [] => false
          | c :: s3 =>
              let tail2 := in_range 128 191 c in
              if in_range 224 239 a then
                (if decide (u8_val a = 224) then in_range 160 191 b
                 else if decide (u8_val a = 237) then in_range 128 159 b else in_range 128 191 b) &&
                tail2 && utf8_valid s3
              else
                match s3 with
                | [] => false
                | d :: s4 =>
                    in_range 240 244 a &&
                    (if decide (u8_val a = 240) then in_range 144 191 b
                     else if decide (u8_val a = 244) then in_range 128 143 b else in_range 128 191 b) &&
                    tail2 && in_range 128 191 d && utf8_valid s4
                end
          end
      end
  end.

Definition cipher_suite_to_aead (suite : CipherSuite) : AeadAlgorithm :=
  match suite with X25519ChaCha20Poly1305Sha256 => ChaCha20Poly1305 | _ => Aes256Gcm end.

(** The counter in a nonce: XOR of the last eight bytes with the IV's. *)
Definition extract_counter_from_nonce (nonce iv : bytes) : Z :=
  from_be (zip_with u8_xor (take 8 (drop 4 nonce)) (take 8 (drop 4 iv))).

(** ** Sessions *)

Record AttestWsSession : Type := mk_ws {
  outbound : BoundAeadKey.t Z;
  inbound : BoundAeadKey.t Z;
  inbound_iv : bytes;
  ws_algorithm : AeadAlgorithm;
  atb_id_bytes : bytes;
  ws_aad : bytes;
  last_inbound_counter : Z;
}.

Section ws.
Context {AP : AeadPrim} {UP : UuidPrim}.

Definition new_ws (outbound inbound : BoundAeadKey.t Z) (inbound_iv : bytes) (algorithm : AeadAlgorithm) (i : AtbId) : AttestWsSession :=
  mk_ws outbound inbound inbound_iv algorithm i (AAD_PREFIX ++ as_bytes (uuid_to_string i)) 0.

(** [attested_ws_upgrade], up to the handler: a session or the status. *)
Definition attested_ws_upgrade (now : Z) (r : AtbRegistry.t) (headers : HeaderMap) : result Z AttestWsSession * AtbRegistry.t :=
  match v ← hm_get headers STR_ATTEST_BASE_ID; s ← to_str v; uuid_parse s with
  | None => (Err UNAUTHORIZED, r)
  | Some i =>
      let '(session, r) := AtbRegistry.get now r i in
      match session with
      | None => (Err UNAUTHORIZED, r)
      | Some s =>
          let algorithm := cipher_suite_to_aead (cipher_suite s) in
          (match AttestSession.peek_keys now s (λ k, k) with
           | Err _ => Err UNAUTHORIZED
           | Ok k =>
               let swiv := take 12 (server_write_iv k) in
               let cwiv := take 12 (client_write_iv k) in
               out_key ← map_err (λ _, INTERNAL_SERVER_ERROR) (BoundAeadKey.new algorithm (server_write_key k) swiv);
               in_key ← map_err (λ _, INTERNAL_SERVER_ERROR) (BoundAeadKey.new algorithm (client_write_key k) cwiv);
               Ok (new_ws out_key in_key cwiv algorithm i)
           end, r)
      end
  end.

(** [encode_frame]: the nonce, then the ciphertext of type byte and payload. *)
Definition encode_frame (ws : AttestWsSession) (type_byte : byte) (payload : bytes) : result WsError bytes * AttestWsSession :=
  let '(r, k) := BoundAeadKey.seal () (outbound ws) (ws_aad ws) (type_byte :: payload) in
  ('(nonce, ct) ← map_err AeadSeal r; Ok (nonce ++ ct),
   mk_ws k (inbound ws) (inbound_iv ws) (ws_algorithm ws) (atb_id_bytes ws) (ws_aad ws) (last_inbound_counter ws)).

Definition decode_payload (plaintext : bytes) : result WsError WsPayload :=
  match plaintext with
  | [] => Err (FrameTooShort 0 1)
  | b :: p =>
      if decide (b = MSG_TEXT) then (if utf8_valid p then Ok (Text p) else Err InvalidUtf8)
      else if decide (b = MSG_BINARY) then Ok (Binary p)
      else Err (UnknownType b)
  end.

(** [decode_frame]: the counter is checked and moved before the decryption. *)
Definition decode_frame (ws : AttestWsSession) (frame : bytes) : result WsError WsPayload * AttestWsSession :=
  if decide (length frame < MIN_FRAME)%nat then (Err (FrameTooShort (length frame) MIN_FRAME), ws)
  else
    match aead_nonce_from_slice (take 12 frame) with
    | Err e => (Err (AeadOpen e), ws)
    | Ok nonce =>
        let counter := extract_counter_from_nonce (take 12 frame) (inbound_iv ws) in
        if decide (counter ≤ last_inbound_counter ws) then (Err NonceReplay, ws)
        else
          let ws := mk_ws (outbound ws) (inbound ws) (inbound_iv ws) (ws_algorithm ws) (atb_id_bytes ws) (ws_aad ws) counter in
          (plaintext ← map_err AeadOpen (BoundAeadKey.open (inbound ws) nonce (ws_aad ws) (drop 12 frame));
           decode_payload plaintext, ws)
    end.

(** [send_text] and [send_binary], as far as the session is concerned. *)
Definition send_text (ws : AttestWsSession) (t : bytes) := encode_frame ws MSG_TEXT t.
Definition send_binary (ws : AttestWsSession) (b : bytes) := encode_frame ws MSG_BINARY b.

(** The messages of the socket; [recv] skips pings and pongs. *)
Inductive Message : Type :=
| MBinary (data : bytes)
| MText (t : bytes)
| MPing
| MPong
| MClose
| MError (msg : string).

Fixpoint recv (ws : AttestWsSession) (ms : list Message)
    : option (result WsError WsPayload) * AttestWsSession * list Message :=
  match ms with
  | [] => (None, ws, [])
  | m :: ms =>
      match m with
      | MBinary d | MText d => let '(r, ws) := decode_frame ws d in (Some r, ws, ms)
      | MPing | MPong => recv ws ms
      | MClose => (Some (Ok Close), ws, ms)
      | MError e => (Some (Err (WsTransport e)), ws, ms)
      end
  end.

(** A sequence of received frames, and the counters of those that decrypted. *)
Fixpoint decode_all (ws : AttestWsSession) (fs : list bytes) : list (result WsError WsPayload) * AttestWsSession :=
  match fs with
  | [] => ([], ws)
  | f :: fs =>
      let '(r, ws) := decode_frame ws f in
      let '(rs, ws) := decode_all ws fs in
      (r :: rs, ws)
  end.
Definition frame_counter (iv f : bytes) : Z := extract_counter_from_nonce (take 12 f) iv.
Fixpoint accepted_counters (iv : bytes) (fs : list bytes) (rs : list (result WsError WsPayload)) : list Z :=
  match fs, rs with
  | f :: fs, Ok _ :: rs => frame_counter iv f :: accepted_counters iv fs rs
  | _ :: fs, Err _ :: rs => accepted_counters iv fs rs
  | _, _ => []
  end.

(** ** Counters and nonces *)

Lemma zip_xor_cancel (l k : bytes) : length l = length k → zip_with u8_xor (zip_with u8_xor l k) l = k.
Proof.
  revert k. induction l as [|a l IH]; intros [|b k] Hlen; try done. simpl in *. f_equal; [|apply IH; lia].
  rewrite (u8_xor_comm a b). apply u8_xor_cancel.
Qed.
Lemma extract_build c iv : length iv = 12%nat → is_u64 c → extract_counter_from_nonce (build_aead_nonce c iv) iv = c.
Proof.
  intros Hiv Hc. unfold extract_counter_from_nonce, build_aead_nonce, u64_be.
  rewrite drop_app_le, drop_ge, app_nil_l by (rewrite length_take; lia).
  rewrite take_ge by wire_len.
  rewrite (take_ge (drop 4 iv)) by (rewrite length_drop; lia).
  rewrite zip_xor_cancel by wire_len. by apply from_be_u64_be.
Qed.

Lemma decode_frame_Ok ws f p ws' :
  decode_frame ws f = (Ok p, ws') →
  last_inbound_counter ws < frame_counter (inbound_iv ws) f ∧ last_inbound_counter ws' = frame_counter (inbound_iv ws) f ∧
  inbound_iv ws' = inbound_iv ws.
Proof.
  unfold decode_frame, frame_counter. case_decide; [done|]. destruct (aead_nonce_from_slice _); [|done].
  case_decide; [done|]. intros [= _ <-]. simpl. split_and!; [lia|done|done].
Qed.
Lemma decode_frame_mono ws f :
  last_inbound_counter ws ≤ last_inbound_counter (decode_frame ws f).2 ∧ inbound_iv (decode_frame ws f).2 = inbound_iv ws.
Proof.
  unfold decode_frame. case_decide; [done|]. destruct (aead_nonce_from_slice _); [|done]. case_decide; [done|]. simpl. split; [lia|done].
Qed.

Lemma decode_all_counters ws fs :
  StronglySorted Z.lt (accepted_counters (inbound_iv ws) fs (decode_all ws fs).1) ∧
  Forall (λ c, last_inbound_counter ws < c) (accepted_counters (inbound_iv ws) fs (decode_all ws fs).1).
Proof.
  revert ws. induction fs as [|f fs IH]; intros ws; [repeat constructor|]. cbn [decode_all].
  destruct (decode_frame_mono ws f) as [Hmono Hiv]. destruct (decode_frame ws f) as [r ws1] eqn:Hd. simpl in Hmono, Hiv.
  specialize (IH ws1). rewrite Hiv in IH. destruct (decode_all ws1 fs) as [rs ws2]. simpl in *. destruct IH as [Hs Hall].
  destruct r as [p|e]; simpl.
  - apply decode_frame_Ok in Hd as (Hlt & Heq & _). rewrite Heq in Hall. split; constructor; auto.
    eapply Forall_impl; [exact Hall|]. simpl. lia.
  - split; [done|]. eapply Forall_impl; [exact Hall|]. simpl. lia.
Qed.

(** ** Two ends of a connection *)

Context {AL : AeadLaws AP}.

(** The peer seals with the key and IV that this end opens with. *)
Record ws_peers (snd rcv : AttestWsSession) : Prop := mk_peers {
  peer_key : BoundAeadKey.key (outbound snd) = BoundAeadKey.key (inbound rcv);
  peer_key_wf : AeadKey.wf (BoundAeadKey.key (inbound rcv));
  peer_iv : BoundAeadKey.write_iv (outbound snd) = inbound_iv rcv;
  peer_iv_len : length (inbound_iv rcv) = 12%nat;
  peer_aad : ws_aad snd = ws_aad rcv;
  peer_counter : 0 ≤ last_inbound_counter rcv < BoundAeadKey.sequence (outbound snd);
}.

Definition payload_of (type_byte : byte) (payload : bytes) : result WsError WsPayload := decode_payload (type_byte :: payload).

Lemma send_recv snd rcv b payload :
  ws_peers snd rcv → BoundAeadKey.sequence (outbound snd) < u64_max → Z.of_nat (length payload) < 2 ^ 36 - 32 →
  ∃ frame snd' rcv', encode_frame snd b payload = (Ok frame, snd') ∧
    decode_frame rcv frame = (payload_of b payload, rcv') ∧ ws_peers snd' rcv' ∧
    BoundAeadKey.sequence (outbound snd') = BoundAeadKey.sequence (outbound snd) + 1.
Proof using AL.
  intros [Hk Hwf Hiv Hlen Haad Hc] Hmax Hp.
  set (c := BoundAeadKey.sequence (outbound snd)) in *. set (n := build_aead_nonce c (inbound_iv rcv)).
  destruct (AeadKey.seal_total (BoundAeadKey.key (inbound rcv)) n (ws_aad rcv) (b :: payload)) as [ct Hct]; [done|simpl; lia|].
  pose proof (AeadKey.seal_length _ _ _ _ _ Hct) as Hctl. simpl in Hctl. unfold TAG_LEN in Hctl.
  assert (length n = 12%nat) as Hn by (by apply length_build_aead_nonce).
  exists (n ++ ct). eexists _, _. split_and!.
  - unfold encode_frame, BoundAeadKey.seal, next_nonce, AtomicNonceSequence.seq, AtomicNonceSequence.upd.
    fold c. rewrite decide_False by lia. cbn [mbind result_bind map_err]. rewrite Hk, Hiv, Haad. fold n. rewrite Hct. reflexivity.
  - unfold decode_frame. rewrite decide_False by (rewrite length_app; unfold MIN_FRAME; lia).
    rewrite take_app_le, take_ge by lia. unfold aead_nonce_from_slice. rewrite decide_True by done.
    assert (extract_counter_from_nonce n (inbound_iv rcv) = c) as -> by (apply extract_build; [done|unfold is_u64; lia]).
    rewrite decide_False by lia. cbn [inbound ws_aad]. rewrite drop_app_le, drop_ge, app_nil_l by lia.
    unfold BoundAeadKey.open. apply AeadKey.open_seal_iff in Hct. rewrite Hct. reflexivity.
  - split; simpl; try done. lia.
  - done.
Qed.

Fixpoint send_all (ws : AttestWsSession) (ms : list (byte * bytes)) : list (result WsError bytes) :=
  match ms with
  | [] => []
  | (b, p) :: ms => let '(r, ws) := encode_frame ws b p in r :: send_all ws ms
  end.

Lemma send_recv_all snd rcv ms :
  ws_peers snd rcv → BoundAeadKey.sequence (outbound snd) + Z.of_nat (length ms) ≤ u64_max →
  Forall (λ m, Z.of_nat (length m.2) < 2 ^ 36 - 32) ms →
  ∃ frames, send_all snd ms = Ok <$> frames ∧ (decode_all rcv frames).1 = (λ m, payload_of m.1 m.2) <$> ms.
Proof using AL.
  intros Hp Hc Hms. revert snd rcv Hp Hc. induction Hms as [|[b p] ms Hlen _ IH]; intros snd rcv Hp Hc.
  { by exists []. }
  cbn [length] in Hc. destruct (send_recv snd rcv b p Hp ltac:(lia) Hlen) as (f & snd' & rcv' & Henc & Hdec & Hp' & Hseq).
  destruct (IH snd' rcv' Hp' ltac:(lia)) as (fs & Hs & Hd). exists (f :: fs). cbn [send_all decode_all]. rewrite Henc, Hdec.
  destruct (decode_all rcv' fs) as [rs ws2]. simpl in *. by rewrite Hs, Hd.
Qed.

End ws.

(** ** Properties *)

(** Within a connection no frame is accepted twice and none out of order:
    whatever frames arrive, the counters of those that decrypt strictly increase. *)
Theorem ws_counters_increase {AP : AeadPrim} (ws : AttestWsSession) (fs : list bytes) :
  StronglySorted Z.lt (accepted_counters (inbound_iv ws) fs (decode_all ws fs).1).
Proof. apply decode_all_counters. Qed.

(** Messages arrive: between two ends that share a direction's key, IV and
    session identifier, every sequence of messages is sealed without error and
    decoded to the same messages in order, text that is not UTF-8 and unknown
    types being reported as such. *)
Theorem ws_messages_arrive {AP : AeadPrim} {AL : AeadLaws AP} (snd rcv : AttestWsSession) (ms : list (byte * bytes)) :
  ws_peers snd rcv → BoundAeadKey.sequence (outbound snd) + Z.of_nat (length ms) ≤ u64_max →
  Forall (λ m, Z.of_nat (length m.2) < 2 ^ 36 - 32) ms →
  ∃ frames, send_all snd ms = Ok <$> frames ∧ (decode_all rcv frames).1 = (λ m, payload_of m.1 m.2) <$> ms.
Proof. apply send_recv_all. Qed.

(** The counter moves before the frame is authenticated: one forged frame,
    made without any key, whose nonce decodes to the counter [c] makes the
    connection reject every genuine frame up to [c]. *)
Theorem ws_forged_frame_locks_out {AP : AeadPrim} {AL : AeadLaws AP} (ws : AttestWsSession) (c : Z) (garbage frame : bytes) :
  length (inbound_iv ws) = 12%nat → is_u64 c → last_inbound_counter ws < c → (17 ≤ length garbage)%nat →
  (MIN_FRAME ≤ length frame)%nat → frame_counter (inbound_iv ws) frame ≤ c →
  let ws' := (decode_frame ws (build_aead_nonce c (inbound_iv ws) ++ garbage)).2 in
  (decode_frame ws' frame).1 = Err NonceReplay.
Proof.
  intros Hiv Hc Hlt Hg Hf Hle ws'. assert (length (build_aead_nonce c (inbound_iv ws)) = 12%nat) as Hn by (by apply length_build_aead_nonce).
  assert (last_inbound_counter ws' = c ∧ inbound_iv ws' = inbound_iv ws) as [Hlast Hiv'].
  { unfold ws', decode_frame. rewrite decide_False by (rewrite length_app; unfold MIN_FRAME; lia).
    rewrite take_app_le, take_ge by lia. unfold aead_nonce_from_slice. rewrite decide_True by done.
    rewrite extract_build by done. by rewrite decide_False by lia. }
  clearbody ws'. unfold decode_frame. rewrite decide_False by lia. unfold aead_nonce_from_slice.
  rewrite decide_True by (rewrite length_take; unfold MIN_FRAME, NONCE_LEN in *; lia).
  rewrite decide_True; [done|]. rewrite Hlast, Hiv'. exact Hle.
Qed.

(** Every upgrade of a session starts its counters afresh under the same keys:
    the first frames of two connections of one session carry the same nonce,
    whatever they encrypt, and a frame that one connection accepted the other
    accepts again. *)
Theorem ws_connections_reuse_nonces {AP : AeadPrim} {UP : UuidPrim} (now1 now2 : Z) (r : AtbRegistry.t) (h : HeaderMap)
    (w1 w2 : AttestWsSession) r1 r2 (b1 b2 : byte) (p1 p2 f1 f2 frame : bytes) w1' w2' :
  attested_ws_upgrade now1 r h = (Ok w1, r1) → attested_ws_upgrade now2 r h = (Ok w2, r2) →
  encode_frame w1 b1 p1 = (Ok f1, w1') → encode_frame w2 b2 p2 = (Ok f2, w2') →
  (length (build_aead_nonce 1 (BoundAeadKey.write_iv (outbound w1))) = 12)%nat →
  BoundAeadKey.key (outbound w1) = BoundAeadKey.key (outbound w2) ∧ take 12 f1 = take 12 f2 ∧
  (decode_frame w2 frame).1 = (decode_frame w1 frame).1.
Proof.
  intros H1 H2 He1 He2 Hlen.
  assert (w1 = w2) as <-.
  { unfold attested_ws_upgrade in H1, H2. destruct (_ ≫= _) as [i|]; [|done]. unfold AtbRegistry.get in H1, H2.
    destruct (AtbRegistry.sessions r !! i) as [s|]; [|done].
    destruct (AttestSession.is_alive now1 s); [|done]. destruct (AttestSession.is_alive now2 s); [|done].
    unfold AttestSession.peek_keys in H1, H2. destruct (decide (expires_at s ≤ now1)); [done|]. destruct (decide (expires_at s ≤ now2)); [done|].
    congruence. }
  split; [done|]. split; [|done]. assert (BoundAeadKey.sequence (outbound w1) = 1) as Hseq.
  { unfold attested_ws_upgrade in H1. destruct (_ ≫= _) as [i|]; [|done]. destruct (AtbRegistry.get _ _ _) as [[s|] ?]; [|done].
    destruct (AttestSession.peek_keys _ _ _); [|done]. injection H1 as H1 _. inv_ok. simpl.
    unfold BoundAeadKey.new, BoundAeadKey.with_sequence in H. inv_ok. done. }
  assert (∀ b p f w', encode_frame w1 b p = (Ok f, w') → take 12 f = build_aead_nonce 1 (BoundAeadKey.write_iv (outbound w1))) as Hnonce.
  { intros b p f w' He. unfold encode_frame, BoundAeadKey.seal, next_nonce, AtomicNonceSequence.seq, AtomicNonceSequence.upd in He.
    rewrite Hseq in He. rewrite decide_False in He by done. injection He as He _. apply bind_Ok in He as ([n ct] & He & Hf).
    apply map_err_Ok, bind_Ok in He as (ct' & _ & He). apply (inj Ok) in He, Hf. injection He as Hn _. subst n f.
    rewrite take_app_le, take_ge by lia. done. }
  by rewrite (Hnonce _ _ _ _ He1), (Hnonce _ _ _ _ He2).
Qed.

(** ** Examples *)

Module ToyWs.
#[local] Existing Instances Toy.aead ToyWeb.uuid.

Definition iv : bytes := replicate 12 (u8_of 9).
Definition key : AeadKey.t := AeadKey.mk (replicate 32 (u8_of 3)) Aes256Gcm.
Definition bound (c : Z) : BoundAeadKey.t Z := BoundAeadKey.mk key iv c.
Definition session : AttestWsSession := new_ws (bound 1) (bound 1) iv Aes256Gcm (replicate 16 (u8_of 5)).

Definition keys : SessionKeys :=
  mk_keys [] [] (replicate 32 (u8_of 3)) (replicate 32 (u8_of 4)) (replicate 12 (u8_of 5)) (replicate 12 (u8_of 6)) [] [] [].
Definition sid : AtbId := replicate 16 (u8_of 5).
Definition registry : AtbRegistry.t := (AtbRegistry.insert AtbRegistry.new
  (AttestSession.new sid X25519MlKem768Aes256GcmSha384 V2 keys 1000 StrictMonotonic None)).2.
Definition headers : HeaderMap := [(STR_ATTEST_BASE_ID, [as_bytes (uuid_to_string sid)])].
Definition upgrade (now : Z) := attested_ws_upgrade now registry headers.
End ToyWs.

Lemma ws_messages_arrive_witness :
  let ms := [(MSG_TEXT, as_bytes "hi"); (MSG_BINARY, [u8_of 255]); (MSG_TEXT, [u8_of 255])] in
  ∃ frames, send_all (AP := Toy.aead) ToyWs.session ms = Ok <$> frames ∧
    (decode_all (AP := Toy.aead) ToyWs.session frames).1 = [Ok (Text (as_bytes "hi")); Ok (Binary [u8_of 255]); Err InvalidUtf8].
Proof.
  intros ms. apply (ws_messages_arrive (AL := Toy.aead_laws) ToyWs.session ToyWs.session ms).
  - split; first [reflexivity|by_compute].
  - by_compute.
  - repeat apply Forall_cons_2; [by_compute..|apply Forall_nil_2].
Defined.

Lemma ws_forged_frame_locks_out_witness :
  let forged := build_aead_nonce u64_max ToyWs.iv ++ replicate 17 NUL in
  let frame := build_aead_nonce 1 ToyWs.iv ++ replicate 17 NUL in
  (decode_frame (AP := Toy.aead) (decode_frame (AP := Toy.aead) ToyWs.session forged).2 frame).1 = Err NonceReplay.
Proof.
  intros forged frame.
  apply (ws_forged_frame_locks_out (AP := Toy.aead) (AL := Toy.aead_laws) ToyWs.session u64_max (replicate 17 NUL) frame);
    first [reflexivity|by_compute].
Defined.

Lemma ws_connections_reuse_nonces_witness :
  ∃ f1 f2, (r ← (ToyWs.upgrade 10).1; map_err (λ _, 0) (send_text (AP := Toy.aead) r (as_bytes "one")).1) = Ok f1 ∧
    (r ← (ToyWs.upgrade 20).1; map_err (λ _, 0) (send_text (AP := Toy.aead) r (as_bytes "two")).1) = Ok f2 ∧
    take 12 f1 = take 12 f2.
Proof.
  destruct (ToyWs.upgrade 10) as [[w1|] r1] eqn:H1; [|vm_compute in H1; discriminate H1].
  destruct (ToyWs.upgrade 20) as [[w2|] r2] eqn:H2; [|vm_compute in H2; discriminate H2].
  destruct (send_text (AP := Toy.aead) w1 (as_bytes "one")) as [[f1|] w1'] eqn:E1.
  2:{ exfalso. vm_compute in H1. injection H1 as <- _. vm_compute in E1. discriminate E1. }
  destruct (send_text (AP := Toy.aead) w2 (as_bytes "two")) as [[f2|] w2'] eqn:E2.
  2:{ exfalso. vm_compute in H2. injection H2 as <- _. vm_compute in E2. discriminate E2. }
  exists f1, f2. cbn [fst mbind result_bind]. rewrite E1, E2. split_and!; [reflexivity|reflexivity|].
  eapply (ws_connections_reuse_nonces (AP := Toy.aead) (UP := ToyWeb.uuid) 10 20 ToyWs.registry ToyWs.headers w1 w2 r1 r2
    MSG_TEXT MSG_TEXT (as_bytes "one") (as_bytes "two") f1 f2 [] w1' w2' H1 H2 E1 E2).
  vm_compute in H1. injection H1 as <- _. vm_compute. reflexivity.
Defined.
