(* ===== verification/ChatRoom.v ===== *)
(** * The chat room

    [WsChatHandler] of [demo/multiparty-webapp/backend/src/main.rs]: one task per attested
    WebSocket, all of them subscribed to one broadcast channel.  A task waits for its socket
    and for the channel at the same time; the order in which things happen is a sequence of
    events, each of them one branch of a task's [select!] that completes.

    The channel is [tokio]'s: a class with the operations that the handler calls, and a
    class of laws with what its documentation promises.  A branch of [select!] whose pattern
    does not match is disabled until another branch completes: a task whose receiver
    reports an error waits for its socket alone. *)

From S2P Require Import Prelude ReplayWindow Nonce Crypto Aead Proto State KeySchedule Attestation Session.
From S2P Require Import Http Ahl Registry Middleware Extractors Ws.
From stdpp Require Import options.

#[local] Open Scope Z_scope.

(** ** The channel *)

(** What [Receiver::recv] gives: a value, one of its two errors, or nothing yet. *)
Inductive RecvOutcome : Type := RecvValue (p : WsPayload) | RecvLagged (n : nat) | RecvClosed | RecvPending.

Class Broadcast (Ch Rx : Type) : Type := {
  bc_subscribe : Ch → Rx;
  bc_send : Ch → WsPayload → Ch;
  bc_recv : Ch → Rx → RecvOutcome * Rx;
}.

(** A receiver gets every value sent after it subscribed, in order, except that one that is
    more than the capacity behind is told how many of the oldest it missed.  [waiting] is
    what was sent and neither received nor reported missed; [bc_live] are the receivers
    of this channel.  The handler holds a sender, so the channel is not closed. *)
Class BroadcastLaws {Ch Rx : Type} (B : Broadcast Ch Rx) (capacity : nat) : Type := {
  waiting : Ch → Rx → list WsPayload;
  bc_live : Ch → Rx → Prop;
  subscribe_live ch : bc_live ch (bc_subscribe ch);
  subscribe_waiting ch : waiting ch (bc_subscribe ch) = [];
  send_live ch rx p : bc_live ch rx → bc_live (bc_send ch p) rx;
  send_waiting ch rx p : bc_live ch rx → waiting (bc_send ch p) rx = waiting ch rx ++ [p];
  recv_live ch rx : bc_live ch rx → bc_live ch (bc_recv ch rx).2;
  recv_value ch rx p : bc_live ch rx → (bc_recv ch rx).1 = RecvValue p → waiting ch rx = p :: waiting ch (bc_recv ch rx).2;
  recv_lagged ch rx n : bc_live ch rx → (bc_recv ch rx).1 = RecvLagged n →
    (capacity < length (waiting ch rx))%nat ∧ (0 < n ≤ length (waiting ch rx))%nat ∧
    waiting ch (bc_recv ch rx).2 = drop n (waiting ch rx);
  recv_open ch rx : bc_live ch rx → (bc_recv ch rx).1 ≠ RecvClosed;
  recv_pending ch rx : bc_live ch rx → (bc_recv ch rx).1 = RecvPending → waiting ch rx = [];
}.

(** ** The room *)

(** A task: its session, its receiver, and whether the branch that reads the channel is
    disabled in the current turn of the loop. *)
Record Member (Rx : Type) : Type := mk_member { mb_ws : AttestWsSession; mb_rx : Rx; mb_disabled : bool }.
Arguments mk_member {_}.
Arguments mb_ws {_}.
Arguments mb_rx {_}.
Arguments mb_disabled {_}.
Record Room (Ch Rx : Type) : Type := mk_room { rm_tx : Ch; rm_members : gmap nat (Member Rx) }.
Arguments mk_room {_ _}.
Arguments rm_tx {_ _}.
Arguments rm_members {_ _}.

Inductive RoomEvent : Type :=
| Join (c : nat) (ws : AttestWsSession)
(** [ws.recv()] returns, having consumed the messages *)
| Receive (c : nat) (ms : list Message)
(** [rx.recv()] returns; [sent] is whether the socket takes the frame *)
| Deliver (c : nat) (sent : bool).

(** [Skipped] records that the channel reported missed values; the code says nothing. *)
Inductive RoomObs : Type :=
| Joined (c : nat) (ws : AttestWsSession)
| Said (c : nat) (p : WsPayload)
| Skipped (c n : nat)
| Told (c : nat) (p : WsPayload) (frame : bytes)
| Left (c : nat).

Section room.
Context {AP : AeadPrim} {Ch Rx : Type} {B : Broadcast Ch Rx}.
Implicit Types room : Room Ch Rx.

Definition leave room (c : nat) : list RoomObs * Room Ch Rx := ([Left c], mk_room (rm_tx room) (delete c (rm_members room))).
Definition update room (c : nat) (m : Member Rx) : Room Ch Rx := mk_room (rm_tx room) (<[c := m]> (rm_members room)).

(** What a member is sent, and what [Close] ends. *)
Definition send_payload (ws : AttestWsSession) (p : WsPayload) : result WsError bytes * AttestWsSession :=
  match p with
  | Text t => send_text ws t
  | Binary b => send_binary ws b
  | Close => (Err (WsTransport "closed"), ws)
  end.

Definition on_message room (c : nat) (m : Member Rx) (ms : list Message) : list RoomObs * Room Ch Rx :=
  let '(msg, ws, _) := recv (mb_ws m) ms in
  match msg with
  | Some (Ok Close) | Some (Err _) | None => leave room c
  | Some (Ok p) => ([Said c p], mk_room (bc_send (rm_tx room) p) (<[c := mk_member ws (mb_rx m) false]> (rm_members room)))
  end.

Definition on_broadcast room (c : nat) (m : Member Rx) (sent : bool) : list RoomObs * Room Ch Rx :=
  if mb_disabled m then ([], room)
  else
    match bc_recv (rm_tx room) (mb_rx m) with
    | (RecvPending, _) => ([], room)
    | (RecvClosed, rx) => ([], update room c (mk_member (mb_ws m) rx true))
    | (RecvLagged n, rx) => ([Skipped c n], update room c (mk_member (mb_ws m) rx true))
    | (RecvValue p, rx) =>
        match send_payload (mb_ws m) p with
        | (Ok frame, ws) => if sent then ([Told c p frame], update room c (mk_member ws rx false)) else leave room c
        | (Err _, _) => leave room c
        end
    end.

(** One event; every connection has a name of its own. *)
Definition room_step room (e : RoomEvent) : list RoomObs * Room Ch Rx :=
  match e with
  | Join c ws =>
      match rm_members room !! c with
      | Some _ => ([], room)
      | None => ([Joined c ws], update room c (mk_member ws (bc_subscribe (rm_tx room)) false))
      end
  | Receive c ms => match rm_members room !! c with Some m => on_message room c m ms | None => ([], room) end
  | Deliver c sent => match rm_members room !! c with Some m => on_broadcast room c m sent | None => ([], room) end
  end.

(** A run, with what was observed, oldest first. *)
Fixpoint room_run (log : list RoomObs) room (es : list RoomEvent) : list RoomObs * Room Ch Rx :=
  match es with
  | [] => (log, room)
  | e :: es => let '(obs, room) := room_step room e in room_run (log ++ obs) room es
  end.

End room.

(** ** What a member should see *)

(** The observations since [c] joined. *)
Definition since_step (c : nat) (acc : list RoomObs) (o : RoomObs) : list RoomObs :=
  match o with
  | Joined c' _ => if decide (c' = c) then [o] else acc ++ [o]
  | _ => acc ++ [o]
  end.
Definition since (c : nat) (log : list RoomObs) : list RoomObs := foldl (since_step c) [] log.
Definition said (log : list RoomObs) : list WsPayload := omap (λ o, match o with Said _ p => Some p | _ => None end) log.
Definition told (c : nat) (log : list RoomObs) : list WsPayload :=
  omap (λ o, match o with Told c' p _ => if decide (c' = c) then Some p else None | _ => None end) log.
Definition skipped (c : nat) (log : list RoomObs) : nat :=
  sum_list (omap (λ o, match o with Skipped c' n => if decide (c' = c) then Some n else None | _ => None end) log).
Definition frames (c : nat) (log : list RoomObs) : list bytes :=
  omap (λ o, match o with Told c' _ f => if decide (c' = c) then Some f else None | _ => None end) log.
Definition joined_as (c : nat) (log : list RoomObs) : option AttestWsSession :=
  match head (since c log) with Some (Joined _ ws) => Some ws | _ => None end.

(** ** Facts about frames *)

(** What a decoder returns for a message that was broadcast. *)
Definition spoken (p : WsPayload) : Prop :=
  match p with Text t => utf8_valid t = true | Binary _ => True | Close => False end.

Section frames.
Context {AP : AeadPrim} {AL : AeadLaws AP}.

Lemma decode_payload_spoken plaintext p : decode_payload plaintext = Ok p → spoken p.
Proof using.
  unfold decode_payload. destruct plaintext as [|b plaintext]; [done|]. repeat case_decide; [|by intros [= <-]|done].
  destruct (utf8_valid plaintext) eqn:Hu; [|done]. by intros [= <-].
Qed.

(** Receiving does not touch the half of the session that sends. *)
Lemma decode_frame_keeps ws f r ws' :
  decode_frame ws f = (r, ws') → outbound ws' = outbound ws ∧ ws_aad ws' = ws_aad ws ∧ ∀ p, r = Ok p → spoken p.
Proof using.
  unfold decode_frame. case_decide; [by intros [= <- <-]|]. destruct (aead_nonce_from_slice _); [|by intros [= <- <-]].
  case_decide; [by intros [= <- <-]|]. intros [= <- <-]. split_and!; [done..|]. intros p (plaintext & _ & Hp)%bind_Ok. by eapply decode_payload_spoken.
Qed.
Lemma recv_keeps ws ms r ws' rest :
  recv ws ms = (r, ws', rest) → outbound ws' = outbound ws ∧ ws_aad ws' = ws_aad ws ∧ ∀ p, r = Some (Ok p) → p ≠ Close → spoken p.
Proof using.
  revert ws. induction ms as [|m ms IH]; intros ws; cbn [recv]; [by intros [= <- <- <-]|].
  destruct m as [d|d| | | |e]; [..|by intros [= <- <- <-]]; try (by apply IH).
  1,2: destruct (decode_frame ws d) as [r1 ws1] eqn:Hd; intros [= <- <- <-];
    apply decode_frame_keeps in Hd as (? & ? & Hp); split_and!; [done..|]; intros p [= ->] _; by apply Hp.
  intros [= <- <- <-]. split_and!; [done..|]. by intros p [= <-].
Qed.
Lemma ws_peers_outbound snd snd' rcv : outbound snd' = outbound snd → ws_aad snd' = ws_aad snd → ws_peers snd rcv → ws_peers snd' rcv.
Proof using. intros Ho Ha []. by split; rewrite ?Ho, ?Ha. Qed.

(** A frame that was sealed is decoded by the peer. *)
Lemma encoded_decodes snd rcv b payload frame snd' :
  ws_peers snd rcv → BoundAeadKey.sequence (outbound snd) ≤ u64_max → encode_frame snd b payload = (Ok frame, snd') →
  ∃ rcv', decode_frame rcv frame = (payload_of b payload, rcv') ∧ ws_peers snd' rcv' ∧ BoundAeadKey.sequence (outbound snd') ≤ u64_max.
Proof using AL.
  intros [Hk Hwf Hiv Hlen Haad Hc] Hmax. unfold encode_frame, BoundAeadKey.seal, next_nonce, AtomicNonceSequence.seq, AtomicNonceSequence.upd.
  set (c := BoundAeadKey.sequence (outbound snd)) in *. set (n := build_aead_nonce c (inbound_iv rcv)).
  destruct (decide (c = u64_max)) as [|Hne]; [done|]. cbn [mbind result_bind map_err]. rewrite Hk, Hiv, Haad. fold n.
  destruct (AeadKey.seal_in_place _ _ _ _) as [ct|] eqn:Hct; [|done]. intros [= <- <-].
  pose proof (AeadKey.seal_length _ _ _ _ _ Hct) as Hctl. simpl in Hctl. unfold TAG_LEN in Hctl.
  assert (length n = 12%nat) as Hn by (by apply length_build_aead_nonce).
  eexists. split_and!.
  - unfold decode_frame. rewrite decide_False by (rewrite length_app; unfold MIN_FRAME; lia).
    rewrite take_app_le, take_ge by lia. unfold aead_nonce_from_slice. rewrite decide_True by done.
    assert (extract_counter_from_nonce n (inbound_iv rcv) = c) as -> by (apply extract_build; [done|unfold is_u64; lia]).
    rewrite decide_False by lia. cbn [inbound ws_aad]. rewrite drop_app_le, drop_ge, app_nil_l by lia.
    unfold BoundAeadKey.open. apply AeadKey.open_seal_iff in Hct. rewrite Hct. reflexivity.
  - split; simpl; try done. lia.
  - cbn. lia.
Qed.
Lemma sent_decodes snd rcv p frame snd' :
  spoken p → ws_peers snd rcv → BoundAeadKey.sequence (outbound snd) ≤ u64_max → send_payload snd p = (Ok frame, snd') →
  ∃ rcv', decode_frame rcv frame = (Ok p, rcv') ∧ ws_peers snd' rcv' ∧ BoundAeadKey.sequence (outbound snd') ≤ u64_max.
Proof using AL.
  intros Hp Hpeers Hseq. destruct p as [t|b|]; [..|done]; cbn [send_payload]; unfold send_text, send_binary; intros Hs.
  all: destruct (encoded_decodes snd rcv _ _ _ _ Hpeers Hseq Hs) as (rcv' & Hd & Hpeers' & Hseq'); exists rcv'; split_and!; [|done..]; rewrite Hd.
  - cbn in Hp. unfold payload_of, decode_payload. rewrite decide_True by done. by rewrite Hp.
  - reflexivity.
Qed.

Lemma decode_all_app ws fs gs :
  decode_all ws (fs ++ gs) = let '(rs, ws) := decode_all ws fs in let '(rs', ws) := decode_all ws gs in (rs ++ rs', ws).
Proof using.
  revert ws. induction fs as [|f fs IH]; intros ws; cbn [app decode_all]; [by destruct (decode_all ws gs)|].
  destruct (decode_frame ws f) as [r ws1]. rewrite IH. destruct (decode_all ws1 fs) as [rs ws2]. by destruct (decode_all ws2 gs).
Qed.

End frames.

(** ** The invariant *)

Lemma said_app l k : said (l ++ k) = said l ++ said k.
Proof. apply omap_app. Qed.
Lemma told_app c l k : told c (l ++ k) = told c l ++ told c k.
Proof. apply omap_app. Qed.
Lemma frames_app c l k : frames c (l ++ k) = frames c l ++ frames c k.
Proof. apply omap_app. Qed.
Lemma skipped_app c l k : skipped c (l ++ k) = (skipped c l + skipped c k)%nat.
Proof. unfold skipped. rewrite omap_app. apply sum_list_with_app. Qed.

Lemma sublist_full {A} (l k : list A) : l `sublist_of` k → (length k ≤ length l)%nat → l = k.
Proof.
  induction 1 as [|x l k _ IH|x l k Hs _]; intros Hl; cbn in Hl; [done|rewrite IH by lia; done|]. apply sublist_length in Hs. lia.
Qed.

(** Observations that a member's account does not change with. *)
Definition silent (c : nat) (obs : list RoomObs) : Prop :=
  said obs = [] ∧ told c obs = [] ∧ frames c obs = [] ∧ skipped c obs = 0%nat.
Lemma silent_one c o :
  match o with Joined _ _ | Left _ => True | Said _ _ => False | Skipped c' _ | Told c' _ _ => c' ≠ c end → silent c [o].
Proof. destruct o; intros Ho; repeat split; unfold told, frames, skipped; cbn; try done; by rewrite decide_False by done. Qed.

Lemma since_app c log obs : Forall (λ o, ∀ ws, o ≠ Joined c ws) obs → since c (log ++ obs) = since c log ++ obs.
Proof.
  intros Hobs. unfold since. rewrite foldl_app. generalize (foldl (since_step c) [] log) as acc.
  induction Hobs as [|o obs Ho _ IH]; intros acc; cbn [foldl]; [by rewrite app_nil_r|].
  assert (since_step c acc o = acc ++ [o]) as ->.
  { destruct o as [c' ws| | | |]; cbn [since_step]; [|done..]. case_decide; [|done]. subst c'. by destruct (Ho ws). }
  by rewrite IH, <-app_assoc.
Qed.
Lemma since_joined c log ws : since c (log ++ [Joined c ws]) = [Joined c ws].
Proof. unfold since. rewrite foldl_app. cbn [foldl since_step]. by rewrite decide_True. Qed.

Section invariant.
Context {AP : AeadPrim} {AL : AeadLaws AP} {Ch Rx : Type} {B : Broadcast Ch Rx} {capacity : nat} {BL : BroadcastLaws B capacity}.
Implicit Types (tx : Ch) (m : Member Rx) (room : Room Ch Rx).

Record member_inv (c : nat) (s : list RoomObs) (ws0 : AttestWsSession) tx m : Prop := mk_member_inv {
  mi_live : bc_live tx (mb_rx m);
  mi_order : told c s ++ waiting tx (mb_rx m) `sublist_of` said s;
  mi_count : length (said s) = (length (told c s) + skipped c s + length (waiting tx (mb_rx m)))%nat;
  mi_spoken : Forall spoken (waiting tx (mb_rx m));
  mi_frames : ∀ rcv, ws_peers ws0 rcv → BoundAeadKey.sequence (outbound ws0) ≤ u64_max →
    ∃ rcv', decode_all rcv (frames c s) = (Ok <$> told c s, rcv') ∧ ws_peers (mb_ws m) rcv' ∧ BoundAeadKey.sequence (outbound (mb_ws m)) ≤ u64_max;
}.
Definition account (log : list RoomObs) tx (c : nat) m : Prop :=
  ∃ ws0, head (since c log) = Some (Joined c ws0) ∧ member_inv c (since c log) ws0 tx m.
Definition room_inv (log : list RoomObs) room : Prop := map_Forall (account log (rm_tx room)) (rm_members room).

Lemma member_inv_silent c s ws0 tx m obs : silent c obs → member_inv c s ws0 tx m → member_inv c (s ++ obs) ws0 tx m.
Proof using.
  intros (Hs & Ht & Hf & Hk) [Hl Ho Hc Hsp Hfr].
  split; [done|..]; rewrite ?said_app, ?told_app, ?frames_app, ?skipped_app, ?Hs, ?Ht, ?Hf, ?Hk, ?app_nil_r, ?Nat.add_0_r; done.
Qed.
Lemma member_inv_ws c s ws0 tx m ws disabled :
  outbound ws = outbound (mb_ws m) → ws_aad ws = ws_aad (mb_ws m) →
  member_inv c s ws0 tx m → member_inv c s ws0 tx (mk_member ws (mb_rx m) disabled).
Proof using.
  intros Ho Ha [Hl Hor Hc Hsp Hfr]. split; [done..|]. intros rcv Hp Hseq. destruct (Hfr rcv Hp Hseq) as (rcv' & Hd & Hp' & Hs').
  exists rcv'. cbn [mb_ws]. rewrite Ho. split_and!; [done| |done]. by eapply ws_peers_outbound.
Qed.

(** A broadcast, for every member. *)
Lemma member_inv_said c c0 s ws0 tx m p :
  spoken p → member_inv c s ws0 tx m → member_inv c (s ++ [Said c0 p]) ws0 (bc_send tx p) m.
Proof using.
  intros Hp [Hl Ho Hc Hsp Hfr]. pose proof (send_waiting tx (mb_rx m) p Hl) as Hw.
  assert (said (s ++ [Said c0 p]) = said s ++ [p]) as Hs by apply said_app.
  assert (told c (s ++ [Said c0 p]) = told c s) as Ht by (rewrite told_app; apply app_nil_r).
  assert (skipped c (s ++ [Said c0 p]) = skipped c s) as Hk by (rewrite skipped_app; apply Nat.add_0_r).
  assert (frames c (s ++ [Said c0 p]) = frames c s) as Hf by (rewrite frames_app; apply app_nil_r).
  split; rewrite ?Hs, ?Ht, ?Hk, ?Hf, ?Hw; [by apply send_live| | | |done].
  - rewrite app_assoc. by apply sublist_app.
  - rewrite !length_app, Hc. cbn [length]. lia.
  - apply Forall_app. split; [done|by constructor].
Qed.

(** A delivery, for the member that is told. *)
Lemma member_inv_told c s ws0 tx m p rx frame ws :
  bc_recv tx (mb_rx m) = (RecvValue p, rx) → send_payload (mb_ws m) p = (Ok frame, ws) → member_inv c s ws0 tx m →
  member_inv c (s ++ [Told c p frame]) ws0 tx (mk_member ws rx false).
Proof using AL.
  intros Hr Hs [Hl Ho Hc Hsp Hfr]. pose proof (recv_live tx (mb_rx m) Hl) as Hl'. pose proof (recv_value tx (mb_rx m) p Hl) as Hw.
  rewrite Hr in Hl', Hw. specialize (Hw eq_refl). cbn [snd] in Hl', Hw. rewrite Hw in Ho, Hc, Hsp. apply Forall_cons in Hsp as [Hp Hsp].
  assert (told c (s ++ [Told c p frame]) = told c s ++ [p]) as Ht by (rewrite told_app; unfold told at 2; cbn; by rewrite decide_True).
  assert (frames c (s ++ [Told c p frame]) = frames c s ++ [frame]) as Hf by (rewrite frames_app; unfold frames at 2; cbn; by rewrite decide_True).
  assert (said (s ++ [Told c p frame]) = said s) as Hsd by (rewrite said_app; apply app_nil_r).
  assert (skipped c (s ++ [Told c p frame]) = skipped c s) as Hk by (rewrite skipped_app; apply Nat.add_0_r).
  split; rewrite ?Hsd, ?Ht, ?Hf, ?Hk; cbn [mb_rx]; [done| | |done|].
  - by rewrite <-app_assoc.
  - rewrite Hc, length_app. cbn [length]. lia.
  - intros rcv Hpeers Hseq. destruct (Hfr rcv Hpeers Hseq) as (rcv1 & Hd & Hp1 & Hs1).
    destruct (sent_decodes _ _ _ _ _ Hp Hp1 Hs1 Hs) as (rcv2 & Hd2 & Hp2 & Hs2). exists rcv2. split_and!; [|done..].
    rewrite decode_all_app, Hd. cbn [decode_all]. rewrite Hd2. by rewrite fmap_app.
Qed.

(** A gap, for the member that lagged. *)
Lemma member_inv_skipped c s ws0 tx m n rx :
  bc_recv tx (mb_rx m) = (RecvLagged n, rx) → member_inv c s ws0 tx m →
  member_inv c (s ++ [Skipped c n]) ws0 tx (mk_member (mb_ws m) rx true).
Proof using.
  intros Hr [Hl Ho Hc Hsp Hfr]. pose proof (recv_live tx (mb_rx m) Hl) as Hl'. pose proof (recv_lagged tx (mb_rx m) n Hl) as Hw.
  rewrite Hr in Hl', Hw. destruct (Hw eq_refl) as (_ & Hn & Hd). cbn [snd] in Hl', Hd. clear Hw.
  assert (told c (s ++ [Skipped c n]) = told c s) as Ht by (rewrite told_app; apply app_nil_r).
  assert (frames c (s ++ [Skipped c n]) = frames c s) as Hf by (rewrite frames_app; apply app_nil_r).
  assert (said (s ++ [Skipped c n]) = said s) as Hsd by (rewrite said_app; apply app_nil_r).
  assert (skipped c (s ++ [Skipped c n]) = (skipped c s + n)%nat) as Hk by (rewrite skipped_app; unfold skipped at 2; cbn; rewrite decide_True by done; cbn; lia).
  split; rewrite ?Hsd, ?Ht, ?Hf, ?Hk; cbn [mb_rx mb_ws]; rewrite ?Hd; [done| | | |done].
  - etrans; [|exact Ho]. apply sublist_app; [done|]. apply sublist_drop.
  - rewrite Hc, length_drop. lia.
  - by apply Forall_drop.
Qed.

(** Members that an event does not concern. *)
Lemma account_silent log tx c m obs :
  Forall (λ o, ∀ ws, o ≠ Joined c ws) obs → silent c obs → account log tx c m → account (log ++ obs) tx c m.
Proof using.
  intros Hj Hs (ws0 & Hh & Hm). exists ws0. rewrite since_app by done. split; [by destruct (since c log)|]. by apply member_inv_silent.
Qed.
Lemma account_step log tx tx' c m m' o :
  (∀ ws, o ≠ Joined c ws) → (∀ s ws0, member_inv c s ws0 tx m → member_inv c (s ++ [o]) ws0 tx' m') →
  account log tx c m → account (log ++ [o]) tx' c m'.
Proof using.
  intros Hj Hs (ws0 & Hh & Hm). exists ws0. rewrite since_app by (by repeat constructor). split; [by destruct (since c log)|]. by apply Hs.
Qed.

Lemma room_inv_update log room c m o :
  match o with Joined c' _ | Left c' | Skipped c' _ | Told c' _ _ => c' = c | Said _ _ => False end →
  account (log ++ [o]) (rm_tx room) c m → room_inv log room → room_inv (log ++ [o]) (update room c m).
Proof using.
  intros Ho Hm Hinv c' m'. cbn [update rm_members rm_tx]. intros [[<- <-]|[Hne Hc']]%lookup_insert_Some; [done|].
  apply account_silent; [|apply silent_one; by destruct o; subst|by apply Hinv].
  constructor; [|done]. intros ws ->. cbn in Ho. congruence.
Qed.
Lemma room_inv_leave log room c obs room' : leave room c = (obs, room') → room_inv log room → room_inv (log ++ obs) room'.
Proof using.
  intros [= <- <-] Hinv c' m'. cbn [rm_members rm_tx]. intros [Hne Hc']%lookup_delete_Some.
  apply account_silent; [by repeat constructor|by apply silent_one|by apply Hinv].
Qed.

(** ** Steps *)

Lemma room_inv_join log room c ws :
  room_inv log room → room_inv (log ++ [Joined c ws]) (update room c (mk_member ws (bc_subscribe (rm_tx room)) false)).
Proof using.
  intros Hinv. apply room_inv_update; [done| |done]. exists ws. rewrite since_joined. split; [done|].
  split; cbn [mb_rx mb_ws]; rewrite ?subscribe_waiting; [apply subscribe_live|done|done|constructor|]. intros rcv Hp Hs. by exists rcv.
Qed.

Lemma room_inv_message log room c m ms obs room' :
  room_inv log room → rm_members room !! c = Some m → on_message room c m ms = (obs, room') → room_inv (log ++ obs) room'.
Proof using.
  intros Hinv Hc. unfold on_message. destruct (recv (mb_ws m) ms) as [[msg ws] rest] eqn:Hr. apply recv_keeps in Hr as (Ho & Ha & Hsp).
  destruct msg as [[p|e]|]; [|intros H; by eapply room_inv_leave..].
  destruct (decide (p = Close)) as [->|Hnc]; [intros H; by eapply room_inv_leave|]. specialize (Hsp p eq_refl Hnc).
  intros Heq. assert (obs = [Said c p] ∧ room' = mk_room (bc_send (rm_tx room) p) (<[c := mk_member ws (mb_rx m) false]> (rm_members room)))
    as [-> ->] by (destruct p; by simplify_eq).
  clear Heq. intros c' m'. cbn [rm_members rm_tx]. intros [[<- <-]|[Hne Hc']]%lookup_insert_Some.
  - eapply account_step; [done| |by apply Hinv]. intros s ws0 Hi. by apply member_inv_said, member_inv_ws.
  - eapply account_step; [done| |by apply Hinv]. intros s ws0 Hi. by apply member_inv_said.
Qed.

Lemma room_inv_broadcast log room c m sent obs room' :
  room_inv log room → rm_members room !! c = Some m → on_broadcast room c m sent = (obs, room') → room_inv (log ++ obs) room'.
Proof using AL.
  intros Hinv Hc. pose proof (Hinv c m Hc) as Hacc. unfold on_broadcast. destruct (mb_disabled m); [intros [= <- <-]; by rewrite app_nil_r|].
  destruct (bc_recv (rm_tx room) (mb_rx m)) as [[p|n| |] rx] eqn:Hr.
  - destruct (send_payload (mb_ws m) p) as [[frame|e] ws] eqn:Hs; [destruct sent|]; [|intros H; by eapply room_inv_leave..].
    intros [= <- <-]. apply room_inv_update; [done| |done]. eapply account_step; [done| |exact Hacc]. intros s ws0. by apply member_inv_told.
  - intros [= <- <-]. apply room_inv_update; [done| |done]. eapply account_step; [done| |exact Hacc]. intros s ws0. by apply member_inv_skipped.
  - destruct Hacc as (ws0 & _ & [Hl]). destruct (recv_open (rm_tx room) (mb_rx m) Hl). by rewrite Hr.
  - intros [= <- <-]. by rewrite app_nil_r.
Qed.

Lemma room_inv_run log room es log' room' : room_inv log room → room_run log room es = (log', room') → room_inv log' room'.
Proof using AL.
  revert log room. induction es as [|e es IH]; intros log room Hinv; cbn [room_run]; [by intros [= <- <-]|].
  destruct (room_step room e) as [obs room1] eqn:He. apply IH. clear IH.
  destruct e as [c ws|c ms|c sent]; cbn [room_step] in He; destruct (rm_members room !! c) as [m|] eqn:Hc; try (injection He as <- <-; by rewrite app_nil_r).
  - injection He as <- <-. by apply room_inv_join.
  - by eapply room_inv_message.
  - by eapply room_inv_broadcast.
Qed.

(** A member that is not disabled and not too far behind is told what it waits for. *)
Definition payload_len (p : WsPayload) : Z := match p with Text b | Binary b => Z.of_nat (length b) | Close => 0 end.
Lemma deliver_tells room c m p rest rcv :
  rm_members room !! c = Some m → mb_disabled m = false → bc_live (rm_tx room) (mb_rx m) → waiting (rm_tx room) (mb_rx m) = p :: rest →
  (length (waiting (rm_tx room) (mb_rx m)) ≤ capacity)%nat → spoken p → payload_len p < 2 ^ 36 - 32 →
  ws_peers (mb_ws m) rcv → BoundAeadKey.sequence (outbound (mb_ws m)) < u64_max →
  ∃ frame room', room_step room (Deliver c true) = ([Told c p frame], room').
Proof using AL.
  intros Hc Hd Hl Hw Hcap Hsp Hlen Hp Hseq. cbn [room_step]. rewrite Hc. unfold on_broadcast. rewrite Hd.
  pose proof (recv_value (rm_tx room) (mb_rx m)) as Hv. pose proof (recv_lagged (rm_tx room) (mb_rx m)) as Hlag.
  pose proof (recv_open (rm_tx room) (mb_rx m) Hl) as Ho. pose proof (recv_pending (rm_tx room) (mb_rx m) Hl) as Hpe.
  destruct (bc_recv (rm_tx room) (mb_rx m)) as [[q|n| |] rx] eqn:Hr; cbn [fst snd] in *.
  - specialize (Hv q Hl eq_refl). rewrite Hw in Hv. injection Hv as <- _.
    assert (∃ frame ws, send_payload (mb_ws m) p = (Ok frame, ws)) as (frame & ws & ->); [|eauto].
    destruct p as [t|b|]; [..|done]; cbn [send_payload payload_len] in *; unfold send_text, send_binary.
    + destruct (send_recv (mb_ws m) rcv MSG_TEXT t Hp Hseq Hlen) as (frame & ws & _ & -> & _). eauto.
    + destruct (send_recv (mb_ws m) rcv MSG_BINARY b Hp Hseq Hlen) as (frame & ws & _ & -> & _). eauto.
  - destruct (Hlag n Hl eq_refl) as [Hbehind _]. lia.
  - by destruct Ho.
  - specialize (Hpe eq_refl). congruence.
Qed.

End invariant.

(** [C37] What a member of the chat reads, under any interleaving of the tasks.  The frames
    sent to it decode, at the peer of its session, to payloads that, followed by those still
    waiting in its receiver, were all said since it joined, by anyone, in that order and
    without repetition.  The only ones missing are those that the channel dropped because
    the member was too far behind; the code ignores the channel's report of them and tells
    nobody, so that only a member for which nothing was dropped reads everything.  And
    reading goes on: the task that is waiting for its channel, not more than the capacity
    behind, sends the next payload when the channel yields it. *)
Theorem chat_delivers {AP : AeadPrim} {AL : AeadLaws AP} {Ch Rx : Type} {B : Broadcast Ch Rx} {capacity : nat} {BL : BroadcastLaws B capacity}
    (tx : Ch) (es : list RoomEvent) (log : list RoomObs) (room : Room Ch Rx) (c : nat) (m : Member Rx) :
  room_run [] (mk_room tx ∅) es = (log, room) → rm_members room !! c = Some m →
  ∃ ws, joined_as c log = Some ws ∧
    ∀ peer, ws_peers ws peer → BoundAeadKey.sequence (outbound ws) ≤ u64_max →
    let pending := waiting (rm_tx room) (mb_rx m) in
    ∃ received, (decode_all peer (frames c (since c log))).1 = Ok <$> received ∧
      received ++ pending `sublist_of` said (since c log) ∧
      length (said (since c log)) = (length received + skipped c (since c log) + length pending)%nat ∧
      (skipped c (since c log) = 0%nat → received ++ pending = said (since c log)) ∧
      (∀ p, head pending = Some p → mb_disabled m = false → (length pending ≤ capacity)%nat → payload_len p < 2 ^ 36 - 32 →
         BoundAeadKey.sequence (outbound (mb_ws m)) < u64_max →
         ∃ frame room', room_step room (Deliver c true) = ([Told c p frame], room')).
Proof.
  intros Hrun Hm. apply (room_inv_run [] (mk_room tx ∅)) in Hrun; [|apply map_Forall_empty].
  destruct (Hrun c m Hm) as (ws & Hh & [Hl Ho Hc Hsp Hf]). exists ws. unfold joined_as. rewrite Hh. split; [done|].
  intros peer Hp Hs. destruct (Hf peer Hp Hs) as (peer' & Hd & Hp' & _). exists (told c (since c log)). rewrite Hd.
  split; [done|]. split; [done|]. split; [done|]. split.
  - intros Hk. apply sublist_full; [exact Ho|]. rewrite length_app. lia.
  - intros p Hhd Hdis Hcap Hlen Hseq. destruct (waiting _ _) as [|q rest] eqn:Hw; [done|]. injection Hhd as ->.
    apply Forall_cons in Hsp as [Hspk _]. eapply deliver_tells; try done. by rewrite Hw.
Qed.

(** A channel that reports no more than it must skips nothing for a member that is within
    the capacity. *)
Theorem chat_lossless {AP : AeadPrim} {Ch Rx : Type} {B : Broadcast Ch Rx} {capacity : nat} {BL : BroadcastLaws B capacity}
    (room : Room Ch Rx) (e : RoomEvent) (c n : nat) :
  map_Forall (λ _ m, bc_live (rm_tx room) (mb_rx m) ∧ (length (waiting (rm_tx room) (mb_rx m)) ≤ capacity)%nat) (rm_members room) →
  Skipped c n ∉ (room_step room e).1.
Proof.
  intros Hall. destruct e as [c' ws|c' ms|c' sent]; cbn [room_step]; destruct (rm_members room !! c') as [m|] eqn:Hm; try set_solver.
  - unfold on_message. destruct (recv (mb_ws m) ms) as [[[[[t|b|]|e]|] ws] rest]; cbn [fst leave]; set_solver.
  - destruct (Hall c' m Hm) as [Hl Hcap]. pose proof (recv_lagged (rm_tx room) (mb_rx m)) as Hlag. unfold on_broadcast.
    destruct (mb_disabled m); [set_solver|]. destruct (bc_recv _ _) as [[p|k| |] rx]; cbn [fst] in *; try set_solver.
    + destruct (send_payload _ _) as [[]]; [destruct sent|]; cbn [fst leave]; set_solver.
    + destruct (Hlag k Hl eq_refl). lia.
Qed.

Lemma step_keeps {AP : AeadPrim} {Ch Rx : Type} {B : Broadcast Ch Rx} (room room' : Room Ch Rx) (e : RoomEvent) (c : nat) (m : Member Rx) obs :
  rm_members room !! c = Some m → mb_disabled m = true → (∀ ms, e ≠ Receive c ms) → room_step room e = (obs, room') →
  told c obs = [] ∧ rm_members room' !! c = Some m.
Proof.
  intros Hm Hd He. assert (∀ c' p f, c' ≠ c → told c [Told c' p f] = []) as Ht by (intros; unfold told; cbn; by rewrite decide_False).
  destruct e as [c' ws|c' ms|c' sent]; cbn [room_step]; (destruct (decide (c' = c)) as [->|Hne]; [rewrite Hm|destruct (rm_members room !! c') as [m'|]]).
  all: try (by destruct (He ms)); try (intros [= <- <-]; by cbn; rewrite ?lookup_insert_ne by done).
  - unfold on_message, leave. destruct (recv _ _) as [[[[[]|]|] ?] ?]; intros [= <- <-]; cbn; rewrite ?lookup_delete_ne, ?lookup_insert_ne by done; done.
  - unfold on_broadcast. rewrite Hd. by intros [= <- <-].
  - unfold on_broadcast, leave. destruct (mb_disabled m'); [by intros [= <- <-]|].
    destruct (bc_recv _ _) as [[p|k| |] rx]; [destruct (send_payload _ _) as [[] ?]; [destruct sent|]|..]; intros [= <- <-];
      (split; [by auto|]); cbn [update rm_members]; rewrite ?lookup_delete_ne, ?lookup_insert_ne by done; done.
Qed.

(** After a gap a member hears nothing more, whatever the others say, until something
    arrives on its own socket. *)
Theorem lagged_deaf {AP : AeadPrim} {Ch Rx : Type} {B : Broadcast Ch Rx} (log : list RoomObs) (room : Room Ch Rx) (es : list RoomEvent) (c : nat) (m : Member Rx) :
  rm_members room !! c = Some m → mb_disabled m = true → Forall (λ e, ∀ ms, e ≠ Receive c ms) es →
  told c (room_run log room es).1 = told c log ∧ rm_members (room_run log room es).2 !! c = Some m.
Proof.
  intros Hm Hd Hes. revert log room Hm. induction Hes as [|e es He _ IH]; intros log room Hm; cbn [room_run]; [done|].
  destruct (room_step room e) as [obs room1] eqn:Hstep.
  assert (told c obs = [] ∧ rm_members room1 !! c = Some m) as [Ht Hm1].
  { eapply step_keeps; eauto. }
  destruct (IH (log ++ obs) room1 Hm1) as [Ht' Hm']. by rewrite Ht', told_app, Ht, app_nil_r.
Qed.

(** ** A run *)

(** A channel that keeps everything and reports what is beyond the capacity as missed. *)
Module ToyRoom.
#[export] Instance channel : Broadcast (list WsPayload) nat := {|
  bc_subscribe log := length log;
  bc_send log p := log ++ [p];
  bc_recv log rx :=
    let behind := (length log - rx)%nat in
    if decide (128 < behind)%nat then (RecvLagged (behind - 128), (rx + (behind - 128))%nat)
    else match log !! rx with Some p => (RecvValue p, S rx) | None => (RecvPending, rx) end;
|}.
#[export] Instance channel_laws : BroadcastLaws channel 128.
Proof.
  refine {| waiting log rx := drop rx log; bc_live log rx := (rx ≤ length log)%nat |}.
  - intros ch. cbn. lia.
  - intros ch. apply drop_all.
  - intros ch rx p Hl. cbn. rewrite length_app. lia.
  - intros ch rx p Hl. cbn. by rewrite drop_app_le.
  - intros ch rx Hl. cbn. case_decide; cbn; [lia|]. destruct (ch !! rx) eqn:Hr; cbn; [apply lookup_lt_Some in Hr|]; lia.
  - intros ch rx p Hl. cbn. case_decide; [done|]. destruct (ch !! rx) eqn:Hr; [|done]. intros [= <-]. by apply drop_S.
  - intros ch rx n Hl. cbn. case_decide; [|by destruct (ch !! rx)]. cbn. intros [= <-]. rewrite length_drop, drop_drop. split; [lia|]. split; [lia|done].
  - intros ch rx Hl. cbn. case_decide; [done|]. by destruct (ch !! rx).
  - intros ch rx Hl. cbn. case_decide; [done|]. destruct (ch !! rx) eqn:Hr; [done|]. intros _. apply drop_ge. by apply lookup_ge_None.
Defined.

Definition bound (k : Z) : BoundAeadKey.t Z := BoundAeadKey.mk (AeadKey.mk (replicate 32 (u8_of k)) Aes256Gcm) (replicate 12 (u8_of k)) 1.
Definition server : AttestWsSession := mk_ws (bound 3) (bound 4) (replicate 12 (u8_of 4)) Aes256Gcm [] [] 0.
Definition client : AttestWsSession := mk_ws (bound 4) (bound 3) (replicate 12 (u8_of 3)) Aes256Gcm [] [] 0.
Definition hello : bytes := match encode_frame (AP := Toy.aead) client MSG_TEXT (as_bytes "hello") with (Ok f, _) => f | _ => [] end.
Definition events : list RoomEvent := [Join 1 server; Receive 1 [MPing; MBinary hello]; Join 2 server; Deliver 1 true].
Definition run : list RoomObs * Room (list WsPayload) nat := room_run (AP := Toy.aead) [] (mk_room [] ∅) events.
Definition member : Member nat := default (mk_member server 0%nat true) (rm_members run.2 !! 1%nat).
End ToyRoom.

Lemma chat_delivers_witness :
  ∃ received, (decode_all (AP := Toy.aead) ToyRoom.client (frames 1 (since 1 ToyRoom.run.1))).1 = Ok <$> received ∧ received = [Text (as_bytes "hello")].
Proof.
  destruct (chat_delivers (AP := Toy.aead) (AL := Toy.aead_laws) (BL := ToyRoom.channel_laws) [] ToyRoom.events
    ToyRoom.run.1 ToyRoom.run.2 1 ToyRoom.member) as (ws & Hws & H); [vm_compute; reflexivity..|].
  assert (ws = ToyRoom.server) as -> by (vm_compute in Hws; injection Hws as <-; vm_compute; reflexivity).
  destruct (H ToyRoom.client) as (received & Hd & _ & _ & Hq & _); [split; first [reflexivity|by_compute]|by_compute|].
  exists received. split; [exact Hd|]. specialize (Hq eq_refl).
  assert (waiting (BroadcastLaws := ToyRoom.channel_laws) (rm_tx ToyRoom.run.2) (mb_rx ToyRoom.member) = []) as Hm by (vm_compute; reflexivity).
  assert (said (since 1 ToyRoom.run.1) = [Text (as_bytes "hello")]) as Hsaid by by_compute. rewrite Hm, app_nil_r, Hsaid in Hq. exact Hq.
Defined.
