(* ===== verification/Wasm.v ===== *)
(** * The browser client

    [bindings/wasm/src]: a second implementation of the client for browsers, with its own
    key schedule ([crypto.rs]) and one state for the pending handshake and one for the
    session ([lib.rs]).  JavaScript calls the functions one by one and carries their results
    to the server and back.

    The primitives are those of other crates than the server's (x25519-dalek, ml-kem,
    aes-gcm, hkdf); AES-GCM, HMAC and HKDF compute the functions of [Crypto], and
    [BrowserKex] states what is used of the other two.  A function that returns JSON text
    returns the record that the text has. *)

From S2P Require Import Prelude ReplayWindow Nonce Crypto Aead Proto State KeySchedule Attestation Session KeyExchange Handshake.
From S2P Require Import Http Ahl Trailers Registry Stream Middleware Client Extractors Exchange Handlers HandshakeWire Ws.
From stdpp Require Import options.

#[local] Open Scope Z_scope.

(** ** The key schedule of the browser *)

Class BrowserKex : Type := {
  (** [StaticSecret::diffie_hellman] *)
  diffie_hellman : (*private*) bytes → (*peer*) bytes → bytes;
  (** [Decapsulate::decapsulate] on a ciphertext of the right length *)
  decapsulate : (*decap key*) bytes → (*ciphertext*) bytes → bytes;
}.
(** Where the server's libraries have a result, it is this one. *)
Class BrowserKexLaws (B : BrowserKex) (P : KexPrim) : Prop := {
  diffie_hellman_agrees a p s : x25519_agree a p = Some s → diffie_hellman a p = s;
  decapsulate_agrees d ct s : mlkem_decap d ct = Some s → decapsulate d ct = s;
}.

Record BrowserKeys : Type := mk_browser_keys {
  bk_master_secret : bytes;
  bk_client_write_key : bytes;
  bk_server_write_key : bytes;
  bk_client_write_iv : bytes;
  bk_server_write_iv : bytes;
  bk_client_mac_key : bytes;
  bk_server_mac_key : bytes;
}.

Section crypto.
Context {KP : KexPrim} {HP : HkdfPrim}.

(** The length prefix panics on a field that does not fit it. *)
Definition browser_lengthed (data : bytes) : outcome bytes :=
  if decide (Z.of_nat (length data) < 65536) then Returns (to_be 2 (Z.of_nat (length data)) ++ data) else Panics.

Definition BROWSER_LABEL : bytes := as_bytes "openhttpa hybrid kem v1".

Definition browser_combine (ecdhe_ss mlkem_ss ecdhe_pk_client ecdhe_pk_server mlkem_ek_client mlkem_ct : bytes) : outcome bytes :=
  l ← browser_lengthed BROWSER_LABEL;
  pc ← browser_lengthed ecdhe_pk_client;
  ps ← browser_lengthed ecdhe_pk_server;
  ek ← browser_lengthed mlkem_ek_client;
  ct ← browser_lengthed mlkem_ct;
  expect (hkdf_sha256 (replicate 32 (u8_of 0)) (ecdhe_ss ++ mlkem_ss ++ l ++ pc ++ ps ++ ek ++ ct) (as_bytes "combined") 32).

Definition browser_info (label : string) (transcript_hash : bytes) : bytes :=
  as_bytes "openhttpa_v2" ++ as_bytes label ++ [u8_of 0] ++ transcript_hash.

Definition derive_session_keys (combined transcript_hash : bytes) : outcome BrowserKeys :=
  let prk := hkdf_extract (replicate 48 (u8_of 0)) combined in
  let expand label len := expect (hkdf_expand prk (browser_info label transcript_hash) len) in
  master_secret ← expand "master secret"%string 48%nat;
  client_write_key ← expand "client write key"%string 32%nat;
  server_write_key ← expand "server write key"%string 32%nat;
  client_write_iv ← expand "client write iv"%string 12%nat;
  server_write_iv ← expand "server write iv"%string 12%nat;
  client_mac_key ← expand "client mac key"%string 32%nat;
  server_mac_key ← expand "server mac key"%string 32%nat;
  Returns (mk_browser_keys master_secret client_write_key server_write_key client_write_iv server_write_iv client_mac_key server_mac_key).

End crypto.

(** ** State *)

Record ClientState : Type := mk_client_state {
  bc_random : bytes;
  bc_challenge : bytes;
  bc_ecdhe_secret : bytes;
  bc_ecdhe_public : bytes;
  bc_dk : bytes;
  bc_ek : bytes;
}.
Record BrowserSession : Type := mk_browser_session {
  bs_base_id : string;
  bs_keys : BrowserKeys;
  bs_counter : Z;
  bs_server_counter : Z;
  bs_ws_client_counter : Z;
  bs_ws_server_counter : Z;
}.
Record Browser : Type := mk_browser { br_client : option ClientState; br_session : option BrowserSession }.

Definition set_counter (s : BrowserSession) (c : Z) : BrowserSession :=
  mk_browser_session (bs_base_id s) (bs_keys s) c (bs_server_counter s) (bs_ws_client_counter s) (bs_ws_server_counter s).
Definition set_server_counter (s : BrowserSession) (c : Z) : BrowserSession :=
  mk_browser_session (bs_base_id s) (bs_keys s) (bs_counter s) c (bs_ws_client_counter s) (bs_ws_server_counter s).
Definition set_ws_counters (s : BrowserSession) (c r : Z) : BrowserSession :=
  mk_browser_session (bs_base_id s) (bs_keys s) (bs_counter s) (bs_server_counter s) c r.

(** The prologue of every function on the session. *)
Definition with_session {A} (base_id : string) (f : BrowserSession → outcome (result string A) * BrowserSession) (b : Browser)
    : outcome (result string A) * Browser :=
  match br_session b with
  | None => (Returns (Err "no active `OpenHTTPA` session"%string), b)
  | Some s =>
      if decide (bs_base_id s = base_id) then let '(r, s) := f s in (r, mk_browser (br_client b) (Some s))
      else (Returns (Err "base_id mismatch"%string), b)
  end.

Definition browser_aad (base_id : string) : bytes := AAD_PREFIX ++ as_bytes base_id.

(** ** The handshake *)

Record InitiateResult : Type := mk_initiate { ini_random : string; ini_challenge : string; ini_ecdhe_public : string; ini_mlkem_public : string }.
Record AttestResponse : Type := mk_attest_response {
  ar_base_id : string; ar_server_ecdhe_public : string; ar_mlkem_ciphertext : string; ar_server_random : string; ar_server_mlkem_ek : string;
  ar_transcript_hash : string; ar_quotes : list string; ar_expires_in : Z; ar_cipher_suite : string; ar_version : string;
}.
Record SessionProof : Type := mk_proof {
  sp_base_id : string; sp_combined_hex : string; sp_client_write_key_hex : string; sp_transcript_hash : string; sp_quotes : list string; sp_expires_in : Z;
}.

Section handshake.
Context {KP : KexPrim} {HP : HkdfPrim} {HaP : HashPrim} {XP : HexPrim} {BK : BrowserKex}.

(** The four draws of the random source. *)
Definition openhttpa_initiate_attest (random challenge ecdhe seed : option bytes) (b : Browser) : result string InitiateResult * Browser :=
  match (client_random ← ok_or random "getrandom"%string;
         client_challenge ← ok_or challenge "getrandom"%string;
         ecdhe_secret ← ok_or ecdhe "getrandom"%string;
         dk ← ok_or seed "getrandom"%string;
         Ok (mk_client_state client_random client_challenge ecdhe_secret (x25519_public ecdhe_secret) dk (mlkem_encap_key dk))) with
  | Err e => (Err e, b)
  | Ok st =>
      (Ok (mk_initiate (hex_encode (bc_random st)) (hex_encode (bc_challenge st)) (hex_encode (bc_ecdhe_public st)) (hex_encode (bc_ek st))),
       mk_browser (Some st) (br_session b))
  end.

Definition hex_field (s what : string) : result string bytes := ok_or (hex_decode s) ("invalid " +:+ what +:+ " hex")%string.
Definition hex_32 (s what : string) : result string bytes :=
  v ← hex_field s what; if decide (length v = 32%nat) then Ok v else Err (what +:+ " must be 32 bytes")%string.

(** The transcript as the browser sees it; the suite and the version are constants. *)
Definition browser_transcript (st : ClientState) (server_random server_ecdhe ct server_ek : bytes) : bytes :=
  u64_be (Z.of_nat (length (bc_random st))) ++ bc_random st ++
  u64_be (Z.of_nat (length (bc_challenge st))) ++ bc_challenge st ++
  u64_be (Z.of_nat (length (bc_ecdhe_public st))) ++ bc_ecdhe_public st ++
  u64_be (Z.of_nat (length (bc_ek st))) ++ bc_ek st ++
  u64_be (Z.of_nat (length server_random)) ++ server_random ++
  u64_be (Z.of_nat (length server_ecdhe)) ++ server_ecdhe ++
  u64_be (Z.of_nat (length ct)) ++ ct ++
  u64_be (Z.of_nat (length server_ek)) ++ server_ek ++
  u16_be 1 ++ [u8_of 2].

(** From the server's answer to the session, once the pending state is taken. *)
Definition derive_from (st : ClientState) (resp : AttestResponse) : outcome (result string (SessionProof * BrowserSession)) :=
  match (server_ecdhe ← hex_32 (ar_server_ecdhe_public resp) "server_ecdhe_public";
         ct ← hex_field (ar_mlkem_ciphertext resp) "mlkem_ciphertext";
         th ← hex_field (ar_transcript_hash resp) "transcript_hash";
         if decide (length ct = 1088%nat) then Ok (server_ecdhe, ct, th)
         else Err "mlkem_ciphertext has wrong length (expected 1088 bytes)"%string) with
  | Err e => Returns (Err e)
  | Ok (server_ecdhe, ct, th) =>
      combined ← browser_combine (diffie_hellman (bc_ecdhe_secret st) server_ecdhe) (decapsulate (bc_dk st) ct)
        (bc_ecdhe_public st) server_ecdhe (bc_ek st) ct;
      match (server_random ← hex_32 (ar_server_random resp) "server_random";
             server_ek ← hex_field (ar_server_mlkem_ek resp) "server_mlkem_ek";
             if decide (sha384 (browser_transcript st server_random server_ecdhe ct server_ek) = th) then Ok ()
             else Err "handshake transcript mismatch! potential MITM or server error."%string) with
      | Err e => Returns (Err e)
      | Ok _ =>
          keys ← derive_session_keys combined th;
          Returns (Ok (mk_proof (ar_base_id resp) (hex_encode (take 16 combined)) (hex_encode (take 8 (bk_client_write_key keys)))
                         (ar_transcript_hash resp) (ar_quotes resp) (ar_expires_in resp),
                       mk_browser_session (ar_base_id resp) keys 1 1 1 0))
      end
  end.

(** The pending state is used up also by a failure. *)
Definition openhttpa_derive_session (parse : string → result string AttestResponse) (server_json : string) (b : Browser)
    : outcome (result string SessionProof) * Browser :=
  match parse server_json with
  | Err e => (Returns (Err ("parse error: " +:+ e)%string), b)
  | Ok resp =>
      match br_client b with
      | None => (Returns (Err "no pending attest — call openhttpa_initiate_attest first"%string), b)
      | Some st =>
          let b := mk_browser None (br_session b) in
          match derive_from st resp with
          | Panics => (Panics, b)
          | Returns (Err e) => (Returns (Err e), b)
          | Returns (Ok (proof, s)) => (Returns (Ok proof), mk_browser None (Some s))
          end
      end
  end.

End handshake.

(** ** The session *)

(** [HeaderName::try_from]: the lower-case name, if it is a token. *)
Class HeaderNames : Type := header_name_of : string → option string.

Record SealedPayload : Type := mk_sealed_payload { sl_nonce : string; sl_counter : Z; sl_ciphertext : string; sl_ticket : string }.
Record SealedChunk : Type := mk_sealed_chunk { sc_counter : Z; sc_ciphertext : string; sc_next_hash : string }.
Record OpenedChunk : Type := mk_opened_chunk { oc_plaintext : string; oc_next_hash : string }.

Section ops.
Context {AP : AeadPrim} {HaP : HashPrim} {MP : HmacPrim} {XP : HexPrim} {BP : Base64Prim} {HN : HeaderNames}.
Context (utf8_lossy : bytes → string) (parse_headers : string → result string (list (string * string))).

(** The IV is copied into a 12-byte array before the counter is added. *)
Definition gcm_nonce (iv : bytes) (count : Z) : outcome bytes :=
  if decide (length iv = 12%nat) then Returns (build_aead_nonce count iv) else Panics.
Definition gcm_encrypt (key nonce aad msg : bytes) : result string bytes :=
  k ← map_err (λ _, "cipher init"%string) (AeadKey.new Aes256Gcm key);
  map_err (λ _, "encryption failed"%string) (AeadKey.seal_in_place k nonce aad msg).
Definition gcm_decrypt (key nonce aad msg : bytes) : result string bytes :=
  k ← map_err (λ _, "cipher init"%string) (AeadKey.new Aes256Gcm key);
  map_err (λ _, "decryption failed"%string) (AeadKey.open_in_place k nonce aad msg).
Definition text_of (plaintext : bytes) : result string string :=
  if utf8_valid plaintext then Ok (string_of_list_ascii plaintext) else Err "invalid utf8"%string.

(** *** Requests and responses *)

(** The counter moves before the encryption. *)
Definition seal_with_counter (aad msg : bytes) (s : BrowserSession) : outcome (result string (bytes * bytes * Z)) * BrowserSession :=
  let count := bs_counter s in
  if decide (count = u64_max) then (Returns (Err "nonce counter overflow"%string), s)
  else
    let s' := set_counter s (count + 1) in
    (nonce ← gcm_nonce (bk_client_write_iv (bs_keys s)) count;
     Returns (ct ← gcm_encrypt (bk_client_write_key (bs_keys s)) nonce aad msg; Ok (nonce, ct, count)), s').

Definition openhttpa_seal (base_id plaintext : string) : Browser → outcome (result string SealedPayload) * Browser :=
  with_session base_id (λ s,
    let '(r, s) := seal_with_counter (browser_aad base_id) (as_bytes plaintext) s in
    (r ← r; Returns ('(nonce, ct, count) ← r; Ok (mk_sealed_payload (hex_encode nonce) count (hex_encode ct) EmptyString)), s)).

(** The headers that have a valid name and value; a repeated name keeps the last value. *)
Definition browser_headers (hs : list (string * string)) : HeaderMap :=
  foldl (λ m h, match header_name_of h.1, value_from_str h.2 with Some n, Some v => hm_insert m n v | _, _ => m end) [] hs.
Definition host_authority (m : HeaderMap) : string := default EmptyString (v ← hm_get m "host"; to_str v).

Definition ticket_for (mac_key : bytes) (nonce : Z) (method path : string) (query : option string) (headers_json : string) : result string string :=
  hs ← map_err (λ e, "invalid headers JSON: " +:+ e)%string (parse_headers headers_json);
  let m := browser_headers hs in
  let authority := host_authority m in
  if decide (authority = EmptyString) then Err "AHL error: missing Host header — required for authority binding"%string
  else
    ahl ← map_err (λ _, "AHL error"%string) (canonicalize_ahl method path query authority m);
    Ok (b64_encode (u64_be nonce ++ [u8_of 0] ++ hmac_sha384 mac_key (u64_be nonce ++ ahl))).

Definition openhttpa_compute_ticket (base_id : string) (nonce : Z) (method path : string) (query : option string) (headers_json : string)
    : Browser → outcome (result string string) * Browser :=
  with_session base_id (λ s, (Returns (ticket_for (bk_client_mac_key (bs_keys s)) nonce method path query headers_json), s)).

Definition openhttpa_seal_with_ahl (base_id plaintext method path : string) (query : option string) (headers_json : string)
    : Browser → outcome (result string SealedPayload) * Browser :=
  with_session base_id (λ s,
    let mac_key := bk_client_mac_key (bs_keys s) in
    let '(r, s) := seal_with_counter (browser_aad base_id) (as_bytes plaintext) s in
    (r ← r; Returns ('(nonce, ct, count) ← r;
                     ticket ← ticket_for mac_key count method path query headers_json;
                     Ok (mk_sealed_payload (hex_encode nonce) count (hex_encode ct) ticket)), s)).

(** The counter moves only after a successful decryption. *)
Definition openhttpa_unseal (base_id ciphertext_hex : string) : Browser → outcome (result string string) * Browser :=
  with_session base_id (λ s,
    let count := bs_server_counter s in
    if decide (count = u64_max) then (Returns (Err "server nonce counter overflow"%string), s)
    else
      match gcm_nonce (bk_server_write_iv (bs_keys s)) count with
      | Panics => (Panics, s)
      | Returns nonce =>
          match (ct ← hex_field ciphertext_hex "ciphertext"; gcm_decrypt (bk_server_write_key (bs_keys s)) nonce (browser_aad base_id) ct) with
          | Err e => (Returns (Err e), s)
          | Ok plaintext => (Returns (text_of plaintext), set_server_counter s (count + 1))
          end
      end).

(** *** Chunks of a stream *)

(** No check against overflow: the counter wraps in a release build. *)
Definition openhttpa_seal_chunk (base_id plaintext prev_hash_hex : string) : Browser → outcome (result string SealedChunk) * Browser :=
  with_session base_id (λ s,
    match hex_field prev_hash_hex "hash" with
    | Err e => (Returns (Err e), s)
    | Ok prev_hash =>
        let count := bs_counter s in
        let s' := set_counter s (wrap64 (count + 1)) in
        (nonce ← gcm_nonce (bk_client_write_iv (bs_keys s)) count;
         Returns (ct ← gcm_encrypt (bk_client_write_key (bs_keys s)) nonce (browser_aad base_id ++ prev_hash) (as_bytes plaintext);
                  Ok (mk_sealed_chunk count (hex_encode ct) (hex_encode (sha384 (prev_hash ++ ct))))), s')
    end).

Definition openhttpa_unseal_chunk (base_id : string) (frame : bytes) (prev_hash_hex : string)
    : Browser → outcome (result string OpenedChunk) * Browser :=
  with_session base_id (λ s,
    if decide (length frame < 8)%nat then (Returns (Err "frame too short"%string), s)
    else
      let counter := from_be (take 8 frame) in
      let ct := drop 8 frame in
      match hex_field prev_hash_hex "hash" with
      | Err e => (Returns (Err e), s)
      | Ok prev_hash =>
          match gcm_nonce (bk_server_write_iv (bs_keys s)) counter with
          | Panics => (Panics, s)
          | Returns nonce =>
              match gcm_decrypt (bk_server_write_key (bs_keys s)) nonce (browser_aad base_id ++ prev_hash) ct with
              | Err e => (Returns (Err e), s)
              | Ok plaintext =>
                  (Returns (Ok (mk_opened_chunk (utf8_lossy plaintext) (hex_encode (sha384 (prev_hash ++ ct))))),
                   if decide (bs_server_counter s ≤ counter) then set_server_counter s (wrap64 (counter + 1)) else s)
              end
          end
      end).

(** *** WebSocket frames *)

Definition seal_ws_as (type_byte : byte) (base_id : string) (plaintext : bytes) : Browser → outcome (result string bytes) * Browser :=
  with_session base_id (λ s,
    let count := bs_ws_client_counter s in
    if decide (count = u64_max) then (Returns (Err "WS nonce counter overflow"%string), s)
    else
      let s' := set_ws_counters s (count + 1) (bs_ws_server_counter s) in
      (nonce ← gcm_nonce (bk_client_write_iv (bs_keys s)) count;
       Returns (ct ← gcm_encrypt (bk_client_write_key (bs_keys s)) nonce (browser_aad base_id) (type_byte :: plaintext); Ok (nonce ++ ct)), s')).
Definition openhttpa_seal_ws (base_id plaintext : string) := seal_ws_as MSG_TEXT base_id (as_bytes plaintext).
Definition openhttpa_seal_ws_binary (base_id : string) (plaintext : bytes) := seal_ws_as MSG_BINARY base_id plaintext.

Definition ws_text (plaintext : bytes) : result string string :=
  match plaintext with
  | [] => Err "empty plaintext"%string
  | b :: p =>
      if decide (b = MSG_TEXT) then text_of p
      else if decide (b = MSG_BINARY) then Ok (hex_encode p)
      else Err "unknown message type"%string
  end.

(** The counter moves before the decryption. *)
Definition openhttpa_unseal_ws (base_id : string) (frame : bytes) : Browser → outcome (result string string) * Browser :=
  with_session base_id (λ s,
    if decide (length frame < 12 + 16)%nat then (Returns (Err "frame too short"%string), s)
    else
      let nonce := take 12 frame in
      let received := extract_counter_from_nonce nonce (bk_server_write_iv (bs_keys s)) in
      if decide (received ≤ bs_ws_server_counter s) then (Returns (Err "WS replay detected"%string), s)
      else
        (Returns (plaintext ← gcm_decrypt (bk_server_write_key (bs_keys s)) nonce (browser_aad base_id) (drop 12 frame); ws_text plaintext),
         set_ws_counters s (bs_ws_client_counter s) received)).

Definition openhttpa_ws_reset (base_id : string) : Browser → outcome (result string ()) * Browser :=
  with_session base_id (λ s, (Returns (Ok ()), set_ws_counters s 1 0)).

End ops.

(** ** The two key schedules *)

Section agreement.
Context {KP : KexPrim} {HP : HkdfPrim} {HaP : HashPrim}.

(** The browser's combiner is the server's; only an error of the server's is a panic here. *)
Lemma browser_combine_eq e m pc ps ek ct :
  browser_combine e m pc ps ek ct =
  match HybridKemPair.combine e m pc ps ek ct with Returns (Ok s) => Returns s | _ => Panics end.
Proof using.
  unfold HybridKemPair.combine, browser_combine. change HybridKemPair.LABEL with BROWSER_LABEL. cbn [forallb].
  unfold HybridKemPair.combiner_ikm, HybridKemPair.encode_lengthed, HybridKemPair.lengthed_ok, len_prefixed, browser_lengthed.
  change HybridKemPair.LABEL with BROWSER_LABEL. unfold NUL.
  rewrite (decide_True (P := Z.of_nat (length BROWSER_LABEL) < 65536)) by by vm_compute.
  rewrite (bool_decide_true (Z.of_nat (length BROWSER_LABEL) < 65536)) by by vm_compute. cbn [mbind outcome_bind andb].
  rewrite !bool_decide_decide.
  destruct (decide (Z.of_nat (length pc) < 65536)); cbn [mbind outcome_bind andb]; [|done].
  destruct (decide (Z.of_nat (length ps) < 65536)); cbn [mbind outcome_bind andb]; [|done].
  destruct (decide (Z.of_nat (length ek) < 65536)); cbn [mbind outcome_bind andb]; [|done].
  destruct (decide (Z.of_nat (length ct) < 65536)); cbn [mbind outcome_bind andb]; [|done].
  unfold expect, ok_or. by destruct (hkdf_sha256 _ _ _ _).
Qed.

(** The browser keeps seven of the eight keys. *)
Definition browser_keys (k : SessionKeys) : BrowserKeys :=
  mk_browser_keys (master_secret k) (client_write_key k) (server_write_key k) (client_write_iv k) (server_write_iv k) (client_mac_key k)
    (server_mac_key k).

Lemma expand_Some prk info len okm : expand prk info len = Ok okm → hkdf_expand prk info len = Some okm.
Proof using. unfold expand. case_decide; [done|]. by intros ?%ok_or_Ok. Qed.

Lemma derive_session_keys_eq combined th k : derive combined th = Returns (Ok k) → derive_session_keys combined th = Returns (browser_keys k).
Proof using.
  unfold derive, derive_session_keys. change (replicate 48 NUL) with (replicate 48 (u8_of 0)).
  assert (extract_sha384 (replicate 48 (u8_of 0)) combined = Ok (hkdf_extract (replicate 48 (u8_of 0)) combined)) as -> by reflexivity.
  generalize (hkdf_extract (replicate 48 (u8_of 0)) combined). intros prk. cbn [mbind result_bind].
  destruct (expand_slots _ _ _) as [k'|] eqn:Hk; [|done]. case_decide; [|done]. intros [= ->]. unfold expand_slots in Hk. inv_ok.
  repeat match goal with H : expand _ _ _ = Ok _ |- _ => apply expand_Some in H; unfold make_info, PREFIX, NUL in H end.
  unfold expect, browser_info. cbn [app].
  repeat match goal with H : hkdf_expand _ _ _ = Some _ |- _ => rewrite H; cbn [mbind outcome_bind]; clear H end.
  by simplify_eq.
Qed.

Lemma browser_transcript_eq st sr se ct sm :
  browser_transcript st sr se ct sm =
  transcript (bc_random st) (bc_challenge st) (mk_share (bc_ecdhe_public st) (bc_ek st)) X25519MlKem768Aes256GcmSha384 V2 sr se ct sm.
Proof using. unfold browser_transcript, transcript, client_part, field, len_prefixed, u64_be. cbn [ecdhe_public mlkem_public]. by rewrite <-!app_assoc. Qed.

End agreement.

(** The answer that a server sends for a completed handshake. *)
Definition attest_answer {XP : HexPrim} (base_id : string) (share : ServerKeyShare) (res : AtHsResult) (quotes : list string) (expires : Z)
    : AttestResponse :=
  mk_attest_response base_id (hex_encode (s_ecdhe_public share)) (hex_encode (s_mlkem_ciphertext share)) (hex_encode (server_random res))
    (hex_encode (s_mlkem_public share)) (hex_encode (hs_transcript_hash res)) quotes expires
    (to_string X25519MlKem768Aes256GcmSha384) (to_string V2).

(** The browser agrees with the server: after its first call, and for every handshake
    that the server completes on what that call published with the suite and version that
    the browser assumes, its second call returns and leaves a session with the keys of the
    server's and fresh counters, whatever quotes come with the answer. *)
Theorem browser_agrees {DF : DebugFmt} {HaP : HashPrim} {HP : HkdfPrim} {KP : KexPrim} {KL : KexLaws KP} {BK : BrowserKex} {BL : BrowserKexLaws BK KP}
    {XP : HexPrim} {XL : HexLaws XP} (parse : string → result string AttestResponse)
    (x : AtHsExecutor) (env : ServerEnv) (tee : option TeeProvider) (v : option QuoteVerifier) (identity : option Signer)
    (random challenge ecdhe seed : bytes) (b b1 : Browser) (ini : InitiateResult) (suites : list CipherSuite) (versions : list ProtocolVersion)
    (cq : list AttestQuote) (ttl expires : Z) (share : ServerKeyShare) (res : AtHsResult) (base_id json : string) (quotes : list string) :
  openhttpa_initiate_attest (Some random) (Some challenge) (Some ecdhe) (Some seed) b = (Ok ini, b1) →
  execute_server x env (Handshake.mk_request suites versions random challenge (mk_share (x25519_public ecdhe) (mlkem_encap_key seed)) cq ttl)
    tee v identity = Returns (Ok (X25519MlKem768Aes256GcmSha384, V2, share, res)) →
  length (server_random res) = 32%nat → parse json = Ok (attest_answer base_id share res quotes expires) →
  (hex_decode (ini_random ini) = Some random ∧ hex_decode (ini_challenge ini) = Some challenge ∧
   hex_decode (ini_ecdhe_public ini) = Some (x25519_public ecdhe) ∧ hex_decode (ini_mlkem_public ini) = Some (mlkem_encap_key seed)) ∧
  ∃ proof, openhttpa_derive_session parse json b1 =
    (Returns (Ok proof), mk_browser None (Some (mk_browser_session base_id (browser_keys (session_keys res)) 1 1 1 0))).
Proof.
  intros Hini Hex Hsr Hparse. cbn in Hini. injection Hini as <- <-. split; [cbn; by rewrite !hex_decode_encode|].
  unfold openhttpa_derive_session. rewrite Hparse. cbn [br_client].
  apply execute_server_Ok in Hex as (kem & ss & _ & _ & Hcomb & Hshare & _ & Hth & _ & Hd & _). cbn [client_share] in Hcomb.
  change (mk_share (x25519_public ecdhe) (mlkem_encap_key seed)) with (HybridKemPair.public_key_share (HybridKemPair.mk ecdhe seed)) in Hcomb.
  assert (length (s_mlkem_ciphertext share) = 1088%nat) as Hct.
  { unfold HybridKemPair.server_combine in Hcomb. destruct (x25519_agree _ _); [|done]. destruct (mlkem_encap _ _) as [[s ct]|] eqn:He; [|done].
    destruct (HybridKemPair.combine _ _ _ _ _ _) as [[|]|]; [|done..]. cbn in Hcomb. injection Hcomb as _ <-. by apply mlkem_encap_length in He as (_ & _ & ->). }
  apply (HybridKemPair.agreement _ _ _ _ _ []) in Hcomb. unfold HybridKemPair.client_combine in Hcomb. cbn [HybridKemPair.ecdhe HybridKemPair.mlkem] in Hcomb.
  unfold HybridKemPair.public_key_share in Hshare. injection Hshare as Hse Hsm. cbn [ecdhe_public] in Hcomb.
  destruct (x25519_agree ecdhe _) as [es|] eqn:Hes; [|done]. destruct (mlkem_decap seed _) as [ms|] eqn:Hms; [|done].
  unfold derive_from, attest_answer. cbn [ar_server_ecdhe_public ar_mlkem_ciphertext ar_transcript_hash ar_server_random ar_server_mlkem_ek ar_base_id].
  unfold hex_32, hex_field. rewrite !hex_decode_encode. cbn [ok_or mbind result_bind].
  rewrite decide_True by (rewrite <-Hse; apply x25519_public_length). cbn [mbind result_bind]. rewrite (decide_True (P := length (s_mlkem_ciphertext share) = _)) by done.
  cbn [bc_ecdhe_secret bc_dk bc_ecdhe_public bc_ek]. rewrite <-Hse in *.
  rewrite (diffie_hellman_agrees _ _ _ Hes), (decapsulate_agrees _ _ _ Hms), browser_combine_eq, Hcomb. cbn [mbind outcome_bind].
  rewrite (decide_True (P := length (server_random res) = _)) by done. cbn [mbind result_bind].
  rewrite browser_transcript_eq. cbn [bc_random bc_challenge bc_ecdhe_public bc_ek].
  rewrite decide_True by (rewrite Hth; unfold compute_transcript_hash; cbn; by rewrite Hse, Hsm).
  rewrite (derive_session_keys_eq _ _ _ Hd). by eexists.
Qed.

(** ** Requests and responses with the server *)

(** The browser and the server's session are about to use the same counters of the same
    session. *)
Record browser_synced {UP : UuidPrim} (s : BrowserSession) (ss : SessionInner) : Prop := mk_browser_synced {
  bsync_id : bs_base_id s = uuid_to_string (Session.id ss);
  bsync_keys : bs_keys s = browser_keys (Session.keys ss);
  bsync_client : bs_counter s = client_counter ss;
  bsync_server : bs_server_counter s = server_counter ss;
  bsync_session : synced ss ss;
}.

Section exchange.
Context {AP : AeadPrim} {AL : AeadLaws AP} {HaP : HashPrim} {MP : HmacPrim} {UP : UuidPrim} {UL : UuidLaws UP} {XP : HexPrim} {XL : HexLaws XP}.
Context {BP : Base64Prim} {BL : Base64Laws BP} {HN : HeaderNames} {J : CiphertextJson} {JL : CiphertextJsonLaws J} {X : JsonExtractor} {JXL : JsonExtractorLaws J X}.
Context (parse_headers : string → result string (list (string * string))).

Lemma gcm_encrypt_ok key nonce aad msg ct :
  length key = 32%nat → AeadKey.seal_in_place (AeadKey.mk key Aes256Gcm) nonce aad msg = Ok ct → gcm_encrypt key nonce aad msg = Ok ct.
Proof using AL.
  intros Hk Hct. unfold gcm_encrypt. assert (AeadKey.new Aes256Gcm key = Ok (AeadKey.mk key Aes256Gcm)) as -> by by apply AeadKey.new_wf.
  cbn [map_err mbind result_bind]. by rewrite Hct.
Qed.
Lemma gcm_decrypt_ok key nonce aad msg ct :
  length key = 32%nat → AeadKey.seal_in_place (AeadKey.mk key Aes256Gcm) nonce aad msg = Ok ct → gcm_decrypt key nonce aad ct = Ok msg.
Proof using AL.
  intros Hk Hct. unfold gcm_decrypt. assert (AeadKey.new Aes256Gcm key = Ok (AeadKey.mk key Aes256Gcm)) as -> by by apply AeadKey.new_wf.
  cbn [map_err mbind result_bind]. apply AeadKey.open_seal_iff in Hct. by rewrite Hct.
Qed.
Lemma gcm_nonce_ok iv c : length iv = 12%nat → gcm_nonce iv c = Returns (build_aead_nonce c iv).
Proof using. intros Hiv. unfold gcm_nonce. by rewrite decide_True. Qed.

(** What the browser sends. *)
Lemma browser_sends cl s ss meth p q hj hs extra plaintext ahl ct :
  browser_synced s ss → client_counter ss < u64_max → parse_headers hj = Ok hs → browser_headers hs = request_headers (Session.id ss) extra →
  host_authority (browser_headers hs) ≠ EmptyString →
  canonicalize_ahl meth p q (host_authority (browser_headers hs)) (request_headers (Session.id ss) extra) = Ok ahl →
  AeadKey.seal_in_place (AeadKey.mk (client_write_key (Session.keys ss)) Aes256Gcm)
    (build_aead_nonce (client_counter ss) (client_write_iv (Session.keys ss))) (request_aad (Session.id ss)) (as_bytes plaintext) = Ok ct →
  openhttpa_seal_with_ahl parse_headers (uuid_to_string (Session.id ss)) plaintext meth p q hj (mk_browser cl (Some s)) =
    (Returns (Ok (mk_sealed_payload (hex_encode (build_aead_nonce (client_counter ss) (client_write_iv (Session.keys ss)))) (client_counter ss)
       (hex_encode ct) (b64_encode (ticket_payload (client_counter ss)
          (hmac_sha384 (client_mac_key (Session.keys ss)) (u64_be (client_counter ss) ++ ahl)) None)))),
     mk_browser cl (Some (set_counter s (client_counter ss + 1)))).
Proof using AL.
  intros [Hid Hk Hc _ Hs] Hmax Hj Hh Ha Hahl Hct. destruct (synced_keys_wf _ _ Hs) as (_ & _ & Hk32 & _ & Hiv & _).
  unfold openhttpa_seal_with_ahl, with_session. cbn [br_session br_client]. rewrite decide_True by done.
  unfold seal_with_counter. rewrite Hc, decide_False by lia. rewrite Hk. cbn [browser_keys bk_client_write_iv bk_client_write_key bk_client_mac_key].
  rewrite gcm_nonce_ok by done. cbn [mbind outcome_bind]. unfold browser_aad. fold (request_aad (Session.id ss)).
  rewrite (gcm_encrypt_ok _ _ _ _ _ Hk32 Hct). cbn [mbind result_bind].
  unfold ticket_for. rewrite Hj. cbn [map_err mbind result_bind]. rewrite decide_False by done. rewrite Hh in Hahl |- *. rewrite Hahl. done.
Qed.
End exchange.

(** A request that the browser seals for its headers is accepted by the server with
    exactly the browser's text, and the response that the server then seals is read by the
    browser; afterwards the two are in step again, so that this repeats. *)
Theorem browser_exchange {AP : AeadPrim} {AL : AeadLaws AP} {HaP : HashPrim} {MP : HmacPrim} {UP : UuidPrim} {UL : UuidLaws UP}
    {XP : HexPrim} {XL : HexLaws XP} {BP : Base64Prim} {BL : Base64Laws BP} {HN : HeaderNames}
    {J : CiphertextJson} {JL : CiphertextJsonLaws J} {X : JsonExtractor} {JXL : JsonExtractorLaws J X} {T : Type} {V : ValueJson T}
    (parse_headers : string → result string (list (string * string))) (now now' : Z) (r : AtbRegistry.t) (cl : option ClientState)
    (s : BrowserSession) (ss : SessionInner) (meth p : string) (q : option string) (hj : string) (hs : list (string * string))
    (extra : option HeaderMap) (plaintext : string) (value : T) (answer : bytes) :
  let i := Session.id ss in let a := host_authority (browser_headers hs) in
  browser_synced s ss → ready now ss → ready now' ss → client_counter ss < u64_max → server_counter ss < u64_max →
  AtbRegistry.sessions r !! i = Some ss →
  parse_headers hj = Ok hs → browser_headers hs = request_headers i extra → sendable meth p q a i extra (as_bytes plaintext) →
  value_to_vec value = Some answer → Z.of_nat (length answer) ≤ 2 ^ 36 - 32 →
  ∃ sealed s', openhttpa_seal_with_ahl parse_headers (uuid_to_string i) plaintext meth p q hj (mk_browser cl (Some s)) =
      (Returns (Ok sealed), mk_browser cl (Some s')) ∧
    ∀ req, delivers meth p q a
        (hm_insert (hm_insert (browser_headers hs) STR_ATTEST_TICKET (header_value (sl_ticket sealed))) STR_CONTENT_TYPE (as_bytes "application/json"))
        (ciphertext_to_json (sl_ciphertext sealed)) req →
      let ss' := committed ss (client_counter ss) in
      decrypt_request now r req = (Ok (as_bytes plaintext), AtbRegistry.update r i ss') ∧
      ∃ ct s'', seal now' (mk_ohs ss' (request_aad i)) value =
          (Ok (Extractors.mk_sealed (as_bytes (uuid_to_string i)) (ciphertext_to_json (hex_encode ct))), mk_ohs (answered ss') (request_aad i)) ∧
        openhttpa_unseal (uuid_to_string i) (hex_encode ct) (mk_browser cl (Some s')) = (Returns (text_of answer), mk_browser cl (Some s'')) ∧
        browser_synced s'' (answered ss').
Proof.
  intros i a Hsync Hr Hr' Hc Hsc Hreg Hj Hh (Ha & Hlim & Hlen) Hv Hpt.
  pose proof Hsync as [Hid Hk Hcc Hss Hs]. destruct (synced_keys_wf _ _ Hs) as (_ & _ & Hk32 & Hsk32 & Hiv & Hsiv & _).
  destruct (seal_message_ok _ (client_write_iv (Session.keys ss)) (client_counter ss) (request_aad i) _ Hk32 Hiv Hlen) as (ct & _ & Hct).
  pose proof (canonicalize_Ok meth p q a _ Hlim) as Hahl.
  eexists _, _. split; [by eapply browser_sends|]. intros req Hdel ss'. cbn [sl_ticket sl_ciphertext] in Hdel. split.
  - rewrite Hh in Hdel. eapply server_accepts; [exact Hs|done|done|by split_and!|done|exact Hahl|exact Hct|reflexivity|reflexivity|exact Hdel].
  - destruct (server_seals now' ss' value answer) as (rct & Hrct & Hseal); [exact (synced_keys_wf _ _ Hs)|exact Hr'|done|done|done|].
    exists rct, (set_server_counter (set_counter s (client_counter ss + 1)) (server_counter ss + 1)).
    assert (Session.id ss' = i) as Hi by done. rewrite Hi in Hseal, Hrct. split_and!.
    + exact Hseal.
    + unfold openhttpa_unseal, with_session. cbn [br_session br_client bs_base_id set_counter]. rewrite decide_True by done.
      change (bs_server_counter (set_counter s _)) with (bs_server_counter s). change (bs_keys (set_counter s _)) with (bs_keys s). rewrite Hss, decide_False by lia. rewrite Hk. cbn [browser_keys bk_server_write_iv bk_server_write_key].
      rewrite gcm_nonce_ok by done. unfold hex_field. rewrite hex_decode_encode. cbn [ok_or mbind result_bind].
      unfold browser_aad. fold (request_aad i). change (server_counter ss') with (server_counter ss) in Hrct. change (Session.keys ss') with (Session.keys ss) in Hrct.
      by rewrite (gcm_decrypt_ok _ _ _ _ _ Hsk32 Hrct).
    + split; cbn; [done..|]. by apply synced_answered, synced_committed.
Qed.

(** ** WebSocket frames with the server *)

(** The WebSocket half of the browser's session, as the server's type has it. *)
Definition as_ws (s : BrowserSession) : AttestWsSession :=
  mk_ws (BoundAeadKey.mk (AeadKey.mk (bk_client_write_key (bs_keys s)) Aes256Gcm) (bk_client_write_iv (bs_keys s)) (bs_ws_client_counter s))
    (BoundAeadKey.mk (AeadKey.mk (bk_server_write_key (bs_keys s)) Aes256Gcm) (bk_server_write_iv (bs_keys s)) 1)
    (bk_server_write_iv (bs_keys s)) Aes256Gcm [] (browser_aad (bs_base_id s)) (bs_ws_server_counter s).
Definition browser_keys_wf (s : BrowserSession) : Prop :=
  length (bk_client_write_key (bs_keys s)) = 32%nat ∧ length (bk_client_write_iv (bs_keys s)) = 12%nat ∧
  length (bk_server_write_key (bs_keys s)) = 32%nat ∧ length (bk_server_write_iv (bs_keys s)) = 12%nat.

Section ws_frames.
Context {AP : AeadPrim} {AL : AeadLaws AP} {XP : HexPrim}.

(** Sealing is the server's encoder on that half. *)
Lemma seal_ws_encodes cl s type_byte payload frame ws' :
  browser_keys_wf s → encode_frame (as_ws s) type_byte payload = (Ok frame, ws') →
  ∃ s', seal_ws_as type_byte (bs_base_id s) payload (mk_browser cl (Some s)) = (Returns (Ok frame), mk_browser cl (Some s')) ∧
    as_ws s' = ws' ∧ browser_keys_wf s' ∧ bs_base_id s' = bs_base_id s.
Proof using AL.
  intros Hwf He. pose proof Hwf as (Hk & Hiv & _). exists (set_ws_counters s (bs_ws_client_counter s + 1) (bs_ws_server_counter s)).
  unfold encode_frame, BoundAeadKey.seal, next_nonce, AtomicNonceSequence.seq, AtomicNonceSequence.upd in He.
  unfold as_ws in He. cbn [outbound BoundAeadKey.sequence BoundAeadKey.write_iv BoundAeadKey.key ws_aad] in He.
  unfold seal_ws_as, with_session. cbn [br_session br_client]. rewrite decide_True by done.
  destruct (decide (bs_ws_client_counter s = u64_max)); [by simplify_eq|]. cbn [mbind result_bind] in He.
  destruct (AeadKey.seal_in_place _ _ _ _) as [ct|e] eqn:Hct; [|by simplify_eq]. cbn [map_err mbind result_bind] in He.
  rewrite gcm_nonce_ok by done. cbn [mbind outcome_bind]. rewrite (gcm_encrypt_ok _ _ _ _ _ Hk Hct). injection He as <- <-. by split_and!.
Qed.

(** What the browser's result is, for a payload of the server's decoder. *)
Definition shown (p : WsPayload) : string := match p with Text t => string_of_list_ascii t | Binary d => hex_encode d | _ => EmptyString end.

Lemma ws_text_decoded plaintext p : decode_payload plaintext = Ok p → ws_text plaintext = Ok (shown p).
Proof using.
  unfold decode_payload, ws_text, text_of. destruct plaintext as [|b plaintext]; [done|].
  repeat case_decide; [by destruct (utf8_valid plaintext); intros [= <-]|by intros [= <-]|done].
Qed.

(** Unsealing is the server's decoder on that half, wherever that accepts. *)
Lemma unseal_ws_decodes cl s frame p ws' :
  browser_keys_wf s → decode_frame (as_ws s) frame = (Ok p, ws') →
  ∃ s', openhttpa_unseal_ws (bs_base_id s) frame (mk_browser cl (Some s)) = (Returns (Ok (shown p)), mk_browser cl (Some s')) ∧
    as_ws s' = ws' ∧ browser_keys_wf s' ∧ bs_base_id s' = bs_base_id s.
Proof using AL.
  intros (Hk & Hiv & Hsk & Hsiv) Hd. set (c := extract_counter_from_nonce (take 12 frame) (bk_server_write_iv (bs_keys s))).
  exists (set_ws_counters s (bs_ws_client_counter s) c). unfold decode_frame in Hd. case_decide as Hlen; [done|].
  unfold aead_nonce_from_slice in Hd. case_decide as H12; [|done]. cbn [inbound_iv as_ws last_inbound_counter] in Hd. fold c in Hd.
  case_decide as Hc; [done|]. injection Hd as Hp <-.
  unfold openhttpa_unseal_ws, with_session. cbn [br_session br_client]. rewrite decide_True by done.
  rewrite decide_False by (unfold MIN_FRAME in Hlen; lia). fold c. rewrite decide_False by done. split_and!; [|done|by split_and!|done].
  cbn [inbound as_ws ws_aad] in Hp. apply bind_Ok in Hp as (plaintext & Hopen & Hpay). apply map_err_Ok in Hopen. unfold BoundAeadKey.open in Hopen.
  cbn [BoundAeadKey.key] in Hopen. apply AeadKey.open_seal_iff in Hopen. rewrite (gcm_decrypt_ok _ _ _ _ _ Hsk Hopen). cbn [mbind result_bind].
  by rewrite (ws_text_decoded _ _ Hpay).
Qed.
End ws_frames.

(** Frames between the browser and the server's WebSocket session arrive in both
    directions: what one end seals the other opens to the same payload, and the two ends
    stay in step. *)
Theorem browser_frames {AP : AeadPrim} {AL : AeadLaws AP} {XP : HexPrim} (cl : option ClientState) (s : BrowserSession) (ws : AttestWsSession)
    (type_byte : byte) (payload : bytes) (p : WsPayload) :
  browser_keys_wf s → decode_payload (type_byte :: payload) = Ok p → Z.of_nat (length payload) < 2 ^ 36 - 32 →
  (ws_peers (as_ws s) ws → bs_ws_client_counter s < u64_max →
   ∃ frame s' ws', seal_ws_as type_byte (bs_base_id s) payload (mk_browser cl (Some s)) = (Returns (Ok frame), mk_browser cl (Some s')) ∧
     decode_frame ws frame = (Ok p, ws') ∧ ws_peers (as_ws s') ws' ∧ browser_keys_wf s') ∧
  (ws_peers ws (as_ws s) → BoundAeadKey.sequence (outbound ws) < u64_max →
   ∃ frame s' ws', encode_frame ws type_byte payload = (Ok frame, ws') ∧
     openhttpa_unseal_ws (bs_base_id s) frame (mk_browser cl (Some s)) = (Returns (Ok (shown p)), mk_browser cl (Some s')) ∧
     ws_peers ws' (as_ws s') ∧ browser_keys_wf s').
Proof.
  intros Hwf Hp Hlen. split; intros Hpeers Hc.
  - destruct (send_recv (as_ws s) ws type_byte payload Hpeers Hc Hlen) as (frame & w1 & ws' & Henc & Hdec & Hpeers' & _).
    destruct (seal_ws_encodes cl s _ _ _ _ Hwf Henc) as (s' & Hseal & <- & Hwf' & _). exists frame, s', ws'. split_and!; [done| |done|done].
    unfold payload_of in Hdec. by rewrite Hp in Hdec.
  - destruct (send_recv ws (as_ws s) type_byte payload Hpeers Hc Hlen) as (frame & ws' & w1 & Henc & Hdec & Hpeers' & _).
    unfold payload_of in Hdec. rewrite Hp in Hdec.
    destruct (unseal_ws_decodes cl s _ _ _ Hwf Hdec) as (s' & Hopen & <- & Hwf' & _). by exists frame, s', ws'.
Qed.

(** ** What the browser does not do *)

(** HTTP and WebSocket messages share the key and the IV but not the counter: with a new
    session the first request and the first frame are sealed under the same nonce. *)
Theorem browser_reuses_nonces {AP : AeadPrim} {XP : HexPrim} (b b1 b2 : Browser) (s : BrowserSession) (base_id p1 : string) (type_byte : byte) (p2 frame : bytes)
    (sealed : SealedPayload) :
  br_session b = Some s → bs_counter s = bs_ws_client_counter s →
  openhttpa_seal base_id p1 b = (Returns (Ok sealed), b1) → seal_ws_as type_byte base_id p2 b1 = (Returns (Ok frame), b2) →
  sl_nonce sealed = hex_encode (take 12 frame).
Proof.
  intros Hs Hc. unfold openhttpa_seal, seal_ws_as, with_session. rewrite Hs. case_decide; [|done].
  unfold seal_with_counter. case_decide; [done|]. unfold gcm_nonce. case_decide as Hiv; [|done]. cbn [mbind outcome_bind].
  destruct (gcm_encrypt _ _ _ _); [|done]. cbn [mbind result_bind]. intros [= <- <-]. cbn [br_session br_client bs_base_id set_counter].
  rewrite decide_True by done. cbn [bs_ws_client_counter bs_keys]. case_decide; [done|]. rewrite decide_True by done. cbn [mbind outcome_bind].
  destruct (gcm_encrypt _ _ _ _); [|done]. cbn [mbind result_bind]. intros [= <- _]. cbn [sl_nonce].
  rewrite take_app_le, take_ge by (rewrite length_build_aead_nonce by done; lia). change (bs_ws_client_counter (set_counter s _)) with (bs_ws_client_counter s).
  by rewrite Hc.
Qed.

(** [openhttpa_ws_reset] starts the frames of the same session again at the first nonce. *)
Theorem browser_reset_reuses {AP : AeadPrim} {XP : HexPrim} (b b1 b2 b3 : Browser) (s : BrowserSession) (base_id : string) (t1 t2 : byte) (p1 p2 f1 f2 : bytes) :
  br_session b = Some s → bs_ws_client_counter s = 1 →
  seal_ws_as t1 base_id p1 b = (Returns (Ok f1), b1) → openhttpa_ws_reset base_id b1 = (Returns (Ok ()), b2) →
  seal_ws_as t2 base_id p2 b2 = (Returns (Ok f2), b3) → take 12 f1 = take 12 f2.
Proof.
  intros Hs Hc. unfold openhttpa_ws_reset, seal_ws_as, with_session. rewrite Hs. case_decide; [|done]. case_decide; [done|].
  unfold gcm_nonce. case_decide as Hiv; [|done]. cbn [mbind outcome_bind]. destruct (gcm_encrypt _ _ _ _); [|done]. cbn [mbind result_bind]. intros [= <- <-].
  cbn [br_session br_client]. change (bs_base_id (set_ws_counters s _ _)) with (bs_base_id s). rewrite decide_True by done. intros [= <-].
  cbn [br_session br_client]. change (bs_base_id (set_ws_counters _ 1 0)) with (bs_base_id s). rewrite decide_True by done.
  cbn [set_ws_counters bs_ws_client_counter bs_keys]. case_decide; [done|]. rewrite decide_True by done. cbn [mbind outcome_bind].
  destruct (gcm_encrypt _ _ _ _); [|done]. cbn [mbind result_bind]. intros [= <- _]. rewrite Hc.
  by rewrite !take_app_le, !take_ge by (rewrite length_build_aead_nonce by done; lia).
Qed.

(** ** A run *)

Module ToyBrowser.
#[global] Instance kex : BrowserKex := {|
  diffie_hellman a p := default [] (x25519_agree (KexPrim := ToyKex.prim) a p);
  decapsulate d ct := default [] (mlkem_decap (KexPrim := ToyKex.prim) d ct) |}.
#[global] Instance kex_laws : BrowserKexLaws kex ToyKex.prim.
Proof. split; intros a p s H; cbn [diffie_hellman decapsulate kex]; by rewrite H. Qed.
#[global] Instance names : HeaderNames := λ s, Some (to_lowercase s).

Definition random : bytes := replicate 32 (u8_of 7).
Definition challenge : bytes := replicate 48 (u8_of 3).
Definition request : AtHsRequest :=
  Handshake.mk_request [X25519MlKem768Aes256GcmSha384] [V2] random challenge
    (mk_share (x25519_public (KexPrim := ToyKex.prim) (as_bytes "browser")) (mlkem_encap_key (KexPrim := ToyKex.prim) (as_bytes "seed"))) [] 3600.
Definition run : outcome (result HandshakeError (CipherSuite * ProtocolVersion * ServerKeyShare * AtHsResult)) :=
  execute_server (DF := Demo.debug) (HaP := Toy.hash) (HP := Toy.hkdf) (KP := ToyKex.prim) Demo.executor Demo.env request (Some Demo.generate_quotes) None None.
Definition accepted : option (ServerKeyShare * AtHsResult) :=
  match run with Returns (Ok (X25519MlKem768Aes256GcmSha384, V2, share, res)) => Some (share, res) | _ => None end.

Definition extra : HeaderMap := [("host"%string, [as_bytes "example.org"])].
Definition parse_headers (_ : string) : result string (list (string * string)) :=
  Ok [("Host"%string, "example.org"%string); ("Attest-Base-ID"%string, uuid_to_string (UuidPrim := ToyWeb.uuid) ToyExchange.sid)].
Definition hs : list (string * string) :=
  [("Host"%string, "example.org"%string); ("Attest-Base-ID"%string, uuid_to_string (UuidPrim := ToyWeb.uuid) ToyExchange.sid)].
Definition session : BrowserSession :=
  mk_browser_session (uuid_to_string (UuidPrim := ToyWeb.uuid) ToyExchange.sid) (browser_keys ToyExchange.keys) 1 1 1 0.
End ToyBrowser.

Lemma browser_frames_witness :
  ∃ frame s', seal_ws_as (AP := Toy.aead) MSG_TEXT "id" (as_bytes "hi") (mk_browser None (Some (mk_browser_session "id" (browser_keys ToyExchange.keys) 1 1 1 0))) =
    (Returns (Ok frame), mk_browser None (Some s')).
Proof.
  set (s := mk_browser_session "id" (browser_keys ToyExchange.keys) 1 1 1 0).
  set (ws := mk_ws (BoundAeadKey.mk (AeadKey.mk (server_write_key ToyExchange.keys) Aes256Gcm) (server_write_iv ToyExchange.keys) 1)
    (BoundAeadKey.mk (AeadKey.mk (client_write_key ToyExchange.keys) Aes256Gcm) (client_write_iv ToyExchange.keys) 1)
    (client_write_iv ToyExchange.keys) Aes256Gcm [] (browser_aad "id") 0).
  edestruct (browser_frames (AL := Toy.aead_laws) (XP := ToyWeb.hex) None s ws MSG_TEXT (as_bytes "hi") (Text (as_bytes "hi"))) as [H _];
    [split_and!; reflexivity|reflexivity|by_compute|].
  destruct H as (frame & s' & ws' & H & _); [split; first [reflexivity|by_compute]|by_compute|]. exists frame, s'. exact H.
Defined.
