(* ===== verification/Multiparty.v ===== *)
(** * The multi-party demo

    [demo/multiparty-webapp/backend/src/main.rs]: the server that the browser client talks
    to.  Its state is the registry, the table of submissions, the tools and the keys; every
    endpoint is a function on that state.  The start of the process chooses the provider of
    quotes and the challenge key from the environment.

    The handlers run one at a time: the lock of the submissions is held for a whole handler,
    and a session's handle is shared with the registry. *)

From S2P Require Import Prelude ReplayWindow Nonce Crypto Aead Proto State KeySchedule Attestation Tee Session Ticket KeyExchange Handshake.
From S2P Require Import Http Ahl Trailers Sfv Headers ServerGuards Registry Stream Middleware Client Extractors Exchange Handlers HandshakeWire Mcp Verifiers Zk Oracle Ws Wasm.
From stdpp Require Import options.

#[local] Open Scope Z_scope.
#[local] Set Warnings "-register-all".

Definition NOT_FOUND : Z := 404.
Definition METHOD_NOT_ALLOWED : Z := 405.

(** ** Start *)

(** The mock provider with a fixed type; [resolved] is the type without an override. *)
Definition mock_ops {HaP : HashPrim} {HP : HkdfPrim} {BJ : BundleJson} (b : Build) (qt : QuoteType) : TeeOps :=
  let generate rd := _ ← MockTeeProvider.simulate_failure b; Ok (to_quote (MockTeeProvider.evidence_of qt (sha384 rd)) rd) in
  mk_tee_ops qt generate (λ rd, q ← generate rd; Ok [q]) (MockTeeProvider.is_available b)
    MockTeeProvider.seal_data MockTeeProvider.unseal_data MockTeeProvider.derive_key.

Section start.
Context {HaP : HashPrim} {HP : HkdfPrim} {BJ : BundleJson} {XP : HexPrim}.

(** The provider of [DemoState::default]: what is detected, and two mocks with the types of
    hardware in place of a mock.  [hardware] is the provider of each kind. *)
Definition detected_ops (b : Build) (hardware : ProviderKind → TeeOps) (kind : ProviderKind) : TeeOps :=
  match kind with MockProvider => mock_ops b (MockTeeProvider.resolved b) | _ => hardware kind end.
Definition demo_provider (b : Build) (avail : ProviderKind → bool) (hardware : ProviderKind → TeeOps) : outcome CompositeTeeProvider.t :=
  found ← detect_best_provider b avail (mk_tee_config true None);
  match found with
  | Err _ => Panics
  | Ok kind =>
      let detected := detected_ops b hardware kind in
      if decide (op_quote_type detected = Mock) then
        _ ← MockTeeProvider.with_override b Tdx;
        _ ← MockTeeProvider.with_override b NvidiaGpu;
        Returns [mock_ops b Tdx; mock_ops b NvidiaGpu]
      else Returns [detected]
  end.

(** [env_var] is the value of the variable, [entropy] the draw of the random source. *)
Definition demo_challenge_key (env_var : option string) (entropy : option bytes) : outcome bytes :=
  match env_var with
  | Some hex_val =>
      match hex_decode hex_val with
      | None => Panics
      | Some bs => if decide (length bs = 32%nat) then Returns bs else Panics
      end
  | None => expect entropy
  end.

End start.

(** *** The tools *)

Definition tool_schema : Value :=
  VObject [("properties"%string, VObject [("party_id"%string, VObject [("type"%string, VString "string")]);
                                          ("value"%string, VObject [("type"%string, VString "integer")])]);
           ("required"%string, VArray [VString "party_id"; VString "value"]);
           ("type"%string, VString "object")].
Definition recorded (operation : string) : Value :=
  VObject [("operation"%string, VString operation); ("status"%string, VString "recorded")].
Definition SecureSum : McpTool () :=
  mk_tool "secure_sum" (Some "Perform a secure multiparty summation"%string) tool_schema (λ _ st, (Ok (recorded "sum"), st)).
Definition SecureAverage : McpTool () :=
  mk_tool "secure_average" (Some "Perform a secure multiparty average"%string) tool_schema (λ _ st, (Ok (recorded "average"), st)).
Definition SecureVariance : McpTool () :=
  mk_tool "secure_variance" (Some "Perform a secure multiparty variance"%string) tool_schema (λ _ st, (Ok (recorded "variance"), st)).
Definition demo_tools : McpServer.t (S := ()) :=
  foldl (λ tools tool, (McpServer.add_tool tools tool).2) McpServer.new [SecureSum; SecureAverage; SecureVariance].

(** *** The state *)

(** The registry is the one in [ds_aths]: the handlers share it. *)
Record DemoState : Type := mk_demo {
  ds_aths : AtHsHandlerState;
  ds_parties : gmap string Z;
  ds_mcp : McpServer.t (S := ());
  ds_preflight : PreflightHandlerState;
  ds_tee_type : QuoteType;
  ds_identity_public : bytes;
  ds_ticket_engine : TicketEngine.t;
}.
Definition ds_registry (st : DemoState) : AtbRegistry.t := registry (ds_aths st).
Definition set_ds_registry (st : DemoState) (r : AtbRegistry.t) : DemoState :=
  mk_demo (set_registry (ds_aths st) r)
    (ds_parties st) (ds_mcp st) (ds_preflight st) (ds_tee_type st) (ds_identity_public st) (ds_ticket_engine st).
Definition set_parties (st : DemoState) (m : gmap string Z) : DemoState :=
  mk_demo (ds_aths st) m (ds_mcp st) (ds_preflight st) (ds_tee_type st) (ds_identity_public st) (ds_ticket_engine st).
Definition set_ticket_engine (st : DemoState) (e : TicketEngine.t) : DemoState :=
  mk_demo (ds_aths st) (ds_parties st) (ds_mcp st) (ds_preflight st) (ds_tee_type st) (ds_identity_public st) e.

Section default_state.
Context {HaP : HashPrim} {HP : HkdfPrim} {BJ : BundleJson} {XP : HexPrim}.

(** [DemoState::default], then the tools that [main] registers.  [identity] is the generated
    key pair, [ticket_key] the drawn ticket key, [now] the time of the verifier. *)
Definition demo_state (b : Build) (avail : ProviderKind → bool) (hardware : ProviderKind → TeeOps) (now : Z)
    (env_var : option string) (entropy : option bytes) (identity : option (bytes * Signer)) (ticket_key : bytes) : outcome DemoState :=
  composite ← demo_provider b avail hardware;
  key ← expect identity;
  challenge ← demo_challenge_key env_var entropy;
  let ops := CompositeTeeProvider.ops composite in
  Returns (mk_demo
    (mk_handler (with_config [] [V2; V1] false true) AtbRegistry.new (λ rd, map_err to_string (op_generate_quotes ops rd))
       (Some (mock_verify (debug_build b) None now)) None 3600 (ChallengeKey.new challenge) (Some key.2) None)
    ∅ demo_tools
    (mk_preflight_state [X25519MlKem768Aes256GcmSha384] [V2] (ChallengeKey.new challenge) true)
    (op_quote_type ops) key.1 (TicketEngine.new (TicketKey.generate ticket_key))).

End default_state.

(** ** Sealed endpoints *)

(** [parties.values().sum()] on [i64]: a build with overflow checks panics. *)
Definition is_i64 (z : Z) : Prop := - 2 ^ 63 ≤ z < 2 ^ 63.
#[export] Instance is_i64_dec z : Decision (is_i64 z).
Proof. unfold is_i64. apply _. Defined.
Definition wrap_i64 (z : Z) : Z := (z + 2 ^ 63) `mod` 2 ^ 64 - 2 ^ 63.
Fixpoint sum_i64 (checks : bool) (acc : Z) (vs : list Z) : outcome Z :=
  match vs with
  | [] => Returns acc
  | v :: vs =>
      if decide (is_i64 (acc + v)) then sum_i64 checks (acc + v) vs
      else if checks then Panics else sum_i64 checks (wrap_i64 (acc + v)) vs
  end.

Record SubmitRequest : Type := mk_submit { party_id : string; submitted : Z }.
Record SubmitResponse : Type := mk_submitted { sr_ok : bool; sr_status : string; current_count : nat }.
Record EchoRequest : Type := mk_echo { message : string }.
Record OracleFetchRequest : Type := mk_fetch { fetch_url : string }.
Record ChatRequest : Type := mk_chat { chat_model : string; chat_messages : list Value; chat_stream : option bool }.

Definition number (z : Z) : Value := Number (pretty.pretty z).
Definition count (n : nat) : Value := number (Z.of_nat n).

Section endpoints.
Context {AP : AeadPrim} {HaP : HashPrim} {MP : HmacPrim} {UuP : UuidPrim} {XP : HexPrim} {BP : Base64Prim}.
Context {J : CiphertextJson} {X : JsonExtractor} {VV : ValueJson Value}.

(** Sealing in a session that was extracted before: its handle is read back from the
    registry and stored there. *)
Definition seal_in {T} {VT : ValueJson T} (answered : Z) (sess : OpenHttpaSession) (value : T) (st : DemoState) : result Z SealedResponse * DemoState :=
  let s := default (ohs_session sess) (AtbRegistry.sessions (ds_registry st) !! id (ohs_session sess)) in
  let '(res, sess) := seal answered (mk_ohs s (ohs_aad sess)) value in
  (res, set_ds_registry st (AtbRegistry.update (ds_registry st) (id (ohs_session sess)) (ohs_session sess))).

(** The extractors of an endpoint, first the session, then the body; [f] is the endpoint. *)
Definition with_request {Q A} {VQ : ValueJson Q} (received : Z) (st : DemoState) (req : Request) (refuse : Z → A)
    (f : OpenHttpaSession → Q → DemoState → A * DemoState) : A * DemoState :=
  let '(sess, r) := from_request_parts received (ds_registry st) req in
  match sess with
  | Err status => (refuse status, set_ds_registry st r)
  | Ok sess =>
      let '(q, r) := encrypted_json received r req in
      let st := set_ds_registry st r in
      match q with
      | Err status => (refuse status, st)
      | Ok q => f sess q st
      end
  end.

Definition submit {VQ : ValueJson SubmitRequest} {VR : ValueJson SubmitResponse} (received answered : Z) (st : DemoState) (req : Request)
    : result Z SealedResponse * DemoState :=
  with_request received st req Err (λ sess (q : SubmitRequest) st,
    let parties := <[party_id q := submitted q]> (ds_parties st) in
    seal_in answered sess (mk_submitted true "success" (size parties)) (set_parties st parties)).

Definition sum_answer (sum : Z) (n : nat) : Value :=
  VObject [("attestation_quote"%string, VString "dGVzdC1xdW90ZQ=="); ("party_count"%string, count n); ("sum"%string, number sum)].

(** [result]; the values are summed in the order of the table. *)
Definition get_result (checks : bool) (received answered : Z) (st : DemoState) (req : Request) : outcome (result Z SealedResponse * DemoState) :=
  let '(sess, r) := from_request_parts received (ds_registry st) req in
  let st := set_ds_registry st r in
  match sess with
  | Err status => Returns (Err status, st)
  | Ok sess =>
      sum ← sum_i64 checks 0 (map_to_list (ds_parties st)).*2;
      Returns (seal_in answered sess (sum_answer sum (size (ds_parties st))) st)
  end.

Definition health (st : DemoState) : Value :=
  VObject [("is_mock"%string, VBool (bool_decide (ds_tee_type st = Mock))); ("pqc_pub_key"%string, VString (hex_encode (ds_identity_public st)));
           ("status"%string, VString "ok"); ("tee"%string, VString (to_string (ds_tee_type st)))].
Definition demo_status (st : DemoState) : Value :=
  VObject [("is_mock"%string, VBool (bool_decide (ds_tee_type st = Mock))); ("party_count"%string, count (size (ds_parties st)));
           ("registry_size"%string, count (AtbRegistry.len (ds_registry st))); ("tee_type"%string, VString (to_string (ds_tee_type st)))].
Definition reset (st : DemoState) : Z * DemoState := (200, set_parties st ∅).

(** [get_ticket]: any request that names a session gets a ticket for it. *)
Definition get_ticket {SC : StateCodec} (received now now_sys : Z) (st : DemoState) (req : Request) : outcome (result Z SessionTicket * DemoState) :=
  let '(sess, r) := from_request_parts received (ds_registry st) req in
  let st := set_ds_registry st r in
  match sess with
  | Err status => Returns (Err status, st)
  | Ok sess =>
      let durable := AttestSession.export_durable now now_sys (ohs_session sess) in
      let '(ticket, e) := TicketEngine.seal_session (ds_ticket_engine st) durable 3600 in
      match ticket with
      | Ok ticket => Returns (Ok ticket, set_ticket_engine st e)
      | Err _ => Panics
      end
  end.

Definition echo {VQ : ValueJson EchoRequest} (received answered : Z) (st : DemoState) (req : Request) : result Z SealedResponse * DemoState :=
  with_request received st req Err (λ sess (q : EchoRequest) st,
    seal_in answered sess (VObject [("reply"%string, VString ("Echo: " +:+ message q));
      ("session_id"%string, VString (uuid_to_string (id (ohs_session sess))))]) st).

Definition oracle_fetch {UP : UrlParse} {D : DebugStr} {R} {VQ : ValueJson OracleFetchRequest} {VR : ValueJson OracleResponse}
    (env : OracleEnv R) (received fetched answered : Z) (st : DemoState) (req : Request) : result Z SealedResponse * DemoState :=
  with_request received st req Err (λ sess (q : OracleFetchRequest) st,
    let s := default (ohs_session sess) (AtbRegistry.sessions (ds_registry st) !! id (ohs_session sess)) in
    match AttestSession.peek_keys fetched s transcript_hash with
    | Err _ => (Err UNAUTHORIZED, st)
    | Ok h =>
        match fetch_and_prove env (fetch_url q) h true with
        | Ok oracle_res => seal_in answered sess oracle_res st
        | Err e => seal_in answered sess (VObject [("error"%string, VString ("Oracle fetch failed: " +:+ to_string e))]) st
        end
    end).

(** *** Chat *)

Definition last_content (ms : list Value) : string := default "..."%string (m ← last ms; as_str (index m "content")).
Definition reply_tokens (last_msg : string) : list string :=
  ["Confidential"; " reply"; " from"; " the"; " attested"; " TEE"; " gateway"; ": "; last_msg]%string.
Definition token_chunk (t : string) : Value :=
  VObject [("choices"%string, VArray [VObject [("delta"%string, VObject [("content"%string, VString t)])]])].
Definition completion (model last_msg : string) : Value :=
  VObject [("choices"%string, VArray [VObject [("finish_reason"%string, VString "stop"); ("index"%string, number 0);
              ("message"%string, VObject [("content"%string, VString ("Confidential reply to: " +:+ last_msg)); ("role"%string, VString "assistant")])]]);
           ("created"%string, number 1714615200); ("id"%string, VString "chatcmpl-demo"); ("model"%string, VString model);
           ("object"%string, VString "chat.completion")].

Inductive ChatReply : Type :=
| Whole (r : result Z SealedResponse)
| Frames (fs : list (option StreamFrame)).

(** The stream is sealed item by item as the body is polled, at the given times; a [Value]
    always serialises. *)
Definition chat_handle {VQ : ValueJson ChatRequest} (received answered : Z) (polled : list Z) (st : DemoState) (req : Request) : ChatReply * DemoState :=
  with_request received st req (Whole ∘ Err) (λ sess (q : ChatRequest) st,
    let last_msg := last_content (chat_messages q) in
    if default false (chat_stream q) then
      let s := default (ohs_session sess) (AtbRegistry.sessions (ds_registry st) !! id (ohs_session sess)) in
      let items := zip polled (omap (value_to_vec ∘ token_chunk) (reply_tokens last_msg)) in
      let '(fs, s) := seal_stream s (ohs_aad sess) (replicate 48 (u8_of 0)) items in
      (Frames fs, set_ds_registry st (AtbRegistry.update (ds_registry st) (id s) s))
    else let '(r, st) := seal_in answered sess (completion (chat_model q) last_msg) st in (Whole r, st)).

(** *** Agents *)

Definition mcp_answer {RJ : RpcJson} (tools : McpServer.t (S := ())) (rpc_req : bytes) : Value :=
  match (McpServer.handle_request tools rpc_req ()).1 with
  | Ok b => default (VObject [("error"%string, VString "Invalid JSON from MCP server")]) (value_from_slice b)
  | Err e => VObject [("error"%string, VString e)]
  end.
Definition mcp_handle {RJ : RpcJson} (received answered : Z) (st : DemoState) (req : Request) : outcome (result Z SealedResponse) * DemoState :=
  with_request received st req (Returns ∘ Err) (λ sess (rpc_req : Value) st,
    match value_to_vec rpc_req with
    | None => (Panics, st)
    | Some b => let '(r, st) := seal_in answered sess (mcp_answer (ds_mcp st) b) st in (Returns r, st)
    end).
Definition a2a_handle (received answered : Z) (st : DemoState) (req : Request) : result Z SealedResponse * DemoState :=
  with_request received st req Err (λ sess (_ : Value) st,
    seal_in answered sess (VObject [("response"%string, VString "Message received by agent"); ("status"%string, VString "delivered")]) st).

End endpoints.

(** ** The handshake for browsers *)

Record JsonHandshake : Type := mk_json_handshake {
  jh_client_random : string;
  jh_client_challenge : option string;
  jh_ecdhe_public : string;
  jh_mlkem_public : string;
  jh_cipher_suites : option (list string);
  jh_versions : option (list string);
}.
(** The answer: the fields that the browser reads, and the type of the quotes. *)
Record JsonHandshakeResponse : Type := mk_json_response { jr_answer : AttestResponse; jr_quote_type : string }.

Section aths_json.
Context {DF : DebugFmt} {HaP : HashPrim} {HP : HkdfPrim} {KP : KexPrim} {XP : HexPrim} {UP : UuidPrim} {BP : Base64Prim}.
Context (allow : option string).

Definition or_default {A} (parse : string → option A) (fallback : A) (names : option (list string)) : list A :=
  match (λ s, default fallback (parse s)) <$> default [] names with
  | [] => [fallback]
  | l => l
  end.

Definition json_bytes (s : string) (n : nat) (invalid wrong_length : string) : result (Z * string) bytes :=
  v ← ok_or (hex_decode s) (BAD_REQUEST, invalid);
  if decide (length v = n) then Ok v else Err (BAD_REQUEST, wrong_length).

(** The request as the executor gets it. *)
Definition json_request (q : JsonHandshake) (ttl : Z) : result (Z * string) AtHsRequest :=
  client_random ← json_bytes (jh_client_random q) 32 "invalid client_random" "client_random must be 32 bytes";
  client_challenge ←
    match jh_client_challenge q with
    | Some c => json_bytes c 48 "invalid client_challenge hex" "client_challenge must be 48 bytes"
    | None => Ok (replicate 48 (u8_of 0))
    end;
  ecdhe_public ← json_bytes (jh_ecdhe_public q) 32 "invalid ecdhe_public" "ecdhe_public must be 32 bytes";
  mlkem_public ← json_bytes (jh_mlkem_public q) 1184 "invalid mlkem_public" "mlkem_public must be 1184 bytes";
  Ok (Handshake.mk_request
    (or_default (suite_from_str allow) X25519MlKem768Aes256GcmSha384 (jh_cipher_suites q))
    (or_default from_str V2 (jh_versions q))
    client_random client_challenge (mk_share ecdhe_public mlkem_public) [] ttl).

Definition json_quotes (qs : list AttestQuote) : list string :=
  match qs with
  | [] => ["dGVzdC1xdW90ZQ=="%string]
  | _ => (b64_encode ∘ quote_raw) <$> qs
  end.
Definition json_answer (st : DemoState) (suite : CipherSuite) (version : ProtocolVersion) (share : ServerKeyShare) (res : AtHsResult) : JsonHandshakeResponse :=
  mk_json_response
    (mk_attest_response (uuid_to_string (atb_id res)) (hex_encode (s_ecdhe_public share)) (hex_encode (s_mlkem_ciphertext share))
       (hex_encode (server_random res)) (hex_encode (s_mlkem_public share)) (hex_encode (hs_transcript_hash res))
       (json_quotes (server_quotes res)) 3600 (to_string suite) (to_string version))
    (to_string (ds_tee_type st)).

(** [now] is the time at which the session is made. *)
Definition json_session (now : Z) (suite : CipherSuite) (version : ProtocolVersion) (res : AtHsResult) : SessionInner :=
  AttestSession.new (atb_id res) suite version (session_keys res) (now + 3600) default_strategy (client_attestation_result res).

Definition aths_json (env : ServerEnv) (now : Z) (st : DemoState) (q : JsonHandshake) : outcome (result (Z * string) JsonHandshakeResponse * DemoState) :=
  let aths := ds_aths st in
  match json_request q (atb_ttl aths) with
  | Err e => Returns (Err e, st)
  | Ok request =>
      executed ← execute_server (executor aths) env request (Some (tee_provider aths)) (verifier aths) (identity_key aths);
      match executed with
      | Err e => Returns (Err (INTERNAL_SERVER_ERROR, to_string e), st)
      | Ok (suite, version, share, res) =>
          let '(ins, r) := AtbRegistry.insert (ds_registry st) (json_session now suite version res) in
          match ins with
          | Err e => Returns (Err (SERVICE_UNAVAILABLE, e), set_ds_registry st r)
          | Ok _ => Returns (Ok (json_answer st suite version share res), set_ds_registry st r)
          end
      end
  end.

End aths_json.

(** ** WebSockets *)

Section ws_upgrade.
Context {AP : AeadPrim} {UP : UuidPrim}.

Definition ATB_PROTOCOL : string := "atb-id-".
(** The first protocol that the request offers with the prefix. *)
Definition offered_protocol (hs : HeaderMap) : option string :=
  v ← hm_get hs "sec-websocket-protocol";
  head (base.filter (λ p, starts_with ATB_PROTOCOL p = true)
    (trim ∘ string_of_list_ascii <$> split_on (u8_of 44) (as_bytes (default EmptyString (to_str v))))).

(** The query parameter wins over the protocol. *)
Definition selected_atb_id (param : option string) (hs : HeaderMap) : option string :=
  match param with
  | Some raw => Some (trim raw)
  | None => (λ p, string_of_list_ascii (drop 7 (as_bytes p))) <$> offered_protocol hs
  end.

(** The headers that are forwarded; the look at the registry evicts an expired session. *)
Definition upgrade_headers (now : Z) (r : AtbRegistry.t) (param : option string) (hs : HeaderMap) : HeaderMap * AtbRegistry.t :=
  match atb_id ← selected_atb_id param hs; hv ← value_from_str atb_id; Some (atb_id, hv) with
  | Some (atb_id, hv) =>
      (hm_insert hs STR_ATTEST_BASE_ID hv,
       match uuid_parse atb_id with Some i => (AtbRegistry.get now r i).2 | None => r end)
  | None => (hs, r)
  end.

(** [ws_upgrade_handler], with the protocol that is answered. *)
Definition ws_upgrade_handler (looked now : Z) (param : option string) (st : DemoState) (hs : HeaderMap)
    : result Z (AttestWsSession * option string) * DemoState :=
  let '(final_headers, r) := upgrade_headers looked (ds_registry st) param hs in
  let '(ws, r) := attested_ws_upgrade now r final_headers in
  (ws ← ws; Ok (ws, offered_protocol hs), set_ds_registry st r).

End ws_upgrade.

(** ** The start *)

Section start_facts.
Context {HaP : HashPrim} {HP : HkdfPrim} {BJ : BundleJson} {XP : HexPrim}.

(** The mock's two ways of generating a quote agree. *)
Lemma mock_ops_generates b qt rd :
  MockTeeProvider.generate_quote b (MockTeeProvider.mk (Some qt)) rd = Returns (op_generate_quote (mock_ops b qt) rd).
Proof using.
  unfold MockTeeProvider.generate_quote, MockTeeProvider.generate_evidence. cbn [op_generate_quote mock_ops].
  destruct (MockTeeProvider.simulate_failure b) as [[]|e]; done.
Qed.

(** A release build never starts: the provider that may be a mock is refused before any
    hardware is looked for. *)
Theorem demo_release_panics b avail hardware now env_var entropy identity ticket_key :
  debug_build b = false → demo_state b avail hardware now env_var entropy identity ticket_key = Panics.
Proof using.
  intros Hd. unfold demo_state, demo_provider, detect_best_provider. by rewrite Hd.
Qed.

Lemma demo_provider_type b avail hardware c :
  demo_provider b avail hardware = Returns c →
  op_quote_type (CompositeTeeProvider.ops c) ≠ Mock ∧
  (detect_best_provider b avail (mk_tee_config true None) = Returns (Ok MockProvider) → MockTeeProvider.resolved b = Mock →
   op_quote_type (CompositeTeeProvider.ops c) = Tdx).
Proof using.
  unfold demo_provider. destruct (detect_best_provider b avail _) as [[kind|e]|]; [|done..]. cbn [mbind outcome_bind]. case_decide as Hm.
  - destruct (MockTeeProvider.with_override b Tdx); [|done]. destruct (MockTeeProvider.with_override b NvidiaGpu); [|done]. by intros [= <-].
  - intros [= <-]. split; [done|]. intros [= ->] Hr. cbn in Hm. done.
Qed.

(** The mock is never shown as one: its type is that of its first stand-in. *)
Theorem demo_hides_mock b avail hardware now env_var entropy identity ticket_key st :
  demo_state b avail hardware now env_var entropy identity ticket_key = Returns st →
  ds_tee_type st ≠ Mock ∧ index (health st) "is_mock" = VBool false ∧
  (detect_best_provider b avail (mk_tee_config true None) = Returns (Ok MockProvider) → MockTeeProvider.resolved b = Mock → ds_tee_type st = Tdx).
Proof using.
  unfold demo_state. destruct (demo_provider b avail hardware) as [c|] eqn:Hc; [|done]. apply demo_provider_type in Hc as [Hne Htdx].
  destruct identity as [key|]; [|done]. destruct (demo_challenge_key env_var entropy) as [ch|]; [|done]. intros [= <-].
  split_and!; [done| |done]. unfold health. cbn [ds_tee_type]. by rewrite bool_decide_false.
Qed.

End start_facts.

(** ** The sum *)

Definition total (vs : list Z) : Z := foldr Z.add 0 vs.
Definition magnitude (vs : list Z) : Z := foldr (λ v acc, Z.abs v + acc) 0 vs.

Lemma wrap_i64_small z : is_i64 z → wrap_i64 z = z.
Proof. unfold is_i64, wrap_i64. intros H. rewrite Z.mod_small; lia. Qed.
Lemma wrap_i64_range z : is_i64 (wrap_i64 z).
Proof. unfold is_i64, wrap_i64. pose proof (Z.mod_pos_bound (z + 2 ^ 63) (2 ^ 64)). lia. Qed.
Lemma wrap_i64_add a b : wrap_i64 (wrap_i64 a + b) = wrap_i64 (a + b).
Proof.
  unfold wrap_i64. replace ((a + 2 ^ 63) `mod` 2 ^ 64 - 2 ^ 63 + b + 2 ^ 63) with ((a + 2 ^ 63) `mod` 2 ^ 64 + b) by lia.
  rewrite Zplus_mod_idemp_l. f_equal. f_equal. lia.
Qed.
Lemma wrapping_sum acc vs : is_i64 acc → sum_i64 false acc vs = Returns (wrap_i64 (acc + total vs)).
Proof.
  revert acc. induction vs as [|v vs IH]; intros acc Hacc; cbn [sum_i64 total foldr].
  - by rewrite Z.add_0_r, wrap_i64_small.
  - fold (total vs). case_decide as Hv.
    + rewrite IH by done. do 2 f_equal. lia.
    + rewrite IH by apply wrap_i64_range. by rewrite wrap_i64_add, Z.add_assoc.
Qed.
Lemma magnitude_nonneg vs : 0 ≤ magnitude vs.
Proof. induction vs as [|v vs IH]; cbn; [done|]. fold (magnitude vs). lia. Qed.
Lemma checked_sum checks acc vs : Z.abs acc + magnitude vs < 2 ^ 63 → sum_i64 checks acc vs = Returns (acc + total vs).
Proof.
  revert acc. induction vs as [|v vs IH]; intros acc Hm; cbn [sum_i64 total magnitude foldr] in *.
  - by rewrite Z.add_0_r.
  - fold (total vs). fold (magnitude vs) in Hm. pose proof (magnitude_nonneg vs). rewrite decide_True by (unfold is_i64; lia).
    rewrite IH by lia. f_equal. lia.
Qed.
Lemma total_Permutation vs ws : vs ≡ₚ ws → total vs = total ws.
Proof. unfold total. induction 1; cbn in *; lia. Qed.
Lemma magnitude_Permutation vs ws : vs ≡ₚ ws → magnitude vs = magnitude ws.
Proof. unfold magnitude. induction 1; cbn in *; lia. Qed.

Section sum.
Context {AP : AeadPrim} {HaP : HashPrim} {MP : HmacPrim} {UuP : UuidPrim} {XP : HexPrim} {BP : Base64Prim}.
Context {J : CiphertextJson} {X : JsonExtractor} {VV : ValueJson Value} {VQ : ValueJson SubmitRequest} {VR : ValueJson SubmitResponse}.

(** A history of requests to [submit] and [reset]: what was accepted, latest first. *)
Inductive PartyEvent : Type := Submitting (received answered : Z) (req : Request) | Resetting.
Definition accepted_submission (received : Z) (st : DemoState) (req : Request) : option SubmitRequest :=
  (with_request received st req (λ _, None) (λ _ q st, (Some q, st))).1.
Definition party_step (log : list (option SubmitRequest)) (st : DemoState) (e : PartyEvent) : list (option SubmitRequest) * DemoState :=
  match e with
  | Submitting received answered req =>
      (match accepted_submission received st req with Some q => Some q :: log | None => log end, (submit received answered st req).2)
  | Resetting => (None :: log, (reset st).2)
  end.
Fixpoint party_run (log : list (option SubmitRequest)) (st : DemoState) (es : list PartyEvent) : list (option SubmitRequest) * DemoState :=
  match es with
  | [] => (log, st)
  | e :: es => let '(log, st) := party_step log st e in party_run log st es
  end.

(** The value that a party submitted last, since the last reset. *)
Fixpoint latest (log : list (option SubmitRequest)) (p : string) : option Z :=
  match log with
  | Some q :: log => if decide (party_id q = p) then Some (submitted q) else latest log p
  | _ => None
  end.

Lemma submit_parties received answered st req :
  ds_parties (submit received answered st req).2 =
    match accepted_submission received st req with Some q => <[party_id q := submitted q]> (ds_parties st) | None => ds_parties st end.
Proof using.
  unfold submit, accepted_submission, with_request. destruct (from_request_parts _ _ _) as [[sess|] r]; [|done].
  destruct (encrypted_json _ _ _) as [[q|] r']; [|done]. cbn [fst]. unfold seal_in. by destruct (seal _ _ _).
Qed.

Lemma party_run_latest log st es log' st' :
  (∀ p, ds_parties st !! p = latest log p) → party_run log st es = (log', st') → ∀ p, ds_parties st' !! p = latest log' p.
Proof using.
  revert log st. induction es as [|e es IH]; intros log st Hst; cbn [party_run]; [by intros [= <- <-]|].
  destruct (party_step log st e) as [log1 st1] eqn:Hstep. apply IH. intros p. destruct e as [received answered req|]; cbn [party_step] in Hstep.
  - injection Hstep as <- <-. rewrite submit_parties. destruct (accepted_submission received st req) as [q|]; [|done].
    cbn [latest]. case_decide as Hp; [by rewrite Hp, lookup_insert_eq|]. by rewrite lookup_insert_ne.
  - by injection Hstep as <- <-.
Qed.

Lemma parties_list (m : gmap string Z) ps : NoDup ps → (∀ p, p ∈ ps ↔ is_Some (m !! p)) → map_to_list m ≡ₚ (λ p, (p, default 0 (m !! p))) <$> ps.
Proof using.
  intros Hnd Hps. apply NoDup_Permutation; [apply NoDup_map_to_list|apply NoDup_fmap_2; [|done]; by intros ? ? [= ->]|].
  intros [p v]. rewrite elem_of_map_to_list, list_elem_of_fmap. split.
  - intros Hp. exists p. rewrite Hp. split; [done|]. apply Hps. by rewrite Hp.
  - intros (p' & [= -> ->] & [w Hw]%Hps). by rewrite Hw.
Qed.

End sum.

(** The result is the sum of what the parties submitted: after any history of
    submissions and resets the answer to an accepted request counts every party once, with
    the value of its latest accepted submission since the last reset.  Without overflow
    checks the sum is that of 64-bit integers; where the values are small enough both builds
    answer with the sum itself. *)
Theorem submissions_summed {AP : AeadPrim} {HaP : HashPrim} {MP : HmacPrim} {UuP : UuidPrim} {XP : HexPrim} {BP : Base64Prim}
    {J : CiphertextJson} {X : JsonExtractor} {VV : ValueJson Value} {VQ : ValueJson SubmitRequest} {VR : ValueJson SubmitResponse}
    (st st' : DemoState) (es : list PartyEvent) (log : list (option SubmitRequest)) (ps : list string)
    (received answered : Z) (req : Request) (sess : OpenHttpaSession) (r : AtbRegistry.t) :
  ds_parties st = ∅ → party_run [] st es = (log, st') → NoDup ps → (∀ p, p ∈ ps ↔ is_Some (latest log p)) →
  from_request_parts received (ds_registry st') req = (Ok sess, r) →
  let values := (λ p, default 0 (latest log p)) <$> ps in
  let answer sum := seal_in answered sess (sum_answer sum (length ps)) (set_ds_registry st' r) in
  get_result false received answered st' req = Returns (answer (wrap_i64 (total values))) ∧
  (magnitude values < 2 ^ 63 → ∀ checks, get_result checks received answered st' req = Returns (answer (total values))).
Proof.
  intros Hst Hrun Hnd Hps Hreq values answer.
  assert (∀ p, ds_parties st' !! p = latest log p) as Hl by (eapply party_run_latest, Hrun; intros p; by rewrite Hst, lookup_empty).
  assert (map_to_list (ds_parties st') ≡ₚ (λ p, (p, default 0 (ds_parties st' !! p))) <$> ps) as Hm.
  { apply parties_list; [done|]. intros p. by rewrite Hl. }
  assert ((map_to_list (ds_parties st')).*2 ≡ₚ values) as Hv.
  { rewrite Hm, <-list_fmap_compose. unfold values. erewrite list_fmap_ext; [done|]. intros i p _. cbn. by rewrite Hl. }
  assert (size (ds_parties st') = length ps) as Hsize.
  { rewrite <-length_map_to_list, Hm. apply length_fmap. }
  unfold get_result. rewrite Hreq. cbn [ds_parties set_ds_registry]. rewrite Hsize. split.
  - rewrite wrapping_sum by done. by rewrite (total_Permutation _ _ Hv).
  - intros Hmag checks. rewrite checked_sum by (rewrite (magnitude_Permutation _ _ Hv); done). by rewrite (total_Permutation _ _ Hv).
Qed.

(** ** Browsers *)

Lemma derive_keys_wf {HP : HkdfPrim} {HL : HkdfLaws HP} secret th k : derive secret th = Returns (Ok k) → keys_wf k.
Proof.
  unfold derive, extract_sha384. case_decide; [done|]. cbn [mbind result_bind].
  destruct (expand_slots _ _ th) as [keys|] eqn:He; [|done]. case_decide as Hth; [|done]. intros [= <-].
  destruct (expand_slots_total (hkdf_extract (replicate 48 NUL) secret) (λ label, make_info PREFIX label th) th) as (keys' & Hk & Hwf & _);
    [by rewrite hkdf_extract_length|exact Hth|]. rewrite He in Hk. by injection Hk as <-.
Qed.

Section browser_facts.
Context {DF : DebugFmt} {HaP : HashPrim} {HP : HkdfPrim} {KP : KexPrim} {XP : HexPrim} {XL : HexLaws XP} {UP : UuidPrim} {BP : Base64Prim}.
Context (allow : option string).

(** What the first call of the browser publishes, as the page posts it. *)
Definition posted (ini : InitiateResult) : JsonHandshake :=
  mk_json_handshake (ini_random ini) (Some (ini_challenge ini)) (ini_ecdhe_public ini) (ini_mlkem_public ini) None None.

Lemma json_bytes_encode v n e1 e2 w : json_bytes (hex_encode v) n e1 e2 = Ok w → w = v.
Proof using XL. unfold json_bytes. rewrite hex_decode_encode. cbn. case_decide; [by intros [= <-]|done]. Qed.

Lemma posted_request random challenge ecdhe ek ttl request :
  json_request allow (posted (mk_initiate (hex_encode random) (hex_encode challenge) (hex_encode ecdhe) (hex_encode ek))) ttl = Ok request →
  request = Handshake.mk_request [X25519MlKem768Aes256GcmSha384] [V2] random challenge (mk_share ecdhe ek) [] ttl.
Proof using XL.
  unfold json_request, posted. cbn [jh_client_random jh_client_challenge jh_ecdhe_public jh_mlkem_public jh_cipher_suites jh_versions ini_random ini_challenge ini_ecdhe_public ini_mlkem_public].
  intros H. inv_ok. repeat match goal with H : json_bytes _ _ _ _ = Ok _ |- _ => apply json_bytes_encode in H as -> end. done.
Qed.

Lemma head_filter_singleton {A} `{EqDecision A} (a : A) (l : list A) x :
  head (base.filter (λ y, y ∈ [a]) l) = Some x → x = a.
Proof.
  intros H. apply head_Some_elem_of in H. apply list_elem_of_filter in H as [H _]. by apply list_elem_of_singleton in H.
Qed.

(** A session of the JSON endpoint comes from a completed handshake and is in the registry. *)
Lemma aths_json_Ok env now st q resp st' :
  aths_json allow env now st q = Returns (Ok resp, st') →
  ∃ request suite version share res,
    json_request allow q (atb_ttl (ds_aths st)) = Ok request ∧
    execute_server (executor (ds_aths st)) env request (Some (tee_provider (ds_aths st))) (verifier (ds_aths st)) (identity_key (ds_aths st)) =
      Returns (Ok (suite, version, share, res)) ∧
    resp = json_answer st suite version share res ∧
    AtbRegistry.insert (ds_registry st) (json_session now suite version res) = (Ok (), ds_registry st') ∧
    st' = set_ds_registry st (ds_registry st').
Proof using.
  unfold aths_json. destruct (json_request allow q _) as [request|]; [|done].
  destruct (execute_server _ _ _ _ _ _) as [[[[[suite version] share] res]|]|] eqn:Hx; [|done..]. cbn [mbind outcome_bind].
  destruct (AtbRegistry.insert _ _) as [[[]|] r] eqn:Hins; [|done]. intros [= <- <-]. by exists request, suite, version, share, res.
Qed.

End browser_facts.

(** [C13] A browser that posts what its first call published to the JSON endpoint has, if the
    server answers, a session with it: the second call accepts the answer, and the registry
    holds a live session with the same identifier, keys and counters. *)
Theorem browser_attests {DF : DebugFmt} {HaP : HashPrim} {HP : HkdfPrim} {HL : HkdfLaws HP} {KP : KexPrim} {KL : KexLaws KP}
    {BK : BrowserKex} {BKL : BrowserKexLaws BK KP} {XP : HexPrim} {XL : HexLaws XP} {UP : UuidPrim} {BP : Base64Prim}
    (allow : option string) (parse : string → result string AttestResponse) (env : ServerEnv) (now : Z) (st st' : DemoState)
    (random challenge ecdhe seed srandom : bytes) (b b1 : Browser) (ini : InitiateResult) (resp : JsonHandshakeResponse) (json : string) :
  openhttpa_initiate_attest (Some random) (Some challenge) (Some ecdhe) (Some seed) b = (Ok ini, b1) →
  aths_json allow env now st (posted ini) = Returns (Ok resp, st') →
  env_random env = Some srandom → length srandom = 32%nat → length (env_atb_id env) = 16%nat → parse json = Ok (jr_answer resp) →
  ∃ proof s ss, openhttpa_derive_session parse json b1 = (Returns (Ok proof), mk_browser None (Some s)) ∧
    AtbRegistry.sessions (ds_registry st') !! Session.id ss = Some ss ∧ browser_synced s ss ∧ ready now ss ∧ ds_parties st' = ds_parties st.
Proof.
  intros Hini Hj Hr Hlen Hid Hparse. pose proof Hini as Hini'. cbn in Hini'. injection Hini' as Hi Hb.
  apply aths_json_Ok in Hj as (request & suite & version & share & res & Hreq & Hx & -> & Hins & Hst').
  rewrite <-Hi in Hreq. apply posted_request in Hreq. subst request.
  pose proof (execute_server_Ok _ _ _ _ _ _ _ _ _ _ Hx) as (kem & ss & Hsuite & Hversion & _ & _ & Hsr & _ & _ & Hd & _ & _ & Hatb & _).
  unfold negotiate_suite, negotiate_version in Hsuite, Hversion. apply ok_or_Ok in Hsuite, Hversion. cbn [client_suites client_versions] in Hsuite, Hversion.
  apply head_filter_singleton in Hsuite as ->. apply head_Some_elem_of, list_elem_of_filter in Hversion as [_ ->%list_elem_of_singleton].
  rewrite Hr in Hsr. injection Hsr as ->.
  edestruct (browser_agrees parse) as (_ & proof & Hproof); [exact Hini|exact Hx|done|exact Hparse|].
  exists proof. eexists. exists (json_session now X25519MlKem768Aes256GcmSha384 V2 res). split; [exact Hproof|].
  assert (length (atb_id res) = 16%nat) as Hatb16 by by rewrite Hatb. split_and!.
  - unfold AtbRegistry.insert in Hins. destruct (AtbRegistry.claim_upd _ _); [|done]. injection Hins as <-. apply lookup_insert_eq.
  - split; [done..|]. unfold json_session. eapply synced_refl, synced_new with (t1 := 0) (st1 := default_strategy); [done|]. by eapply derive_keys_wf.
  - split; [cbn; lia|done].
  - by rewrite Hst'.
Qed.

Lemma delivered_base_id {UP : UuidPrim} meth p q a i extra t c b req :
  delivers meth p q a (hm_insert (hm_insert (request_headers i extra) STR_ATTEST_TICKET t) STR_CONTENT_TYPE c) b req →
  hm_get (headers req) STR_ATTEST_BASE_ID = Some (as_bytes (uuid_to_string i)).
Proof.
  intros [_ _ _ _ (extras & Hex & ->) _]. rewrite add_headers_get by (done || apply transport_base_id).
  rewrite !hm_get_insert_ne by done. apply hm_get_insert.
Qed.

(** [C14] A browser takes part: what it seals for [submit] is entered for its party, and the
    answer that it reads back is the number of parties; afterwards the browser and the
    session in the registry are in step again. *)
Theorem browser_submits {AP : AeadPrim} {AL : AeadLaws AP} {HaP : HashPrim} {MP : HmacPrim} {UP : UuidPrim} {UL : UuidLaws UP}
    {XP : HexPrim} {XL : HexLaws XP} {BP : Base64Prim} {BL : Base64Laws BP} {HN : HeaderNames} {J : CiphertextJson} {JL : CiphertextJsonLaws J}
    {X : JsonExtractor} {JXL : JsonExtractorLaws J X} {VQ : ValueJson SubmitRequest} {VR : ValueJson SubmitResponse}
    (parse_headers : string → result string (list (string * string))) (received answered : Z) (st : DemoState) (cl : option ClientState)
    (s : BrowserSession) (ss : SessionInner) (meth p : string) (q : option string) (hj : string) (hs : list (string * string))
    (extra : option HeaderMap) (plaintext : string) (sub : SubmitRequest) (answer : bytes) :
  let i := Session.id ss in let a := host_authority (browser_headers hs) in
  let parties := <[party_id sub := submitted sub]> (ds_parties st) in
  browser_synced s ss → ready received ss → ready answered ss → client_counter ss < u64_max → server_counter ss < u64_max →
  AtbRegistry.sessions (ds_registry st) !! i = Some ss →
  parse_headers hj = Ok hs → browser_headers hs = request_headers i extra → sendable meth p q a i extra (as_bytes plaintext) →
  value_from_slice (as_bytes plaintext) = Some sub →
  value_to_vec (mk_submitted true "success" (size parties)) = Some answer → Z.of_nat (length answer) ≤ 2 ^ 36 - 32 →
  ∃ sealed s', openhttpa_seal_with_ahl parse_headers (uuid_to_string i) plaintext meth p q hj (mk_browser cl (Some s)) =
      (Returns (Ok sealed), mk_browser cl (Some s')) ∧
    ∀ req, delivers meth p q a
        (hm_insert (hm_insert (browser_headers hs) STR_ATTEST_TICKET (header_value (sl_ticket sealed))) STR_CONTENT_TYPE (as_bytes "application/json"))
        (ciphertext_to_json (sl_ciphertext sealed)) req →
      ∃ ct st' s'' ss'', submit received answered st req =
          (Ok (Extractors.mk_sealed (as_bytes (uuid_to_string i)) (ciphertext_to_json (hex_encode ct))), st') ∧
        ds_parties st' = parties ∧ AtbRegistry.sessions (ds_registry st') !! i = Some ss'' ∧
        openhttpa_unseal (uuid_to_string i) (hex_encode ct) (mk_browser cl (Some s')) = (Returns (text_of answer), mk_browser cl (Some s'')) ∧
        browser_synced s'' ss''.
Proof.
  intros i a parties Hsync Hr Ha Hc Hsc Hreg Hj Hh Hsend Hq Hv Hlen.
  destruct (browser_exchange parse_headers received answered (ds_registry st) cl s ss meth p q hj hs extra plaintext
    (mk_submitted true "success" (size parties)) answer) as (sealed & s' & Hseal & Hex); [done..|].
  exists sealed, s'. split; [exact Hseal|]. intros req Hdel. destruct (Hex req Hdel) as (Hdec & ct & s'' & Hans & Hunseal & Hsync'). clear Hex.
  set (ss' := Exchange.committed ss (client_counter ss)) in *.
  exists ct, (set_parties (set_ds_registry st (AtbRegistry.update (AtbRegistry.update (ds_registry st) i ss') i (Exchange.answered ss'))) parties), s'', (Exchange.answered ss').
  split_and!; [|done|apply lookup_insert_eq|done|done].
  unfold submit, with_request. rewrite (parts_ok received (ds_registry st) req i ss); [|apply Hsync| |done|apply Hr].
  2:{ rewrite Hh in Hdel. by eapply delivered_base_id. }
  unfold encrypted_json. rewrite Hdec. cbn [mbind result_bind]. rewrite Hq. cbn [ok_or].
  unfold seal_in. cbn [ohs_session ohs_aad]. change (ds_parties (set_ds_registry st _)) with (ds_parties st). fold parties.
  change (Session.id ss) with i.
  set (st1 := set_parties _ parties). assert (AtbRegistry.sessions (ds_registry st1) !! i = Some ss') as -> by apply lookup_insert_eq.
  change (default ss (Some ss')) with ss'. fold i in Hans. by rewrite Hans.
Qed.

(** ** The router *)

Inductive Reply : Type :=
| Plain (status : Z)
| JsonBody (v : Value)
| Sealed (r : result Z SealedResponse)
| Chat (r : ChatReply)
| Ticketed (r : result Z SessionTicket)
| Attesting (status : Z) (hs : HeaderMap)
| JsonAttest (r : result (Z * string) JsonHandshakeResponse)
| Upgrade (r : result Z (AttestWsSession * option string)).

(** What a request draws: the clocks at its steps, the entropy, the identifier of cover
    traffic, the environment of the handshake, and what the axum extractors read. *)
Record DemoDraws (R : Type) : Type := mk_demo_draws {
  dd_received : Z;
  dd_middle : Z;
  dd_answered : Z;
  dd_now_sys : Z;
  dd_polled : list Z;
  dd_wall : option Z;
  dd_rand : option bytes;
  dd_fresh : AtbId;
  dd_env : ServerEnv;
  dd_oracle : OracleEnv R;
  dd_handshake : Request → result Z JsonHandshake;
  dd_atb_param : option string;
  (** the report of [simulate_swarm], which has no access to the state *)
  dd_swarm : Value;
}.
Arguments dd_received {R}.
Arguments dd_middle {R}.
Arguments dd_answered {R}.
Arguments dd_now_sys {R}.
Arguments dd_polled {R}.
Arguments dd_wall {R}.
Arguments dd_rand {R}.
Arguments dd_fresh {R}.
Arguments dd_env {R}.
Arguments dd_oracle {R}.
Arguments dd_handshake {R}.
Arguments dd_atb_param {R}.
Arguments dd_swarm {R}.

Section router.
Context {SP : SfvPrim} {HJ : HeaderJson} {UuP : UuidPrim} {AP : AeadPrim} {HaP : HashPrim} {HP : HkdfPrim} {MP : HmacPrim} {KP : KexPrim}.
Context {DF : DebugFmt} {SJ : HandshakeJson} {XP : HexPrim} {BP : Base64Prim} {J : CiphertextJson} {X : JsonExtractor} {SC : StateCodec}.
Context {UrP : UrlParse} {DS : DebugStr} {RJ : RpcJson} {VV : ValueJson Value} {VS : ValueJson SubmitRequest} {VR : ValueJson SubmitResponse}.
Context {VE : ValueJson EchoRequest} {VF : ValueJson OracleFetchRequest} {VO : ValueJson OracleResponse} {VC : ValueJson ChatRequest}.
Context {G : Type} {D : DistributedReplayGuard G} {R : Type} (allow : option string) (checks : bool).

Definition root_handler (d : DemoDraws R) (st : DemoState) (req : Request) : outcome Reply * DemoState :=
  if decide (method req = "OPTIONS"%string) then
    ('(status, hs) ← preflight_handler (ds_preflight st) (dd_wall d) (dd_rand d); Returns (Attesting status hs), st)
  else if decide (method req = "GET"%string) then (Returns (JsonBody (health st)), st)
  else if decide (method req = "ATTEST"%string) then
    let '(o, r) := aths_endpoint allow (dd_env d) (dd_fresh d) (dd_wall d) (ds_aths st) (headers req) in
    ('(status, hs) ← o; Returns (Attesting status hs), set_ds_registry st r)
  else (Returns (Plain METHOD_NOT_ALLOWED), st).

Definition replied {A} (f : A → Reply) (x : A * DemoState) : outcome Reply * DemoState := (Returns (f x.1), x.2).
Definition replied_outcome {A} (f : A → Reply) (st : DemoState) (x : outcome (A * DemoState)) : outcome Reply * DemoState :=
  match x with Returns (a, st) => (Returns (f a), st) | Panics => (Panics, st) end.

(** The method and the handler of a path under [/api]; [get] also serves [HEAD]. *)
Definition api_route (p : string) : option (string * (DemoDraws R → DemoState → Request → outcome Reply * DemoState)) :=
  if decide (p = "/reset") then Some ("POST", λ d st req, replied Plain (reset st))
  else if decide (p = "/a2a") then Some ("POST", λ d st req, replied Sealed (a2a_handle (dd_received d) (dd_answered d) st req))
  else if decide (p = "/attest") then Some ("POST", λ d st req,
    match dd_handshake d req with
    | Err status => (Returns (Plain status), st)
    | Ok q => replied_outcome JsonAttest st (aths_json allow (dd_env d) (dd_middle d) st q)
    end)
  else if decide (p = "/submit") then Some ("POST", λ d st req, replied Sealed (submit (dd_received d) (dd_answered d) st req))
  else if decide (p = "/result") then Some ("GET", λ d st req, replied_outcome Sealed st (get_result checks (dd_received d) (dd_answered d) st req))
  else if decide (p = "/mcp") then Some ("POST", λ d st req,
    let '(o, st) := mcp_handle (dd_received d) (dd_answered d) st req in (r ← o; Returns (Sealed r), st))
  else if decide (p = "/echo") then Some ("POST", λ d st req, replied Sealed (echo (dd_received d) (dd_answered d) st req))
  else if decide (p = "/oracle/fetch") then Some ("POST", λ d st req,
    replied Sealed (oracle_fetch (dd_oracle d) (dd_received d) (dd_middle d) (dd_answered d) st req))
  else if decide (p = "/chat") then Some ("POST", λ d st req, replied Chat (chat_handle (dd_received d) (dd_answered d) (dd_polled d) st req))
  else if decide (p = "/ws") then Some ("GET", λ d st req,
    replied Upgrade (ws_upgrade_handler (dd_received d) (dd_middle d) (dd_atb_param d) st (headers req)))
  else if decide (p = "/status") then Some ("GET", λ d st req, (Returns (JsonBody (demo_status st)), st))
  else if decide (p = "/swarm/simulate") then Some ("POST", λ d st req, (Returns (JsonBody (dd_swarm d)), st))
  else if decide (p = "/ticket") then Some ("POST", λ d st req,
    replied_outcome Ticketed st (get_ticket (dd_received d) (dd_middle d) (dd_now_sys d) st req))
  else None%string.

Definition API : string := "/api".
(** A nested route sees the path without the prefix and the whole one as [OriginalUri]. *)
Definition nested (req : Request) : Request :=
  Middleware.mk_request (method req) (string_of_list_ascii (drop (String.length API) (as_bytes (path req)))) (query req) (uri_authority req)
    (Some (path req, query req)) (headers req) (body req).
Definition serves (m : string) (req : Request) : bool :=
  bool_decide (method req = m ∨ (m = "GET" ∧ method req = "HEAD"))%string.

(** The CORS layer answers [OPTIONS] itself. *)
Definition api (d : DemoDraws R) (st : DemoState) (req : Request) : outcome Reply * DemoState :=
  match api_route (path (nested req)) with
  | None => (Returns (Plain NOT_FOUND), st)
  | Some (m, handler) =>
      if decide (method req = "OPTIONS"%string) then (Returns (Plain 200), st)
      else if serves m req then handler d st (nested req) else (Returns (Plain METHOD_NOT_ALLOWED), st)
  end.

Definition demo_route (d : DemoDraws R) (st : DemoState) (req : Request) : outcome Reply * DemoState :=
  if decide (path req = "/" ∨ path req = "/attest")%string then root_handler d st req
  else if decide (path req = "/v1/chat/completions"%string) then
    if serves "POST" req then replied Chat (chat_handle (dd_received d) (dd_answered d) (dd_polled d) st req)
    else (Returns (Plain METHOD_NOT_ALLOWED), st)
  else if decide (path req = "/health"%string) then
    if serves "GET" req then (Returns (JsonBody (health st)), st) else (Returns (Plain METHOD_NOT_ALLOWED), st)
  else if starts_with (API +:+ "/") (path req) then api d st req
  else (Returns (Plain NOT_FOUND), st).

(** The application: the resumption layer around the routes. *)
Definition demo_app (d : DemoDraws R) (st : DemoState) (g : G) (req : Request) : outcome Reply * (DemoState * G) :=
  let '(dec, _, (r, g)) := Rtt0ResumptionMiddleware.call (dd_received d) (dd_now_sys d) (ds_ticket_engine st) (ds_registry st) g req in
  let st := set_ds_registry st r in
  match dec with
  | Answer status => (Returns (Plain status), (st, g))
  | Forward _ => let '(reply, st) := demo_route d st req in (reply, (st, g))
  end.

(** Anyone clears the table: a request without any header of a session. *)
Theorem reset_unguarded d st g req :
  method req = "POST"%string → path req = "/api/reset"%string → headers req = [] →
  ∃ st' g', demo_app d st g req = (Returns (Plain 200), (st', g')) ∧ ds_parties st' = ∅.
Proof using.
  intros Hm Hp Hh. unfold demo_app, Rtt0ResumptionMiddleware.call. rewrite Hh. cbn [hm_get get_all head].
  unfold demo_route, api, nested, serves. rewrite Hp. cbn -[api_route decide bool_decide]. rewrite Hm.
  repeat (rewrite decide_False by naive_solver). cbn -[decide bool_decide]. eexists _, _. done.
Qed.

(** The tools do not compute: whatever the arguments, the answer to a call is a constant. *)
Theorem tools_only_record name arguments i tool :
  (demo_tools : gmap string (McpTool ())) !! name = Some tool →
  ∃ operation, (McpServer.dispatch demo_tools (new_request (VString i) "tools/call" (Some (tool_params name arguments))) ()).1 =
    Ok (success (VString i) (recorded operation)).
Proof using.
  intros Ht. rewrite (tools_call_request demo_tools i name arguments ()), Ht.
  assert (tool = SecureSum ∨ tool = SecureAverage ∨ tool = SecureVariance) as Hcase.
  { assert (demo_tools = (<["secure_variance"%string := SecureVariance]> (<["secure_average"%string := SecureAverage]>
      ({["secure_sum"%string := SecureSum]} : gmap string (McpTool ()))))) as Heq by reflexivity.
    rewrite Heq in Ht. do 2 (apply lookup_insert_Some in Ht as [[_ <-]|[_ Ht]]; [by eauto|]). apply lookup_singleton_Some in Ht as [_ <-]. by left. }
  destruct Hcase as [-> | [-> | ->]]; by eexists.
Qed.

End router.

(** ** A run *)

Module ToyDemo.
#[global] Instance values : ValueJson Value := {| value_to_vec _ := Some []; value_from_slice _ := None |}.
#[global] Instance submissions : ValueJson SubmitRequest := {|
  value_to_vec q := Some (as_bytes (party_id q)); value_from_slice b := Some (mk_submit (string_of_list_ascii b) 7) |}.
#[global] Instance answers : ValueJson SubmitResponse := {| value_to_vec _ := Some (as_bytes "ok"); value_from_slice _ := None |}.

Definition state (r : AtbRegistry.t) : DemoState :=
  mk_demo (mk_handler Demo.executor r Demo.generate_quotes None None 3600 [] None None) ∅ demo_tools
    (mk_preflight_state [X25519MlKem768Aes256GcmSha384] [V2] [] true) Tdx [] (TicketEngine.new (TicketKey.generate [])).
Definition env : ServerEnv :=
  mk_env (env_ecdhe Demo.env) (env_mlkem Demo.env) (env_encap Demo.env) (env_random Demo.env) ToyExchange.sid (env_now Demo.env) (env_now_secs Demo.env).
Definition initiated : result string InitiateResult * Browser :=
  openhttpa_initiate_attest (KP := ToyKex.prim) (XP := ToyWeb.hex) (Some ToyBrowser.random) (Some ToyBrowser.challenge) (Some (as_bytes "browser"))
    (Some (as_bytes "seed")) (mk_browser None None).
Definition ini : InitiateResult := match initiated.1 with Ok i => i | Err _ => mk_initiate EmptyString EmptyString EmptyString EmptyString end.
Definition answered {A} (o : outcome (result (Z * string) A * DemoState)) : bool := match o with Returns (Ok _, _) => true | _ => false end.

(** The request that the browser of [ToyBrowser] sends. *)
Definition sealed : SealedPayload :=
  match (openhttpa_seal_with_ahl (AP := Toy.aead) (MP := Toy.hmac) (XP := ToyWeb.hex) (BP := ToyBase64.prim) (HN := ToyBrowser.names)
    ToyBrowser.parse_headers (uuid_to_string (UuidPrim := ToyWeb.uuid) ToyExchange.sid) "alice" "POST" "/a" None "headers"
    (mk_browser None (Some ToyBrowser.session))).1 with Returns (Ok s) => s | _ => mk_sealed_payload EmptyString 0 EmptyString EmptyString end.
Definition request : Request :=
  Middleware.mk_request "POST" "/a" None (Some "example.org"%string) None
    (hm_insert (hm_insert (browser_headers (HN := ToyBrowser.names) ToyBrowser.hs) STR_ATTEST_TICKET (header_value (sl_ticket sealed)))
       STR_CONTENT_TYPE (as_bytes "application/json"))
    (ciphertext_to_json (CiphertextJson := ToyExchange.json) (sl_ciphertext sealed)).
Definition run : list (option SubmitRequest) * DemoState :=
  party_run (AP := Toy.aead) (MP := Toy.hmac) (UuP := ToyWeb.uuid) (XP := ToyWeb.hex) (BP := ToyBase64.prim) (J := ToyExchange.json)
    (X := ToyExchange.extractor) [] (state ToyExchange.registry) [Resetting; Submitting 10 10 request].
Definition asking : result Z OpenHttpaSession * AtbRegistry.t := from_request_parts (UP := ToyWeb.uuid) 10 (ds_registry run.2) request.
Definition asker : OpenHttpaSession := match asking.1 with Ok s => s | Err _ => mk_ohs ToyExchange.server_session [] end.
End ToyDemo.

Lemma submissions_summed_witness :
  get_result (AP := Toy.aead) (UuP := ToyWeb.uuid) (XP := ToyWeb.hex) (J := ToyExchange.json) false 10 10 ToyDemo.run.2 ToyDemo.request =
    Returns (seal_in (AP := Toy.aead) (UuP := ToyWeb.uuid) (XP := ToyWeb.hex) (J := ToyExchange.json) 10 ToyDemo.asker (sum_answer 7 1)
      (set_ds_registry ToyDemo.run.2 ToyDemo.asking.2)).
Proof.
  assert (ToyDemo.run.1 = [Some (mk_submit "alice" 7); None]) as Hlog by (vm_compute; reflexivity).
  assert (ToyDemo.asking = (Ok ToyDemo.asker, ToyDemo.asking.2)) as Hask by (vm_compute; reflexivity).
  destruct (submissions_summed (AP := Toy.aead) (HaP := Toy.hash) (MP := Toy.hmac) (UuP := ToyWeb.uuid) (XP := ToyWeb.hex) (BP := ToyBase64.prim) (J := ToyExchange.json)
    (X := ToyExchange.extractor) (ToyDemo.state ToyExchange.registry) ToyDemo.run.2 [Resetting; Submitting 10 10 ToyDemo.request]
    [Some (mk_submit "alice" 7); None] ["alice"%string] 10 10 ToyDemo.request ToyDemo.asker ToyDemo.asking.2) as [H _].
  - reflexivity.
  - rewrite <-Hlog. apply surjective_pairing.
  - by_compute.
  - intros p. rewrite list_elem_of_singleton. cbn. case_decide as Hp; [by split|]. split; [congruence|by intros [? ?]].
  - exact Hask.
  - refine (eq_trans H _). reflexivity.
Defined.

Lemma browser_attests_witness :
  ∃ resp st' proof s ss,
    aths_json (DF := Demo.debug) (HaP := Toy.hash) (HP := Toy.hkdf) (KP := ToyKex.prim) (XP := ToyWeb.hex) (UP := ToyWeb.uuid) (BP := ToyBase64.prim)
      None ToyDemo.env 0 (ToyDemo.state AtbRegistry.new) (posted ToyDemo.ini) = Returns (Ok resp, st') ∧
    openhttpa_derive_session (KP := ToyKex.prim) (HP := Toy.hkdf) (HaP := Toy.hash) (XP := ToyWeb.hex) (λ _, Ok (jr_answer resp)) "json" ToyDemo.initiated.2 =
      (Returns (Ok proof), mk_browser None (Some s)) ∧ AtbRegistry.sessions (ds_registry st') !! Session.id ss = Some ss.
Proof.
  assert (ToyDemo.answered (aths_json (DF := Demo.debug) (HaP := Toy.hash) (HP := Toy.hkdf) (KP := ToyKex.prim) (XP := ToyWeb.hex) (UP := ToyWeb.uuid) (BP := ToyBase64.prim)
      None ToyDemo.env 0 (ToyDemo.state AtbRegistry.new) (posted ToyDemo.ini)) = true) as Hok by (vm_compute; reflexivity).
  destruct (aths_json _ _ _ _ _) as [[[resp|e] st']|] eqn:Hatt; [|discriminate Hok..]. exists resp, st'.
  edestruct (browser_attests (DF := Demo.debug) (HaP := Toy.hash) (HP := Toy.hkdf) (HL := Toy.hkdf_laws) (KL := ToyKex.laws) (BKL := ToyBrowser.kex_laws)
    (XL := ToyWeb.hex_laws) (UP := ToyWeb.uuid) (BP := ToyBase64.prim) None (λ _, Ok (jr_answer resp)) ToyDemo.env 0 (ToyDemo.state AtbRegistry.new) st'
    ToyBrowser.random ToyBrowser.challenge (as_bytes "browser") (as_bytes "seed") (replicate 32 NUL) (mk_browser None None) ToyDemo.initiated.2 ToyDemo.ini resp "json")
    as (proof & s & ss & Hd & Hreg & _); [vm_compute; reflexivity|exact Hatt|vm_compute; reflexivity..|].
  exists proof, s, ss. split; [reflexivity|]. split; [exact Hd|exact Hreg].
Defined.

Lemma browser_submits_witness :
  ∃ sealed s', openhttpa_seal_with_ahl (AP := Toy.aead) (MP := Toy.hmac) (XP := ToyWeb.hex) (BP := ToyBase64.prim) (HN := ToyBrowser.names)
    ToyBrowser.parse_headers (uuid_to_string (UuidPrim := ToyWeb.uuid) ToyExchange.sid) "alice" "POST" "/a" None "headers" (mk_browser None (Some ToyBrowser.session)) =
    (Returns (Ok sealed), mk_browser None (Some s')).
Proof.
  edestruct (browser_submits (AL := Toy.aead_laws) (HaP := Toy.hash) (MP := Toy.hmac) (UL := ToyWeb.uuid_laws) (XL := ToyWeb.hex_laws) (BL := ToyBase64.laws)
    (HN := ToyBrowser.names) (JL := ToyExchange.json_laws) (JXL := ToyExchange.extractor_laws)
    ToyBrowser.parse_headers 10 10 (ToyDemo.state ToyExchange.registry) None ToyBrowser.session ToyExchange.server_session "POST" "/a" None "headers" ToyBrowser.hs
    (Some ToyBrowser.extra) "alice" (mk_submit "alice" 7) (as_bytes "ok")) as (sealed & s' & H & _); [..|exists sealed, s'; exact H].
  - split; [reflexivity..|]. apply synced_refl with (cs := ToyExchange.session 1000). apply synced_new; [reflexivity|by_compute].
  - split; by_compute.
  - split; by_compute.
  - by_compute.
  - by_compute.
  - vm_compute. reflexivity.
  - reflexivity.
  - vm_compute. reflexivity.
  - split_and!; by_compute.
  - reflexivity.
  - reflexivity.
  - by_compute.
Defined.
