(* ===== verification/Cffi.v ===== *)
(** * The C interface

    [bindings/c/src/lib.rs]: the functions that the library exports to C, and the Go package
    [bindings/go/openhttpa.go] on top of them.

    Memory is explicit.  The heap maps addresses to objects: contexts, strings that Rust
    allocated and strings that C allocated, which must be freed by whoever allocated them.
    Reading an address that holds no object of the expected kind, or freeing it, is undefined
    behaviour; a panic that reaches the boundary aborts the process. *)

From S2P Require Import Prelude ReplayWindow Nonce Crypto Aead Proto State KeySchedule Attestation Tee Session KeyExchange Handshake.
From S2P Require Import Http Oblivious Ahl Trailers Sfv Headers Registry Stream Middleware Client Extractors Exchange Handlers HandshakeWire ClientCall A2a Mcp Zk Llm Ws.
From stdpp Require Import options.

#[local] Open Scope Z_scope.
#[local] Set Warnings "-register-all".

(** ** Memory *)

Record OpenHttpaCtx : Type := mk_ctx { ctx_registry : AtbRegistry.t; ctx_executor : AtHsExecutor; ctx_tee : TeeProvider }.
Inductive Obj : Type :=
| CtxObj (c : OpenHttpaCtx)
| RustString (s : bytes)
| CString (s : bytes).
Abbreviation Heap := (gmap positive Obj).
(** [None] is the null pointer. *)
Abbreviation ptr := (option positive).

Inductive ffi_result (A : Type) : Type := UB | Aborts | Done (a : A).
Arguments UB {A}.
Arguments Aborts {A}.
Arguments Done {A}.

(** A call: on the heap and on the world [W] outside. *)
Definition ffi (W A : Type) : Type := Heap → W → ffi_result (A * Heap * W).
#[export] Instance ffi_ret {W} : MRet (ffi W) := λ A a h w, Done (a, h, w).
#[export] Instance ffi_bind {W} : MBind (ffi W) := λ A B f m h w,
  match m h w with Done (a, h, w) => f a h w | UB => UB | Aborts => Aborts end.

Section memory.
Context {W : Type}.

Definition alloc (o : Obj) : ffi W positive := λ h w, let a := fresh (dom h) in Done (a, <[a := o]> h, w).
Definition load (p : ptr) : ffi W Obj := λ h w, match a ← p; h !! a with Some o => Done (o, h, w) | None => UB end.
Definition store (p : ptr) (o : Obj) : ffi W () := λ h w, match p with Some a => Done ((), <[a := o]> h, w) | None => UB end.
Definition dispose (p : ptr) : ffi W () := λ h w, match p with Some a => Done ((), delete a h, w) | None => UB end.
Definition undefined {A} : ffi W A := λ _ _, UB.

Definition load_ctx (p : ptr) : ffi W OpenHttpaCtx := o ← load p; match o with CtxObj c => mret c | _ => undefined end.
(** [CStr::from_ptr] *)
Definition load_str (p : ptr) : ffi W bytes :=
  o ← load p; match o with RustString s | CString s => mret s | CtxObj _ => undefined end.

(** [CString::new(s).map(CString::into_raw)]: null for a text with a zero byte in it. *)
Definition into_raw (s : bytes) : ffi W ptr :=
  if decide (NUL ∈ s) then mret None else a ← alloc (RustString s); mret (Some a).
(** [to_str().unwrap_or(d)] *)
Definition text_or (d : string) (s : bytes) : string := if utf8_valid s then string_of_list_ascii s else d.

(** A computation of Rust on the world. *)
Definition rust {A} (f : W → outcome A * W) : ffi W A := λ h w,
  match f w with (Returns a, w) => Done (a, h, w) | (Panics, _) => Aborts end.
Definition pure_rust {A} (o : outcome A) : ffi W A := rust (λ w, (o, w)).

End memory.

(** ** The functions *)

Record HandshakeBody : Type := mk_body { hb_random : string; hb_challenge : string; hb_ecdhe : string; hb_mlkem : string }.
Record ServerAnswer : Type := mk_server_answer { sa_base_id : string; sa_ecdhe : string; sa_ciphertext : string; sa_transcript : string }.

(** [serde_json] and [http::Uri] on what C passes. *)
Class FfiJson : Type := {
  ffi_parse_uri : string → option string;
  parse_handshake_body : string → option HandshakeBody;
  parse_message_pairs : string → option (list (string * string));
  answer_to_string : ServerAnswer → bytes;
  encrypted_to_string : (*ciphertext*) string → (*nonce*) Z → bytes;
}.

Definition parse_role (role : string) : Role :=
  if decide (role = "system"%string) then System else if decide (role = "assistant"%string) then Assistant else User.

Section api.
Context {W : Type} (send : wire W).
Context {CT : ClientText} {ShJ : ShareJson} {SP : SfvPrim} {HJ : HeaderJson} {UP : UuidPrim} {UR : UriParts} {CJ : CiphertextJson}.
Context {AP : AeadPrim} {HaP : HashPrim} {HP : HkdfPrim} {MP : HmacPrim} {KP : KexPrim} {DF : DebugFmt} {XP : HexPrim} {BP : Base64Prim}.
Context (mldsa_verify : bytes → bytes → bytes → bool) (allow : option string) (show : ClientError → string) (show_build : ClientBuildError → string).
Context {R : Type} {LJ : ChatJson R} (zk_verify : R → bytes → result ZkError ZkOutput) {FJ : FfiJson}.
Context (bld : Build) (avail : ProviderKind → bool) (hardware : ProviderKind → TeeProvider) (make : BuiltClient → OpenHttpaClient).

(** [rt] is whether the runtime of tokio can be built. *)
Definition openhttpa_ctx_new (rt : outcome ()) : ffi W ptr :=
  _ ← pure_rust rt;
  found ← pure_rust (detect_best_provider bld avail (default_tee_config bld));
  match found with
  | Err _ => λ _ _, Aborts
  | Ok kind => a ← alloc (CtxObj (mk_ctx AtbRegistry.new (with_config [] [] true false) (hardware kind))); mret (Some a)
  end.

Definition openhttpa_ctx_free (ctx : ptr) : ffi W () :=
  match ctx with None => mret () | Some _ => _ ← load_ctx ctx; dispose ctx end.

Definition openhttpa_version (ver : string) : ffi W ptr := into_raw (as_bytes ver).

Definition openhttpa_parse_atb_id (atb_id : ptr) : ffi W ptr :=
  match atb_id with
  | None => mret None
  | Some _ =>
      s ← load_str atb_id;
      match uuid_parse (text_or EmptyString s) with
      | Some u => into_raw (as_bytes (uuid_to_string u))
      | None => mret None
      end
  end.

(** The client that every binding builds: no verifier, no provider. *)
Definition binding_builder (uri : string) : OpenHttpaClientBuilder := require_preflight (with_server_uri builder uri).

Definition openhttpa_attest_handshake (e : ClientEnv) (ctx server_uri : ptr) : ffi W ptr :=
  match server_uri with
  | None => mret None
  | Some _ =>
      s ← load_str server_uri;
      match ffi_parse_uri (text_or EmptyString s) with
      | None => mret None
      | Some uri =>
          built ← pure_rust (build_client bld avail (binding_builder uri));
          _ ← load_ctx ctx;
          r ← rust (attest_handshake (handshake_send send) mldsa_verify allow (make built) e);
          match r with
          | Ok session => into_raw (as_bytes (uuid_to_string (Session.id session)))
          | Err _ => mret None
          end
      end
  end.

Definition chat_messages (raw : list (string * string)) : list ChatMessage := (λ m, mk_chat_message (parse_role m.1) m.2) <$> raw.
(** A client is built and asked once. *)
Definition chat_once (uri model : string) (msgs : list ChatMessage) (e : ClientEnv) (ce : ChatEnv) (w : W) : outcome (result LlmError string) * W :=
  match build_llm send mldsa_verify allow show make bld avail show_build (mk_llm_builder (Some uri) (Some model) None [] None false) e w with
  | (Panics, w) => (Panics, w)
  | (Returns (Err err), w) => (Returns (Err err), w)
  | (Returns (Ok c), w) => let '(r, _, w) := chat send mldsa_verify allow show zk_verify ce c msgs w in (r, w)
  end.

Definition openhttpa_confidential_chat (e : ClientEnv) (ce : ChatEnv) (ctx server_uri model messages_json : ptr) : ffi W ptr :=
  match server_uri, model, messages_json with
  | Some _, Some _, Some _ =>
      u ← load_str server_uri;
      m ← load_str model;
      j ← load_str messages_json;
      match ffi_parse_uri (text_or EmptyString u), parse_message_pairs (text_or "[]" j) with
      | Some uri, Some raw =>
          _ ← load_ctx ctx;
          r ← rust (chat_once uri (text_or "llama3" m) (chat_messages raw) e ce);
          match r with Ok reply => into_raw (as_bytes reply) | Err _ => mret None end
      | _, _ => mret None
      end
  | _, _, _ => mret None
  end.

(** *** The server side *)

Definition hex_or_empty (s : string) : bytes := default [] (hex_decode s).

Definition ffi_request (b : HandshakeBody) : option AtHsRequest :=
  let client_random := hex_or_empty (hb_random b) in
  let client_challenge := hex_or_empty (hb_challenge b) in
  if decide (length client_random ≠ 32%nat ∨ length client_challenge ≠ 48%nat) then None
  else Some (Handshake.mk_request [X25519MlKem768Aes256GcmSha384] [V2] client_random client_challenge
    (mk_share (hex_or_empty (hb_ecdhe b)) (hex_or_empty (hb_mlkem b))) [] 3600).

Definition ffi_session (suite : CipherSuite) (version : ProtocolVersion) (res : AtHsResult) : SessionInner :=
  AttestSession.new (atb_id res) suite version (session_keys res) (hs_expires_at res) default_strategy (client_attestation_result res).
Definition ffi_answer (share : ServerKeyShare) (res : AtHsResult) : ServerAnswer :=
  mk_server_answer (uuid_to_string (atb_id res)) (hex_encode (s_ecdhe_public share)) (hex_encode (s_mlkem_ciphertext share)) (hex_encode (hs_transcript_hash res)).
Definition set_ctx_registry (c : OpenHttpaCtx) (r : AtbRegistry.t) : OpenHttpaCtx := mk_ctx r (ctx_executor c) (ctx_tee c).

Definition openhttpa_server_handshake (env : ServerEnv) (ctx request_json : ptr) : ffi W ptr :=
  match request_json with
  | None => mret None
  | Some _ =>
      s ← load_str request_json;
      match (b ← parse_handshake_body (text_or EmptyString s); ffi_request b) with
      | None => mret None
      | Some request =>
          c ← load_ctx ctx;
          r ← pure_rust (execute_server (ctx_executor c) env request (Some (ctx_tee c)) None None);
          match r with
          | Err _ => mret None
          | Ok (suite, version, share, res) =>
              let '(ins, reg) := AtbRegistry.insert (ctx_registry c) (ffi_session suite version res) in
              _ ← store ctx (CtxObj (set_ctx_registry c reg));
              match ins with
              | Err _ => mret None
              | Ok _ => into_raw (answer_to_string (ffi_answer share res))
              end
          end
      end
  end.

(** The closures on the session's keys. *)
Definition ffi_open (id_str : string) (nonce_val : Z) (ciphertext : bytes) (keys : SessionKeys) (_ : Z) : result () bytes :=
  key ← map_err (λ _, ()) (AeadKey.new Aes256Gcm (client_write_key keys));
  map_err (λ _, ()) (AeadKey.open_in_place key (build_aead_nonce nonce_val (client_write_iv keys)) (AAD_PREFIX ++ as_bytes id_str) ciphertext).
Definition ffi_seal (id_str : string) (plaintext : bytes) (keys : SessionKeys) (counter : Z) : result () (bytes * Z) :=
  key ← map_err (λ _, ()) (AeadKey.new Aes256Gcm (server_write_key keys));
  data ← map_err (λ _, ()) (AeadKey.seal_in_place key (build_aead_nonce counter (server_write_iv keys)) (AAD_PREFIX ++ as_bytes id_str) plaintext);
  Ok (data, counter).

(** What the two functions on a session have in common: its identifier, a hexadecimal argument, the
    session, and [f] on it, whose result is returned as a string. *)
Definition in_session (now_get : Z) (ctx atb_id_str hex : ptr) (f : string → bytes → SessionInner → option bytes * SessionInner) : ffi W ptr :=
  s ← load_str atb_id_str;
  let id_str := text_or EmptyString s in
  match uuid_parse id_str with
  | None => mret None
  | Some i =>
      x ← load_str hex;
      match hex_decode (text_or EmptyString x) with
      | None => mret None
      | Some v =>
          c ← load_ctx ctx;
          let '(session, reg) := AtbRegistry.get now_get (ctx_registry c) i in
          match session with
          | None => _ ← store ctx (CtxObj (set_ctx_registry c reg)); mret None
          | Some sess =>
              let '(r, sess) := f id_str v sess in
              _ ← store ctx (CtxObj (set_ctx_registry c (AtbRegistry.update reg i sess)));
              match r with Some out => into_raw out | None => mret None end
          end
      end
  end.

Definition decrypted (now nonce_val : Z) (id_str : string) (ciphertext : bytes) (sess : SessionInner) : option bytes * SessionInner :=
  let '(r, sess) := AttestSession.with_keys_for_trr now sess nonce_val (ffi_open id_str nonce_val ciphertext) in
  (match r with Ok (Ok plaintext) => Some (as_bytes (hex_encode plaintext)) | _ => None end, sess).
Definition encrypted (now : Z) (id_str : string) (plaintext : bytes) (sess : SessionInner) : option bytes * SessionInner :=
  let '(r, sess) := AttestSession.with_keys_for_trs now sess (ffi_seal id_str plaintext) in
  (match r with Ok (Ok (ciphertext, counter)) => Some (encrypted_to_string (hex_encode ciphertext) counter) | _ => None end, sess).

Definition openhttpa_server_decrypt (now_get now : Z) (ctx atb_id_str : ptr) (nonce_val : Z) (ciphertext_hex : ptr) : ffi W ptr :=
  in_session now_get ctx atb_id_str ciphertext_hex (decrypted now nonce_val).
Definition openhttpa_server_encrypt (now_get now : Z) (ctx atb_id_str plaintext_hex : ptr) : ffi W ptr :=
  in_session now_get ctx atb_id_str plaintext_hex (encrypted now).

Definition openhttpa_free_string (p : ptr) : ffi W () :=
  match p with
  | None => mret ()
  | Some _ => o ← load p; match o with RustString _ => dispose p | _ => undefined end
  end.

End api.

(** ** Reasoning about calls *)

(** From the heap [h] the call is defined, and what it returns satisfies [Q]; with [ab] it may
    also abort. *)
Definition runs_upto {W A} (ab : Prop) (h : Heap) (m : ffi W A) (Q : A → Heap → Prop) : Prop :=
  ∀ w, match m h w with UB => False | Aborts => ab | Done (a, h', _) => Q a h' end.
Definition runs {W A} (h : Heap) (m : ffi W A) (Q : A → Heap → Prop) : Prop := runs_upto True h m Q.
Definition yields {W A} (h : Heap) (m : ffi W A) (Q : A → Heap → Prop) : Prop := runs_upto False h m Q.

Section runs.
Context {W : Type} {ab : Prop}.

Lemma runs_mono {A} h (m : ffi W A) (Q Q' : A → Heap → Prop) : runs_upto ab h m Q → (∀ a h', Q a h' → Q' a h') → runs_upto ab h m Q'.
Proof using. intros Hm HQ w. specialize (Hm w). destruct (m h w) as [| |[[a h'] w']]; [done..|]. by apply HQ. Qed.
Lemma runs_ret {A} h (a : A) (Q : A → Heap → Prop) : Q a h → runs_upto (W := W) ab h (mret a) Q.
Proof using. intros HQ w. exact HQ. Qed.
Lemma runs_bind {A B} h (m : ffi W A) (f : A → ffi W B) (P : A → Heap → Prop) Q :
  runs_upto ab h m P → (∀ a h', P a h' → runs_upto ab h' (f a) Q) → runs_upto ab h (m ≫= f) Q.
Proof using.
  intros Hm Hf w. unfold mbind, ffi_bind. specialize (Hm w). destruct (m h w) as [| |[[a h'] w']]; [done..|]. exact (Hf a h' Hm w').
Qed.
Lemma runs_alloc h o (Q : positive → Heap → Prop) : (∀ a, h !! a = None → Q a (<[a := o]> h)) → runs_upto (W := W) ab h (alloc o) Q.
Proof using. intros HQ w. unfold alloc. apply HQ. apply not_elem_of_dom, is_fresh. Qed.
Lemma runs_load h a o (Q : Obj → Heap → Prop) : h !! a = Some o → Q o h → runs_upto (W := W) ab h (load (Some a)) Q.
Proof using. intros Ha HQ w. unfold load. cbn. by rewrite Ha. Qed.
Lemma runs_store h a o (Q : () → Heap → Prop) : Q () (<[a := o]> h) → runs_upto (W := W) ab h (store (Some a) o) Q.
Proof using. intros HQ w. exact HQ. Qed.
Lemma runs_dispose h a (Q : () → Heap → Prop) : Q () (delete a h) → runs_upto (W := W) ab h (dispose (Some a)) Q.
Proof using. intros HQ w. exact HQ. Qed.
Lemma runs_rust {A} h (f : W → outcome A * W) (Q : A → Heap → Prop) : (∀ a, Q a h) → runs h (rust f) Q.
Proof using. intros HQ w. unfold rust. destruct (f w) as [[a|] w']; [|done]. apply HQ. Qed.

(** The objects behind pointers. *)
Definition is_ctx (h : Heap) (p : ptr) : Prop := ∃ a c, p = Some a ∧ h !! a = Some (CtxObj c).
Definition is_str (h : Heap) (p : ptr) : Prop := ∃ a s, p = Some a ∧ (h !! a = Some (RustString s) ∨ h !! a = Some (CString s)).
Definition is_rust_string (h : Heap) (p : ptr) : Prop := ∃ a s, p = Some a ∧ h !! a = Some (RustString s).

Lemma runs_load_str h p (Q : bytes → Heap → Prop) : is_str h p → (∀ s, Q s h) → runs_upto (W := W) ab h (load_str p) Q.
Proof using.
  intros (a & s & -> & Ha) HQ. unfold load_str.
  eapply (runs_bind _ _ _ (λ o h', (o = RustString s ∨ o = CString s) ∧ h' = h)).
  - destruct Ha as [Ha|Ha]; (eapply runs_load; [exact Ha|]); eauto.
  - intros o h' [[-> | ->] ->]; by apply runs_ret.
Qed.
Lemma runs_load_ctx h a c (Q : OpenHttpaCtx → Heap → Prop) : h !! a = Some (CtxObj c) → Q c h → runs_upto (W := W) ab h (load_ctx (Some a)) Q.
Proof using.
  intros Ha HQ. unfold load_ctx. eapply (runs_bind _ _ _ (λ o h', o = CtxObj c ∧ h' = h)); [by eapply runs_load|]. intros o h' [-> ->]. by apply runs_ret.
Qed.

(** A function that returns a new string or null. *)
Definition returns_string (h : Heap) (p : ptr) (h' : Heap) : Prop :=
  (p = None ∧ h' = h) ∨ ∃ b s, p = Some b ∧ h !! b = None ∧ h' = <[b := RustString s]> h.
Lemma runs_null h : runs_upto (W := W) ab h (mret None) (returns_string h).
Proof using. apply runs_ret. by left. Qed.
Lemma runs_into_raw h s : runs_upto (W := W) ab h (into_raw s) (returns_string h).
Proof using.
  unfold into_raw. case_decide; [apply runs_null|]. eapply runs_bind; [apply (runs_alloc _ _ (λ b h', h !! b = None ∧ h' = <[b := RustString s]> h)); by split|].
  intros b h' [Hb ->]. apply runs_ret. right. by exists b, s.
Qed.

Lemma free_runs h p : p = None ∨ is_rust_string h p →
  runs_upto (W := W) ab h (openhttpa_free_string p) (λ _ h', h' = match p with Some a => delete a h | None => h end).
Proof using.
  intros [-> |(a & s & -> & Ha)]; [by apply runs_ret|]. unfold openhttpa_free_string.
  eapply (runs_bind _ _ _ (λ o h', o = RustString s ∧ h' = h)); [by eapply runs_load|]. intros o h' [-> ->]. by apply runs_dispose.
Qed.

End runs.

(** ** The contract of the functions *)

(** The calls that C can make; the last arguments are the pointers, the first the draws. *)
Inductive CCall : Type :=
| CtxNew (rt : outcome ())
| CtxFree (ctx : ptr)
| Version (ver : string)
| ParseAtbId (atb_id : ptr)
| AttestHandshake (e : ClientEnv) (ctx server_uri : ptr)
| ConfidentialChat (e : ClientEnv) (ce : ChatEnv) (ctx server_uri model messages_json : ptr)
| ServerHandshake (env : ServerEnv) (ctx request_json : ptr)
| ServerDecrypt (now_get now : Z) (ctx atb_id_str : ptr) (nonce_val : Z) (ciphertext_hex : ptr)
| ServerEncrypt (now_get now : Z) (ctx atb_id_str plaintext_hex : ptr)
| FreeString (p : ptr).

Definition or_null (P : ptr → Prop) (p : ptr) : Prop := p = None ∨ P p.

(** What the sections on safety of the documentation ask for, null being allowed where the
    code tests for it: they speak of the strings, and of a context only where it is freed. *)
Definition documented (h : Heap) (call : CCall) : Prop :=
  match call with
  | CtxNew _ | Version _ => True
  | CtxFree ctx => or_null (is_ctx h) ctx
  | ParseAtbId p => or_null (is_str h) p
  | AttestHandshake _ _ uri => or_null (is_str h) uri
  | ConfidentialChat _ _ _ uri model msgs => or_null (is_str h) uri ∧ or_null (is_str h) model ∧ or_null (is_str h) msgs
  | ServerHandshake _ _ json => or_null (is_str h) json
  | ServerDecrypt _ _ _ i _ ct => is_str h i ∧ is_str h ct
  | ServerEncrypt _ _ _ i pt => is_str h i ∧ is_str h pt
  | FreeString p => or_null (is_rust_string h) p
  end.
(** What they leave out: the functions that take a context read it. *)
Definition valid_context (h : Heap) (call : CCall) : Prop :=
  match call with
  | AttestHandshake _ ctx _ | ConfidentialChat _ _ ctx _ _ _ | ServerHandshake _ ctx _ | ServerDecrypt _ _ ctx _ _ _ | ServerEncrypt _ _ ctx _ _ =>
      is_ctx h ctx
  | _ => True
  end.
Definition ctx_of (call : CCall) : ptr :=
  match call with
  | AttestHandshake _ ctx _ | ConfidentialChat _ _ ctx _ _ _ | ServerHandshake _ ctx _ | ServerDecrypt _ _ ctx _ _ _ | ServerEncrypt _ _ ctx _ _ => ctx
  | _ => None
  end.

(** At most the context changed. *)
Definition ctx_step (h : Heap) (ctx : ptr) (h1 : Heap) : Prop :=
  h1 = h ∨ ∃ a c c', ctx = Some a ∧ h !! a = Some (CtxObj c) ∧ h1 = <[a := CtxObj c']> h.
(** What a call does to the heap. *)
Definition effect (h : Heap) (call : CCall) (p : ptr) (h' : Heap) : Prop :=
  match call with
  | CtxNew _ => ∃ a c, p = Some a ∧ h !! a = None ∧ h' = <[a := CtxObj c]> h
  | CtxFree q | FreeString q => p = None ∧ h' = match q with Some a => delete a h | None => h end
  | _ => ∃ h1, ctx_step h (ctx_of call) h1 ∧ returns_string h1 p h'
  end.

Section safety.
Context {W : Type} (send : wire W).
Context {CT : ClientText} {ShJ : ShareJson} {SP : SfvPrim} {HJ : HeaderJson} {UP : UuidPrim} {UR : UriParts} {CJ : CiphertextJson}.
Context {AP : AeadPrim} {HaP : HashPrim} {HP : HkdfPrim} {MP : HmacPrim} {KP : KexPrim} {DF : DebugFmt} {XP : HexPrim} {BP : Base64Prim}.
Context (mldsa_verify : bytes → bytes → bytes → bool) (allow : option string) (show : ClientError → string) (show_build : ClientBuildError → string).
Context {R : Type} {LJ : ChatJson R} (zk_verify : R → bytes → result ZkError ZkOutput) {FJ : FfiJson}.
Context (bld : Build) (avail : ProviderKind → bool) (hardware : ProviderKind → TeeProvider) (make : BuiltClient → OpenHttpaClient).

Definition run_call (call : CCall) : ffi W ptr :=
  match call with
  | CtxNew rt => openhttpa_ctx_new bld avail hardware rt
  | CtxFree ctx => _ ← openhttpa_ctx_free ctx; mret None
  | Version ver => openhttpa_version ver
  | ParseAtbId p => openhttpa_parse_atb_id p
  | AttestHandshake e ctx uri => openhttpa_attest_handshake send mldsa_verify allow bld avail make e ctx uri
  | ConfidentialChat e ce ctx uri model msgs =>
      openhttpa_confidential_chat send mldsa_verify allow show show_build zk_verify bld avail make e ce ctx uri model msgs
  | ServerHandshake env ctx json => openhttpa_server_handshake env ctx json
  | ServerDecrypt t0 t1 ctx i n ct => openhttpa_server_decrypt t0 t1 ctx i n ct
  | ServerEncrypt t0 t1 ctx i pt => openhttpa_server_encrypt t0 t1 ctx i pt
  | FreeString p => _ ← openhttpa_free_string p; mret None
  end.

Abbreviation string_effect h ctx := (λ (p : ptr) (h' : Heap), ∃ h1, ctx_step h ctx h1 ∧ returns_string h1 p h').

Lemma runs_null_effect h ctx : runs (W := W) h (mret None) (string_effect h ctx).
Proof using. apply runs_ret. exists h. split; [by left|by left]. Qed.
Lemma runs_raw_effect h ctx s : runs (W := W) h (into_raw s) (string_effect h ctx).
Proof using. eapply runs_mono; [apply runs_into_raw|]. intros p h' Hp. exists h. split; [by left|done]. Qed.
(** The context is stored, then a string is returned. *)
Lemma runs_store_effect h a c c' (k : ffi W ptr) :
  h !! a = Some (CtxObj c) → runs (<[a := CtxObj c']> h) k (returns_string (<[a := CtxObj c']> h)) →
  runs h (_ ← store (Some a) (CtxObj c'); k) (string_effect h (Some a)).
Proof using.
  intros Ha Hk. eapply (runs_bind _ _ _ (λ _ h', h' = <[a := CtxObj c']> h)); [by apply runs_store|]. intros _ h' ->.
  eapply runs_mono; [exact Hk|]. intros p h' Hp. exists (<[a := CtxObj c']> h). split; [|done]. right. by exists a, c, c'.
Qed.

Lemma server_handshake_runs h env ctx json :
  is_ctx h ctx → or_null (is_str h) json → runs h (openhttpa_server_handshake (W := W) env ctx json) (string_effect h ctx).
Proof using.
  intros (a & c & -> & Ha) Hj. unfold openhttpa_server_handshake. destruct Hj as [-> |Hj]; [apply runs_null_effect|].
  destruct json as [j|]; [|apply runs_null_effect].
  eapply (runs_bind _ _ _ (λ _ h', h' = h)); [by apply runs_load_str|]. intros s h' ->.
  case_match; [|apply runs_null_effect].
  eapply (runs_bind _ _ _ (λ c' h', c' = c ∧ h' = h)); [by eapply runs_load_ctx|]. intros c' h' [-> ->].
  eapply (runs_bind _ _ _ (λ _ h', h' = h)); [by apply runs_rust|]. intros [[[[suite version] share] res]|e] h' ->; [|apply runs_null_effect].
  destruct (AtbRegistry.insert _ _) as [ins reg]. eapply runs_store_effect; [exact Ha|]. destruct ins; [apply runs_into_raw|apply runs_null].
Qed.

Lemma in_session_runs h ctx i x f t0 :
  is_ctx h ctx → is_str h i → is_str h x → runs h (in_session (W := W) t0 ctx i x f) (string_effect h ctx).
Proof using.
  intros (a & c & -> & Ha) Hi Hx. unfold in_session. eapply (runs_bind _ _ _ (λ _ h', h' = h)); [by apply runs_load_str|]. intros s h' ->. cbv zeta.
  destruct (uuid_parse _) as [u|]; [|apply runs_null_effect].
  eapply (runs_bind _ _ _ (λ _ h', h' = h)); [by apply runs_load_str|]. intros y h' ->. destruct (hex_decode _) as [v|]; [|apply runs_null_effect].
  eapply (runs_bind _ _ _ (λ c' h', c' = c ∧ h' = h)); [by eapply runs_load_ctx|]. intros c' h' [-> ->].
  destruct (AtbRegistry.get _ _ _) as [[sess|] reg].
  - destruct (f _ _ _) as [r sess']. eapply runs_store_effect; [exact Ha|]. destruct r; [apply runs_into_raw|apply runs_null].
  - eapply runs_store_effect; [exact Ha|apply runs_null].
Qed.

Lemma attest_handshake_runs h e ctx uri :
  is_ctx h ctx → or_null (is_str h) uri →
  runs h (openhttpa_attest_handshake send mldsa_verify allow bld avail make e ctx uri) (string_effect h ctx).
Proof using.
  intros (a & c & -> & Ha) Hu. unfold openhttpa_attest_handshake. destruct Hu as [-> |Hu]; [apply runs_null_effect|].
  destruct uri as [u|]; [|apply runs_null_effect].
  eapply (runs_bind _ _ _ (λ _ h', h' = h)); [by apply runs_load_str|]. intros s h' ->. destruct (ffi_parse_uri _) as [v|]; [|apply runs_null_effect].
  eapply (runs_bind _ _ _ (λ _ h', h' = h)); [by apply runs_rust|]. intros built h' ->.
  eapply (runs_bind _ _ _ (λ c' h', h' = h)); [by eapply runs_load_ctx|]. intros c' h' ->.
  eapply (runs_bind _ _ _ (λ _ h', h' = h)); [by apply runs_rust|]. intros [session|err] h' ->; [apply runs_raw_effect|apply runs_null_effect].
Qed.

(** A chat does not change the context. *)
Lemma chat_keeps h e ce ctx uri model msgs :
  is_ctx h ctx → or_null (is_str h) uri → or_null (is_str h) model → or_null (is_str h) msgs →
  runs h (openhttpa_confidential_chat send mldsa_verify allow show show_build zk_verify bld avail make e ce ctx uri model msgs) (returns_string h).
Proof using.
  intros (a & c & -> & Ha) Hu Hm Hj. unfold openhttpa_confidential_chat.
  destruct Hu as [-> |Hu]; [apply runs_null|]. destruct uri as [u|]; [|apply runs_null].
  destruct Hm as [-> |Hm]; [apply runs_null|]. destruct model as [m|]; [|apply runs_null].
  destruct Hj as [-> |Hj]; [apply runs_null|]. destruct msgs as [j|]; [|apply runs_null].
  do 3 (eapply (runs_bind _ _ _ (λ _ h', h' = h)); [by apply runs_load_str|]; intros ? ? ->).
  destruct (ffi_parse_uri _) as [v|]; [|apply runs_null]. destruct (parse_message_pairs _) as [raw|]; [|apply runs_null].
  eapply (runs_bind _ _ _ (λ c' h', h' = h)); [by eapply runs_load_ctx|]. intros c' h' ->.
  eapply (runs_bind _ _ _ (λ _ h', h' = h)); [by apply runs_rust|]. intros [reply|err] h' ->; [apply runs_into_raw|apply runs_null].
Qed.
Lemma chat_runs h e ce ctx uri model msgs :
  is_ctx h ctx → or_null (is_str h) uri → or_null (is_str h) model → or_null (is_str h) msgs →
  runs h (openhttpa_confidential_chat send mldsa_verify allow show show_build zk_verify bld avail make e ce ctx uri model msgs) (string_effect h ctx).
Proof using. intros Hc Hu Hm Hj. eapply runs_mono; [by apply chat_keeps|]. intros p h' Hp. exists h. split; [by left|done]. Qed.

Lemma parse_atb_id_runs h p : or_null (is_str h) p → runs (W := W) h (openhttpa_parse_atb_id p) (string_effect h None).
Proof using.
  intros Hp. unfold openhttpa_parse_atb_id. destruct Hp as [-> |Hp]; [apply runs_null_effect|]. destruct p as [q|]; [|apply runs_null_effect].
  eapply (runs_bind _ _ _ (λ _ h', h' = h)); [by apply runs_load_str|]. intros s h' ->.
  destruct (uuid_parse _); [apply runs_raw_effect|apply runs_null_effect].
Qed.

Lemma ctx_free_runs h p : or_null (is_ctx h) p →
  runs (W := W) h (openhttpa_ctx_free p) (λ _ h', h' = match p with Some a => delete a h | None => h end).
Proof using.
  intros [-> |(a & c & -> & Ha)]; [by apply runs_ret|]. unfold openhttpa_ctx_free.
  eapply (runs_bind _ _ _ (λ _ h', h' = h)); [by eapply runs_load_ctx|]. intros c' h' ->. by apply runs_dispose.
Qed.
Lemma ctx_new_runs h rt : runs (W := W) h (openhttpa_ctx_new bld avail hardware rt) (effect h (CtxNew rt)).
Proof using.
  unfold openhttpa_ctx_new. eapply (runs_bind _ _ _ (λ _ h', h' = h)); [by apply runs_rust|]. intros _ h' ->. eapply (runs_bind _ _ _ (λ _ h', h' = h)); [by apply runs_rust|]. intros [kind|err] h' ->; [|done].
  eapply (runs_bind _ _ _ (λ a h', ∃ c, h !! a = None ∧ h' = <[a := CtxObj c]> h)); [apply runs_alloc; eauto|].
  intros a h' (c & Ha & ->). apply runs_ret. by exists a, c.
Qed.

End safety.

(** [C38] The C interface is memory-safe: a call whose pointers are what the documentation
    asks for and whose context, of which the documentation says nothing, is valid never has
    undefined behaviour (it returns, or a panic aborts the process), and when it returns, its
    only effects on the heap are a new string that it returns, a new or freed object, and a
    change of the context that it was given; every other object, in particular every string
    that the caller still holds, is as it was.  The documented conditions alone are not
    enough ([null_context_undefined]). *)
Theorem c_api_safe {W : Type} (send : wire W)
    {CT : ClientText} {ShJ : ShareJson} {SP : SfvPrim} {HJ : HeaderJson} {UP : UuidPrim} {UR : UriParts} {CJ : CiphertextJson}
    {AP : AeadPrim} {HaP : HashPrim} {HP : HkdfPrim} {MP : HmacPrim} {KP : KexPrim} {DF : DebugFmt} {XP : HexPrim} {BP : Base64Prim}
    (mldsa_verify : bytes → bytes → bytes → bool) (allow : option string) (show : ClientError → string) (show_build : ClientBuildError → string)
    {R : Type} {LJ : ChatJson R} (zk_verify : R → bytes → result ZkError ZkOutput) {FJ : FfiJson}
    (bld : Build) (avail : ProviderKind → bool) (hardware : ProviderKind → TeeProvider) (make : BuiltClient → OpenHttpaClient)
    (h : Heap) (call : CCall) :
  documented h call → valid_context h call →
  runs h (run_call send mldsa_verify allow show show_build zk_verify bld avail hardware make call) (effect h call).
Proof.
  destruct call as [rt|ctx|ver|p|e ctx uri|e ce ctx uri model msgs|env ctx json|t0 t1 ctx i n ct|t0 t1 ctx i pt|p]; cbn [documented valid_context run_call].
  - intros _ _. apply ctx_new_runs.
  - intros Hc _. eapply runs_bind; [by apply ctx_free_runs|]. intros _ h' ->. by apply runs_ret.
  - intros _ _. apply runs_raw_effect.
  - intros Hp _. by apply parse_atb_id_runs.
  - intros Hu Hc. by apply attest_handshake_runs.
  - intros (Hu & Hm & Hj) Hc. by apply chat_runs.
  - intros Hj Hc. by apply server_handshake_runs.
  - intros [Hi Hx] Hc. by apply in_session_runs.
  - intros [Hi Hx] Hc. by apply in_session_runs.
  - intros Hp _. eapply runs_bind; [by apply free_runs|]. intros _ h' ->. by apply runs_ret.
Qed.

(** The documentation of the server's handshake does not ask for a valid context; with a
    null one, and every documented condition met, a request that parses is undefined
    behaviour. *)
Theorem null_context_undefined {W : Type} {UP : UuidPrim} {AP : AeadPrim} {HaP : HashPrim} {HP : HkdfPrim} {KP : KexPrim} {DF : DebugFmt} {XP : HexPrim}
    {FJ : FfiJson} (h : Heap) (w : W) (env : ServerEnv) (a : positive) (s : bytes) (b : HandshakeBody) (request : AtHsRequest) :
  h !! a = Some (CString s) → parse_handshake_body (text_or EmptyString s) = Some b → ffi_request b = Some request →
  documented h (ServerHandshake env None (Some a)) ∧ openhttpa_server_handshake env None (Some a) h w = UB.
Proof.
  intros Ha Hb Hr. split; [right; exists a, s; by auto|]. unfold openhttpa_server_handshake, load_str, load, mbind, ffi_bind. cbn. rewrite Ha. cbn. rewrite Hb. cbn. by rewrite Hr.
Qed.

(** The client of the bindings is built without a verifier: in a release build that panics,
    which aborts the process, before anything is sent. *)
Theorem release_bindings_abort (bld : Build) (avail : ProviderKind → bool) (uri : string) :
  debug_build bld = false → build_client bld avail (binding_builder uri) = Panics.
Proof.
  intros Hd. unfold build_client, try_build. cbn [b_server_uri binding_builder require_preflight with_server_uri].
  destruct (choose_provider _ _ _) as [[p|e]|]; [|done..]. cbn [mbind outcome_bind result_bind]. unfold choose_verifier. cbn [b_verifier]. by rewrite Hd, andb_false_r.
Qed.

(** ** The Go package *)

Fixpoint until_nul (s : bytes) : bytes :=
  match s with [] => [] | b :: s => if decide (b = NUL) then [] else b :: until_nul s end.

Section go_memory.
Context {W : Type}.

(** [C.free] on what [C.CString] allocated. *)
Definition c_free (p : ptr) : ffi W () := o ← load p; match o with CString _ => dispose p | _ => undefined end.
(** [C.CString] and the deferred [C.free]; the text ends at its first zero byte. *)
Definition with_cstring {A} (s : string) (k : ptr → ffi W A) : ffi W A :=
  a ← alloc (CString (until_nul (as_bytes s))); r ← k (Some a); _ ← c_free (Some a); mret r.
(** [C.GoString] and the deferred [openhttpa_free_string]. *)
Definition go_take (r : ptr) (err : string) : ffi W (result string string) :=
  match r with
  | None => mret (Err err)
  | Some _ => s ← load_str r; _ ← openhttpa_free_string r; mret (Ok (string_of_list_ascii s))
  end.

End go_memory.

Section go.
Context {W : Type} (send : wire W).
Context {CT : ClientText} {ShJ : ShareJson} {SP : SfvPrim} {HJ : HeaderJson} {UP : UuidPrim} {UR : UriParts} {CJ : CiphertextJson}.
Context {AP : AeadPrim} {HaP : HashPrim} {HP : HkdfPrim} {MP : HmacPrim} {KP : KexPrim} {DF : DebugFmt} {XP : HexPrim} {BP : Base64Prim}.
Context (mldsa_verify : bytes → bytes → bytes → bool) (allow : option string) (show : ClientError → string) (show_build : ClientBuildError → string).
Context {R : Type} {LJ : ChatJson R} (zk_verify : R → bytes → result ZkError ZkOutput) {FJ : FfiJson}.
Context (bld : Build) (avail : ProviderKind → bool) (make : BuiltClient → OpenHttpaClient).

Definition ErrHandshakeFailed : string := "openhttpa: handshake failed".
Definition ErrChatFailed : string := "openhttpa: chat request failed".

Definition go_AttestHandshake (e : ClientEnv) (ctx : ptr) (serverURI : string) : ffi W (result string string) :=
  with_cstring serverURI (λ cURI,
    r ← openhttpa_attest_handshake send mldsa_verify allow bld avail make e ctx cURI; go_take r ErrHandshakeFailed).
(** [msgsJSON] is the outcome of [encodeMessages]. *)
Definition go_ConfidentialChat (e : ClientEnv) (ce : ChatEnv) (ctx : ptr) (serverURI model : string) (msgsJSON : result string string) : ffi W (result string string) :=
  match msgsJSON with
  | Err err => mret (Err err)
  | Ok msgs =>
      with_cstring serverURI (λ cURI, with_cstring model (λ cModel, with_cstring msgs (λ cMsgs,
        r ← openhttpa_confidential_chat send mldsa_verify allow show show_build zk_verify bld avail make e ce ctx cURI cModel cMsgs; go_take r ErrChatFailed)))
  end.
Definition go_ServerHandshake (env : ServerEnv) (ctx : ptr) (requestJSON : string) : ffi W (result string string) :=
  with_cstring requestJSON (λ cReq, r ← openhttpa_server_handshake env ctx cReq; go_take r ErrHandshakeFailed).
Definition go_ServerDecrypt (t0 t1 : Z) (ctx : ptr) (atbID : string) (nonce : Z) (ciphertextHex : string) : ffi W (result string string) :=
  with_cstring atbID (λ cID, with_cstring ciphertextHex (λ cCipher,
    r ← openhttpa_server_decrypt t0 t1 ctx cID nonce cCipher; go_take r "openhttpa: decryption failed")).
Definition go_ServerEncrypt (t0 t1 : Z) (ctx : ptr) (atbID plaintextHex : string) : ffi W (result string string) :=
  with_cstring atbID (λ cID, with_cstring plaintextHex (λ cPlain,
    r ← openhttpa_server_encrypt t0 t1 ctx cID cPlain; go_take r "openhttpa: encryption failed")).

End go.

(** *** No leaks *)

Section go_facts.
Context {W : Type}.

Lemma go_take_runs h ctx (m : ffi W ptr) err :
  runs h m (λ p h', ∃ h1, ctx_step h ctx h1 ∧ returns_string h1 p h') → runs h (r ← m; go_take r err) (λ _ h', ctx_step h ctx h').
Proof using.
  intros Hm. eapply runs_bind; [exact Hm|]. intros p h' (h1 & Hstep & [[-> ->]|(b & s & -> & Hb & ->)]); [by apply runs_ret|]. unfold go_take.
  assert (<[b := RustString s]> h1 !! b = Some (RustString s)) as Hs by apply lookup_insert_eq.
  eapply (runs_bind _ _ _ (λ _ h', h' = <[b := RustString s]> h1)); [apply runs_load_str; [by exists b, s; auto|done]|]. intros t h' ->.
  eapply runs_bind; [apply free_runs; right; by exists b, s|]. intros _ h' ->. apply runs_ret. by rewrite delete_insert_id.
Qed.

Lemma with_cstring_runs {A} h a c s (k : ptr → ffi W A) :
  h !! a = Some (CtxObj c) →
  (∀ b, h !! b = None → runs (<[b := CString (until_nul (as_bytes s))]> h) (k (Some b))
     (λ _ h', ctx_step (<[b := CString (until_nul (as_bytes s))]> h) (Some a) h')) →
  runs h (with_cstring s k) (λ _ h', ctx_step h (Some a) h').
Proof using.
  intros Ha Hk. set (o := CString (until_nul (as_bytes s))) in *. unfold with_cstring. fold o.
  eapply (runs_bind _ _ _ (λ b h', h !! b = None ∧ h' = <[b := o]> h)); [apply runs_alloc; by split|]. intros b h' [Hb ->].
  assert (b ≠ a) as Hne by (intros ->; congruence).
  eapply runs_bind; [by apply Hk|]. intros r h' Hstep.
  assert (h' !! b = Some o ∧ ctx_step h (Some a) (delete b h')) as [Ho Hdel].
  { destruct Hstep as [-> |(a' & c1 & c' & [= <-] & Hc1 & ->)].
    - rewrite lookup_insert_eq. split; [done|]. left. by apply delete_insert_id.
    - rewrite lookup_insert_ne, lookup_insert_eq by done. split; [done|]. right. exists a, c, c'. split_and!; [done..|].
      rewrite delete_insert_ne by done. by rewrite delete_insert_id. }
  eapply (runs_bind _ _ _ (λ _ h2, h2 = delete b h')); [|intros _ h2 ->; by apply runs_ret]. unfold c_free.
  eapply (runs_bind _ _ _ (λ o' h2, o' = o ∧ h2 = h')); [by eapply runs_load|]. intros o' h2 [-> ->]. by apply runs_dispose.
Qed.

Lemma is_str_insert (h : Heap) b s : is_str (<[b := CString s]> h) (Some b).
Proof using. exists b, s. split; [done|]. right. apply lookup_insert_eq. Qed.
Lemma is_str_insert_fresh (h : Heap) b o p : h !! b = None → is_str h p → is_str (<[b := o]> h) p.
Proof using. intros Hb (a & s & -> & Ha). exists a, s. split; [done|]. assert (b ≠ a) by naive_solver. by rewrite lookup_insert_ne. Qed.
Lemma ctx_insert_fresh (h : Heap) a c b o : h !! a = Some (CtxObj c) → h !! b = None → <[b := o]> h !! a = Some (CtxObj c).
Proof using. intros Ha Hb. assert (b ≠ a) by congruence. by rewrite lookup_insert_ne. Qed.

(** A call with two strings. *)
Lemma two_strings_runs h a c s1 s2 err (m : ptr → ptr → ffi W ptr) :
  h !! a = Some (CtxObj c) →
  (∀ h' p1 p2, h ⊆ h' → is_ctx h' (Some a) → is_str h' p1 → is_str h' p2 →
     runs h' (m p1 p2) (λ p h2, ∃ h1, ctx_step h' (Some a) h1 ∧ returns_string h1 p h2)) →
  runs h (with_cstring s1 (λ p1, with_cstring s2 (λ p2, r ← m p1 p2; go_take r err))) (λ _ h', ctx_step h (Some a) h').
Proof using.
  intros Ha Hm. eapply with_cstring_runs; [exact Ha|]. intros b Hb. assert (Ha1 := ctx_insert_fresh h a c b (CString (until_nul (as_bytes s1))) Ha Hb).
  eapply with_cstring_runs; [exact Ha1|]. intros b2 Hb2. apply go_take_runs, Hm.
  - etrans; by apply insert_subseteq.
  - exists a, c. split; [done|]. by apply ctx_insert_fresh.
  - apply is_str_insert_fresh; [done|apply is_str_insert].
  - apply is_str_insert.
Qed.

End go_facts.

(** The Go package neither leaks nor corrupts memory: each of its functions, called
    with the package's context, is defined, and afterwards the heap holds exactly what it
    held before, up to the state inside the context; every temporary string is freed by the
    allocator that made it. *)
Theorem go_leak_free {W : Type} (send : wire W)
    {CT : ClientText} {ShJ : ShareJson} {SP : SfvPrim} {HJ : HeaderJson} {UP : UuidPrim} {UR : UriParts} {CJ : CiphertextJson}
    {AP : AeadPrim} {HaP : HashPrim} {HP : HkdfPrim} {MP : HmacPrim} {KP : KexPrim} {DF : DebugFmt} {XP : HexPrim} {BP : Base64Prim}
    (mldsa_verify : bytes → bytes → bytes → bool) (allow : option string) (show : ClientError → string) (show_build : ClientBuildError → string)
    {R : Type} {LJ : ChatJson R} (zk_verify : R → bytes → result ZkError ZkOutput) {FJ : FfiJson}
    (bld : Build) (avail : ProviderKind → bool) (make : BuiltClient → OpenHttpaClient)
    (h : Heap) (a : positive) (c : OpenHttpaCtx) (e : ClientEnv) (ce : ChatEnv) (env : ServerEnv) (t0 t1 nonce : Z)
    (uri model json atb hex : string) (msgs : result string string) :
  h !! a = Some (CtxObj c) →
  let safe (m : ffi W (result string string)) := runs h m (λ _ h', h' = h ∨ ∃ c', h' = <[a := CtxObj c']> h) in
  safe (go_AttestHandshake send mldsa_verify allow bld avail make e (Some a) uri) ∧
  safe (go_ConfidentialChat send mldsa_verify allow show show_build zk_verify bld avail make e ce (Some a) uri model msgs) ∧
  safe (go_ServerHandshake env (Some a) json) ∧
  safe (go_ServerDecrypt t0 t1 (Some a) atb nonce hex) ∧ safe (go_ServerEncrypt t0 t1 (Some a) atb hex).
Proof.
  intros Ha safe. assert (∀ m, runs h m (λ _ h', ctx_step h (Some a) h') → safe m) as Hsafe.
  { intros m Hm. eapply runs_mono; [exact Hm|]. intros r h' [-> |(a' & c1 & c' & [= <-] & _ & ->)]; eauto. }
  assert (∀ h' b s, h' !! a = Some (CtxObj c) → h' !! b = None → is_ctx (<[b := CString s]> h') (Some a)) as Hctx.
  { intros h' b s Ha' Hb. exists a, c. split; [done|]. by apply ctx_insert_fresh. }
  split_and!; apply Hsafe.
  - eapply with_cstring_runs; [exact Ha|]. intros b Hb. apply go_take_runs, attest_handshake_runs; [by apply Hctx|right; apply is_str_insert].
  - destruct msgs as [m|err]; [|by apply runs_ret; left]. eapply with_cstring_runs; [exact Ha|]. intros b Hb.
    assert (Ha1 := ctx_insert_fresh h a c b (CString (until_nul (as_bytes uri))) Ha Hb).
    eapply two_strings_runs; [exact Ha1|]. intros h' p1 p2 Hsub Hc' H1 H2. apply chat_runs; [done|right|by right..].
    eexists b, _. split; [done|]. right. eapply lookup_weaken; [|exact Hsub]. apply lookup_insert_eq.
  - eapply with_cstring_runs; [exact Ha|]. intros b Hb. apply go_take_runs, server_handshake_runs; [by apply Hctx|right; apply is_str_insert].
  - eapply two_strings_runs; [exact Ha|]. intros. by apply in_session_runs.
  - eapply two_strings_runs; [exact Ha|]. intros. by apply in_session_runs.
Qed.

(** ** Sessions through the interface *)

Section sessions.
Context {W : Type} {UP : UuidPrim} {XP : HexPrim}.

Lemma runs_load_text (h : Heap) a s (Q : bytes → Heap → Prop) :
  h !! a = Some (RustString s) ∨ h !! a = Some (CString s) → Q s h → yields (W := W) h (load_str (Some a)) Q.
Proof using.
  intros Ha HQ. unfold load_str. eapply (runs_bind _ _ _ (λ o h', (o = RustString s ∨ o = CString s) ∧ h' = h)).
  - destruct Ha as [Ha|Ha]; (eapply runs_load; [exact Ha|]); eauto.
  - intros o h' [[-> | ->] ->]; by apply runs_ret.
Qed.
Lemma go_take_returns h h1 (m : ffi W ptr) err out :
  yields h m (λ p h', ∃ b, p = Some b ∧ h1 !! b = None ∧ h' = <[b := RustString out]> h1) →
  yields h (r ← m; go_take r err) (λ r h', r = Ok (string_of_list_ascii out) ∧ h' = h1).
Proof using.
  intros Hm. eapply runs_bind; [exact Hm|]. intros p h' (b & -> & Hb & ->). unfold go_take.
  eapply (runs_bind _ _ _ (λ s h', s = out ∧ h' = <[b := RustString out]> h1)); [eapply runs_load_text; [left; apply lookup_insert_eq|done]|].
  intros s h' [-> ->]. eapply runs_bind; [apply free_runs; right; exists b, out; split; [done|apply lookup_insert_eq]|].
  intros _ h' ->. apply runs_ret. split; [done|]. by apply delete_insert_id.
Qed.
Lemma with_cstring_returns {A} (h : Heap) a o s (k : ptr → ffi W A) (Q : A → Obj → Prop) :
  h !! a = Some o →
  (∀ b, h !! b = None → yields (<[b := CString (until_nul (as_bytes s))]> h) (k (Some b))
     (λ r h', ∃ o', Q r o' ∧ h' = <[a := o']> (<[b := CString (until_nul (as_bytes s))]> h))) →
  yields h (with_cstring s k) (λ r h', ∃ o', Q r o' ∧ h' = <[a := o']> h).
Proof using.
  intros Ha Hk. unfold with_cstring. set (os := CString (until_nul (as_bytes s))) in *.
  eapply (runs_bind _ _ _ (λ b h', h !! b = None ∧ h' = <[b := os]> h)); [apply runs_alloc; by split|]. intros b h' [Hb ->].
  assert (b ≠ a) as Hne by congruence. eapply runs_bind; [by apply Hk|]. intros r h' (o' & Hr & ->).
  eapply (runs_bind _ _ _ (λ _ h', h' = <[a := o']> h)); [|intros _ h' ->; apply runs_ret; by exists o']. unfold c_free.
  eapply (runs_bind _ _ _ (λ x h', x = os ∧ h' = <[a := o']> (<[b := os]> h))); [eapply runs_load; [|done]; by rewrite lookup_insert_ne, lookup_insert_eq|].
  intros x h' [-> ->]. apply runs_dispose. by rewrite delete_insert_ne, delete_insert_id.
Qed.
(** A call with two strings, from Go. *)
Lemma two_strings_returns {A} (h : Heap) a c s1 s2 (m : ptr → ptr → ffi W A) (Q : A → Obj → Prop) :
  h !! a = Some (CtxObj c) →
  (∀ h' p1 p2, h' !! a = Some (CtxObj c) → h' !! p1 = Some (CString (until_nul (as_bytes s1))) → h' !! p2 = Some (CString (until_nul (as_bytes s2))) →
     yields h' (m (Some p1) (Some p2)) (λ r h2, ∃ o', Q r o' ∧ h2 = <[a := o']> h')) →
  yields h (with_cstring s1 (λ p1, with_cstring s2 (m p1))) (λ r h', ∃ o', Q r o' ∧ h' = <[a := o']> h).
Proof using.
  intros Ha Hm. eapply with_cstring_returns; [exact Ha|]. intros b1 Hb1.
  assert (Ha1 := ctx_insert_fresh h a c b1 (CString (until_nul (as_bytes s1))) Ha Hb1).
  eapply with_cstring_returns; [exact Ha1|]. intros b2 Hb2. assert (b2 ≠ b1) as Hne by (intros ->; by rewrite lookup_insert_eq in Hb2).
  apply Hm; [by apply ctx_insert_fresh|by rewrite lookup_insert_ne, lookup_insert_eq|by apply lookup_insert_eq].
Qed.

(** A call on a session that is found and on which [f] succeeds. *)
Lemma in_session_returns (h : Heap) a c t0 p1 s1 p2 s2 i v sess f out sess' :
  let c' := set_ctx_registry c (AtbRegistry.update (ctx_registry c) i sess') in
  h !! a = Some (CtxObj c) → h !! p1 = Some (CString s1) → h !! p2 = Some (CString s2) →
  uuid_parse (text_or EmptyString s1) = Some i → hex_decode (text_or EmptyString s2) = Some v →
  AtbRegistry.get t0 (ctx_registry c) i = (Some sess, ctx_registry c) → f (text_or EmptyString s1) v sess = (Some out, sess') → NUL ∉ out →
  yields h (in_session (W := W) t0 (Some a) (Some p1) (Some p2) f)
    (λ p h', ∃ b, p = Some b ∧ <[a := CtxObj c']> h !! b = None ∧ h' = <[b := RustString out]> (<[a := CtxObj c']> h)).
Proof using.
  intros c' Ha H1 H2 Hi Hv Hget Hf Hout. unfold in_session.
  eapply (runs_bind _ _ _ (λ s h', s = s1 ∧ h' = h)); [eapply runs_load_text; [by right|done]|]. intros s h' [-> ->]. cbv zeta. rewrite Hi.
  eapply (runs_bind _ _ _ (λ s h', s = s2 ∧ h' = h)); [eapply runs_load_text; [by right|done]|]. intros s h' [-> ->]. rewrite Hv.
  eapply (runs_bind _ _ _ (λ x h', x = c ∧ h' = h)); [by eapply runs_load_ctx|]. intros x h' [-> ->]. rewrite Hget, Hf. fold c'.
  eapply (runs_bind _ _ _ (λ _ h', h' = <[a := CtxObj c']> h)); [by apply runs_store|]. intros _ h' ->. unfold into_raw. rewrite decide_False by done.
  eapply (runs_bind _ _ _ (λ b h', <[a := CtxObj c']> h !! b = None ∧ h' = <[b := RustString out]> (<[a := CtxObj c']> h))); [apply runs_alloc; by split|].
  intros b h' [Hb ->]. apply runs_ret. by exists b.
Qed.

(** The same from Go. *)
Lemma go_in_session_runs (h : Heap) a c t0 atb hex i v sess f out sess' err :
  h !! a = Some (CtxObj c) →
  text_or EmptyString (until_nul (as_bytes atb)) = atb → text_or EmptyString (until_nul (as_bytes hex)) = hex →
  uuid_parse atb = Some i → hex_decode hex = Some v → AtbRegistry.get t0 (ctx_registry c) i = (Some sess, ctx_registry c) →
  f atb v sess = (Some out, sess') → NUL ∉ out →
  yields h (with_cstring atb (λ p1, with_cstring hex (λ p2, r ← in_session (W := W) t0 (Some a) p1 p2 f; go_take r err)))
    (λ r h', r = Ok (string_of_list_ascii out) ∧ h' = <[a := CtxObj (set_ctx_registry c (AtbRegistry.update (ctx_registry c) i sess'))]> h).
Proof using.
  intros Ha Ht1 Ht2 Hi Hv Hget Hf Hout. set (o := CtxObj _). eapply runs_mono.
  - eapply (two_strings_returns _ _ _ _ _ _ (λ r o', r = Ok (string_of_list_ascii out) ∧ o' = o)); [exact Ha|]. intros h' p1 p2 Ha' H1 H2.
    eapply runs_mono; [eapply go_take_returns, in_session_returns; [exact Ha'|exact H1|exact H2|rewrite ?Ht1, ?Ht2; done..]|].
    intros r h2 [-> ->]. by exists o.
  - by intros r h' (o' & [-> ->] & ->).
Qed.

(** A call whose closure returns nothing for the sessions of the registry fails. *)
Lemma go_in_session_fails (h : Heap) a c t0 atb hex f err :
  h !! a = Some (CtxObj c) →
  (∀ i s x v, AtbRegistry.sessions (ctx_registry c) !! i = Some s → (f x v s).1 = None) →
  yields h (with_cstring atb (λ p1, with_cstring hex (λ p2, r ← in_session (W := W) t0 (Some a) p1 p2 f; go_take r err)))
    (λ r h', ∃ c', r = Err err ∧ h' = <[a := CtxObj c']> h).
Proof using.
  intros Ha Hf. eapply runs_mono.
  - eapply (two_strings_returns _ _ _ _ _ _ (λ r o', r = Err err ∧ ∃ c', o' = CtxObj c')); [exact Ha|]. intros h' p1 p2 Ha' H1 H2.
    eapply (runs_bind _ _ _ (λ p h2, p = None ∧ ∃ c', h2 = <[a := CtxObj c']> h'));
      [|intros p h2 [-> [c' ->]]; apply runs_ret; exists (CtxObj c'); by eauto].
    assert (∃ c', h' = <[a := CtxObj c']> h') as Hsame by (exists c; by rewrite insert_id). unfold in_session.
    eapply (runs_bind _ _ _ (λ s h2, h2 = h')); [eapply runs_load_text; [by right|done]|]. intros s h2 ->. cbv zeta.
    destruct (uuid_parse _) as [i|]; [|by apply runs_ret].
    eapply (runs_bind _ _ _ (λ s h2, h2 = h')); [eapply runs_load_text; [by right|done]|]. intros x h2 ->. destruct (hex_decode _) as [v|]; [|by apply runs_ret].
    eapply (runs_bind _ _ _ (λ x h2, x = c ∧ h2 = h')); [by eapply runs_load_ctx|]. intros x' h2 [-> ->].
    destruct (AtbRegistry.get t0 (ctx_registry c) i) as [[sess|] reg] eqn:Hget.
    + assert (AtbRegistry.sessions (ctx_registry c) !! i = Some sess) as Hs.
      { revert Hget. unfold AtbRegistry.get. destruct (AtbRegistry.sessions _ !! i) as [s0|]; [|done]. by destruct (AttestSession.is_alive t0 s0); intros [= ->]. }
      specialize (Hf i sess (text_or EmptyString s) v Hs). destruct (f _ v sess) as [o sess']. cbn in Hf. subst o.
      eapply (runs_bind _ _ _ (λ _ h2, ∃ c', h2 = <[a := CtxObj c']> h')); [apply runs_store; eauto|]. intros _ h2 Hh2. by apply runs_ret.
    + eapply (runs_bind _ _ _ (λ _ h2, ∃ c', h2 = <[a := CtxObj c']> h')); [apply runs_store; eauto|]. intros _ h2 Hh2. by apply runs_ret.
  - intros r h' (o' & [-> [c' ->]] & ->). by exists c'.
Qed.

End sessions.

(** Text that headers may carry passes through C unchanged. *)
Lemma visible_no_nul s : forallb visible s = true → NUL ∉ s.
Proof.
  intros Hv Hin%list_elem_of_In. rewrite forallb_forall in Hv. specialize (Hv _ Hin). by vm_compute in Hv.
Qed.
Lemma until_nul_id s : NUL ∉ s → until_nul s = s.
Proof. induction s as [|b s IH]; [done|]. intros [Hb Hs]%not_elem_of_cons. cbn. rewrite decide_False by done. by rewrite IH. Qed.
Lemma visible_utf8 s : forallb visible s = true → utf8_valid s = true.
Proof.
  induction s as [|b s IH]; [done|]. cbn [forallb utf8_valid]. intros [Hb Hs]%andb_prop.
  assert (in_range 0 127 b = true) as ->; [|by apply IH]. unfold visible in Hb. unfold in_range. apply bool_decide_eq_true in Hb. apply bool_decide_eq_true. lia.
Qed.
Lemma visible_text s : forallb visible (as_bytes s) = true → text_or EmptyString (until_nul (as_bytes s)) = s.
Proof.
  intros Hv. rewrite until_nul_id by by apply visible_no_nul. unfold text_or. rewrite visible_utf8 by done. apply string_of_list_ascii_of_string.
Qed.

Section closures.
Context {AP : AeadPrim} {AL : AeadLaws AP} {UP : UuidPrim} {XP : HexPrim} {FJ : FfiJson}.

Lemma decrypted_sealed now ss msg ct :
  synced ss ss → ready now ss → client_counter ss < u64_max →
  AeadKey.seal_in_place (AeadKey.mk (client_write_key (keys ss)) Aes256Gcm) (build_aead_nonce (client_counter ss) (client_write_iv (keys ss)))
    (request_aad (id ss)) msg = Ok ct →
  decrypted now (client_counter ss) (uuid_to_string (id ss)) ct ss = (Some (as_bytes (hex_encode msg)), Exchange.committed ss (client_counter ss)).
Proof using AL.
  intros Hsync Hr Hc Hct. destruct (synced_keys_wf _ _ Hsync) as (_ & _ & Hk & _). destruct Hsync as [_ _ _ _ _ _ _ [Hpos _] [_ Hw]].
  unfold decrypted. rewrite (trr_fresh _ _ _ _ msg); [done|done|done|done|done|]. unfold ffi_open.
  assert (AeadKey.new Aes256Gcm (client_write_key (keys ss)) = Ok (AeadKey.mk (client_write_key (keys ss)) Aes256Gcm)) as -> by by apply AeadKey.new_wf.
  cbn [map_err mbind result_bind]. apply AeadKey.open_seal_iff in Hct. unfold request_aad in Hct. by rewrite Hct.
Qed.
Lemma encrypted_opens now ss msg :
  synced ss ss → ready now ss → server_counter ss < u64_max → Z.of_nat (length msg) ≤ 2 ^ 36 - 32 →
  ∃ ct, AeadKey.open_in_place (AeadKey.mk (server_write_key (keys ss)) Aes256Gcm) (build_aead_nonce (server_counter ss) (server_write_iv (keys ss)))
      (request_aad (id ss)) ct = Ok msg ∧
    encrypted now (uuid_to_string (id ss)) msg ss = (Some (encrypted_to_string (hex_encode ct) (server_counter ss)), Exchange.answered ss).
Proof using AL.
  intros Hsync Hr Hc Hlen. destruct (synced_keys_wf _ _ Hsync) as (_ & _ & _ & Hk & _ & Hiv & _).
  destruct (AeadKey.seal_total (AeadKey.mk (server_write_key (keys ss)) Aes256Gcm) (build_aead_nonce (server_counter ss) (server_write_iv (keys ss)))
    (request_aad (id ss)) msg) as [ct Hct]; [done|done|]. exists ct. split; [by apply AeadKey.open_seal_iff|].
  unfold encrypted. rewrite trs_ready by done. unfold ffi_seal.
  assert (AeadKey.new Aes256Gcm (server_write_key (keys ss)) = Ok (AeadKey.mk (server_write_key (keys ss)) Aes256Gcm)) as -> by by apply AeadKey.new_wf.
  cbn [map_err mbind result_bind]. unfold request_aad in Hct. by rewrite Hct.
Qed.

Context {W : Type} {UL : UuidLaws UP} {XL : HexLaws XP}.
Context (h : Heap) (a : positive) (c : OpenHttpaCtx) (ss : SessionInner) (t0 t1 : Z) (msg : bytes).
Context (Ha : h !! a = Some (CtxObj c)) (Hreg : AtbRegistry.sessions (ctx_registry c) !! id ss = Some ss) (Hsync : synced ss ss).
Context (Hr0 : ready t0 ss) (Hr1 : ready t1 ss).
Abbreviation kept ss' := (set_ctx_registry c (AtbRegistry.update (ctx_registry c) (id ss) ss')).

Lemma ready_get : AtbRegistry.get t0 (ctx_registry c) (id ss) = (Some ss, ctx_registry c).
Proof using Hreg Hr0.
  unfold AtbRegistry.get. rewrite Hreg. unfold AttestSession.is_alive. destruct Hr0 as [Hnow _]. by rewrite bool_decide_true.
Qed.

(** A server written in Go serves a client of the session: [ServerDecrypt] returns, as
    hexadecimal, exactly the body that the client sealed under the session's next nonce ... *)
Lemma go_decrypts ct :
  client_counter ss < u64_max →
  AeadKey.seal_in_place (AeadKey.mk (client_write_key (keys ss)) Aes256Gcm)
     (build_aead_nonce (client_counter ss) (client_write_iv (keys ss))) (request_aad (id ss)) msg = Ok ct →
  yields h (go_ServerDecrypt (W := W) t0 t1 (Some a) (uuid_to_string (id ss)) (client_counter ss) (hex_encode ct))
    (λ r h', r = Ok (hex_encode msg) ∧ h' = <[a := CtxObj (kept (Exchange.committed ss (client_counter ss)))]> h).
Proof using AL UL XL Ha Hreg Hsync Hr0 Hr1.
  intros Hcc Hct. eapply runs_mono; [eapply go_in_session_runs; [exact Ha|apply visible_text, uuid_to_str|apply visible_text, hex_visible| | | | |]|].
  - apply uuid_parse_to_string, Hsync.
  - apply hex_decode_encode.
  - apply ready_get.
  - by apply decrypted_sealed.
  - apply visible_no_nul, hex_visible.
  - cbn beta. intros r h' [-> ->]. by rewrite string_of_list_ascii_of_string.
Qed.

(** ... and [ServerEncrypt] returns a ciphertext that opens under the client's keys to the
    given body, with the nonce that it was sealed under. *)
Lemma go_encrypts :
  server_counter ss < u64_max → Z.of_nat (length msg) ≤ 2 ^ 36 - 32 → (∀ x n, NUL ∉ encrypted_to_string x n) →
  ∃ ct, AeadKey.open_in_place (AeadKey.mk (server_write_key (keys ss)) Aes256Gcm)
      (build_aead_nonce (server_counter ss) (server_write_iv (keys ss))) (request_aad (id ss)) ct = Ok msg ∧
    yields h (go_ServerEncrypt (W := W) t0 t1 (Some a) (uuid_to_string (id ss)) (hex_encode msg))
      (λ r h', r = Ok (string_of_list_ascii (encrypted_to_string (hex_encode ct) (server_counter ss))) ∧
        h' = <[a := CtxObj (kept (Exchange.answered ss))]> h).
Proof using AL UL XL Ha Hreg Hsync Hr0 Hr1.
  intros Hsc Hlen Hnul. destruct (encrypted_opens t1 ss msg) as (ct & Hopen & Henc); [done..|]. exists ct. split; [done|].
  eapply go_in_session_runs; [exact Ha|apply visible_text, uuid_to_str|apply visible_text, hex_visible| | |apply ready_get|exact Henc|apply Hnul].
  - apply uuid_parse_to_string, Hsync.
  - apply hex_decode_encode.
Qed.

(** A nonce of zero, which is also what a caller that has none passes, opens nothing. *)
Lemma decrypted_zero now i v s : 0 ≤ strict_last_seen s → decrypted now 0 i v s = (None, s).
Proof using.
  intros Hs. unfold decrypted, AttestSession.with_keys_for_trr. case_decide; [done|]. destruct (allows_trusted_request (phase s)); [cbn [negb]|done].
  unfold AttestSession.replay_check. destruct (replay_strategy s); [by rewrite decide_True by lia|done].
Qed.

End closures.

(** ** Witnesses *)

Module ToyFfi.
#[global] Instance json : FfiJson := {|
  ffi_parse_uri s := Some s; parse_handshake_body s := Some (mk_body s s s s); parse_message_pairs _ := Some [];
  answer_to_string a := as_bytes (sa_base_id a); encrypted_to_string _ _ := as_bytes "encrypted" |}.
Definition send : wire () := λ w _, (Err Cancelled, w).
Definition context : OpenHttpaCtx := mk_ctx ToyExchange.registry Demo.executor (λ _, Err EmptyString).
Definition id_string : bytes := as_bytes (uuid_to_string (UuidPrim := ToyWeb.uuid) ToyExchange.sid).
Definition heap : Heap := <[1%positive := CtxObj context]> (<[2%positive := RustString id_string]> {[3%positive := CString (as_bytes "00")]}).
Abbreviation ct := (AeadKey.seal_in_place (AeadKey.mk (client_write_key ToyExchange.keys) Aes256Gcm)
  (build_aead_nonce 1 (client_write_iv ToyExchange.keys)) (request_aad ToyExchange.sid) (as_bytes "hello")).
End ToyFfi.

Lemma c_api_safe_witness :
  runs ToyFfi.heap (openhttpa_server_decrypt (W := ()) (AP := Toy.aead) (UP := ToyWeb.uuid) (XP := ToyWeb.hex) 10 20 (Some 1%positive) (Some 2%positive) 1 (Some 3%positive))
    (effect ToyFfi.heap (ServerDecrypt 10 20 (Some 1%positive) (Some 2%positive) 1 (Some 3%positive))).
Proof.
  apply (c_api_safe ToyFfi.send (CT := ToyWire.text) (ShJ := ToyWire.client_json) (SP := ToySfv.prim) (HJ := ToyHeaders.json) (UP := ToyWeb.uuid)
    (UR := ToyLlm.parts) (CJ := ToyExchange.json) (AP := Toy.aead) (HaP := Toy.hash) (HP := Toy.hkdf) (MP := Toy.hmac) (KP := ToyKex.prim)
    (DF := Demo.debug) (XP := ToyWeb.hex) (BP := ToyBase64.prim) (λ _ _ _, true) None (λ _, EmptyString) (λ _, EmptyString)
    (LJ := ToyLlm.json) ToyLlm.zk_verify (FJ := ToyFfi.json) DemoTee.release (λ _, true) (λ _ _, Err EmptyString) (λ _, ToyWire.client true)
    ToyFfi.heap (ServerDecrypt 10 20 (Some 1%positive) (Some 2%positive) 1 (Some 3%positive))).
  - split; [exists 2%positive, ToyFfi.id_string; split; [reflexivity|by left]|].
    exists 3%positive, (as_bytes "00"). split; [reflexivity|by right].
  - by exists 1%positive, ToyFfi.context.
Defined.
