(* ===== verification/Runtimes.v ===== *)
(** * The bindings for Python, Node.js, Java and .NET

    [bindings/python/src/lib.rs], [bindings/nodejs/src/lib.rs], [bindings/java/src/lib.rs],
    [bindings/dotnet/OpenHttpaClient.cs] and [bindings/go/encode.go].  The first three call the
    Rust crates; .NET and Go call the C interface of [Cffi], whose heap they share.

    An exception is an error value.  A panic of Rust is [Panics] in the functions that call the
    crates, and aborts the process where it passes the C interface (.NET, Go).  The runtime of
    tokio is an argument where a call makes it (Python, .NET); Java's, made once, is
    taken to exist. *)

From S2P Require Import Prelude ReplayWindow Nonce Crypto Aead Proto State KeySchedule Attestation Tee Session KeyExchange Handshake.
From S2P Require Import Http Oblivious Ahl Trailers Sfv Headers Registry Stream Middleware Client Extractors Exchange Handlers HandshakeWire ClientCall A2a Mcp Zk Llm Ws Cffi.
From stdpp Require Import options.

#[local] Open Scope Z_scope.
#[local] Set Warnings "-register-all".

(** ** Messages *)

Definition py_parse_messages (messages : list (string * string)) : list ChatMessage :=
  (λ '(role, content), mk_chat_message (parse_role role) content) <$> messages.

(** An element that is not a pair is dropped. *)
Definition node_pair (pair : list string) : option ChatMessage :=
  match pair with [role; content] => Some (mk_chat_message (parse_role role) content) | _ => None end.
Definition node_parse_messages (messages : list (list string)) : list ChatMessage := omap node_pair messages.

(** [encoding/json] and [System.Text.Json] on lists of lists of strings, where C# also has
    null. *)
Class MessagesJson : Type := {
  go_marshal : list (string * string) → result string string;
  net_serialize : list (list (option string)) → string;
}.
(** Rust reads what they write: texts that are UTF-8, without a zero byte in the output. *)
Definition utf8_pair (m : string * string) : bool := utf8_valid (as_bytes m.1) && utf8_valid (as_bytes m.2).
Definition c_text (s : string) : Prop := (NUL ∉ as_bytes s) ∧ utf8_valid (as_bytes s) = true.
Class MessagesJsonLaws (MJ : MessagesJson) (FJ : FfiJson) : Prop := {
  go_marshal_spec msgs : forallb utf8_pair msgs = true → ∃ s, go_marshal msgs = Ok s ∧ c_text s ∧ parse_message_pairs s = Some msgs;
  parse_empty_list : parse_message_pairs "[]" = Some [];
  net_serialize_spec role prompt : utf8_pair (role, prompt) = true →
    c_text (net_serialize [[Some role; Some prompt]]) ∧ parse_message_pairs (net_serialize [[Some role; Some prompt]]) = Some [(role, prompt)];
}.

Definition encodeMessages {MJ : MessagesJson} (messages : list (string * string)) : result string string :=
  if decide (length messages = 0%nat) then Ok "[]"%string else go_marshal messages.

(** [serde_json] on a value. *)
Class ValueJson : Type := { value_from_str : string → result string Value; value_to_string : Value → string }.

(** How .NET passes a string to C and reads one back: the code page of the system, UTF-8
    everywhere but on Windows. *)
Class AnsiText : Type := { ansi_encode : string → bytes; ansi_decode : bytes → string }.
Class AnsiUtf8 (AT : AnsiText) : Prop := { ansi_encode_utf8 s : utf8_valid (as_bytes s) = true → ansi_encode s = as_bytes s }.

Section bindings.
Context {W : Type} (send : wire W).
Context {CT : ClientText} {ShJ : ShareJson} {SP : SfvPrim} {HJ : HeaderJson} {UP : UuidPrim} {UR : UriParts} {CJ : CiphertextJson}.
Context {AP : AeadPrim} {HaP : HashPrim} {HP : HkdfPrim} {MP : HmacPrim} {KP : KexPrim} {DF : DebugFmt} {XP : HexPrim} {BP : Base64Prim}.
Context (mldsa_verify : bytes → bytes → bytes → bool) (allow : option string) (show : ClientError → string) (show_build : ClientBuildError → string).
Context {R : Type} {LJ : ChatJson R} (zk_verify : R → bytes → result ZkError ZkOutput) {FJ : FfiJson}.
Context (bld : Build) (avail : ProviderKind → bool) (hardware : ProviderKind → TeeProvider) (make : BuiltClient → OpenHttpaClient).
Context (show_llm : LlmError → string) (show_mcp : McpClientError → string) (uri_error : string → string).
Context {RJ : RpcJson} {VJ : ValueJson} {AJ : A2AJson Value} {MJ : MessagesJson} {AT : AnsiText}.

(** [server_uri.parse().map_err(..)] *)
Definition parse_server_uri (server_uri : string) : result string string :=
  ok_or (ffi_parse_uri server_uri) ("invalid URI: " +:+ uri_error server_uri)%string.

(** ** Python *)

Record PyOpenHttpaClient : Type := mk_py_client { py_inner : OpenHttpaClient; py_max_response : Z }.

(** [rt] is the outcome of [tokio::runtime::Runtime::new]. *)
Definition py_client_new (rt : result string ()) (server_uri : string) : outcome (result string PyOpenHttpaClient) :=
  match (uri ← parse_server_uri server_uri; _ ← rt; Ok uri) with
  | Err e => Returns (Err e)
  | Ok uri => built ← build_client bld avail (binding_builder uri); Returns (Ok (mk_py_client (make built) (built_max_response built)))
  end.
Definition py_attest_handshake (c : PyOpenHttpaClient) (e : ClientEnv) (w : W) : outcome (result string SessionInner) * W :=
  let '(r, w) := attest_handshake (handshake_send send) mldsa_verify allow (py_inner c) e w in
  (r ← r; Returns (map_err show r), w).
Definition py_atb_id (s : SessionInner) : string := uuid_to_string (Session.id s).
Definition py_trusted_request (c : PyOpenHttpaClient) (t0 t1 t2 : Z) (session : SessionInner) (method path : string) (body : bytes) (w : W)
    : result string bytes * SessionInner * W :=
  let '(r, s, w) := trusted_request_ext send (py_inner c) (py_max_response c) t0 t1 t2 session method path body None w in
  (map_err show r, s, w).

Definition py_llm_new (rt : result string ()) (server_uri model : string) (e : ClientEnv) (w : W) : outcome (result string ConfidentialLlmClient) * W :=
  match (uri ← parse_server_uri server_uri; _ ← rt; Ok uri) with
  | Err m => (Returns (Err m), w)
  | Ok uri =>
      let '(r, w) := build_llm send mldsa_verify allow show make bld avail show_build (mk_llm_builder (Some uri) (Some model) None [] None false) e w in
      (r ← r; Returns (map_err show_llm r), w)
  end.
Definition py_chat (ce : ChatEnv) (c : ConfidentialLlmClient) (messages : list (string * string)) (w : W)
    : outcome (result string string) * ConfidentialLlmClient * W :=
  let '(r, c, w) := chat send mldsa_verify allow show zk_verify ce c (py_parse_messages messages) w in
  (r ← r; Returns (map_err show_llm r), c, w).

Definition py_mcp_new (rt : result string ()) (server_uri : string) : outcome (result string OpenHttpaClient) :=
  match rt with
  | Err e => Returns (Err e)
  | Ok _ =>
      r ← new_mcp_client (λ u, ok_or (ffi_parse_uri u) (uri_error u)) make bld avail show_build None server_uri;
      Returns (map_err show_mcp r)
  end.
(** The text of [params] is read as an [Option<Value>]: null is none. *)
Definition py_params (params : option string) : result string (option Value) :=
  match params with Some p => v ← value_from_str p; Ok (absent_null (Some v)) | None => Ok None end.
Definition py_mcp_call (c : OpenHttpaClient) (max : Z) (e : CallEnv) (request_id method : string) (params : option string) (w : W)
    : outcome (result string string) * W :=
  match py_params params with
  | Err m => (Returns (Err m), w)
  | Ok params_val =>
      let '(r, w) := call send mldsa_verify allow show c max e request_id method params_val w in
      (r ← r; Returns (res ← map_err show_mcp r; Ok (value_to_string res)), w)
  end.

(** [A2AAgent::new], with the mock provider, and no verifier. *)
Definition a2a_agent_new (mock : MockTeeProvider.t → TeeOps) (agent_id : string) : outcome (result string A2AAgent) :=
  p ← MockTeeProvider.default bld;
  r ← try_build bld avail (require_preflight (Oblivious.tee_provider (with_server_uri builder "http://127.0.0.1:8080") (mock p)));
  Returns (built ← map_err show_build r; Ok (mk_a2a_agent agent_id (make built) (built_max_response built))).
Definition py_agent_new (rt : result string ()) (mock : MockTeeProvider.t → TeeOps) (agent_id : string) : outcome (result string A2AAgent) :=
  match rt with Err e => Returns (Err e) | Ok _ => a2a_agent_new mock agent_id end.
Definition agent_message (agent_id message_type : string) (payload : Value) : A2AMessage Value :=
  mk_a2a_message agent_id "unknown" message_type payload 0.
Definition py_send_message (json_error : string) (a : A2AAgent) (e : CallEnv) (target_url message_type payload_json : string) (w : W)
    : outcome (result string ()) * W :=
  match value_from_str payload_json with
  | Err m => (Returns (Err m), w)
  | Ok payload => send_message send mldsa_verify allow show json_error a e target_url (agent_message (a2a_agent_id a) message_type payload) w
  end.

(** ** Node.js *)

Definition node_attest_handshake (e : ClientEnv) (server_uri : string) (w : W) : outcome (result string string) * W :=
  match parse_server_uri server_uri with
  | Err m => (Returns (Err m), w)
  | Ok uri =>
      match build_client bld avail (binding_builder uri) with
      | Panics => (Panics, w)
      | Returns built =>
          let '(r, w) := attest_handshake (handshake_send send) mldsa_verify allow (make built) e w in
          (r ← r; Returns (session ← map_err show r; Ok (uuid_to_string (Session.id session))), w)
      end
  end.
Definition node_confidential_chat (e : ClientEnv) (ce : ChatEnv) (server_uri model : string) (messages : list (list string)) (w : W)
    : outcome (result string string) * W :=
  match parse_server_uri server_uri with
  | Err m => (Returns (Err m), w)
  | Ok uri =>
      let msgs := node_parse_messages messages in
      match build_llm send mldsa_verify allow show make bld avail show_build (mk_llm_builder (Some uri) (Some model) None [] None false) e w with
      | (Panics, w) => (Panics, w)
      | (Returns (Err err), w) => (Returns (Err (show_llm err)), w)
      | (Returns (Ok client), w) =>
          let '(r, _, w) := chat send mldsa_verify allow show zk_verify ce client msgs w in
          (r ← r; Returns (map_err show_llm r), w)
      end
  end.
Definition node_mcp_call (max : Z) (e : CallEnv) (request_id server_uri method : string) (params : option Value) (w : W)
    : outcome (result string Value) * W :=
  match new_mcp_client (λ u, ok_or (ffi_parse_uri u) (uri_error u)) make bld avail show_build None server_uri with
  | Panics => (Panics, w)
  | Returns (Err err) => (Returns (Err (show_mcp err)), w)
  | Returns (Ok client) =>
      let '(r, w) := call send mldsa_verify allow show client max e request_id method params w in
      (r ← r; Returns (map_err show_mcp r), w)
  end.
Definition node_a2a_send_message (mock : MockTeeProvider.t → TeeOps) (json_error : string) (e : CallEnv)
    (agent_id target_url message_type : string) (payload : Value) (w : W) : outcome (result string ()) * W :=
  match a2a_agent_new mock agent_id with
  | Panics => (Panics, w)
  | Returns (Err m) => (Returns (Err m), w)
  | Returns (Ok agent) => send_message send mldsa_verify allow show json_error agent e target_url (agent_message agent_id message_type payload) w
  end.

(** ** Java *)

(** The strings may be null, which [get_string] refuses.  A panic reaches the boundary, an
    error is the exception that is thrown. *)
Definition java_chat (e : ClientEnv) (ce : ChatEnv) (endpoint model prompt : option string) (w : W) : outcome (result string string) * W :=
  match endpoint, model, prompt with
  | Some endpoint, Some _, Some prompt =>
      match ffi_parse_uri endpoint with
      | None => (Panics, w)
      | Some uri =>
          match build_llm send mldsa_verify allow show make bld avail show_build (mk_llm_builder (Some uri) None None [] None false) e w with
          | (Panics, w) => (Panics, w)
          | (Returns (Err err), w) => (Returns (Err (show_llm err)), w)
          | (Returns (Ok client), w) =>
              let '(r, _, w) := chat send mldsa_verify allow show zk_verify ce client [mk_chat_message User prompt] w in
              (r ← r; Returns (map_err show_llm r), w)
          end
      end
  | _, _, _ => (Panics, w)
  end.

(** ** .NET *)

(** A string argument, which may be null: copied for the call and freed after it. *)
Definition with_ansi {A} (s : option string) (k : ptr → ffi W A) : ffi W A :=
  match s with
  | None => k None
  | Some s => a ← alloc (CString (until_nul (ansi_encode s))); r ← k (Some a); _ ← c_free (Some a); mret r
  end.

(** The object is its field [_ctx]. *)
Definition net_new (rt : outcome ()) : ffi W (result string ptr) :=
  ctx ← openhttpa_ctx_new bld avail hardware rt;
  match ctx with None => mret (Err "Failed to initialize OpenHTTPA context"%string) | Some _ => mret (Ok ctx) end.
Definition net_Chat (e : ClientEnv) (ce : ChatEnv) (_ctx : ptr) (endpoint model prompt : option string) : ffi W (result string string) :=
  let messagesJson := net_serialize [[Some "user"%string; prompt]] in
  resultPtr ← with_ansi endpoint (λ u, with_ansi model (λ m, with_ansi (Some messagesJson) (λ j,
    openhttpa_confidential_chat send mldsa_verify allow show show_build zk_verify bld avail make e ce _ctx u m j)));
  match resultPtr with
  | None => mret (Err "Confidential chat request failed"%string)
  | Some _ => s ← load_str resultPtr; _ ← openhttpa_free_string resultPtr; mret (Ok (ansi_decode s))
  end.
Definition net_Dispose (_ctx : ptr) : ffi W ptr :=
  match _ctx with None => mret None | Some _ => _ ← openhttpa_ctx_free _ctx; mret None end.

(** ** Go *)

Definition go_Chat (e : ClientEnv) (ce : ChatEnv) (ctx : ptr) (serverURI model : string) (messages : list (string * string)) : ffi W (result string string) :=
  go_ConfidentialChat send mldsa_verify allow show show_build zk_verify bld avail make e ce ctx serverURI model (encodeMessages messages).

End bindings.

(** ** What the bindings have in common *)

(** One client, asked once; the reply, or nothing. *)
Section reference.
Context {W : Type} (send : wire W).
Context {CT : ClientText} {ShJ : ShareJson} {SP : SfvPrim} {HJ : HeaderJson} {UP : UuidPrim} {UR : UriParts} {CJ : CiphertextJson}.
Context {AP : AeadPrim} {HaP : HashPrim} {HP : HkdfPrim} {MP : HmacPrim} {KP : KexPrim} {DF : DebugFmt} {XP : HexPrim} {BP : Base64Prim}.
Context (mldsa_verify : bytes → bytes → bytes → bool) (allow : option string) (show : ClientError → string) (show_build : ClientBuildError → string).
Context {R : Type} {LJ : ChatJson R} (zk_verify : R → bytes → result ZkError ZkOutput) {FJ : FfiJson}.
Context (bld : Build) (avail : ProviderKind → bool) (hardware : ProviderKind → TeeProvider) (make : BuiltClient → OpenHttpaClient).
Context (show_llm : LlmError → string) (uri_error : string → string) {MJ : MessagesJson} {AT : AnsiText}.

Definition ok {E A} (r : result E A) : option A := match r with Ok a => Some a | Err _ => None end.
Definition reply_of {E} (x : outcome (result E string) * W) : outcome (option string) * W := (ok <$> x.1, x.2).
Definition ask (e : ClientEnv) (ce : ChatEnv) (server_uri model : string) (messages : list (string * string)) (w : W) : outcome (option string) * W :=
  match ffi_parse_uri server_uri with
  | None => (Returns None, w)
  | Some uri => reply_of (chat_once send mldsa_verify allow show show_build zk_verify bld avail make uri model (chat_messages messages) e ce w)
  end.

(** The same through C: a panic aborts, a reply with a zero byte is a failure, and the
    memory is as before. *)
Definition c_reply (x : outcome (option string) * W) : outcome (option string) * W :=
  ((λ r, s ← r; if decide (NUL ∈ as_bytes s) then None else Some s) <$> x.1, x.2).
Definition through_c (decode : bytes → string) (err : string) (h : Heap) (x : outcome (option string) * W) : ffi_result (result string string * Heap * W) :=
  match c_reply x with
  | (Panics, _) => Aborts
  | (Returns None, w) => Done (Err err, h, w)
  | (Returns (Some reply), w) => Done (Ok (decode (as_bytes reply)), h, w)
  end.

(** A Python program that makes a client and asks it once. *)
Definition py_ask (rt : result string ()) (e : ClientEnv) (ce : ChatEnv) (server_uri model : string) (messages : list (string * string)) (w : W)
    : outcome (result string string) * W :=
  match py_llm_new send mldsa_verify allow show show_build bld avail make show_llm uri_error rt server_uri model e w with
  | (Panics, w) => (Panics, w)
  | (Returns (Err m), w) => (Returns (Err m), w)
  | (Returns (Ok c), w) => let '(r, _, w) := py_chat send mldsa_verify allow show zk_verify show_llm ce c messages w in (r, w)
  end.

End reference.

(** ** Calls through C *)

Section calls.
Context {W : Type}.

(** From [h] the call returns a new string, or null, or aborts, as [x] says. *)
Definition gives (h : Heap) (w : W) (m : ffi W ptr) (x : outcome (option string) * W) : Prop :=
  match x with
  | (Panics, _) => m h w = Aborts
  | (Returns None, w') => m h w = Done (None, h, w')
  | (Returns (Some s), w') => ∃ b, h !! b = None ∧ m h w = Done (Some b, <[b := RustString (as_bytes s)]> h, w')
  end.
Definition at_heap {A} (h : Heap) (x : ffi_result (A * W)) : ffi_result (A * Heap * W) :=
  match x with UB => UB | Aborts => Aborts | Done (a, w) => Done (a, h, w) end.

Lemma string_of_as_bytes (s : string) : string_of_list_ascii (as_bytes s) = s.
Proof using. apply string_of_list_ascii_of_string. Qed.
Lemma c_text_read d (s : string) : c_text s → text_or d (until_nul (as_bytes s)) = s.
Proof using. intros [Hn Hu]. rewrite until_nul_id by done. unfold text_or. rewrite Hu. apply string_of_as_bytes. Qed.

Lemma alloc_bind {A} h w o (k : positive → ffi W A) : (alloc o ≫= k) h w = k (fresh (dom h)) (<[fresh (dom h) := o]> h) w.
Proof using. done. Qed.
Lemma fresh_dom (h : Heap) : h !! fresh (dom h) = None.
Proof using. apply not_elem_of_dom, is_fresh. Qed.
Lemma load_str_at (h : Heap) (w : W) b s : h !! b = Some (RustString s) ∨ h !! b = Some (CString s) → load_str (Some b) h w = Done (s, h, w).
Proof using. intros Hb. unfold load_str, load, mbind, ffi_bind. cbn. by destruct Hb as [-> | ->]. Qed.
Lemma load_ctx_at (h : Heap) (w : W) a c : h !! a = Some (CtxObj c) → load_ctx (Some a) h w = Done (c, h, w).
Proof using. intros Ha. unfold load_ctx, load, mbind, ffi_bind. cbn. by rewrite Ha. Qed.
Lemma free_string_at (h : Heap) (w : W) b s : h !! b = Some (RustString s) → openhttpa_free_string (Some b) h w = Done ((), delete b h, w).
Proof using. intros Hb. unfold openhttpa_free_string, load, mbind, ffi_bind. cbn. by rewrite Hb. Qed.
Lemma c_free_at (h : Heap) (w : W) b s : h !! b = Some (CString s) → c_free (Some b) h w = Done ((), delete b h, w).
Proof using. intros Hb. unfold c_free, load, mbind, ffi_bind. cbn. by rewrite Hb. Qed.
Lemma bind_done {A B} (m : ffi W A) (f : A → ffi W B) h w a h' w' : m h w = Done (a, h', w') → (m ≫= f) h w = f a h' w'.
Proof using. intros Hm. unfold mbind, ffi_bind. by rewrite Hm. Qed.
Lemma bind_aborts {A B} (m : ffi W A) (f : A → ffi W B) h w : m h w = Aborts → (m ≫= f) h w = Aborts.
Proof using. intros Hm. unfold mbind, ffi_bind. by rewrite Hm. Qed.
Lemma bind_UB {A B} (m : ffi W A) (f : A → ffi W B) h w : m h w = UB → (m ≫= f) h w = UB.
Proof using. intros Hm. unfold mbind, ffi_bind. by rewrite Hm. Qed.

(** A string for the duration of a call. *)
Lemma with_cstring_at {A} h w s (k : ptr → ffi W A) x :
  (∀ b, h !! b = None → k (Some b) (<[b := CString (until_nul (as_bytes s))]> h) w = at_heap (<[b := CString (until_nul (as_bytes s))]> h) x) →
  with_cstring s k h w = at_heap h x.
Proof using.
  intros Hk. unfold with_cstring. rewrite alloc_bind. assert (Hb := fresh_dom h). set (b := fresh (dom h)) in *. set (o := CString _) in *. specialize (Hk b Hb).
  destruct x as [| |[r w']]; [by apply bind_UB|by apply bind_aborts|]. erewrite bind_done by exact Hk. cbn [at_heap].
  erewrite bind_done; [|eapply c_free_at, lookup_insert_eq]. cbn. by rewrite delete_insert_id.
Qed.
Lemma with_ansi_gives {AT : AnsiText} {AU : AnsiUtf8 AT} h w s (k : ptr → ffi W ptr) x :
  utf8_valid (as_bytes s) = true →
  (∀ b, h !! b = None → gives (<[b := CString (until_nul (as_bytes s))]> h) w (k (Some b)) x) → gives h w (with_ansi (Some s) k) x.
Proof using.
  intros Hu Hk. unfold with_ansi. rewrite ansi_encode_utf8 by done. unfold gives. rewrite alloc_bind. assert (Hb := fresh_dom h).
  set (b := fresh (dom h)) in *. set (o := CString _) in *. specialize (Hk b Hb). unfold gives in Hk.
  destruct x as [[[reply|]|] w']; [| |by apply bind_aborts].
  - destruct Hk as (c & Hc & Hk). assert (b ≠ c) as Hne by (intros ->; by rewrite lookup_insert_eq in Hc). rewrite lookup_insert_ne in Hc by done.
    exists c. split; [done|]. erewrite bind_done by exact Hk. erewrite bind_done; [|eapply c_free_at; rewrite lookup_insert_ne by done; apply lookup_insert_eq].
    cbn. by rewrite delete_insert_ne, delete_insert_id.
  - erewrite bind_done by exact Hk. erewrite bind_done; [|eapply c_free_at, lookup_insert_eq]. cbn. by rewrite delete_insert_id.
Qed.
Lemma with_ansi_UB {A} {AT : AnsiText} {AU : AnsiUtf8 AT} h w s (k : ptr → ffi W A) :
  utf8_valid (as_bytes s) = true →
  (∀ b, h !! b = None → k (Some b) (<[b := CString (until_nul (as_bytes s))]> h) w = UB) → with_ansi (Some s) k h w = UB.
Proof using. intros Hu Hk. unfold with_ansi. rewrite ansi_encode_utf8 by done. rewrite alloc_bind. apply bind_UB, Hk, fresh_dom. Qed.
(** The caller copies the string and frees it. *)
Lemma take_reply decode err h w (m : ffi W ptr) x :
  gives h w m (c_reply x) →
  (r ← m; match r with None => mret (Err err) | Some _ => s ← load_str r; _ ← openhttpa_free_string r; mret (Ok (decode s)) end) h w
  = through_c decode err h x.
Proof using.
  unfold gives, through_c. destruct (c_reply x) as [[[reply|]|] w']; [| |by apply bind_aborts].
  - intros (b & Hb & Hm). erewrite bind_done by exact Hm. cbv beta match. erewrite bind_done; [|apply load_str_at; left; apply lookup_insert_eq].
    erewrite bind_done; [|eapply free_string_at, lookup_insert_eq]. cbn. by rewrite delete_insert_id.
  - intros Hm. by erewrite bind_done by exact Hm.
Qed.

End calls.

(** ** Theorems *)

Section facts.
Context {W : Type} (send : wire W).
Context {CT : ClientText} {ShJ : ShareJson} {SP : SfvPrim} {HJ : HeaderJson} {UP : UuidPrim} {UR : UriParts} {CJ : CiphertextJson}.
Context {AP : AeadPrim} {HaP : HashPrim} {HP : HkdfPrim} {MP : HmacPrim} {KP : KexPrim} {DF : DebugFmt} {XP : HexPrim} {BP : Base64Prim}.
Context (mldsa_verify : bytes → bytes → bytes → bool) (allow : option string) (show : ClientError → string) (show_build : ClientBuildError → string).
Context {R : Type} {LJ : ChatJson R} (zk_verify : R → bytes → result ZkError ZkOutput) {FJ : FfiJson}.
Context (bld : Build) (avail : ProviderKind → bool) (hardware : ProviderKind → TeeProvider) (make : BuiltClient → OpenHttpaClient).
Context (show_llm : LlmError → string) (uri_error : string → string) {MJ : MessagesJson} {AT : AnsiText}.

Lemma py_messages (msgs : list (string * string)) : py_parse_messages msgs = chat_messages msgs.
Proof using. unfold py_parse_messages, chat_messages. by apply list_fmap_ext; intros i [r c] _. Qed.
Lemma node_messages (msgs : list (string * string)) : node_parse_messages ((λ m, [m.1; m.2]) <$> msgs) = chat_messages msgs.
Proof using. unfold node_parse_messages, chat_messages. induction msgs as [|[r c] msgs IH]; [done|]. cbn. by rewrite IH. Qed.

(** The function of C on texts that it can read. *)
Lemma c_chat_gives (h : Heap) w e ce a c pu pm pj uri model json msgs :
  h !! a = Some (CtxObj c) → h !! pu = Some (CString (until_nul (as_bytes uri))) → h !! pm = Some (CString (until_nul (as_bytes model))) →
  h !! pj = Some (CString (until_nul (as_bytes json))) → c_text uri → c_text model → c_text json → parse_message_pairs json = Some msgs →
  gives h w (openhttpa_confidential_chat send mldsa_verify allow show show_build zk_verify bld avail make e ce (Some a) (Some pu) (Some pm) (Some pj))
    (c_reply (ask send mldsa_verify allow show show_build zk_verify bld avail make e ce uri model msgs w)).
Proof using.
  intros Ha Hu Hm Hj Tu Tm Tj Hp. unfold openhttpa_confidential_chat, ask, gives.
  assert (∀ (k : bytes → bytes → bytes → ffi W ptr),
    (u ← load_str (Some pu); m ← load_str (Some pm); j ← load_str (Some pj); k u m j) h w =
    k (until_nul (as_bytes uri)) (until_nul (as_bytes model)) (until_nul (as_bytes json)) h w) as ->.
  { intros k. do 3 (erewrite bind_done; [|apply load_str_at; by right]). done. }
  rewrite !c_text_read, Hp by done. destruct (ffi_parse_uri uri) as [v|]; [|done].
  erewrite bind_done by (by eapply load_ctx_at). unfold c_reply, reply_of. destruct (chat_once _ _ _ _ _ _ _ _ _ _ _ _ _ _) as [[[reply|err]|] w'] eqn:Hc; cbn -[into_raw].
  - erewrite bind_done; [|unfold rust; by rewrite Hc]. cbn -[into_raw]. unfold into_raw. case_decide; [done|].
    exists (fresh (dom h)). split; [apply fresh_dom|done].
  - by erewrite bind_done; [|unfold rust; by rewrite Hc].
  - apply bind_aborts. unfold rust. by rewrite Hc.
Qed.

(** Each binding against the reference. *)
Lemma py_ask_ok e ce uri model msgs w :
  reply_of (py_ask send mldsa_verify allow show show_build zk_verify bld avail make show_llm uri_error (Ok ()) e ce uri model msgs w)
  = ask send mldsa_verify allow show show_build zk_verify bld avail make e ce uri model msgs w.
Proof using.
  unfold py_ask, py_llm_new, ask, parse_server_uri, chat_once. destruct (ffi_parse_uri uri) as [u|]; [|done]. cbn [ok_or mbind result_bind].
  destruct (build_llm _ _ _ _ _ _ _ _ _ _ _) as [[[c|err]|] w1]; [|done..]. cbn [mbind outcome_bind map_err]. unfold py_chat. rewrite py_messages.
  by destruct (chat _ _ _ _ _ _ _ _ _) as [[[[r|err]|] c'] w2].
Qed.
Lemma node_ask_ok e ce uri model msgs w :
  reply_of (node_confidential_chat send mldsa_verify allow show show_build zk_verify bld avail make show_llm uri_error e ce uri model
    ((λ m, [m.1; m.2]) <$> msgs) w)
  = ask send mldsa_verify allow show show_build zk_verify bld avail make e ce uri model msgs w.
Proof using.
  unfold node_confidential_chat, ask, parse_server_uri, chat_once. rewrite node_messages. destruct (ffi_parse_uri uri) as [u|]; [|done]. cbn [ok_or].
  destruct (build_llm _ _ _ _ _ _ _ _ _ _ _) as [[[c|err]|] w1]; [|done..].
  by destruct (chat _ _ _ _ _ _ _ _ _) as [[[[r|err]|] c'] w2].
Qed.
Lemma java_ask_ok e ce uri u model prompt w :
  ffi_parse_uri uri = Some u →
  reply_of (java_chat send mldsa_verify allow show show_build zk_verify bld avail make show_llm e ce (Some uri) (Some model) (Some prompt) w)
  = ask send mldsa_verify allow show show_build zk_verify bld avail make e ce uri "llama3" [("user"%string, prompt)] w.
Proof using.
  intros Hu. unfold java_chat, ask, chat_once. rewrite Hu. unfold build_llm. cbn [lb_model lb_bypass lb_server_uri default from_option].
  change (chat_messages [("user"%string, prompt)]) with [mk_chat_message User prompt]. unfold llm_httpa_builder. cbn [lb_server_uri lb_tee_providers lb_verifier].
  destruct (try_build _ _ _) as [[built|err]|]; [|done..]. cbn [lb_inference_path default from_option id].
  destruct (attest _ _ _ _ _ _ _) as [[[s|err]|] w1]; [|done..]. cbn [mbind result_bind].
  by destruct (chat _ _ _ _ _ _ _ _ _) as [[[[r|err]|] c'] w2].
Qed.

Lemma encode_messages_ok {JL : MessagesJsonLaws MJ FJ} msgs :
  forallb utf8_pair msgs = true → ∃ json, encodeMessages msgs = Ok json ∧ c_text json ∧ parse_message_pairs json = Some msgs.
Proof using.
  intros Hu. unfold encodeMessages. case_decide as Hn; [|by apply go_marshal_spec]. destruct msgs; [|done].
  exists "[]"%string. split_and!; [done| |apply parse_empty_list]. split; [|done]. cbn. rewrite !not_elem_of_cons. split_and!; [done..|]. apply not_elem_of_nil.
Qed.

Lemma go_ask_ok {JL : MessagesJsonLaws MJ FJ} (h : Heap) w e ce a c uri model msgs :
  h !! a = Some (CtxObj c) → c_text uri → c_text model → forallb utf8_pair msgs = true →
  go_Chat send mldsa_verify allow show show_build zk_verify bld avail make e ce (Some a) uri model msgs h w
  = through_c string_of_list_ascii ErrChatFailed h (ask send mldsa_verify allow show show_build zk_verify bld avail make e ce uri model msgs w).
Proof using.
  intros Ha Tu Tm Hm. destruct (encode_messages_ok msgs Hm) as (json & He & Tj & Hp). unfold go_Chat. rewrite He. unfold go_ConfidentialChat.
  set (x := ask _ _ _ _ _ _ _ _ _ _ _ _ _ _ _). set (y := match c_reply x with (Panics, _) => Aborts | (Returns None, w) => Done (Err ErrChatFailed, w)
    | (Returns (Some reply), w) => Done (Ok (string_of_list_ascii (as_bytes reply)), w) end).
  assert (∀ h', through_c string_of_list_ascii ErrChatFailed h' x = at_heap h' y) as Hy.
  { intros h'. unfold through_c, y. by destruct (c_reply x) as [[[reply|]|] w']. }
  rewrite Hy. apply with_cstring_at. intros b1 H1. apply with_cstring_at. intros b2 H2. apply with_cstring_at. intros b3 H3.
  assert (b1 ≠ a) by congruence. rewrite lookup_insert_None in H2. destruct H2 as [H2 Hne2]. rewrite !lookup_insert_None in H3. destruct H3 as [[H3 Hne3] Hne4].
  assert (b2 ≠ a) by congruence. assert (b3 ≠ a) by congruence.
  rewrite <-Hy. unfold go_take. apply take_reply. unfold x. eapply c_chat_gives; [..|exact Tu|exact Tm|exact Tj|exact Hp]; by simplify_map_eq.
Qed.
Lemma net_ask_ok {JL : MessagesJsonLaws MJ FJ} {AU : AnsiUtf8 AT} (h : Heap) w e ce a c uri model prompt :
  h !! a = Some (CtxObj c) → c_text uri → c_text model → utf8_valid (as_bytes prompt) = true →
  net_Chat send mldsa_verify allow show show_build zk_verify bld avail make e ce (Some a) (Some uri) (Some model) (Some prompt) h w
  = through_c ansi_decode "Confidential chat request failed" h
      (ask send mldsa_verify allow show show_build zk_verify bld avail make e ce uri model [("user"%string, prompt)] w).
Proof using.
  intros Ha Tu Tm Hm. destruct (net_serialize_spec "user"%string prompt) as [Tj Hp]; [exact Hm|]. unfold net_Chat.
  apply take_reply. apply with_ansi_gives; [apply Tu|]. intros b1 H1. apply with_ansi_gives; [apply Tm|]. intros b2 H2.
  apply with_ansi_gives; [apply Tj|]. intros b3 H3.
  assert (b1 ≠ a) by congruence. rewrite lookup_insert_None in H2. destruct H2 as [H2 Hne2]. rewrite !lookup_insert_None in H3. destruct H3 as [[H3 Hne3] Hne4].
  assert (b2 ≠ a) by congruence. assert (b3 ≠ a) by congruence.
  eapply c_chat_gives; [..|exact Tu|exact Tm|exact Tj|exact Hp]; by simplify_map_eq.
Qed.

End facts.

(** [C39] The bindings against one client asked once ([ask]), for a context that is valid
    and texts that C can represent.  Python and Node.js send the same messages on the network
    as the reference and return its reply, or fail or panic where it does.  Go does the same
    through C, where a reply with a zero byte is a failure, a panic aborts the process, and the
    memory is in the end as it was ([through_c]); so does .NET, which asks with one
    message of the user's, on a system whose code page is UTF-8.  Java asks what the
    reference asks for the default model, whatever model it is given, and panics where the
    reference fails on an address that does not parse. *)
Theorem runtimes_agree {W : Type} (send : wire W)
    {CT : ClientText} {ShJ : ShareJson} {SP : SfvPrim} {HJ : HeaderJson} {UP : UuidPrim} {UR : UriParts} {CJ : CiphertextJson}
    {AP : AeadPrim} {HaP : HashPrim} {HP : HkdfPrim} {MP : HmacPrim} {KP : KexPrim} {XP : HexPrim} {BP : Base64Prim}
    (mldsa_verify : bytes → bytes → bytes → bool) (allow : option string) (show : ClientError → string) (show_build : ClientBuildError → string)
    {R : Type} {LJ : ChatJson R} (zk_verify : R → bytes → result ZkError ZkOutput) {FJ : FfiJson}
    (bld : Build) (avail : ProviderKind → bool) (make : BuiltClient → OpenHttpaClient)
    (show_llm : LlmError → string) (uri_error : string → string) {MJ : MessagesJson} {JL : MessagesJsonLaws MJ FJ} {AT : AnsiText} {AU : AnsiUtf8 AT}
    (h : Heap) (a : positive) (c : OpenHttpaCtx) (e : ClientEnv) (ce : ChatEnv) (uri model : string) (msgs : list (string * string)) (w : W) :
  h !! a = Some (CtxObj c) → c_text uri → c_text model → forallb utf8_pair msgs = true →
  let answer := ask send mldsa_verify allow show show_build zk_verify bld avail make e ce uri model msgs w in
  reply_of (py_ask send mldsa_verify allow show show_build zk_verify bld avail make show_llm uri_error (Ok ()) e ce uri model msgs w) = answer ∧
  reply_of (node_confidential_chat send mldsa_verify allow show show_build zk_verify bld avail make show_llm uri_error e ce uri model
    ((λ m, [m.1; m.2]) <$> msgs) w) = answer ∧
  go_Chat send mldsa_verify allow show show_build zk_verify bld avail make e ce (Some a) uri model msgs h w
    = through_c string_of_list_ascii ErrChatFailed h answer ∧
  ∀ prompt,
    (msgs = [("user"%string, prompt)] →
     net_Chat send mldsa_verify allow show show_build zk_verify bld avail make e ce (Some a) (Some uri) (Some model) (Some prompt) h w
       = through_c ansi_decode "Confidential chat request failed" h answer) ∧
    reply_of (java_chat send mldsa_verify allow show show_build zk_verify bld avail make show_llm e ce (Some uri) (Some model) (Some prompt) w)
      = match ffi_parse_uri uri with
        | Some _ => ask send mldsa_verify allow show show_build zk_verify bld avail make e ce uri "llama3" [("user"%string, prompt)] w
        | None => (Panics, w)
        end.
Proof.
  intros Ha Tu Tm Hm answer. split_and!; [apply py_ask_ok|apply node_ask_ok|by eapply go_ask_ok|]. intros prompt. split; [intros ->|].
  - eapply net_ask_ok; [done..|]. cbn in Hm. by rewrite andb_true_r in Hm.
  - destruct (ffi_parse_uri uri) eqn:Hu; [by eapply java_ask_ok|]. unfold java_chat. by rewrite Hu.
Qed.

(** Java never sends the model that it is given. *)
Theorem java_ignores_model {W : Type} (send : wire W)
    {CT : ClientText} {ShJ : ShareJson} {SP : SfvPrim} {HJ : HeaderJson} {UP : UuidPrim} {UR : UriParts} {CJ : CiphertextJson}
    {AP : AeadPrim} {HaP : HashPrim} {HP : HkdfPrim} {MP : HmacPrim} {KP : KexPrim} {XP : HexPrim} {BP : Base64Prim}
    mldsa_verify allow show show_build {R : Type} {LJ : ChatJson R} (zk_verify : R → bytes → result ZkError ZkOutput) {FJ : FfiJson}
    bld avail make show_llm e ce endpoint m1 m2 prompt (w : W) :
  java_chat send mldsa_verify allow show show_build zk_verify bld avail make show_llm e ce endpoint (Some m1) prompt w
  = java_chat send mldsa_verify allow show show_build zk_verify bld avail make show_llm e ce endpoint (Some m2) prompt w.
Proof. by destruct endpoint, prompt. Qed.

(** *** The .NET object *)

Section net.
Context {W : Type} (send : wire W).
Context {CT : ClientText} {ShJ : ShareJson} {SP : SfvPrim} {HJ : HeaderJson} {UP : UuidPrim} {UR : UriParts} {CJ : CiphertextJson}.
Context {AP : AeadPrim} {HaP : HashPrim} {HP : HkdfPrim} {MP : HmacPrim} {KP : KexPrim} {XP : HexPrim} {BP : Base64Prim}.
Context (mldsa_verify : bytes → bytes → bytes → bool) (allow : option string) (show : ClientError → string) (show_build : ClientBuildError → string).
Context {R : Type} {LJ : ChatJson R} (zk_verify : R → bytes → result ZkError ZkOutput) {FJ : FfiJson}.
Context (bld : Build) (avail : ProviderKind → bool) (hardware : ProviderKind → TeeProvider) (make : BuiltClient → OpenHttpaClient).
Context {MJ : MessagesJson} {AT : AnsiText}.

(** A question: the draws, then the arguments, each a string or null. *)
Definition question : Type := ClientEnv * ChatEnv * option string * option string * option string.
Fixpoint net_chats (ctx : ptr) (qs : list question) : ffi W (list (result string string)) :=
  match qs with
  | [] => mret []
  | (e, ce, u, m, p) :: qs =>
      r ← net_Chat send mldsa_verify allow show show_build zk_verify bld avail make e ce ctx u m p;
      rs ← net_chats ctx qs; mret (r :: rs)
  end.
(** [using var client = new OpenHttpaClient()], some questions, and [n] more calls of
    [Dispose]. *)
Definition net_program (rt : outcome ()) (qs : list question) (n : nat) : ffi W (result string (list (result string string))) :=
  o ← net_new bld avail hardware rt;
  match o with
  | Err m => mret (Err m)
  | Ok ctx =>
      rs ← net_chats ctx qs;
      ctx ← net_Dispose ctx;
      _ ← Nat.iter n (λ m, ctx ← m; net_Dispose ctx) (mret ctx);
      mret (Ok rs)
  end.

Lemma with_ansi_runs h s (k : ptr → ffi W ptr) :
  (∀ h' p, h ⊆ h' → or_null (is_str h') p → runs h' (k p) (returns_string h')) → runs h (with_ansi s k) (returns_string h).
Proof using.
  intros Hk. destruct s as [s|]; [|apply Hk; [done|by left]]. unfold with_ansi. set (o := CString _).
  eapply (runs_bind _ _ _ (λ b h', h !! b = None ∧ h' = <[b := o]> h)); [apply runs_alloc; by split|]. intros b h' [Hb ->].
  eapply runs_bind; [apply Hk; [by apply insert_subseteq|right; apply is_str_insert]|]. intros r h' Hr.
  assert (h' !! b = Some o ∧ returns_string h r (delete b h')) as [Ho Hd].
  { destruct Hr as [[-> ->]|(x & t & -> & Hx & ->)].
    - rewrite lookup_insert_eq. split; [done|]. left. by rewrite delete_insert_id.
    - rewrite lookup_insert_None in Hx. destruct Hx as [Hx Hne]. rewrite lookup_insert_ne, lookup_insert_eq by done. split; [done|].
      right. exists x, t. split_and!; [done..|]. by rewrite delete_insert_ne, delete_insert_id. }
  eapply (runs_bind _ _ _ (λ _ h2, h2 = delete b h')); [|intros _ h2 ->; by apply runs_ret]. unfold c_free.
  eapply (runs_bind _ _ _ (λ x h2, x = o ∧ h2 = h')); [by eapply runs_load|]. intros x h2 [-> ->]. by apply runs_dispose.
Qed.

Lemma or_null_weaken (h h' : Heap) p : h ⊆ h' → or_null (is_str h) p → or_null (is_str h') p.
Proof using.
  intros Hs [-> |(a & s & -> & Ha)]; [by left|]. right. exists a, s. split; [done|]. destruct Ha; [left|right]; by eapply lookup_weaken.
Qed.
Lemma net_Chat_runs h a c e ce u m p :
  h !! a = Some (CtxObj c) →
  runs h (net_Chat send mldsa_verify allow show show_build zk_verify bld avail make e ce (Some a) u m p) (λ _ h', h' = h).
Proof using.
  intros Ha. unfold net_Chat. eapply runs_bind.
  { apply with_ansi_runs. intros h1 p1 Hs1 H1. apply with_ansi_runs. intros h2 p2 Hs2 H2. apply with_ansi_runs. intros h3 p3 Hs3 H3.
    apply chat_keeps; [|by do 2 (eapply or_null_weaken; [eassumption|])|by eapply or_null_weaken|done].
    exists a, c. split; [done|]. by do 3 (eapply lookup_weaken; [|eassumption]). }
  intros r h' [[-> ->]|(b & s & -> & Hb & ->)]; [by apply runs_ret|].
  assert (<[b := RustString s]> h !! b = Some (RustString s)) as Hs by apply lookup_insert_eq.
  eapply (runs_bind _ _ _ (λ _ h', h' = <[b := RustString s]> h)); [apply runs_load_str; [by exists b, s; auto|done]|]. intros t h' ->.
  eapply runs_bind; [apply free_runs; right; by exists b, s|]. intros _ h' ->. apply runs_ret. by rewrite delete_insert_id.
Qed.
Lemma net_chats_runs h a c qs : h !! a = Some (CtxObj c) → runs h (net_chats (Some a) qs) (λ rs h', h' = h ∧ length rs = length qs).
Proof using.
  intros Ha. induction qs as [|[[[[e ce] u] m] p] qs IH]; [by apply runs_ret|]. cbn [net_chats].
  eapply runs_bind; [by eapply net_Chat_runs|]. intros r h' ->. eapply runs_bind; [exact IH|]. intros rs h' [-> Hl]. apply runs_ret. split; [done|]. cbn. by rewrite Hl.
Qed.
Lemma net_Dispose_null h n : runs (W := W) h (Nat.iter n (λ m, ctx ← m; net_Dispose ctx) (mret None)) (λ p h', p = None ∧ h' = h).
Proof using. induction n as [|n IH]; [by apply runs_ret|]. cbn [Nat.iter]. eapply runs_bind; [exact IH|]. intros p h' [-> ->]. by apply runs_ret. Qed.
End net.

(** A .NET program that makes a client, asks any number of questions with any
    arguments, null ones included, and disposes of the client once or more often, has no
    undefined behaviour and leaks nothing: unless a panic aborts it, it gets one answer or
    exception for every question, and its memory is in the end what it was at first. *)
Theorem dotnet_leak_free {W : Type} (send : wire W)
    {CT : ClientText} {ShJ : ShareJson} {SP : SfvPrim} {HJ : HeaderJson} {UP : UuidPrim} {UR : UriParts} {CJ : CiphertextJson}
    {AP : AeadPrim} {HaP : HashPrim} {HP : HkdfPrim} {MP : HmacPrim} {KP : KexPrim} {XP : HexPrim} {BP : Base64Prim}
    (mldsa_verify : bytes → bytes → bytes → bool) (allow : option string) (show : ClientError → string) (show_build : ClientBuildError → string)
    {R : Type} {LJ : ChatJson R} (zk_verify : R → bytes → result ZkError ZkOutput) {FJ : FfiJson}
    (bld : Build) (avail : ProviderKind → bool) (hardware : ProviderKind → TeeProvider) (make : BuiltClient → OpenHttpaClient)
    {MJ : MessagesJson} {AT : AnsiText} (h : Heap) (rt : outcome ()) (qs : list question) (n : nat) :
  runs h (net_program send mldsa_verify allow show show_build zk_verify bld avail hardware make rt qs n)
    (λ r h', h' = h ∧ ∃ rs, r = Ok rs ∧ length rs = length qs).
Proof.
  unfold net_program, net_new. eapply (runs_bind _ _ _ (λ r h', ∃ a c, r = Ok (Some a) ∧ h !! a = None ∧ h' = <[a := CtxObj c]> h)).
  { eapply runs_bind; [apply ctx_new_runs|]. intros p h' (a & c & -> & Ha & ->). apply runs_ret. by exists a, c. }
  intros r h' (a & c & -> & Ha & ->). eapply runs_bind; [eapply net_chats_runs, lookup_insert_eq|]. intros rs h' [-> Hl].
  eapply (runs_bind _ _ _ (λ p h', p = None ∧ h' = h)).
  { eapply runs_bind; [apply ctx_free_runs; right; exists a, c; split; [done|apply lookup_insert_eq]|]. intros _ h' ->. apply runs_ret.
    by rewrite delete_insert_id. }
  intros p h' [-> ->]. eapply runs_bind; [apply net_Dispose_null|]. intros p h' [-> ->]. apply runs_ret. eauto.
Qed.

(** After [Dispose] the object's pointer is null, and a question with arguments that can be
    read is undefined: [Chat] does not look at the field. *)
Theorem dotnet_disposed_undefined {W : Type} (send : wire W)
    {CT : ClientText} {ShJ : ShareJson} {SP : SfvPrim} {HJ : HeaderJson} {UP : UuidPrim} {UR : UriParts} {CJ : CiphertextJson}
    {AP : AeadPrim} {HaP : HashPrim} {HP : HkdfPrim} {MP : HmacPrim} {KP : KexPrim} {XP : HexPrim} {BP : Base64Prim}
    mldsa_verify allow show show_build {R : Type} {LJ : ChatJson R} (zk_verify : R → bytes → result ZkError ZkOutput) {FJ : FfiJson}
    bld avail make {MJ : MessagesJson} {JL : MessagesJsonLaws MJ FJ} {AT : AnsiText} {AU : AnsiUtf8 AT}
    (h : Heap) (w : W) e ce uri u model prompt :
  c_text uri → c_text model → utf8_valid (as_bytes prompt) = true → ffi_parse_uri uri = Some u →
  net_Chat send mldsa_verify allow show show_build zk_verify bld avail make e ce None (Some uri) (Some model) (Some prompt) h w = UB.
Proof.
  intros Tu Tm Hp Hu. destruct (net_serialize_spec "user"%string prompt) as [Tj Hj]; [exact Hp|]. unfold net_Chat. apply bind_UB.
  apply with_ansi_UB; [apply Tu|]. intros b1 H1. apply with_ansi_UB; [apply Tm|]. intros b2 H2. apply with_ansi_UB; [apply Tj|]. intros b3 H3.
  rewrite lookup_insert_None in H2. destruct H2 as [H2 Hne2]. rewrite !lookup_insert_None in H3. destruct H3 as [[H3 Hne3] Hne4].
  unfold openhttpa_confidential_chat. do 3 (erewrite bind_done; [|apply load_str_at; right; by simplify_map_eq]).
  by rewrite !c_text_read, Hu, Hj by done.
Qed.

(** Python and Node.js make the same MCP call for parameters other than null, which Python
    takes for none; the value is returned as text and as a value. *)
Theorem mcp_runtimes_agree {W : Type} (send : wire W)
    {CT : ClientText} {ShJ : ShareJson} {SP : SfvPrim} {HJ : HeaderJson} {UP : UuidPrim} {UR : UriParts} {CJ : CiphertextJson}
    {AP : AeadPrim} {HaP : HashPrim} {HP : HkdfPrim} {MP : HmacPrim} {KP : KexPrim} {XP : HexPrim} {BP : Base64Prim}
    mldsa_verify allow show show_build {FJ : FfiJson} bld avail make show_mcp uri_error {RJ : RpcJson} {VJ : ValueJson}
    max e request_id uri method text v (w : W) :
  value_from_str text = Ok v → v ≠ Null →
  (match py_mcp_new show_build bld avail make show_mcp uri_error (Ok ()) uri with
   | Panics => (Panics, w)
   | Returns (Err m) => (Returns (Err m), w)
   | Returns (Ok c) => py_mcp_call send mldsa_verify allow show show_mcp c max e request_id method (Some text) w
   end)
  = let '(r, w) := node_mcp_call send mldsa_verify allow show show_build bld avail make show_mcp uri_error max e request_id uri method (Some v) w in
    (r ← r; Returns (res ← r; Ok (value_to_string res)), w).
Proof.
  intros Ht Hv. unfold py_mcp_new, node_mcp_call. destruct (new_mcp_client _ _ _ _ _ _ _) as [[c|err]|]; [|done..]. cbn [mbind outcome_bind map_err].
  unfold py_mcp_call, py_params. rewrite Ht. cbn [mbind result_bind]. assert (absent_null (Some v) = Some v) as -> by by destruct v.
  destruct (call _ _ _ _ _ _ _ _ _ _ _) as [[[r|err]|] w']; done.
Qed.

(** The message of an agent names no receiver and no time. *)
Theorem a2a_runtimes_agree {W : Type} (send : wire W)
    {CT : ClientText} {ShJ : ShareJson} {SP : SfvPrim} {HJ : HeaderJson} {UP : UuidPrim} {UR : UriParts} {CJ : CiphertextJson}
    {AP : AeadPrim} {HaP : HashPrim} {HP : HkdfPrim} {MP : HmacPrim} {KP : KexPrim} {XP : HexPrim} {BP : Base64Prim}
    mldsa_verify allow show show_build bld avail make {VJ : ValueJson} {AJ : A2AJson Value} mock json_error e agent_id target message_type text v (w : W) :
  value_from_str text = Ok v →
  (match py_agent_new show_build bld avail make (Ok ()) mock agent_id with
   | Panics => (Panics, w)
   | Returns (Err m) => (Returns (Err m), w)
   | Returns (Ok a) => py_send_message send mldsa_verify allow show json_error a e target message_type text w
   end)
  = node_a2a_send_message send mldsa_verify allow show show_build bld avail make mock json_error e agent_id target message_type v w.
Proof.
  intros Ht. unfold py_agent_new, node_a2a_send_message. destruct (a2a_agent_new _ _ _ _ _ _) as [[a|m]|] eqn:Ha; [|done..].
  unfold py_send_message. rewrite Ht. assert (a2a_agent_id a = agent_id) as ->; [|done]. revert Ha. unfold a2a_agent_new.
  destruct (MockTeeProvider.default bld); [|done]. cbn [mbind outcome_bind]. destruct (try_build _ _ _) as [[built|err]|]; [|done..]. by intros [= <-].
Qed.

(** ** An instance *)

Module ToyRuntimes.

Fixpoint digits (p : positive) : bytes := match p with xH => [] | xO p => "0"%char :: digits p | xI p => "1"%char :: digits p end.
Fixpoint number (b : bytes) : positive := match b with [] => xH | x :: b => if decide (x = "0"%char) then xO (number b) else xI (number b) end.
Lemma number_digits p : number (digits p) = p.
Proof. induction p as [p IH|p IH|]; cbn; by rewrite ?IH. Qed.
Lemma digits_visible p : forallb visible (digits p) = true.
Proof. by induction p. Qed.

Definition text (msgs : list (string * string)) : string := string_of_list_ascii (digits (encode msgs)).
Definition read (s : string) : option (list (string * string)) := if decide (s = "[]"%string) then Some [] else decode (number (as_bytes s)).
#[export] Instance ffi : FfiJson := {|
  ffi_parse_uri s := Some s; parse_handshake_body s := None; parse_message_pairs := read;
  answer_to_string a := as_bytes (sa_base_id a); encrypted_to_string _ _ := as_bytes "encrypted" |}.
#[export] Instance json : MessagesJson := {|
  go_marshal msgs := Ok (text msgs);
  net_serialize l := text ((λ m, (default EmptyString (m !! 0%nat ≫= λ x, x), default EmptyString (m !! 1%nat ≫= λ x, x))) <$> l) |}.
#[export] Instance ansi : AnsiText := {| ansi_encode := as_bytes; ansi_decode := string_of_list_ascii |}.
#[export] Instance ansi_utf8 : AnsiUtf8 ansi.
Proof. by constructor. Qed.

Lemma text_bytes msgs : as_bytes (text msgs) = digits (encode msgs).
Proof. apply list_ascii_of_string_of_list_ascii. Qed.
Lemma text_ok msgs : c_text (text msgs) ∧ read (text msgs) = Some msgs.
Proof.
  split; [split; rewrite text_bytes; [apply visible_no_nul|apply visible_utf8]; apply digits_visible|]. unfold read. rewrite text_bytes, number_digits.
  rewrite decide_False; [apply decode_encode|]. intros H. apply (f_equal as_bytes) in H. rewrite text_bytes in H. by destruct (encode msgs).
Qed.
#[export] Instance laws : MessagesJsonLaws json ffi.
Proof. constructor; [intros msgs _; by exists (text msgs); destruct (text_ok msgs)|done|]. intros role prompt _. apply text_ok. Qed.

Definition uri : string := "http://127.0.0.1:8080".
Definition debug : Build := mk_build true (λ f, bool_decide (f = "mock"%string)) None None None false.
Definition msgs : list (string * string) := [("user"%string, "hi"%string)].
Definition go : ffi_result (result string string * Heap * ()) :=
  go_Chat ToyFfi.send (CT := ToyWire.text) (ShJ := ToyWire.client_json) (SP := ToySfv.prim) (HJ := ToyHeaders.json) (UP := ToyWeb.uuid)
     (UR := ToyLlm.parts) (CJ := ToyExchange.json) (AP := Toy.aead) (HaP := Toy.hash) (HP := Toy.hkdf) (MP := Toy.hmac) (KP := ToyKex.prim)
     (XP := ToyWeb.hex) (BP := ToyBase64.prim) (λ _ _ _, true) None (λ _, EmptyString) (λ _, EmptyString) (LJ := ToyLlm.json) ToyLlm.zk_verify (FJ := ffi)
     debug (λ _, true) (λ _, ToyWire.client true) (MJ := json) ToyWire.client_env ToyLlm.env (Some 1%positive) uri "llama3" msgs ToyFfi.heap ().

End ToyRuntimes.

Lemma runtimes_agree_witness : ToyRuntimes.go = Done (Err ErrChatFailed, ToyFfi.heap, ()).
Proof.
  assert (c_text ToyRuntimes.uri ∧ c_text "llama3") as [Hu Hm].
  { split; (split; [apply visible_no_nul; reflexivity|reflexivity]). }
  destruct (runtimes_agree ToyFfi.send (CT := ToyWire.text) (ShJ := ToyWire.client_json) (SP := ToySfv.prim) (HJ := ToyHeaders.json) (UP := ToyWeb.uuid)
     (UR := ToyLlm.parts) (CJ := ToyExchange.json) (AP := Toy.aead) (HaP := Toy.hash) (HP := Toy.hkdf) (MP := Toy.hmac) (KP := ToyKex.prim)
     (XP := ToyWeb.hex) (BP := ToyBase64.prim) (λ _ _ _, true) None (λ _, EmptyString) (λ _, EmptyString) (LJ := ToyLlm.json) ToyLlm.zk_verify (FJ := ToyRuntimes.ffi)
     ToyRuntimes.debug (λ _, true) (λ _, ToyWire.client true) (λ _, EmptyString) (λ _, EmptyString)
     (MJ := ToyRuntimes.json) (JL := ToyRuntimes.laws) (AT := ToyRuntimes.ansi) (AU := ToyRuntimes.ansi_utf8)
     ToyFfi.heap 1%positive ToyFfi.context ToyWire.client_env ToyLlm.env ToyRuntimes.uri "llama3" ToyRuntimes.msgs ()) as (_ & _ & Hgo & _);
    [reflexivity|exact Hu|exact Hm|reflexivity|].
  exact Hgo.
Defined.
