(* ===== verification/Gateways.v ===== *)
(** * Gateways

    The plugins of [modules/]: the Caddy handler ([caddy/main.go]) on top of the Go package of
    [Cffi], the nginx module ([nginx/src/lib.rs]), the Envoy filter
    ([envoy-wasm/src/lib.rs]) and the rules of the browser extension
    ([browser-extension/background.js]).

    A handler behind Caddy is the tree of its calls on the response writer; the writers,
    that of [net/http] and the one that collects a response to be encrypted, are instances
    of one class.  Header names are in lower case, as [Header.Get] does not look at case. *)

From S2P Require Import Prelude ReplayWindow Nonce Crypto Aead Proto State KeySchedule Attestation Tee Session KeyExchange Handshake.
From S2P Require Import Http Oblivious Ahl Trailers Headers Registry Stream Middleware Client Extractors Exchange Handlers Ws Cffi.
From stdpp Require Import options.

#[local] Open Scope Z_scope.

(** ** Go's library *)

Record Body : Type := mk_go_body { bd_bytes : bytes; bd_error : option string }.
(** [io.ReadAll] of an [io.LimitReader]: what is beyond the limit is cut off. *)
Definition read_limited (limit : Z) (b : Body) : result string bytes :=
  if decide (limit ≤ Z.of_nat (length (bd_bytes b))) then Ok (take (Z.to_nat limit) (bd_bytes b))
  else match bd_error b with Some e => Err e | None => Ok (bd_bytes b) end.

Record GoRequest : Type := mk_go_request {
  gr_method : string; gr_path : string; gr_header : HeaderMap; gr_body : Body; gr_length : Z;
}.
(** [Header.Get]: empty when there is none. *)
Definition header_get (h : HeaderMap) (name : string) : bytes := default [] (hm_get h name).

(** [fmt.Sscanf(s, "%d", &n)] on an [n] that is zero: white space, then as many digits as there
    are; anything else, and a number beyond 64 bits, leaves the zero. *)
Definition ascii_space (b : byte) : bool := bool_decide (u8_val b ∈ [9; 11; 12; 13; 32]).
Definition space2 (b c : byte) : bool := bool_decide (u8_val b = 194 ∧ (u8_val c = 133 ∨ u8_val c = 160)).
Definition space3 (b c d : byte) : bool :=
  bool_decide ((u8_val b, u8_val c, u8_val d) ∈ [(225, 154, 128); (226, 128, 168); (226, 128, 169); (226, 128, 175); (226, 129, 159); (227, 128, 128)]) ||
  bool_decide (u8_val b = 226 ∧ u8_val c = 128 ∧ 128 ≤ u8_val d ≤ 138).
Fixpoint skip_space (s : bytes) : bytes :=
  match s with
  | [] => []
  | b :: s1 =>
      if ascii_space b then skip_space s1
      else match s1 with
           | [] => s
           | c :: s2 =>
               if space2 b c then skip_space s2
               else match s2 with d :: s3 => if space3 b c d then skip_space s3 else s | [] => s end
           end
  end.
Fixpoint digits_of (s : bytes) : bytes :=
  match s with [] => [] | b :: s => match digit b with Some _ => b :: digits_of s | None => [] end end.
Definition sscanf_d (s : bytes) : Z := default 0 (parse_digits u64_max 0 (digits_of (skip_space s))).

(** [http.ResponseWriter] *)
Class Writer (S : Type) : Type := {
  w_header : S → HeaderMap;
  w_set_header : S → HeaderMap → S;
  w_write_header : S → Z → outcome S;
  w_write : S → bytes → outcome (result string nat * S);
  w_flush : S → outcome S;
}.

(** The writer of [net/http]: the status is fixed by the first call, with the length that
    the headers declare then; [rw_sent] is the body. *)
Record ResponseWriter : Type := mk_response {
  rw_header : HeaderMap; rw_status : option Z; rw_length : option Z; rw_count : Z; rw_sent : bytes;
}.
Definition ErrContentLength : string := "http: wrote more than the declared Content-Length".
Definition ErrBodyNotAllowed : string := "http: request method or response status code does not allow body".
Definition body_allowed (status : Z) : bool := negb (bool_decide (100 ≤ status ≤ 199 ∨ status = 204 ∨ status = 304)).
(** [strconv.ParseInt] of a length that is not negative *)
Definition declared_length (h : HeaderMap) : option Z :=
  match hm_get h "content-length" with
  | Some (b :: v) =>
      match (if decide (b = "+"%char) then v else b :: v) with [] => None | ds => parse_digits (2 ^ 63 - 1) 0 ds end
  | _ => None
  end.
Definition commit (w : ResponseWriter) (status : Z) : ResponseWriter :=
  mk_response (rw_header w) (Some status) (declared_length (rw_header w)) (rw_count w) (rw_sent w).
Definition write_header (w : ResponseWriter) (status : Z) : outcome ResponseWriter :=
  match rw_status w with
  | Some _ => Returns w
  | None =>
      if decide (100 ≤ status ≤ 999)
      then Returns (if decide (100 ≤ status ≤ 199 ∧ status ≠ 101) then w else commit w status)
      else Panics
  end.
Definition write_body (w : ResponseWriter) (b : bytes) : result string nat * ResponseWriter :=
  let w := match rw_status w with Some _ => w | None => commit w 200 end in
  if decide (b = []) then (Ok 0%nat, w)
  else if body_allowed (default 200 (rw_status w)) then
    let n := rw_count w + Z.of_nat (length b) in
    match rw_length w with
    | Some l => if decide (l < n) then (Err ErrContentLength, mk_response (rw_header w) (rw_status w) (rw_length w) n (rw_sent w))
                else (Ok (length b), mk_response (rw_header w) (rw_status w) (rw_length w) n (rw_sent w ++ b))
    | None => (Ok (length b), mk_response (rw_header w) (rw_status w) (rw_length w) n (rw_sent w ++ b))
    end
  else (Err ErrBodyNotAllowed, w).
#[export] Instance response_writer : Writer ResponseWriter := {|
  w_header := rw_header;
  w_set_header w h := mk_response h (rw_status w) (rw_length w) (rw_count w) (rw_sent w);
  w_write_header := write_header;
  w_write w b := Returns (write_body w b);
  w_flush w := Returns (match rw_status w with Some _ => w | None => commit w 200 end);
|}.
Definition new_response : ResponseWriter := mk_response [] None None 0 [].

(** An error that a handler returns to Caddy, with the status of [caddyhttp.Error]. *)
Record HandlerError : Type := mk_handler_error { he_status : Z; he_error : string }.
(** What a handler does with its writer. *)
Inductive Handler : Type :=
| HReturn (err : option HandlerError)
| HHeader (edit : HeaderMap → HeaderMap) (k : HeaderMap → Handler)
| HWriteHeader (status : Z) (k : Handler)
| HWrite (b : bytes) (k : result string nat → Handler)
| HFlush (k : Handler).
Fixpoint run_handler {S} `{Writer S} (h : Handler) (w : S) : outcome (option HandlerError) * S :=
  match h with
  | HReturn err => (Returns err, w)
  | HHeader edit k => let hd := edit (w_header w) in run_handler (k hd) (w_set_header w hd)
  | HWriteHeader status k => match w_write_header w status with Returns w => run_handler k w | Panics => (Panics, w) end
  | HWrite b k => match w_write w b with Returns (r, w) => run_handler (k r) w | Panics => (Panics, w) end
  | HFlush k => match w_flush w with Returns w => run_handler k w | Panics => (Panics, w) end
  end.

(** ** Caddy *)

Definition MaxResponseBodySize : Z := 10 * 1024 * 1024.
Definition response_too_large : string := "response body exceeds MaxResponseBodySize".

Record responseInterceptor : Type := mk_interceptor { ri_inner : ResponseWriter; ri_body : bytes; ri_status : Z; ri_max : Z }.
#[export] Instance interceptor_writer : Writer responseInterceptor := {|
  w_header rw := rw_header (ri_inner rw);
  w_set_header rw h := mk_interceptor (w_set_header (ri_inner rw) h) (ri_body rw) (ri_status rw) (ri_max rw);
  w_write_header rw status := Returns (mk_interceptor (ri_inner rw) (ri_body rw) (if decide (ri_status rw = 0) then status else ri_status rw) (ri_max rw));
  w_write rw b := Returns
    (if decide (ri_max rw < Z.of_nat (length (ri_body rw) + length b)) then (Err response_too_large, rw)
     else (Ok (length b), mk_interceptor (ri_inner rw) (ri_body rw ++ b) (ri_status rw) (ri_max rw)));
  w_flush rw := match w_flush (ri_inner rw) with
    | Returns inner => Returns (mk_interceptor inner (ri_body rw) (ri_status rw) (ri_max rw)) | Panics => Panics end;
|}.

(** [json.Unmarshal] into the structure with the ciphertext. *)
Class CaddyJson : Type := { unmarshal_trr : bytes → result string string }.

(** The times of the two lookups and the two gates, and the draws of a handshake. *)
Record CaddyEnv : Type := mk_caddy_env { ce_t0 : Z; ce_t1 : Z; ce_t2 : Z; ce_t3 : Z; ce_server : ServerEnv }.

Section caddy.
Context {W : Type} {UP : UuidPrim} {AP : AeadPrim} {HaP : HashPrim} {HP : HkdfPrim} {KP : KexPrim} {DF : DebugFmt} {XP : HexPrim} {FJ : FfiJson} {CJ : CaddyJson}.

Abbreviation served := (outcome (option HandlerError) * ResponseWriter)%type.
Definition fails (status : Z) (e : string) (w : ResponseWriter) : served := (Returns (Some (mk_handler_error status e)), w).
(** Writing an answer in JSON. *)
Definition write_json (w : ResponseWriter) (s : string) : ResponseWriter := (write_body w (as_bytes s)).2.
Definition json_header (w : ResponseWriter) : ResponseWriter := w_set_header w (hm_insert (w_header w) STR_CONTENT_TYPE (as_bytes "application/json")).

Definition serve_handshake (e : CaddyEnv) (ctx : ptr) (w : ResponseWriter) (r : GoRequest) : ffi W served :=
  match read_limited (64 * 1024) (gr_body r) with
  | Err err => mret (fails 400 err w)
  | Ok body =>
      resp ← go_ServerHandshake (ce_server e) ctx (string_of_list_ascii body);
      match resp with
      | Err err => mret (fails 403 err w)
      | Ok resp => mret (Returns None, write_json (json_header w) resp)
      end
  end.

(** The request that the next handler gets. *)
Definition decrypted_request (r : GoRequest) (plaintext : string) : GoRequest :=
  mk_go_request (gr_method r) (gr_path r) (gr_header r) (mk_go_body (as_bytes plaintext) None) (Z.of_nat (String.length plaintext)).

(** The encrypted response, with the status that the next handler set. *)
Definition send_encrypted (rw : responseInterceptor) (ciphertext : string) : served :=
  let w := json_header (ri_inner rw) in
  match write_header w (ri_status rw) with
  | Panics => (Panics, w)
  | Returns w => (Returns None, write_json w ciphertext)
  end.

Definition serve_trusted (e : CaddyEnv) (ctx : ptr) (next : GoRequest → Handler) (w : ResponseWriter) (r : GoRequest) : ffi W served :=
  let atbID := string_of_list_ascii (header_get (gr_header r) STR_ATTEST_BASE_ID) in
  let nonce := sscanf_d (header_get (gr_header r) "attest-nonce") in
  match read_limited MaxResponseBodySize (gr_body r) with
  | Err err => mret (fails 413 err w)
  | Ok body =>
      match unmarshal_trr body with
      | Err err => mret (fails 400 err w)
      | Ok ciphertext =>
          plaintext ← go_ServerDecrypt (ce_t0 e) (ce_t1 e) ctx atbID nonce ciphertext;
          match plaintext with
          | Err err => mret (fails 403 err w)
          | Ok plaintext =>
              match run_handler (next (decrypted_request r plaintext)) (mk_interceptor w [] 0 MaxResponseBodySize) with
              | (Panics, rw) => mret (Panics, ri_inner rw)
              | (Returns (Some err), rw) => mret (Returns (Some err), ri_inner rw)
              | (Returns None, rw) =>
                  sealed ← go_ServerEncrypt (ce_t2 e) (ce_t3 e) ctx atbID (hex_encode (ri_body rw));
                  mret match sealed with
                  | Err err => fails 500 err (ri_inner rw)
                  | Ok ciphertext => send_encrypted rw ciphertext
                  end
              end
          end
      end
  end.

Definition ServeHTTP (e : CaddyEnv) (ctx : ptr) (next : GoRequest → Handler) (w : ResponseWriter) (r : GoRequest) : ffi W served :=
  if decide (gr_method r = "POST"%string ∧ gr_path r = "/api/attest"%string) then serve_handshake e ctx w r
  else if decide (header_get (gr_header r) STR_ATTEST_BASE_ID = []) then mret (run_handler (next r) w)
  else serve_trusted e ctx next w r.

End caddy.

(** *** What Caddy's handler does *)

(** The collected response stays within the limit, whatever the handler behind does. *)
Lemma interceptor_bounded (h : Handler) rw o rw' :
  run_handler h rw = (o, rw') → Z.of_nat (length (ri_body rw)) ≤ ri_max rw → Z.of_nat (length (ri_body rw')) ≤ ri_max rw' ∧ ri_max rw' = ri_max rw.
Proof.
  revert rw. induction h as [err|edit k IH|status k IH|b k IH|k IH]; intros rw; cbn [run_handler].
  - by intros [= <- <-].
  - intros Hrun Hlen. exact (IH _ _ Hrun Hlen).
  - intros Hrun Hlen. exact (IH _ Hrun Hlen).
  - cbn [w_write interceptor_writer]. case_decide as Hmax; intros Hrun Hlen; [exact (IH _ _ Hrun Hlen)|].
    destruct (IH _ _ Hrun) as [H1 H2]; [cbn; rewrite length_app; lia|done].
  - cbn [w_flush interceptor_writer response_writer]. intros Hrun Hlen. exact (IH _ Hrun Hlen).
Qed.

(** A response that can be passed on: the handler behind set a status that has a body, declared
    no length and flushed nothing. *)
Definition answerable (rw : responseInterceptor) : Prop :=
  200 ≤ ri_status rw ≤ 999 ∧ body_allowed (ri_status rw) = true ∧ rw_status (ri_inner rw) = None ∧ rw_sent (ri_inner rw) = [] ∧
  declared_length (rw_header (ri_inner rw)) = None.

Lemma declared_json w : declared_length (rw_header (json_header w)) = declared_length (rw_header w).
Proof. unfold declared_length. cbn [json_header w_set_header w_header response_writer rw_header]. by rewrite hm_get_insert_ne. Qed.

(** The encrypted response on a writer that has no status yet: the status that was asked
    for, and the whole text unless a length was declared or the status has no body. *)
Lemma send_encrypted_answers rw s :
  answerable rw → ∃ w, send_encrypted rw s = (Returns None, w) ∧ rw_status w = Some (ri_status rw) ∧ rw_sent w = as_bytes s.
Proof.
  intros (Hst & Hal & Hnone & Hsent & Hdecl). unfold send_encrypted, write_header. cbv zeta. change (rw_status (json_header _)) with (rw_status (ri_inner rw)).
  rewrite Hnone, decide_True, decide_False by lia. eexists. split; [done|].
  unfold write_json, write_body, commit. cbn [rw_status default]. case_decide as Hs; cbn [snd rw_status rw_sent].
  - rewrite Hs. by split.
  - change (body_allowed _) with (body_allowed (ri_status rw)). rewrite Hal. cbn [rw_length]. rewrite declared_json, Hdecl. cbn [rw_sent snd rw_status]. split; [done|]. change (rw_sent (json_header _)) with (rw_sent (ri_inner rw)). by rewrite Hsent.
Qed.

(** A request of the session, as the handler expects it. *)
Record trusted (r : GoRequest) (i : string) (n : Z) (ciphertext : string) {CJ : CaddyJson} : Prop := mk_trusted {
  tr_path : gr_path r ≠ "/api/attest"%string;
  tr_id : header_get (gr_header r) STR_ATTEST_BASE_ID = as_bytes i;
  tr_nonce : sscanf_d (header_get (gr_header r) "attest-nonce") = n;
  tr_body : Z.of_nat (length (bd_bytes (gr_body r))) < MaxResponseBodySize ∧ bd_error (gr_body r) = None;
  tr_json : unmarshal_trr (bd_bytes (gr_body r)) = Ok ciphertext;
}.
Section served.
Context {W : Type} {UP : UuidPrim} {UL : UuidLaws UP} {AP : AeadPrim} {AL : AeadLaws AP} {HaP : HashPrim} {HP : HkdfPrim} {KP : KexPrim}.
Context {DF : DebugFmt} {XP : HexPrim} {XL : HexLaws XP} {FJ : FfiJson} {CJ : CaddyJson}.
Context (h : Heap) (a : positive) (c : OpenHttpaCtx) (ss : SessionInner) (e : CaddyEnv) (next : GoRequest → Handler) (r : GoRequest).
Context (msg ct : bytes) (rw : responseInterceptor).

(** A client of the session in the context sends [msg], and the handler behind answers [rw]. *)
Record caddy_call : Prop := mk_caddy_call {
  cc_context : h !! a = Some (CtxObj c);
  cc_session : AtbRegistry.sessions (ctx_registry c) !! id ss = Some ss;
  cc_synced : synced ss ss;
  cc_ready : Forall (λ t, ready t ss) [ce_t0 e; ce_t1 e; ce_t2 e; ce_t3 e];
  cc_counters : client_counter ss < u64_max ∧ server_counter ss < u64_max;
  cc_sealed : AeadKey.seal_in_place (AeadKey.mk (client_write_key (keys ss)) Aes256Gcm)
    (build_aead_nonce (client_counter ss) (client_write_iv (keys ss))) (request_aad (id ss)) msg = Ok ct;
  cc_request : trusted r (uuid_to_string (id ss)) (client_counter ss) (hex_encode ct) ∧ uuid_to_string (id ss) ≠ EmptyString;
  cc_next : run_handler (next (decrypted_request r (hex_encode msg))) (mk_interceptor new_response [] 0 MaxResponseBodySize) = (Returns None, rw);
  cc_text : ∀ x n, NUL ∉ encrypted_to_string x n;
}.

Lemma caddy_call_served :
  caddy_call →
  ∃ ct', AeadKey.open_in_place (AeadKey.mk (server_write_key (keys ss)) Aes256Gcm)
      (build_aead_nonce (server_counter ss) (server_write_iv (keys ss))) (request_aad (id ss)) ct' = Ok (ri_body rw) ∧
    yields (W := W) h (ServeHTTP e (Some a) next new_response r) (λ o h',
      o = send_encrypted rw (string_of_list_ascii (encrypted_to_string (hex_encode ct') (server_counter ss))) ∧
      ∃ reg ss', h' = <[a := CtxObj (set_ctx_registry c reg)]> h ∧ AtbRegistry.sessions reg !! id ss = Some ss' ∧ synced ss' ss').
Proof using UL AL XL.
  intros [Ha Hreg Hsync Hts [Hcc Hsc] Hct [[Hp Hid Hn [Hlen Herr] Hj] Hne] Hrun Hnul].
  rewrite !Forall_cons in Hts. destruct Hts as (Hr0 & Hr1 & Hr2 & Hr3 & _).
  set (s1 := Exchange.committed ss (client_counter ss)). set (c1 := set_ctx_registry c (AtbRegistry.update (ctx_registry c) (id ss) s1)).
  assert (synced s1 s1) as Hsync1 by by apply synced_committed.
  assert (Z.of_nat (length (ri_body rw)) ≤ MaxResponseBodySize) as Hbody.
  { apply interceptor_bounded in Hrun as [Hb Hm]; [by rewrite Hm in Hb|done]. }
  destruct (go_encrypts (W := W) (<[a := CtxObj c1]> h) a c1 s1 (ce_t2 e) (ce_t3 e) (ri_body rw)) as (ct' & Hopen & Henc);
    [apply lookup_insert_eq|apply lookup_insert_eq|done..|unfold MaxResponseBodySize in Hbody; lia|done|].
  exists ct'. split; [done|]. unfold ServeHTTP. rewrite decide_False by naive_solver. rewrite Hid.
  rewrite decide_False by (destruct (uuid_to_string (id ss)); naive_solver). unfold serve_trusted. rewrite Hid, Hn. unfold as_bytes. rewrite string_of_list_ascii_of_string.
  unfold read_limited. rewrite decide_False, Herr, Hj by lia.
  eapply runs_bind; [exact (go_decrypts h a c ss (ce_t0 e) (ce_t1 e) msg Ha Hreg Hsync Hr0 Hr1 ct Hcc Hct)|]. intros pt h1 [-> ->]. rewrite Hrun. fold s1 c1.
  eapply runs_bind; [exact Henc|]. intros sealed h2 [-> ->]. apply runs_ret. split; [done|].
  exists (AtbRegistry.update (ctx_registry c1) (id ss) (Exchange.answered s1)), (Exchange.answered s1). split_and!; [|apply lookup_insert_eq|by apply synced_answered].
  by rewrite insert_insert_eq.
Qed.

End served.

(** [C40] Caddy's handler joins a client of the session to the handler behind it.  On a
    request that opens under the session, the handler behind is run on the request with the
    hexadecimal text of what the client sealed as its body (not the plaintext itself, of
    which the comment speaks), against a writer that collects.  If it returns without an
    error and its response is [answerable] (a status from 200 to 999 that has a body, no
    declared length, nothing flushed; see [caddy_silent_panics] and [caddy_declared_length]
    for the others), then the response arrives with its status as a ciphertext that opens
    under the client's keys to exactly the collected body, and the context keeps the session
    in step for the next request. *)
Theorem caddy_serves {W : Type} {UP : UuidPrim} {UL : UuidLaws UP} {AP : AeadPrim} {AL : AeadLaws AP} {HaP : HashPrim} {HP : HkdfPrim} {KP : KexPrim}
    {DF : DebugFmt} {XP : HexPrim} {XL : HexLaws XP} {FJ : FfiJson} {CJ : CaddyJson}
    (h : Heap) (a : positive) (c : OpenHttpaCtx) (ss : SessionInner) (e : CaddyEnv) (next : GoRequest → Handler) (r : GoRequest)
    (msg ct : bytes) (rw : responseInterceptor) :
  caddy_call h a c ss e next r msg ct rw → answerable rw →
  ∃ ct', AeadKey.open_in_place (AeadKey.mk (server_write_key (keys ss)) Aes256Gcm)
      (build_aead_nonce (server_counter ss) (server_write_iv (keys ss))) (request_aad (id ss)) ct' = Ok (ri_body rw) ∧
    yields (W := W) h (ServeHTTP e (Some a) next new_response r) (λ '(o, w) h',
      o = Returns None ∧ rw_status w = Some (ri_status rw) ∧ rw_sent w = encrypted_to_string (hex_encode ct') (server_counter ss) ∧
      ∃ reg ss', h' = <[a := CtxObj (set_ctx_registry c reg)]> h ∧ AtbRegistry.sessions reg !! id ss = Some ss' ∧ synced ss' ss').
Proof.
  intros Hcall Hans. destruct (caddy_call_served (W := W) h a c ss e next r msg ct rw Hcall) as (ct' & Hopen & Hrun). exists ct'. split; [done|].
  eapply runs_mono; [exact Hrun|]. intros o h' [-> Hh'].
  destruct (send_encrypted_answers rw (string_of_list_ascii (encrypted_to_string (hex_encode ct') (server_counter ss))) Hans) as (w & -> & Hst & Hs).
  split_and!; [done|done| |done]. rewrite Hs. apply list_ascii_of_string_of_list_ascii.
Qed.

(** A handler that never calls [WriteHeader], as Go's own handlers may, leaves the status zero,
    and passing that on panics: the client gets no response. *)
Theorem caddy_silent_panics {W : Type} {UP : UuidPrim} {UL : UuidLaws UP} {AP : AeadPrim} {AL : AeadLaws AP} {HaP : HashPrim} {HP : HkdfPrim} {KP : KexPrim}
    {DF : DebugFmt} {XP : HexPrim} {XL : HexLaws XP} {FJ : FfiJson} {CJ : CaddyJson} h a c ss e next r msg ct rw :
  caddy_call h a c ss e next r msg ct rw → ri_status rw = 0 → rw_status (ri_inner rw) = None →
  yields (W := W) h (ServeHTTP e (Some a) next new_response r) (λ o _, o.1 = Panics).
Proof.
  intros Hcall H0 Hnone. destruct (caddy_call_served (W := W) h a c ss e next r msg ct rw Hcall) as (ct' & _ & Hrun).
  eapply runs_mono; [exact Hrun|]. intros o h' [-> _]. unfold send_encrypted, write_header. cbn. by rewrite Hnone, H0.
Qed.

(** A length that the handler behind declares, of its own body, stays in the headers of the
    encrypted one: nothing of it is sent when it is longer. *)
Theorem caddy_declared_length {W : Type} {UP : UuidPrim} {UL : UuidLaws UP} {AP : AeadPrim} {AL : AeadLaws AP} {HaP : HashPrim} {HP : HkdfPrim} {KP : KexPrim}
    {DF : DebugFmt} {XP : HexPrim} {XL : HexLaws XP} {FJ : FfiJson} {CJ : CaddyJson} h a c ss e next r msg ct rw l :
  caddy_call h a c ss e next r msg ct rw → 200 ≤ ri_status rw ≤ 999 → rw_status (ri_inner rw) = None → rw_sent (ri_inner rw) = [] → rw_count (ri_inner rw) = 0 →
  declared_length (rw_header (ri_inner rw)) = Some l →
  (∀ x n, l < Z.of_nat (length (encrypted_to_string x n))) →
  yields (W := W) h (ServeHTTP e (Some a) next new_response r) (λ o _, o.1 = Returns None ∧ rw_sent o.2 = []).
Proof.
  intros Hcall Hst Hnone Hsent Hcount Hdecl Hl. destruct (caddy_call_served (W := W) h a c ss e next r msg ct rw Hcall) as (ct' & _ & Hrun).
  eapply runs_mono; [exact Hrun|]. intros o h' [-> _]. unfold send_encrypted, write_header. cbv zeta. change (rw_status (json_header _)) with (rw_status (ri_inner rw)).
  rewrite Hnone, decide_True by lia. rewrite decide_False by lia. cbn [fst snd]. split; [done|].
  unfold write_json, write_body, commit. cbn [rw_status]. case_decide; [done|]. case_match; [|done]. cbn [rw_length]. rewrite declared_json, Hdecl. cbn [rw_count]. change (rw_count (json_header _)) with (rw_count (ri_inner rw)). rewrite Hcount.
  unfold as_bytes. rewrite list_ascii_of_string_of_list_ascii, decide_True; [done|]. specialize (Hl (hex_encode ct') (server_counter ss)). lia.
Qed.

(** A request that names a session but carries no [Attest-Nonce] is refused before the handler
    behind sees it, whatever its body: its nonce is taken to be zero. *)
Theorem caddy_nonce_required {W : Type} {UP : UuidPrim} {AP : AeadPrim} {HaP : HashPrim} {HP : HkdfPrim} {KP : KexPrim}
    {DF : DebugFmt} {XP : HexPrim} {FJ : FfiJson} {CJ : CaddyJson} (h : Heap) a c e next w r :
  h !! a = Some (CtxObj c) → (∀ i s, AtbRegistry.sessions (ctx_registry c) !! i = Some s → 0 ≤ strict_last_seen s) →
  gr_path r ≠ "/api/attest"%string → header_get (gr_header r) STR_ATTEST_BASE_ID ≠ [] → hm_get (gr_header r) "attest-nonce" = None →
  yields (W := W) h (ServeHTTP e (Some a) next w r)
    (λ o h', ∃ status err c', o = fails status err w ∧ status ∈ [400; 403; 413] ∧ h' = <[a := CtxObj c']> h).
Proof.
  intros Ha Hs Hp Hid Hn. assert (h = <[a := CtxObj c]> h) as Hh by (symmetry; by apply insert_id).
  unfold ServeHTTP. rewrite decide_False by naive_solver. rewrite decide_False by done. unfold serve_trusted.
  assert (header_get (gr_header r) "attest-nonce" = []) as -> by (unfold header_get; by rewrite Hn). change (sscanf_d []) with 0.
  destruct (read_limited _ _) as [body|err]; [|apply runs_ret; exists 413, err, c; split_and!; [done|set_solver|done]].
  destruct (unmarshal_trr body) as [ciphertext|err]; [|apply runs_ret; exists 400, err, c; split_and!; [done|set_solver|done]].
  eapply runs_bind; [eapply go_in_session_fails; [exact Ha|]|].
  - intros i s x v Hi. by rewrite decrypted_zero by by eapply Hs.
  - intros pt h' (c' & -> & ->). apply runs_ret. exists 403, "openhttpa: decryption failed"%string, c'. split_and!; [done|set_solver|done].
Qed.

Lemma trusted_request_headers {AP : AeadPrim} {HaP : HashPrim} {MP : HmacPrim} {UP : UuidPrim} {XP : HexPrim} {BP : Base64Prim} {J : CiphertextJson}
    now s method path query authority body extra hdrs b s' name :
  trusted_request now s method path query authority body extra = (Ok (hdrs, b), s') →
  name ∉ [STR_ATTEST_BASE_ID; STR_ATTEST_TICKET; STR_CONTENT_TYPE] →
  hm_get hdrs name = hm_get (default [] extra) name ∧ hm_get hdrs STR_ATTEST_BASE_ID = Some (as_bytes (uuid_to_string (id s))).
Proof.
  unfold trusted_request. case_match; [|done]. unfold seal_request_body, AttestSession.with_keys_for_next_trr.
  destruct (AttestSession.with_keys_for_trr _ _ _ _) as [[[x|err]|err] s1] eqn:Hk; cbn [flatten_session]; [|by intros [=]..].
  apply AttestSession.with_keys_for_trr_Ok in Hk as [_ Hf]. destruct x as [[hd ct] n]. cbn [mbind result_bind]. intros [= <- _ _] Hname.
  unfold request_closure in Hf. inv_ok. rewrite !not_elem_of_cons in Hname. destruct Hname as (Hn1 & Hn2 & Hn3 & _).
  rewrite !hm_get_insert_ne by done. by rewrite hm_get_insert.
Qed.

(** The requests of this repository's client carry their nonce in the ticket, so that Caddy
    refuses all of them. *)
Theorem caddy_refuses_client {W : Type} {UP : UuidPrim} {AP : AeadPrim} {HaP : HashPrim} {HP : HkdfPrim} {MP : HmacPrim} {KP : KexPrim}
    {DF : DebugFmt} {XP : HexPrim} {BP : Base64Prim} {J : CiphertextJson} {FJ : FfiJson} {CJ : CaddyJson} (h : Heap) a c e next w
    now s method path query authority body extra hdrs b s' :
  trusted_request now s method path query authority body extra = (Ok (hdrs, b), s') → hm_get (default [] extra) "attest-nonce" = None →
  path ≠ "/api/attest"%string → uuid_to_string (id s) ≠ EmptyString →
  h !! a = Some (CtxObj c) → (∀ i s, AtbRegistry.sessions (ctx_registry c) !! i = Some s → 0 ≤ strict_last_seen s) →
  yields (W := W) h (ServeHTTP e (Some a) next w (mk_go_request method path hdrs (mk_go_body b None) (Z.of_nat (length b))))
    (λ o _, ∃ status err, o = fails status err w ∧ status ∈ [400; 403; 413]).
Proof.
  intros Hreq Hx Hp Hne Ha Hs. apply trusted_request_headers with (name := "attest-nonce"%string) in Hreq as [Hn Hid]; [|by apply (bool_decide_eq_false_1 (_ ∈ _))].
  eapply runs_mono; [eapply caddy_nonce_required; [exact Ha|exact Hs|done| |cbn [gr_header]; by rewrite Hn]|by intros o h' (st & err & c' & -> & Hst & _); eauto].
  cbn. unfold header_get. rewrite Hid. cbn. by destruct (uuid_to_string (id s)).
Qed.

(** ** nginx *)

Definition NGX_OK : Z := 0.
(** A body filter: the module's own, or one that another module installed. *)
Inductive Filter : Type := OpenHttpaFilter | OtherFilter (f : bytes → Z).

Record NgxState : Type := mk_ngx {
  ng_registry : AtbRegistry.t;
  ng_queue : gset positive;                (* COMPLETION_QUEUE *)
  ng_finalized : gmap positive Z;          (* the status each request was finalized with *)
  ng_jobs : gmap positive bytes;           (* requests whose body waits for a worker *)
  ng_top_body_filter : option Filter;
}.
Definition REGISTRY : AtbRegistry.t := AtbRegistry.with_capacity (Z.to_nat 10000).
Definition EXECUTOR : AtHsExecutor := with_config [] [] true false.
Definition ngx_start (filter : option Filter) : NgxState := mk_ngx REGISTRY ∅ ∅ ∅ filter.
Definition finalize_request (st : NgxState) (r : positive) (status : Z) : NgxState :=
  mk_ngx (ng_registry st) (ng_queue st) (<[r := status]> (ng_finalized st)) (ng_jobs st) (ng_top_body_filter st).
Definition set_ng_registry (st : NgxState) (reg : AtbRegistry.t) : NgxState :=
  mk_ngx reg (ng_queue st) (ng_finalized st) (ng_jobs st) (ng_top_body_filter st).

(** [openhttpa_handler]: [true] if the body of the request is read for it. *)
Definition openhttpa_handler (method uri : string) : bool := bool_decide (method = "POST"%string ∧ uri = "/api/attest"%string).

(** [read_request_body]: the chain of buffers in memory, [None] for a null pointer. *)
Definition read_request_body (bufs : option (list bytes)) : option bytes := @concat _ <$> bufs.

(** [serde_json::from_slice] *)
Class NginxJson : Type := { parse_request_body : bytes → option HandshakeBody }.

Section nginx.
Context {AP : AeadPrim} {HaP : HashPrim} {HP : HkdfPrim} {KP : KexPrim} {UP : UuidPrim} {XP : HexPrim} {DF : DebugFmt} {NJ : NginxJson}.

(** [decode_hex] and [decode_hex_48] *)
Definition decode_hex (n : nat) (s : string) : option bytes :=
  b ← hex_decode s; if decide (length b = n) then Some b else None.

Definition nginx_request (b : HandshakeBody) : AtHsRequest :=
  Handshake.mk_request [X25519MlKem768Aes256GcmSha384] [V2] (default (replicate 32 NUL) (decode_hex 32 (hb_random b)))
    (default (replicate 48 NUL) (decode_hex 48 (hb_challenge b))) (mk_share (hex_or_empty (hb_ecdhe b)) (hex_or_empty (hb_mlkem b))) [] 3600.

(** [openhttpa_handshake_body_handler]: a job for the pool. *)
Definition handshake_body_handler (st : NgxState) (r : positive) (bufs : option (list bytes)) : NgxState :=
  match read_request_body bufs with
  | None => finalize_request st r 500
  | Some body => mk_ngx (ng_registry st) (ng_queue st) (ng_finalized st) (<[r := body]> (ng_jobs st)) (ng_top_body_filter st)
  end.

(** The job on a worker; a panic ends the worker and leaves the request. *)
Definition handshake_job (env : ServerEnv) (tee : TeeProvider) (st : NgxState) (r : positive) (body_bytes : bytes) : NgxState :=
  match parse_request_body body_bytes with
  | None => mk_ngx (ng_registry st) ({[r]} ∪ ng_queue st) (ng_finalized st) (ng_jobs st) (ng_top_body_filter st)
  | Some body =>
      match execute_server EXECUTOR env (nginx_request body) (Some tee) None None with
      | Panics => st
      | Returns (Err _) => finalize_request st r 403
      | Returns (Ok (suite, version, _, res)) =>
          match AtbRegistry.insert (ng_registry st) (ffi_session suite version res) with
          | (Ok _, reg) => finalize_request (set_ng_registry st reg) r 200
          | (Err _, reg) => set_ng_registry st reg
          end
      end
  end.

Inductive NgxEvent : Type :=
| BodyRead (r : positive) (bufs : option (list bytes))
| Worker (r : positive) (env : ServerEnv) (tee : TeeProvider).
Definition ngx_step (st : NgxState) (ev : NgxEvent) : NgxState :=
  match ev with
  | BodyRead r bufs => handshake_body_handler st r bufs
  | Worker r env tee =>
      match ng_jobs st !! r with
      | None => st
      | Some body =>
          handshake_job env tee (mk_ngx (ng_registry st) (ng_queue st) (ng_finalized st) (delete r (ng_jobs st)) (ng_top_body_filter st)) r body
      end
  end.
Definition ngx_run (st : NgxState) (evs : list NgxEvent) : NgxState := foldl ngx_step st evs.

End nginx.

(** The filter chain, with the number of calls allowed.  [openhttpa_post_config] installs the
    filter at the top, and the filter calls the top. *)
Definition openhttpa_post_config (st : NgxState) : NgxState :=
  mk_ngx (ng_registry st) (ng_queue st) (ng_finalized st) (ng_jobs st) (Some OpenHttpaFilter).
Fixpoint openhttpa_body_filter (fuel : nat) (top : option Filter) (chain : bytes) : option Z :=
  match fuel with
  | O => None
  | S fuel =>
      match top with
      | None => Some NGX_OK
      | Some (OtherFilter f) => Some (f chain)
      | Some OpenHttpaFilter => openhttpa_body_filter fuel top chain
      end
  end.

(** ** Envoy *)

Definition process_openhttpa_headers (versions : string) : bool := contains (as_bytes versions) (as_bytes "1.0").
Definition PROXIED : string := "x-openhttpa-proxied".
(** [on_http_request_headers] *)
Definition on_http_request_headers (h : HeaderMap) : HeaderMap :=
  match hm_get h "attest-versions" with
  | Some v => if process_openhttpa_headers (string_of_list_ascii v) then hm_insert h PROXIED (as_bytes "true") else h
  | None => h
  end.

(** ** The browser extension *)

Record ExtSession : Type := mk_ext_session { ex_base_id : string; ex_origin : string; ex_timestamp : Z }.
Record DnrRule : Type := mk_rule { rule_id : nat; rule_headers : list (string * string); rule_filter : string }.
(** [updateDnrRules]: the new rules replace all old ones. *)
Definition dnr_rules (activeSessions : list ExtSession) : list DnrRule :=
  imap (λ index s, mk_rule (S index) [(STR_ATTEST_BASE_ID, ex_base_id s); ("attest-versions"%string, "openhttpa"%string)] (ex_origin s +:+ "/*"))
    activeSessions.
(** The headers of a request that a rule applies to. *)
Definition apply_rule (rule : DnrRule) (h : HeaderMap) : HeaderMap :=
  foldl (λ h nv, hm_insert h nv.1 (as_bytes nv.2)) h (rule_headers rule).

(** *** What the plugins do *)

(** The filter never returns once it is installed, whatever was there before: it calls
    itself. *)
Theorem nginx_filter_diverges (st : NgxState) (fuel : nat) (chain : bytes) :
  openhttpa_body_filter fuel (ng_top_body_filter (openhttpa_post_config st)) chain = None.
Proof. induction fuel as [|fuel IH]; [done|]. exact IH. Qed.

Section nginx_facts.
Context {HaP : HashPrim} {HP : HkdfPrim} {KP : KexPrim} {UP : UuidPrim} {XP : HexPrim} {DF : DebugFmt} {NJ : NginxJson}.

(** What a step adds to the answers. *)
Lemma ngx_step_finalized st ev r status :
  ng_finalized (ngx_step st ev) !! r = Some status →
  ng_finalized st !! r = Some status ∨
  (ev = BodyRead r None ∧ status = 500) ∨
  ∃ env tee body hb, ev = Worker r env tee ∧ ng_jobs st !! r = Some body ∧ parse_request_body body = Some hb ∧
    match execute_server EXECUTOR env (nginx_request hb) (Some tee) None None with
    | Returns (Ok _) => status = 200
    | Returns (Err _) => status = 403
    | Panics => False
    end.
Proof using.
  destruct ev as [r' bufs|r' env tee]; cbn [ngx_step].
  - unfold handshake_body_handler. destruct bufs as [bufs|]; cbn; [by left|]. rewrite lookup_insert_Some. naive_solver.
  - destruct (ng_jobs st !! r') as [body|] eqn:Hj; [|by left]. unfold handshake_job.
    destruct (parse_request_body body) as [hb|] eqn:Hb; [|by left].
    destruct (execute_server _ _ _ _ _ _) as [[[[[suite version] share] res]|err]|] eqn:Hx; [| |by left].
    + destruct (AtbRegistry.insert _ _) as [[u|err] reg]; [|by left]. cbn. rewrite lookup_insert_Some.
      intros [[<- <-]|[_ H]]; [|by left]. right. right. exists env, tee, body, hb. by rewrite Hx.
    + cbn. rewrite lookup_insert_Some. intros [[<- <-]|[_ H]]; [|by left]. right. right. exists env, tee, body, hb. by rewrite Hx.
Qed.
Lemma ngx_step_jobs st ev r body : ng_jobs (ngx_step st ev) !! r = Some body → ng_jobs st !! r = Some body ∨ ∃ bufs, ev = BodyRead r (Some bufs) ∧ body = concat bufs.
Proof using.
  destruct ev as [r' [bufs|]|r' env tee]; cbn [ngx_step handshake_body_handler read_request_body fmap option_fmap option_map].
  - cbn. rewrite lookup_insert_Some. naive_solver.
  - by left.
  - destruct (ng_jobs st !! r') as [b|] eqn:Hj; [|by left]. intros H. left.
    assert (ng_jobs (handshake_job env tee (mk_ngx (ng_registry st) (ng_queue st) (ng_finalized st) (delete r' (ng_jobs st)) (ng_top_body_filter st)) r' b) = delete r' (ng_jobs st)) as Hd.
    { unfold handshake_job. repeat case_match; done. }
    rewrite Hd in H. by apply lookup_delete_Some in H as [_ H].
Qed.

End nginx_facts.

(** A request with a malformed body is never answered: its entry in the queue is not read by
    anything. *)
Theorem nginx_malformed_hangs {HaP : HashPrim} {HP : HkdfPrim} {KP : KexPrim} {UP : UuidPrim} {XP : HexPrim} {DF : DebugFmt} {NJ : NginxJson}
    (evs : list NgxEvent) (filter : option Filter) (r : positive) :
  (∀ bufs, BodyRead r bufs ∈ evs → ∃ bs, bufs = Some bs ∧ parse_request_body (concat bs) = None) →
  ng_finalized (ngx_run (ngx_start filter) evs) !! r = None.
Proof.
  intros Hbad. assert (ng_finalized (ngx_run (ngx_start filter) evs) !! r = None ∧
    ∀ body, ng_jobs (ngx_run (ngx_start filter) evs) !! r = Some body → parse_request_body body = None) as [H _]; [|done].
  unfold ngx_run. induction evs as [|ev evs IH] using rev_ind; [by split|]. rewrite foldl_app. cbn [foldl].
  destruct IH as [IHf IHj]; [intros bufs Hin; apply Hbad; set_solver|]. split.
  - apply eq_None_not_Some. intros [status [H|[[-> _]|(env & tee & body & hb & -> & Hj & Hb & _)]]%ngx_step_finalized].
    + congruence.
    + destruct (Hbad None) as (bs & [=] & _). set_solver.
    + by rewrite (IHj _ Hj) in Hb.
  - intros body [H|(bufs & -> & ->)]%ngx_step_jobs; [by apply IHj|]. destruct (Hbad (Some bufs)) as (bs & [= <-] & Hb); [set_solver|done].
Qed.

(** Every answer 200 of the module is that of a completed handshake on the request's own
    body. *)
Theorem nginx_ok_sound {HaP : HashPrim} {HP : HkdfPrim} {KP : KexPrim} {UP : UuidPrim} {XP : HexPrim} {DF : DebugFmt} {NJ : NginxJson}
    (evs : list NgxEvent) (filter : option Filter) (r : positive) :
  ng_finalized (ngx_run (ngx_start filter) evs) !! r = Some 200 →
  ∃ bufs env tee hb res, BodyRead r (Some bufs) ∈ evs ∧ Worker r env tee ∈ evs ∧ parse_request_body (concat bufs) = Some hb ∧
    execute_server EXECUTOR env (nginx_request hb) (Some tee) None None = Returns (Ok res).
Proof.
  assert (∀ evs body, ng_jobs (ngx_run (ngx_start filter) evs) !! r = Some body → ∃ bufs, body = concat bufs ∧ BodyRead r (Some bufs) ∈ evs) as Hjobs.
  { clear evs. intros evs. unfold ngx_run. induction evs as [|ev evs IH] using rev_ind; [done|]. rewrite foldl_app. cbn [foldl].
    intros body [H|(bufs & -> & ->)]%ngx_step_jobs; [|set_solver]. apply IH in H as (bufs & -> & Hin). set_solver. }
  unfold ngx_run. induction evs as [|ev evs IH] using rev_ind; [done|]. rewrite foldl_app. cbn [foldl].
  intros [H|[[_ [=]]|(env & tee & body & hb & -> & Hj & Hb & Hx)]]%ngx_step_finalized.
  - destruct (IH H) as (bufs & env & tee & hb & res & H1 & H2 & H3). exists bufs, env, tee, hb, res. set_solver.
  - apply Hjobs in Hj as (bufs & -> & Hin). destruct (execute_server _ _ _ _ _ _) as [[res|err]|] eqn:Hres; [|done..].
    exists bufs, env, tee, hb, res. set_solver.
Qed.

(** The Envoy filter marks none of the versions that this repository speaks. *)
Theorem envoy_never_marks (vs : list ProtocolVersion) : process_openhttpa_headers (String.concat ", " (to_string <$> vs)) = false.
Proof.
  destruct (process_openhttpa_headers _) eqn:Hp; [|done]. exfalso. apply (contains_elem _ _ "."%char) in Hp; [|by apply (bool_decide_eq_true_1 (_ ∈ _))].
  revert Hp. induction vs as [|v vs IH]; cbn [fmap list_fmap String.concat]; [by intros ?%elem_of_nil|].
  assert ("."%char ∉ as_bytes (to_string v)) as Hv by (destruct v; by apply (bool_decide_eq_false_1 (_ ∈ _))).
  destruct vs as [|v' vs]; cbn [fmap list_fmap]; [done|]. rewrite !as_bytes_app, !elem_of_app.
  intros [H|[H|H]]; [by apply Hv| |by apply IH]. revert H. by apply (bool_decide_eq_false_1 (_ ∈ _)).
Qed.

(** With the extension, a browser that attested to an origin behind Caddy loses it: every
    request that a rule tags is refused. *)
Theorem tagged_request_refused {W : Type} {UP : UuidPrim} {AP : AeadPrim} {HaP : HashPrim} {HP : HkdfPrim} {KP : KexPrim}
    {DF : DebugFmt} {XP : HexPrim} {FJ : FfiJson} {CJ : CaddyJson} (h : Heap) a c e next w (sessions : list ExtSession) rule method path hdrs body n :
  rule ∈ dnr_rules sessions → Forall (λ s, ex_base_id s ≠ EmptyString) sessions → hm_get hdrs "attest-nonce" = None → path ≠ "/api/attest"%string →
  h !! a = Some (CtxObj c) → (∀ i s, AtbRegistry.sessions (ctx_registry c) !! i = Some s → 0 ≤ strict_last_seen s) →
  yields (W := W) h (ServeHTTP e (Some a) next w (mk_go_request method path (apply_rule rule hdrs) body n))
    (λ o _, ∃ status err, o = fails status err w ∧ status ∈ [400; 403; 413]).
Proof.
  intros (i & s & -> & Hs)%elem_of_lookup_imap_1 Hne Hn Hp Ha Hseen. rewrite Forall_lookup in Hne. specialize (Hne _ _ Hs).
  eapply runs_mono; [eapply caddy_nonce_required; [exact Ha|exact Hseen|done|..]|by intros o h' (st & err & c' & -> & Hst & _); eauto]; cbn.
  - unfold header_get. rewrite hm_get_insert_ne, hm_get_insert by done. cbn. by destruct (ex_base_id s).
  - by rewrite !hm_get_insert_ne.
Qed.

(** ** Witness *)

Module ToyCaddy.
#[local] Existing Instances Toy.aead ToyWeb.uuid ToyWeb.hex ToyFfi.json.
#[global] Instance json : CaddyJson := {| unmarshal_trr b := Ok (string_of_list_ascii b) |}.
Definition env : CaddyEnv := mk_caddy_env 10 11 12 13 Demo.env.
Definition next (_ : GoRequest) : Handler := HWriteHeader 201 (HWrite (as_bytes "hi") (λ _, HReturn None)).
Definition request (ct : bytes) : GoRequest :=
  mk_go_request "POST" "/a" [(STR_ATTEST_BASE_ID, [as_bytes (uuid_to_string ToyExchange.sid)]); ("attest-nonce"%string, [as_bytes "1"])]
    (mk_go_body (as_bytes (hex_encode ct)) None) 0.
End ToyCaddy.

#[local] Existing Instances Toy.aead ToyWeb.uuid ToyWeb.hex ToyFfi.json ToyCaddy.json.
Lemma caddy_serves_witness :
  let r := ToyCaddy.request match ToyFfi.ct with Ok c => c | Err _ => [] end in
  ∃ ct', AeadKey.open_in_place (AeadKey.mk (server_write_key ToyExchange.keys) Aes256Gcm)
      (build_aead_nonce 1 (server_write_iv ToyExchange.keys)) (request_aad ToyExchange.sid) ct' = Ok (as_bytes "hi") ∧
    yields (W := ()) ToyFfi.heap
      (ServeHTTP (HaP := Toy.hash) (HP := Toy.hkdf) (KP := ToyKex.prim) (DF := Demo.debug) ToyCaddy.env (Some 1%positive) ToyCaddy.next new_response r)
      (λ o _, rw_status o.2 = Some 201 ∧ rw_sent o.2 = as_bytes "encrypted").
Proof.
  intros r. assert (match ToyFfi.ct with Ok c => bool_decide (Z.of_nat (length (as_bytes (hex_encode c))) < MaxResponseBodySize) | Err _ => false end = true) as Hok
    by (vm_compute; reflexivity).
  destruct ToyFfi.ct as [c|] eqn:Hct; [|discriminate Hok]. apply bool_decide_eq_true in Hok.
  destruct (caddy_serves (W := ()) (AL := Toy.aead_laws) (UL := ToyWeb.uuid_laws) (XL := ToyWeb.hex_laws) (FJ := ToyFfi.json) (HaP := Toy.hash) (HP := Toy.hkdf)
    (KP := ToyKex.prim) (DF := Demo.debug) ToyFfi.heap 1%positive ToyFfi.context ToyExchange.server_session ToyCaddy.env ToyCaddy.next r (as_bytes "hello") c
    (mk_interceptor new_response (as_bytes "hi") 201 MaxResponseBodySize)) as (ct' & Hopen & Hrun).
  - split; [reflexivity|reflexivity|apply synced_new; [reflexivity|by_compute]| |by_compute|exact Hct| |reflexivity|intros x n; by_compute].
    + repeat apply Forall_cons_2; [by split..|apply Forall_nil_2].
    + split; [|by_compute]. split; [by_compute|reflexivity|reflexivity| |].
      * by split.
      * cbn. by rewrite string_of_list_ascii_of_string.
  - split_and!; by_compute.
  - exists ct'. split; [exact Hopen|]. eapply runs_mono; [exact Hrun|]. intros [o w] h' (_ & Hst & Hs & _). by split.
Defined.
