(* ===== verification/AgentServer.v ===== *)
(** * The agent server

    [openhttpa-agent-server]: the resolvers of its GraphQL schema ([graphql/]), the intent
    pipeline ([agent/aiql_pipeline.rs]), the bus that carries messages to subscribers, the
    tool socket ([agent/mod.rs]), storage ([state.rs]) and the middleware of [auth.rs].
    A resolver is a function of its arguments, of the data in its context and of the state it
    changes.  Confidences are 64-bit floats, in the Standard Library's specification of
    them. *)

From S2P Require Import Prelude Crypto Proto Attestation Tee Http Trailers Middleware Codec Zk Llm A2a Mcp Services.
From Stdlib Require Import Floats.SpecFloat.
From stdpp Require Import options.

#[local] Open Scope Z_scope.

(** ** Storage *)

(** [StorageBackend], on the state [S] of the store. *)
Class StorageBackend (S : Type) : Type := {
  st_save : S → string → bytes → result string () * S;
  st_load : S → string → result string (option bytes);
}.
(** [RedisStorage]: each command opens a connection, which can fail. *)
Record RedisStorage : Type := mk_redis { rs_data : gmap string bytes; rs_connection : result string () }.
#[export] Instance redis_storage : StorageBackend RedisStorage := {|
  st_save s k v := match rs_connection s with
    | Err e => (Err e, s) | Ok _ => (Ok (), mk_redis (<[k := v]> (rs_data s)) (rs_connection s)) end;
  st_load s k := _ ← rs_connection s; Ok (rs_data s !! k);
|}.
Inductive PostgresStorage : Type := Postgres.
#[export] Instance postgres_storage : StorageBackend PostgresStorage := {|
  st_save s _ _ := (Ok (), s);
  st_load _ _ := Ok None;
|}.
Inductive Storage : Type := RedisBackend (r : RedisStorage) | PostgresBackend (p : PostgresStorage).
#[export] Instance storage_backend : StorageBackend Storage := {|
  st_save s k v := match s with
    | RedisBackend r => let '(o, r) := st_save r k v in (o, RedisBackend r)
    | PostgresBackend p => let '(o, p) := st_save p k v in (o, PostgresBackend p) end;
  st_load s k := match s with RedisBackend r => st_load r k | PostgresBackend p => st_load p k end;
|}.

Inductive SecurityLevel : Type := Standard | High | Paranoid.
Record AppState : Type := mk_app_state { as_storage : Storage; security_level : SecurityLevel }.
(** [AppState::new], of the environment and of what opening the address gives. *)
Definition new_app_state (storage_backend redis_url : option string) (open : string → result string RedisStorage) : result string AppState :=
  storage ← (if decide (default "redis"%string storage_backend = "postgres"%string) then Ok (PostgresBackend Postgres)
             else r ← open (default "redis://127.0.0.1/"%string redis_url); Ok (RedisBackend r));
  Ok (mk_app_state storage High).

(** ** Context *)

(** What [ctx.data] finds: the data of the schema and that of the request. *)
Record GqlContext : Type := mk_gql { gc_state : option AppState; gc_posture : option ClientSecurityPosture }.
(** [build_schema] adds no data. *)
Definition schema_context : GqlContext := mk_gql None None.
Definition ctx_state (ctx : GqlContext) : result string AppState :=
  ok_or (gc_state ctx) "Data `openhttpa_agent_server::state::AppState` does not exist."%string.

(** The posture of [graphql_handler]. *)
Definition simulated_posture (headers : HeaderMap) : ClientSecurityPosture :=
  match hm_get headers "x-simulate-client-posture" ≫= to_str with
  | Some s => if decide (s = "MutualTee"%string) then MutualTee IntelTdx
              else if decide (s = "SimulatedTee"%string) then SimulatedTee else OneDirectional
  | None => OneDirectional
  end.
Definition request_context (headers : HeaderMap) : GqlContext := mk_gql (gc_state schema_context) (Some (simulated_posture headers)).

(** [auth_middleware]: the identity that the request is given, or a status. *)
Definition auth_middleware {Url : Type} (parse : string → result string Url) (headers : HeaderMap) : outcome (result Z string) :=
  match hm_get headers "authorization" ≫= to_str with
  | None => Returns (Err 401)
  | Some token =>
      match new_resolver parse "http://localhost:8545" with
      | Err _ => Panics
      | Ok resolver =>
          Returns match resolve_did resolver token with
                  | Ok _ | Err (NotImplemented _) => Ok token
                  | Err _ => Err 401
                  end
      end
  end.

(** ** Keys *)

Record PreKeyBundle : Type := mk_pre_keys { identity_key : string; signed_pre_key : string; pre_key_signature : string; one_time_pre_keys : list string }.
Definition mock_bundle : PreKeyBundle := mk_pre_keys "mock_id" "mock_signed" "mock_sig" ["mock_otpk"%string].
Class KeysJson : Type := { bundle_to_vec : PreKeyBundle → result string bytes; bundle_from_slice : bytes → result string PreKeyBundle }.
Class KeysJsonLaws (J : KeysJson) : Prop := { bundle_round_trip b v : bundle_to_vec b = Ok v → bundle_from_slice v = Ok b }.

Section keys.
Context {J : KeysJson}.

Definition get_pre_keys (ctx : GqlContext) (device_id : string) : result string PreKeyBundle :=
  app ← ctx_state ctx;
  data ← st_load (as_storage app) device_id;
  match data with Some d => bundle_from_slice d | None => Ok mock_bundle end.
Definition upload_pre_keys (ctx : GqlContext) (device_id : string) (keys : PreKeyBundle) : result string bool * GqlContext :=
  match (app ← ctx_state ctx; data ← bundle_to_vec keys; Ok (app, data)) with
  | Err e => (Err e, ctx)
  | Ok (app, data) =>
      let '(r, storage) := st_save (as_storage app) device_id data in
      (_ ← r; Ok true, mk_gql (Some (mk_app_state storage (security_level app))) (gc_posture ctx))
  end.

End keys.

(** ** Attestation *)

Record AgentAttestationQuote : Type := mk_agent_quote { aq_type : string; aq_raw : string; aq_qudd : string; aq_uris : list string }.
Definition get_agent_attestation {HaP : HashPrim} {HP : HkdfPrim} {BJ : BundleJson} {BP : Base64Prim} (b : Build) (nonce : string)
    : outcome (result string AgentAttestationQuote) :=
  let report_data := sha384 (as_bytes nonce) ++ replicate 16 (u8_of 0) in
  provider ← MockTeeProvider.with_override b Tdx;
  quote ← MockTeeProvider.generate_quote b provider report_data;
  Returns (q ← map_err (λ e, "Failed to generate TEE quote: " +:+ to_string e)%string quote;
           Ok (mk_agent_quote (to_string (quote_type q)) (b64_encode (quote_raw q)) (b64_encode (qudd q)) (collateral_uris q))).

(** ** Intents *)

(** The 64-bit floats 0.5, 0.8 and 0.9. *)
Definition f64_half : spec_float := S754_finite false 4503599627370496 (-53).
Definition f64_0_8 : spec_float := S754_finite false 7205759403792794 (-53).
Definition f64_0_9 : spec_float := S754_finite false 8106479329266893 (-53).

Record AiqlPolicyConfig : Type := mk_policy_config { bypass_clarification : option bool; confidence_threshold : option spec_float; policy_id : option string }.
Record ClarificationPrompt : Type := mk_prompt { cp_message_id : string; original_intent : string; clarifying_questions : list string }.
Inductive IntentStatus : Type := Clear (intent : string) | Ambiguous (prompt : ClarificationPrompt).

Definition QUESTIONS : list string := ["Could you specify the exact amount?"; "Who is the intended final recipient?"]%string.

Section intents.
(** [AiqlParser::parse_json] and the tensor of the inference engine. *)
Context (parse_json : string → result string ()) (tensor : result string ()).

Definition bypassed (policy : option AiqlPolicyConfig) : bool := match policy with Some p => default false (bypass_clarification p) | None => false end.
Definition threshold (policy : option AiqlPolicyConfig) : spec_float := default f64_0_8 (policy ≫= confidence_threshold).
Definition confidence (payload : string) : spec_float := if contains (as_bytes payload) (as_bytes "ambiguous") then f64_half else f64_0_9.
Definition is_json (payload : string) : bool := starts_with "{" (trim payload).

Definition evaluate_intent (message_id payload : string) (policy : option AiqlPolicyConfig) : IntentStatus :=
  if bypassed policy then Clear ("AIQL: DeterministicPolicy[" +:+ payload +:+ "]")
  else
    match (if is_json payload then parse_json payload else Ok ()) with
    | Err e => Ambiguous (mk_prompt message_id payload ["Invalid AIQL JSON: " +:+ e]%string)
    | Ok _ =>
        let llm_result := match run_inference tensor payload with Ok r => r | Err _ => EmptyString end in
        if SFltb (confidence payload) (threshold policy) then Ambiguous (mk_prompt message_id payload QUESTIONS)
        else Clear ("AIQL: Translated[" +:+ payload +:+ "] via LLM[" +:+ llm_result +:+ "]")
    end.

(** ** Messages *)

Record SealedSenderMessage : Type := mk_sealed_message {
  recipient_device_id : string; agent_unsealable_payload : string; e2e_encrypted_payload : string;
  aiql_policy : option AiqlPolicyConfig; aiql_intent : option string;
}.
Inductive SendMessageResult : Type := Success (message_id : string) (dispatched : bool) | NeedsClarification (p : ClarificationPrompt).

(** A subscriber: where it joined the log, what it was given, what waits, whether it lost
    messages, and whether its stream has ended. *)
Record Subscriber : Type := mk_subscriber {
  sb_start : nat; sb_seen : list SealedSenderMessage; sb_queue : list SealedSenderMessage; sb_lagged : bool; sb_ended : bool;
}.
(** The bus; [bus_log] is every message that was sent on it. *)
Record Bus : Type := mk_bus { bus_subs : gmap nat Subscriber; bus_log : list SealedSenderMessage }.
Context (capacity : nat).

Definition offer (m : SealedSenderMessage) (s : Subscriber) : Subscriber :=
  if sb_ended s then s
  else if decide (length (sb_queue s) < capacity)%nat then mk_subscriber (sb_start s) (sb_seen s) (sb_queue s ++ [m]) (sb_lagged s) false
  else mk_subscriber (sb_start s) (sb_seen s) (drop 1 (sb_queue s ++ [m])) true false.
Definition bus_send (b : Bus) (m : SealedSenderMessage) : Bus := mk_bus (offer m <$> bus_subs b) (bus_log b ++ [m]).
(** [message_stream] *)
Definition subscribe (b : Bus) (c : nat) : Bus := mk_bus (<[c := mk_subscriber (length (bus_log b)) [] [] false false]> (bus_subs b)) (bus_log b).
(** One poll of the stream, which ends at the first error. *)
Definition poll (s : Subscriber) : Subscriber :=
  if sb_ended s then s
  else if sb_lagged s then mk_subscriber (sb_start s) (sb_seen s) [] true true
  else match sb_queue s with [] => s | m :: q => mk_subscriber (sb_start s) (sb_seen s ++ [m]) q false false end.

Definition send_sealed_message (message_id : string) (message : SealedSenderMessage) (b : Bus) : SendMessageResult * Bus :=
  match evaluate_intent message_id (agent_unsealable_payload message) (aiql_policy message) with
  | Ambiguous prompt => (NeedsClarification prompt, b)
  | Clear intent =>
      (Success message_id true,
       bus_send b (mk_sealed_message (recipient_device_id message) (agent_unsealable_payload message) (e2e_encrypted_payload message)
         (aiql_policy message) (Some intent)))
  end.
Definition confirm_message_intent (message_id clarified_payload : string) (message : SealedSenderMessage) (b : Bus) : SendMessageResult * Bus :=
  match evaluate_intent message_id clarified_payload None with
  | Ambiguous prompt => (NeedsClarification prompt, b)
  | Clear intent =>
      (Success message_id true,
       bus_send b (mk_sealed_message (recipient_device_id message) clarified_payload (e2e_encrypted_payload message)
         (aiql_policy message) (Some intent)))
  end.

End intents.

(** ** Domains *)

Definition ZERO_TRANSCRIPT : bytes := replicate 48 (u8_of 0).
(** The balance of the only account, 1000.0. *)
Definition f64_1000 : spec_float := S754_finite false 8796093022208000 (-43).
Definition get_balance (account_id : string) : spec_float := if decide (account_id = "alice"%string) then f64_1000 else S754_zero false.

Section domains.
Context {HaP : HashPrim} {XP : HexPrim} {R : Type}.
(** [postcard] on receipts, and [ZkVerifier::verify] of the build. *)
Context (receipt_from_bytes : bytes → result string R) (zk_verify : R → bytes → result ZkError ZkOutput).

(** What the resolvers with a proof have in common. *)
Definition check_proof (proof : string) (transcript_hash : bytes) (invalid : string) : result string () :=
  proof_bytes ← ok_or (hex_decode proof) "Invalid proof hex"%string;
  receipt ← map_err (λ e, "Invalid proof format: " +:+ e)%string (receipt_from_bytes proof_bytes);
  match zk_verify receipt transcript_hash with
  | Ok output => if is_valid (zo_fields output) then Ok () else Err invalid
  | Err e => Err ("ZK verification error: " +:+ to_string e)%string
  end.

Definition zk_ad_match (zk_ad_preferences : string) : result string bool :=
  _ ← check_proof zk_ad_preferences ZERO_TRANSCRIPT "ZK ad preference verification failed: receipt invalid"; Ok true.
Definition relay_finance_intent (encrypted_intent tx_proof : string) : result string bool :=
  _ ← check_proof tx_proof (sha384 (as_bytes encrypted_intent)) "ZK verification failed: receipt marked invalid"; Ok true.
Definition submit_transaction (tx_data : string) : string := hex_encode (sha384 (as_bytes tx_data)).

(** [serde_json] on evidence. *)
Context (evidence_from_slice : bytes → result string AttestationEvidence).
Definition store_attested_record (encrypted_record_id tee_attestation : string) : result string bool :=
  decoded ← ok_or (hex_decode tee_attestation) "Invalid hex"%string;
  evidence ← map_err (λ e, "Invalid evidence format: " +:+ e)%string (evidence_from_slice decoded);
  Ok true.

(** The state is the set of used signatures. *)
Definition submit_blind_vote (sigs : gset string) (blind_signature zk_snark_proof : string) : result string bool * gset string :=
  match check_proof zk_snark_proof ZERO_TRANSCRIPT "ZK verification failed: receipt invalid" with
  | Err e => (Err e, sigs)
  | Ok _ =>
      if decide (blind_signature ∈ sigs) then (Err "Double voting detected: signature already used"%string, sigs)
      else (Ok true, {[blind_signature]} ∪ sigs)
  end.
(** The votes of a run that were accepted. *)
Fixpoint vote_run (sigs : gset string) (votes : list (string * string)) : list (string * string) * gset string :=
  match votes with
  | [] => ([], sigs)
  | (sig, proof) :: votes =>
      let '(r, sigs) := submit_blind_vote sigs sig proof in
      let '(accepted, sigs) := vote_run sigs votes in
      (if is_ok r then (sig, proof) :: accepted else accepted, sigs)
  end.

End domains.

(** ** Tools *)

(** [handle_mcp_socket]: the answers to the text messages of a connection, on a server without
    tools; [None] for any other message. *)
Definition mcp_answers {RJ : RpcJson} (from_utf8 : bytes → option string) (msgs : list (option string)) : list string :=
  omap (λ msg, text ← msg;
    match (McpServer.handle_request (S := ()) McpServer.new (as_bytes text) ()).1 with
    | Ok response => from_utf8 response
    | Err _ => None
    end) msgs.

(** ** What holds *)

(** The context has no state, so that both resolvers of keys fail whatever they are asked. *)
Theorem keys_unavailable {J : KeysJson} (headers : HeaderMap) (device_id : string) (keys : PreKeyBundle) :
  let ctx := request_context headers in
  let e := "Data `openhttpa_agent_server::state::AppState` does not exist."%string in
  get_pre_keys ctx device_id = Err e ∧ upload_pre_keys ctx device_id keys = (Err e, ctx).
Proof. done. Qed.

(** With the state in the context, the keys of a device are those of its last upload on Redis;
    on Postgres they are the mock ones. *)
Theorem keys_round_trip {J : KeysJson} {L : KeysJsonLaws J} (ctx ctx' : GqlContext) (app : AppState) (device_id : string) (keys : PreKeyBundle) :
  gc_state ctx = Some app → upload_pre_keys ctx device_id keys = (Ok true, ctx') →
  get_pre_keys ctx' device_id = Ok match as_storage app with RedisBackend _ => keys | PostgresBackend _ => mock_bundle end ∧
  ∀ other, other ≠ device_id → get_pre_keys ctx' other = get_pre_keys ctx other.
Proof.
  intros Happ. unfold upload_pre_keys, get_pre_keys, ctx_state. rewrite Happ. cbn [ok_or mbind result_bind].
  destruct (bundle_to_vec keys) as [v|e] eqn:Hv; [|by intros [=]]. cbn [mbind result_bind]. apply bundle_round_trip in Hv.
  destruct app as [[[data [u|e]]|[]] lvl]; cbn; [|by intros [=]|].
  - intros [= <-]. cbn. rewrite lookup_insert_eq. split; [done|]. intros other Hne. by rewrite lookup_insert_ne.
  - intros [= <-]. by cbn.
Qed.

(** Any token passes: no identity is ever resolved. *)
Theorem auth_accepts_any {Url : Type} (parse : string → result string Url) (headers : HeaderMap) (token : string) (url : Url) :
  parse "http://localhost:8545"%string = Ok url → hm_get headers "authorization" ≫= to_str = Some token →
  auth_middleware parse headers = Returns (Ok token).
Proof. intros Hp Ht. unfold auth_middleware, new_resolver. rewrite Ht, Hp. done. Qed.

(** Outside debug builds the resolver panics unless the environment allows mock hardware; else the
    quote of a mock is shown as one of TDX. *)
Theorem agent_attestation_mock {HaP : HashPrim} {HP : HkdfPrim} {BJ : BundleJson} {BP : Base64Prim} (b : Build) (nonce : string) :
  (debug_build b = false → var_allow_mock_hardware b = false → get_agent_attestation b nonce = Panics) ∧
  (debug_build b = true → var_mock_failure b = None → ∃ q, get_agent_attestation b nonce = Returns (Ok q) ∧ aq_type q = to_string Tdx).
Proof.
  unfold get_agent_attestation, MockTeeProvider.with_override, MockTeeProvider.guard, MockTeeProvider.generate_quote, MockTeeProvider.generate_evidence, MockTeeProvider.simulate_failure.
  split; [by intros -> ->|]. intros -> ->. eexists. split; [reflexivity|done].
Qed.

(** *** Votes *)

Section votes.
Context {XP : HexPrim} {R : Type} (receipt_from_bytes : bytes → result string R) (zk_verify : R → bytes → result ZkError ZkOutput).
Abbreviation proof_ok p := (∃ b r o, hex_decode p = Some b ∧ receipt_from_bytes b = Ok r ∧ zk_verify r ZERO_TRANSCRIPT = Ok o ∧ is_valid (zo_fields o) = true).

Lemma check_proof_Ok p invalid : check_proof receipt_from_bytes zk_verify p ZERO_TRANSCRIPT invalid = Ok () ↔ proof_ok p.
Proof using.
  unfold check_proof. split.
  - intros H. inv_ok. case_match eqn:Hv; [|done]. case_match; [|done]. eauto 10.
  - intros (b & r & o & -> & Hr & Ho & Hv). cbn [ok_or mbind result_bind]. rewrite Hr. cbn [map_err mbind result_bind]. by rewrite Ho, Hv.
Qed.

Lemma vote_run_sound votes sigs accepted sigs' :
  vote_run receipt_from_bytes zk_verify sigs votes = (accepted, sigs') →
  sigs' = list_to_set accepted.*1 ∪ sigs ∧ NoDup accepted.*1 ∧ (∀ s, s ∈ accepted.*1 → s ∉ sigs) ∧
  Forall (λ v, proof_ok v.2) accepted ∧ accepted `sublist_of` votes.
Proof using.
  revert sigs accepted. induction votes as [|[sig p] votes IH]; intros sigs accepted; cbn [vote_run].
  - intros [= <- <-]. split_and!; [set_solver|by constructor|set_solver|by constructor|by constructor].
  - unfold submit_blind_vote. destruct (check_proof _ _ p _ _) as [[]|e] eqn:Hc; cbn [is_ok].
    + apply check_proof_Ok in Hc. case_decide as Hin.
      * destruct (vote_run _ _ sigs votes) as [acc s1] eqn:Hr. intros [= <- <-]. apply IH in Hr as (-> & H1 & H2 & H3 & H4).
        split_and!; [done..|by constructor].
      * destruct (vote_run _ _ _ votes) as [acc s1] eqn:Hr. intros [= <- <-]. apply IH in Hr as (-> & H1 & H2 & H3 & H4). cbn [fmap list_fmap fst snd].
        split_and!; [set_solver| |set_solver|by constructor|by constructor]. constructor; [|done]. intros Hacc. by apply (H2 sig Hacc); set_solver.
    + destruct (vote_run _ _ sigs votes) as [acc s1] eqn:Hr. intros [= <- <-]. apply IH in Hr as (-> & H1 & H2 & H3 & H4).
      split_and!; [done..|by constructor].
Qed.

End votes.

(** In every sequence of votes no signature votes twice, and each accepted vote came with a
    proof that verifies. *)
Theorem votes_once {XP : HexPrim} {R : Type} (receipt_from_bytes : bytes → result string R) (zk_verify : R → bytes → result ZkError ZkOutput)
    (votes accepted : list (string * string)) (sigs : gset string) :
  vote_run receipt_from_bytes zk_verify ∅ votes = (accepted, sigs) →
  NoDup accepted.*1 ∧ accepted `sublist_of` votes ∧
  Forall (λ v, ∃ b r o, hex_decode v.2 = Some b ∧ receipt_from_bytes b = Ok r ∧ zk_verify r ZERO_TRANSCRIPT = Ok o ∧ is_valid (zo_fields o) = true) accepted.
Proof. by intros (_ & H1 & _ & H3 & H4)%vote_run_sound. Qed.

(** But the proof says nothing about the signature: with one proof that verifies, every list of
    different signatures is a list of accepted votes. *)
Theorem one_proof_many_votes {XP : HexPrim} {R : Type} (receipt_from_bytes : bytes → result string R) (zk_verify : R → bytes → result ZkError ZkOutput)
    (proof invalid : string) (signatures : list string) (sigs : gset string) :
  check_proof receipt_from_bytes zk_verify proof ZERO_TRANSCRIPT invalid = Ok () → NoDup signatures → (∀ s, s ∈ signatures → s ∉ sigs) →
  (vote_run receipt_from_bytes zk_verify sigs ((λ s, (s, proof)) <$> signatures)).1 = (λ s, (s, proof)) <$> signatures.
Proof.
  intros Hok%check_proof_Ok. revert sigs. induction signatures as [|s signatures IH]; intros sigs; [done|].
  intros [Hs Hnd]%NoDup_cons Hnew. cbn [fmap list_fmap vote_run]. unfold submit_blind_vote. rewrite (proj2 (check_proof_Ok _ _ _ _) Hok).
  rewrite decide_False by (apply Hnew; set_solver). specialize (IH ({[s]} ∪ sigs) Hnd).
  destruct (vote_run _ _ _ _) as [acc s1] eqn:Hr. cbn [fst] in *. rewrite IH; [done|]. intros s' Hs'. specialize (Hnew s'). set_solver.
Qed.

(** A default build, without the feature [zk]: anyone writes such a proof. *)
Theorem default_build_votes {PC : Postcard} {PL : PostcardLaws PC} {XP : HexPrim} {XL : HexLaws XP}
    (to_bytes : Simulated.Receipt → bytes) (from_bytes : bytes → result string Simulated.Receipt) (o : ZkOutput) (invalid : string) :
  (∀ r, from_bytes (to_bytes r) = Ok r) → wf_output (zo_fields o) → is_u64 (zo_iat o) →
  is_valid (zo_fields o) = true → zo_transcript_hash (zo_fields o) = ZERO_TRANSCRIPT →
  check_proof from_bytes Simulated.verify (hex_encode (to_bytes (Simulated.mk_receipt (put_output o)))) ZERO_TRANSCRIPT invalid = Ok ().
Proof.
  intros Hr Hwf Hiat Hv Ht. apply check_proof_Ok. eexists _, _, o. split_and!; [apply hex_decode_encode|apply Hr| |done].
  unfold Simulated.verify, Simulated.extract_output. cbn [Simulated.journal]. unfold get_output, put_output.
  rewrite take_put_fields by done. cbn [mbind result_bind]. rewrite <-(app_nil_r (put_u64 (zo_iat o))), take_put_u64 by done. cbn [mbind result_bind map_err].
  unfold check_statement. destruct o as [f i]. cbn in *. rewrite Hv, decide_False by by intros ?. done.
Qed.

(** *** Messages *)

Section bus.
Context (parse_json : string → result string ()) (tensor : result string ()) (capacity : nat).

Inductive BusEvent : Type :=
| Subscribe (c : nat)
| SendMessage (message_id : string) (m : SealedSenderMessage)
| ConfirmMessage (message_id clarified_payload : string) (m : SealedSenderMessage)
| Poll (c : nat).
Definition bus_step (b : Bus) (ev : BusEvent) : Bus :=
  match ev with
  | Subscribe c => subscribe b c
  | SendMessage i m => (send_sealed_message parse_json tensor capacity i m b).2
  | ConfirmMessage i p m => (confirm_message_intent parse_json tensor capacity i p m b).2
  | Poll c => mk_bus (alter poll c (bus_subs b)) (bus_log b)
  end.
Definition bus_run (evs : list BusEvent) : Bus := foldl bus_step (mk_bus ∅ []) evs.

(** A message that is on the bus has the intent that the pipeline found clear. *)
Definition clear_message (m : SealedSenderMessage) : Prop :=
  ∃ i policy intent, evaluate_intent parse_json tensor i (agent_unsealable_payload m) policy = Clear intent ∧ aiql_intent m = Some intent ∧
    (policy = aiql_policy m ∨ policy = None).

(** What a subscriber has, after the [log]: what it was given, then what it lost, then what
    waits. *)
Definition sub_inv (log : list SealedSenderMessage) (s : Subscriber) : Prop :=
  (sb_start s ≤ length log)%nat ∧
  if sb_ended s then sb_seen s `prefix_of` drop (sb_start s) log
  else ∃ lost, sb_seen s ++ lost ++ sb_queue s = drop (sb_start s) log ∧ (sb_lagged s = false → lost = []).

Lemma sub_inv_offer log s m : sub_inv log s → sub_inv (log ++ [m]) (offer capacity m s).
Proof using.
  intros [Hle Hs]. assert (drop (sb_start s) (log ++ [m]) = drop (sb_start s) log ++ [m]) as Hd by by apply drop_app_le.
  unfold offer. destruct (sb_ended s) eqn:He.
  - split; [rewrite length_app; lia|]. rewrite He, Hd. by apply prefix_app_r.
  - destruct Hs as (lost & Hlog & Hlost). case_decide; (split; [cbn; rewrite length_app; lia|]); cbn; rewrite Hd, <-Hlog.
    + exists lost. by rewrite <-!app_assoc.
    + exists (lost ++ take 1 (sb_queue s ++ [m])). split; [|done]. rewrite <-!app_assoc, take_drop. done.
Qed.
Lemma sub_inv_poll log s : sub_inv log s → sub_inv log (poll s).
Proof using.
  intros [Hle Hs]. unfold poll. destruct (sb_ended s) eqn:He; [split; [done|by rewrite He]|]. destruct Hs as (lost & Hlog & Hlost).
  destruct (sb_lagged s) eqn:Hl; [split; [done|]; cbn; rewrite <-Hlog; by apply prefix_app_r|]. specialize (Hlost eq_refl). subst lost.
  destruct (sb_queue s) as [|m q] eqn:Hq; (split; [done|]); cbn; rewrite ?He; [exists []; by rewrite Hq|]. exists []. by rewrite <-Hlog, <-app_assoc.
Qed.

Definition bus_inv (b : Bus) : Prop := map_Forall (λ _, sub_inv (bus_log b)) (bus_subs b) ∧ Forall clear_message (bus_log b).
Lemma bus_inv_send b m : bus_inv b → clear_message m → bus_inv (bus_send capacity b m).
Proof using.
  intros [Hs Hl] Hm. split; cbn; [|by apply Forall_app_2; [|constructor]]. apply map_Forall_fmap. intros c s Hc. by apply sub_inv_offer, (Hs c).
Qed.
Lemma bus_inv_step b ev : bus_inv b → bus_inv (bus_step b ev).
Proof using.
  intros Hb. destruct ev as [c|i m|i p m|c]; cbn [bus_step].
  - destruct Hb as [Hs Hl]. split; [|done]. cbn. apply map_Forall_insert_2; [|done]. split; [done|]. exists []. cbn. by rewrite drop_all.
  - unfold send_sealed_message. destruct (evaluate_intent _ _ _ _ _) as [intent|prompt] eqn:He; [|done]. apply bus_inv_send; [done|].
    eexists i, _, intent. cbn. eauto.
  - unfold confirm_message_intent. destruct (evaluate_intent _ _ _ _ _) as [intent|prompt] eqn:He; [|done]. apply bus_inv_send; [done|].
    eexists i, _, intent. cbn. eauto.
  - destruct Hb as [Hs Hl]. split; [|done]. cbn. intros c' s. rewrite lookup_alter_Some. intros [(_ & s' & Hs' & ->)|[_ H]]; [|by apply (Hs c')].
    by eapply sub_inv_poll, Hs.
Qed.
Lemma bus_run_inv evs : bus_inv (bus_run evs).
Proof using.
  unfold bus_run. induction evs as [|ev evs IH] using rev_ind; [split; [apply map_Forall_empty|constructor]|]. rewrite foldl_app. by apply bus_inv_step.
Qed.

End bus.

(** Under every interleaving of senders and subscribers, a stream yields the messages of the bus
    since its subscription in order, without a gap and without a repetition, for as long as it
    runs; what it has not yielded yet is waiting unless it lost messages; and the pipeline
    found every message on the bus clear. *)
Theorem subscriber_sees (parse_json : string → result string ()) (tensor : result string ()) (capacity : nat) (evs : list BusEvent) (c : nat) (s : Subscriber) :
  let b := bus_run parse_json tensor capacity evs in
  bus_subs b !! c = Some s →
  sb_seen s `prefix_of` drop (sb_start s) (bus_log b) ∧
  (sb_ended s = false → sb_lagged s = false → sb_seen s ++ sb_queue s = drop (sb_start s) (bus_log b)) ∧
  Forall (clear_message parse_json tensor) (bus_log b).
Proof.
  intros b Hc. destruct (bus_run_inv parse_json tensor capacity evs) as [Hs Hl]. specialize (Hs c s Hc) as [_ Hs]. fold b in Hs, Hl.
  destruct (sb_ended s); [by split_and!|]. destruct Hs as (lost & Hlog & Hlost). split_and!; [rewrite <-Hlog; by apply prefix_app_r| |done].
  intros _ H. by rewrite <-Hlog, (Hlost H).
Qed.

(** Without a policy an intent is clear exactly if a payload that looks like JSON is a policy and
    the word [ambiguous] does not occur in it. *)
Theorem default_intent_iff (parse_json : string → result string ()) (tensor : result string ()) (i payload : string) :
  (∃ intent, evaluate_intent parse_json tensor i payload None = Clear intent) ↔
  (is_json payload = true → is_ok (parse_json payload) = true) ∧ contains (as_bytes payload) (as_bytes "ambiguous") = false.
Proof.
  unfold evaluate_intent, confidence, threshold. cbn [bypassed].
  destruct (is_json payload), (parse_json payload), (contains _ _); cbn; naive_solver.
Qed.
