(* ===== verification/FabricSync.v ===== *)
(** * Replication and tools of the memory fabric

    [crates/openhttpa-fabric/src/replication.rs] (state deltas between nodes, with the
    attestation that accompanies them), [mcp_tools.rs] (the tools that read and write
    the fabric) and [policy.rs] (the two authorisation engines).

    Everything is proved for any [DataStore] that keeps the contract of [Fabric].  The
    transport, the verifier and the quote provider are arguments; [serde_json], the
    [lru] cache and the [regorus] policy engine are classes. *)

From S2P Require Import Prelude Crypto Aead Proto KeySchedule Attestation Tee Provenance Http Fabric Ws.
From stdpp Require Import options.

#[local] Open Scope Z_scope.

(** ** Replication *)

Record SyncPayload : Type := mk_payload {
  p_namespace : string;
  p_key : string;
  p_data : bytes;
  p_version : VersionVector;
  p_provenance : option ProvenanceChain.t;
  p_quote : option AttestQuote;
}.

Class SyncJson : Type := { sync_to_string : SyncPayload → result string string; sync_from_str : string → option SyncPayload }.
Class SyncJsonLaws (P : SyncJson) : Prop := {
  sync_from_to p s : sync_to_string p = Ok s → sync_from_str s = Some p;
}.

Section binding.
Context {HaP : HashPrim}.

(** [binding[..48].copy_from_slice(&Sha384::digest("{ns}:{key}"))] *)
Definition sync_binding (namespace key : string) : bytes :=
  sha384 (as_bytes (namespace +:+ ":" +:+ key)) ++ replicate 16 NUL.

(** [DefaultFabricValidator]; [show] is the text of a verification error. *)
Definition validate_sync (show : AttestError → string) (verify : QuoteVerifier) (sender_id : string) (payload : SyncPayload) :
    result string () :=
  quote ← ok_or (p_quote payload) ("Rejected state delta from " +:+ sender_id +:+ ": missing attestation quote");
  _ ← map_err (λ e, "Rejected unauthenticated state delta from " +:+ sender_id +:+ ": " +:+ show e)
        (verify quote (sync_binding (p_namespace payload) (p_key payload)));
  Ok ().

Context {S : Type} `{DataStore S}.

Definition handle_incoming_sync (show : AttestError → string) (verify : QuoteVerifier) (env : FabricEnv) (store : MemoryStore.t S)
    (sender_id : string) (payload : SyncPayload) : MemoryStore.t S :=
  match validate_sync show verify sender_id payload with
  | Err _ => store
  | Ok _ => (MemoryStore.put env store (p_namespace payload) (p_key payload) (p_data payload) (p_version payload) (p_provenance payload)).2
  end.

Definition with_quote (p : SyncPayload) (q : option AttestQuote) : SyncPayload :=
  mk_payload (p_namespace p) (p_key p) (p_data p) (p_version p) (p_provenance p) q.

(** [ReplicationManager::send_sync]; a payload without a quote gets one when the
    provider has one. *)
Definition send_sync `{SyncJson} (tee : TeeOps) (transport : string → string → result string ()) (target_url : string) (payload : SyncPayload) :
    result string () :=
  let payload :=
    match p_quote payload with
    | Some _ => payload
    | None =>
        match op_generate_quote tee (sync_binding (p_namespace payload) (p_key payload)) with
        | Ok quote => with_quote payload (Some quote)
        | Err _ => payload
        end
    end in
  content ← map_err (λ e, "Failed to serialize sync payload: " +:+ e) (sync_to_string payload);
  transport target_url content.

End binding.

(** ** Tools *)

(** The arguments' members that are strings. *)
Definition ToolArguments : Type := gmap string string.

Section tools.
Context {S : Type} `{DataStore S}.

(** [fabric_read]: the member [value] of the answer. *)
Definition read_tool (env : FabricEnv) (store : MemoryStore.t S) (arguments : ToolArguments) : result string string :=
  namespace ← ok_or (arguments !! "namespace"%string) "Missing namespace"%string;
  key ← ok_or (arguments !! "key"%string) "Missing key"%string;
  match MemoryStore.get env store namespace key with
  | Some data => Ok (if utf8_valid data then string_of_list_ascii data else "[Binary Data]"%string)
  | None => Err "Key not found"%string
  end.

(** [fabric_write]: the member [status], and the store. *)
Definition write_tool (env : FabricEnv) (timestamp : Z) (store : MemoryStore.t S) (arguments : ToolArguments) :
    result string string * MemoryStore.t S :=
  match (namespace ← ok_or (arguments !! "namespace"%string) "Missing namespace"%string;
         key ← ok_or (arguments !! "key"%string) "Missing key"%string;
         value ← ok_or (arguments !! "value"%string) "Missing value"%string;
         Ok (namespace, key, value)) with
  | Err e => (Err e, store)
  | Ok (namespace, key, value) =>
      (Ok "success"%string, (MemoryStore.put env store namespace key (as_bytes value) {["mcp_agent"%string := timestamp]} None).2)
  end.

End tools.

(** ** Theorems *)

(** A state delta changes the store only if it carries a quote that the verifier
    accepts for the delta's name, and then only by the write it names: the entry under
    that name is the delta's, or stays what it was when the store refuses the write. *)
Theorem incoming_sync_sound {HaP : HashPrim} {AP : AeadPrim} {AL : AeadLaws AP} {HP : HkdfPrim} {S : Type} {D : DataStore S} {DS : DataStoreSpec S}
    (show : AttestError → string) (verify : QuoteVerifier) (env env' : FabricEnv) (store : MemoryStore.t S) (sender : string) (p : SyncPayload) :
  env_ok env' →
  let store' := handle_incoming_sync show verify env store sender p in
  store' = store ∨
  (∃ q r, p_quote p = Some q ∧ verify q (sync_binding (p_namespace p) (p_key p)) = Ok r) ∧
  ∃ b, MemoryStore.put env store (p_namespace p) (p_key p) (p_data p) (p_version p) (p_provenance p) = (b, store') ∧
    (b = true → MemoryStore.get env' store' (p_namespace p) (p_key p) = Some (p_data p)).
Proof.
  intros He store'. unfold store', handle_incoming_sync. destruct (validate_sync show verify sender p) as [[]|] eqn:Hv; [right|by left].
  unfold validate_sync in Hv. inv_ok. split; [by eauto|]. eexists. split; [apply surjective_pairing|].
  unfold MemoryStore.put. destruct (ds_put _ _ _ _ _ _ _ _) as [b st] eqn:Hput. cbn [fst snd]. intros ->.
  unfold MemoryStore.get. cbn [MemoryStore.tee_provider MemoryStore.backend]. by eapply read_your_write.
Qed.

(** The quote binds the name only: whoever holds an accepted delta can put any data and
    any version under the same name with its quote. *)
Theorem sync_quote_reusable {HaP : HashPrim} (show : AttestError → string) (verify : QuoteVerifier) (s1 s2 : string) (p : SyncPayload)
    (data : bytes) (version : VersionVector) (provenance : option ProvenanceChain.t) :
  validate_sync show verify s1 p = Ok () →
  validate_sync show verify s2 (mk_payload (p_namespace p) (p_key p) data version provenance (p_quote p)) = Ok ().
Proof.
  unfold validate_sync. cbn [p_quote p_namespace p_key]. destruct (p_quote p) as [q|]; [|done]. cbn [ok_or mbind result_bind].
  by destruct (verify q _).
Qed.

(** A delta sent by one node and handled by another arrives: with a quote that the
    receiver accepts and a version that its store does not have, the receiver returns
    the sender's data. *)
Theorem sync_delivers {HaP : HashPrim} {AP : AeadPrim} {AL : AeadLaws AP} {HP : HkdfPrim} {HL : HkdfLaws HP} {SJ : SyncJson} {SL : SyncJsonLaws SJ}
    {S : Type} {D : DataStore S} {DS : DataStoreSpec S} (show : AttestError → string) (verify : QuoteVerifier) (tee : TeeOps)
    (transport : string → string → result string ()) (url sender : string) (env env' : FabricEnv) (store : MemoryStore.t S) (p : SyncPayload)
    (q : AttestQuote) (r : VerificationResult) :
  env_ok env → env_ok env' → p_quote p = None →
  op_generate_quote tee (sync_binding (p_namespace p) (p_key p)) = Ok q → verify q (sync_binding (p_namespace p) (p_key p)) = Ok r →
  Z.of_nat (length (p_data p)) ≤ 2 ^ 36 - 32 → (∀ node n, p_version p !! node = Some n → 0 ≤ n) →
  is_Some (ds_key (MemoryStore.tee_provider store) (MemoryStore.backend store)) →
  (∀ e, ds_entry (MemoryStore.backend store) (p_namespace p) (p_key p) = Some e → ¬ vv_le (p_version p) (fe_version e)) →
  send_sync tee transport url p = Ok () →
  ∃ content received, transport url content = Ok () ∧ sync_from_str content = Some received ∧
    MemoryStore.get env' (handle_incoming_sync show verify env store sender received) (p_namespace p) (p_key p) = Some (p_data p).
Proof.
  intros He He' Hq Hgen Hver Hd Hv Hk Hf Hsend. unfold send_sync in Hsend. rewrite Hq, Hgen in Hsend. inv_ok.
  do 2 eexists. split; [eassumption|]. split; [by apply sync_from_to|].
  unfold handle_incoming_sync, validate_sync. cbn [p_quote p_namespace p_key p_data p_version p_provenance with_quote ok_or mbind result_bind].
  rewrite Hver. cbn [map_err mbind result_bind]. unfold MemoryStore.put, MemoryStore.get.
  pose proof (apply_fresh (MemoryStore.tee_provider store) (p_namespace p) (p_key p) (MemoryStore.backend store)
    (mk_update env (p_data p) (p_version p) (p_provenance p)) (conj He (conj Hd Hv)) Hk Hf) as Hh.
  apply (holds_get _ _ _ env' _ _ He') in Hh. unfold apply_update in Hh. cbn [u_env u_data u_version u_provenance] in Hh.
  destruct (ds_put _ _ _ _ _ _ _ _) as [b st]. exact Hh.
Qed.

(** The write tool reports success whatever the store did. *)
Theorem write_tool_reports_success {S : Type} {D : DataStore S} (env : FabricEnv) (now : Z) (store : MemoryStore.t S) (a : ToolArguments) (ns k v : string) :
  a !! "namespace"%string = Some ns → a !! "key"%string = Some k → a !! "value"%string = Some v →
  (write_tool env now store a).1 = Ok "success"%string.
Proof. unfold write_tool. intros -> -> ->. done. Qed.

(** What the tools exchange: a value that the store accepted is read back as it was
    written. *)
Theorem tools_round_trip {AP : AeadPrim} {AL : AeadLaws AP} {HP : HkdfPrim} {S : Type} {D : DataStore S} {DS : DataStoreSpec S}
    (env env' : FabricEnv) (now : Z) (store : MemoryStore.t S) (a : ToolArguments) (ns k v : string) :
  env_ok env' → a !! "namespace"%string = Some ns → a !! "key"%string = Some k → a !! "value"%string = Some v → utf8_valid (as_bytes v) = true →
  (MemoryStore.put env store ns k (as_bytes v) {["mcp_agent"%string := now]} None).1 = true →
  read_tool env' (write_tool env now store a).2 a = Ok v.
Proof.
  intros He Hns Hk Hv Hutf Hput. unfold write_tool, read_tool. rewrite Hns, Hk, Hv. cbn [ok_or mbind result_bind snd].
  unfold MemoryStore.put, MemoryStore.get in *. destruct (ds_put _ _ _ _ _ _ _ _) as [b st] eqn:Hp. cbn in Hput. subst b.
  cbn [snd MemoryStore.tee_provider MemoryStore.backend]. rewrite (read_your_write _ env env' _ _ _ _ _ _ _ He Hp), Hutf.
  unfold as_bytes. by rewrite string_of_list_ascii_of_string.
Qed.

(** Two writes of one key within a second have the same version: the second is dropped
    although its answer is success. *)
Theorem second_write_lost {AP : AeadPrim} {AL : AeadLaws AP} {HP : HkdfPrim} {S : Type} {D : DataStore S} {DS : DataStoreSpec S}
    (env1 env2 env' : FabricEnv) (now later : Z) (store : MemoryStore.t S) (a b : ToolArguments) (ns k v w : string) :
  env_ok env2 → env_ok env' → later ≤ now →
  a !! "namespace"%string = Some ns → a !! "key"%string = Some k → a !! "value"%string = Some v →
  b !! "namespace"%string = Some ns → b !! "key"%string = Some k → b !! "value"%string = Some w →
  utf8_valid (as_bytes v) = true →
  (MemoryStore.put env1 store ns k (as_bytes v) {["mcp_agent"%string := now]} None).1 = true →
  let first := (write_tool env1 now store a).2 in
  (write_tool env2 later first b).1 = Ok "success"%string ∧ read_tool env' (write_tool env2 later first b).2 b = Ok v.
Proof.
  intros He2 He' Hle Hans Hak Hav Hbns Hbk Hbv Hutf Hput first. unfold first, write_tool, read_tool.
  rewrite Hans, Hak, Hav, Hbns, Hbk, Hbv. cbn [ok_or mbind result_bind fst snd]. split; [done|].
  unfold MemoryStore.put, MemoryStore.get in *. destruct (ds_put _ _ _ _ _ _ _ _) as [x st] eqn:Hp. cbn in Hput. subst x.
  cbn [snd MemoryStore.tee_provider MemoryStore.backend MemoryStore.topology].
  pose proof (put_true_holds _ _ _ _ _ _ _ _ _ Hp) as Hh.
  pose proof (apply_stale _ _ _ _ (mk_update env2 (as_bytes w) {["mcp_agent"%string := later]} None) _ He2 Hh) as Hs.
  assert (vv_le {["mcp_agent"%string := later]} {["mcp_agent"%string := now]}) as Hvv.
  { intros node n [<- <-]%lookup_singleton_Some.
    exact (Z.le_trans _ _ _ Hle (Z.eq_le_incl _ _ (eq_sym (f_equal (default 0) (lookup_singleton_eq (M := gmap string) _ now))))). }
  specialize (Hs Hvv). apply (holds_get _ _ _ env' _ _ He') in Hs. unfold apply_update in Hs. cbn [u_env u_data u_version u_provenance] in Hs.
  destruct (ds_put _ env2 st _ _ _ _ _) as [y st']. cbn [snd MemoryStore.tee_provider MemoryStore.backend] in *. rewrite Hs, Hutf.
  unfold as_bytes. by rewrite string_of_list_ascii_of_string.
Qed.

(** ** Concrete runs *)

#[local] Existing Instances Toy.aead Toy.hkdf Toy.aead_laws Toy.hkdf_laws Toy.hash.

Module ToySync.
Definition verify : QuoteVerifier := λ q rd,
  if decide (qudd q = rd) then Ok (mk_result None default_claims "UpToDate" None None []) else Err SignatureInvalid.
Definition payload (data : string) (n : Z) : SyncPayload :=
  mk_payload "ns" "k" (as_bytes data) {["a"%string := n]} None (Some (mk_quote Mock Raw [] (sync_binding "ns" "k") [])).
Definition store : MemoryStore.t KvStore.t := MemoryStore.new_kv Global ToyFabric.tee.
Definition handle : SyncPayload → MemoryStore.t KvStore.t := handle_incoming_sync (λ _, "refused"%string) verify ToyFabric.env store "peer".
End ToySync.

Lemma incoming_sync_sound_witness :
  MemoryStore.get ToyFabric.env (ToySync.handle (ToySync.payload "x" 1)) "ns" "k" = Some (as_bytes "x").
Proof.
  destruct (incoming_sync_sound (AL := Toy.aead_laws) (DS := kv_spec) (λ _, "refused"%string) ToySync.verify ToyFabric.env ToyFabric.env
    ToySync.store "peer" (ToySync.payload "x" 1)) as [H|[_ (b & Hput & Hget)]]; [done| |].
  - exfalso. apply (f_equal (λ m : MemoryStore.t KvStore.t, MemoryStore.get ToyFabric.env m "ns" "k")) in H. vm_compute in H. discriminate H.
  - apply Hget. apply (f_equal fst) in Hput. cbn [fst] in Hput. rewrite <- Hput. vm_compute. reflexivity.
Defined.
