(* ===== verification/FabricPolicy.v ===== *)
(** * Authorisation engines of the memory fabric

    [crates/openhttpa-fabric/src/policy.rs]: the rule engine that stands for a local
    language model, the engine that caches its answers, and the OPA engine; and the
    counters of [metrics.rs].

    [str::to_lowercase] beyond ASCII, the [lru] cache and the [regorus] evaluator are
    classes.  The confidence values of an answer are the source's decimal literals. *)

From S2P Require Import Prelude Http.
From stdpp Require Import options.
From Stdlib Require Import QArith.

#[local] Open Scope Z_scope.

(** ** Metrics *)

Record FabricMetrics : Type := mk_metrics {
  aiql_evaluations_total : Z;
  gossip_syncs_total : Z;
  memory_distillation_events : Z;
}.
Definition metrics_new : FabricMetrics := mk_metrics 0 0 0.
(** [fetch_add] wraps. *)
Definition inc_aiql_evaluations (m : FabricMetrics) : FabricMetrics :=
  mk_metrics (wrap64 (aiql_evaluations_total m + 1)) (gossip_syncs_total m) (memory_distillation_events m).
Definition inc_gossip_syncs (m : FabricMetrics) : FabricMetrics :=
  mk_metrics (aiql_evaluations_total m) (wrap64 (gossip_syncs_total m + 1)) (memory_distillation_events m).
Definition inc_memory_distillation (m : FabricMetrics) : FabricMetrics :=
  mk_metrics (aiql_evaluations_total m) (gossip_syncs_total m) (wrap64 (memory_distillation_events m + 1)).

(** ** The rule engine *)

Record IdentityMeasurement : Type := mk_identity { mrenclave : string; mrsigner : string; id_is_debug : bool }.

Record AiqlConfig : Type := mk_aiql_config {
  malicious_keywords : list string;
  restricted_namespaces : list string;
  strict_debug_mode : bool;
  block_threshold : Q;
}.
Definition default_aiql_config : AiqlConfig :=
  mk_aiql_config ["exfiltrate"; "malicious"; "bypass"; "exploit"]%string ["system"; "admin"]%string true (8 # 10).

Record AiqlResponse : Type := mk_aiql_response { allowed : bool; confidence : Q; reason : string }.

(** [str::to_lowercase]: on ASCII it maps the letters. *)
Class Lowercase : Type := { str_to_lowercase : string → string }.
Class LowercaseLaws (L : Lowercase) : Prop := {
  str_to_lowercase_ascii s :
    forallb (λ b, bool_decide (u8_val b < 128)) (as_bytes s) = true → str_to_lowercase s = to_lowercase s;
}.

Definition sensitive_actions : list string := ["production"; "override"; "system_write"]%string.

Section engine.
Context {LC : Lowercase}.

(** The first element that the lowered action contains. *)
Definition first_in (action : string) (l : list string) : option string :=
  list.head (base.filter (λ x, str_contains (str_to_lowercase action) x = true) l).

Definition evaluate_intent (config : AiqlConfig) (m : IdentityMeasurement) (namespace action : string) : AiqlResponse :=
  match (if id_is_debug m && strict_debug_mode config then first_in action sensitive_actions else None) with
  | Some sensitive => mk_aiql_response false (95 # 100) ("Strict debug mode blocked sensitive action: " +:+ sensitive)
  | None =>
      if bool_decide (namespace ∈ restricted_namespaces config) &&
         (str_contains (str_to_lowercase action) "write" || str_contains (str_to_lowercase action) "delete")
      then mk_aiql_response false (9 # 10) ("Unauthorized modification to restricted namespace: " +:+ namespace)
      else
        match first_in action (malicious_keywords config) with
        | Some intent => mk_aiql_response false (85 # 100) ("Detected malicious keyword intent: " +:+ intent)
        | None => mk_aiql_response true (99 # 100) "Action appears benign and complies with context policies."
        end
  end.

Lemma first_in_None action l : first_in action l = None ↔ ∀ x, x ∈ l → str_contains (str_to_lowercase action) x = false.
Proof.
  unfold first_in. induction l as [|y l IH]; [split; [|done]; intros _ x Hx; by apply elem_of_nil in Hx|].
  rewrite filter_cons. destruct (decide (str_contains (str_to_lowercase action) y = true)) as [Hy|Hy].
  - split; [done|]. intros H. by rewrite H in Hy by left.
  - rewrite IH. apply not_true_is_false in Hy. split; [|intros H x Hx; apply H; by right].
    intros H x [->|Hx]%elem_of_cons; auto.
Qed.

(** An action is allowed exactly when none of the three rules blocks it. *)
Theorem evaluate_intent_iff (config : AiqlConfig) (m : IdentityMeasurement) (ns action : string) :
  allowed (evaluate_intent config m ns action) = true ↔
  (id_is_debug m = true → strict_debug_mode config = true → ∀ x, x ∈ sensitive_actions → str_contains (str_to_lowercase action) x = false) ∧
  (ns ∈ restricted_namespaces config →
     str_contains (str_to_lowercase action) "write" = false ∧ str_contains (str_to_lowercase action) "delete" = false) ∧
  (∀ x, x ∈ malicious_keywords config → str_contains (str_to_lowercase action) x = false).
Proof.
  unfold evaluate_intent. set (debug := if id_is_debug m && strict_debug_mode config then first_in action sensitive_actions else None).
  assert (debug = None ↔ (id_is_debug m = true → strict_debug_mode config = true → ∀ x, x ∈ sensitive_actions → str_contains (str_to_lowercase action) x = false)) as Hdebug.
  { unfold debug. destruct (id_is_debug m), (strict_debug_mode config); cbn [andb]; [rewrite first_in_None; by split; auto|by split..]. }
  rewrite <- Hdebug. destruct debug as [x|]; [split; [done|by intros [? _]]|].
  destruct (bool_decide_reflect (ns ∈ restricted_namespaces config)) as [Hr|Hr]; cbn [andb].
  - destruct (str_contains _ "write") eqn:Hw, (str_contains _ "delete") eqn:Hdel; cbn [orb allowed];
      try (split; [done|]; intros (_ & Hx & _); destruct (Hx Hr); congruence).
    destruct (first_in _ _) as [y|] eqn:Hf; cbn [allowed].
    + split; [done|]. intros (_ & _ & Hm). by apply first_in_None in Hm as Hm'; rewrite Hm' in Hf.
    + rewrite first_in_None in Hf. tauto.
  - destruct (first_in _ _) as [y|] eqn:Hf; cbn [allowed].
    + split; [done|]. intros (_ & _ & Hm). by apply first_in_None in Hm as Hm'; rewrite Hm' in Hf.
    + rewrite first_in_None in Hf. tauto.
Qed.

End engine.

(** ** The caching engine *)

(** [lru::LruCache<String, bool>]; its contents are a view that the laws relate to the
    operations: a lookup reads the view and may reorder it, an insertion adds the pair
    and may drop others. *)
Class LruPrim : Type := {
  LruCache : Type;
  lru_new : nat → LruCache;
  lru_get : LruCache → string → option bool * LruCache;
  lru_put : LruCache → string → bool → LruCache;
}.
Class LruLaws (P : LruPrim) : Type := {
  lru_view : LruCache → gmap string bool;
  lru_view_new n : lru_view (lru_new n) = ∅;
  lru_get_view c k : (lru_get c k).1 = lru_view c !! k ∧ lru_view (lru_get c k).2 = lru_view c;
  lru_put_view c k b : lru_view (lru_put c k b) ⊆ <[k := b]> (lru_view c);
  (** the capacity is a [NonZeroUsize] *)
  lru_put_hit c k b : lru_view (lru_put c k b) !! k = Some b;
}.

Module AiqlPolicyEngine.
Section ops.
Context {LC : Lowercase} {LR : LruPrim}.

Record t : Type := mk { llm_config : AiqlConfig; cache : LruCache; metrics : FabricMetrics }.
Definition new : t := mk default_aiql_config (lru_new (Z.to_nat 1000)) metrics_new.
Definition with_metrics (e : t) (m : FabricMetrics) : t := mk (llm_config e) (cache e) m.
Definition with_config (e : t) (c : AiqlConfig) : t := mk c (cache e) (metrics e).

Definition cache_key (debug : bool) (namespace action : string) : string :=
  (if debug then "true" else "false") +:+ ":" +:+ namespace +:+ ":" +:+ action.

Definition is_authorized (e : t) (m : IdentityMeasurement) (namespace action : string) : bool * t :=
  let metrics := inc_aiql_evaluations (metrics e) in
  let key := cache_key (id_is_debug m) namespace action in
  match lru_get (cache e) key with
  | (Some allowed, cache) => (allowed, mk (llm_config e) cache metrics)
  | (None, cache) =>
      let allowed := allowed (evaluate_intent (llm_config e) m namespace action) in
      (allowed, mk (llm_config e) (lru_put cache key allowed) metrics)
  end.

Fixpoint run (e : t) (qs : list (IdentityMeasurement * string * string)) : list bool * t :=
  match qs with
  | [] => ([], e)
  | (m, ns, a) :: qs => let '(b, e) := is_authorized e m ns a in let '(bs, e) := run e qs in (b :: bs, e)
  end.

Definition no_colon (s : string) : Prop := ":"%char ∉ as_bytes s.

Lemma cache_key_inj d1 ns1 a1 d2 ns2 a2 :
  no_colon ns1 → no_colon ns2 → cache_key d1 ns1 a1 = cache_key d2 ns2 a2 → d1 = d2 ∧ ns1 = ns2 ∧ a1 = a2.
Proof using.
  intros H1 H2 Heq. apply (f_equal as_bytes) in Heq. unfold cache_key in Heq. rewrite !as_bytes_app in Heq.
  apply app_sep_inj in Heq as [Hd Heq]; [|destruct d1; by_compute|destruct d2; by_compute].
  assert (d1 = d2) as -> by by destruct d1, d2.
  apply app_sep_inj in Heq as [Hn Ha]; [|done..]. split_and!; [done|by apply as_bytes_inj..].
Qed.

(** The measurement enters the rules through its debug flag only. *)
Lemma evaluate_intent_debug config m m' ns a :
  id_is_debug m = id_is_debug m' → evaluate_intent config m ns a = evaluate_intent config m' ns a.
Proof using. unfold evaluate_intent. by intros ->. Qed.

Context {LL : LruLaws LR}.

(** Every cached answer is the one the rules give. *)
Definition coherent (e : t) : Prop :=
  ∀ m ns a b, no_colon ns → lru_view (cache e) !! cache_key (id_is_debug m) ns a = Some b →
    b = allowed (evaluate_intent (llm_config e) m ns a).

Lemma is_authorized_coherent e m ns a :
  coherent e → no_colon ns →
  (is_authorized e m ns a).1 = allowed (evaluate_intent (llm_config e) m ns a) ∧
  coherent (is_authorized e m ns a).2 ∧ llm_config (is_authorized e m ns a).2 = llm_config e.
Proof using.
  intros Hc Hns. unfold is_authorized. destruct (lru_get_view (cache e) (cache_key (id_is_debug m) ns a)) as [Hg Hv].
  destruct (lru_get _ _) as [[b|] c]; cbn [fst snd] in *.
  - split_and!; [by apply (Hc m ns a b)| |done]. intros m' ns' a' b' Hns' Hl. cbn [cache] in Hl. rewrite Hv in Hl. by apply Hc.
  - split_and!; [done| |done]. intros m' ns' a' b' Hns' Hl. cbn [cache llm_config] in *.
    pose proof (lookup_weaken _ _ _ _ Hl (lru_put_view _ _ _)) as [[Hk <-]|[_ Hold]]%lookup_insert_Some.
    + apply cache_key_inj in Hk as (Hd & <- & <-); [|done..]. by rewrite (evaluate_intent_debug _ m m').
    + rewrite Hv in Hold. by apply Hc.
Qed.

End ops.
End AiqlPolicyEngine.

(** The cache never changes an answer as long as namespaces contain no colon, whatever
    the order of the queries and whatever the cache drops. *)
Theorem cache_transparent {LC : Lowercase} {LR : LruPrim} {LL : LruLaws LR} (config : AiqlConfig) (qs : list (IdentityMeasurement * string * string)) :
  Forall (λ '(_, ns, _), AiqlPolicyEngine.no_colon ns) qs →
  (AiqlPolicyEngine.run (AiqlPolicyEngine.with_config AiqlPolicyEngine.new config) qs).1 =
    (λ '(m, ns, a), allowed (evaluate_intent config m ns a)) <$> qs.
Proof.
  intros Hqs. set (e := AiqlPolicyEngine.with_config _ _).
  assert (AiqlPolicyEngine.coherent e ∧ AiqlPolicyEngine.llm_config e = config) as [Hc He].
  { split; [|done]. intros m ns a b _. cbn. by rewrite lru_view_new, lookup_empty. }
  clearbody e. revert e Hc He. induction Hqs as [|[[m ns] a] qs Hns _ IH]; intros e Hc He; [done|]. cbn [AiqlPolicyEngine.run].
  destruct (AiqlPolicyEngine.is_authorized_coherent e m ns a Hc Hns) as (Hb & Hc' & He').
  destruct (AiqlPolicyEngine.is_authorized e m ns a) as [b e']. cbn [fst snd] in *.
  specialize (IH e' Hc'). destruct (AiqlPolicyEngine.run e' qs) as [bs e'']. cbn [fst] in *. rewrite fmap_cons. f_equal; [by subst|].
  apply IH. congruence.
Qed.

(** With colons it does: after a harmless query in the namespace [system:x], a write to
    the restricted namespace [system] is allowed, although the rules deny it. *)
Theorem cache_confusion {LC : Lowercase} {LCL : LowercaseLaws LC} {LR : LruPrim} {LL : LruLaws LR} (m : IdentityMeasurement) :
  id_is_debug m = false →
  (AiqlPolicyEngine.run AiqlPolicyEngine.new [(m, "system:x", "write"); (m, "system", "x:write")]%string).1 = [true; true] ∧
  allowed (evaluate_intent default_aiql_config m "system" "x:write") = false.
Proof.
  intros Hm.
  assert (evaluate_intent default_aiql_config m "system:x" "write" = mk_aiql_response true (99 # 100) "Action appears benign and complies with context policies.") as H1.
  { unfold evaluate_intent, first_in. rewrite Hm. rewrite (str_to_lowercase_ascii "write") by done. by vm_compute. }
  assert (allowed (evaluate_intent default_aiql_config m "system" "x:write") = false) as H2.
  { unfold evaluate_intent, first_in. rewrite Hm. rewrite (str_to_lowercase_ascii "x:write") by done. by vm_compute. }
  split; [|done]. cbn [AiqlPolicyEngine.run]. set (e0 := AiqlPolicyEngine.new).
  destruct (AiqlPolicyEngine.is_authorized e0 m "system:x" "write") as [b1 e1] eqn:Hq1.
  assert (b1 = true ∧ lru_view (AiqlPolicyEngine.cache e1) !! "false:system:x:write"%string = Some true) as [-> Hv].
  { unfold AiqlPolicyEngine.is_authorized in Hq1. rewrite Hm in Hq1.
    destruct (lru_get_view (AiqlPolicyEngine.cache e0) (AiqlPolicyEngine.cache_key false "system:x" "write")) as [Hg _].
    cbn [AiqlPolicyEngine.cache e0 AiqlPolicyEngine.new] in Hg. rewrite lru_view_new, lookup_empty in Hg.
    cbn [AiqlPolicyEngine.cache e0 AiqlPolicyEngine.new] in Hq1. destruct (lru_get _ _) as [o c]. cbn in Hg. subst o.
    change (AiqlPolicyEngine.llm_config e0) with default_aiql_config in Hq1. rewrite H1 in Hq1. injection Hq1 as <- <-. split; [done|]. apply lru_put_hit. }
  unfold AiqlPolicyEngine.is_authorized. rewrite Hm.
  destruct (lru_get_view (AiqlPolicyEngine.cache e1) (AiqlPolicyEngine.cache_key false "system" "x:write")) as [Hg _].
  destruct (lru_get _ _) as [o c]. cbn in Hg. change (AiqlPolicyEngine.cache_key false "system" "x:write") with "false:system:x:write"%string in Hg.
  rewrite Hv in Hg. by subst o.
Qed.

(** ** The OPA engine *)

(** [regorus]: whether a policy compiles, and how many results the query
    [data.fabric.allow] has ([None] for an evaluation error). *)
Class RegoPrim : Type := { rego_add_policy : string → bool; rego_results : string → option nat }.

Record OpaPolicyEngine : Type := mk_opa { opa_url : string; local_rego_policy : option string }.
Definition opa_new (url : string) : OpaPolicyEngine := mk_opa url None.
Definition opa_with_local_policy (e : OpaPolicyEngine) (policy : string) : OpaPolicyEngine := mk_opa (opa_url e) (Some policy).

Definition opa_is_authorized `{RegoPrim} (e : OpaPolicyEngine) (m : IdentityMeasurement) (namespace action : string) : bool :=
  if id_is_debug m then false
  else
    match (policy ← local_rego_policy e; if rego_add_policy policy then rego_results policy else None) with
    | Some n => bool_decide (n ≠ 0%nat)
    | None => true
    end.

(** Outside debug enclaves the engine denies only when a local policy compiles,
    evaluates and has no result at all; the namespace and the action do not matter, and
    an OPA server is never asked. *)
Theorem opa_denies_iff `{RegoPrim} (e : OpaPolicyEngine) (m : IdentityMeasurement) (ns action : string) :
  opa_is_authorized e m ns action = false ↔
  id_is_debug m = true ∨
  ∃ policy, local_rego_policy e = Some policy ∧ rego_add_policy policy = true ∧ rego_results policy = Some 0%nat.
Proof.
  unfold opa_is_authorized. destruct (id_is_debug m); [split; auto|]. destruct (local_rego_policy e) as [p|]; cbn.
  2: { split; [done|]. intros [?|(p & ? & _)]; done. }
  destruct (rego_add_policy p) eqn:Ha.
  2: { split; [done|]. intros [?|(p' & [= <-] & ? & _)]; congruence. }
  destruct (rego_results p) as [n|] eqn:Hr.
  - rewrite bool_decide_eq_false. split.
    + intros Hn. right. exists p. split_and!; [done..|]. rewrite Hr. f_equal. lia.
    + intros [?|(p' & [= <-] & _ & Hr')]; [done|]. rewrite Hr in Hr'. injection Hr' as ->. lia.
  - split; [done|]. intros [?|(p' & [= <-] & _ & Hr')]; congruence.
Qed.
