(* ===== verification/Aiql.v ===== *)
(** * The AIQL policy language

    [crates/openhttpa-aiql/src]: conditions over the caller and the intent of a request,
    their evaluation and the engine that combines policies ([lib.rs]), and the parser of
    the textual form ([parser.rs]).

    A string is a list of Unicode scalar values, as the parser reads it.  The parser
    combinators of the crate [winnow] and the classification of non-ASCII letters are
    classes with their documented behaviour as laws.  The parser's recursion goes
    through a parenthesis: [parse_condition] is defined by fuel, the length of the
    input, and proved to be the one solution of the source's recursive equation. *)

From S2P Require Import Prelude.
From stdpp Require Import options.

#[local] Open Scope Z_scope.

Abbreviation str := (list Z).
Definition lit (s : string) : str := u8_val <$> as_bytes s.

(** ** Conditions *)

#[local] Set Warnings "-register-all".
Inductive Condition : Type :=
| Equals (field value : str)
| Contains (field value : str)
| NotContains (field value : str)
| And (conds : list Condition)
| Or (conds : list Condition).

Section condition_ind.
Context (P : Condition → Prop).
Context (HE : ∀ f v, P (Equals f v)) (HC : ∀ f v, P (Contains f v)) (HN : ∀ f v, P (NotContains f v)).
Context (HA : ∀ l, Forall P l → P (And l)) (HO : ∀ l, Forall P l → P (Or l)).
Fixpoint condition_ind' (c : Condition) : P c :=
  let all := fix all l : Forall P l := match l with [] => Forall_nil_2 P | c :: l => Forall_cons_2 P c l (condition_ind' c) (all l) end in
  match c with
  | Equals f v => HE f v | Contains f v => HC f v | NotContains f v => HN f v
  | And l => HA l (all l) | Or l => HO l (all l)
  end.
End condition_ind.

Inductive PolicyAction : Type := Allow | Deny | Quarantine.
#[export] Instance PolicyAction_eq_dec : EqDecision PolicyAction.
Proof. solve_decision. Defined.
Inductive ViolationAction : Type := RouteToKafka (topic : string) | Log.
Record AiqlPolicy : Type := mk_policy {
  policy_name : string; policy_condition : Condition; policy_action : PolicyAction; on_violation : option ViolationAction;
}.
Inductive PolicyError : Type := UnknownField (field : str).
Record Context : Type := mk_context { caller_did : str; caller_mrenclave : str; intent : str; ctx_namespace : str }.

Definition resolve_field (ctx : Context) (field : str) : result PolicyError str :=
  if decide (field = lit "caller.did") then Ok (caller_did ctx)
  else if decide (field = lit "caller.mrenclave") then Ok (caller_mrenclave ctx)
  else if decide (field = lit "intent") then Ok (intent ctx)
  else if decide (field = lit "namespace") then Ok (ctx_namespace ctx)
  else Err (UnknownField field).


Fixpoint evaluate (ctx : Context) (c : Condition) : result PolicyError bool :=
  match c with
  | Equals field value => v ← resolve_field ctx field; Ok (bool_decide (v = value))
  | Contains field value => v ← resolve_field ctx field; Ok (contains v value)
  | NotContains field value => v ← resolve_field ctx field; Ok (negb (contains v value))
  | And conds =>
      (fix all (l : list Condition) : result PolicyError bool :=
         match l with [] => Ok true | c :: l => b ← evaluate ctx c; if (b : bool) then all l else Ok false end) conds
  | Or conds =>
      (fix any (l : list Condition) : result PolicyError bool :=
         match l with [] => Ok false | c :: l => b ← evaluate ctx c; if (b : bool) then Ok true else any l end) conds
  end.

(** ** The engine *)

Record AiqlConfig : Type := mk_config { default_action : PolicyAction; strict_mode : bool }.
Definition default_config : AiqlConfig := mk_config Deny true.
Record AiqlEngine : Type := mk_engine { policies : list AiqlPolicy; config : AiqlConfig }.
Definition new (config : AiqlConfig) : AiqlEngine := mk_engine [] config.
Definition load_policy (e : AiqlEngine) (p : AiqlPolicy) : AiqlEngine := mk_engine (policies e ++ [p]) (config e).

(** The loop over the policies; the action on a violation is a log line. *)
Fixpoint evaluate_policies (ctx : Context) (final_action : PolicyAction) (ps : list AiqlPolicy) : result PolicyError PolicyAction :=
  match ps with
  | [] => Ok final_action
  | p :: ps =>
      b ← evaluate ctx (policy_condition p);
      if (b : bool) then
        match policy_action p with
        | Deny => Ok Deny
        | Quarantine => Ok Quarantine
        | Allow => evaluate_policies ctx Allow ps
        end
      else evaluate_policies ctx final_action ps
  end.
Definition evaluate_payload (e : AiqlEngine) (ctx : Context) : result PolicyError PolicyAction :=
  evaluate_policies ctx (default_action (config e)) (policies e).

(** ** Parser combinators *)

Definition parser (A : Type) : Type := str → option (A * str).

(** A failed parser leaves no trace: the error's text is [parse_error]. *)
Class Winnow : Type := {
  take_while : (*at least*) nat → (Z → bool) → parser str;
  literal : str → parser str;
  space0 : parser str;
  alt {A} : list (parser A) → parser A;
  delimited {A B C} : parser A → parser B → parser C → parser B;
  separated1 {A B} : parser A → parser B → parser (list A);
  pair_of {A B} : parser A → parser B → parser (A * B);
  parse_error : str → string;
  is_alphanumeric : Z → bool;
}.

(** The longest prefix that satisfies a predicate. *)
Fixpoint span (f : Z → bool) (s : str) : str * str :=
  match s with
  | c :: s' => if f c then let '(a, b) := span f s' in (c :: a, b) else ([], s)
  | [] => ([], [])
  end.

(** What [separated] reads after its first element: separators and elements as long as
    both succeed and the input shrinks; the input is left before a separator that no
    element follows. *)
Inductive sep_rest {A B} (p : parser A) (sep : parser B) : str → list A → str → Prop :=
| stop_separator s : sep s = None → sep_rest p sep s [] s
| stop_element s x s1 : sep s = Some (x, s1) → p s1 = None → sep_rest p sep s [] s
| more s x s1 a s2 l s3 :
    sep s = Some (x, s1) → p s1 = Some (a, s2) → (length s2 < length s)%nat → sep_rest p sep s2 l s3 → sep_rest p sep s (a :: l) s3.

Definition is_space (c : Z) : bool := bool_decide (c = 32) || bool_decide (c = 9).

Class WinnowLaws (W : Winnow) : Prop := {
  take_while_eq n f s : take_while n f s = if decide (n ≤ length (span f s).1)%nat then Some (span f s) else None;
  literal_eq l s : literal l s = if decide (l `prefix_of` s) then Some (l, drop (length l) s) else None;
  space0_eq s : space0 s = Some (span is_space s);
  alt_nil {A} s : alt ([] : list (parser A)) s = None;
  alt_cons {A} (p : parser A) ps s : alt (p :: ps) s = match p s with Some r => Some r | None => alt ps s end;
  delimited_eq {A B C} (a : parser A) (b : parser B) (c : parser C) s :
    delimited a b c s = ('(_, s) ← a s; '(x, s) ← b s; '(_, s) ← c s; Some (x, s));
  pair_of_eq {A B} (a : parser A) (b : parser B) s : pair_of a b s = ('(x, s) ← a s; '(y, s) ← b s; Some ((x, y), s));
  separated1_iff {A B} (p : parser A) (sep : parser B) s l r :
    separated1 p sep s = Some (l, r) ↔ ∃ a s1 l', l = a :: l' ∧ p s = Some (a, s1) ∧ sep_rest p sep s1 l' r;
  is_alphanumeric_ascii c :
    0 ≤ c < 128 → is_alphanumeric c = bool_decide (48 ≤ c ≤ 57) || bool_decide (65 ≤ c ≤ 90) || bool_decide (97 ≤ c ≤ 122);
}.

(** ** The parser *)

Section parser.
Context {W : Winnow}.

Definition is_field_char (c : Z) : bool := is_alphanumeric c || bool_decide (c = 46) || bool_decide (c = 95).
Definition QUOTE : Z := 34.

Definition parse_field : parser str := take_while 1 is_field_char.
Definition parse_string : parser str :=
  delimited (literal [QUOTE]) (take_while 0 (λ c, negb (bool_decide (c = QUOTE)))) (literal [QUOTE]).

Definition parse_primitive : parser Condition := λ input,
  '(field, input) ← parse_field input;
  '(_, input) ← space0 input;
  '(op, input) ← alt [literal (lit "=="); literal (lit "contains"); literal (lit "not contains")] input;
  '(_, input) ← space0 input;
  '(value, input) ← parse_string input;
  Some ((if decide (op = lit "==") then Equals field value
         else if decide (op = lit "contains") then Contains field value
         else NotContains field value), input).

(** [pop] of a list with one element, or the connective. *)
Definition collapse (wrap : list Condition → Condition) (l : list Condition) : Condition :=
  match l with [c] => c | _ => wrap l end.

Definition separator (word : string) : parser (str * str * str) := pair_of (pair_of space0 (literal (lit word))) space0.

(** The three functions that call each other, with [self] for the recursive call. *)
Definition parse_primitive_or_paren (self : parser Condition) : parser Condition :=
  alt [delimited (pair_of (literal (lit "(")) space0) self (pair_of space0 (literal (lit ")"))); parse_primitive].
Definition parse_and_condition (self : parser Condition) : parser Condition := λ input,
  '(and_conds, input) ← separated1 (parse_primitive_or_paren self) (separator "AND") input;
  Some (collapse And and_conds, input).
Definition condition_body (self : parser Condition) : parser Condition := λ input,
  '(_, input) ← space0 input;
  '(or_conds, input) ← separated1 (parse_and_condition self) (separator "OR") input;
  Some (collapse Or or_conds, input).

Fixpoint parse_fuel (fuel : nat) : parser Condition :=
  match fuel with O => λ _, None | S n => condition_body (parse_fuel n) end.
Definition parse_condition : parser Condition := λ input, parse_fuel (S (length input)) input.

Definition parse_dsl (dsl : str) : result string Condition :=
  match parse_condition dsl with Some (c, _) => Ok c | None => Err (parse_error dsl) end.

End parser.

(** ** The parser terminates *)

(** The steps of a parser that succeeded. *)
Ltac split_binds H :=
  repeat match type of H with
  | _ ≫= _ = _ =>
      let r := fresh "r" in let t := fresh "t" in let E := fresh "E" in
      apply bind_Some in H; destruct H as ([r t] & E & H)
  end.

Section termination.
Context {W : Winnow} {WL : WinnowLaws W}.

(** A parser that never grows its input. *)
Definition shrinks {A} (p : parser A) : Prop := ∀ s x s', p s = Some (x, s') → (length s' ≤ length s)%nat.

Lemma span_app f s : (span f s).1 ++ (span f s).2 = s.
Proof. induction s as [|c s IH]; cbn; [done|]. destruct (f c); [|done]. destruct (span f s). cbn in *. by rewrite IH. Qed.
Lemma space0_shrinks : shrinks space0.
Proof using WL. intros s x s'. rewrite space0_eq. intros [= H]. rewrite <- (span_app is_space s), H, length_app. cbn. lia. Qed.
Lemma literal_shrinks l : shrinks (literal l).
Proof using WL. intros s x s'. rewrite literal_eq. case_decide; [|done]. intros [= _ <-]. rewrite length_drop. lia. Qed.
Lemma pair_of_shrinks {A B} (p : parser A) (q : parser B) : shrinks p → shrinks q → shrinks (pair_of p q).
Proof using WL.
  intros Hp Hq s x s'. rewrite pair_of_eq. intros ([y s1] & Hy & ([z s2] & Hz & [= _ <-])%bind_Some)%bind_Some.
  specialize (Hp _ _ _ Hy). specialize (Hq _ _ _ Hz). lia.
Qed.
Lemma separator_shrinks w : shrinks (separator w).
Proof using WL. apply pair_of_shrinks; [apply pair_of_shrinks|]; auto using space0_shrinks, literal_shrinks. Qed.

Lemma sep_rest_local {A B} (p q : parser A) (sep : parser B) n s l r :
  shrinks sep → (∀ t, (length t ≤ n)%nat → p t = q t) → (length s ≤ n)%nat → sep_rest p sep s l r → sep_rest q sep s l r.
Proof using.
  intros Hsep Heq Hs H. induction H as [s Hn|s x s1 Hx Hp|s x s1 a s2 l s3 Hx Hp Hlt _ IH].
  - by apply stop_separator.
  - eapply stop_element; [done|]. rewrite <- Heq; [done|]. specialize (Hsep _ _ _ Hx). lia.
  - eapply more; [done| |done|apply IH; lia]. rewrite <- Heq; [done|]. specialize (Hsep _ _ _ Hx). lia.
Qed.
Lemma separated1_local {A B} (p q : parser A) (sep : parser B) s :
  shrinks sep → shrinks q → (∀ t, (length t ≤ length s)%nat → p t = q t) → separated1 p sep s = separated1 q sep s.
Proof using WL.
  intros Hsep Hq Heq. apply option_eq. intros [l r]. rewrite !separated1_iff.
  split; intros (a & s1 & l' & -> & Ha & Hr); exists a, s1, l'; split_and!; try done.
  - by rewrite <- Heq.
  - rewrite Heq in Ha by done. specialize (Hq _ _ _ Ha). eapply (sep_rest_local p q _ (length s)); eauto.
  - by rewrite Heq.
  - specialize (Hq _ _ _ Ha). eapply (sep_rest_local q p _ (length s)); eauto. intros t Ht. symmetry. auto.
Qed.
Lemma sep_rest_shrinks {A B} (p : parser A) (sep : parser B) s l r : sep_rest p sep s l r → (length r ≤ length s)%nat.
Proof using. induction 1; lia. Qed.
Lemma separated1_shrinks {A B} (p : parser A) (sep : parser B) : shrinks p → shrinks (separated1 p sep).
Proof using WL.
  intros Hp s l r (a & s1 & l' & _ & Ha & Hr)%separated1_iff. apply sep_rest_shrinks in Hr. specialize (Hp _ _ _ Ha). lia.
Qed.

Lemma take_while_shrinks n f : shrinks (take_while n f).
Proof using WL.
  intros s x s'. rewrite take_while_eq. case_decide; [|done]. intros [= Hs]. rewrite <- (span_app f s), Hs, length_app. cbn. lia.
Qed.
Lemma delimited_shrinks {A B C} (a : parser A) (b : parser B) (c : parser C) : shrinks a → shrinks b → shrinks c → shrinks (delimited a b c).
Proof using WL.
  intros Ha Hb Hc s x s'. rewrite delimited_eq.
  intros ([y s1] & Hy & ([z s2] & Hz & ([w s3] & Hw & [= _ <-])%bind_Some)%bind_Some)%bind_Some.
  specialize (Ha _ _ _ Hy). specialize (Hb _ _ _ Hz). specialize (Hc _ _ _ Hw). lia.
Qed.
Lemma alt_shrinks {A} (ps : list (parser A)) : Forall shrinks ps → shrinks (alt ps).
Proof using WL.
  intros H s x s'. induction H as [|p ps Hp _ IH]; [by rewrite alt_nil|]. rewrite alt_cons. destruct (p s) as [r|] eqn:Hr; [|done].
  intros [= ->]. by eapply Hp.
Qed.
Lemma parse_primitive_shrinks : shrinks parse_primitive.
Proof using WL.
  intros s x s' H. unfold parse_primitive in H.
  split_binds H. injection H as _ <-.
  repeat match goal with
  | H : space0 _ = _ |- _ => apply space0_shrinks in H
  | H : parse_field _ = _ |- _ => apply take_while_shrinks in H
  | H : alt _ _ = _ |- _ => apply alt_shrinks in H; [|repeat constructor; apply literal_shrinks]
  | H : parse_string _ = _ |- _ => apply delimited_shrinks in H; [|apply literal_shrinks|apply take_while_shrinks|apply literal_shrinks]
  end. lia.
Qed.
Lemma paren_shrinks self : shrinks self → shrinks (parse_primitive_or_paren self).
Proof using WL.
  intros Hs. apply alt_shrinks. repeat constructor; [|apply parse_primitive_shrinks].
  apply delimited_shrinks; [|done|]; apply pair_of_shrinks; auto using space0_shrinks, literal_shrinks.
Qed.
Lemma and_shrinks self : shrinks self → shrinks (parse_and_condition self).
Proof using WL.
  intros Hs s x s'. unfold parse_and_condition. intros ([l r] & Hl & [= _ <-])%bind_Some. by apply separated1_shrinks in Hl; [|apply paren_shrinks].
Qed.
Lemma body_shrinks self : shrinks self → shrinks (condition_body self).
Proof using WL.
  intros Hs s x s'. unfold condition_body. intros ([y s1] & Hy & ([l r] & Hl & [= _ <-])%bind_Some)%bind_Some.
  apply space0_shrinks in Hy. apply separated1_shrinks in Hl; [lia|]. by apply and_shrinks.
Qed.
Lemma fuel_shrinks n : shrinks (parse_fuel n).
Proof using WL. induction n as [|n IH]; [done|]. by apply body_shrinks. Qed.

(** The recursive call sees a shorter input: what precedes it is a parenthesis. *)
Lemma body_local f g s :
  shrinks g → (∀ t, (length t < length s)%nat → f t = g t) → condition_body f s = condition_body g s.
Proof using WL.
  intros Hg Heq.
  assert (∀ t, (length t ≤ length s)%nat → parse_primitive_or_paren f t = parse_primitive_or_paren g t) as Hpar.
  { intros t Ht. unfold parse_primitive_or_paren. rewrite !alt_cons, !delimited_eq, !pair_of_eq, literal_eq.
    case_decide as Hpre; [|done]. cbn [mbind option_bind]. destruct (space0 _) as [[y s1]|] eqn:Hy; [|done]. cbn [mbind option_bind].
    rewrite Heq; [done|]. apply space0_shrinks in Hy. rewrite length_drop in Hy. destruct Hpre as [k ->].
    rewrite length_app in *. cbn in *. lia. }
  assert (∀ t, (length t ≤ length s)%nat → parse_and_condition f t = parse_and_condition g t) as Hand.
  { intros t Ht. unfold parse_and_condition.
    rewrite (separated1_local (parse_primitive_or_paren f) (parse_primitive_or_paren g)); auto using separator_shrinks, paren_shrinks.
    intros t' Ht'. apply Hpar. lia. }
  unfold condition_body. destruct (space0 s) as [[y s1]|] eqn:Hy; [|done]. cbn [mbind option_bind]. apply space0_shrinks in Hy.
  rewrite (separated1_local (parse_and_condition f) (parse_and_condition g)); auto using separator_shrinks, and_shrinks.
  intros t Ht. apply Hand. lia.
Qed.

Lemma fuel_enough n m s : (length s < n)%nat → (length s < m)%nat → parse_fuel n s = parse_fuel m s.
Proof using WL.
  revert m s. induction n as [|n IH]; intros [|m] s Hn Hm; try lia. cbn [parse_fuel]. apply body_local; [apply fuel_shrinks|].
  intros t Ht. apply IH; lia.
Qed.

Lemma parse_shrinks : shrinks parse_condition.
Proof using WL. intros s x s'. apply fuel_shrinks. Qed.
Lemma parse_unfold s : parse_condition s = condition_body parse_condition s.
Proof using WL.
  unfold parse_condition at 1. cbn [parse_fuel]. apply body_local; [apply parse_shrinks|]. intros t Ht. apply fuel_enough; lia.
Qed.

End termination.

(** [C31] The parser terminates on every input: [parse_condition] satisfies the recursive
    equation of the source, in which the parser calls itself between parentheses, and
    is the only function that does. *)
Theorem parse_terminates {W : Winnow} {WL : WinnowLaws W} :
  (∀ s, parse_condition s = condition_body parse_condition s) ∧
  (∀ f : parser Condition, (∀ s, f s = condition_body f s) → ∀ s, f s = parse_condition s).
Proof.
  split; [apply parse_unfold|]. intros f Hf s. remember (length s) as n eqn:Hn. revert s Hn. induction (lt_wf n) as [n _ IH].
  intros s ->. rewrite Hf, parse_unfold. apply body_local; [apply parse_shrinks|]. intros t Ht. by apply (IH (length t)).
Qed.

(** ** What the parser accepts *)

Section syntax.
Context {W : Winnow}.

Definition wf_field (f : str) : bool := negb (bool_decide (f = [])) && forallb is_field_char f.
Definition wf_value (v : str) : bool := forallb (λ c, negb (bool_decide (c = QUOTE))) v.

(** The conditions that have a textual form. *)
Fixpoint wf (c : Condition) : bool :=
  match c with
  | Equals f v | Contains f v | NotContains f v => wf_field f && wf_value v
  | And l | Or l => bool_decide (2 ≤ length l)%nat && forallb wf l
  end.

Definition is_prim (c : Condition) : bool := match c with And _ | Or _ => false | _ => true end.
Fixpoint join (sep : str) (l : list str) : str :=
  match l with [] => [] | [x] => x | x :: l => x ++ sep ++ join sep l end.

(** The text of a condition: nested connectives in parentheses. *)
Definition print_prim (f : str) (op : string) (v : str) : str := f ++ lit op ++ [QUOTE] ++ v ++ [QUOTE].
Fixpoint print (c : Condition) : str :=
  let atom c := if is_prim c then print c else lit "(" ++ print c ++ lit ")" in
  match c with
  | Equals f v => print_prim f " == " v
  | Contains f v => print_prim f " contains " v
  | NotContains f v => print_prim f " not contains " v
  | And l => join (lit " AND ") (atom <$> l)
  | Or l => join (lit " OR ") (atom <$> l)
  end.
Definition print_atom (c : Condition) : str := if is_prim c then print c else lit "(" ++ print c ++ lit ")".

Context {WL : WinnowLaws W}.

Lemma span_all f a b : forallb f a = true → match b with [] => True | c :: _ => f c = false end → span f (a ++ b) = (a, b).
Proof using.
  induction a as [|c a IH]; cbn; intros Ha Hb.
  - destruct b as [|d b]; [done|]. cbn. by rewrite Hb.
  - apply andb_true_iff in Ha as [-> Ha]. by rewrite IH.
Qed.
Lemma span_forallb f s : forallb f (span f s).1 = true.
Proof using. induction s as [|c s IH]; cbn; [done|]. destruct (f c) eqn:Hc; [|done]. destruct (span f s). cbn in *. by rewrite Hc. Qed.

Lemma take_while_all n f a b :
  forallb f a = true → match b with [] => True | c :: _ => f c = false end → (n ≤ length a)%nat → take_while n f (a ++ b) = Some (a, b).
Proof using WL. intros Ha Hb Hn. rewrite take_while_eq, span_all by done. by rewrite decide_True. Qed.
Lemma literal_app l s : literal l (l ++ s) = Some (l, s).
Proof using WL. rewrite literal_eq, decide_True by by apply prefix_app_r. by rewrite drop_app_length. Qed.
Lemma literal_cons_ne c l d s : c ≠ d → literal (c :: l) (d :: s) = None.
Proof using WL. intros Hne. rewrite literal_eq, decide_False; [done|]. intros [k [= ? _]]. congruence. Qed.
Lemma literal_other w x s :
  match lit w, lit x with c :: _, d :: _ => c ≠ d | _, _ => False end → literal (lit w) (lit x ++ s) = None.
Proof using WL. destruct (lit w), (lit x); try done. apply literal_cons_ne. Qed.
Lemma literal_nil c l : literal (c :: l) [] = None.
Proof using WL. rewrite literal_eq, decide_False; [done|]. by intros [k ?]. Qed.
Lemma space0_none s : match s with [] => True | c :: _ => is_space c = false end → space0 s = Some ([], s).
Proof using WL. intros Hs. rewrite space0_eq. f_equal. by apply (span_all is_space [] s). Qed.
Lemma space0_one s : match s with [] => True | c :: _ => is_space c = false end → space0 (32 :: s) = Some ([32], s).
Proof using WL. intros Hs. rewrite space0_eq. f_equal. by apply (span_all is_space [32] s). Qed.

Lemma field_char_ascii c : 0 ≤ c < 128 → is_field_char c =
  bool_decide (48 ≤ c ≤ 57) || bool_decide (65 ≤ c ≤ 90) || bool_decide (97 ≤ c ≤ 122) || bool_decide (c = 46) || bool_decide (c = 95).
Proof using WL. intros Hc. unfold is_field_char. by rewrite is_alphanumeric_ascii. Qed.
Lemma field_char_not c : is_field_char c = true → c ≠ 40 ∧ is_space c = false ∧ c ≠ 32.
Proof using WL.
  intros Hc. assert (∀ d, d ∈ [40; 32; 9] → c ≠ d) as Hne.
  { intros d Hd ->. rewrite field_char_ascii in Hc; [|set_solver by lia].
    repeat (apply elem_of_cons in Hd as [->|Hd]; [done|]). by apply elem_of_nil in Hd. }
  split_and!; [apply Hne; set_solver| |apply Hne; set_solver]. unfold is_space.
  rewrite !bool_decide_eq_false_2; [done|apply Hne; set_solver..].
Qed.

Lemma parse_string_print v rest : wf_value v = true → parse_string ([QUOTE] ++ v ++ [QUOTE] ++ rest) = Some (v, rest).
Proof using WL.
  intros Hv. unfold parse_string. rewrite delimited_eq, literal_app. cbn [mbind option_bind].
  rewrite take_while_all; [|done|done|lia]. cbn [mbind option_bind]. by rewrite literal_app.
Qed.

(** The text after the field: a space, the operator, a space. *)
Lemma parse_prim_op f op word v rest c :
  wf_field f = true → wf_value v = true → lit op = 32 :: lit word ++ [32] →
  match lit word with [] => False | d :: _ => is_space d = false end →
  alt [literal (lit "=="); literal (lit "contains"); literal (lit "not contains")] (lit word ++ 32 :: [QUOTE] ++ v ++ [QUOTE] ++ rest)
    = Some (lit word, 32 :: [QUOTE] ++ v ++ [QUOTE] ++ rest) →
  (if decide (lit word = lit "==") then Equals f v else if decide (lit word = lit "contains") then Contains f v else NotContains f v) = c →
  parse_primitive (print_prim f op v ++ rest) = Some (c, rest).
Proof using WL.
  intros [Hne Hf]%andb_true_iff Hv Hop Hword Halt Hc. unfold parse_primitive, print_prim, parse_field.
  rewrite Hop. rewrite <- !app_assoc, <- app_comm_cons, <- !app_assoc.
  rewrite take_while_all; [|done|by rewrite field_char_ascii by lia|].
  2: { destruct f; [done|]. cbn. lia. }
  cbn [mbind option_bind]. rewrite space0_one; [|by destruct (lit word)]. cbn [mbind option_bind]. rewrite <- app_comm_cons in Halt.
  cbn [app] in *. rewrite Halt. cbn [mbind option_bind]. rewrite space0_one by done. cbn [mbind option_bind].
  pose proof (parse_string_print v rest Hv) as Hs. cbn [app] in Hs. rewrite Hs. cbn [mbind option_bind]. by rewrite Hc.
Qed.

Lemma parse_prim_print c rest : wf c = true → is_prim c = true → parse_primitive (print c ++ rest) = Some (c, rest).
Proof using WL.
  destruct c as [f v|f v|f v|l|l]; intros [Hf Hv]%andb_true_iff Hp; try done; cbn [print].
  - apply (parse_prim_op f " == " "==" v); try done. by rewrite alt_cons, literal_app.
  - apply (parse_prim_op f " contains " "contains" v); try done. rewrite alt_cons, literal_other by done.
    by rewrite alt_cons, literal_app.
  - apply (parse_prim_op f " not contains " "not contains" v); try done. rewrite alt_cons, literal_other by done.
    rewrite alt_cons, literal_other by done. by rewrite alt_cons, literal_app.
Qed.

(** What may follow a condition: nothing, or a closing parenthesis. *)
Definition stops (rest : str) : Prop := match rest with [] => True | c :: _ => c = 41 end.

(** How a condition starts: with a field or an opening parenthesis. *)
Definition starts (s : str) : Prop := match s with [] => False | d :: _ => is_field_char d = true ∨ d = 40 end.
Lemma starts_app a b : starts a → starts (a ++ b).
Proof using. by destruct a. Qed.
Lemma starts_space s : starts s → match s with [] => True | c :: _ => is_space c = false end.
Proof using WL. destruct s as [|c s]; [done|]. intros [Hc| ->]; [by apply field_char_not|done]. Qed.

Lemma print_prim_starts f op v : wf_field f = true → starts (print_prim f op v).
Proof using. intros [Hne Hf]%andb_true_iff. destruct f as [|c f]; [done|]. apply andb_true_iff in Hf as [Hc _]. by left. Qed.
Lemma print_starts c : wf c = true → starts (print c).
Proof using.
  assert (∀ sep x l, starts x → starts (join sep (x :: l))) as Hjoin.
  { intros sep x [|y l] Hx; [done|]. by apply starts_app. }
  assert (∀ c, wf c = true → is_prim c = true → starts (print c)) as Hprim.
  { intros [f v|f v|f v|l|l] [Hf _]%andb_true_iff Hp; try done; by apply print_prim_starts. }
  destruct c as [f v|f v|f v|l|l]; intros Hw; [by apply Hprim..| |].
  all: cbn [wf] in Hw; apply andb_true_iff in Hw as [Hl%bool_decide_eq_true Hall]; destruct l as [|c l]; [cbn in Hl; lia|].
  all: apply andb_true_iff in Hall as [Hc _]; cbn [print]; rewrite fmap_cons; apply Hjoin.
  all: destruct (is_prim c) eqn:Hp; [by apply Hprim|by right].
Qed.

Lemma print_connective c :
  print c = match c with
            | And l => join (lit " AND ") (print_atom <$> l)
            | Or l => join (lit " OR ") (print_atom <$> l)
            | _ => print c
            end.
Proof using. by destruct c. Qed.

(** Between parentheses any text may follow; the induction hypothesis of the round trip
    is used through this lemma. *)
Lemma parse_atom_print c rest :
  wf c = true → (is_prim c = false → ∀ rest, stops rest → parse_condition (print c ++ rest) = Some (c, rest)) →
  parse_primitive_or_paren parse_condition (print_atom c ++ rest) = Some (c, rest).
Proof using WL.
  intros Hw IH. unfold parse_primitive_or_paren, print_atom. rewrite alt_cons, delimited_eq, pair_of_eq.
  pose proof (print_starts c Hw) as Hst. destruct (is_prim c) eqn:Hp.
  - destruct (print c ++ rest) as [|d s] eqn:Hd; [by apply (starts_app _ rest) in Hst; rewrite Hd in Hst|].
    assert (literal (lit "(") (d :: s) = None) as ->.
    { apply literal_cons_ne. apply (starts_app _ rest) in Hst. rewrite Hd in Hst. intros <-. cbn [starts] in Hst.
      destruct c; try done; apply andb_true_iff in Hw as [[Hne Hf]%andb_true_iff _]; cbn [print print_prim] in Hd;
        (destruct field; [done|]); injection Hd as -> _; apply andb_true_iff in Hf as [Hch%field_char_not _]; by destruct Hch. }
    cbn [mbind option_bind]. rewrite alt_cons, <- Hd, parse_prim_print by done. done.
  - rewrite <- !app_assoc, literal_app. cbn [mbind option_bind].
    rewrite space0_none by by apply starts_space, starts_app. cbn [mbind option_bind]. rewrite IH by done. cbn [mbind option_bind].
    rewrite pair_of_eq, space0_none by done. cbn [mbind option_bind]. rewrite literal_app. done.
Qed.

Lemma atom_starts c : wf c = true → starts (print_atom c).
Proof using WL. intros Hw. unfold print_atom. destruct (is_prim c); [by apply print_starts|by right]. Qed.

Definition spaced (w : string) : str := 32 :: lit w ++ [32].
Lemma join_cons w x l : join (spaced w) (x :: l) = x ++ concat ((λ y, spaced w ++ y) <$> l).
Proof using.
  revert x. induction l as [|y l IH]; intros x; [cbn; by rewrite app_nil_r|].
  rewrite fmap_cons. cbn [concat]. change (join (spaced w) (x :: y :: l)) with (x ++ spaced w ++ join (spaced w) (y :: l)).
  by rewrite IH, <- !app_assoc.
Qed.

Lemma separator_spaced w s :
  match lit w with [] => False | d :: _ => is_space d = false end → starts s → ∃ x, separator w (spaced w ++ s) = Some (x, s).
Proof using WL.
  intros Hw Hs. unfold separator, spaced. rewrite !pair_of_eq, <- app_comm_cons, <- app_assoc.
  rewrite space0_one by (by destruct (lit w)). cbn [mbind option_bind]. rewrite literal_app. cbn [mbind option_bind].
  change ([32] ++ s) with (32 :: s). rewrite space0_one by by apply starts_space. cbn [mbind option_bind]. by eexists.
Qed.
Lemma separator_none w s :
  match lit w with [] => False | d :: _ => is_space d = false ∧ d ≠ 41 end → stops s → separator w s = None.
Proof using WL.
  intros Hw Hs. unfold separator. rewrite !pair_of_eq. rewrite space0_none; [|destruct s; [done|by cbn in Hs; subst]].
  cbn [mbind option_bind]. destruct (lit w) as [|d l] eqn:Hd; [done|]. destruct s as [|c s]; [by rewrite literal_nil|].
  cbn in Hs. subst c. by rewrite literal_cons_ne by tauto.
Qed.
Lemma separator_and_or s : separator "AND" (spaced "OR" ++ s) = None.
Proof using WL.
  unfold separator, spaced. rewrite !pair_of_eq, <- app_comm_cons, <- app_assoc, space0_one by done. cbn [mbind option_bind].
  by rewrite literal_other.
Qed.

(** The elements after the first one, for a connective [w] whose elements [p] reads
    whenever [Q] holds of what follows. *)
Lemma sep_rest_print (p : parser Condition) (w : string) (Q : str → Prop) l rest :
  match lit w with [] => False | d :: _ => is_space d = false end →
  Forall (λ c, wf c = true ∧ ∀ r, Q r → p (print_atom c ++ r) = Some (c, r)) l →
  (∀ s, Q (spaced w ++ s)) → Q rest → separator w rest = None →
  sep_rest p (separator w) (concat ((λ y, spaced w ++ y) <$> (print_atom <$> l)) ++ rest) l rest.
Proof using WL.
  intros Hw Hall HQ Hrest Hnone. induction Hall as [|c l [Hc Hp] _ IH]; [by apply stop_separator|].
  rewrite !fmap_cons. cbn [concat]. rewrite <- !app_assoc. set (tail := concat _ ++ rest) in *.
  destruct (separator_spaced w (print_atom c ++ tail) Hw) as [x Hx]; [by apply starts_app, atom_starts|].
  eapply more; [exact Hx| | |exact IH].
  - apply Hp. unfold tail. destruct l as [|c' l]; [done|]. rewrite !fmap_cons. cbn [concat]. rewrite <- !app_assoc. apply HQ.
  - rewrite !length_app. unfold spaced. cbn. lia.
Qed.

Lemma separated1_print (p : parser Condition) (w : string) (Q : str → Prop) c l rest :
  match lit w with [] => False | d :: _ => is_space d = false end →
  Forall (λ c, wf c = true ∧ ∀ r, Q r → p (print_atom c ++ r) = Some (c, r)) (c :: l) →
  (∀ s, Q (spaced w ++ s)) → Q rest → separator w rest = None →
  separated1 p (separator w) (join (spaced w) (print_atom <$> c :: l) ++ rest) = Some (c :: l, rest).
Proof using WL.
  intros Hw [[Hc Hp] Hall]%Forall_cons HQ Hrest Hnone. rewrite fmap_cons, join_cons, <- app_assoc. apply separated1_iff.
  eexists c, _, l. split; [done|]. split; [|by apply (sep_rest_print p w Q)].
  apply Hp. destruct l as [|c' l]; [done|]. rewrite !fmap_cons. cbn [concat]. rewrite <- !app_assoc. apply HQ.
Qed.

(** One element is a conjunction of one. *)
Lemma and_single c rest :
  wf c = true → (is_prim c = false → ∀ rest, stops rest → parse_condition (print c ++ rest) = Some (c, rest)) → separator "AND" rest = None →
  parse_and_condition parse_condition (print_atom c ++ rest) = Some (c, rest).
Proof using WL.
  intros Hc IH Hnone. unfold parse_and_condition.
  pose proof (separated1_print (parse_primitive_or_paren parse_condition) "AND" (λ _, True) c [] rest) as H. cbn [fmap list_fmap join] in H.
  rewrite H; [done|done| |done..]. constructor; [|constructor]. split; [done|]. intros r _. by apply parse_atom_print.
Qed.

(** A condition that [parse_and_condition] reads is a disjunction of one. *)
Lemma or_single c rest :
  wf c = true → stops rest → parse_and_condition parse_condition (print c ++ rest) = Some (c, rest) →
  parse_condition (print c ++ rest) = Some (c, rest).
Proof using WL.
  intros Hw Hrest Hand. rewrite parse_unfold. unfold condition_body.
  rewrite space0_none by (by apply starts_space, starts_app, print_starts). cbn [mbind option_bind].
  assert (separated1 (parse_and_condition parse_condition) (separator "OR") (print c ++ rest) = Some ([c], rest)) as ->; [|done].
  apply separated1_iff. exists c, rest, []. split_and!; [done..|]. apply stop_separator. by apply separator_none.
Qed.

Lemma parse_print c rest : wf c = true → stops rest → parse_condition (print c ++ rest) = Some (c, rest).
Proof using WL.
  revert rest. induction c as [f v|f v|f v|l IH|l IH] using condition_ind'; intros rest Hw Hrest.
  1-3: apply or_single; [done..|]; apply (and_single _ rest Hw); [done|by apply separator_none].
  all: apply andb_true_iff in Hw as Hw'; destruct Hw' as [Hl%bool_decide_eq_true Hall]; destruct l as [|c [|c' l]]; [cbn in Hl; lia..|].
  all: assert (Forall (λ c, wf c = true ∧ ∀ rest, stops rest → parse_condition (print c ++ rest) = Some (c, rest)) (c :: c' :: l)) as Hel.
  1,3: rewrite Forall_forall in IH |- *; rewrite forallb_forall in Hall; intros x Hx;
       assert (wf x = true) as Hwx by (by apply Hall, list_elem_of_In); split; [done|]; intros r; by apply IH.
  - apply or_single; [done..|]. unfold parse_and_condition.
    rewrite print_connective, (separated1_print _ "AND" (λ _, True)); [done|done| |done|done|by apply separator_none].
    apply (Forall_impl _ _ _ Hel). intros x [Hx Hp]. split; [done|]. intros r _. by apply parse_atom_print.
  - rewrite parse_unfold. unfold condition_body. rewrite space0_none by (by apply starts_space, starts_app, print_starts).
    cbn [mbind option_bind].
    rewrite print_connective, (separated1_print _ "OR" (λ r, separator "AND" r = None));
      [done|done| |by intros; apply separator_and_or|by apply separator_none..].
    apply (Forall_impl _ _ _ Hel). intros x [Hx Hp]. split; [done|]. intros r Hr. by apply and_single.
Qed.

(** Everything that the parser returns has a textual form. *)
Lemma collapse_wf wrap l :
  (∀ l, wf (wrap l) = bool_decide (2 ≤ length l)%nat && forallb wf l) → l ≠ [] → Forall (λ c, wf c = true) l → wf (collapse wrap l) = true.
Proof using.
  intros Hwrap Hne Hall. destruct l as [|c [|c' l]]; [done|by apply Forall_cons in Hall as [? _]|]. cbn [collapse]. rewrite Hwrap.
  apply andb_true_iff. split; [apply bool_decide_eq_true; cbn; lia|]. apply forallb_forall. intros x Hx%list_elem_of_In.
  rewrite Forall_forall in Hall. by apply Hall.
Qed.
Lemma separated1_all {A B} (P : A → Prop) (p : parser A) (sep : parser B) s l r :
  (∀ s a r, p s = Some (a, r) → P a) → separated1 p sep s = Some (l, r) → l ≠ [] ∧ Forall P l.
Proof using WL.
  intros Hp (a & s1 & l' & -> & Ha & Hr)%separated1_iff. split; [done|]. constructor; [by eapply Hp|].
  clear Ha. induction Hr as [| |? ? ? b ? ? ? _ Hb _ _ IH]; constructor; [by eapply Hp|exact IH].
Qed.
Lemma parse_primitive_wf s c r : parse_primitive s = Some (c, r) → wf c = true.
Proof using WL.
  unfold parse_primitive, parse_field, parse_string. intros ([f s1] & Hf & H)%bind_Some. rewrite take_while_eq in Hf.
  case_decide as Hlen; [|done]. injection Hf as Hf. assert (wf_field f = true) as Hwf.
  { unfold wf_field. pose proof (span_forallb is_field_char s) as Hs. rewrite Hf in Hs, Hlen. cbn in Hs, Hlen. rewrite Hs.
    destruct f; [cbn in Hlen; lia|done]. }
  split_binds H. injection H as <- _.
  match goal with Hd : delimited _ _ _ _ = Some (?v, _) |- _ =>
    rewrite delimited_eq in Hd; apply bind_Some in Hd as ([? ?] & _ & ([? ?] & Hv & ([? ?] & _ & [= -> _])%bind_Some)%bind_Some) end.
  rewrite take_while_eq in Hv. case_decide; [|done]. injection Hv as Hv.
  match type of Hv with span ?f ?t = _ => pose proof (span_forallb f t) as Hs end. rewrite Hv in Hs. cbn in Hs.
  repeat case_decide; cbn [wf]; unfold wf_value; by rewrite Hwf, Hs.
Qed.
Lemma body_wf self : (∀ s c r, self s = Some (c, r) → wf c = true) → ∀ s c r, condition_body self s = Some (c, r) → wf c = true.
Proof using WL.
  intros Hself s c r ([y s1] & _ & ([l s2] & Hl & [= <- _])%bind_Some)%bind_Some.
  apply (separated1_all (λ c, wf c = true)) in Hl as [Hne Hall]; [by apply collapse_wf|].
  intros s' c' r' ([l' s3] & Hl' & [= <- _])%bind_Some.
  apply (separated1_all (λ c, wf c = true)) in Hl' as [Hne' Hall']; [by apply collapse_wf|].
  intros t d r'' Hd. unfold parse_primitive_or_paren in Hd. rewrite !alt_cons, delimited_eq, alt_nil in Hd.
  destruct (_ ≫= _) as [[d' t']|] eqn:Hpar.
  - injection Hd as -> _. split_binds Hpar. injection Hpar as -> _. by eapply Hself.
  - destruct (parse_primitive t) as [[d' t']|] eqn:Hprim; [|done]. injection Hd as -> _. by eapply parse_primitive_wf.
Qed.
Lemma parse_wf s c r : parse_condition s = Some (c, r) → wf c = true.
Proof using WL.
  unfold parse_condition. generalize (S (length s)) as n. intros n. revert s c r.
  induction n as [|n IH]; intros s c r; [done|]. by apply body_wf.
Qed.

End syntax.

(** Every condition that has a textual form is read back from its text. *)
Theorem dsl_round_trip {W : Winnow} {WL : WinnowLaws W} (c : Condition) : wf c = true → parse_dsl (print c) = Ok c.
Proof. intros Hw. unfold parse_dsl. rewrite <- (app_nil_r (print c)). by rewrite parse_print. Qed.

(** [C32] Every condition that the parser returns is well formed: fields are non-empty and
    made of field characters, values contain no quote, connectives have at least two
    operands at every depth; hence it can be printed and read again. *)
Theorem dsl_well_formed {W : Winnow} {WL : WinnowLaws W} (s : str) (c : Condition) :
  parse_dsl s = Ok c → wf c = true ∧ parse_dsl (print c) = Ok c.
Proof.
  unfold parse_dsl. destruct (parse_condition s) as [[c' r]|] eqn:Hp; [|done]. intros [= ->]. apply parse_wf in Hp. split; [done|].
  rewrite <- (app_nil_r (print c)). by rewrite parse_print.
Qed.

(** Text that follows a condition is ignored: a policy written with another connective
    than the two keywords loses everything after the first operand. *)
Theorem trailing_ignored {W : Winnow} {WL : WinnowLaws W} (c : Condition) (rest : str) :
  wf c = true → is_prim c = true → separator "AND" rest = None → separator "OR" rest = None → parse_dsl (print c ++ rest) = Ok c.
Proof.
  intros Hw Hp Hand Hor. unfold parse_dsl. rewrite parse_unfold. unfold condition_body.
  rewrite space0_none by (by apply starts_space, starts_app, print_starts). cbn [mbind option_bind].
  assert (separated1 (parse_and_condition parse_condition) (separator "OR") (print c ++ rest) = Some ([c], rest)) as ->; [|done].
  apply separated1_iff. exists c, rest, []. split_and!; [done| |by apply stop_separator].
  assert (print c = print_atom c) as -> by (unfold print_atom; by rewrite Hp). apply and_single; [done| |done]. by rewrite Hp.
Qed.

(** ** Evaluation *)

(** What a condition means when its fields exist. *)
Definition field_of (ctx : Context) (f : str) : str := default [] (result_ok (resolve_field ctx f)).
Fixpoint sat (ctx : Context) (c : Condition) : bool :=
  match c with
  | Equals f v => bool_decide (field_of ctx f = v)
  | Contains f v => contains (field_of ctx f) v
  | NotContains f v => negb (contains (field_of ctx f) v)
  | And l => forallb (sat ctx) l
  | Or l => existsb (sat ctx) l
  end.
Definition known_field (f : str) : bool :=
  bool_decide (f ∈ [lit "caller.did"; lit "caller.mrenclave"; lit "intent"; lit "namespace"]).
Fixpoint known (c : Condition) : bool :=
  match c with
  | Equals f _ | Contains f _ | NotContains f _ => known_field f
  | And l | Or l => forallb known l
  end.

Lemma resolve_known ctx f : known_field f = true → resolve_field ctx f = Ok (field_of ctx f).
Proof.
  unfold known_field. intros Hf%bool_decide_eq_true. unfold field_of.
  repeat (apply elem_of_cons in Hf as [->|Hf]; [done|]). by apply elem_of_nil in Hf.
Qed.

(** A condition over known fields evaluates to its meaning. *)
Theorem evaluate_known (ctx : Context) (c : Condition) : known c = true → evaluate ctx c = Ok (sat ctx c).
Proof.
  induction c as [f v|f v|f v|l IH|l IH] using condition_ind'; intros Hk; cbn [known] in Hk.
  1-3: cbn [evaluate sat]; by rewrite resolve_known.
  all: cbn [evaluate sat]; induction IH as [|c l Hc _ IHl]; [done|]; apply andb_true_iff in Hk as [Hkc Hkl]; rewrite (Hc Hkc).
  all: cbn [mbind result_bind forallb existsb]; destruct (sat ctx c); cbn [andb orb]; auto.
Qed.

(** An unknown field behind a decided operand is not reported. *)
Theorem unknown_hidden (ctx : Context) (a b : Condition) :
  evaluate ctx a = Ok false → evaluate ctx (And [a; b]) = Ok false.
Proof. intros Ha. cbn [evaluate]. by rewrite Ha. Qed.

(** [C33] The engine allows a request exactly when every policy can be evaluated, no policy
    that denies or quarantines matches, and a policy that allows does or allowing is
    the default. *)
Theorem engine_allows_iff (e : AiqlEngine) (ctx : Context) :
  evaluate_payload e ctx = Ok Allow ↔
  (∀ p, p ∈ policies e → ∃ b, evaluate ctx (policy_condition p) = Ok b ∧ (b = true → policy_action p = Allow)) ∧
  (default_action (config e) = Allow ∨
   ∃ p, p ∈ policies e ∧ policy_action p = Allow ∧ evaluate ctx (policy_condition p) = Ok true).
Proof.
  unfold evaluate_payload. generalize (default_action (config e)) as d. induction (policies e) as [|p ps IH]; intros d; cbn [evaluate_policies].
  { split.
    - intros [= ->]. split; [intros p Hp; by apply elem_of_nil in Hp|by left].
    - intros [_ [->|(p & Hp & _)]]; [done|by apply elem_of_nil in Hp]. }
  destruct (evaluate ctx (policy_condition p)) as [[]|err] eqn:He; cbn [mbind result_bind].
  - destruct (policy_action p) eqn:Ha.
    + rewrite IH. split; intros [Hall _]; split.
      * intros q [->|Hq]%elem_of_cons; [eauto|auto].
      * right. exists p. split; [by left|done].
      * intros q Hq. apply Hall. by right.
      * by left.
    + split; [done|]. intros [Hall _]. destruct (Hall p) as (b & Hb & Hact); [by left|]. rewrite He in Hb. injection Hb as <-.
      specialize (Hact eq_refl). congruence.
    + split; [done|]. intros [Hall _]. destruct (Hall p) as (b & Hb & Hact); [by left|]. rewrite He in Hb. injection Hb as <-.
      specialize (Hact eq_refl). congruence.
  - rewrite IH. split; intros [Hall Hor]; split.
    + intros q [->|Hq]%elem_of_cons; [by exists false|auto].
    + destruct Hor as [|(q & Hq & ?)]; [by left|right; exists q; split; [by right|done]].
    + intros q Hq. apply Hall. by right.
    + destruct Hor as [|(q & Hq & Hqa & Hqe)]; [by left|]. apply elem_of_cons in Hq as [->|Hq]; [congruence|right; by exists q].
  - split; [done|]. intros [Hall _]. destruct (Hall p) as (b & Hb & _); [by left|]. congruence.
Qed.

(** ** Concrete runs *)

Module ToyWinnow.

Fixpoint rest {A B} (p : parser A) (sep : parser B) (fuel : nat) (s : str) : option (list A * str) :=
  match fuel with
  | O => None
  | S n =>
      match sep s with
      | None => Some ([], s)
      | Some (_, s1) =>
          match p s1 with
          | None => Some ([], s)
          | Some (a, s2) => if decide (length s2 < length s)%nat then '(l, r) ← rest p sep n s2; Some (a :: l, r) else None
          end
      end
  end.
Lemma rest_iff {A B} (p : parser A) (sep : parser B) n s l r : (length s < n)%nat → rest p sep n s = Some (l, r) ↔ sep_rest p sep s l r.
Proof.
  revert s l r. induction n as [|n IH]; intros s l r Hn; [lia|]. cbn [rest]. split.
  - destruct (sep s) as [[x s1]|] eqn:Hx; [|intros [= <- <-]; by apply stop_separator].
    destruct (p s1) as [[a s2]|] eqn:Ha; [|intros [= <- <-]; by eapply stop_element].
    case_decide; [|done]. intros ([l' r'] & Hr & [= <- <-])%bind_Some. eapply more; [done..|]. apply IH; [lia|done].
  - inversion 1 as [s0 Hx|s0 x s1 Hx Ha|s0 x s1 a s2 l' s3 Hx Ha Hlt Hr]; subst; rewrite Hx, ?Ha; [done..|]. rewrite decide_True by done.
    apply IH in Hr; [|lia]. by rewrite Hr.
Qed.

Definition seq {A B} (a : parser A) (b : parser B) : parser (A * B) := λ s, '(x, s) ← a s; '(y, s) ← b s; Some ((x, y), s).
#[global] Instance prim : Winnow := {|
  take_while n f s := if decide (n ≤ length (span f s).1)%nat then Some (span f s) else None;
  literal l s := if decide (l `prefix_of` s) then Some (l, drop (length l) s) else None;
  space0 s := Some (span is_space s);
  alt A ps s := foldr (λ p acc, match p s with Some r => Some r | None => acc end) None ps;
  delimited A B C a b c s := '(_, s) ← a s; '(x, s) ← b s; '(_, s) ← c s; Some (x, s);
  separated1 A B p sep s := '(a, s1) ← p s; '(l, r) ← rest p sep (S (length s1)) s1; Some (a :: l, r);
  pair_of A B := seq;
  parse_error _ := "parse error";
  is_alphanumeric c := bool_decide (48 ≤ c ≤ 57) || bool_decide (65 ≤ c ≤ 90) || bool_decide (97 ≤ c ≤ 122);
|}.
#[global] Instance laws : WinnowLaws prim.
Proof.
  split; try done. intros A B p sep s l r. cbn. split.
  - intros ([a s1] & Ha & ([l' r'] & Hr & [= <- <-])%bind_Some)%bind_Some. exists a, s1, l'. split_and!; [done..|].
    apply (rest_iff p sep (S (length s1))) in Hr; [done|lia].
  - intros (a & s1 & l' & -> & Ha & Hr). rewrite Ha. cbn [mbind option_bind]. apply (rest_iff p sep (S (length s1))) in Hr; [|lia].
    change (('(l, r0) ← rest p sep (S (length s1)) s1; Some (a :: l, r0)) = Some (a :: l', r)). by rewrite Hr.
Qed.

Definition example : Condition :=
  Or [And [Equals (lit "caller.did") (lit "did:a"); NotContains (lit "intent") (lit "drop")]; Contains (lit "namespace") (lit "pub")].

End ToyWinnow.

Lemma dsl_round_trip_witness : parse_dsl (print ToyWinnow.example) = Ok ToyWinnow.example.
Proof. apply (dsl_round_trip (W := ToyWinnow.prim) ToyWinnow.example). vm_compute. reflexivity. Defined.

Lemma dsl_well_formed_witness :
  ∃ c, parse_dsl (lit "(intent == x)OR(") = Err "parse error"%string ∧ parse_dsl (lit "intent contains namespace") = Err "parse error"%string ∧
    parse_dsl (print ToyWinnow.example ++ lit " AND ") = Ok c ∧ wf c = true.
Proof.
  exists ToyWinnow.example. split; [vm_compute; reflexivity|]. split; [vm_compute; reflexivity|].
  assert (parse_dsl (print ToyWinnow.example ++ lit " AND ") = Ok ToyWinnow.example) as H by (vm_compute; reflexivity).
  split; [exact H|]. exact (proj1 (dsl_well_formed (W := ToyWinnow.prim) _ _ H)).
Defined.

Lemma parse_terminates_witness :
  parse_condition (print ToyWinnow.example) = condition_body parse_condition (print ToyWinnow.example) ∧
  is_Some (parse_condition (print ToyWinnow.example)).
Proof.
  split; [exact (proj1 (parse_terminates (W := ToyWinnow.prim)) (print ToyWinnow.example))|].
  vm_compute. by eexists.
Defined.
